(* ===== verification/_CoqProject ===== *)
-Q . S2P
Prelude.v
Machine.v
KString.v
Bytes.v
State.v
Printk.v
Spinlock.v
Kalloc.v
Sched.v
Mlfq.v
Vm.v
PageTable.v
UserMem.v
UserCopy.v
UserFree.v
UserFork.v
Hart.v
Asm.v
Start.v
Switch.v
Console.v
Virtio.v
DiskIo.v
Bio.v
Lru.v
Cache.v
Log.v
Crash.v
Fs.v
Blocks.v
Inode.v
FileWrite.v
File.v
Proc.v
Exec.v
Syscall.v
Trap.v
Boot.v
Typed.v
TypedFs.v
Trampoline.v
UserTable.v
Stub.v
Kernel.v
Procinfo.v
Ticks.v
Grep.v
Sh.v
ShRun.v
Umalloc.v
User.v
Ulib.v
Uprintf.v
Tools.v
ToolsSpec.v
Dashboard.v
GrepTool.v
Mkfs.v
MkfsSpec.v
MkfsImage.v
MkfsCorrect.v
System.v
Usertests.v
