(* ===== verification/Prelude.v ===== *)
(** * xv6-kernel-upgrades: a verification library

    This library models the kernel of src/kernel (xv6 for RISC-V with a multi-level
    feedback queue scheduler, [sys_getprocinfo] and [sys_sleep]), the user library and
    programs of src/user, and mkfs, and proves what makes them correct.

    ** The program and its model

    The kernel's global variables are one record, [State.kstate]; a C function is a
    computation [K A] over it, in the monad of this file.  A computation ends by
    returning ([Ret]), by [panic] ([Panic]), by something C does not define ([Undef]: a
    null pointer, an index out of range), or for lack of fuel ([NoFuel]); or it
    suspends at [swtch] ([Swtch]) with the rest of the function as a continuation, to be
    resumed in whatever state the rest of the system has reached.  [wp] is total
    correctness: it excludes panics, undefined behaviour and running out of fuel.

    Array elements are named by their index, pages by their physical address, and
    physical memory is a finite map from addresses to bytes, so that page tables, the
    free list and user memory are the bytes the code reads and writes.  Machine integers
    are [Z] with the wrap-around of the C types written out ([u32], [i32], [u64], ...).

    - Prelude.v: the computation monad and its total-correctness calculus, loops, generic
      lemmas and tactics.
    - Machine.v: types.h, param.h, riscv.h, memlayout.h; bytes in memory.
    - KString.v: string.c.  Bytes.v: byte arrays and little-endian fields of structs.
    - State.v: the structs of the kernel and [kstate]; abstract spin-locks.
    - Printk.v, Console.v: printk.c, console.c, uart.c.
    - Spinlock.v: spinlock.c with several harts interleaved at each memory access; it
      implements the abstract locks of State.v.
    - Kalloc.v: kalloc.c, the free list threaded through free pages.
    - Sched.v, Mlfq.v: scheduler, sched, yield, sleep, wakeup, kkill of proc.c and the
      tick accounting of trap.c; what they amount to as a scheduling policy.
    - Vm.v: vm.c.  PageTable.v, UserMem.v, UserCopy.v, UserFree.v, UserFork.v: page tables
      as trees of pages, and the theorems on the operations of vm.c.
    - Virtio.v, DiskIo.v: virtio_disk.c, and a transfer from request to completion.
    - Bio.v, Lru.v, Cache.v: sleeplock.c and bio.c, the LRU list as a sequence, and the cache
      as an array of blocks.
    - Log.v, Crash.v: log.c, and transactions under crashes.
    - Fs.v: fs.c.  Blocks.v, Inode.v, FileWrite.v: the block bitmap, reading files and
      directories, and writing files inside a transaction.
    - File.v, Proc.v, Exec.v, Syscall.v, Trap.v, Boot.v: file.c and pipe.c; process life cycle of
      proc.c; exec.c; syscall.c, sysproc.c and sysfile.c; trap.c and plic.c; main.c and the
      kernel page table.
    - Typed.v, TypedFs.v, Kernel.v: the well-formedness of [kstate], that every function
      keeps it, and the kernel as a transition system of system calls, traps, switches,
      user programs and devices.  Procinfo.v, Ticks.v: [sys_getprocinfo] and [sys_sleep].
    - Sh.v, ShRun.v: user/sh.c, its parser, and [runcmd] and [main].
    - User.v: user programs as trees of system calls, and the worlds they run in.  Ulib.v,
      Uprintf.v: ulib.c and printf.c.  Umalloc.v: umalloc.c, on the bytes of the heap.
    - Tools.v: the small programs of src/user, each in a Module of its own.  ToolsSpec.v,
      Dashboard.v: what they do; the monitor on the rows of [sys_getprocinfo].
    - Grep.v, GrepTool.v: the matcher of user/grep.c, and the program.
    - Mkfs.v: mkfs.c.  MkfsSpec.v, MkfsImage.v, MkfsCorrect.v: the files on its image, and the
      view of them that the kernel's theorems start from.

    ** What the theorems show

    Crashes: [Crash.transaction_atomic] takes a transaction that is being committed, a
    stop after any prefix of its disk writes, and any number of stops during recovery,
    and shows that a completed [initlog] leaves all or nothing of it on the disk.  It
    rests on [Cache.cache_refines] (the buffer cache is an array of blocks, and nothing
    of a pinned block reaches the disk before it is written), which rests on
    [DiskIo.disk_transfer].  [Crash.log_write_correct] is absorption, and
    [Crash.full_transaction_panics] what happens when a transaction fills the log.

    Scheduling: which process [scheduler] picks, how processes descend the lanes, that
    the upper lanes drain and that the last lane can starve (Mlfq.v); that no wakeup is
    lost between [sleep] and [wakeup], and [kkill] (Sched.v); mutual exclusion of
    spin-locks and their refinement (Spinlock.v).

    Memory: no page is lost or handed out twice (Kalloc.v); the operations on address
    spaces change exactly the mappings and bytes they should and give back everything
    on failure (UserMem.v to UserFork.v); [memmove] and the string routines (KString.v).

    Files: [Inode.readi_correct] and [Inode.dirlookup_correct] are the contents of files and
    directories as an array of blocks has them, [FileWrite.writei_correct] what a write makes
    of them and what it costs the log, [FileWrite.write_read_back] both together.
    [MkfsCorrect.mkfs_correct] shows that an image of mkfs satisfies what they assume.

    The whole kernel: [Kernel.kernel_typed] and [Kernel.scheduler_misses_nobody] hold in every
    state that any interleaving reaches; [Procinfo.getprocinfo_correct] and
    [Ticks.sleep_never_early] are the added system calls.

    User programs: [Umalloc.allocator_correct] is the heap under any sequence of calls;
    [Uprintf.printf_correct], [ToolsSpec.WcSpec.wc_correct], [GrepTool.grep_correct] and
    [Dashboard.monitor_shows_processes] give the bytes that programs write, error branches
    included; [Grep.match_decides] relates the matcher of grep to the language of its
    pattern; [Sh.parse_show] and [ShRun.shell_runs] the shell to the commands it reads.

    ** Fuel, parameters and the environment

    Loops the source bounds by a counter are folds over the range.  Loops that follow
    pointers or wait are given fuel: the class [Fuel] of Sched.v where the bound is
    the machine's (a wait goes round until the condition holds), and an expression
    that covers every run where it is the data's (the length of a line, the size of a
    range in pages, [NBUF] steps round the LRU list).  Theorems are proved for the
    fuel they name, and say that the computation returns.  The loops of user programs
    that end with their input have fuel, and the theorems ask for one round more than
    the input has bytes; init and the monitor do not end.

    The addresses the linker chooses are the class [Layout]; bytes of the kernel stack
    that a system call copies out without having written them are the class [Stack].
    What happens while a process sleeps is a function from states to states, the
    environment of [sync]; the theorems on disk transfers, the cache and the log use
    [DiskIo.resume], in which the device serves the request, its interrupt is handled and
    the sleeping process is scheduled again.  The device itself is [Virtio.device_serve].
    In Spinlock.v harts interleave at every memory access; elsewhere kernel code runs
    without interruption up to the next context switch, where in Kernel.v anything else
    can happen.  The kernel as user programs see it is [User.os]: files whose bytes arrive
    in pieces of any size, and any replies to the calls that do not concern files.

    ** Not modelled

    The assembly code (entry.S, swtch.S, trampoline.S, kernelvec.S): [swtch] is the
    suspension of a computation, and the saving and restoring of registers around a
    trap is not represented.  Machine-mode start-up (start.c), the programming of the
    UART and PLIC registers, and the accessors of control registers: they act on devices
    only.  Memory reordering: harts interleave sequentially.  The long test programs
    usertests.c and grind.c, which are scripts of system calls; the stubs that usys.pl
    generates; the shell's opening of the console at its start; what mkfs prints. *)
From Stdlib Require Import ZArith Lia.
From stdpp Require Import base list list_numbers gmap strings numbers option.
Local Open Scope Z_scope.

Create Rewrite HintDb run.
Create Rewrite HintDb len.
Create Rewrite HintDb mem.
Create HintDb kern discriminated.

Declare Scope kernel_scope.
Delimit Scope kernel_scope with K.

(** ** Kernel computations *)

(** The outcome of running kernel code from a state.  [Swtch] is a context
    switch ([swtch] of swtch.S): the thread is suspended in state [s] and goes
    on as [k s'] when it is resumed in state [s'].  [Undef] is behaviour that C
    leaves undefined (an access outside an array, a null pointer), and [NoFuel]
    is a loop whose iteration bound was too small. *)
Inductive res (S A : Type) : Type :=
  | Ret (a : A) (s : S)
  | Panic (msg : string) (s : S)
  | Undef (msg : string) (s : S)
  | Swtch (s : S) (k : S → res S A)
  | NoFuel.
Arguments Ret {S A} a s.
Arguments Panic {S A} msg s.
Arguments Undef {S A} msg s.
Arguments Swtch {S A} s k.
Arguments NoFuel {S A}.

Definition M (S A : Type) : Type := S → res S A.

Fixpoint res_bind {S A B} (r : res S A) (f : A → M S B) : res S B :=
  match r with
  | Ret a s => f a s
  | Panic e s => Panic e s
  | Undef e s => Undef e s
  | Swtch s k => Swtch s (λ s', res_bind (k s') f)
  | NoFuel => NoFuel
  end.

Definition ret {S A} (a : A) : M S A := λ s, Ret a s.
Definition bind {S A B} (m : M S A) (f : A → M S B) : M S B :=
  λ s, res_bind (m s) f.
Definition gets {S A} (f : S → A) : M S A := λ s, Ret (f s) s.
Definition modify {S} (f : S → S) : M S unit := λ s, Ret tt (f s).
Definition panic {S A} (msg : string) : M S A := λ s, Panic msg s.
Definition undef {S A} (msg : string) : M S A := λ s, Undef msg s.
Definition nofuel {S A} : M S A := λ _, NoFuel.
Definition swtch {S} : M S unit := λ s, Swtch s (λ s', Ret tt s').

Notation "x ← y ; z" := (bind y (λ x : _, z))
  (at level 20, y at level 100, z at level 200, only parsing) : kernel_scope.
Notation "' x ← y ; z" := (bind y (λ x : _, z))
  (at level 20, x pattern, y at level 100, z at level 200, only parsing) : kernel_scope.
Notation "x ;; z" := (bind x (λ _, z))
  (at level 100, z at level 200, only parsing, right associativity) : kernel_scope.
Local Open Scope kernel_scope.

Definition whenM {S} (b : bool) (m : M S unit) : M S unit :=
  if b then m else ret tt.

(** [unwrap msg o]: a C access that is undefined when [o] is [None]. *)
Definition unwrap {S A} (msg : string) (o : option A) : M S A :=
  match o with Some a => ret a | None => undef msg end.

(** A C [for] over the elements of [l]: the body answers [Some r] to leave the
    loop (a [break], [goto] or [return]) with [r], and [None] to go on. *)
Fixpoint for_list {S X A} (l : list X) (body : X → M S (option A)) : M S (option A) :=
  match l with
  | [] => ret None
  | x :: l' =>
      r ← body x;
      match r with Some a => ret (Some a) | None => for_list l' body end
  end.

(** A C [for] without an early exit. *)
Fixpoint for_each {S X} (l : list X) (body : X → M S unit) : M S unit :=
  match l with
  | [] => ret tt
  | x :: l' => body x ;; for_each l' body
  end.

(** A C [while] of at most [n] iterations: the body answers [Some r] to leave. *)
Fixpoint loop {S A} (n : nat) (body : M S (option A)) : M S A :=
  match n with
  | O => nofuel
  | Datatypes.S n' =>
      r ← body;
      match r with Some a => ret a | None => loop n' body end
  end.

(** ** Weakest preconditions *)

(** [wp m Q s]: run from [s], [m] returns without panicking, without undefined
    behaviour and without switching, and [Q] holds of the result. *)
Definition wp {S A} (m : M S A) (Q : A → S → Prop) (s : S) : Prop :=
  match m s with Ret a s' => Q a s' | _ => False end.

Section wp.
Context {S : Type}.
Implicit Types s : S.


Lemma wp_ret {A} (a : A) Q s : Q a s → wp (ret a) Q s.
Proof. done. Qed.

Lemma wp_bind {A B} (m : M S A) (f : A → M S B) Q s :
  wp m (λ a s', wp (f a) Q s') s → wp (bind m f) Q s.
Proof. unfold wp, bind. by destruct (m s). Qed.

Lemma wp_bind_inv {A B} (m : M S A) (f : A → M S B) Q s :
  wp (bind m f) Q s → wp m (λ a s', wp (f a) Q s') s.
Proof. unfold wp, bind. by destruct (m s). Qed.

Lemma wp_gets {A} (f : S → A) Q s : Q (f s) s → wp (gets f) Q s.
Proof. done. Qed.

Lemma wp_modify (f : S → S) Q s : Q tt (f s) → wp (modify f) Q s.
Proof. done. Qed.

Lemma wp_unwrap {A} msg (o : option A) a Q s :
  o = Some a → Q a s → wp (unwrap msg o) Q s.
Proof. by intros ->. Qed.

Lemma wp_mono {A} (m : M S A) (P Q : A → S → Prop) s :
  wp m P s → (∀ a s', P a s' → Q a s') → wp m Q s.
Proof. unfold wp. destruct (m s); eauto. Qed.

Lemma wp_and {A} (m : M S A) (P Q : A → S → Prop) s :
  wp m P s → wp m Q s → wp m (λ a s', P a s' ∧ Q a s') s.
Proof. unfold wp. destruct (m s); eauto. Qed.

Lemma wp_run {A} (m : M S A) Q s :
  wp m Q s ↔ ∃ a s', m s = Ret a s' ∧ Q a s'.
Proof.
  unfold wp. split.
  - destruct (m s) eqn:E; try done. eauto.
  - intros (a & s' & -> & HQ). done.
Qed.

Lemma wp_eq {A} (m : M S A) Q s a s' :
  m s = Ret a s' → Q a s' → wp m Q s.
Proof. unfold wp. by intros ->. Qed.

(** Loop rules: [I] relates the elements still to visit to the state. *)
Lemma wp_for_each {X} (I : list X → S → Prop) (l : list X) body Q s :
  I l s →
  (∀ x l' s', I (x :: l') s' → wp (body x) (λ _ s'', I l' s'') s') →
  (∀ s', I [] s' → Q tt s') →
  wp (for_each l body) Q s.
Proof.
  intros HI Hb HQ. revert s HI. induction l as [|x l IH]; simpl; intros s HI.
  - apply wp_ret; eauto.
  - apply wp_bind. eapply wp_mono; [by apply Hb|]. simpl. eauto.
Qed.

Lemma wp_for_list {X A} (I : list X → S → Prop) (l : list X) (body : X → M S (option A)) Q s :
  I l s →
  (∀ x l' s', I (x :: l') s' →
     wp (body x) (λ r s'', match r with Some a => Q (Some a) s'' | None => I l' s'' end) s') →
  (∀ s', I [] s' → Q None s') →
  wp (for_list l body) Q s.
Proof.
  intros HI Hb HQ. revert s HI. induction l as [|x l IH]; simpl; intros s HI.
  - apply wp_ret; eauto.
  - apply wp_bind. eapply wp_mono; [by apply Hb|].
    intros [a|] s' H; simpl; [by apply wp_ret | eauto].
Qed.
End wp.

(** Equations of the monad, for evaluating a run step by step. *)
Section run.
Context {S : Type}.

Lemma bind_ret_l {A B} (a : A) (f : A → M S B) s : bind (ret a) f s = f a s.
Proof. done. Qed.

Lemma bind_run {A B} (m : M S A) (f : A → M S B) s a s' :
  m s = Ret a s' → bind m f s = f a s'.
Proof. unfold bind. by intros ->. Qed.

Lemma bind_panic {A B} (m : M S A) (f : A → M S B) s e s' :
  m s = Panic e s' → bind m f s = Panic e s'.
Proof. unfold bind. by intros ->. Qed.

Lemma bind_swtch {A B} (m : M S A) (f : A → M S B) s s' k :
  m s = Swtch s' k → bind m f s = Swtch s' (λ s'', res_bind (k s'') f).
Proof. unfold bind. by intros ->. Qed.

Lemma bind_gets {A B} (g : S → A) (f : A → M S B) s : bind (gets g) f s = f (g s) s.
Proof. done. Qed.

Lemma bind_modify {B} (g : S → S) (f : unit → M S B) s :
  bind (modify g) f s = f tt (g s).
Proof. done. Qed.

Lemma for_list_app {X A} (l1 l2 : list X) (body : X → M S (option A)) s s' :
  for_list l1 body s = Ret None s' →
  for_list (l1 ++ l2) body s = for_list l2 body s'.
Proof.
  revert s. induction l1 as [|x l1 IH]; simpl; intros s H.
  - by inversion H.
  - unfold bind in *. destruct (body x s) as [[a|] t| | | |]; simpl in *; try done.
    by apply IH.
Qed.
End run.

#[export] Hint Rewrite @bind_ret_l @bind_gets @bind_modify : run.

(** ** Runs with context switches

    [sync env m] runs [m] to its end when every context switch in state [s] is
    followed by a resumption in state [env s]. *)

Fixpoint run_with {S A} (env : S → option S) (r : res S A) : res S A :=
  match r with
  | Swtch s k =>
      match env s with Some s' => run_with env (k s') | None => Undef "never resumed" s end
  | _ => r
  end.
Definition sync {S A} (env : S → option S) (m : M S A) : M S A := λ s, run_with env (m s).

Section sync.
Context {S : Type} (env : S → option S).

Lemma run_with_bind {A B} (r : res S A) (f : A → M S B) :
  run_with env (res_bind r f) = res_bind (run_with env r) (λ a, sync env (f a)).
Proof.
  induction r as [a s|e s|e s|s k IH|]; cbn; try done. destruct (env s); [apply IH|done].
Qed.
Lemma sync_bind {A B} (m : M S A) (f : A → M S B) s :
  sync env (bind m f) s = bind (sync env m) (λ a, sync env (f a)) s.
Proof. apply run_with_bind. Qed.

Lemma sync_run {A} (m : M S A) s a s' : m s = Ret a s' → sync env m s = Ret a s'.
Proof. unfold sync. by intros ->. Qed.
Lemma sync_panic {A} (m : M S A) s e s' : m s = Panic e s' → sync env m s = Panic e s'.
Proof. unfold sync. by intros ->. Qed.
Lemma sync_swtch {A} (m : M S A) s s1 s2 k :
  m s = Swtch s1 k → env s1 = Some s2 → sync env m s = run_with env (k s2).
Proof. unfold sync. intros -> E. cbn. by rewrite E. Qed.

Lemma sync_loop_S {A} n (body : M S (option A)) s :
  sync env (loop (Datatypes.S n) body) s =
  bind (sync env body) (λ r, sync env (match r with Some a => ret a | None => loop n body end)) s.
Proof. cbn [loop]. apply sync_bind. Qed.

(** The rules of [wp] for such runs. *)
Lemma wps_bind {A B} (m : M S A) (f : A → M S B) Q s :
  wp (sync env m) (λ a s', wp (sync env (f a)) Q s') s → wp (sync env (bind m f)) Q s.
Proof. unfold wp at 3. rewrite sync_bind. apply wp_bind. Qed.
Lemma wps_of_wp {A} (m : M S A) Q s : wp m Q s → wp (sync env m) Q s.
Proof. unfold wp, sync. by destruct (m s). Qed.
Lemma wps_eq {A} (m : M S A) Q s a s' : m s = Ret a s' → Q a s' → wp (sync env m) Q s.
Proof. intros E HQ. apply wps_of_wp. by eapply wp_eq. Qed.
Lemma wps_for_each {X} (I : list X → S → Prop) (l : list X) body Q s :
  I l s →
  (∀ x l' s', I (x :: l') s' → wp (sync env (body x)) (λ _ s'', I l' s'') s') →
  (∀ s', I [] s' → Q tt s') →
  wp (sync env (for_each l body)) Q s.
Proof.
  intros HI Hb HQ. revert s HI. induction l as [|x l IH]; intros s HI.
  - apply wps_of_wp, wp_ret; eauto.
  - cbn [for_each]. apply wps_bind. eapply wp_mono; [by apply Hb|]. cbn. eauto.
Qed.
Lemma wps_for_list {X A} (I : list X → S → Prop) (l : list X) (body : X → M S (option A)) Q s :
  I l s →
  (∀ x l' s', I (x :: l') s' →
     wp (sync env (body x))
       (λ r s'', match r with Some a => Q (Some a) s'' | None => I l' s'' end) s') →
  (∀ s', I [] s' → Q None s') →
  wp (sync env (for_list l body)) Q s.
Proof.
  intros HI Hb HQ. revert s HI. induction l as [|x l IH]; intros s HI.
  - apply wps_of_wp, wp_ret; eauto.
  - cbn [for_list]. apply wps_bind. eapply wp_mono; [by apply Hb|].
    intros [a|] s' H; [by apply wps_of_wp, wp_ret | eauto].
Qed.
End sync.

(** [wp_step] applies the rule of the head command; [wp_go] repeats it.
    [wp_user] is extended with the rules of later files. *)
Ltac wp_user := fail.
Ltac wp_step :=
  match goal with
  | |- _ => wp_user
  | |- wp (ret _) _ _ => apply wp_ret
  | |- wp (sync _ (bind _ _)) _ _ => apply wps_bind
  | |- wp (sync _ (ret _)) _ _ => apply wps_of_wp, wp_ret
  | |- wp (sync _ (gets _)) _ _ => apply wps_of_wp, wp_gets
  | |- wp (sync _ (modify _)) _ _ => apply wps_of_wp, wp_modify
  | |- wp (sync _ (whenM true _)) _ _ => unfold whenM at 1
  | |- wp (sync _ (whenM false _)) _ _ => unfold whenM at 1
  | H : ?o = Some _ |- wp (sync _ (unwrap _ ?o)) _ _ =>
      apply wps_of_wp; eapply wp_unwrap; [exact H|]
  | |- wp (bind _ _) _ _ => apply wp_bind
  | |- wp (gets _) _ _ => apply wp_gets
  | |- wp (modify _) _ _ => apply wp_modify
  | |- wp (whenM true _) _ _ => unfold whenM at 1
  | |- wp (whenM false _) _ _ => unfold whenM at 1
  | |- wp (unwrap _ (Some _)) _ _ => eapply wp_unwrap; [reflexivity|]
  | H : ?o = Some _ |- wp (unwrap _ ?o) _ _ => eapply wp_unwrap; [exact H|]
  end.
Ltac wp_go := repeat (wp_step; cbn beta).

(** [lia] with the defining equations of [/] and [mod]. *)
Ltac dlia := Z.to_euclidean_division_equations; lia.

(** ** Lists *)

Section lists.
Context {A : Type}.
Implicit Types (l : list A) (i j : nat) (x y : A).

(** The first index whose element satisfies [f]. *)
Fixpoint find_index (f : A → bool) l : option nat :=
  match l with
  | [] => None
  | x :: l' => if f x then Some O else S <$> find_index f l'
  end.

Lemma find_index_Some f l i :
  find_index f l = Some i ↔
  (∃ x, l !! i = Some x ∧ f x = true) ∧
  (∀ j y, (j < i)%nat → l !! j = Some y → f y = false).
Proof.
  revert i. induction l as [|x l IH]; intros i; simpl.
  - split; [done|]. intros [(y & H & _) _]. done.
  - destruct (f x) eqn:Hx.
    + split.
      * intros [= <-]. split; [by exists x|]. intros j y Hj. lia.
      * intros [(y & Hy & Hfy) Hlt]. destruct i as [|i]; [done|].
        specialize (Hlt O x ltac:(lia) eq_refl). congruence.
    + rewrite fmap_Some. split.
      * intros (k & Hk & ->). apply IH in Hk as [(y & Hy & Hfy) Hlt].
        split; [by exists y|]. intros [|j] z Hj Hz; simpl in Hz; [congruence|].
        apply (Hlt j); [lia|done].
      * intros [(y & Hy & Hfy) Hlt]. destruct i as [|i]; simpl in Hy; [congruence|].
        exists i. split; [|done]. apply IH. split; [by exists y|].
        intros j z Hj Hz. apply (Hlt (S j)); [lia|done].
Qed.

Lemma find_index_None f l :
  find_index f l = None ↔ ∀ i x, l !! i = Some x → f x = false.
Proof.
  induction l as [|x l IH]; simpl; [split; done|].
  destruct (f x) eqn:Hx.
  - split; [done|]. intros H. by specialize (H O x eq_refl); congruence.
  - rewrite fmap_None, IH. split.
    + intros H [|i] y Hy; simpl in Hy; [congruence|eauto].
    + intros H i y Hy. by apply (H (S i)).
Qed.

Lemma list_lookup_insert_full l i j x :
  (i < length l)%nat →
  <[i:=x]> l !! j = if decide (i = j) then Some x else l !! j.
Proof.
  intros. case_decide as E; [subst; by apply list_lookup_insert_eq|].
  by apply list_lookup_insert_ne.
Qed.

(** [l] without its first occurrence of [x]. *)
Fixpoint remove_one `{!EqDecision A} x l : list A :=
  match l with
  | [] => []
  | y :: l' => if decide (x = y) then l' else y :: remove_one x l'
  end.

Lemma remove_one_head `{!EqDecision A} x l : remove_one x (x :: l) = l.
Proof. simpl. by rewrite decide_True. Qed.

Lemma elem_of_remove_one `{!EqDecision A} x y l :
  NoDup l → y ∈ remove_one x l ↔ y ∈ l ∧ y ≠ x.
Proof.
  induction l as [|z l IH]; intros Hnd; cbn [remove_one]; [set_solver|].
  apply list.NoDup_cons in Hnd as [Hz Hnd].
  case_decide as E; rewrite ?elem_of_cons; [subst; set_solver|].
  rewrite IH by done. set_solver.
Qed.

Lemma NoDup_remove_one `{!EqDecision A} x l : NoDup l → NoDup (remove_one x l).
Proof.
  induction l as [|z l IH]; intros Hnd; cbn [remove_one]; [done|].
  pose proof Hnd as Hnd'. apply list.NoDup_cons in Hnd as [Hz Hnd].
  case_decide; [done|]. apply list.NoDup_cons. split; [|auto].
  rewrite elem_of_remove_one by done. tauto.
Qed.

Lemma length_remove_one `{!EqDecision A} x l :
  x ∈ l → S (length (remove_one x l)) = length l.
Proof.
  induction l as [|z l IH]; intros Hx; cbn [remove_one]; [set_solver|].
  case_decide; [done|]. simpl. rewrite IH; set_solver.
Qed.

Lemma list_alter_insert (f : A → A) l i x :
  l !! i = Some x → alter f i l = <[i := f x]> l.
Proof.
  intros H. apply list_eq. intros j.
  rewrite list_lookup_alter, list_lookup_insert_full by eauto using lookup_lt_Some.
  case_decide; [by rewrite H|done].
Qed.

Lemma Forall_insert_ok (P : A → Prop) l i x :
  Forall P l → P x → Forall P (<[i:=x]> l).
Proof. intros. by apply Forall_insert. Qed.
End lists.

#[export] Hint Rewrite @length_insert @length_app @length_replicate @length_seq
  @length_take @length_drop @length_fmap : len.
