(* ===== verification/Machine.v ===== *)
(** * Machine integers, kernel constants and byte-addressed memory

    The widths of types.h as wrap-around on [Z], the constants and macros of
    param.h, riscv.h, memlayout.h and fs.h, and physical memory as bytes with
    little-endian loads and stores. *)
From Stdlib Require Import ZArith Lia.
From stdpp Require Import base list gmap numbers.
From S2P Require Import Prelude.
Local Open Scope Z_scope.

(** ** Integers (types.h) *)

Definition u8 (z : Z) : Z := z mod 2 ^ 8.
Definition u16 (z : Z) : Z := z mod 2 ^ 16.
Definition u32 (z : Z) : Z := z mod 2 ^ 32.
Definition u64 (z : Z) : Z := z mod 2 ^ 64.
(** [int]: two's complement, as gcc compiles it for rv64. *)
Definition i32 (z : Z) : Z := (z + 2 ^ 31) mod 2 ^ 32 - 2 ^ 31.
Definition i16 (z : Z) : Z := (z + 2 ^ 15) mod 2 ^ 16 - 2 ^ 15.

Lemma u8_range z : 0 ≤ u8 z < 256.
Proof. unfold u8. apply Z.mod_pos_bound. lia. Qed.
Lemma u32_range z : 0 ≤ u32 z < 2 ^ 32.
Proof. unfold u32. apply Z.mod_pos_bound. lia. Qed.
Lemma u64_range z : 0 ≤ u64 z < 2 ^ 64.
Proof. unfold u64. apply Z.mod_pos_bound. lia. Qed.
Lemma i32_range z : - 2 ^ 31 ≤ i32 z < 2 ^ 31.
Proof.
  unfold i32. assert (0 ≤ (z + 2 ^ 31) mod 2 ^ 32 < 2 ^ 32)
    by (apply Z.mod_pos_bound; lia). lia.
Qed.
Lemma u8_small z : 0 ≤ z < 256 → u8 z = z.
Proof. intros. unfold u8. apply Z.mod_small. lia. Qed.
Lemma u32_small z : 0 ≤ z < 2 ^ 32 → u32 z = z.
Proof. intros. unfold u32. apply Z.mod_small. lia. Qed.
Lemma u64_small z : 0 ≤ z < 2 ^ 64 → u64 z = z.
Proof. intros. unfold u64. apply Z.mod_small. lia. Qed.
Lemma i32_small z : - 2 ^ 31 ≤ z < 2 ^ 31 → i32 z = z.
Proof. intros. unfold i32. rewrite Z.mod_small; lia. Qed.
Lemma u8_idemp z : u8 (u8 z) = u8 z.
Proof. unfold u8. by rewrite Z.mod_mod by lia. Qed.

(** ** Constants (param.h, riscv.h, memlayout.h) *)

Definition NPROC : nat := 64.
Definition NCPU : nat := 8.
Definition NOFILE : nat := 16.
Definition NFILE : nat := 100.
Definition NINODE : nat := 50.
Definition NDEV : Z := 10.
Definition ROOTDEV : Z := 1.
Definition MAXARG : nat := 32.
Definition MAXOPBLOCKS : Z := 10.
Definition LOGBLOCKS : Z := MAXOPBLOCKS * 3.
Definition NBUF : nat := Z.to_nat (MAXOPBLOCKS * 3).
Definition FSSIZE : Z := 2000.
Definition MAXPATH : Z := 128.
Definition USERSTACK : Z := 1.

Definition PGSIZE : Z := 4096.
Definition PGSHIFT : Z := 12.
Definition PGROUNDUP (sz : Z) : Z := Z.land (u64 (sz + PGSIZE - 1)) (Z.lnot (PGSIZE - 1)).
Definition PGROUNDDOWN (a : Z) : Z := Z.land a (Z.lnot (PGSIZE - 1)).
Definition PTE_V : Z := Z.shiftl 1 0.
Definition PTE_R : Z := Z.shiftl 1 1.
Definition PTE_W : Z := Z.shiftl 1 2.
Definition PTE_X : Z := Z.shiftl 1 3.
Definition PTE_U : Z := Z.shiftl 1 4.
Definition PA2PTE (pa : Z) : Z := u64 (Z.shiftl (Z.shiftr pa 12) 10).
Definition PTE2PA (pte : Z) : Z := u64 (Z.shiftl (Z.shiftr pte 10) 12).
Definition PTE_FLAGS (pte : Z) : Z := Z.land pte 0x3FF.
Definition PXMASK : Z := 0x1FF.
Definition PXSHIFT (level : Z) : Z := PGSHIFT + 9 * level.
Definition PX (level va : Z) : Z := Z.land (Z.shiftr va (PXSHIFT level)) PXMASK.
Definition MAXVA : Z := Z.shiftl 1 (9 + 9 + 9 + 12 - 1).

Definition KERNBASE : Z := 0x80000000.
Definition PHYSTOP : Z := KERNBASE + 128 * 1024 * 1024.
Definition TRAMPOLINE : Z := MAXVA - PGSIZE.
Definition KSTACK (p : Z) : Z := TRAMPOLINE - (p + 1) * 2 * PGSIZE.
Definition TRAPFRAME : Z := TRAMPOLINE - PGSIZE.

(** The addresses the linker chooses: the end of the kernel's text, the trampoline
    page inside it, the first address after the kernel, and the code addresses the
    kernel stores ([a_] marks the address of a function or label). *)
Class Layout := {
  kend : Z;
  etext : Z;
  trampoline : Z;
  a_forkret : Z;
  a_usertrap : Z;
  a_kernelvec : Z;
  a_uservec : Z;
  kend_range : KERNBASE < kend ≤ PHYSTOP;
  etext_range : KERNBASE < etext ≤ kend;
  etext_aligned : etext mod PGSIZE = 0;
  trampoline_range : KERNBASE ≤ trampoline < etext;
  trampoline_aligned : trampoline mod PGSIZE = 0;
}.

(** ** Page arithmetic *)

Lemma land_lnot_pages a : Z.land a (Z.lnot (PGSIZE - 1)) = PGSIZE * (a / PGSIZE).
Proof.
  replace (PGSIZE - 1) with (Z.ones 12) by reflexivity.
  rewrite <- Z.ldiff_land, Z.ldiff_ones_r by lia.
  rewrite Z.shiftl_mul_pow2, Z.shiftr_div_pow2 by lia.
  change (2 ^ 12) with PGSIZE. lia.
Qed.

Lemma PGROUNDDOWN_eq a : PGROUNDDOWN a = PGSIZE * (a / PGSIZE).
Proof. apply land_lnot_pages. Qed.

Lemma PGROUNDUP_eq a : 0 ≤ a < 2 ^ 63 → PGROUNDUP a = PGSIZE * ((a + PGSIZE - 1) / PGSIZE).
Proof.
  intros. unfold PGROUNDUP. rewrite land_lnot_pages, u64_small; [done|].
  unfold PGSIZE. lia.
Qed.

Lemma PGROUNDUP_spec a : 0 ≤ a < 2 ^ 63 →
  PGROUNDUP a mod PGSIZE = 0 ∧ a ≤ PGROUNDUP a < a + PGSIZE.
Proof.
  intros. rewrite PGROUNDUP_eq by done. unfold PGSIZE.
  split; [rewrite Z.mul_comm; apply Z.mod_mul; lia|].
  pose proof (Z.div_mod (a + 4096 - 1) 4096 ltac:(lia)).
  pose proof (Z.mod_pos_bound (a + 4096 - 1) 4096 ltac:(lia)). lia.
Qed.

Lemma PGROUNDDOWN_spec a :
  PGROUNDDOWN a mod PGSIZE = 0 ∧ PGROUNDDOWN a ≤ a < PGROUNDDOWN a + PGSIZE.
Proof.
  rewrite PGROUNDDOWN_eq. unfold PGSIZE.
  split; [rewrite Z.mul_comm; apply Z.mod_mul; lia|].
  pose proof (Z.div_mod a 4096 ltac:(lia)).
  pose proof (Z.mod_pos_bound a 4096 ltac:(lia)). lia.
Qed.

Lemma PX_range level va : 0 ≤ PX level va < 512.
Proof.
  unfold PX. change PXMASK with (Z.ones 9).
  rewrite Z.land_ones by lia. apply Z.mod_pos_bound. lia.
Qed.

(** ** Page-table entries *)

Lemma land_low_0 x c k : 0 ≤ k → 0 ≤ c < 2 ^ k → Z.land (Z.shiftl x k) c = 0.
Proof.
  intros Hk Hc. destruct (decide (c = 0)) as [->|Hc0]; [apply Z.land_0_r|].
  apply Z.bits_inj'. intros n Hn. rewrite Z.land_spec, Z.bits_0.
  destruct (Z_lt_ge_dec n k).
  - by rewrite Z.shiftl_spec_low.
  - rewrite (Z.bits_above_log2 c n); [by rewrite andb_false_r|lia|].
    assert (Z.log2 c < k) by (apply Z.log2_lt_pow2; lia). lia.
Qed.

(** A page address a page-table entry can hold. *)
Definition pte_addr (pa : Z) : Prop := pa mod PGSIZE = 0 ∧ 0 ≤ pa < 2 ^ 56.

Lemma PA2PTE_shift pa : pte_addr pa → PA2PTE pa = Z.shiftl (pa / PGSIZE) 10.
Proof.
  intros [_ Hr]. unfold PA2PTE. rewrite (Z.shiftr_div_pow2 pa) by lia.
  change (2 ^ 12) with PGSIZE. apply u64_small. rewrite Z.shiftl_mul_pow2 by lia.
  unfold PGSIZE. dlia.
Qed.

Lemma PA2PTE_land pa f c :
  pte_addr pa → 0 ≤ c < 1024 → Z.land (Z.lor (PA2PTE pa) f) c = Z.land f c.
Proof.
  intros Hpa Hc. rewrite Z.land_lor_distr_l, PA2PTE_shift by done.
  rewrite land_low_0 by lia. apply Z.lor_0_l.
Qed.

Lemma lor_range a b k : 0 ≤ k → 0 ≤ a < 2 ^ k → 0 ≤ b < 2 ^ k → 0 ≤ Z.lor a b < 2 ^ k.
Proof.
  intros Hk Ha Hb. split; [apply Z.lor_nonneg; lia|].
  destruct (decide (a = 0)) as [->|Ha0]; [rewrite Z.lor_0_l; lia|].
  destruct (decide (b = 0)) as [->|Hb0]; [rewrite Z.lor_0_r; lia|].
  assert (Z.lor a b ≠ 0) by (rewrite Z.lor_eq_0_iff; lia).
  pose proof (proj2 (Z.lor_nonneg a b) ltac:(lia)).
  apply Z.log2_lt_pow2; [lia|]. rewrite Z.log2_lor by lia.
  apply Z.max_lub_lt; apply Z.log2_lt_pow2; lia.
Qed.

Lemma PA2PTE_range pa f : pte_addr pa → 0 ≤ f < 1024 → 0 ≤ Z.lor (PA2PTE pa) f < 2 ^ 54.
Proof.
  intros Hpa Hf. apply lor_range; [lia| |lia]. rewrite PA2PTE_shift by done.
  destruct Hpa. rewrite Z.shiftl_mul_pow2 by lia. unfold PGSIZE in *. dlia.
Qed.

Lemma PTE2PA_PA2PTE pa f : pte_addr pa → 0 ≤ f < 1024 → PTE2PA (Z.lor (PA2PTE pa) f) = pa.
Proof.
  intros Hpa Hf. unfold PTE2PA. rewrite Z.shiftr_lor, PA2PTE_shift by done.
  rewrite Z.shiftr_shiftl_l, Z.shiftl_0_r by lia.
  rewrite (Z.shiftr_div_pow2 f), (Z.div_small f) by lia. rewrite Z.lor_0_r.
  rewrite Z.shiftl_mul_pow2 by lia. destruct Hpa as [Ha Hr].
  change (2 ^ 12) with PGSIZE. pose proof (Z.div_mod pa PGSIZE ltac:(done)).
  rewrite u64_small; unfold PGSIZE in *; lia.
Qed.

Lemma PTE_FLAGS_PA2PTE pa f : pte_addr pa → 0 ≤ f < 1024 → PTE_FLAGS (Z.lor (PA2PTE pa) f) = f.
Proof.
  intros. unfold PTE_FLAGS. rewrite PA2PTE_land by (done || lia).
  change 0x3FF with (Z.ones 10). rewrite Z.land_ones by lia. by apply Z.mod_small.
Qed.

(** The three indices determine the page. *)
Lemma PX_eq level va : 0 ≤ level → PX level va = (va / PGSIZE) / 512 ^ level mod 512.
Proof.
  intros. unfold PX, PXSHIFT, PGSHIFT. change PXMASK with (Z.ones 9).
  rewrite Z.land_ones, Z.shiftr_div_pow2 by lia.
  rewrite Z.pow_add_r, Z.pow_mul_r by lia. change (2 ^ 12) with PGSIZE. change (2 ^ 9) with 512.
  rewrite Z.div_div; [done|done|]. apply Z.pow_pos_nonneg; lia.
Qed.

Lemma PX_inj va va' :
  0 ≤ va < MAXVA → 0 ≤ va' < MAXVA →
  PX 2 va = PX 2 va' → PX 1 va = PX 1 va' → PX 0 va = PX 0 va' → va / PGSIZE = va' / PGSIZE.
Proof.
  intros H H'. rewrite !PX_eq by lia. change (512 ^ 2) with 262144.
  change (512 ^ 1) with 512. change (512 ^ 0) with 1. rewrite !Z.div_1_r.
  assert (∀ x, 0 ≤ x < MAXVA → 0 ≤ x / PGSIZE < 134217728) as Hb.
  { intros x Hx. change MAXVA with 274877906944 in Hx. unfold PGSIZE. dlia. }
  pose proof (Hb _ H). pose proof (Hb _ H'). dlia.
Qed.

Lemma MAXVA_val : MAXVA = 274877906944.
Proof. reflexivity. Qed.

Lemma PX2_low va : 0 ≤ va < MAXVA → PX 2 va < 256.
Proof.
  rewrite MAXVA_val, PX_eq by lia. change (512 ^ 2) with 262144. unfold PGSIZE. intros. dlia.
Qed.

Lemma PX_page level va va' : 0 ≤ level → va / PGSIZE = va' / PGSIZE → PX level va = PX level va'.
Proof. intros ? E. by rewrite !PX_eq, E. Qed.

(** ** Byte-addressed memory *)

Abbreviation mem := (gmap Z Z).

Definition ld8 (m : mem) (a : Z) : Z := u8 (default 0 (m !! a)).
Definition st8 (m : mem) (a v : Z) : mem := <[a := u8 v]> m.

(** Little-endian loads and stores of [n] bytes. *)
Fixpoint ldn (n : nat) (m : mem) (a : Z) : Z :=
  match n with
  | O => 0
  | S n' => ld8 m a + 256 * ldn n' m (a + 1)
  end.
Fixpoint stn (n : nat) (m : mem) (a v : Z) : mem :=
  match n with
  | O => m
  | S n' => st8 (stn n' m (a + 1) (v / 256)) a v
  end.
Definition ld32 := ldn 4.
Definition st32 := stn 4.
Definition ld64 := ldn 8.
Definition st64 := stn 8.

Lemma ldn_S n m a : ldn (S n) m a = ld8 m a + 256 * ldn n m (a + 1).
Proof. done. Qed.

Lemma ld8_range m a : 0 ≤ ld8 m a < 256.
Proof. apply u8_range. Qed.

Lemma ld8_st8 m a v b : ld8 (st8 m a v) b = if decide (a = b) then u8 v else ld8 m b.
Proof.
  unfold ld8, st8. rewrite lookup_insert. case_decide; [|done]. apply u8_idemp.
Qed.

Lemma ldn_range n m a : 0 ≤ ldn n m a < 256 ^ Z.of_nat n.
Proof.
  revert a. induction n as [|n IH]; intros a.
  - simpl. lia.
  - rewrite Nat2Z.inj_succ, Z.pow_succ_r by lia. simpl ldn.
    pose proof (ld8_range m a). specialize (IH (a + 1)). lia.
Qed.

Lemma ldn_ext n m m' a :
  (∀ b, a ≤ b < a + Z.of_nat n → ld8 m b = ld8 m' b) → ldn n m a = ldn n m' a.
Proof.
  revert a. induction n as [|n IH]; intros a H; [done|]. simpl.
  rewrite (H a) by lia. f_equal. f_equal. apply IH. intros b Hb. apply H. lia.
Qed.

Lemma ld8_stn_ne n m a v b :
  ¬ (a ≤ b < a + Z.of_nat n) → ld8 (stn n m a v) b = ld8 m b.
Proof.
  revert a v. induction n as [|n IH]; intros a v H; [done|]. cbn [stn].
  rewrite ld8_st8. case_decide; [lia|]. apply IH. lia.
Qed.

Lemma ldn_stn_same n m a v : ldn n (stn n m a v) a = v mod 256 ^ Z.of_nat n.
Proof.
  revert a v. induction n as [|n IH]; intros a v.
  - simpl. by rewrite Z.mod_1_r.
  - cbn [ldn stn]. rewrite ld8_st8, decide_True by done.
    rewrite (ldn_ext n _ (stn n m (a + 1) (v / 256))).
    2:{ intros b Hb. rewrite ld8_st8, decide_False by lia. done. }
    rewrite IH, Nat2Z.inj_succ, Z.pow_succ_r by lia.
    rewrite Z.rem_mul_r by lia. unfold u8. change (2 ^ 8) with 256. lia.
Qed.

Lemma ldn_stn_ne n k m a b v :
  a + Z.of_nat n ≤ b ∨ b + Z.of_nat k ≤ a → ldn n (stn k m b v) a = ldn n m a.
Proof. intros. apply ldn_ext. intros c Hc. apply ld8_stn_ne. lia. Qed.

Lemma ld64_range m a : 0 ≤ ld64 m a < 2 ^ 64.
Proof. pose proof (ldn_range 8 m a). unfold ld64. lia. Qed.

Lemma ld64_st64_same m a v : 0 ≤ v < 2 ^ 64 → ld64 (st64 m a v) a = v.
Proof.
  intros. unfold ld64, st64. rewrite ldn_stn_same. apply Z.mod_small.
  change (256 ^ Z.of_nat 8) with (2 ^ 64). done.
Qed.

Lemma ld64_st64_ne m a b v : a + 8 ≤ b ∨ b + 8 ≤ a → ld64 (st64 m b v) a = ld64 m a.
Proof. intros. unfold ld64, st64. apply ldn_stn_ne. lia. Qed.

Lemma ld8_st64_ne m a b v : ¬ (b ≤ a < b + 8) → ld8 (st64 m b v) a = ld8 m a.
Proof. intros. unfold st64. apply ld8_stn_ne. lia. Qed.

Lemma ld64_ext m m' a :
  (∀ b, a ≤ b < a + 8 → ld8 m b = ld8 m' b) → ld64 m a = ld64 m' a.
Proof. intros. by apply ldn_ext. Qed.

Lemma ldn_zero n m a : (∀ b, a ≤ b < a + Z.of_nat n → ld8 m b = 0) → ldn n m a = 0.
Proof.
  revert a. induction n as [|n IH]; intros a H; [done|].
  rewrite ldn_S, (H a) by lia. rewrite IH; [done|]. intros b Hb. apply H. lia.
Qed.
Lemma ld64_zero m a : (∀ b, a ≤ b < a + 8 → ld8 m b = 0) → ld64 m a = 0.
Proof. intros; by apply (ldn_zero 8). Qed.

#[global] Arguments ldn : simpl never.
#[global] Arguments stn : simpl never.
#[global] Arguments ld8 : simpl never.
#[global] Arguments st8 : simpl never.
#[global] Arguments ld32 : simpl never.
#[global] Arguments st32 : simpl never.
#[global] Arguments ld64 : simpl never.
#[global] Arguments st64 : simpl never.
#[global] Arguments u8 : simpl never.
#[global] Arguments u16 : simpl never.
#[global] Arguments u32 : simpl never.
#[global] Arguments u64 : simpl never.
#[global] Arguments i32 : simpl never.
#[global] Arguments i16 : simpl never.
#[global] Arguments PGROUNDUP : simpl never.
#[global] Arguments PGROUNDDOWN : simpl never.
#[global] Arguments PA2PTE : simpl never.
#[global] Arguments PTE2PA : simpl never.
#[global] Arguments PX : simpl never.
