(* ===== verification/KString.v ===== *)
(** * kernel/string.c

    Block operations on physical memory ([memset], [memmove], [memcmp]) and
    operations on C strings.  A string that is read is given by its bytes
    [nat → Z] from the pointer on; an array that is written is a list. *)
From Stdlib Require Import ZArith Lia.
From stdpp Require Import base list gmap numbers.
From S2P Require Import Prelude Machine.
Local Open Scope Z_scope.

(** The bytes from a pointer on. *)
Definition bytes_at (m : mem) (a : Z) : nat → Z := λ i, ld8 m (a + Z.of_nat i).
Definition bytes_of (l : list Z) : nat → Z := λ i, nth i l 0.
Definition advance (t : nat → Z) (k : nat) : nat → Z := λ i, t (k + i)%nat.

(** ** Definitions *)

Fixpoint memset_loop (m : mem) (dst c i : Z) (n : nat) : mem :=
  match n with
  | O => m
  | S n' => memset_loop (st8 m (dst + i) c) dst c (i + 1) n'
  end.
Definition memset (m : mem) (dst c n : Z) : mem := memset_loop m dst c 0 (Z.to_nat n).

Fixpoint memcmp (s1 s2 : nat → Z) (n : nat) : Z :=
  match n with
  | O => 0
  | S n' => if s1 O =? s2 O then memcmp (advance s1 1) (advance s2 1) n' else s1 O - s2 O
  end.

(** [while (n-- > 0) *--d = *--s;] *)
Fixpoint move_down (m : mem) (d s : Z) (n : nat) : mem :=
  match n with
  | O => m
  | S n' => move_down (st8 m (d - 1) (ld8 m (s - 1))) (d - 1) (s - 1) n'
  end.
(** [while (n-- > 0) *d++ = *s++;] *)
Fixpoint move_up (m : mem) (d s : Z) (n : nat) : mem :=
  match n with
  | O => m
  | S n' => move_up (st8 m d (ld8 m s)) (d + 1) (s + 1) n'
  end.
Definition memmove (m : mem) (dst src n : Z) : mem :=
  if n =? 0 then m
  else if (src <? dst) && (src + n >? dst)
       then move_down m (dst + n) (src + n) (Z.to_nat n)
       else move_up m dst src (Z.to_nat n).
Definition memcpy (m : mem) (dst src n : Z) : mem := memmove m dst src n.

Fixpoint strncmp (p q : nat → Z) (n : nat) : Z :=
  match n with
  | O => 0
  | S n' =>
      if negb (p O =? 0) && (p O =? q O)
      then strncmp (advance p 1) (advance q 1) n'
      else p O - q O
  end.

(** [while (n-- > 0) *s++ = 0;] from index [i] *)
Fixpoint zero_fill (s : list Z) (i n : nat) : list Z :=
  match n with
  | O => s
  | S n' => zero_fill (<[i := 0]> s) (S i) n'
  end.
Fixpoint strncpy_loop (s : list Z) (t : nat → Z) (i n : nat) : list Z :=
  match n with
  | O => s
  | S n' =>
      let s' := <[i := t i]> s in
      if t i =? 0 then zero_fill s' (S i) n' else strncpy_loop s' t (S i) n'
  end.
Definition strncpy (s : list Z) (t : nat → Z) (n : nat) : list Z := strncpy_loop s t 0 n.

(** [n] is the count before [--n]. *)
Fixpoint safestrcpy_loop (s : list Z) (t : nat → Z) (i n : nat) : list Z :=
  match n with
  | O => s
  | S O => <[i := 0]> s
  | S n' =>
      let s' := <[i := t i]> s in
      if t i =? 0 then <[S i := 0]> s' else safestrcpy_loop s' t (S i) n'
  end.
Definition safestrcpy (s : list Z) (t : nat → Z) (n : nat) : list Z :=
  if decide (n = O) then s else safestrcpy_loop s t 0 n.

(** [None] when no NUL is found within [fuel] bytes. *)
Fixpoint strlen_loop (s : nat → Z) (n fuel : nat) : option nat :=
  match fuel with
  | O => None
  | S f => if s n =? 0 then Some n else strlen_loop s (S n) f
  end.
Definition strlen (s : nat → Z) (fuel : nat) : option nat := strlen_loop s 0 fuel.

(** The string a buffer of [n] bytes holds: the bytes before the first NUL. *)
Fixpoint cstr (t : nat → Z) (n : nat) : list Z :=
  match n with
  | O => []
  | S n' => if t O =? 0 then [] else t O :: cstr (advance t 1) n'
  end.

(** ** Blocks *)

Lemma memset_loop_ld8 m dst c i n a :
  ld8 (memset_loop m dst c i n) a =
  if decide (dst + i ≤ a < dst + i + Z.of_nat n) then u8 c else ld8 m a.
Proof.
  revert m i. induction n as [|n IH]; intros m i; cbn [memset_loop].
  - rewrite decide_False by lia. done.
  - rewrite IH, ld8_st8. repeat case_decide; try lia; done.
Qed.

Lemma memset_ld8 m dst c n a : 0 ≤ n →
  ld8 (memset m dst c n) a = if decide (dst ≤ a < dst + n) then u8 c else ld8 m a.
Proof.
  intros. unfold memset. rewrite memset_loop_ld8, Z2Nat.id, Z.add_0_r by lia. done.
Qed.

Lemma move_up_ld8 m d s n a : d ≤ s ∨ s + Z.of_nat n ≤ d →
  ld8 (move_up m d s n) a =
  if decide (d ≤ a < d + Z.of_nat n) then ld8 m (s + (a - d)) else ld8 m a.
Proof.
  revert m d s. induction n as [|n IH]; intros m d s H; cbn [move_up].
  - rewrite decide_False by lia. done.
  - rewrite IH by lia. rewrite !ld8_st8.
    repeat case_decide; try lia; subst; try done.
    + f_equal. lia.
    + rewrite u8_small by apply ld8_range. f_equal. lia.
Qed.

Lemma move_down_ld8 m d s n a : s ≤ d →
  ld8 (move_down m d s n) a =
  if decide (d - Z.of_nat n ≤ a < d) then ld8 m (s - (d - a)) else ld8 m a.
Proof.
  revert m d s. induction n as [|n IH]; intros m d s H; cbn [move_down].
  - rewrite decide_False by lia. done.
  - rewrite IH by lia. rewrite !ld8_st8.
    repeat case_decide; try lia; subst; try done.
    + f_equal. lia.
    + rewrite u8_small by apply ld8_range. f_equal. lia.
Qed.

Lemma memmove_ld8 m dst src n a : 0 ≤ n →
  ld8 (memmove m dst src n) a =
  if decide (dst ≤ a < dst + n) then ld8 m (src + (a - dst)) else ld8 m a.
Proof.
  intros Hn. unfold memmove. destruct (Z.eqb_spec n 0) as [->|Hn0].
  { by rewrite decide_False by lia. }
  destruct (Z.ltb_spec src dst); destruct (Z.gtb_spec (src + n) dst); cbn [andb].
  - rewrite move_down_ld8, Z2Nat.id by lia.
    repeat case_decide; try lia; try done. f_equal. lia.
  - rewrite move_up_ld8, Z2Nat.id by lia. done.
  - rewrite move_up_ld8, Z2Nat.id by lia. done.
  - rewrite move_up_ld8, Z2Nat.id by lia. done.
Qed.

#[export] Hint Rewrite memset_ld8 memmove_ld8 using lia : mem.

Lemma memmove_ld64 m dst src n k : 0 ≤ k → k + 8 ≤ n →
  ld64 (memmove m dst src n) (dst + k) = ld64 m (src + k).
Proof.
  intros. unfold ld64.
  assert (∀ j : nat, (j ≤ 8)%nat → ∀ o, k ≤ o → o + Z.of_nat j ≤ k + 8 →
    ldn j (memmove m dst src n) (dst + o) = ldn j m (src + o)) as Hgen.
  { induction j as [|j IH]; intros Hj o Ho1 Ho2; [done|]. rewrite !ldn_S.
    rewrite memmove_ld8, decide_True by lia.
    replace (dst + o + 1) with (dst + (o + 1)) by lia.
    replace (src + o + 1) with (src + (o + 1)) by lia.
    rewrite IH by lia. do 2 f_equal. lia. }
  apply Hgen; lia.
Qed.

Lemma memcmp_eq0 s1 s2 n :
  memcmp s1 s2 n = 0 ↔ ∀ i, (i < n)%nat → s1 i = s2 i.
Proof.
  revert s1 s2. induction n as [|n IH]; intros s1 s2; cbn [memcmp].
  - split; [lia|done].
  - destruct (Z.eqb_spec (s1 O) (s2 O)) as [E|E].
    + rewrite IH. split; intros H i Hi.
      * destruct i as [|i]; [done|]. apply (H i). lia.
      * apply (H (S i)). lia.
    + split; [lia|]. intros H. exfalso. apply E, H. lia.
Qed.

(** ** Strings *)

Lemma cstr_ext t t' n :
  (∀ i, (i < n)%nat → t i = t' i) → cstr t n = cstr t' n.
Proof.
  revert t t'. induction n as [|n IH]; intros t t' H; [done|]. cbn [cstr].
  rewrite (H O) by lia. case_match; [done|]. f_equal.
  apply IH. intros i Hi. apply (H (S i)). lia.
Qed.

Lemma length_cstr t n : (length (cstr t n) ≤ n)%nat.
Proof.
  revert t. induction n as [|n IH]; intros t; cbn [cstr]; [simpl; lia|].
  case_match; simpl; [lia|]. specialize (IH (advance t 1)). lia.
Qed.

Lemma cstr_nonzero t n : Forall (λ c, c ≠ 0) (cstr t n).
Proof.
  revert t. induction n as [|n IH]; intros t; cbn [cstr]; [constructor|].
  destruct (Z.eqb_spec (t O) 0); constructor; auto.
Qed.

(** A comparison of bounded strings answers 0 exactly when they are equal. *)
Lemma strncmp_cstr p q n : strncmp p q n = 0 ↔ cstr p n = cstr q n.
Proof.
  revert p q. induction n as [|n IH]; intros p q; cbn [strncmp cstr]; [done|].
  destruct (Z.eqb_spec (p O) 0) as [Hp|Hp]; cbn [negb andb].
  - rewrite Hp. destruct (Z.eqb_spec (q O) 0); split; try done; lia.
  - destruct (Z.eqb_spec (p O) (q O)) as [Hpq|Hpq].
    + rewrite <- Hpq. rewrite IH.
      destruct (Z.eqb_spec (p O) 0) as [?|_]; [done|].
      split; [by intros ->|by intros [= ->]].
    + split; [lia|]. destruct (Z.eqb_spec (q O) 0); intros [=]; done.
Qed.

Lemma length_zero_fill s i n : length (zero_fill s i n) = length s.
Proof.
  revert s i. induction n as [|n IH]; intros; cbn [zero_fill]; [done|].
  by rewrite IH, length_insert.
Qed.

Lemma zero_fill_lookup s i n j : (i + n ≤ length s)%nat →
  zero_fill s i n !! j = if decide (i ≤ j < i + n)%nat then Some 0 else s !! j.
Proof.
  revert s i. induction n as [|n IH]; intros s i H; cbn [zero_fill].
  - by rewrite decide_False by lia.
  - rewrite IH by (rewrite length_insert; lia).
    repeat case_decide; try lia; try done.
    + assert (i = j) as -> by lia. apply list_lookup_insert_eq. lia.
    + apply list_lookup_insert_ne. lia.
Qed.

Lemma length_strncpy_loop s t i n : length (strncpy_loop s t i n) = length s.
Proof.
  revert s i. induction n as [|n IH]; intros s i; cbn [strncpy_loop]; [done|].
  case_match; [by rewrite length_zero_fill, length_insert|].
  by rewrite IH, length_insert.
Qed.

Lemma strncpy_loop_lookup s t i n j : (i + n ≤ length s)%nat →
  strncpy_loop s t i n !! j =
  if decide (i ≤ j < i + n)%nat
  then Some (default 0 (cstr (advance t i) n !! (j - i)%nat)) else s !! j.
Proof.
  revert s i. induction n as [|n IH]; intros s i H; cbn [strncpy_loop].
  - by rewrite decide_False by lia.
  - cbn [cstr].
    replace (advance t i O) with (t i) by (unfold advance; f_equal; lia).
    destruct (Z.eqb_spec (t i) 0) as [Ht|Ht].
    + rewrite zero_fill_lookup by (rewrite length_insert; lia).
      repeat case_decide; try lia; try done.
      * assert (i = j) as -> by lia. rewrite list_lookup_insert_eq by lia. by rewrite Ht.
      * apply list_lookup_insert_ne. lia.
    + rewrite IH by (rewrite length_insert; lia).
      assert (cstr (advance (advance t i) 1) n = cstr (advance t (S i)) n) as ->.
      { apply cstr_ext. intros. unfold advance. f_equal. lia. }
      repeat case_decide; try lia.
      * replace (j - i)%nat with (S (j - S i)) by lia. done.
      * assert (i = j) as -> by lia. rewrite list_lookup_insert_eq by lia.
        by rewrite Nat.sub_diag.
      * apply list_lookup_insert_ne. lia.
Qed.

(** [strncpy] writes the string, pads with NULs to [n] bytes, and leaves the
    rest of the array alone. *)
Lemma strncpy_lookup s t n j : (n ≤ length s)%nat →
  strncpy s t n !! j =
  if decide (j < n)%nat then Some (default 0 (cstr t n !! j)) else s !! j.
Proof.
  intros. unfold strncpy. rewrite strncpy_loop_lookup by lia.
  rewrite (cstr_ext (advance t 0) t) by done. rewrite Nat.sub_0_r.
  repeat case_decide; try lia; done.
Qed.

Lemma cstr_of_lookup (l : list Z) (s : list Z) n :
  (length s ≤ n)%nat → Forall (λ c, c ≠ 0) s →
  (∀ j, (j < length s)%nat → l !! j = s !! j) →
  ((length s < n)%nat → default 0 (l !! length s) = 0) →
  cstr (bytes_of l) n = s.
Proof.
  revert l s. induction n as [|n IH]; intros l s Hlen Hnz Hl Hend.
  - destruct s; [done|simpl in Hlen; lia].
  - cbn [cstr]. destruct s as [|c s].
    + simpl in Hend. specialize (Hend ltac:(lia)). unfold bytes_of.
      destruct l as [|d l]; simpl in *; [done|]. by rewrite Hend.
    + inversion Hnz as [|? ? Hc Hs]; subst.
      pose proof (Hl O ltac:(simpl; lia)) as H0.
      destruct l as [|d l]; [done|]. simpl in H0. injection H0 as ->.
      unfold bytes_of at 1. simpl. destruct (Z.eqb_spec c 0); [done|].
      f_equal. change (cstr (bytes_of l) n = s).
      simpl in *. apply IH; [lia|done| |].
      * intros j Hj. apply (Hl (S j)). lia.
      * intros Hlt. apply Hend. lia.
Qed.

(** Copying a name into a name field and reading it back gives the name. *)
Lemma strncpy_cstr s t n : (n ≤ length s)%nat →
  cstr (bytes_of (strncpy s t n)) n = cstr t n.
Proof.
  intros H. pose proof (length_cstr t n). apply cstr_of_lookup; [lia|apply cstr_nonzero| |].
  - intros j Hj. rewrite strncpy_lookup, decide_True by lia.
    destruct (lookup_lt_is_Some_2 (cstr t n) j Hj) as [c ->]. done.
  - intros Hlt. rewrite strncpy_lookup, decide_True by lia. simpl.
    by rewrite lookup_ge_None_2 by lia.
Qed.

Lemma safestrcpy_loop_SS s t i n :
  safestrcpy_loop s t i (S (S n)) =
  if t i =? 0 then <[S i := 0]> (<[i := t i]> s)
  else safestrcpy_loop (<[i := t i]> s) t (S i) (S n).
Proof. done. Qed.

Lemma length_safestrcpy_loop s t i n : length (safestrcpy_loop s t i n) = length s.
Proof.
  revert s i. induction n as [|[|n] IH]; intros s i; [done|by simpl; rewrite length_insert|].
  rewrite safestrcpy_loop_SS. case_match; [by rewrite !length_insert|].
  rewrite IH. by rewrite length_insert.
Qed.

Lemma length_safestrcpy s t n : length (safestrcpy s t n) = length s.
Proof. unfold safestrcpy. case_decide; [done|]. apply length_safestrcpy_loop. Qed.

Lemma safestrcpy_loop_below s t i n j : (j < i)%nat →
  safestrcpy_loop s t i n !! j = s !! j.
Proof.
  revert s i. induction n as [|[|n] IH]; intros s i H; [done| |].
  - simpl. apply list_lookup_insert_ne. lia.
  - rewrite safestrcpy_loop_SS. case_match.
    + rewrite !list_lookup_insert_ne by lia. done.
    + rewrite IH by lia. apply list_lookup_insert_ne. lia.
Qed.

Lemma safestrcpy_loop_cstr s t i n : (i + S n ≤ length s)%nat →
  cstr (advance (bytes_of (safestrcpy_loop s t i (S n))) i) (S n) = cstr (advance t i) n.
Proof.
  revert s i. induction n as [|n IH]; intros s i H.
  - simpl. unfold advance, bytes_of. rewrite Nat.add_0_r.
    rewrite (nth_lookup_Some _ _ _ 0) by (apply list_lookup_insert_eq; lia). done.
  - rewrite safestrcpy_loop_SS. set (r := if t i =? 0 then _ else _).
    assert (advance (bytes_of r) i O = t i) as Hr.
    { unfold advance, bytes_of, r. rewrite Nat.add_0_r. apply nth_lookup_Some.
      destruct (Z.eqb_spec (t i) 0) as [Ht|Ht].
      - rewrite list_lookup_insert_ne by lia. apply list_lookup_insert_eq. lia.
      - rewrite safestrcpy_loop_below by lia. apply list_lookup_insert_eq. lia. }
    assert (advance t i O = t i) as Ht0 by (unfold advance; f_equal; lia).
    cbn [cstr] in *. rewrite Hr, Ht0. unfold r.
    destruct (Z.eqb_spec (t i) 0) as [Ht|Ht]; [done|]. f_equal.
    rewrite (cstr_ext (advance (advance t i) 1) (advance t (S i)))
      by (intros; unfold advance; f_equal; lia).
    rewrite <- (IH (<[i:=t i]> s) (S i)) by (rewrite length_insert; lia).
    apply (cstr_ext _ _ (S n)). intros. unfold advance. f_equal. lia.
Qed.

(** [safestrcpy] leaves a NUL-terminated prefix of the string: its first
    [n - 1] bytes. *)
Lemma safestrcpy_cstr s t n : (S n ≤ length s)%nat →
  cstr (bytes_of (safestrcpy s t (S n))) (S n) = cstr t n.
Proof.
  intros H. unfold safestrcpy. rewrite decide_False by lia.
  pose proof (safestrcpy_loop_cstr s t 0 n H) as E.
  rewrite (cstr_ext (advance t 0) t) in E by done.
  rewrite <- E. by apply cstr_ext.
Qed.

Lemma strlen_loop_Some s n f k :
  strlen_loop s n f = Some k ↔
  (n ≤ k < n + f)%nat ∧ s k = 0 ∧ ∀ j, (n ≤ j < k)%nat → s j ≠ 0.
Proof.
  revert n. induction f as [|f IH]; intros n; cbn [strlen_loop].
  - split; [done|lia].
  - destruct (Z.eqb_spec (s n) 0) as [E|E].
    + split.
      * intros [= <-]. split; [lia|]. split; [done|]. lia.
      * intros (Hk & Hz & Hj). destruct (decide (k = n)) as [->|]; [done|].
        exfalso. apply (Hj n); [lia|done].
    + rewrite IH. split; intros (Hk & Hz & Hj).
      * split; [lia|]. split; [done|]. intros j Hr.
        destruct (decide (j = n)) as [->|]; [done|]. apply Hj. lia.
      * assert (k ≠ n) by congruence. split; [lia|]. split; [done|].
        intros j Hr. apply Hj. lia.
Qed.

Lemma strlen_cstr s f k : strlen s f = Some k → length (cstr s f) = k.
Proof.
  intros H. apply strlen_loop_Some in H as (Hk & Hz & Hj).
  assert (∀ f k s, (k < f)%nat → s k = 0 → (∀ j, (j < k)%nat → s j ≠ 0) →
    length (cstr s f) = k) as Hgen.
  { clear. induction f as [|f IH]; intros k s Hk Hz Hj; [lia|]. cbn [cstr].
    destruct (Z.eqb_spec (s O) 0) as [E|E].
    - destruct k as [|k]; [done|]. exfalso. apply (Hj O); [lia|done].
    - destruct k as [|k]; [done|]. simpl. f_equal. apply IH; [lia|done|].
      intros j Hl. apply (Hj (S j)). lia. }
  apply Hgen; [lia|done|]. intros j Hr. apply Hj. lia.
Qed.

#[global] Arguments memset : simpl never.
#[global] Arguments memmove : simpl never.
#[global] Arguments safestrcpy : simpl never.
#[global] Arguments strncpy : simpl never.
#[global] Arguments cstr : simpl never.

(** ** Properties *)

(** [memmove] copies its [n] source bytes as they were before the call, also
    when source and destination overlap in either direction, and changes no byte
    outside the destination. *)
Theorem memmove_overlap (m : mem) (dst src n a : Z) (Hn : 0 ≤ n) :
  ld8 (memmove m dst src n) a =
    if decide (dst ≤ a < dst + n) then ld8 m (src + (a - dst)) else ld8 m a.
Proof. by apply memmove_ld8. Qed.

Lemma memmove_overlap_witness :
  ld8 (memmove (st8 (st8 ∅ 100 7) 101 9) 101 100 2) 102 = 9.
Proof. rewrite (memmove_overlap _ 101 100 2 102); [reflexivity|lia]. Defined.

(** The name routines of the file system and of [exec] agree on what a bounded
    string is: a name stored by [strncpy] in a field of [n] bytes (a directory
    entry) compares equal under [strncmp] to exactly the names with the same first
    [n] bytes up to the NUL, and [safestrcpy] into a field of [n+1] bytes always
    leaves a NUL-terminated prefix of at most [n] bytes. *)
Theorem name_roundtrip (s : list Z) (t q : nat → Z) (n : nat) (Hlen : length s = S n) :
  (strncmp (bytes_of (strncpy s t n)) q n = 0 ↔ cstr t n = cstr q n) ∧
  cstr (bytes_of (safestrcpy s t (S n))) (S n) = cstr t n.
Proof.
  split; [|apply safestrcpy_cstr; lia].
  rewrite strncmp_cstr, strncpy_cstr by lia. done.
Qed.

Lemma name_roundtrip_witness :
  strncmp (bytes_of (strncpy (replicate 15 1) (bytes_of [97; 98; 0; 99]) 14))
    (bytes_of [97; 98; 0]) 14 = 0.
Proof.
  apply (name_roundtrip (replicate 15 1) (bytes_of [97; 98; 0; 99]) (bytes_of [97; 98; 0]) 14);
    reflexivity.
Defined.

(** Memory operations are reasoned about through their lemmas. *)
#[global] Opaque ldn stn ld8 st8 ld32 st32 ld64 st64 memset memmove.
