(* ===== verification/Bytes.v ===== *)
(** * Byte arrays

    The data of a disk block, a kernel buffer or a struct is a list of bytes.
    [slice] and [splice] are [memmove] out of and into such an array, [ldl] and
    [stl] the access to a little-endian field of it. *)
From Stdlib Require Import ZArith Lia Ascii.
From stdpp Require Import base list numbers strings.
From S2P Require Import Prelude Machine.
Local Open Scope Z_scope.

(** The bytes of a string literal, without the NUL. *)
Fixpoint str (s : string) : list Z :=
  match s with
  | EmptyString => []
  | String c s' => Z.of_N (N_of_ascii c) :: str s'
  end.

Definition byte (b : Z) : Prop := 0 ≤ b < 256.
#[export] Instance byte_dec b : Decision (byte b).
Proof. unfold byte. apply _. Defined.

Definition slice (l : list Z) (off n : nat) : list Z := take n (drop off l).
Definition splice (l : list Z) (off : nat) (bs : list Z) : list Z := list_inserts off bs l.

Fixpoint le_val (l : list Z) : Z :=
  match l with [] => 0 | b :: l' => b + 256 * le_val l' end.
Fixpoint le_bytes (n : nat) (v : Z) : list Z :=
  match n with O => [] | S n' => u8 v :: le_bytes n' (v / 256) end.

Definition ldl (n : nat) (l : list Z) (off : nat) : Z := le_val (slice l off n).
Definition stl (n : nat) (l : list Z) (off : nat) (v : Z) : list Z := splice l off (le_bytes n v).

(** ** Slices *)

Lemma length_slice l off n : (off + n ≤ length l)%nat → length (slice l off n) = n.
Proof. intros. unfold slice. rewrite length_take, length_drop. lia. Qed.

Lemma lookup_slice l off n i :
  slice l off n !! i = if decide (i < n)%nat then l !! (off + i)%nat else None.
Proof.
  unfold slice. case_decide.
  - by rewrite lookup_take_lt, lookup_drop by lia.
  - rewrite lookup_take_ge by lia. done.
Qed.

Lemma length_splice l off bs : length (splice l off bs) = length l.
Proof. apply length_inserts. Qed.

Lemma lookup_splice l off bs i :
  (off + length bs ≤ length l)%nat →
  splice l off bs !! i =
  if decide (off ≤ i < off + length bs)%nat then bs !! (i - off)%nat else l !! i.
Proof.
  intros H. unfold splice. case_decide as C.
  - apply list_lookup_inserts; lia.
  - destruct (decide (i < off)%nat).
    + by apply list_lookup_inserts_lt.
    + apply list_lookup_inserts_ge. lia.
Qed.

Lemma slice_splice l off bs :
  (off + length bs ≤ length l)%nat → slice (splice l off bs) off (length bs) = bs.
Proof.
  intros H. apply list_eq. intros i. rewrite lookup_slice.
  case_decide as C.
  - rewrite lookup_splice, decide_True by lia. f_equal. lia.
  - symmetry. apply lookup_ge_None. lia.
Qed.

Lemma slice_splice_ne l off bs off' n :
  (off + length bs ≤ length l)%nat →
  (off' + n ≤ off ∨ off + length bs ≤ off')%nat →
  slice (splice l off bs) off' n = slice l off' n.
Proof.
  intros H Hd. apply list_eq. intros i. rewrite !lookup_slice.
  case_decide; [|done]. by rewrite lookup_splice, decide_False by lia.
Qed.

Lemma Forall_slice (P : Z → Prop) l off n : Forall P l → Forall P (slice l off n).
Proof. intros. by apply Forall_take, Forall_drop. Qed.

Lemma Forall_splice (P : Z → Prop) l off bs :
  (off + length bs ≤ length l)%nat → Forall P l → Forall P bs → Forall P (splice l off bs).
Proof.
  intros Hl H1 H2. rewrite Forall_lookup in H1, H2 |- *. intros i x Hx.
  rewrite lookup_splice in Hx by done. case_decide; eauto.
Qed.

Lemma splice_all l bs : length bs = length l → splice l 0 bs = bs.
Proof.
  intros H. apply list_eq. intros i. rewrite lookup_splice by lia.
  case_decide as C; [f_equal; lia|].
  rewrite !(proj2 (lookup_ge_None _ _)) by lia. done.
Qed.

Lemma slice_all l : slice l 0 (length l) = l.
Proof. unfold slice. by rewrite drop_0, firstn_all. Qed.

Lemma slice_app l off n m :
  slice l off n ++ slice l (off + n) m = slice l off (n + m).
Proof.
  unfold slice. rewrite <- drop_drop.
  rewrite <- (take_drop n (drop off l)) at 3.
  destruct (decide (n ≤ length (drop off l))%nat).
  - rewrite take_app_ge by (rewrite length_take; lia). rewrite length_take.
    replace (n + m - n `min` length (drop off l))%nat with m by lia. done.
  - rewrite (drop_ge (drop off l)) by lia. rewrite take_nil, !app_nil_r.
    by rewrite take_take, Nat.min_r by lia.
Qed.

(** An element of an array of arrays of [n] bytes. *)
Lemma slice_concat (n : nat) (rs : list (list Z)) i row :
  Forall (λ r, length r = n) rs → rs !! i = Some row → slice (concat rs) (n * i) n = row.
Proof.
  intros H. unfold slice. revert i. induction H as [|r rs Hr Hrs IH]; intros [|i] Hi; try done.
  - injection Hi as <-. cbn [concat]. rewrite Nat.mul_0_r, drop_0. by rewrite take_app_length'.
  - cbn [concat]. replace (n * S i)%nat with (length r + n * i)%nat by lia.
    rewrite drop_app_add. by apply IH.
Qed.

(** ** Little-endian fields *)

Lemma length_le_bytes n v : length (le_bytes n v) = n.
Proof. revert v. induction n; intros; simpl; auto. Qed.

Lemma le_bytes_byte n v : Forall byte (le_bytes n v).
Proof.
  revert v. induction n as [|n IH]; intros v; constructor; [apply u8_range|apply IH].
Qed.

Lemma le_val_bytes n v : le_val (le_bytes n v) = v mod 256 ^ Z.of_nat n.
Proof.
  revert v. induction n as [|n IH]; intros v.
  - simpl. by rewrite Z.mod_1_r.
  - cbn [le_bytes le_val]. rewrite IH, Nat2Z.inj_succ, Z.pow_succ_r by lia.
    rewrite Z.rem_mul_r by lia. unfold u8. change (2 ^ 8) with 256. lia.
Qed.

Lemma le_val_range l : Forall byte l → 0 ≤ le_val l < 256 ^ Z.of_nat (length l).
Proof.
  induction 1 as [|b l Hb _ IH]; [simpl; lia|].
  cbn [length le_val]. rewrite Nat2Z.inj_succ, Z.pow_succ_r by lia. unfold byte in Hb. lia.
Qed.

Lemma le_bytes_val l : Forall byte l → le_bytes (length l) (le_val l) = l.
Proof.
  induction 1 as [|b l Hb Hl IH]; [done|]. cbn [length le_val le_bytes].
  unfold byte in Hb. rewrite (Z.mul_comm 256), Z.div_add, Z.div_small, Z.add_0_l by lia.
  rewrite IH. f_equal. unfold u8. change (2 ^ 8) with 256.
  rewrite Z.mod_add by lia. apply Z.mod_small. lia.
Qed.

Lemma length_stl n l off v : length (stl n l off v) = length l.
Proof. apply length_splice. Qed.

Lemma ldl_stl n l off v :
  (off + n ≤ length l)%nat → ldl n (stl n l off v) off = v mod 256 ^ Z.of_nat n.
Proof.
  intros H. unfold ldl, stl. rewrite <- (length_le_bytes n v) at 2.
  rewrite slice_splice by (rewrite length_le_bytes; lia). apply le_val_bytes.
Qed.

Lemma ldl_splice_ne n l off bs off' :
  (off + length bs ≤ length l)%nat →
  (off' + n ≤ off ∨ off + length bs ≤ off')%nat →
  ldl n (splice l off bs) off' = ldl n l off'.
Proof. intros. unfold ldl. by rewrite slice_splice_ne. Qed.

Lemma ldl_stl_ne n n' l off v off' :
  (off + n ≤ length l)%nat →
  (off' + n' ≤ off ∨ off + n ≤ off')%nat →
  ldl n' (stl n l off v) off' = ldl n' l off'.
Proof. intros. apply ldl_splice_ne; rewrite length_le_bytes; lia. Qed.

Lemma ldl_range n l off :
  Forall byte l → (off + n ≤ length l)%nat → 0 ≤ ldl n l off < 256 ^ Z.of_nat n.
Proof.
  intros Hb Hl. unfold ldl. pose proof (le_val_range _ (Forall_slice _ l off n Hb)) as R.
  by rewrite length_slice in R.
Qed.

Lemma Forall_stl n l off v :
  (off + n ≤ length l)%nat → Forall byte l → Forall byte (stl n l off v).
Proof.
  intros. apply Forall_splice; [rewrite length_le_bytes; lia|done|apply le_bytes_byte].
Qed.

#[export] Hint Rewrite length_splice length_stl length_le_bytes : len.
