(* ===== verification/State.v ===== *)
(** * Kernel data structures and the kernel state

    The structs of proc.h, buf.h, sleeplock.h, file.h, fs.h, log.c, pipe.c and
    console.c as records, and the kernel's global variables as one record
    [kstate].  Array-allocated structs are named by their index (a process by its
    slot in [proc[]], a buffer by its slot in [bcache.buf[]], ...); pages are
    named by their physical address. *)
From Stdlib Require Import ZArith Lia.
From stdpp Require Import base list gmap numbers strings.
From S2P Require Import Prelude Machine.
Local Open Scope Z_scope.
Local Open Scope kernel_scope.

(** ** Locks and channels *)

(** The sleep-locks: one per buffer and one per in-memory inode. *)
Inductive sleepid := SlBuf (i : nat) | SlInode (i : nat).

(** The spinlocks.  [LSleep l] is the spinlock inside sleep-lock [l]. *)
Inductive lockid :=
  | LKmem | LPid | LWait | LTicks | LProc (i : nat)
  | LBcache | LLog | LItable | LFtable | LVdisk | LCons | LTx | LPr
  | LPipe (pi : Z) | LSleep (l : sleepid).

(** The addresses processes sleep on; [ChNull] is the null pointer. *)
Inductive chan :=
  | ChNull | ChProc (i : nat) | ChTicks | ChLog | ChSleep (l : sleepid)
  | ChPipeR (pi : Z) | ChPipeW (pi : Z) | ChCons | ChTx | ChDisk | ChBuf (i : nat).

#[export] Instance sleepid_eq_dec : EqDecision sleepid.
Proof. solve_decision. Defined.
#[export] Instance lockid_eq_dec : EqDecision lockid.
Proof. solve_decision. Defined.
#[export] Instance chan_eq_dec : EqDecision chan.
Proof. solve_decision. Defined.

(** ** Processes (proc.h) *)

Inductive procstate := UNUSED | USED | SLEEPING | RUNNABLE | RUNNING | ZOMBIE.
#[export] Instance procstate_eq_dec : EqDecision procstate.
Proof. solve_decision. Defined.

(** Saved registers: [ra], [sp] and [s0..s11]. *)
Record context := mkContext {
  cx_ra : Z;
  cx_sp : Z;
  cx_s : list Z;
}.
Definition set_cx_ra (v : Z) (x : context) : context :=
  mkContext v (cx_sp x) (cx_s x).
Definition set_cx_sp (v : Z) (x : context) : context :=
  mkContext (cx_ra x) v (cx_s x).
Definition set_cx_s (v : list Z) (x : context) : context :=
  mkContext (cx_ra x) (cx_sp x) v.

(** [struct proc].  [parent] and [cwd] are pointers into [proc[]] and [itable.inode[]]. *)
Record proc := mkProc {
  p_state : procstate;
  p_chan : chan;
  p_killed : Z;
  p_xstate : Z;
  p_priority : Z;
  p_ticks_used : Z;
  p_pid : Z;
  p_parent : option nat;
  p_kstack : Z;
  p_sz : Z;
  p_pagetable : Z;
  p_trapframe : Z;
  p_context : context;
  p_ofile : list (option nat);
  p_cwd : option nat;
  p_name : list Z;
}.
Definition set_p_state (v : procstate) (x : proc) : proc :=
  mkProc v (p_chan x) (p_killed x) (p_xstate x) (p_priority x) (p_ticks_used x) (p_pid x) (p_parent x) (p_kstack x) (p_sz x) (p_pagetable x) (p_trapframe x) (p_context x) (p_ofile x) (p_cwd x) (p_name x).
Definition set_p_chan (v : chan) (x : proc) : proc :=
  mkProc (p_state x) v (p_killed x) (p_xstate x) (p_priority x) (p_ticks_used x) (p_pid x) (p_parent x) (p_kstack x) (p_sz x) (p_pagetable x) (p_trapframe x) (p_context x) (p_ofile x) (p_cwd x) (p_name x).
Definition set_p_killed (v : Z) (x : proc) : proc :=
  mkProc (p_state x) (p_chan x) v (p_xstate x) (p_priority x) (p_ticks_used x) (p_pid x) (p_parent x) (p_kstack x) (p_sz x) (p_pagetable x) (p_trapframe x) (p_context x) (p_ofile x) (p_cwd x) (p_name x).
Definition set_p_xstate (v : Z) (x : proc) : proc :=
  mkProc (p_state x) (p_chan x) (p_killed x) v (p_priority x) (p_ticks_used x) (p_pid x) (p_parent x) (p_kstack x) (p_sz x) (p_pagetable x) (p_trapframe x) (p_context x) (p_ofile x) (p_cwd x) (p_name x).
Definition set_p_priority (v : Z) (x : proc) : proc :=
  mkProc (p_state x) (p_chan x) (p_killed x) (p_xstate x) v (p_ticks_used x) (p_pid x) (p_parent x) (p_kstack x) (p_sz x) (p_pagetable x) (p_trapframe x) (p_context x) (p_ofile x) (p_cwd x) (p_name x).
Definition set_p_ticks_used (v : Z) (x : proc) : proc :=
  mkProc (p_state x) (p_chan x) (p_killed x) (p_xstate x) (p_priority x) v (p_pid x) (p_parent x) (p_kstack x) (p_sz x) (p_pagetable x) (p_trapframe x) (p_context x) (p_ofile x) (p_cwd x) (p_name x).
Definition set_p_pid (v : Z) (x : proc) : proc :=
  mkProc (p_state x) (p_chan x) (p_killed x) (p_xstate x) (p_priority x) (p_ticks_used x) v (p_parent x) (p_kstack x) (p_sz x) (p_pagetable x) (p_trapframe x) (p_context x) (p_ofile x) (p_cwd x) (p_name x).
Definition set_p_parent (v : option nat) (x : proc) : proc :=
  mkProc (p_state x) (p_chan x) (p_killed x) (p_xstate x) (p_priority x) (p_ticks_used x) (p_pid x) v (p_kstack x) (p_sz x) (p_pagetable x) (p_trapframe x) (p_context x) (p_ofile x) (p_cwd x) (p_name x).
Definition set_p_kstack (v : Z) (x : proc) : proc :=
  mkProc (p_state x) (p_chan x) (p_killed x) (p_xstate x) (p_priority x) (p_ticks_used x) (p_pid x) (p_parent x) v (p_sz x) (p_pagetable x) (p_trapframe x) (p_context x) (p_ofile x) (p_cwd x) (p_name x).
Definition set_p_sz (v : Z) (x : proc) : proc :=
  mkProc (p_state x) (p_chan x) (p_killed x) (p_xstate x) (p_priority x) (p_ticks_used x) (p_pid x) (p_parent x) (p_kstack x) v (p_pagetable x) (p_trapframe x) (p_context x) (p_ofile x) (p_cwd x) (p_name x).
Definition set_p_pagetable (v : Z) (x : proc) : proc :=
  mkProc (p_state x) (p_chan x) (p_killed x) (p_xstate x) (p_priority x) (p_ticks_used x) (p_pid x) (p_parent x) (p_kstack x) (p_sz x) v (p_trapframe x) (p_context x) (p_ofile x) (p_cwd x) (p_name x).
Definition set_p_trapframe (v : Z) (x : proc) : proc :=
  mkProc (p_state x) (p_chan x) (p_killed x) (p_xstate x) (p_priority x) (p_ticks_used x) (p_pid x) (p_parent x) (p_kstack x) (p_sz x) (p_pagetable x) v (p_context x) (p_ofile x) (p_cwd x) (p_name x).
Definition set_p_context (v : context) (x : proc) : proc :=
  mkProc (p_state x) (p_chan x) (p_killed x) (p_xstate x) (p_priority x) (p_ticks_used x) (p_pid x) (p_parent x) (p_kstack x) (p_sz x) (p_pagetable x) (p_trapframe x) v (p_ofile x) (p_cwd x) (p_name x).
Definition set_p_ofile (v : list (option nat)) (x : proc) : proc :=
  mkProc (p_state x) (p_chan x) (p_killed x) (p_xstate x) (p_priority x) (p_ticks_used x) (p_pid x) (p_parent x) (p_kstack x) (p_sz x) (p_pagetable x) (p_trapframe x) (p_context x) v (p_cwd x) (p_name x).
Definition set_p_cwd (v : option nat) (x : proc) : proc :=
  mkProc (p_state x) (p_chan x) (p_killed x) (p_xstate x) (p_priority x) (p_ticks_used x) (p_pid x) (p_parent x) (p_kstack x) (p_sz x) (p_pagetable x) (p_trapframe x) (p_context x) (p_ofile x) v (p_name x).
Definition set_p_name (v : list Z) (x : proc) : proc :=
  mkProc (p_state x) (p_chan x) (p_killed x) (p_xstate x) (p_priority x) (p_ticks_used x) (p_pid x) (p_parent x) (p_kstack x) (p_sz x) (p_pagetable x) (p_trapframe x) (p_context x) (p_ofile x) (p_cwd x) v.

(** ** Buffers, inodes, files (buf.h, sleeplock.h, file.h, fs.h, log.c, pipe.c, console.c) *)

(** [struct sleeplock]; its spinlock is [LSleep]. *)
Record sleeplock := mkSleeplock {
  sl_locked : bool;
  sl_pid : Z;
}.
Definition set_sl_locked (v : bool) (x : sleeplock) : sleeplock :=
  mkSleeplock v (sl_pid x).
Definition set_sl_pid (v : Z) (x : sleeplock) : sleeplock :=
  mkSleeplock (sl_locked x) v.

(** [struct buf]; [prev] and [next] are slots, slot [NBUF] being [bcache.head]. *)
Record buf := mkBuf {
  b_valid : bool;
  b_disk : bool;
  b_dev : Z;
  b_blockno : Z;
  b_lock : sleeplock;
  b_refcnt : Z;
  b_prev : nat;
  b_next : nat;
  b_data : list Z;
}.
Definition set_b_valid (v : bool) (x : buf) : buf :=
  mkBuf v (b_disk x) (b_dev x) (b_blockno x) (b_lock x) (b_refcnt x) (b_prev x) (b_next x) (b_data x).
Definition set_b_disk (v : bool) (x : buf) : buf :=
  mkBuf (b_valid x) v (b_dev x) (b_blockno x) (b_lock x) (b_refcnt x) (b_prev x) (b_next x) (b_data x).
Definition set_b_dev (v : Z) (x : buf) : buf :=
  mkBuf (b_valid x) (b_disk x) v (b_blockno x) (b_lock x) (b_refcnt x) (b_prev x) (b_next x) (b_data x).
Definition set_b_blockno (v : Z) (x : buf) : buf :=
  mkBuf (b_valid x) (b_disk x) (b_dev x) v (b_lock x) (b_refcnt x) (b_prev x) (b_next x) (b_data x).
Definition set_b_lock (v : sleeplock) (x : buf) : buf :=
  mkBuf (b_valid x) (b_disk x) (b_dev x) (b_blockno x) v (b_refcnt x) (b_prev x) (b_next x) (b_data x).
Definition set_b_refcnt (v : Z) (x : buf) : buf :=
  mkBuf (b_valid x) (b_disk x) (b_dev x) (b_blockno x) (b_lock x) v (b_prev x) (b_next x) (b_data x).
Definition set_b_prev (v : nat) (x : buf) : buf :=
  mkBuf (b_valid x) (b_disk x) (b_dev x) (b_blockno x) (b_lock x) (b_refcnt x) v (b_next x) (b_data x).
Definition set_b_next (v : nat) (x : buf) : buf :=
  mkBuf (b_valid x) (b_disk x) (b_dev x) (b_blockno x) (b_lock x) (b_refcnt x) (b_prev x) v (b_data x).
Definition set_b_data (v : list Z) (x : buf) : buf :=
  mkBuf (b_valid x) (b_disk x) (b_dev x) (b_blockno x) (b_lock x) (b_refcnt x) (b_prev x) (b_next x) v.

(** [struct log], with the in-memory header [lh] as [n] and [block]. *)
Record logstate := mkLog {
  l_start : Z;
  l_outstanding : Z;
  l_committing : bool;
  l_dev : Z;
  l_n : Z;
  l_block : list Z;
}.
Definition set_l_start (v : Z) (x : logstate) : logstate :=
  mkLog v (l_outstanding x) (l_committing x) (l_dev x) (l_n x) (l_block x).
Definition set_l_outstanding (v : Z) (x : logstate) : logstate :=
  mkLog (l_start x) v (l_committing x) (l_dev x) (l_n x) (l_block x).
Definition set_l_committing (v : bool) (x : logstate) : logstate :=
  mkLog (l_start x) (l_outstanding x) v (l_dev x) (l_n x) (l_block x).
Definition set_l_dev (v : Z) (x : logstate) : logstate :=
  mkLog (l_start x) (l_outstanding x) (l_committing x) v (l_n x) (l_block x).
Definition set_l_n (v : Z) (x : logstate) : logstate :=
  mkLog (l_start x) (l_outstanding x) (l_committing x) (l_dev x) v (l_block x).
Definition set_l_block (v : list Z) (x : logstate) : logstate :=
  mkLog (l_start x) (l_outstanding x) (l_committing x) (l_dev x) (l_n x) v.

(** [struct superblock]. *)
Record superblock := mkSb {
  sb_magic : Z;
  sb_size : Z;
  sb_nblocks : Z;
  sb_ninodes : Z;
  sb_nlog : Z;
  sb_logstart : Z;
  sb_inodestart : Z;
  sb_bmapstart : Z;
}.
Definition set_sb_magic (v : Z) (x : superblock) : superblock :=
  mkSb v (sb_size x) (sb_nblocks x) (sb_ninodes x) (sb_nlog x) (sb_logstart x) (sb_inodestart x) (sb_bmapstart x).
Definition set_sb_size (v : Z) (x : superblock) : superblock :=
  mkSb (sb_magic x) v (sb_nblocks x) (sb_ninodes x) (sb_nlog x) (sb_logstart x) (sb_inodestart x) (sb_bmapstart x).
Definition set_sb_nblocks (v : Z) (x : superblock) : superblock :=
  mkSb (sb_magic x) (sb_size x) v (sb_ninodes x) (sb_nlog x) (sb_logstart x) (sb_inodestart x) (sb_bmapstart x).
Definition set_sb_ninodes (v : Z) (x : superblock) : superblock :=
  mkSb (sb_magic x) (sb_size x) (sb_nblocks x) v (sb_nlog x) (sb_logstart x) (sb_inodestart x) (sb_bmapstart x).
Definition set_sb_nlog (v : Z) (x : superblock) : superblock :=
  mkSb (sb_magic x) (sb_size x) (sb_nblocks x) (sb_ninodes x) v (sb_logstart x) (sb_inodestart x) (sb_bmapstart x).
Definition set_sb_logstart (v : Z) (x : superblock) : superblock :=
  mkSb (sb_magic x) (sb_size x) (sb_nblocks x) (sb_ninodes x) (sb_nlog x) v (sb_inodestart x) (sb_bmapstart x).
Definition set_sb_inodestart (v : Z) (x : superblock) : superblock :=
  mkSb (sb_magic x) (sb_size x) (sb_nblocks x) (sb_ninodes x) (sb_nlog x) (sb_logstart x) v (sb_bmapstart x).
Definition set_sb_bmapstart (v : Z) (x : superblock) : superblock :=
  mkSb (sb_magic x) (sb_size x) (sb_nblocks x) (sb_ninodes x) (sb_nlog x) (sb_logstart x) (sb_inodestart x) v.

(** [struct inode]. *)
Record inode := mkInode {
  i_dev : Z;
  i_inum : Z;
  i_ref : Z;
  i_lock : sleeplock;
  i_valid : bool;
  i_type : Z;
  i_major : Z;
  i_minor : Z;
  i_nlink : Z;
  i_size : Z;
  i_addrs : list Z;
}.
Definition set_i_dev (v : Z) (x : inode) : inode :=
  mkInode v (i_inum x) (i_ref x) (i_lock x) (i_valid x) (i_type x) (i_major x) (i_minor x) (i_nlink x) (i_size x) (i_addrs x).
Definition set_i_inum (v : Z) (x : inode) : inode :=
  mkInode (i_dev x) v (i_ref x) (i_lock x) (i_valid x) (i_type x) (i_major x) (i_minor x) (i_nlink x) (i_size x) (i_addrs x).
Definition set_i_ref (v : Z) (x : inode) : inode :=
  mkInode (i_dev x) (i_inum x) v (i_lock x) (i_valid x) (i_type x) (i_major x) (i_minor x) (i_nlink x) (i_size x) (i_addrs x).
Definition set_i_lock (v : sleeplock) (x : inode) : inode :=
  mkInode (i_dev x) (i_inum x) (i_ref x) v (i_valid x) (i_type x) (i_major x) (i_minor x) (i_nlink x) (i_size x) (i_addrs x).
Definition set_i_valid (v : bool) (x : inode) : inode :=
  mkInode (i_dev x) (i_inum x) (i_ref x) (i_lock x) v (i_type x) (i_major x) (i_minor x) (i_nlink x) (i_size x) (i_addrs x).
Definition set_i_type (v : Z) (x : inode) : inode :=
  mkInode (i_dev x) (i_inum x) (i_ref x) (i_lock x) (i_valid x) v (i_major x) (i_minor x) (i_nlink x) (i_size x) (i_addrs x).
Definition set_i_major (v : Z) (x : inode) : inode :=
  mkInode (i_dev x) (i_inum x) (i_ref x) (i_lock x) (i_valid x) (i_type x) v (i_minor x) (i_nlink x) (i_size x) (i_addrs x).
Definition set_i_minor (v : Z) (x : inode) : inode :=
  mkInode (i_dev x) (i_inum x) (i_ref x) (i_lock x) (i_valid x) (i_type x) (i_major x) v (i_nlink x) (i_size x) (i_addrs x).
Definition set_i_nlink (v : Z) (x : inode) : inode :=
  mkInode (i_dev x) (i_inum x) (i_ref x) (i_lock x) (i_valid x) (i_type x) (i_major x) (i_minor x) v (i_size x) (i_addrs x).
Definition set_i_size (v : Z) (x : inode) : inode :=
  mkInode (i_dev x) (i_inum x) (i_ref x) (i_lock x) (i_valid x) (i_type x) (i_major x) (i_minor x) (i_nlink x) v (i_addrs x).
Definition set_i_addrs (v : list Z) (x : inode) : inode :=
  mkInode (i_dev x) (i_inum x) (i_ref x) (i_lock x) (i_valid x) (i_type x) (i_major x) (i_minor x) (i_nlink x) (i_size x) v.

Inductive filetype := FD_NONE | FD_PIPE | FD_INODE | FD_DEVICE.
#[export] Instance filetype_eq_dec : EqDecision filetype.
Proof. solve_decision. Defined.

(** [struct file]. *)
Record file := mkFile {
  f_type : filetype;
  f_ref : Z;
  f_readable : bool;
  f_writable : bool;
  f_pipe : Z;
  f_ip : option nat;
  f_off : Z;
  f_major : Z;
}.
Definition set_f_type (v : filetype) (x : file) : file :=
  mkFile v (f_ref x) (f_readable x) (f_writable x) (f_pipe x) (f_ip x) (f_off x) (f_major x).
Definition set_f_ref (v : Z) (x : file) : file :=
  mkFile (f_type x) v (f_readable x) (f_writable x) (f_pipe x) (f_ip x) (f_off x) (f_major x).
Definition set_f_readable (v : bool) (x : file) : file :=
  mkFile (f_type x) (f_ref x) v (f_writable x) (f_pipe x) (f_ip x) (f_off x) (f_major x).
Definition set_f_writable (v : bool) (x : file) : file :=
  mkFile (f_type x) (f_ref x) (f_readable x) v (f_pipe x) (f_ip x) (f_off x) (f_major x).
Definition set_f_pipe (v : Z) (x : file) : file :=
  mkFile (f_type x) (f_ref x) (f_readable x) (f_writable x) v (f_ip x) (f_off x) (f_major x).
Definition set_f_ip (v : option nat) (x : file) : file :=
  mkFile (f_type x) (f_ref x) (f_readable x) (f_writable x) (f_pipe x) v (f_off x) (f_major x).
Definition set_f_off (v : Z) (x : file) : file :=
  mkFile (f_type x) (f_ref x) (f_readable x) (f_writable x) (f_pipe x) (f_ip x) v (f_major x).
Definition set_f_major (v : Z) (x : file) : file :=
  mkFile (f_type x) (f_ref x) (f_readable x) (f_writable x) (f_pipe x) (f_ip x) (f_off x) v.

(** [struct pipe]. *)
Record pipe := mkPipe {
  pi_data : list Z;
  pi_nread : Z;
  pi_nwrite : Z;
  pi_readopen : bool;
  pi_writeopen : bool;
}.
Definition set_pi_data (v : list Z) (x : pipe) : pipe :=
  mkPipe v (pi_nread x) (pi_nwrite x) (pi_readopen x) (pi_writeopen x).
Definition set_pi_nread (v : Z) (x : pipe) : pipe :=
  mkPipe (pi_data x) v (pi_nwrite x) (pi_readopen x) (pi_writeopen x).
Definition set_pi_nwrite (v : Z) (x : pipe) : pipe :=
  mkPipe (pi_data x) (pi_nread x) v (pi_readopen x) (pi_writeopen x).
Definition set_pi_readopen (v : bool) (x : pipe) : pipe :=
  mkPipe (pi_data x) (pi_nread x) (pi_nwrite x) v (pi_writeopen x).
Definition set_pi_writeopen (v : bool) (x : pipe) : pipe :=
  mkPipe (pi_data x) (pi_nread x) (pi_nwrite x) (pi_readopen x) v.

(** The console's input buffer [cons]. *)
Record consstate := mkCons {
  c_buf : list Z;
  c_r : Z;
  c_w : Z;
  c_e : Z;
}.
Definition set_c_buf (v : list Z) (x : consstate) : consstate :=
  mkCons v (c_r x) (c_w x) (c_e x).
Definition set_c_r (v : Z) (x : consstate) : consstate :=
  mkCons (c_buf x) v (c_w x) (c_e x).
Definition set_c_w (v : Z) (x : consstate) : consstate :=
  mkCons (c_buf x) (c_r x) v (c_e x).
Definition set_c_e (v : Z) (x : consstate) : consstate :=
  mkCons (c_buf x) (c_r x) (c_w x) v.

(** The supervisor registers of the running hart that trap.c uses. *)
Record csrs := mkCsrs {
  r_scause : Z;
  r_sepc : Z;
  r_stval : Z;
  r_stvec : Z;
  r_sstatus : Z;
  r_satp : Z;
  r_time : Z;
  r_stimecmp : Z;
}.
Definition set_r_scause (v : Z) (x : csrs) : csrs :=
  mkCsrs v (r_sepc x) (r_stval x) (r_stvec x) (r_sstatus x) (r_satp x) (r_time x) (r_stimecmp x).
Definition set_r_sepc (v : Z) (x : csrs) : csrs :=
  mkCsrs (r_scause x) v (r_stval x) (r_stvec x) (r_sstatus x) (r_satp x) (r_time x) (r_stimecmp x).
Definition set_r_stval (v : Z) (x : csrs) : csrs :=
  mkCsrs (r_scause x) (r_sepc x) v (r_stvec x) (r_sstatus x) (r_satp x) (r_time x) (r_stimecmp x).
Definition set_r_stvec (v : Z) (x : csrs) : csrs :=
  mkCsrs (r_scause x) (r_sepc x) (r_stval x) v (r_sstatus x) (r_satp x) (r_time x) (r_stimecmp x).
Definition set_r_sstatus (v : Z) (x : csrs) : csrs :=
  mkCsrs (r_scause x) (r_sepc x) (r_stval x) (r_stvec x) v (r_satp x) (r_time x) (r_stimecmp x).
Definition set_r_satp (v : Z) (x : csrs) : csrs :=
  mkCsrs (r_scause x) (r_sepc x) (r_stval x) (r_stvec x) (r_sstatus x) v (r_time x) (r_stimecmp x).
Definition set_r_time (v : Z) (x : csrs) : csrs :=
  mkCsrs (r_scause x) (r_sepc x) (r_stval x) (r_stvec x) (r_sstatus x) (r_satp x) v (r_stimecmp x).
Definition set_r_stimecmp (v : Z) (x : csrs) : csrs :=
  mkCsrs (r_scause x) (r_sepc x) (r_stval x) (r_stvec x) (r_sstatus x) (r_satp x) (r_time x) v.

(** The addresses the disk driver gives to the device: a request header, the
    data of a buffer, or a status byte. *)
Inductive dma := DmaNull | DmaOps (i : nat) | DmaData (b : nat) | DmaStatus (i : nat).

(** [struct virtq_desc]. *)
Record virtq_desc := mkDesc {
  d_addr : dma;
  d_len : Z;
  d_flags : Z;
  d_next : Z;
}.
Definition set_d_addr (v : dma) (x : virtq_desc) : virtq_desc :=
  mkDesc v (d_len x) (d_flags x) (d_next x).
Definition set_d_len (v : Z) (x : virtq_desc) : virtq_desc :=
  mkDesc (d_addr x) v (d_flags x) (d_next x).
Definition set_d_flags (v : Z) (x : virtq_desc) : virtq_desc :=
  mkDesc (d_addr x) (d_len x) v (d_next x).
Definition set_d_next (v : Z) (x : virtq_desc) : virtq_desc :=
  mkDesc (d_addr x) (d_len x) (d_flags x) v.

(** [struct disk] of virtio_disk.c with the rings it shares with the device:
    [avail] and [avail_idx] are [avail->ring] and [avail->idx], [used] and
    [used_ridx] the ids of [used->ring] and [used->idx], [ops] the type and sector
    of each request header.  [seen] is the device's own count of the requests it
    has taken from [avail].  *)
Record vdisk := mkVdisk {
  v_desc : list virtq_desc;
  v_avail : list Z;
  v_avail_idx : Z;
  v_used : list Z;
  v_used_ridx : Z;
  v_free : list bool;
  v_used_idx : Z;
  v_info_b : list (option nat);
  v_status : list Z;
  v_ops : list (Z * Z);
  v_seen : Z;
}.
Definition set_v_desc (v : list virtq_desc) (x : vdisk) : vdisk :=
  mkVdisk v (v_avail x) (v_avail_idx x) (v_used x) (v_used_ridx x) (v_free x) (v_used_idx x) (v_info_b x) (v_status x) (v_ops x) (v_seen x).
Definition set_v_avail (v : list Z) (x : vdisk) : vdisk :=
  mkVdisk (v_desc x) v (v_avail_idx x) (v_used x) (v_used_ridx x) (v_free x) (v_used_idx x) (v_info_b x) (v_status x) (v_ops x) (v_seen x).
Definition set_v_avail_idx (v : Z) (x : vdisk) : vdisk :=
  mkVdisk (v_desc x) (v_avail x) v (v_used x) (v_used_ridx x) (v_free x) (v_used_idx x) (v_info_b x) (v_status x) (v_ops x) (v_seen x).
Definition set_v_used (v : list Z) (x : vdisk) : vdisk :=
  mkVdisk (v_desc x) (v_avail x) (v_avail_idx x) v (v_used_ridx x) (v_free x) (v_used_idx x) (v_info_b x) (v_status x) (v_ops x) (v_seen x).
Definition set_v_used_ridx (v : Z) (x : vdisk) : vdisk :=
  mkVdisk (v_desc x) (v_avail x) (v_avail_idx x) (v_used x) v (v_free x) (v_used_idx x) (v_info_b x) (v_status x) (v_ops x) (v_seen x).
Definition set_v_free (v : list bool) (x : vdisk) : vdisk :=
  mkVdisk (v_desc x) (v_avail x) (v_avail_idx x) (v_used x) (v_used_ridx x) v (v_used_idx x) (v_info_b x) (v_status x) (v_ops x) (v_seen x).
Definition set_v_used_idx (v : Z) (x : vdisk) : vdisk :=
  mkVdisk (v_desc x) (v_avail x) (v_avail_idx x) (v_used x) (v_used_ridx x) (v_free x) v (v_info_b x) (v_status x) (v_ops x) (v_seen x).
Definition set_v_info_b (v : list (option nat)) (x : vdisk) : vdisk :=
  mkVdisk (v_desc x) (v_avail x) (v_avail_idx x) (v_used x) (v_used_ridx x) (v_free x) (v_used_idx x) v (v_status x) (v_ops x) (v_seen x).
Definition set_v_status (v : list Z) (x : vdisk) : vdisk :=
  mkVdisk (v_desc x) (v_avail x) (v_avail_idx x) (v_used x) (v_used_ridx x) (v_free x) (v_used_idx x) (v_info_b x) v (v_ops x) (v_seen x).
Definition set_v_ops (v : list (Z * Z)) (x : vdisk) : vdisk :=
  mkVdisk (v_desc x) (v_avail x) (v_avail_idx x) (v_used x) (v_used_ridx x) (v_free x) (v_used_idx x) (v_info_b x) (v_status x) v (v_seen x).
Definition set_v_seen (v : Z) (x : vdisk) : vdisk :=
  mkVdisk (v_desc x) (v_avail x) (v_avail_idx x) (v_used x) (v_used_ridx x) (v_free x) (v_used_idx x) (v_info_b x) (v_status x) (v_ops x) v.

(** uart.c: the received characters waiting in the device, whether its transmitter is
    idle, [tx_busy], and the device's control registers: interrupt enable, line control,
    FIFO control, and the two bytes of the baud-rate divisor.  *)
Record uartstate := mkUart {
  u_rx : list Z;
  u_tx_idle : bool;
  u_tx_busy : bool;
  u_ier : Z;
  u_lcr : Z;
  u_fcr : Z;
  u_dll : Z;
  u_dlm : Z;
}.
Definition set_u_rx (v : list Z) (x : uartstate) : uartstate :=
  mkUart v (u_tx_idle x) (u_tx_busy x) (u_ier x) (u_lcr x) (u_fcr x) (u_dll x) (u_dlm x).
Definition set_u_tx_idle (v : bool) (x : uartstate) : uartstate :=
  mkUart (u_rx x) v (u_tx_busy x) (u_ier x) (u_lcr x) (u_fcr x) (u_dll x) (u_dlm x).
Definition set_u_tx_busy (v : bool) (x : uartstate) : uartstate :=
  mkUart (u_rx x) (u_tx_idle x) v (u_ier x) (u_lcr x) (u_fcr x) (u_dll x) (u_dlm x).
Definition set_u_ier (v : Z) (x : uartstate) : uartstate :=
  mkUart (u_rx x) (u_tx_idle x) (u_tx_busy x) v (u_lcr x) (u_fcr x) (u_dll x) (u_dlm x).
Definition set_u_lcr (v : Z) (x : uartstate) : uartstate :=
  mkUart (u_rx x) (u_tx_idle x) (u_tx_busy x) (u_ier x) v (u_fcr x) (u_dll x) (u_dlm x).
Definition set_u_fcr (v : Z) (x : uartstate) : uartstate :=
  mkUart (u_rx x) (u_tx_idle x) (u_tx_busy x) (u_ier x) (u_lcr x) v (u_dll x) (u_dlm x).
Definition set_u_dll (v : Z) (x : uartstate) : uartstate :=
  mkUart (u_rx x) (u_tx_idle x) (u_tx_busy x) (u_ier x) (u_lcr x) (u_fcr x) v (u_dlm x).
Definition set_u_dlm (v : Z) (x : uartstate) : uartstate :=
  mkUart (u_rx x) (u_tx_idle x) (u_tx_busy x) (u_ier x) (u_lcr x) (u_fcr x) (u_dll x) v.

(** The interrupt controller: its registers that hold a value, by address, and the interrupts
    that have been claimed and not completed.  *)
Record plicstate := mkPlic {
  pl_regs : gmap Z Z;
  pl_served : list Z;
}.
Definition set_pl_regs (v : gmap Z Z) (x : plicstate) : plicstate :=
  mkPlic v (pl_served x).
Definition set_pl_served (v : list Z) (x : plicstate) : plicstate :=
  mkPlic (pl_regs x) v.

(** The entries of [devsw]: the console is the only device. *)
Inductive devops := DevConsole.

(** ** The kernel state *)

(** The global variables, as the hart [hart] sees them: [cpus] holds each
    [cpus[i].proc]; [held] the spinlocks the running hart holds, the latest
    first; [intr] whether interrupts are enabled once no lock is held; [mem]
    physical memory; [disk] the blocks on the disk and [dwrites] the writes it has
    completed, the latest first; [out] the bytes sent to the UART; [irqs] the
    interrupts pending at the PLIC and [plic] its registers; [first] and [started] the static variables of
    [forkret] and of main.c. *)
Record kstate := mkK {
  k_hart : nat;
  k_cpus : list (option nat);
  k_held : list lockid;
  k_intr : bool;
  k_csr : csrs;
  k_procs : list proc;
  k_initproc : option nat;
  k_nextpid : Z;
  k_ticks : Z;
  k_mem : mem;
  k_freelist : Z;
  k_kpgtbl : Z;
  k_bufs : list buf;
  k_disk : gmap Z (list Z);
  k_log : logstate;
  k_sb : superblock;
  k_itable : list inode;
  k_ftable : list file;
  k_pipes : gmap Z pipe;
  k_cons : consstate;
  k_out : list Z;
  k_dwrites : list (Z * list Z);
  k_vd : vdisk;
  k_uart : uartstate;
  k_irqs : list Z;
  k_devsw : list (option devops);
  k_first : bool;
  k_started : bool;
  k_plic : plicstate;
}.
Definition set_k_hart (v : nat) (x : kstate) : kstate :=
  mkK v (k_cpus x) (k_held x) (k_intr x) (k_csr x) (k_procs x) (k_initproc x) (k_nextpid x) (k_ticks x) (k_mem x) (k_freelist x) (k_kpgtbl x) (k_bufs x) (k_disk x) (k_log x) (k_sb x) (k_itable x) (k_ftable x) (k_pipes x) (k_cons x) (k_out x) (k_dwrites x) (k_vd x) (k_uart x) (k_irqs x) (k_devsw x) (k_first x) (k_started x) (k_plic x).
Definition set_k_cpus (v : list (option nat)) (x : kstate) : kstate :=
  mkK (k_hart x) v (k_held x) (k_intr x) (k_csr x) (k_procs x) (k_initproc x) (k_nextpid x) (k_ticks x) (k_mem x) (k_freelist x) (k_kpgtbl x) (k_bufs x) (k_disk x) (k_log x) (k_sb x) (k_itable x) (k_ftable x) (k_pipes x) (k_cons x) (k_out x) (k_dwrites x) (k_vd x) (k_uart x) (k_irqs x) (k_devsw x) (k_first x) (k_started x) (k_plic x).
Definition set_k_held (v : list lockid) (x : kstate) : kstate :=
  mkK (k_hart x) (k_cpus x) v (k_intr x) (k_csr x) (k_procs x) (k_initproc x) (k_nextpid x) (k_ticks x) (k_mem x) (k_freelist x) (k_kpgtbl x) (k_bufs x) (k_disk x) (k_log x) (k_sb x) (k_itable x) (k_ftable x) (k_pipes x) (k_cons x) (k_out x) (k_dwrites x) (k_vd x) (k_uart x) (k_irqs x) (k_devsw x) (k_first x) (k_started x) (k_plic x).
Definition set_k_intr (v : bool) (x : kstate) : kstate :=
  mkK (k_hart x) (k_cpus x) (k_held x) v (k_csr x) (k_procs x) (k_initproc x) (k_nextpid x) (k_ticks x) (k_mem x) (k_freelist x) (k_kpgtbl x) (k_bufs x) (k_disk x) (k_log x) (k_sb x) (k_itable x) (k_ftable x) (k_pipes x) (k_cons x) (k_out x) (k_dwrites x) (k_vd x) (k_uart x) (k_irqs x) (k_devsw x) (k_first x) (k_started x) (k_plic x).
Definition set_k_csr (v : csrs) (x : kstate) : kstate :=
  mkK (k_hart x) (k_cpus x) (k_held x) (k_intr x) v (k_procs x) (k_initproc x) (k_nextpid x) (k_ticks x) (k_mem x) (k_freelist x) (k_kpgtbl x) (k_bufs x) (k_disk x) (k_log x) (k_sb x) (k_itable x) (k_ftable x) (k_pipes x) (k_cons x) (k_out x) (k_dwrites x) (k_vd x) (k_uart x) (k_irqs x) (k_devsw x) (k_first x) (k_started x) (k_plic x).
Definition set_k_procs (v : list proc) (x : kstate) : kstate :=
  mkK (k_hart x) (k_cpus x) (k_held x) (k_intr x) (k_csr x) v (k_initproc x) (k_nextpid x) (k_ticks x) (k_mem x) (k_freelist x) (k_kpgtbl x) (k_bufs x) (k_disk x) (k_log x) (k_sb x) (k_itable x) (k_ftable x) (k_pipes x) (k_cons x) (k_out x) (k_dwrites x) (k_vd x) (k_uart x) (k_irqs x) (k_devsw x) (k_first x) (k_started x) (k_plic x).
Definition set_k_initproc (v : option nat) (x : kstate) : kstate :=
  mkK (k_hart x) (k_cpus x) (k_held x) (k_intr x) (k_csr x) (k_procs x) v (k_nextpid x) (k_ticks x) (k_mem x) (k_freelist x) (k_kpgtbl x) (k_bufs x) (k_disk x) (k_log x) (k_sb x) (k_itable x) (k_ftable x) (k_pipes x) (k_cons x) (k_out x) (k_dwrites x) (k_vd x) (k_uart x) (k_irqs x) (k_devsw x) (k_first x) (k_started x) (k_plic x).
Definition set_k_nextpid (v : Z) (x : kstate) : kstate :=
  mkK (k_hart x) (k_cpus x) (k_held x) (k_intr x) (k_csr x) (k_procs x) (k_initproc x) v (k_ticks x) (k_mem x) (k_freelist x) (k_kpgtbl x) (k_bufs x) (k_disk x) (k_log x) (k_sb x) (k_itable x) (k_ftable x) (k_pipes x) (k_cons x) (k_out x) (k_dwrites x) (k_vd x) (k_uart x) (k_irqs x) (k_devsw x) (k_first x) (k_started x) (k_plic x).
Definition set_k_ticks (v : Z) (x : kstate) : kstate :=
  mkK (k_hart x) (k_cpus x) (k_held x) (k_intr x) (k_csr x) (k_procs x) (k_initproc x) (k_nextpid x) v (k_mem x) (k_freelist x) (k_kpgtbl x) (k_bufs x) (k_disk x) (k_log x) (k_sb x) (k_itable x) (k_ftable x) (k_pipes x) (k_cons x) (k_out x) (k_dwrites x) (k_vd x) (k_uart x) (k_irqs x) (k_devsw x) (k_first x) (k_started x) (k_plic x).
Definition set_k_mem (v : mem) (x : kstate) : kstate :=
  mkK (k_hart x) (k_cpus x) (k_held x) (k_intr x) (k_csr x) (k_procs x) (k_initproc x) (k_nextpid x) (k_ticks x) v (k_freelist x) (k_kpgtbl x) (k_bufs x) (k_disk x) (k_log x) (k_sb x) (k_itable x) (k_ftable x) (k_pipes x) (k_cons x) (k_out x) (k_dwrites x) (k_vd x) (k_uart x) (k_irqs x) (k_devsw x) (k_first x) (k_started x) (k_plic x).
Definition set_k_freelist (v : Z) (x : kstate) : kstate :=
  mkK (k_hart x) (k_cpus x) (k_held x) (k_intr x) (k_csr x) (k_procs x) (k_initproc x) (k_nextpid x) (k_ticks x) (k_mem x) v (k_kpgtbl x) (k_bufs x) (k_disk x) (k_log x) (k_sb x) (k_itable x) (k_ftable x) (k_pipes x) (k_cons x) (k_out x) (k_dwrites x) (k_vd x) (k_uart x) (k_irqs x) (k_devsw x) (k_first x) (k_started x) (k_plic x).
Definition set_k_kpgtbl (v : Z) (x : kstate) : kstate :=
  mkK (k_hart x) (k_cpus x) (k_held x) (k_intr x) (k_csr x) (k_procs x) (k_initproc x) (k_nextpid x) (k_ticks x) (k_mem x) (k_freelist x) v (k_bufs x) (k_disk x) (k_log x) (k_sb x) (k_itable x) (k_ftable x) (k_pipes x) (k_cons x) (k_out x) (k_dwrites x) (k_vd x) (k_uart x) (k_irqs x) (k_devsw x) (k_first x) (k_started x) (k_plic x).
Definition set_k_bufs (v : list buf) (x : kstate) : kstate :=
  mkK (k_hart x) (k_cpus x) (k_held x) (k_intr x) (k_csr x) (k_procs x) (k_initproc x) (k_nextpid x) (k_ticks x) (k_mem x) (k_freelist x) (k_kpgtbl x) v (k_disk x) (k_log x) (k_sb x) (k_itable x) (k_ftable x) (k_pipes x) (k_cons x) (k_out x) (k_dwrites x) (k_vd x) (k_uart x) (k_irqs x) (k_devsw x) (k_first x) (k_started x) (k_plic x).
Definition set_k_disk (v : gmap Z (list Z)) (x : kstate) : kstate :=
  mkK (k_hart x) (k_cpus x) (k_held x) (k_intr x) (k_csr x) (k_procs x) (k_initproc x) (k_nextpid x) (k_ticks x) (k_mem x) (k_freelist x) (k_kpgtbl x) (k_bufs x) v (k_log x) (k_sb x) (k_itable x) (k_ftable x) (k_pipes x) (k_cons x) (k_out x) (k_dwrites x) (k_vd x) (k_uart x) (k_irqs x) (k_devsw x) (k_first x) (k_started x) (k_plic x).
Definition set_k_log (v : logstate) (x : kstate) : kstate :=
  mkK (k_hart x) (k_cpus x) (k_held x) (k_intr x) (k_csr x) (k_procs x) (k_initproc x) (k_nextpid x) (k_ticks x) (k_mem x) (k_freelist x) (k_kpgtbl x) (k_bufs x) (k_disk x) v (k_sb x) (k_itable x) (k_ftable x) (k_pipes x) (k_cons x) (k_out x) (k_dwrites x) (k_vd x) (k_uart x) (k_irqs x) (k_devsw x) (k_first x) (k_started x) (k_plic x).
Definition set_k_sb (v : superblock) (x : kstate) : kstate :=
  mkK (k_hart x) (k_cpus x) (k_held x) (k_intr x) (k_csr x) (k_procs x) (k_initproc x) (k_nextpid x) (k_ticks x) (k_mem x) (k_freelist x) (k_kpgtbl x) (k_bufs x) (k_disk x) (k_log x) v (k_itable x) (k_ftable x) (k_pipes x) (k_cons x) (k_out x) (k_dwrites x) (k_vd x) (k_uart x) (k_irqs x) (k_devsw x) (k_first x) (k_started x) (k_plic x).
Definition set_k_itable (v : list inode) (x : kstate) : kstate :=
  mkK (k_hart x) (k_cpus x) (k_held x) (k_intr x) (k_csr x) (k_procs x) (k_initproc x) (k_nextpid x) (k_ticks x) (k_mem x) (k_freelist x) (k_kpgtbl x) (k_bufs x) (k_disk x) (k_log x) (k_sb x) v (k_ftable x) (k_pipes x) (k_cons x) (k_out x) (k_dwrites x) (k_vd x) (k_uart x) (k_irqs x) (k_devsw x) (k_first x) (k_started x) (k_plic x).
Definition set_k_ftable (v : list file) (x : kstate) : kstate :=
  mkK (k_hart x) (k_cpus x) (k_held x) (k_intr x) (k_csr x) (k_procs x) (k_initproc x) (k_nextpid x) (k_ticks x) (k_mem x) (k_freelist x) (k_kpgtbl x) (k_bufs x) (k_disk x) (k_log x) (k_sb x) (k_itable x) v (k_pipes x) (k_cons x) (k_out x) (k_dwrites x) (k_vd x) (k_uart x) (k_irqs x) (k_devsw x) (k_first x) (k_started x) (k_plic x).
Definition set_k_pipes (v : gmap Z pipe) (x : kstate) : kstate :=
  mkK (k_hart x) (k_cpus x) (k_held x) (k_intr x) (k_csr x) (k_procs x) (k_initproc x) (k_nextpid x) (k_ticks x) (k_mem x) (k_freelist x) (k_kpgtbl x) (k_bufs x) (k_disk x) (k_log x) (k_sb x) (k_itable x) (k_ftable x) v (k_cons x) (k_out x) (k_dwrites x) (k_vd x) (k_uart x) (k_irqs x) (k_devsw x) (k_first x) (k_started x) (k_plic x).
Definition set_k_cons (v : consstate) (x : kstate) : kstate :=
  mkK (k_hart x) (k_cpus x) (k_held x) (k_intr x) (k_csr x) (k_procs x) (k_initproc x) (k_nextpid x) (k_ticks x) (k_mem x) (k_freelist x) (k_kpgtbl x) (k_bufs x) (k_disk x) (k_log x) (k_sb x) (k_itable x) (k_ftable x) (k_pipes x) v (k_out x) (k_dwrites x) (k_vd x) (k_uart x) (k_irqs x) (k_devsw x) (k_first x) (k_started x) (k_plic x).
Definition set_k_out (v : list Z) (x : kstate) : kstate :=
  mkK (k_hart x) (k_cpus x) (k_held x) (k_intr x) (k_csr x) (k_procs x) (k_initproc x) (k_nextpid x) (k_ticks x) (k_mem x) (k_freelist x) (k_kpgtbl x) (k_bufs x) (k_disk x) (k_log x) (k_sb x) (k_itable x) (k_ftable x) (k_pipes x) (k_cons x) v (k_dwrites x) (k_vd x) (k_uart x) (k_irqs x) (k_devsw x) (k_first x) (k_started x) (k_plic x).
Definition set_k_dwrites (v : list (Z * list Z)) (x : kstate) : kstate :=
  mkK (k_hart x) (k_cpus x) (k_held x) (k_intr x) (k_csr x) (k_procs x) (k_initproc x) (k_nextpid x) (k_ticks x) (k_mem x) (k_freelist x) (k_kpgtbl x) (k_bufs x) (k_disk x) (k_log x) (k_sb x) (k_itable x) (k_ftable x) (k_pipes x) (k_cons x) (k_out x) v (k_vd x) (k_uart x) (k_irqs x) (k_devsw x) (k_first x) (k_started x) (k_plic x).
Definition set_k_vd (v : vdisk) (x : kstate) : kstate :=
  mkK (k_hart x) (k_cpus x) (k_held x) (k_intr x) (k_csr x) (k_procs x) (k_initproc x) (k_nextpid x) (k_ticks x) (k_mem x) (k_freelist x) (k_kpgtbl x) (k_bufs x) (k_disk x) (k_log x) (k_sb x) (k_itable x) (k_ftable x) (k_pipes x) (k_cons x) (k_out x) (k_dwrites x) v (k_uart x) (k_irqs x) (k_devsw x) (k_first x) (k_started x) (k_plic x).
Definition set_k_uart (v : uartstate) (x : kstate) : kstate :=
  mkK (k_hart x) (k_cpus x) (k_held x) (k_intr x) (k_csr x) (k_procs x) (k_initproc x) (k_nextpid x) (k_ticks x) (k_mem x) (k_freelist x) (k_kpgtbl x) (k_bufs x) (k_disk x) (k_log x) (k_sb x) (k_itable x) (k_ftable x) (k_pipes x) (k_cons x) (k_out x) (k_dwrites x) (k_vd x) v (k_irqs x) (k_devsw x) (k_first x) (k_started x) (k_plic x).
Definition set_k_irqs (v : list Z) (x : kstate) : kstate :=
  mkK (k_hart x) (k_cpus x) (k_held x) (k_intr x) (k_csr x) (k_procs x) (k_initproc x) (k_nextpid x) (k_ticks x) (k_mem x) (k_freelist x) (k_kpgtbl x) (k_bufs x) (k_disk x) (k_log x) (k_sb x) (k_itable x) (k_ftable x) (k_pipes x) (k_cons x) (k_out x) (k_dwrites x) (k_vd x) (k_uart x) v (k_devsw x) (k_first x) (k_started x) (k_plic x).
Definition set_k_devsw (v : list (option devops)) (x : kstate) : kstate :=
  mkK (k_hart x) (k_cpus x) (k_held x) (k_intr x) (k_csr x) (k_procs x) (k_initproc x) (k_nextpid x) (k_ticks x) (k_mem x) (k_freelist x) (k_kpgtbl x) (k_bufs x) (k_disk x) (k_log x) (k_sb x) (k_itable x) (k_ftable x) (k_pipes x) (k_cons x) (k_out x) (k_dwrites x) (k_vd x) (k_uart x) (k_irqs x) v (k_first x) (k_started x) (k_plic x).
Definition set_k_first (v : bool) (x : kstate) : kstate :=
  mkK (k_hart x) (k_cpus x) (k_held x) (k_intr x) (k_csr x) (k_procs x) (k_initproc x) (k_nextpid x) (k_ticks x) (k_mem x) (k_freelist x) (k_kpgtbl x) (k_bufs x) (k_disk x) (k_log x) (k_sb x) (k_itable x) (k_ftable x) (k_pipes x) (k_cons x) (k_out x) (k_dwrites x) (k_vd x) (k_uart x) (k_irqs x) (k_devsw x) v (k_started x) (k_plic x).
Definition set_k_started (v : bool) (x : kstate) : kstate :=
  mkK (k_hart x) (k_cpus x) (k_held x) (k_intr x) (k_csr x) (k_procs x) (k_initproc x) (k_nextpid x) (k_ticks x) (k_mem x) (k_freelist x) (k_kpgtbl x) (k_bufs x) (k_disk x) (k_log x) (k_sb x) (k_itable x) (k_ftable x) (k_pipes x) (k_cons x) (k_out x) (k_dwrites x) (k_vd x) (k_uart x) (k_irqs x) (k_devsw x) (k_first x) v (k_plic x).
Definition set_k_plic (v : plicstate) (x : kstate) : kstate :=
  mkK (k_hart x) (k_cpus x) (k_held x) (k_intr x) (k_csr x) (k_procs x) (k_initproc x) (k_nextpid x) (k_ticks x) (k_mem x) (k_freelist x) (k_kpgtbl x) (k_bufs x) (k_disk x) (k_log x) (k_sb x) (k_itable x) (k_ftable x) (k_pipes x) (k_cons x) (k_out x) (k_dwrites x) (k_vd x) (k_uart x) (k_irqs x) (k_devsw x) (k_first x) (k_started x) v.

Abbreviation K := (M kstate).

(** ** Access to the tables *)

Definition cur (s : kstate) : option nat := mjoin (k_cpus s !! k_hart s).

(** [myproc()], where the code goes on to use the process. *)
Definition myproc : K nat :=
  o ← gets cur; unwrap "myproc" o.

Definition getp (i : nat) : K proc :=
  o ← gets (λ s, k_procs s !! i); unwrap "proc" o.
Definition upd_procs (f : list proc → list proc) (s : kstate) : kstate :=
  set_k_procs (f (k_procs s)) s.
Definition modp (i : nat) (f : proc → proc) : K unit :=
  modify (upd_procs (alter f i)).
Definition upd_mem (f : mem → mem) (s : kstate) : kstate := set_k_mem (f (k_mem s)) s.
Definition modmem (f : mem → mem) : K unit := modify (upd_mem f).

(** ** Spinlocks, as the rest of the kernel uses them

    Spinlock.v models spinlock.c itself and shows that it implements this view:
    [noff] is the number of locks held, and interrupts are enabled exactly when
    [intr] is set and no lock is held. *)

Definition upd_held (f : list lockid → list lockid) (s : kstate) : kstate :=
  set_k_held (f (k_held s)) s.
Definition holding (lk : lockid) (s : kstate) : bool := bool_decide (lk ∈ k_held s).
Definition noff (s : kstate) : nat := length (k_held s).
Definition intr_get (s : kstate) : bool := k_intr s && bool_decide (k_held s = []).

Definition acquire (lk : lockid) : K unit :=
  h ← gets (holding lk);
  if (h : bool) then panic "acquire" else modify (upd_held (cons lk)).

Definition release (lk : lockid) : K unit :=
  h ← gets (holding lk);
  if (h : bool) then modify (upd_held (remove_one lk)) else panic "release".

(** Reduce the projections of updated states, and prove two states equal. *)
Ltac kcbn :=
  cbn [k_hart k_cpus k_held k_intr k_csr k_procs k_initproc k_nextpid k_ticks k_mem k_freelist k_kpgtbl k_bufs k_disk k_log k_sb k_itable k_ftable k_pipes k_cons k_out k_dwrites k_vd k_uart k_irqs k_devsw k_first k_started k_plic
    set_k_hart set_k_cpus set_k_held set_k_intr set_k_csr set_k_procs set_k_initproc set_k_nextpid set_k_ticks set_k_mem set_k_freelist set_k_kpgtbl set_k_bufs set_k_disk set_k_log set_k_sb set_k_itable set_k_ftable set_k_pipes set_k_cons set_k_out set_k_dwrites set_k_vd set_k_uart set_k_irqs set_k_devsw set_k_first set_k_started set_k_plic upd_held upd_procs upd_mem].
Tactic Notation "kcbn" "in" hyp(H) :=
  cbn [k_hart k_cpus k_held k_intr k_csr k_procs k_initproc k_nextpid k_ticks k_mem k_freelist k_kpgtbl k_bufs k_disk k_log k_sb k_itable k_ftable k_pipes k_cons k_out k_dwrites k_vd k_uart k_irqs k_devsw k_first k_started k_plic
    set_k_hart set_k_cpus set_k_held set_k_intr set_k_csr set_k_procs set_k_initproc set_k_nextpid set_k_ticks set_k_mem set_k_freelist set_k_kpgtbl set_k_bufs set_k_disk set_k_log set_k_sb set_k_itable set_k_ftable set_k_pipes set_k_cons set_k_out set_k_dwrites set_k_vd set_k_uart set_k_irqs set_k_devsw set_k_first set_k_started set_k_plic upd_held upd_procs upd_mem] in H.
Ltac kstate_eq :=
  repeat match goal with s : kstate |- _ => destruct s end;
  cbv beta iota delta [k_hart k_cpus k_held k_intr k_csr k_procs k_initproc k_nextpid k_ticks k_mem k_freelist k_kpgtbl k_bufs k_disk k_log k_sb k_itable k_ftable k_pipes k_cons k_out k_dwrites k_vd k_uart k_irqs k_devsw k_first k_started k_plic
    set_k_hart set_k_cpus set_k_held set_k_intr set_k_csr set_k_procs set_k_initproc set_k_nextpid set_k_ticks set_k_mem set_k_freelist set_k_kpgtbl set_k_bufs set_k_disk set_k_log set_k_sb set_k_itable set_k_ftable set_k_pipes set_k_cons set_k_out set_k_dwrites set_k_vd set_k_uart set_k_irqs set_k_devsw set_k_first set_k_started set_k_plic upd_held upd_procs upd_mem];
  reflexivity.

(** Two results with equal states. *)
Ltac ret_eq := unfold ret; first [reflexivity | f_equal; kstate_eq].

Section locks.
Implicit Types (s : kstate) (lk : lockid).

Lemma wp_acquire lk Q s :
  lk ∉ k_held s → Q tt (upd_held (cons lk) s) → wp (acquire lk) Q s.
Proof.
  intros H HQ. unfold acquire. wp_go. unfold holding.
  rewrite bool_decide_eq_false_2 by done. by wp_go.
Qed.

Lemma wp_release lk l Q s :
  k_held s = lk :: l → Q tt (set_k_held l s) → wp (release lk) Q s.
Proof.
  intros H HQ. unfold release. wp_go. unfold holding.
  rewrite bool_decide_eq_true_2 by (rewrite H; set_solver). wp_go.
  unfold upd_held. by rewrite H, remove_one_head.
Qed.

Lemma wp_release_in lk Q s :
  lk ∈ k_held s → Q tt (upd_held (remove_one lk) s) → wp (release lk) Q s.
Proof.
  intros H HQ. unfold release. wp_go. unfold holding.
  rewrite bool_decide_eq_true_2 by done. by wp_go.
Qed.

(** Taking a lock twice and releasing a lock that is not held are caught. *)
Lemma acquire_held lk s : lk ∈ k_held s → acquire lk s = Panic "acquire" s.
Proof.
  intros H. unfold acquire. rewrite bind_gets. unfold holding.
  by rewrite bool_decide_eq_true_2.
Qed.
Lemma release_not_held lk s : lk ∉ k_held s → release lk s = Panic "release" s.
Proof.
  intros H. unfold release. rewrite bind_gets. unfold holding.
  by rewrite bool_decide_eq_false_2.
Qed.
Lemma acquire_run lk s : lk ∉ k_held s → acquire lk s = Ret tt (upd_held (cons lk) s).
Proof.
  intros H. unfold acquire. rewrite bind_gets. unfold holding.
  by rewrite bool_decide_eq_false_2.
Qed.
Lemma release_run lk l s :
  k_held s = lk :: l → release lk s = Ret tt (set_k_held l s).
Proof.
  intros H. unfold release. rewrite bind_gets. unfold holding.
  rewrite bool_decide_eq_true_2 by (rewrite H; set_solver).
  unfold modify, upd_held. by rewrite H, remove_one_head.
Qed.

Lemma release_in_run lk s :
  lk ∈ k_held s → release lk s = Ret tt (upd_held (remove_one lk) s).
Proof.
  intros H. unfold release. rewrite bind_gets. unfold holding.
  by rewrite bool_decide_eq_true_2.
Qed.
(** Taking and releasing a free lock changes nothing. *)
Lemma acquire_release lk s :
  lk ∉ k_held s → set_k_held (k_held s) (upd_held (cons lk) s) = s.
Proof. intros. kstate_eq. Qed.

Lemma myproc_run s i : cur s = Some i → myproc s = Ret i s.
Proof. intros H. unfold myproc. by rewrite bind_gets, H. Qed.
Lemma getp_run s i p : k_procs s !! i = Some p → getp i s = Ret p s.
Proof. intros H. unfold getp. by rewrite bind_gets, H. Qed.
Lemma upd_procs_insert s i p f :
  k_procs s !! i = Some p → upd_procs (alter f i) s = set_k_procs (<[i := f p]> (k_procs s)) s.
Proof. intros H. unfold upd_procs. by rewrite (list_alter_insert f _ i p). Qed.
Lemma modp_run s i p f :
  k_procs s !! i = Some p →
  modp i f s = Ret tt (set_k_procs (<[i := f p]> (k_procs s)) s).
Proof. intros H. unfold modp, modify. by rewrite (upd_procs_insert s i p f). Qed.

Lemma set_k_held_id s : set_k_held (k_held s) s = s.
Proof. by destruct s. Qed.
Lemma set_k_procs_id s : set_k_procs (k_procs s) s = s.
Proof. by destruct s. Qed.
Lemma set_k_mem_id s : set_k_mem (k_mem s) s = s.
Proof. by destruct s. Qed.
End locks.

Ltac wp_user ::=
  match goal with
  | |- wp (modmem _) _ _ => apply wp_modify
  | |- wp (modp _ _) _ _ => apply wp_modify
  end.

(** Side conditions on held locks. *)
Ltac lock_free :=
  cbn; repeat match goal with
  | H : k_held _ = _ |- _ => rewrite H
  end; try done;
  rewrite ?not_elem_of_cons, ?elem_of_nil; repeat split; try done; try congruence; auto.

(** ** The globals before [main] runs: the zeroed BSS *)

Definition context0 : context := mkContext 0 0 (replicate 12 0).
Definition proc0 : proc :=
  mkProc UNUSED ChNull 0 0 0 0 0 None 0 0 0 0 context0 (replicate NOFILE None) None
    (replicate 16 0).
Definition sleeplock0 : sleeplock := mkSleeplock false 0.
Definition buf0 : buf := mkBuf false false 0 0 sleeplock0 0 0 0 (replicate 1024 0).
Definition inode0 : inode := mkInode 0 0 0 sleeplock0 false 0 0 0 0 0 (replicate 13 0).
Definition file0 : file := mkFile FD_NONE 0 false false 0 None 0 0.
Definition desc0 : virtq_desc := mkDesc DmaNull 0 0 0.
Definition vdisk0 : vdisk :=
  mkVdisk (replicate 8 desc0) (replicate 8 0) 0 (replicate 8 0) 0 (replicate 8 false) 0
    (replicate 8 None) (replicate 8 0) (replicate 8 (0, 0)) 0.
Definition kstate0 : kstate :=
  mkK 0 (replicate NCPU None) [] false (mkCsrs 0 0 0 0 0 0 0 0)
    (replicate NPROC proc0) None 1 0 ∅ 0 0
    (replicate (S NBUF) buf0) ∅ (mkLog 0 0 false 0 0 (replicate 30 0))
    (mkSb 0 0 0 0 0 0 0 0) (replicate NINODE inode0) (replicate NFILE file0) ∅
    (mkCons (replicate 128 0) 0 0 0) [] []
    vdisk0 (mkUart [] true false 0 0 0 0 0) [] (replicate 10 None) true false (mkPlic ∅ []).
