(* ===== verification/Printk.v ===== *)
(** * kernel/printk.c and the polled half of kernel/uart.c

    Formatted output to the console.  The computation [panic] of Prelude.v stands
    for [panic] of printk.c: it ends the run, so that [panicking] and [panicked]
    are 0 in every run that goes on. *)
From Stdlib Require Import ZArith Lia Ascii.
From stdpp Require Import base list gmap numbers strings.
From S2P Require Import Prelude Machine KString Bytes State.
Local Open Scope Z_scope.
Local Open Scope kernel_scope.

(** ** uart.c: transmission by polling *)

(** [WriteReg(THR, c)]: the device takes the byte and is busy sending it. *)
Definition thr_write (c : Z) : K unit :=
  modify (λ s, set_k_out (k_out s ++ [u8 c]) (set_k_uart (set_u_tx_idle false (k_uart s)) s)).

(** [while ((ReadReg(LSR) & LSR_TX_IDLE) == 0);]: the spin ends when the device
    has sent the byte before. *)
Definition wait_tx_idle : K unit :=
  modify (λ s, set_k_uart (set_u_tx_idle true (k_uart s)) s).

Definition uartputc_sync (c : Z) : K unit := wait_tx_idle ;; thr_write c.

(** console.c *)
Definition BACKSPACE : Z := 0x100.
Definition consputc (c : Z) : K unit :=
  if c =? BACKSPACE then
    uartputc_sync 8 ;; uartputc_sync 32 ;; uartputc_sync 8
  else uartputc_sync c.

(** ** Numbers *)

(** The variable arguments: an integer, or a pointer to a string ([None] for a
    null pointer). *)
Inductive karg := KInt (z : Z) | KStr (s : option (list Z)).

(** [do { buf[i++] = digits[x % base]; } while ((x /= base) != 0);] on the array
    [char buf[20]], of which the [i] bytes written are [buf].  [None] is a write
    past its end.  The number of iterations is the number of digits, at most 64. *)
Fixpoint digits_loop (digits : list Z) (fuel : nat) (x base : Z) (buf : list Z) :
    option (list Z) :=
  match fuel with
  | O => None
  | S f =>
      if (length buf <? 20)%nat then
        let buf' := buf ++ [nth (Z.to_nat (x mod base)) digits 0] in
        let x' := x / base in
        if x' =? 0 then Some buf' else digits_loop digits f x' base buf'
      else None
  end.

(** The contents of [buf] when [printint] starts to print it, from its last byte
    to its first: [xx] is a [long long]. *)
Definition printint_buf (digits : list Z) (xx base : Z) (sign : bool) : option (list Z) :=
  let neg := sign && (xx <? 0) in
  let x := if neg then u64 (- xx) else u64 xx in
  match digits_loop digits 64 x base [] with
  | None => None
  | Some buf =>
      if (neg : bool) then if (length buf <? 20)%nat then Some (buf ++ [45]) else None
      else Some buf
  end.

Definition digits : list Z := str "0123456789abcdef".

Definition printint (xx base : Z) (sign : bool) : K unit :=
  match printint_buf digits xx base sign with
  | None => undef "printint: buf"
  | Some buf => for_each (rev buf) consputc
  end.

(** [for (i = 0; i < 16; i++, x <<= 4) consputc(digits[x >> 60]);] *)
Fixpoint printptr_loop (n : nat) (x : Z) : K unit :=
  match n with
  | O => ret tt
  | S n' =>
      consputc (nth (Z.to_nat (Z.shiftr x 60)) digits 0) ;;
      printptr_loop n' (u64 (Z.shiftl x 4))
  end.
Definition printptr (x : Z) : K unit :=
  consputc 48 ;; consputc 120 ;; printptr_loop 16 x.

(** ** [printk] *)

(** [va_arg(ap, int)], [va_arg(ap, uint32)], [va_arg(ap, uint64)] converted to
    [long long], and [va_arg(ap, char * )]. *)
Definition va_int (conv : Z → Z) (ap : list karg) (k : Z → list karg → K unit) : K unit :=
  match ap with
  | KInt z :: ap' => k (conv z) ap'
  | _ => undef "va_arg"
  end.
Definition va_str (ap : list karg) (k : option (list Z) → list karg → K unit) : K unit :=
  match ap with
  | KStr s :: ap' => k s ap'
  | _ => undef "va_arg"
  end.
Definition i64 (z : Z) : Z := (z + 2 ^ 63) mod 2 ^ 64 - 2 ^ 63.

(** The loop of [printk] over the bytes of [fmt]; [skip] bytes are passed over
    (the [i++] and [i += 1] of the conversions). *)
Fixpoint printk_loop (fmt : list Z) (skip : nat) (ap : list karg) : K unit :=
  match fmt with
  | [] => ret tt
  | cx :: fmt' =>
      match skip with
      | S k => printk_loop fmt' k ap
      | O =>
          if negb (cx =? 37) then consputc cx ;; printk_loop fmt' 0 ap
          else
            let c0 := nth 0 fmt' 0 in
            let c1 := if c0 =? 0 then 0 else nth 1 fmt' 0 in
            let c2 := if c1 =? 0 then 0 else nth 2 fmt' 0 in
            if c0 =? 100 then
              va_int i32 ap (λ x ap, printint x 10 true ;; printk_loop fmt' 1 ap)
            else if (c0 =? 108) && (c1 =? 100) then
              va_int i64 ap (λ x ap, printint x 10 true ;; printk_loop fmt' 2 ap)
            else if (c0 =? 108) && (c1 =? 108) && (c2 =? 100) then
              va_int i64 ap (λ x ap, printint x 10 true ;; printk_loop fmt' 3 ap)
            else if c0 =? 117 then
              va_int u32 ap (λ x ap, printint x 10 false ;; printk_loop fmt' 1 ap)
            else if (c0 =? 108) && (c1 =? 117) then
              va_int i64 ap (λ x ap, printint x 10 false ;; printk_loop fmt' 2 ap)
            else if (c0 =? 108) && (c1 =? 108) && (c2 =? 117) then
              va_int i64 ap (λ x ap, printint x 10 false ;; printk_loop fmt' 3 ap)
            else if c0 =? 120 then
              va_int u32 ap (λ x ap, printint x 16 false ;; printk_loop fmt' 1 ap)
            else if (c0 =? 108) && (c1 =? 120) then
              va_int i64 ap (λ x ap, printint x 16 false ;; printk_loop fmt' 2 ap)
            else if (c0 =? 108) && (c1 =? 108) && (c2 =? 120) then
              va_int i64 ap (λ x ap, printint x 16 false ;; printk_loop fmt' 3 ap)
            else if c0 =? 112 then
              va_int u64 ap (λ x ap, printptr x ;; printk_loop fmt' 1 ap)
            else if c0 =? 99 then
              va_int u32 ap (λ x ap, consputc x ;; printk_loop fmt' 1 ap)
            else if c0 =? 115 then
              va_str ap (λ s ap,
                for_each (default (str "(null)") s) consputc ;; printk_loop fmt' 1 ap)
            else if c0 =? 37 then consputc 37 ;; printk_loop fmt' 1 ap
            else if c0 =? 0 then ret tt
            else consputc 37 ;; consputc c0 ;; printk_loop fmt' 1 ap
      end
  end.

Definition printk (fmt : list Z) (ap : list karg) : K unit :=
  acquire LPr ;;
  printk_loop fmt 0 ap ;;
  release LPr.

(** proc.c *)
Definition procdump : K unit :=
  let name (st : procstate) :=
    match st with
    | UNUSED => "unused" | USED => "used" | SLEEPING => "sleep " | RUNNABLE => "runble"
    | RUNNING => "run   " | ZOMBIE => "zombie"
    end%string in
  printk [10] [] ;;
  for_each (seq 0 NPROC) (λ i,
    p ← gets (λ s, k_procs s !! i);
    match p with
    | None => undef "proc"
    | Some p =>
        whenM (negb (bool_decide (p_state p = UNUSED)))
          (printk (str "%d %s %s")
             [KInt (p_pid p); KStr (Some (str (name (p_state p))));
              KStr (Some (cstr (bytes_of (p_name p)) 16))] ;;
           printk [10] [])
    end).

(** ** What [printint] prints *)

(** The value of a digit, and of a sequence of digits from the least significant. *)
Definition digit_val (ds : list Z) (c : Z) : Z :=
  default (-1) (Z.of_nat <$> find_index (Z.eqb c) ds).
Fixpoint num_val (ds : list Z) (base : Z) (l : list Z) : Z :=
  match l with [] => 0 | c :: l' => digit_val ds c + base * num_val ds base l' end.

(** The number a reader makes of a printed one. *)
Definition read_num (ds : list Z) (base : Z) (out : list Z) : Z :=
  match out with
  | c :: r => if c =? 45 then - num_val ds base (rev r) else num_val ds base (rev out)
  | [] => 0
  end.

(** [ds] has a different character for each of the sixteen digits, none of them
    the minus sign. *)
Definition good_digits (ds : list Z) : Prop :=
  ∀ d, 0 ≤ d < 16 → digit_val ds (nth (Z.to_nat d) ds 0) = d ∧
    nth (Z.to_nat d) ds 0 ≠ 45 ∧ byte (nth (Z.to_nat d) ds 0).

Lemma digits_good : good_digits digits.
Proof.
  intros d Hd.
  assert (d = 0 ∨ d = 1 ∨ d = 2 ∨ d = 3 ∨ d = 4 ∨ d = 5 ∨ d = 6 ∨ d = 7 ∨ d = 8 ∨ d = 9 ∨
    d = 10 ∨ d = 11 ∨ d = 12 ∨ d = 13 ∨ d = 14 ∨ d = 15) as H by lia.
  by destruct_or! H; subst.
Qed.

(** The digits [digits_loop] appends: their number is bounded by that of [x], the
    last is not zero unless [x] is, and they denote [x]. *)
Lemma digits_loop_spec ds base fuel k x buf :
  good_digits ds → 2 ≤ base ≤ 16 → (0 < k ≤ fuel)%nat → 0 ≤ x < base ^ Z.of_nat k →
  (length buf + k ≤ 20)%nat →
  ∃ l, digits_loop ds fuel x base buf = Some (buf ++ l) ∧ (0 < length l ≤ k)%nat ∧
       num_val ds base l = x ∧ Forall (λ c, c ≠ 45 ∧ byte c) l ∧
       (x ≠ 0 → digit_val ds (List.last l 0) ≠ 0).
Proof.
  intros Hds Hb. revert fuel x buf. induction k as [|k IH]; intros fuel x buf Hk Hx Hl; [lia|].
  destruct fuel as [|fuel]; [lia|]. cbn [digits_loop].
  destruct (Nat.ltb_spec (length buf) 20); [|lia].
  assert (0 ≤ x mod base < base) as Hm by (apply Z.mod_pos_bound; lia).
  destruct (Hds (x mod base) ltac:(lia)) as [Hd Hc].
  assert (x = base * (x / base) + x mod base) as Hx0 by (apply Z.div_mod; lia).
  assert (0 ≤ x / base) by (apply Z.div_pos; lia).
  destruct (Z.eqb_spec (x / base) 0) as [E|E].
  - eexists [_]. split; [done|]. cbn [length num_val List.last]. rewrite Hd.
    split; [lia|]. split; [lia|]. split; [by apply Forall_singleton|]. lia.
  - rewrite Nat2Z.inj_succ, Z.pow_succ_r in Hx by lia.
    assert (x / base < base ^ Z.of_nat k) by (apply Z.div_lt_upper_bound; lia).
    destruct k as [|k]; [simpl in *; lia|].
    destruct (IH fuel (x / base) (buf ++ [nth (Z.to_nat (x mod base)) ds 0]))
      as (l & -> & Hlen & Hv & Hf & Hnz); [lia|lia|rewrite length_app; simpl; lia|].
    eexists (_ :: l). rewrite <- app_assoc. split; [done|]. cbn [length num_val].
    split; [lia|]. split; [lia|]. split; [by constructor|]. intros _.
    destruct l; [simpl in Hlen; lia|]. apply Hnz. lia.
Qed.

Lemma read_num_pos ds base l :
  Forall (λ c, c ≠ 45 ∧ byte c) l → read_num ds base (rev l) = num_val ds base l.
Proof.
  intros H. unfold read_num. rewrite rev_involutive.
  destruct (rev l) as [|c r] eqn:E.
  { apply (f_equal (@rev Z)) in E. rewrite rev_involutive in E. by subst. }
  apply Forall_rev in H. rewrite E in H. apply Forall_cons in H as [[Hc _] _].
  by rewrite (proj2 (Z.eqb_neq _ _)).
Qed.
Lemma read_num_neg ds base l : read_num ds base (rev (l ++ [45])) = - num_val ds base l.
Proof. rewrite rev_app_distr. cbn. by rewrite rev_involutive. Qed.

Lemma printint_buf_spec ds xx base (sign : bool) :
  good_digits ds → base = 10 ∨ base = 16 → - 2 ^ 63 ≤ xx < 2 ^ 63 →
  ∃ buf, printint_buf ds xx base sign = Some buf ∧ (0 < length buf ≤ 20)%nat ∧
         read_num ds base (rev buf) = (if sign then xx else u64 xx) ∧ Forall byte buf.
Proof.
  intros Hds Hb Hx. unfold printint_buf.
  destruct (sign && (xx <? 0)) eqn:E.
  - apply andb_true_iff in E as [-> E]. apply Z.ltb_lt in E.
    assert (u64 (- xx) = - xx) as -> by (unfold u64; rewrite Z.mod_small; lia).
    destruct (digits_loop_spec ds base 64 19 (- xx) []) as (l & -> & Hlen & Hv & Hf & _);
      [done|lia|lia| |simpl; lia|].
    { assert (2 ^ 63 < base ^ Z.of_nat 19) by (destruct Hb; subst; reflexivity). lia. }
    cbn [app]. destruct (Nat.ltb_spec (length l) 20); [|lia].
    eexists. split; [done|]. rewrite length_app. cbn [length]. split; [lia|].
    rewrite read_num_neg. split; [lia|]. apply Forall_app. split.
    + eapply Forall_impl; [exact Hf|]. by intros ? [].
    + by apply Forall_singleton.
  - assert ((if sign then xx else u64 xx) = u64 xx) as ->.
    { destruct sign; [|done]. apply Z.ltb_ge in E. unfold u64. rewrite Z.mod_small; lia. }
    destruct (digits_loop_spec ds base 64 20 (u64 xx) []) as (l & -> & Hlen & Hv & Hf & _);
      [done|lia|lia| |simpl; lia|].
    { assert (2 ^ 64 < base ^ Z.of_nat 20) by (destruct Hb; subst; reflexivity).
      unfold u64. pose proof (Z.mod_pos_bound xx (2 ^ 64)). lia. }
    cbn [app]. eexists. split; [done|]. split; [lia|]. rewrite read_num_pos by done.
    split; [done|]. eapply Forall_impl; [exact Hf|]. by intros ? [].
Qed.

Lemma consputc_run c s :
  c ≠ BACKSPACE →
  consputc c s = Ret tt (set_k_out (k_out s ++ [u8 c]) (set_k_uart (set_u_tx_idle false (k_uart s)) s)).
Proof.
  intros H. unfold consputc. rewrite (proj2 (Z.eqb_neq _ _)) by done.
  unfold uartputc_sync, wait_tx_idle, thr_write, bind, modify, res_bind. f_equal.
Qed.

Lemma consputs_run l s :
  Forall byte l →
  for_each l consputc s =
  Ret tt (if decide (l = []) then s
          else set_k_out (k_out s ++ l) (set_k_uart (set_u_tx_idle false (k_uart s)) s)).
Proof.
  intros H. revert s. induction H as [|c l Hc Hl IH]; intros s; [done|].
  cbn [for_each]. unfold byte in Hc.
  rewrite (bind_run _ _ _ _ _ (consputc_run c s ltac:(unfold BACKSPACE; lia))), IH.
  assert (u8 c = c) as -> by (unfold u8; rewrite Z.mod_small; lia). f_equal.
  rewrite (decide_False (P := c :: l = [])) by done.
  case_decide; [subst; done|]. kcbn. rewrite <- app_assoc. by destruct s as [], k_uart.
Qed.

(** Output changes nothing but the console. *)
Definition says (s s' : kstate) : Prop := ∃ out u, s' = set_k_out out (set_k_uart u s).

Lemma says_refl s : says s s.
Proof. exists (k_out s), (k_uart s). kstate_eq. Qed.
Lemma says_trans s1 s2 s3 : says s1 s2 → says s2 s3 → says s1 s3.
Proof. intros (o & u & ->) (o' & u' & ->). exists o', u'. kstate_eq. Qed.

Lemma wp_consputc c (Q : unit → kstate → Prop) s :
  c ≠ BACKSPACE → (∀ s', says s s' → Q tt s') → wp (consputc c) Q s.
Proof.
  intros Hc HQ. eapply wp_eq; [by apply consputc_run|]. apply HQ. by eexists _, _.
Qed.
Lemma wp_printint xx base sign (Q : unit → kstate → Prop) s :
  base = 10 ∨ base = 16 → - 2 ^ 63 ≤ xx < 2 ^ 63 → (∀ s', says s s' → Q tt s') →
  wp (printint xx base sign) Q s.
Proof.
  intros Hb Hx HQ.
  destruct (printint_buf_spec digits xx base sign digits_good Hb Hx) as (buf & E & Hl & Hr & Hbytes).
  unfold printint. rewrite E. eapply wp_eq; [apply consputs_run; by apply Forall_rev|].
  apply HQ. case_decide; [apply says_refl|]. by eexists _, _.
Qed.

(** Plain text and [%d] in a format. *)
Lemma wp_printk_text txt fmt ap (Q : unit → kstate → Prop) s :
  Forall (λ c, byte c ∧ c ≠ 37) txt →
  (∀ s', says s s' → wp (printk_loop fmt 0 ap) Q s') → wp (printk_loop (txt ++ fmt) 0 ap) Q s.
Proof.
  intros Ht. revert s. induction Ht as [|c txt [Hb Hc] Ht IH]; intros s HQ; [apply HQ, says_refl|].
  cbn [app printk_loop]. rewrite (proj2 (Z.eqb_neq _ _) Hc). cbn [negb]. apply wp_bind, wp_consputc.
  { unfold byte, BACKSPACE in *. lia. }
  intros s1 H1. apply IH. intros s2 H2. apply HQ. by eapply says_trans.
Qed.
Lemma wp_printk_d z fmt ap (Q : unit → kstate → Prop) s :
  (∀ s', says s s' → wp (printk_loop fmt 0 ap) Q s') →
  wp (printk_loop (37 :: 100 :: fmt) 0 (KInt z :: ap)) Q s.
Proof.
  intros HQ. cbn [printk_loop nth Z.eqb Pos.eqb negb va_int]. apply wp_bind, wp_printint; [by left| |done].
  pose proof (i32_range z). lia.
Qed.

(** C28: for every [long long] and in base 10 or 16, [printint] stays inside its
    [buf[20]] and sends to the console a numeral that reads back as the number, or
    as its 64-bit unsigned value when it is printed unsigned. *)
Theorem printint_correct xx base (sign : bool) s :
  base = 10 ∨ base = 16 → - 2 ^ 63 ≤ xx < 2 ^ 63 →
  ∃ out, printint xx base sign s =
           Ret tt (set_k_out (k_out s ++ out) (set_k_uart (set_u_tx_idle false (k_uart s)) s)) ∧
         (0 < length out ≤ 20)%nat ∧
         read_num digits base out = if sign then xx else u64 xx.
Proof.
  intros Hb Hx.
  destruct (printint_buf_spec digits xx base sign digits_good Hb Hx) as (buf & E & Hl & Hr & Hbytes).
  exists (rev buf). rewrite length_rev. split; [|done]. unfold printint. rewrite E.
  rewrite consputs_run by (by apply Forall_rev). rewrite decide_False; [done|].
  intros E2. apply (f_equal length) in E2. rewrite length_rev in E2. simpl in E2. lia.
Qed.
Lemma printint_correct_witness :
  ∃ out, printint (- 2 ^ 63) 10 true kstate0 =
           Ret tt (set_k_out (k_out kstate0 ++ out)
                     (set_k_uart (set_u_tx_idle false (k_uart kstate0)) kstate0)) ∧
         (0 < length out ≤ 20)%nat ∧ read_num digits 10 out = - 2 ^ 63.
Proof. apply (printint_correct (- 2 ^ 63) 10 true kstate0); [by left|lia]. Defined.
