(* ===== verification/Spinlock.v ===== *)
(** * kernel/spinlock.c

    The spinlock code at the level of its memory accesses: [struct spinlock],
    the per-CPU [noff] and [intena], the interrupt-enable bit, and the harts
    interleaving between the accesses of [acquire] and [release].  The theorems
    show mutual exclusion, that [holding] is exact although it races with other
    harts, and that the code implements the view of State.v, in which a hart
    has a list of held locks and an interrupt flag. *)
From Stdlib Require Import ZArith Lia.
From stdpp Require Import base list gmap numbers strings relations.
From S2P Require Import Prelude Machine State.
Local Open Scope Z_scope.
Local Open Scope kernel_scope.

Module Spin.

(** ** Data *)

Record spinlock := mkSpinlock { sp_locked : Z; sp_name : string; sp_cpu : option nat }.

(** Where a hart is between the memory accesses of [acquire] and [release]:
    [Spinning] before the atomic exchange, [Got] between a successful exchange
    and [lk->cpu = mycpu()], [Cleared] between [lk->cpu = 0] and the atomic
    store, [Stored] before [pop_off()]. *)
Inductive point := Outside | Spinning (lk : lockid) | Got (lk : lockid)
  | Cleared (lk : lockid) | Stored (lk : lockid).

(** A hart: [noff] and [intena] of its [struct cpu], its [proc], the SIE bit of
    its sstatus.  [h_held] records the locks its calls have acquired and not
    released, and [h_at] the point it is at; the code does not store these. *)
Record hart := mkHart {
  h_proc : option nat; h_noff : Z; h_intena : bool; h_sie : bool;
  h_held : list lockid; h_at : point }.

Record machine := mkMachine { m_locks : lockid → spinlock; m_harts : list hart }.

Definition set_noff v c := mkHart (h_proc c) v (h_intena c) (h_sie c) (h_held c) (h_at c).
Definition set_intena v c := mkHart (h_proc c) (h_noff c) v (h_sie c) (h_held c) (h_at c).
Definition set_sie v c := mkHart (h_proc c) (h_noff c) (h_intena c) v (h_held c) (h_at c).
Definition set_held v c := mkHart (h_proc c) (h_noff c) (h_intena c) (h_sie c) v (h_at c).
Definition set_at v c := mkHart (h_proc c) (h_noff c) (h_intena c) (h_sie c) (h_held c) v.

Definition upd_lock (lk : lockid) (l : spinlock) (s : machine) : machine :=
  mkMachine (λ k, if decide (k = lk) then l else m_locks s k) (m_harts s).
Definition upd_hart (h : nat) (f : hart → hart) (s : machine) : machine :=
  mkMachine (m_locks s) (alter f h (m_harts s)).

(** [mycpu()]: the [struct cpu] of the hart [h] running the code. *)
Definition mycpu (h : nat) : M machine hart :=
  o ← gets (λ s, m_harts s !! h); unwrap "mycpu" o.
Definition modcpu (h : nat) (f : hart → hart) : M machine unit := modify (upd_hart h f).

(** ** Code *)

Definition initlock (lk : lockid) (name : string) : M machine unit :=
  modify (upd_lock lk (mkSpinlock 0 name None)).

Definition holding (h : nat) (lk : lockid) (s : machine) : bool :=
  negb (sp_locked (m_locks s lk) =? 0) && bool_decide (sp_cpu (m_locks s lk) = Some h).

Definition push_off (h : nat) : M machine unit :=
  c ← mycpu h;
  let old := h_sie c in
  modcpu h (set_sie false) ;;
  c ← mycpu h;
  whenM (h_noff c =? 0) (modcpu h (set_intena old)) ;;
  modcpu h (λ c, set_noff (h_noff c + 1) c).

Definition pop_off (h : nat) : M machine unit :=
  c ← mycpu h;
  if h_sie c then panic "pop_off - interruptible"
  else if h_noff c <? 1 then panic "pop_off"
  else
    modcpu h (λ c, set_noff (h_noff c - 1) c) ;;
    c ← mycpu h;
    whenM ((h_noff c =? 0) && h_intena c) (modcpu h (set_sie true)).

Definition myproc (h : nat) : M machine (option nat) :=
  push_off h ;;
  c ← mycpu h;
  let p := h_proc c in
  pop_off h ;;
  ret p.

(** [acquire], cut at its accesses to [lk]. *)
Definition acquire_enter (h : nat) (lk : lockid) : M machine unit :=
  push_off h ;;
  b ← gets (holding h lk);
  if (b : bool) then panic "acquire" else modcpu h (set_at (Spinning lk)).
(** One [__atomic_exchange_n(&lk->locked, 1)]; [true] when the loop ends. *)
Definition acquire_exchange (h : nat) (lk : lockid) : M machine bool :=
  l ← gets (λ s, m_locks s lk);
  modify (upd_lock lk (mkSpinlock 1 (sp_name l) (sp_cpu l))) ;;
  if sp_locked l =? 0 then modcpu h (set_at (Got lk)) ;; ret true else ret false.
Definition acquire_record (h : nat) (lk : lockid) : M machine unit :=
  l ← gets (λ s, m_locks s lk);
  modify (upd_lock lk (mkSpinlock (sp_locked l) (sp_name l) (Some h))) ;;
  modcpu h (λ c, set_at Outside (set_held (lk :: h_held c) c)).
Definition acquire (fuel : nat) (h : nat) (lk : lockid) : M machine unit :=
  acquire_enter h lk ;;
  loop fuel (b ← acquire_exchange h lk; ret (if (b : bool) then Some tt else None)) ;;
  acquire_record h lk.

(** [release], cut at its accesses to [lk]. *)
Definition release_clear (h : nat) (lk : lockid) : M machine unit :=
  b ← gets (holding h lk);
  if (b : bool) then
    l ← gets (λ s, m_locks s lk);
    modify (upd_lock lk (mkSpinlock (sp_locked l) (sp_name l) None)) ;;
    modcpu h (λ c, set_at (Cleared lk) (set_held (remove_one lk (h_held c)) c))
  else panic "release".
Definition release_store (h : nat) (lk : lockid) : M machine unit :=
  l ← gets (λ s, m_locks s lk);
  modify (upd_lock lk (mkSpinlock 0 (sp_name l) (sp_cpu l))) ;;
  modcpu h (set_at (Stored lk)).
Definition release_pop (h : nat) : M machine unit :=
  pop_off h ;; modcpu h (set_at Outside).
Definition release (h : nat) (lk : lockid) : M machine unit :=
  release_clear h lk ;; release_store h lk ;; release_pop h.

(** ** Interleaving *)

(** A hart outside these functions may take a lock, release one, or, holding
    none, change its interrupt flag ([intr_on], [intr_off]); a hart inside goes
    on with its next access. *)
Inductive step : machine → machine → Prop :=
  | step_enter s h c lk s' :
      m_harts s !! h = Some c → h_at c = Outside →
      acquire_enter h lk s = Ret tt s' → step s s'
  | step_exchange s h c lk b s' :
      m_harts s !! h = Some c → h_at c = Spinning lk →
      acquire_exchange h lk s = Ret b s' → step s s'
  | step_record s h c lk s' :
      m_harts s !! h = Some c → h_at c = Got lk →
      acquire_record h lk s = Ret tt s' → step s s'
  | step_clear s h c lk s' :
      m_harts s !! h = Some c → h_at c = Outside →
      release_clear h lk s = Ret tt s' → step s s'
  | step_store s h c lk s' :
      m_harts s !! h = Some c → h_at c = Cleared lk →
      release_store h lk s = Ret tt s' → step s s'
  | step_pop s h c lk s' :
      m_harts s !! h = Some c → h_at c = Stored lk →
      release_pop h s = Ret tt s' → step s s'
  | step_intr s h c b :
      m_harts s !! h = Some c → h_at c = Outside → h_noff c = 0 →
      step s (upd_hart h (set_sie b) s).

Definition init_hart : hart := mkHart None 0 false false [] Outside.
Definition init (n : nat) : machine :=
  mkMachine (λ _, mkSpinlock 0 "" None) (replicate n init_hart).

Definition reachable (n : nat) (s : machine) : Prop := rtc step (init n) s.

(** ** Invariant *)

(** [lk->locked] is set on behalf of this hart. *)
Definition owns (c : hart) (lk : lockid) : Prop :=
  lk ∈ h_held c ∨ h_at c = Got lk ∨ h_at c = Cleared lk.

Definition inside (c : hart) : Z := match h_at c with Outside => 0 | _ => 1 end.

Record hart_ok (c : hart) : Prop := {
  ok_noff : h_noff c = Z.of_nat (length (h_held c)) + inside c;
  ok_nodup : NoDup (h_held c);
  ok_sie : 0 < h_noff c → h_sie c = false;
  ok_at : ∀ lk, h_at c = Got lk ∨ h_at c = Cleared lk → lk ∉ h_held c;
}.

Record inv (s : machine) : Prop := {
  inv_hart : ∀ h c, m_harts s !! h = Some c → hart_ok c;
  inv_locked : ∀ h c lk, m_harts s !! h = Some c → owns c lk → sp_locked (m_locks s lk) ≠ 0;
  inv_excl : ∀ h1 h2 c1 c2 lk,
    m_harts s !! h1 = Some c1 → m_harts s !! h2 = Some c2 →
    owns c1 lk → owns c2 lk → h1 = h2;
  inv_cpu : ∀ h c lk, m_harts s !! h = Some c →
    (sp_cpu (m_locks s lk) = Some h ↔ lk ∈ h_held c);
}.

(** ** What each piece of code does *)

Definition put (L : lockid → spinlock) (h : nat) (c : hart) (s : machine) : machine :=
  mkMachine L (<[h := c]> (m_harts s)).
Definition set_lock (lk : lockid) (l : spinlock) (L : lockid → spinlock) : lockid → spinlock :=
  λ k, if decide (k = lk) then l else L k.

Definition pushed (c : hart) : hart :=
  set_noff (h_noff c + 1)
    (set_sie false (if h_noff c =? 0 then set_intena (h_sie c) c else c)).
Definition popped (c : hart) : hart :=
  set_noff (h_noff c - 1)
    (if (h_noff c - 1 =? 0) && h_intena c then set_sie true c else c).

Section runs.
Context (s : machine) (h : nat) (c : hart) (Hh : m_harts s !! h = Some c).

Lemma mycpu_run : mycpu h s = Ret c s.
Proof. unfold mycpu. rewrite bind_gets, Hh. done. Qed.

Lemma upd_hart_put f : upd_hart h f s = put (m_locks s) h (f c) s.
Proof. unfold upd_hart, put. f_equal. by apply list_alter_insert. Qed.
End runs.

Lemma put_lookup L h c c' s :
  m_harts s !! h = Some c → m_harts (put L h c' s) !! h = Some c'.
Proof. intros H. simpl. apply list_lookup_insert_eq. eauto using lookup_lt_Some. Qed.

Lemma put_put L L' h c c' s : put L' h c' (put L h c s) = put L' h c' s.
Proof. unfold put. simpl. by rewrite list_insert_insert_eq. Qed.

Lemma push_off_run s h c :
  m_harts s !! h = Some c → push_off h s = Ret tt (put (m_locks s) h (pushed c) s).
Proof.
  intros Hh. unfold push_off. rewrite (bind_run _ _ _ c s) by by apply mycpu_run.
  unfold modcpu at 1. rewrite bind_modify.
  rewrite (upd_hart_put s h c Hh).
  set (s1 := put _ _ _ _). assert (m_harts s1 !! h = Some (set_sie false c)) as H1
    by (eapply put_lookup; done).
  rewrite (bind_run _ _ _ _ _ (mycpu_run s1 h _ H1)).
  unfold whenM. simpl. unfold pushed. destruct (h_noff c =? 0); unfold modcpu, modify, bind; simpl.
  - rewrite (upd_hart_put s1 h _ H1). set (s2 := put _ _ _ s1).
    rewrite (upd_hart_put s2 h _ (put_lookup _ _ _ _ s1 H1)). unfold s2, s1.
    by rewrite !put_put.
  - rewrite (upd_hart_put s1 h _ H1). unfold s1. by rewrite put_put.
Qed.

Lemma pop_off_run s h c :
  m_harts s !! h = Some c → h_sie c = false → 1 ≤ h_noff c →
  pop_off h s = Ret tt (put (m_locks s) h (popped c) s).
Proof.
  intros Hh Hsie Hn. unfold pop_off. rewrite (bind_run _ _ _ c s) by by apply mycpu_run.
  rewrite Hsie. destruct (Z.ltb_spec (h_noff c) 1); [lia|].
  unfold modcpu at 1. rewrite bind_modify, (upd_hart_put s h c Hh).
  set (s1 := put _ _ _ _). assert (m_harts s1 !! h = Some (set_noff (h_noff c - 1) c)) as H1
    by (eapply put_lookup; done).
  rewrite (bind_run _ _ _ _ _ (mycpu_run s1 h _ H1)).
  unfold whenM. cbn [h_noff set_noff h_intena]. unfold popped. destruct (_ && _).
  - unfold modcpu, modify. rewrite (upd_hart_put s1 h _ H1). unfold s1. by rewrite put_put.
  - done.
Qed.

Lemma acquire_enter_run s h c lk :
  m_harts s !! h = Some c →
  acquire_enter h lk s =
    if holding h lk s then Panic "acquire" (put (m_locks s) h (pushed c) s)
    else Ret tt (put (m_locks s) h (set_at (Spinning lk) (pushed c)) s).
Proof.
  intros Hh. unfold acquire_enter. rewrite (bind_run _ _ _ _ _ (push_off_run s h c Hh)).
  rewrite bind_gets. unfold holding. cbn [m_locks put]. case_match; [done|].
  unfold modcpu, modify. rewrite (upd_hart_put _ h (pushed c)) by by eapply put_lookup.
  by rewrite put_put.
Qed.

Lemma acquire_exchange_run s h c lk :
  m_harts s !! h = Some c →
  let l := m_locks s lk in
  let L := set_lock lk (mkSpinlock 1 (sp_name l) (sp_cpu l)) (m_locks s) in
  acquire_exchange h lk s =
    if sp_locked l =? 0 then Ret true (put L h (set_at (Got lk) c) s)
    else Ret false (mkMachine L (m_harts s)).
Proof.
  intros Hh l L. unfold acquire_exchange. rewrite bind_gets, bind_modify. fold l.
  destruct (sp_locked l =? 0); [|done].
  unfold modcpu, modify, bind. simpl. rewrite (upd_hart_put _ h c) by done. done.
Qed.

Lemma acquire_record_run s h c lk :
  m_harts s !! h = Some c →
  let l := m_locks s lk in
  acquire_record h lk s =
    Ret tt (put (set_lock lk (mkSpinlock (sp_locked l) (sp_name l) (Some h)) (m_locks s)) h
              (set_at Outside (set_held (lk :: h_held c) c)) s).
Proof.
  intros Hh l. unfold acquire_record. rewrite bind_gets, bind_modify. fold l.
  unfold modcpu, modify. rewrite (upd_hart_put _ h c) by done. done.
Qed.

Lemma release_clear_run s h c lk :
  m_harts s !! h = Some c →
  let l := m_locks s lk in
  release_clear h lk s =
    if holding h lk s then
      Ret tt (put (set_lock lk (mkSpinlock (sp_locked l) (sp_name l) None) (m_locks s)) h
                (set_at (Cleared lk) (set_held (remove_one lk (h_held c)) c)) s)
    else Panic "release" s.
Proof.
  intros Hh l. unfold release_clear. rewrite bind_gets. case_match; [|done].
  rewrite bind_gets, bind_modify. fold l.
  unfold modcpu, modify. rewrite (upd_hart_put _ h c) by done. done.
Qed.

Lemma release_store_run s h c lk :
  m_harts s !! h = Some c →
  let l := m_locks s lk in
  release_store h lk s =
    Ret tt (put (set_lock lk (mkSpinlock 0 (sp_name l) (sp_cpu l)) (m_locks s)) h
              (set_at (Stored lk) c) s).
Proof.
  intros Hh l. unfold release_store. rewrite bind_gets, bind_modify. fold l.
  unfold modcpu, modify. rewrite (upd_hart_put _ h c) by done. done.
Qed.

Lemma release_pop_run s h c :
  m_harts s !! h = Some c → h_sie c = false → 1 ≤ h_noff c →
  release_pop h s = Ret tt (put (m_locks s) h (set_at Outside (popped c)) s).
Proof.
  intros Hh Hs Hn. unfold release_pop.
  rewrite (bind_run _ _ _ _ _ (pop_off_run s h c Hh Hs Hn)).
  unfold modcpu, modify. rewrite (upd_hart_put _ h (popped c)) by by eapply put_lookup.
  by rewrite put_put.
Qed.

(** ** The invariant holds of every reachable state *)

Lemma inv_put s h c c' L :
  inv s → m_harts s !! h = Some c → hart_ok c' →
  (∀ lk, owns c' lk → sp_locked (L lk) ≠ 0) →
  (∀ lk h2 c2, h2 ≠ h → m_harts s !! h2 = Some c2 → owns c2 lk →
     sp_locked (L lk) ≠ 0 ∧ ¬ owns c' lk) →
  (∀ lk, sp_cpu (L lk) = Some h ↔ lk ∈ h_held c') →
  (∀ lk h2 c2, h2 ≠ h → m_harts s !! h2 = Some c2 →
     (sp_cpu (L lk) = Some h2 ↔ lk ∈ h_held c2)) →
  inv (put L h c' s).
Proof.
  intros Hinv Hh Hok Hl Ho Hc Hc2.
  assert (h < length (m_harts s))%nat as Hlt by eauto using lookup_lt_Some.
  split; cbn [m_harts m_locks put].
  - intros h1 c1 H1. rewrite list_lookup_insert_full in H1 by done.
    case_decide; [by simplify_eq|]. by eapply inv_hart.
  - intros h1 c1 lk H1 Hown. rewrite list_lookup_insert_full in H1 by done.
    case_decide; [simplify_eq; auto|]. by destruct (Ho lk h1 c1).
  - intros h1 h2 c1 c2 lk H1 H2 O1 O2.
    rewrite list_lookup_insert_full in H1, H2 by done.
    repeat case_decide; simplify_eq; try done.
    + exfalso. destruct (Ho lk h1 c1 ltac:(congruence) H1 O1) as [_ Hn]. by apply Hn.
    + exfalso. destruct (Ho lk h2 c2 ltac:(congruence) H2 O2) as [_ Hn]. by apply Hn.
    + by eapply inv_excl.
  - intros h1 c1 lk H1. rewrite list_lookup_insert_full in H1 by done.
    case_decide; [simplify_eq; auto|]. by apply Hc2.
Qed.

Section preserve.
Context (s : machine) (h : nat) (c : hart).
Context (Hinv : inv s) (Hh : m_harts s !! h = Some c).

Local Lemma others_disjoint lk h2 c2 :
  h2 ≠ h → m_harts s !! h2 = Some c2 → owns c2 lk → ¬ owns c lk.
Proof. intros Hne H2 O2 O1. by apply Hne, (inv_excl s Hinv _ _ _ _ lk H2 Hh O2 O1). Qed.

(** A change of the hart alone that keeps what it owns. *)
Lemma inv_put_same c' :
  hart_ok c' → h_held c' = h_held c → (∀ lk, owns c' lk ↔ owns c lk) →
  inv (put (m_locks s) h c' s).
Proof.
  intros Hok Hheld Hown. eapply inv_put; try done.
  - intros lk. rewrite Hown. by eapply inv_locked.
  - intros lk h2 c2 Hne H2 O2. rewrite Hown.
    split; [by eapply inv_locked|by eapply others_disjoint].
  - intros lk. rewrite Hheld. by apply inv_cpu.
  - intros lk h2 c2 Hne H2. by apply inv_cpu.
Qed.

Lemma holding_iff lk : holding h lk s = true ↔ lk ∈ h_held c.
Proof.
  unfold holding. rewrite andb_true_iff, bool_decide_eq_true.
  rewrite (inv_cpu s Hinv h c lk Hh), negb_true_iff, Z.eqb_neq.
  split; [tauto|]. intros H. split; [|done].
  eapply (inv_locked s Hinv); [done|by left].
Qed.

Lemma pushed_ok : hart_ok c → h_at c = Outside → ∀ lk,
  hart_ok (set_at (Spinning lk) (pushed c)).
Proof.
  intros [Hn Hd Hs Ha] Hat lk. unfold inside in Hn. rewrite Hat in Hn.
  unfold pushed. split; cbn.
  - destruct (h_noff c =? 0); cbn; unfold inside; cbn; lia.
  - by destruct (h_noff c =? 0).
  - done.
  - intros k [|]; done.
Qed.

Lemma popped_ok lk : hart_ok c → h_at c = Stored lk →
  hart_ok (set_at Outside (popped c)).
Proof.
  intros [Hn Hd Hs Ha] Hat. unfold inside in Hn. rewrite Hat in Hn. unfold popped.
  split; cbn.
  - destruct (_ && _); cbn; lia.
  - by destruct (_ && _).
  - intros Hpos. destruct (Z.eqb_spec (h_noff c - 1) 0); cbn; [lia|]. apply Hs. lia.
  - intros k [|]; done.
Qed.

Lemma preserve_enter lk s' :
  h_at c = Outside → acquire_enter h lk s = Ret tt s' → inv s'.
Proof.
  intros Hat E. rewrite (acquire_enter_run s h c lk Hh) in E.
  destruct (holding h lk s); [done|]. injection E as <-.
  pose proof (inv_hart s Hinv h c Hh) as Hok. apply inv_put_same.
  - by apply pushed_ok.
  - unfold pushed. by destruct (h_noff c =? 0).
  - intros k. unfold owns, pushed. rewrite Hat.
    destruct (h_noff c =? 0); cbn; naive_solver.
Qed.

Lemma preserve_exchange lk b s' :
  h_at c = Spinning lk → acquire_exchange h lk s = Ret b s' → inv s'.
Proof.
  intros Hat E. rewrite (acquire_exchange_run s h c lk Hh) in E.
  pose proof (inv_hart s Hinv h c Hh) as [Hn Hd Hs Ha].
  unfold inside in Hn. rewrite Hat in Hn.
  destruct (Z.eqb_spec (sp_locked (m_locks s lk)) 0) as [Hz|Hz]; injection E as <- <-.
  - assert (lk ∉ h_held c) as Hnh.
    { intros Hin. by eapply (inv_locked s Hinv h c lk); [|left|]. }
    eapply inv_put; try done.
    + split; cbn; try done. intros k [[= ->]|]; done.
    + intros k Hown. unfold set_lock. case_decide; [done|].
      destruct Hown as [Hin|[[= ->]|]]; cbn in *; [|done..].
      eapply inv_locked; [done..|by left].
    + intros k h2 c2 Hne H2 O2. unfold set_lock. case_decide as Ek.
      { subst k. by destruct (inv_locked s Hinv h2 c2 lk H2 O2). }
      split; [by eapply inv_locked|].
      intros [Hin|[[= ->]|]]; cbn in *; [|done..].
      eapply others_disjoint; [done..|by left].
    + intros k. unfold set_lock. case_decide; cbn; [subst k|]; by apply (inv_cpu s Hinv).
    + intros k h2 c2 Hne H2. unfold set_lock.
      case_decide; cbn; [subst k|]; by apply (inv_cpu s Hinv).
  - replace (mkMachine _ (m_harts s)) with
      (put (set_lock lk (mkSpinlock 1 (sp_name (m_locks s lk)) (sp_cpu (m_locks s lk)))
              (m_locks s)) h c s).
    2:{ unfold put. by rewrite list_insert_id. }
    eapply inv_put; try done.
    + by eapply inv_hart.
    + intros k Hown. unfold set_lock. case_decide; [done|]. by eapply inv_locked.
    + intros k h2 c2 Hne H2 O2. split; [|by eapply others_disjoint].
      unfold set_lock. case_decide; [done|]. by eapply inv_locked.
    + intros k. unfold set_lock. case_decide; cbn; [subst k|]; by apply (inv_cpu s Hinv).
    + intros k h2 c2 Hne H2. unfold set_lock.
      case_decide; cbn; [subst k|]; by apply (inv_cpu s Hinv).
Qed.

Lemma preserve_record lk s' :
  h_at c = Got lk → acquire_record h lk s = Ret tt s' → inv s'.
Proof.
  intros Hat E. rewrite (acquire_record_run s h c lk Hh) in E. injection E as <-.
  pose proof (inv_hart s Hinv h c Hh) as [Hn Hd Hs Ha].
  unfold inside in Hn. rewrite Hat in Hn.
  assert (lk ∉ h_held c) as Hnh by (apply Ha; by left).
  assert (∀ k, owns (set_at Outside (set_held (lk :: h_held c) c)) k ↔ owns c k) as Hown.
  { intros k. unfold owns. cbn. rewrite Hat, elem_of_cons. naive_solver. }
  eapply inv_put; try done.
  - split; cbn; try done; [lia|by apply list.NoDup_cons|intros k [|]; done].
  - intros k. rewrite Hown. unfold set_lock. intros O. case_decide; cbn; [subst k|];
      by eapply inv_locked.
  - intros k h2 c2 Hne H2 O2. rewrite Hown. split; [|by eapply others_disjoint].
    unfold set_lock. case_decide; cbn; [subst k|]; by eapply inv_locked.
  - intros k. unfold set_lock. cbn. rewrite elem_of_cons. case_decide; cbn.
    + subst k. tauto.
    + rewrite (inv_cpu s Hinv h c k Hh). tauto.
  - intros k h2 c2 Hne H2. unfold set_lock. case_decide; cbn; [|by apply (inv_cpu s Hinv)].
    subst k. split; [congruence|]. intros Hin.
    exfalso. eapply (others_disjoint lk h2 c2); [done..|by left|right; by left].
Qed.

Lemma preserve_clear lk s' :
  h_at c = Outside → release_clear h lk s = Ret tt s' → inv s'.
Proof.
  intros Hat E. rewrite (release_clear_run s h c lk Hh) in E.
  destruct (holding h lk s) eqn:Hhold; [|done]. injection E as <-.
  apply holding_iff in Hhold.
  pose proof (inv_hart s Hinv h c Hh) as [Hn Hd Hs Ha].
  unfold inside in Hn. rewrite Hat in Hn.
  pose proof (length_remove_one lk (h_held c) Hhold) as Hlen.
  assert (∀ k, owns (set_at (Cleared lk) (set_held (remove_one lk (h_held c)) c)) k
               ↔ owns c k) as Hown.
  { intros k. unfold owns. cbn. rewrite Hat, elem_of_remove_one by done.
    destruct (decide (k = lk)); naive_solver. }
  eapply inv_put; try done.
  - split; cbn; try done; [lia|by apply NoDup_remove_one|].
    intros k [|[= ->]]; [done|]. rewrite elem_of_remove_one by done. tauto.
  - intros k. rewrite Hown. unfold set_lock. intros O. case_decide; cbn; [subst k|];
      by eapply inv_locked.
  - intros k h2 c2 Hne H2 O2. rewrite Hown. split; [|by eapply others_disjoint].
    unfold set_lock. case_decide; cbn; [subst k|]; by eapply inv_locked.
  - intros k. unfold set_lock. cbn. rewrite elem_of_remove_one by done.
    case_decide; cbn; [subst k; split; [done|tauto]|].
    rewrite (inv_cpu s Hinv h c k Hh). tauto.
  - intros k h2 c2 Hne H2. unfold set_lock. case_decide; cbn; [|by apply (inv_cpu s Hinv)].
    subst k. split; [done|]. intros Hin.
    exfalso. eapply (others_disjoint lk h2 c2); [done..|by left|by left].
Qed.

Lemma preserve_store lk s' :
  h_at c = Cleared lk → release_store h lk s = Ret tt s' → inv s'.
Proof.
  intros Hat E. rewrite (release_store_run s h c lk Hh) in E. injection E as <-.
  pose proof (inv_hart s Hinv h c Hh) as [Hn Hd Hs Ha].
  unfold inside in Hn. rewrite Hat in Hn.
  assert (lk ∉ h_held c) as Hnh by (apply Ha; by right).
  assert (∀ k, owns (set_at (Stored lk) c) k ↔ owns c k ∧ k ≠ lk) as Hown.
  { intros k. unfold owns. cbn. rewrite Hat. naive_solver. }
  eapply inv_put; try done.
  - split; cbn; try done. intros k [|]; done.
  - intros k. rewrite Hown. intros [O Hk]. unfold set_lock. rewrite decide_False by done.
    by eapply inv_locked.
  - intros k h2 c2 Hne H2 O2.
    assert (¬ owns c k) as Hnot by by eapply others_disjoint.
    rewrite Hown. split; [|tauto]. unfold set_lock.
    rewrite decide_False; [by eapply inv_locked|].
    intros ->. apply Hnot. unfold owns. tauto.
  - intros k. unfold set_lock. case_decide; cbn; [subst k|]; by apply (inv_cpu s Hinv).
  - intros k h2 c2 Hne H2. unfold set_lock.
    case_decide; cbn; [subst k|]; by apply (inv_cpu s Hinv).
Qed.

Lemma stored_runs lk : h_at c = Stored lk →
  release_pop h s = Ret tt (put (m_locks s) h (set_at Outside (popped c)) s).
Proof.
  intros Hat. pose proof (inv_hart s Hinv h c Hh) as [Hn Hd Hs Ha].
  unfold inside in Hn. rewrite Hat in Hn.
  apply release_pop_run; [done| |lia]. apply Hs. lia.
Qed.

Lemma preserve_pop lk s' :
  h_at c = Stored lk → release_pop h s = Ret tt s' → inv s'.
Proof.
  intros Hat E. rewrite (stored_runs lk Hat) in E. injection E as <-.
  pose proof (inv_hart s Hinv h c Hh) as Hok. apply inv_put_same.
  - by eapply popped_ok.
  - unfold popped. by destruct (_ && _).
  - intros k. unfold owns, popped. rewrite Hat. destruct (_ && _); cbn; naive_solver.
Qed.

Lemma preserve_intr b :
  h_at c = Outside → h_noff c = 0 → inv (upd_hart h (set_sie b) s).
Proof.
  intros Hat Hno. rewrite (upd_hart_put s h c Hh).
  pose proof (inv_hart s Hinv h c Hh) as [Hn Hd Hs Ha].
  apply inv_put_same; [|done..]. split; cbn; try done. lia.
Qed.
End preserve.

Lemma inv_init n : inv (init n).
Proof.
  assert (∀ h c, m_harts (init n) !! h = Some c → c = init_hart) as Hc.
  { intros h c. simpl. intros H. by apply lookup_replicate in H as [-> _]. }
  split.
  - intros h c H. apply Hc in H as ->. split; simpl; try done; [constructor|].
    intros lk [|]; done.
  - intros h c lk H O. apply Hc in H as ->. destruct O as [O|[O|O]]; cbn in O; try done.
    by apply elem_of_nil in O.
  - intros h1 h2 c1 c2 lk H1 H2 O1 O2. apply Hc in H1 as ->.
    destruct O1 as [O|[O|O]]; cbn in O; try done. by apply elem_of_nil in O.
  - intros h c lk H. apply Hc in H as ->. cbn. split; [done|]. by intros ?%elem_of_nil.
Qed.

#[local] Hint Resolve preserve_enter preserve_exchange preserve_record preserve_clear
  preserve_store preserve_pop preserve_intr : kern.

Lemma step_inv s s' : inv s → step s s' → inv s'.
Proof. intros Hinv Hst. destruct Hst; eauto with kern. Qed.

Lemma reachable_inv n s : reachable n s → inv s.
Proof.
  intros H. assert (∀ a, inv a → rtc step a s → inv s) as Hgen.
  { intros a Ha Hr. induction Hr; [done|]. eauto using step_inv. }
  eapply Hgen; [apply inv_init|done].
Qed.

(** ** The view of State.v *)

Definition view (ks : kstate) : list lockid * bool := (k_held ks, k_intr ks).

(** What State.v lets a hart do: take a lock nobody holds, release one, or set
    its interrupt flag while it holds none. *)
Inductive astep : list (list lockid * bool) → list (list lockid * bool) → Prop :=
  | a_acquire a h ks ks' lk :
      a !! h = Some (view ks) → (∀ h' x, a !! h' = Some x → lk ∉ x.1) →
      State.acquire lk ks = Ret tt ks' → astep a (<[h := view ks']> a)
  | a_release a h ks ks' lk :
      a !! h = Some (view ks) → State.release lk ks = Ret tt ks' →
      astep a (<[h := view ks']> a)
  | a_intr a h b b' :
      a !! h = Some ([], b) → astep a (<[h := ([], b')]> a).

(** The flag of a hart that holds locks is the one [push_off] saved. *)
Definition abs_hart (c : hart) : list lockid * bool :=
  (h_held c, if h_noff c =? 0 then h_sie c else h_intena c).
Definition abs (s : machine) : list (list lockid * bool) := abs_hart <$> m_harts s.

Lemma abs_put L h c s : abs (put L h c s) = <[h := abs_hart c]> (abs s).
Proof. unfold abs. cbn. by rewrite list_fmap_insert. Qed.

Lemma abs_put_same L h c c' s :
  m_harts s !! h = Some c → abs_hart c' = abs_hart c → abs (put L h c' s) = abs s.
Proof.
  intros Hh E. rewrite abs_put, E. apply list_insert_id.
  unfold abs. by rewrite list_lookup_fmap, Hh.
Qed.

Lemma abs_lookup s h c : m_harts s !! h = Some c → abs s !! h = Some (abs_hart c).
Proof. intros H. unfold abs. by rewrite list_lookup_fmap, H. Qed.

Lemma abs_lookup_inv s h x : abs s !! h = Some x →
  ∃ c, m_harts s !! h = Some c ∧ x = abs_hart c.
Proof. unfold abs. rewrite list_lookup_fmap, fmap_Some. naive_solver. Qed.

(** A kernel state with a given view, to run the operations of State.v. *)
Definition ks_of (x : list lockid * bool) (ks : kstate) : kstate :=
  set_k_held x.1 (set_k_intr x.2 ks).

Lemma abs_pushed c : 0 ≤ h_noff c → abs_hart (pushed c) = abs_hart c.
Proof.
  intros. unfold abs_hart, pushed. destruct (Z.eqb_spec (h_noff c) 0) as [E|E]; cbn.
  - by rewrite E.
  - destruct (Z.eqb_spec (h_noff c + 1) 0); [lia|done].
Qed.

Lemma abs_popped c : 1 ≤ h_noff c → h_sie c = false → abs_hart (popped c) = abs_hart c.
Proof.
  intros Hn Hs. unfold abs_hart, popped.
  destruct (Z.eqb_spec (h_noff c - 1) 0) as [E|E]; destruct (Z.eqb_spec (h_noff c) 0); try lia.
  - destruct (h_intena c) eqn:Ei; cbn; by rewrite E, ?Hs, ?Ei.
  - cbn. destruct (Z.eqb_spec (h_noff c - 1) 0); [lia|done].
Qed.

Section refine.
Context (ks0 : kstate).

Lemma step_abs s s' :
  inv s → step s s' → abs s' = abs s ∨ astep (abs s) (abs s').
Proof.
  intros Hinv Hst. destruct Hst as [s h c lk s' Hh Hat E|s h c lk b s' Hh Hat E
    |s h c lk s' Hh Hat E|s h c lk s' Hh Hat E|s h c lk s' Hh Hat E|s h c lk s' Hh Hat E
    |s h c b Hh Hat Hz]; pose proof (inv_hart s Hinv h c Hh) as [Hn Hd Hs Ha];
    unfold inside in Hn; rewrite Hat in Hn.
  - left. rewrite (acquire_enter_run s h c lk Hh) in E. case_match; [done|].
    injection E as <-. apply (abs_put_same _ _ c); [done|].
    etrans; [|apply (abs_pushed c); lia]. done.
  - left. rewrite (acquire_exchange_run s h c lk Hh) in E. case_match; injection E as <- <-.
    + by apply (abs_put_same _ _ c).
    + done.
  - right. rewrite (acquire_record_run s h c lk Hh) in E. injection E as <-.
    set (ks := ks_of (abs_hart c) ks0).
    assert (lk ∉ h_held c) as Hlk by (apply Ha; by left).
    rewrite abs_put. change (abs_hart _) with (view (upd_held (cons lk) ks)).
    apply (a_acquire _ _ ks _ lk).
    + by rewrite (abs_lookup s h c Hh).
    + intros h' x Hx Hin. apply abs_lookup_inv in Hx as (c2 & H2 & ->). cbn in Hin.
      assert (h' = h) as ->; [|by simplify_eq].
      eapply (inv_excl s Hinv); [done..|by left|right; by left].
    + by apply acquire_run.
  - right. rewrite (release_clear_run s h c lk Hh) in E.
    destruct (holding h lk s) eqn:Hhold; [|done]. injection E as <-.
    apply (holding_iff s h c Hinv Hh) in Hhold.
    set (ks := ks_of (abs_hart c) ks0).
    rewrite abs_put. change (abs_hart _) with (view (upd_held (remove_one lk) ks)).
    apply (a_release _ _ ks _ lk); [by rewrite (abs_lookup s h c Hh)|].
    unfold State.release. rewrite bind_gets. unfold State.holding.
    by rewrite bool_decide_eq_true_2.
  - left. rewrite (release_store_run s h c lk Hh) in E. injection E as <-.
    by apply (abs_put_same _ _ c).
  - left. rewrite (stored_runs s h c Hinv Hh lk Hat) in E. injection E as <-.
    apply (abs_put_same _ _ c); [done|].
    etrans; [|apply (abs_popped c); [lia|apply Hs; lia]]. done.
  - right. rewrite (upd_hart_put s h c Hh), abs_put.
    assert (h_held c = []) as Hnil by (apply length_zero_iff_nil; lia).
    unfold abs_hart. cbn. rewrite Hz, Hnil. apply (a_intr _ _ (h_sie c)).
    rewrite (abs_lookup s h c Hh). unfold abs_hart. by rewrite Hz, Hnil.
Qed.
End refine.

(** ** Theorems *)

(** C21: Mutual exclusion under any interleaving of the harts' memory accesses:
    two harts never own the same lock (between the successful exchange and the
    store of 0), and [holding] answers true exactly for the locks the calling
    hart has acquired, although it reads [locked] and [cpu] without protection. *)
Theorem mutual_exclusion n s :
  reachable n s →
  (∀ h1 h2 c1 c2 lk, m_harts s !! h1 = Some c1 → m_harts s !! h2 = Some c2 →
     owns c1 lk → owns c2 lk → h1 = h2) ∧
  (∀ h c lk, m_harts s !! h = Some c → holding h lk s = true ↔ lk ∈ h_held c).
Proof.
  intros Hr%reachable_inv. split.
  - by apply inv_excl.
  - intros. by apply holding_iff.
Qed.

(** C22: spinlock.c implements the lock view the rest of the development uses:
    every run of the harts is a run of State.v's [acquire], [release] and
    interrupt flag, and for a hart between calls the view is exact: [noff] counts
    the held locks, interrupts are on exactly when [intr_get] says so, and
    [holding] agrees. *)
Theorem spinlock_refines n s :
  reachable n s →
  rtc astep (abs (init n)) (abs s) ∧
  (∀ h c ks, m_harts s !! h = Some c → h_at c = Outside → view ks = abs_hart c →
     h_noff c = Z.of_nat (State.noff ks) ∧ h_sie c = State.intr_get ks ∧
     ∀ lk, holding h lk s = State.holding lk ks).
Proof.
  intros Hr. split.
  - assert (∀ a, inv a → rtc step a s → rtc astep (abs a) (abs s)) as Hgen.
    { intros a Ha H. induction H as [|a b s Hst H IH]; [done|].
      destruct (step_abs kstate0 a b Ha Hst) as [<-|]; [|eapply rtc_l; [done|]];
        apply IH; eauto using step_inv. }
    eapply Hgen; [apply inv_init|done].
  - intros h c ks Hh Hat Hv. apply reachable_inv in Hr as Hinv.
    pose proof (inv_hart s Hinv h c Hh) as [Hn _ Hs _].
    unfold inside in Hn. rewrite Hat in Hn. unfold view, abs_hart in Hv.
    injection Hv as Hk Hi. split_and!.
    + unfold State.noff. rewrite Hk. lia.
    + unfold State.intr_get. rewrite Hi, Hk.
      destruct (Z.eqb_spec (h_noff c) 0) as [Hz|Hz].
      * assert (h_held c = []) as -> by (apply length_zero_iff_nil; lia).
        by rewrite bool_decide_eq_true_2, andb_true_r.
      * rewrite Hs by lia. rewrite bool_decide_eq_false_2, andb_false_r; [done|].
        intros Hnil. rewrite Hnil in Hn. simpl in Hn. lia.
    + intros lk. apply eq_bool_prop_intro. unfold State.holding.
      rewrite !Is_true_true, (holding_iff s h c Hinv Hh), bool_decide_eq_true. by rewrite Hk.
Qed.

Fixpoint times (k : nat) (m : M machine unit) : M machine unit :=
  match k with O => ret tt | S k' => m ;; times k' m end.

Lemma times_push s h c k :
  m_harts s !! h = Some c → 0 ≤ h_noff c →
  times k (push_off h) s = Ret tt (put (m_locks s) h (Nat.iter k pushed c) s).
Proof.
  revert s c. induction k as [|k IH]; intros s c Hh Hn; cbn [times].
  - unfold put. cbn. rewrite list_insert_id by done. by destruct s.
  - rewrite (bind_run _ _ _ _ _ (push_off_run s h c Hh)).
    rewrite (IH _ (pushed c)); [|by eapply put_lookup|].
    + rewrite put_put. cbn [m_locks put]. by rewrite Nat.iter_succ_r.
    + unfold pushed. cbn. lia.
Qed.

Lemma iter_pushed_noff k c : h_noff (Nat.iter k pushed c) = h_noff c + Z.of_nat k.
Proof. induction k as [|k IH]; [simpl; lia|]. rewrite Nat.iter_succ. cbn. lia. Qed.

Lemma popped_pushed c :
  0 ≤ h_noff c → (0 < h_noff c → h_sie c = false) →
  h_noff (popped (pushed c)) = h_noff c ∧ h_sie (popped (pushed c)) = h_sie c ∧
  (0 < h_noff c → popped (pushed c) = c).
Proof.
  intros Hn Hs. unfold popped, pushed.
  destruct (Z.eqb_spec (h_noff c) 0) as [E|E]; cbn.
  - rewrite E. cbn. destruct (h_sie c); split_and!; try done; lia.
  - destruct (Z.eqb_spec (h_noff c + 1 - 1) 0); [lia|]. cbn.
    rewrite Hs by lia. split_and!; [lia|done|]. intros _.
    destruct c; cbn in *. rewrite Hs by lia. unfold set_noff, set_sie. cbn. f_equal. lia.
Qed.

Lemma times_pop s h c k :
  m_harts s !! h = Some c → 0 ≤ h_noff c → (0 < h_noff c → h_sie c = false) →
  ∃ c', times k (pop_off h) (put (m_locks s) h (Nat.iter k pushed c) s) =
          Ret tt (put (m_locks s) h c' s) ∧
        h_noff c' = h_noff c ∧ h_sie c' = h_sie c.
Proof.
  intros Hh Hn Hs. induction k as [|k IH]; [by exists c|].
  cbn [times]. rewrite Nat.iter_succ. set (d := Nat.iter k pushed c) in *.
  assert (h_noff d = h_noff c + Z.of_nat k) as Hd by apply iter_pushed_noff.
  assert (0 < h_noff d → h_sie d = false) as Hds.
  { unfold d in *. destruct k as [|k]; [simpl; auto|]. rewrite Nat.iter_succ. done. }
  rewrite (bind_run _ _ _ _ _ (pop_off_run (put (m_locks s) h (pushed d) s) h (pushed d)
    (put_lookup _ _ _ _ _ Hh) eq_refl ltac:(cbn; lia))).
  cbn [m_locks put]. fold (put (m_locks s) h (pushed d) s). rewrite put_put.
  destruct (popped_pushed d ltac:(lia) Hds) as (P1 & P2 & P3).
  destruct (decide (0 < h_noff d)) as [Hpos|Hpos]; [rewrite P3 by done; apply IH|].
  assert (k = O) as -> by lia. cbn [times]. exists (popped (pushed d)).
  split_and!; [done|lia|]. rewrite P2. done.
Qed.

(** [push_off] and [pop_off] are matched: [k] calls of [pop_off] after [k]
    calls of [push_off] return without panicking, restore the depth and the
    interrupt-enable bit whatever it was, and interrupts are off in between. *)
Theorem push_pop_matched s h c k :
  m_harts s !! h = Some c → 0 ≤ h_noff c → (0 < h_noff c → h_sie c = false) →
  ∃ s1 c1 s2 c2,
    times k (push_off h) s = Ret tt s1 ∧ m_harts s1 !! h = Some c1 ∧
    h_noff c1 = h_noff c + Z.of_nat k ∧ ((0 < k)%nat → h_sie c1 = false) ∧
    times k (pop_off h) s1 = Ret tt s2 ∧ m_harts s2 !! h = Some c2 ∧
    h_noff c2 = h_noff c ∧ h_sie c2 = h_sie c.
Proof.
  intros Hh Hn Hs. destruct (times_pop s h c k Hh Hn Hs) as (c2 & Hpop & Hn2 & Hs2).
  eexists _, (Nat.iter k pushed c), _, c2.
  split_and!; [by apply times_push|by eapply put_lookup|apply iter_pushed_noff| |exact Hpop
    |by eapply put_lookup|done|done].
  destruct k; [lia|]. by rewrite Nat.iter_succ.
Qed.

(** ** Witnesses *)

Lemma reachable_two : ∃ s, reachable 2 s ∧ ∃ c, m_harts s !! 0%nat = Some c ∧
  h_at c = Outside ∧ h_held c = [LKmem].
Proof.
  eexists. split.
  - eapply rtc_l; [eapply (step_enter _ 0%nat _ LKmem); reflexivity|].
    eapply rtc_l; [eapply (step_exchange _ 0%nat _ LKmem); reflexivity|].
    eapply rtc_l; [eapply (step_record _ 0%nat _ LKmem); reflexivity|].
    apply rtc_refl.
  - eexists. split_and!; reflexivity.
Defined.

Lemma mutual_exclusion_witness : ∃ s, reachable 2 s ∧ holding 0 LKmem s = true.
Proof.
  destruct reachable_two as (s & Hr & c & Hc & _ & Hl). exists s. split; [done|].
  apply (proj2 (mutual_exclusion 2 s Hr) 0%nat c LKmem Hc). rewrite Hl. set_solver.
Defined.

Lemma spinlock_refines_witness : ∃ s c, reachable 2 s ∧ m_harts s !! 0%nat = Some c ∧
  h_noff c = Z.of_nat (State.noff (ks_of (abs_hart c) kstate0)).
Proof.
  destruct reachable_two as (s & Hr & c & Hc & Ho & Hl). exists s, c.
  split; [done|]. split; [done|].
  apply (proj2 (spinlock_refines 2 s Hr) 0%nat c); [done|done|by destruct (abs_hart c)].
Defined.

Lemma push_pop_matched_witness : ∃ s2 c2, times 3 (pop_off 1) (put (m_locks (init 2)) 1
    (Nat.iter 3 pushed init_hart) (init 2)) = Ret tt s2 ∧
  m_harts s2 !! 1%nat = Some c2 ∧ h_noff c2 = 0 ∧ h_sie c2 = false.
Proof.
  destruct (push_pop_matched (init 2) 1 init_hart 3 eq_refl ltac:(simpl; lia) ltac:(simpl; lia))
    as (s1 & c1 & s2 & c2 & H1 & _ & _ & _ & H2 & H3 & H4 & H5).
  exists s2, c2. split_and!; [|done|exact H4|exact H5].
  rewrite <- H2. f_equal. vm_compute in H1. vm_compute. congruence.
Defined.
End Spin.
