(* ===== verification/Kalloc.v ===== *)
(** * kernel/kalloc.c

    The physical page allocator.  The free list is threaded through the free
    pages themselves: the first eight bytes of a free page are its [next]. *)
From Stdlib Require Import ZArith Lia.
From stdpp Require Import base list gmap numbers strings.
From S2P Require Import Prelude Machine KString State.
Local Open Scope Z_scope.
Local Open Scope kernel_scope.

Section kalloc.
Context {L : Layout}.

(** ** Code *)

Definition kfree (pa : Z) : K unit :=
  if negb (pa mod PGSIZE =? 0) || (pa <? kend) || (PHYSTOP <=? pa) then panic "kfree"
  else
    modmem (λ m, memset m pa 1 PGSIZE) ;;
    acquire LKmem ;;
    next ← gets k_freelist;
    modmem (λ m, st64 m pa next) ;;
    modify (set_k_freelist pa) ;;
    release LKmem.

(** [for (; p + PGSIZE <= pa_end; p += PGSIZE) kfree(p);] *)
Fixpoint freerange_loop (fuel : nat) (p pa_end : Z) : K unit :=
  match fuel with
  | O => nofuel
  | S f =>
      if p + PGSIZE <=? pa_end
      then kfree p ;; freerange_loop f (p + PGSIZE) pa_end
      else ret tt
  end.
Definition freerange (pa_start pa_end : Z) : K unit :=
  let p := PGROUNDUP pa_start in
  freerange_loop (S (Z.to_nat ((pa_end - p) / PGSIZE))) p pa_end.

Definition kinit : K unit := freerange kend PHYSTOP.

Definition kalloc : K Z :=
  acquire LKmem ;;
  r ← gets k_freelist;
  whenM (negb (r =? 0))
    (next ← gets (λ s, ld64 (k_mem s) r); modify (set_k_freelist next)) ;;
  release LKmem ;;
  whenM (negb (r =? 0)) (modmem (λ m, memset m r 5 PGSIZE)) ;;
  ret r.

(** ** Invariant *)

Definition page_ok (pa : Z) : Prop := pa mod PGSIZE = 0 ∧ kend ≤ pa < PHYSTOP.

Definition in_page (pa a : Z) : Prop := pa ≤ a < pa + PGSIZE.

(** The chain of [next] pointers from [p] on is [l]. *)
Fixpoint is_list (m : mem) (p : Z) (l : list Z) : Prop :=
  match l with
  | [] => p = 0
  | a :: l' => p = a ∧ is_list m (ld64 m a) l'
  end.

Record kmem_inv (s : kstate) (l : list Z) : Prop := {
  kmem_list : is_list (k_mem s) (k_freelist s) l;
  kmem_nodup : NoDup l;
  kmem_pages : Forall page_ok l;
}.

Lemma page_ok_pos pa : page_ok pa → 0 < pa < 2 ^ 63 ∧ kend ≤ pa ∧ pa + PGSIZE ≤ PHYSTOP.
Proof.
  intros [Ha [Hk Hp]]. pose proof kend_range.
  pose proof (Z.div_mod pa PGSIZE ltac:(done)).
  assert (PHYSTOP = PGSIZE * 557056) as E by reflexivity.
  unfold KERNBASE, PGSIZE in *. lia.
Qed.

Lemma pages_disjoint pa pb a :
  pa mod PGSIZE = 0 → pb mod PGSIZE = 0 → pa ≠ pb → in_page pa a → ¬ in_page pb a.
Proof.
  unfold in_page, PGSIZE. intros Ha Hb Hne H1 H2.
  pose proof (Z.div_mod pa 4096 ltac:(done)). pose proof (Z.div_mod pb 4096 ltac:(done)). lia.
Qed.

(** Writes outside the free pages leave the list alone. *)
Lemma is_list_ext m m' p l :
  (∀ pa a, pa ∈ l → in_page pa a → ld8 m' a = ld8 m a) → is_list m p l → is_list m' p l.
Proof.
  revert p. induction l as [|pa l IH]; intros p H; simpl; [done|].
  intros [-> Hl]. split; [done|].
  rewrite (ld64_ext m' m pa).
  - apply IH; [|done]. intros. apply (H pa0); [set_solver|done].
  - intros b Hb. apply (H pa); [set_solver|]. unfold in_page, PGSIZE. lia.
Qed.

(** ** Specifications *)

Lemma kmem_inv_ext s s' l :
  k_freelist s' = k_freelist s →
  (∀ pa a, pa ∈ l → in_page pa a → ld8 (k_mem s') a = ld8 (k_mem s) a) →
  kmem_inv s l → kmem_inv s' l.
Proof.
  intros Hf Hm [Hl Hd Hp]. split; [|done..]. rewrite Hf. by eapply is_list_ext.
Qed.

Lemma wp_kalloc s l Q :
  kmem_inv s l → LKmem ∉ k_held s →
  (l = [] → Q 0 s) →
  (∀ pa l', l = pa :: l' →
     let s' := set_k_mem (memset (k_mem s) pa 5 PGSIZE)
                 (set_k_freelist (ld64 (k_mem s) pa) s) in
     kmem_inv s' l' → Q pa s') →
  wp kalloc Q s.
Proof.
  intros [Hl Hnd Hp] Hlk Hnil Hcons. unfold kalloc. wp_go.
  apply wp_acquire; [done|]. wp_go. cbn [upd_held set_k_held k_freelist].
  destruct l as [|pa l]; cbn [is_list] in Hl.
  - rewrite Hl. cbn [Z.eqb negb whenM]. wp_go.
    eapply wp_release; [done|]. wp_go.
    replace (set_k_held _ _) with s by kstate_eq. auto.
  - destruct Hl as [Hpa Hl]. rewrite Hpa.
    apply list.NoDup_cons in Hnd as [Hnin Hnd]. apply Forall_cons in Hp as [Hok Hp].
    pose proof (page_ok_pos pa Hok).
    destruct (Z.eqb_spec pa 0); [lia|]. cbn [negb whenM]. wp_go.
    eapply wp_release; [done|]. wp_go.
    match goal with |- Q pa ?t => replace t with
      (set_k_mem (memset (k_mem s) pa 5 PGSIZE) (set_k_freelist (ld64 (k_mem s) pa) s))
      by kstate_eq end.
    apply (Hcons pa l eq_refl). split; [|done..]. cbn.
    eapply is_list_ext; [|done]. intros pb a Hb Hin.
    rewrite memset_ld8, decide_False; [done| |done].
    apply (pages_disjoint pb pa); [| |by intros ->|done]; [|apply Hok].
    rewrite Forall_forall in Hp. by apply Hp.
Qed.

Lemma wp_kfree s l pa Q :
  kmem_inv s l → page_ok pa → pa ∉ l → LKmem ∉ k_held s →
  (let s' := set_k_mem (st64 (memset (k_mem s) pa 1 PGSIZE) pa (k_freelist s))
               (set_k_freelist pa s) in
   kmem_inv s' (pa :: l) → Q tt s') →
  wp (kfree pa) Q s.
Proof.
  intros [Hl Hnd Hp] Hok Hnin Hlk HQ. unfold kfree.
  pose proof Hok as [Hal [Hk Hs]].
  destruct (Z.eqb_spec (pa mod PGSIZE) 0); [|lia].
  destruct (Z.ltb_spec pa kend); [lia|]. destruct (Z.leb_spec PHYSTOP pa); [lia|].
  cbn [negb orb]. wp_go. apply wp_acquire; [done|]. wp_go.
  eapply wp_release; [done|].
  match goal with |- Q tt ?t => replace t with
    (set_k_mem (st64 (memset (k_mem s) pa 1 PGSIZE) pa (k_freelist s)) (set_k_freelist pa s))
    by kstate_eq end.
  apply HQ. split; kcbn; cbn [is_list].
  - split; [done|]. rewrite ld64_st64_same.
    + eapply is_list_ext; [|done]. intros pb a Hb Hin.
      assert (¬ in_page pa a) as Hna.
      { apply (pages_disjoint pb pa); [|done|by intros ->|done].
        rewrite Forall_forall in Hp. by apply Hp. }
      unfold in_page, PGSIZE in *. rewrite ld8_st64_ne by lia.
      rewrite memset_ld8, decide_False; [done|done|done].
    + destruct l as [|pb l]; cbn in Hl; [rewrite Hl; lia|]. destruct Hl as [-> _].
      apply Forall_cons in Hp as [Hb _]. pose proof (page_ok_pos pb Hb). lia.
  - by apply list.NoDup_cons.
  - by constructor.
Qed.

Lemma kfree_panics s pa : ¬ page_ok pa → kfree pa s = Panic "kfree" s.
Proof.
  intros H. unfold kfree. destruct (Z.eqb_spec (pa mod PGSIZE) 0); [|done].
  destruct (Z.ltb_spec pa kend); [done|]. destruct (Z.leb_spec PHYSTOP pa); [done|].
  exfalso. apply H. split; [done|lia].
Qed.

(** Memory the allocator's clients may use is not touched. *)
Lemma kalloc_frame (m : mem) pa a : ¬ in_page pa a → ld8 (memset m pa 5 PGSIZE) a = ld8 m a.
Proof. intros. rewrite memset_ld8, decide_False; done. Qed.
Lemma kfree_frame (m : mem) pa v a :
  ¬ in_page pa a → ld8 (st64 (memset m pa 1 PGSIZE) pa v) a = ld8 m a.
Proof.
  unfold in_page, PGSIZE. intros. rewrite ld8_st64_ne by lia.
  rewrite memset_ld8, decide_False; done.
Qed.

(** ** Boot *)

(** The pages of [[p, p + n * PGSIZE)], the last one first. *)
Fixpoint pages_up (p : Z) (n : nat) (acc : list Z) : list Z :=
  match n with
  | O => acc
  | S n' => pages_up (p + PGSIZE) n' (p :: acc)
  end.

Lemma elem_of_pages_up p n acc x :
  x ∈ pages_up p n acc ↔ x ∈ acc ∨ ∃ i : nat, (i < n)%nat ∧ x = p + Z.of_nat i * PGSIZE.
Proof.
  revert p acc. induction n as [|n IH]; intros p acc; cbn [pages_up].
  - split; [by left|]. intros [|(i & Hi & _)]; [done|lia].
  - rewrite IH, elem_of_cons. split.
    + intros [[->|]|(i & Hi & ->)]; [right; exists O; split; lia|by left|].
      right. exists (S i). split; lia.
    + intros [|([|i] & Hi & ->)]; [by left; right| |].
      * left. left. lia.
      * right. exists i. split; lia.
Qed.

Lemma length_pages_up p n acc : length (pages_up p n acc) = (n + length acc)%nat.
Proof.
  revert p acc. induction n as [|n IH]; intros; cbn [pages_up]; [done|].
  rewrite IH. simpl. lia.
Qed.

Lemma freerange_loop_spec fuel n p pa_end s l Q :
  (n < fuel)%nat → p mod PGSIZE = 0 → kend ≤ p → pa_end ≤ PHYSTOP →
  p + Z.of_nat n * PGSIZE ≤ pa_end < p + (Z.of_nat n + 1) * PGSIZE →
  kmem_inv s l → (∀ x, x ∈ l → x < p) → LKmem ∉ k_held s →
  (∀ s', kmem_inv s' (pages_up p n l) → k_held s' = k_held s →
     s' = set_k_mem (k_mem s') (set_k_freelist (k_freelist s') s) →
     (∀ a, a < p → ld8 (k_mem s') a = ld8 (k_mem s) a) → Q tt s') →
  wp (freerange_loop fuel p pa_end) Q s.
Proof.
  revert n p s l. induction fuel as [|f IH]; intros n p s l Hf Hal Hk He Hr Hinv Hl Hlk HQ;
    [lia|]. unfold PGSIZE in Hr. cbn [freerange_loop]. destruct n as [|n].
  - destruct (Z.leb_spec (p + PGSIZE) pa_end); [unfold PGSIZE in *; lia|].
    apply wp_ret. apply HQ; [done..|kstate_eq|done].
  - destruct (Z.leb_spec (p + PGSIZE) pa_end); [|unfold PGSIZE in *; lia].
    apply wp_bind. apply (wp_kfree s l); [done| |intros Hin%Hl; lia|done|].
    { split; [done|]. unfold PGSIZE in *. lia. }
    intros s1 H1. apply (IH n _ _ (p :: l)); unfold PGSIZE in *.
    + lia.
    + rewrite <- Z.add_mod_idemp_l, Hal by done. reflexivity.
    + lia.
    + done.
    + lia.
    + done.
    + intros x [->|Hx]%elem_of_cons; [lia|]. specialize (Hl x Hx). lia.
    + done.
    + intros s2 H2 Hh2 Hs2 Hm2. apply HQ; [done|done| |].
      * rewrite Hs2. unfold s1. kstate_eq.
      * intros a Ha. rewrite Hm2 by lia. unfold s1. cbn [k_mem set_k_mem set_k_freelist].
        apply kfree_frame. unfold in_page, PGSIZE. lia.
Qed.

(** ** Clients *)

(** What the users of the allocator do: ask for a page, give one back, or write
    a byte inside a page they hold. *)
Inductive op := OAlloc | OFree (i : nat) | OWrite (i : nat) (off v : Z).

Fixpoint run_ops (ops : list op) (live : list Z) : K (list Z) :=
  match ops with
  | [] => ret live
  | OAlloc :: ops' =>
      r ← kalloc;
      run_ops ops' (if r =? 0 then live else r :: live)
  | OFree i :: ops' =>
      match live !! i with
      | Some pa => kfree pa ;; run_ops ops' (delete i live)
      | None => run_ops ops' live
      end
  | OWrite i off v :: ops' =>
      match live !! i with
      | Some pa => modmem (λ m, st8 m (pa + off mod PGSIZE) v) ;; run_ops ops' live
      | None => run_ops ops' live
      end
  end.

Lemma run_ops_spec ops live s l :
  kmem_inv s l → NoDup (live ++ l) → Forall page_ok live → LKmem ∉ k_held s →
  wp (run_ops ops live) (λ live' s', ∃ l',
    kmem_inv s' l' ∧ live' ++ l' ≡ₚ live ++ l ∧ k_held s' = k_held s) s.
Proof.
  revert live s l. induction ops as [|o ops IH]; intros live s l Hinv Hnd Hok Hlk; cbn [run_ops].
  { apply wp_ret. eauto. }
  destruct o as [|i|i off v].
  - apply wp_bind. apply (wp_kalloc s l); [done|done| |].
    + intros ->. cbn. by apply IH.
    + intros pa l' -> s' Hinv'.
      assert (page_ok pa) as Hpa
        by (destruct Hinv as [_ _ Hp]; by apply Forall_cons in Hp as [? _]).
      pose proof (page_ok_pos pa Hpa). destruct (Z.eqb_spec pa 0); [lia|].
      assert (live ++ pa :: l' ≡ₚ (pa :: live) ++ l') as Hperm by solve_Permutation.
      eapply wp_mono; [apply (IH (pa :: live) s' l')|].
      * done.
      * by rewrite <- Hperm.
      * by constructor.
      * done.
      * cbn. intros live2 s2 (l2 & ? & Hp2 & ?). exists l2. by rewrite Hperm.
  - destruct (live !! i) as [pa|] eqn:Hi; [|by apply IH].
    apply delete_Permutation in Hi as Hperm.
    assert (page_ok pa) as Hpa by (rewrite Forall_forall in Hok; eauto using list_elem_of_lookup_2).
    rewrite Hperm in Hnd. cbn in Hnd. apply list.NoDup_cons in Hnd as [Hnin Hnd'].
    apply wp_bind. apply (wp_kfree s l); [done|done|set_solver|done|].
    intros s' Hinv'. eapply wp_mono; [apply (IH (delete i live) s' (pa :: l))|].
    + done.
    + rewrite <- Permutation_middle. apply list.NoDup_cons. split; [set_solver|done].
    + rewrite Hperm in Hok. by apply Forall_cons in Hok as [_ ?].
    + done.
    + cbn. intros live2 s2 (l2 & ? & Hp2 & ?). exists l2. split; [done|].
      split; [|done]. rewrite Hp2.
      transitivity ((pa :: delete i live) ++ l); [solve_Permutation|by rewrite <- Hperm].
  - destruct (live !! i) as [pa|] eqn:Hi; [|by apply IH].
    assert (pa ∈ live) as Hin by eauto using list_elem_of_lookup_2.
    assert (page_ok pa) as Hpa by (rewrite Forall_forall in Hok; auto).
    apply wp_bind, wp_modify. eapply wp_mono; [apply (IH live _ l)|].
    + eapply (kmem_inv_ext s); [done| |done]. intros pb a Hb Ha.
      unfold upd_mem. cbn. rewrite ld8_st8, decide_False; [done|].
      intros <-. eapply (pages_disjoint pb pa); [| |intros ->|exact Ha|].
      * destruct Hinv as [_ _ Hp]. rewrite Forall_forall in Hp. by apply Hp.
      * apply Hpa.
      * apply NoDup_app in Hnd as (_ & Hdisj & _). by apply (Hdisj pa).
      * unfold in_page. pose proof (Z.mod_pos_bound off PGSIZE ltac:(done)). lia.
    + done.
    + done.
    + done.
    + cbn. intros live2 s2 (l2 & ? & Hp2 & ?). by exists l2.
Qed.

(** ** Theorems *)

(** After [kinit], the free list is exactly the pages of
    [[PGROUNDUP end, PHYSTOP)], each once, and no other memory was written. *)
Theorem kinit_pages s :
  k_freelist s = 0 → LKmem ∉ k_held s →
  let n := Z.to_nat ((PHYSTOP - PGROUNDUP kend) / PGSIZE) in
  ∃ s' l, kinit s = Ret tt s' ∧ kmem_inv s' l ∧ length l = n ∧
    (∀ pa, pa ∈ l ↔ page_ok pa) ∧
    (∀ a, a < kend → ld8 (k_mem s') a = ld8 (k_mem s) a).
Proof.
  intros Hf Hlk n. pose proof kend_range as Hk.
  destruct (PGROUNDUP_spec kend) as [Hal Hup];
    [unfold KERNBASE, PHYSTOP in *; unfold KERNBASE in *; lia|].
  assert (wp kinit (λ _ s', ∃ l, kmem_inv s' l ∧ length l = n ∧
    (∀ pa, pa ∈ l ↔ page_ok pa) ∧
    (∀ a, a < kend → ld8 (k_mem s') a = ld8 (k_mem s) a)) s) as Hwp.
  2:{ apply wp_run in Hwp as ([] & s' & Hrun & l & Hl). by exists s', l. }
  set (up := PGROUNDUP kend) in *.
  assert (up mod PGSIZE = 0 ∧ PHYSTOP = 557056 * PGSIZE) as [_ HP] by (split; [done|reflexivity]).
  assert (0 ≤ PHYSTOP - up) as Hge.
  { pose proof (Z.div_mod up PGSIZE ltac:(done)). unfold PGSIZE in *. lia. }
  pose proof (Z.div_mod (PHYSTOP - up) PGSIZE ltac:(done)) as Hdm.
  pose proof (Z.mod_pos_bound (PHYSTOP - up) PGSIZE ltac:(done)) as Hmb.
  pose proof (Z.div_pos (PHYSTOP - up) PGSIZE Hge ltac:(done)) as Hq.
  unfold kinit, freerange. fold up.
  apply (freerange_loop_spec _ n _ _ _ []); try done; unfold n; rewrite ?Z2Nat.id by done;
    try (unfold PGSIZE in *; lia).
  - split; [by rewrite Hf|constructor|constructor].
  - intros x Hx. by apply elem_of_nil in Hx.
  - intros s' Hinv Hheld _ Hmem. exists (pages_up up n []). split; [done|].
    split; [by rewrite length_pages_up; simpl; lia|]. split.
    + intros pa. rewrite elem_of_pages_up. split.
      * intros [Hx|(i & Hi & ->)]; [by apply elem_of_nil in Hx|].
        destruct Hinv as [_ _ Hp]. rewrite Forall_forall in Hp. apply Hp.
        rewrite elem_of_pages_up. right. eauto.
      * intros [Ha Hr]. right. exists (Z.to_nat ((pa - up) / PGSIZE)).
        pose proof (Z.div_mod pa PGSIZE ltac:(done)). pose proof (Z.div_mod up PGSIZE ltac:(done)).
        assert (pa - up = (pa / PGSIZE - up / PGSIZE) * PGSIZE) as E by lia.
        assert (up ≤ pa) by (unfold PGSIZE in *; lia).
        rewrite E, Z.div_mul by done. unfold n. split; unfold PGSIZE in *; lia.
    + intros a Ha. apply Hmem. lia.
Qed.

(** C23: No page is ever handed out twice and none is lost: along any sequence of
    allocations, frees of held pages and writes into held pages, the calls
    return without panicking, the free list stays well formed, and the held
    pages together with the free ones are a permutation of what they were. *)
Theorem pages_conserved ops live s l :
  kmem_inv s l → NoDup (live ++ l) → Forall page_ok live → LKmem ∉ k_held s →
  ∃ live' s' l', run_ops ops live s = Ret live' s' ∧ kmem_inv s' l' ∧
    live' ++ l' ≡ₚ live ++ l ∧ NoDup (live' ++ l').
Proof.
  intros Hinv Hnd Hok Hlk. pose proof (run_ops_spec ops live s l Hinv Hnd Hok Hlk) as Hwp.
  apply wp_run in Hwp as (live' & s' & Hrun & l' & Hinv' & Hperm & _).
  exists live', s', l'. split_and!; try done. by rewrite Hperm.
Qed.
End kalloc.

(** ** Witnesses: a machine with eight free pages *)

Definition layout_small : Layout.
Proof.
  refine {| kend := PHYSTOP - 8 * PGSIZE; etext := KERNBASE + 2 * PGSIZE;
            trampoline := KERNBASE + PGSIZE; a_forkret := KERNBASE; a_usertrap := KERNBASE;
            a_kernelvec := KERNBASE; a_uservec := KERNBASE + PGSIZE |}; vm_compute; try done; split; done.
Defined.
#[local] Existing Instance layout_small.

Lemma kinit_pages_witness : ∃ s' l, kinit kstate0 = Ret tt s' ∧ kmem_inv s' l ∧ length l = 8%nat.
Proof.
  destruct (kinit_pages kstate0 eq_refl ltac:(set_solver)) as (s' & l & H1 & H2 & H3 & _).
  exists s', l. split; [done|]. split; [done|]. rewrite H3. vm_compute. reflexivity.
Defined.

(** Page [i] below [PHYSTOP], and the memory with pages 1 to 8 free. *)
Definition small_page (i : Z) : Z := PHYSTOP - i * PGSIZE.
Definition small_mem : mem :=
  foldr (λ i m, st64 m (small_page i) (if i =? 8 then 0 else small_page (i + 1))) ∅
    [1; 2; 3; 4; 5; 6; 7; 8].
Definition kstate_small : kstate := set_k_freelist (small_page 1) (set_k_mem small_mem kstate0).

Lemma kmem_inv_small : kmem_inv kstate_small (small_page <$> [1; 2; 3; 4; 5; 6; 7; 8]).
Proof.
  split.
  - vm_compute. repeat split.
  - apply (bool_decide_unpack _). vm_compute. exact I.
  - apply Forall_fmap. repeat (apply Forall_cons; split; [split; vm_compute; [|split]; congruence|]).
    apply Forall_nil. exact I.
Defined.

Lemma pages_conserved_witness : ∃ live' s' l',
  run_ops [OAlloc; OAlloc; OWrite 0 5 7; OFree 1; OAlloc; OAlloc; OAlloc] [] kstate_small =
    Ret live' s' ∧
  kmem_inv s' l' ∧ live' ++ l' ≡ₚ small_page <$> [1; 2; 3; 4; 5; 6; 7; 8].
Proof.
  destruct (pages_conserved [OAlloc; OAlloc; OWrite 0 5 7; OFree 1; OAlloc; OAlloc; OAlloc]
    [] kstate_small _ kmem_inv_small) as (live' & s' & l' & H1 & H2 & H3 & _).
  - apply kmem_inv_small.
  - constructor.
  - apply not_elem_of_nil.
  - exists live', s', l'. split; [exact H1|]. split; [exact H2|exact H3].
Defined.
