(* ===== verification/Sched.v ===== *)
(** * kernel/proc.c: scheduling, sleep and wakeup

    The multi-level feedback queue scheduler, the switch from a process to the
    scheduler ([sched], [yield], [sleep]), [wakeup], [kkill] and the accessors
    of [killed], with the effect of each on the process table.  The timer-tick
    accounting of trap.c, which is the other half of the scheduler, is here too. *)
From Stdlib Require Import ZArith Lia.
From stdpp Require Import base list gmap numbers strings.
From S2P Require Import Prelude Machine State.
Local Open Scope Z_scope.
Local Open Scope kernel_scope.

(** ** Code *)

(** [proc[]] from its first to its last slot. *)
Definition slots : list nat := seq 0 NPROC.

Definition procinit : K unit :=
  for_each slots (λ i,
    modp i (λ p, set_p_kstack (KSTACK (Z.of_nat i)) (set_p_state UNUSED p))).

Definition allocpid : K Z :=
  acquire LPid ;;
  pid ← gets k_nextpid;
  n ← gets k_nextpid;
  modify (set_k_nextpid (i32 (n + 1))) ;;
  release LPid ;;
  ret pid.

Definition setcpu (o : option nat) : K unit :=
  modify (λ s, set_k_cpus (<[k_hart s := o]> (k_cpus s)) s).
Definition intr_on : K unit := modify (set_k_intr true).
Definition intr_off : K unit := modify (set_k_intr false).

(** The body of the inner loop of [scheduler]: [Some tt] is the [break] after a
    process has run. *)
Definition sched_try (priority : Z) (i : nat) : K (option unit) :=
  acquire (LProc i) ;;
  p ← getp i;
  if bool_decide (p_state p = RUNNABLE) && (p_priority p =? priority) then
    modp i (set_p_state RUNNING) ;;
    setcpu (Some i) ;;
    swtch ;;
    setcpu None ;;
    release (LProc i) ;;
    ret (Some tt)
  else
    release (LProc i) ;;
    ret None.

(** One iteration of the [for(;;)] of [scheduler]; [wfi] changes no state. *)
Definition scheduler_iter : K unit :=
  intr_on ;;
  intr_off ;;
  found ← for_list [0; 1; 2] (λ priority, for_list slots (sched_try priority));
  match found with
  | Some _ => ret tt
  | None => intr_off
  end.

Definition sched : K unit :=
  i ← myproc;
  h ← gets (holding (LProc i));
  if negb h then panic "sched p->lock" else
  n ← gets noff;
  if negb (n =? 1)%nat then panic "sched locks" else
  p ← getp i;
  if bool_decide (p_state p = RUNNING) then panic "sched RUNNING" else
  on ← gets intr_get;
  if (on : bool) then panic "sched interruptible" else
  intena ← gets k_intr;
  swtch ;;
  modify (set_k_intr intena).

Definition yield : K unit :=
  i ← myproc;
  acquire (LProc i) ;;
  modp i (set_p_state RUNNABLE) ;;
  sched ;;
  release (LProc i).

Definition sleep (ch : chan) (lk : lockid) : K unit :=
  i ← myproc;
  acquire (LProc i) ;;
  release lk ;;
  modp i (set_p_chan ch) ;;
  modp i (set_p_state SLEEPING) ;;
  sched ;;
  modp i (set_p_chan ChNull) ;;
  release (LProc i) ;;
  acquire lk.

(** A [while] loop around [sleep] goes round once for every time the process is
    woken up; [wakeups] is the number of times a run may be woken up in one such
    loop, at least one. *)
Class Fuel := {
  wakeups : nat;
  wakeups_pos : (0 < wakeups)%nat;
}.
Definition sleep_loop `{F : Fuel} {A} (body : K (option A)) : K A := loop (S wakeups) body.

Definition wakeup (ch : chan) : K unit :=
  for_each slots (λ i,
    me ← gets cur;
    whenM (negb (bool_decide (me = Some i)))
      (acquire (LProc i) ;;
       p ← getp i;
       whenM (bool_decide (p_state p = SLEEPING) && bool_decide (p_chan p = ch))
         (modp i (set_p_state RUNNABLE)) ;;
       release (LProc i))).

Definition kkill (pid : Z) : K Z :=
  r ← for_list slots (λ i,
    acquire (LProc i) ;;
    p ← getp i;
    if p_pid p =? pid then
      modp i (set_p_killed 1) ;;
      whenM (bool_decide (p_state p = SLEEPING)) (modp i (set_p_state RUNNABLE)) ;;
      release (LProc i) ;;
      ret (Some 0)
    else release (LProc i) ;; ret None);
  ret (default (-1) r).

Definition setkilled (i : nat) : K unit :=
  acquire (LProc i) ;; modp i (set_p_killed 1) ;; release (LProc i).

Definition killed (i : nat) : K Z :=
  acquire (LProc i) ;;
  p ← getp i;
  let k := p_killed p in
  release (LProc i) ;;
  ret k.

Definition reparent (i : nat) : K unit :=
  for_each slots (λ j,
    p ← getp j;
    whenM (bool_decide (p_parent p = Some i))
      (init ← gets k_initproc;
       modp j (set_p_parent init) ;;
       wakeup (match init with Some k => ChProc k | None => ChNull end))).

(** trap.c: the stopwatch and the demotion rule of [usertrap] for a timer
    interrupt, and the [yield()] that follows. *)
Definition timer_account : K unit :=
  me ← gets cur;
  match me with
  | None => ret tt
  | Some i =>
      p ← getp i;
      whenM (bool_decide (p_state p = RUNNING))
        (modp i (λ p, set_p_ticks_used (i32 (p_ticks_used p + 1)) p) ;;
         p ← getp i;
         if (p_priority p =? 0) && (5 <=? p_ticks_used p) then
           modp i (set_p_priority 1) ;; modp i (set_p_ticks_used 0)
         else if (p_priority p =? 1) && (10 <=? p_ticks_used p) then
           modp i (set_p_priority 2) ;; modp i (set_p_ticks_used 0)
         else ret tt)
  end.
Definition timer_tick : K unit := timer_account ;; yield.

(** ** Effects on the process table *)

Definition runnable_at (priority : Z) (p : proc) : bool :=
  bool_decide (p_state p = RUNNABLE) && (p_priority p =? priority).

(** The process the scheduler chooses: the first slot of the first non-empty
    lane. *)
Definition pick (l : list proc) : option nat :=
  match find_index (runnable_at 0) l with
  | Some i => Some i
  | None =>
      match find_index (runnable_at 1) l with
      | Some i => Some i
      | None => find_index (runnable_at 2) l
      end
  end.

Definition wake_proc (ch : chan) (p : proc) : proc :=
  if bool_decide (p_state p = SLEEPING) && bool_decide (p_chan p = ch)
  then set_p_state RUNNABLE p else p.
Definition wake_slot (me : option nat) (ch : chan) (i : nat) (p : proc) : proc :=
  if bool_decide (me = Some i) then p else wake_proc ch p.

(** The accounting of one timer tick. *)
Definition tick_proc (p : proc) : proc :=
  let p1 := set_p_ticks_used (i32 (p_ticks_used p + 1)) p in
  if (p_priority p1 =? 0) && (5 <=? p_ticks_used p1)
  then set_p_ticks_used 0 (set_p_priority 1 p1)
  else if (p_priority p1 =? 1) && (10 <=? p_ticks_used p1)
  then set_p_ticks_used 0 (set_p_priority 2 p1)
  else p1.

(** No spinlock of a process is held. *)
Definition procs_free (s : kstate) : Prop := ∀ i, LProc i ∉ k_held s.

(** ** The scan *)

Lemma sched_try_no pr i p s :
  k_procs s !! i = Some p → LProc i ∉ k_held s → runnable_at pr p = false →
  sched_try pr i s = Ret None s.
Proof.
  intros Hp Hl Hr. unfold sched_try. rewrite (bind_run _ _ _ _ _ (acquire_run _ _ Hl)).
  rewrite (bind_run _ _ _ _ _ (getp_run (upd_held _ s) i p Hp)).
  unfold runnable_at in Hr. rewrite Hr.
  rewrite (bind_run _ _ _ _ _ (release_run (LProc i) (k_held s) (upd_held _ s) eq_refl)).
  unfold ret. f_equal. kstate_eq.
Qed.

Lemma scan_no pr js s :
  (∀ i, i ∈ js → ∃ p, k_procs s !! i = Some p ∧ runnable_at pr p = false) →
  procs_free s → for_list js (sched_try pr) s = Ret None s.
Proof.
  intros H Hf. induction js as [|i js IH]; cbn [for_list]; [done|].
  destruct (H i ltac:(set_solver)) as (p & Hp & Hr).
  rewrite (bind_run _ _ _ _ _ (sched_try_no pr i p s Hp (Hf i) Hr)).
  apply IH. intros j Hj. apply H. set_solver.
Qed.

Definition dispatched (i : nat) (p : proc) (s : kstate) : kstate :=
  set_k_cpus (<[k_hart s := Some i]> (k_cpus s))
    (set_k_procs (<[i := set_p_state RUNNING p]> (k_procs s)) (upd_held (cons (LProc i)) s)).

(** What the scheduler does when the process switches back. *)
Definition after_run (i : nat) : K unit := setcpu None ;; release (LProc i).

Lemma release_cases lk s : ∃ s', release lk s = Ret tt s' ∨ release lk s = Panic "release" s'.
Proof.
  destruct (decide (lk ∈ k_held s)); eexists.
  - left. by apply release_in_run.
  - right. by apply release_not_held.
Qed.
Lemma after_run_cases i s :
  ∃ s', after_run i s = Ret tt s' ∨ after_run i s = Panic "release" s'.
Proof. apply release_cases. Qed.

(** A loop left by a [break] after the switch skips what follows it. *)
Lemma break_after_run i (m : K (option unit)) s :
  res_bind ((after_run i ;; ret (Some tt)) s)
    (λ r, match r with Some a => ret (Some a) | None => m end) = (after_run i ;; ret (Some tt)) s.
Proof. destruct (after_run_cases i s) as [s' [E|E]]; unfold bind; by rewrite E. Qed.

Definition stops_after_run (i : nat) (p : proc) (s : kstate) (r : res kstate (option unit)) : Prop :=
  ∃ k, r = Swtch (dispatched i p s) k ∧ ∀ s', k s' = (after_run i ;; ret (Some tt)) s'.

Lemma stops_bind i p s (m m' : K (option unit)) :
  stops_after_run i p s (m s) →
  stops_after_run i p s ((r ← m; match r with Some a => ret (Some a) | None => m' end) s).
Proof.
  intros (k & Hm & Hk). eexists. split; [by apply bind_swtch|].
  intros s'. cbv beta. rewrite Hk. apply break_after_run.
Qed.

Lemma sched_try_yes pr i p s :
  k_procs s !! i = Some p → LProc i ∉ k_held s → runnable_at pr p = true →
  stops_after_run i p s (sched_try pr i s).
Proof.
  intros Hp Hl Hr. unfold sched_try. rewrite (bind_run _ _ _ _ _ (acquire_run _ _ Hl)).
  rewrite (bind_run _ _ _ _ _ (getp_run (upd_held _ s) i p Hp)).
  unfold runnable_at in Hr. rewrite Hr.
  rewrite (bind_run _ _ _ _ _ (modp_run (upd_held _ s) i p _ Hp)).
  eexists. split; reflexivity.
Qed.

Lemma seq_split n i : (i < n)%nat → seq 0 n = seq 0 i ++ i :: seq (S i) (n - S i).
Proof.
  intros. replace n with (i + S (n - S i))%nat at 1 by lia. by rewrite seq_app.
Qed.

Lemma scan_found pr i p s :
  length (k_procs s) = NPROC → procs_free s →
  find_index (runnable_at pr) (k_procs s) = Some i → k_procs s !! i = Some p →
  stops_after_run i p s (for_list slots (sched_try pr) s).
Proof.
  intros Hlen Hf Hi Hp. apply find_index_Some in Hi as [(q & Hq & Hr) Hlt].
  assert (q = p) as -> by congruence. unfold slots. rewrite (seq_split NPROC i)
    by (rewrite <- Hlen; eauto using lookup_lt_Some).
  rewrite (for_list_app _ _ _ s s).
  - cbn [for_list]. apply stops_bind. by apply sched_try_yes.
  - apply scan_no; [|done]. intros j Hj%elem_of_seq.
    destruct (lookup_lt_is_Some_2 (k_procs s) j) as [pj Hpj];
      [apply lookup_lt_Some in Hp; lia|].
    exists pj. split; [done|]. apply (Hlt j); [lia|done].
Qed.

Lemma scan_none pr s :
  length (k_procs s) = NPROC → procs_free s →
  find_index (runnable_at pr) (k_procs s) = None →
  for_list slots (sched_try pr) s = Ret None s.
Proof.
  intros Hlen Hf Hn. apply scan_no; [|done]. intros i Hi%elem_of_seq.
  destruct (lookup_lt_is_Some_2 (k_procs s) i) as [p Hp]; [lia|].
  exists p. split; [done|]. rewrite find_index_None in Hn. eauto.
Qed.

Lemma lanes_found i p s :
  length (k_procs s) = NPROC → procs_free s →
  pick (k_procs s) = Some i → k_procs s !! i = Some p →
  stops_after_run i p s (for_list [0; 1; 2] (λ priority, for_list slots (sched_try priority)) s).
Proof.
  intros Hlen Hf Hi Hp. unfold pick in Hi.
  destruct (find_index (runnable_at 0) (k_procs s)) as [i0|] eqn:E0;
    [|destruct (find_index (runnable_at 1) (k_procs s)) as [i1|] eqn:E1]; simplify_eq;
    cbn [for_list].
  - apply stops_bind. by apply scan_found.
  - rewrite (bind_run _ _ _ _ _ (scan_none 0 s Hlen Hf E0)). cbn iota.
    apply stops_bind. by apply scan_found.
  - rewrite (bind_run _ _ _ _ _ (scan_none 0 s Hlen Hf E0)). cbn iota.
    rewrite (bind_run _ _ _ _ _ (scan_none 1 s Hlen Hf E1)). cbn iota.
    apply stops_bind. by apply scan_found.
Qed.

Lemma scheduler_iter_swtch i p s :
  length (k_procs s) = NPROC → procs_free s →
  pick (k_procs s) = Some i → k_procs s !! i = Some p →
  ∃ k, scheduler_iter s = Swtch (dispatched i p (set_k_intr false s)) k ∧
       ∀ s', k s' = after_run i s'.
Proof.
  intros Hlen Hf Hi Hp.
  destruct (lanes_found i p (set_k_intr false s)) as (k & Hs & Hk); [done..|].
  unfold scheduler_iter, intr_on, intr_off. rewrite !bind_modify.
  eexists. split; [by apply bind_swtch|].
  intros s'. cbv beta. rewrite Hk. 
  destruct (after_run_cases i s') as [s1 [E|E]]; unfold bind; by rewrite E.
Qed.

Lemma scheduler_iter_idle s :
  length (k_procs s) = NPROC → procs_free s → pick (k_procs s) = None →
  scheduler_iter s = Ret tt (set_k_intr false s).
Proof.
  intros Hlen Hf Hi. unfold scheduler_iter, intr_on, intr_off. rewrite !bind_modify.
  set (s1 := set_k_intr false _).
  assert (s1 = set_k_intr false s) as Hs1 by (unfold s1; kstate_eq).
  assert (length (k_procs s1) = NPROC) as Hlen1 by done.
  assert (procs_free s1) as Hf1 by done.
  assert (k_procs s1 = k_procs s) as Hps by done.
  unfold pick in Hi.
  destruct (find_index (runnable_at 0) (k_procs s)) eqn:E0; [done|].
  destruct (find_index (runnable_at 1) (k_procs s)) eqn:E1; [done|].
  cbn [for_list]. unfold bind at 1.
  rewrite (bind_run _ _ _ _ _ (scan_none 0 s1 Hlen1 Hf1 E0)).
  rewrite (bind_run _ _ _ _ _ (scan_none 1 s1 Hlen1 Hf1 E1)).
  rewrite (bind_run _ _ _ _ _ (scan_none 2 s1 Hlen1 Hf1 Hi)).
  cbn. unfold modify. f_equal.
Qed.

Lemma after_run_run i s l :
  k_held s = LProc i :: l →
  after_run i s = Ret tt (set_k_held l (set_k_cpus (<[k_hart s := None]> (k_cpus s)) s)).
Proof.
  intros H. unfold after_run, setcpu. rewrite bind_modify.
  by apply (release_run _ l).
Qed.

(** ** Giving up the CPU *)

(** What [sched] requires of its caller, besides the lock of the process. *)
Definition sched_ok (i : nat) (s : kstate) : Prop :=
  cur s = Some i ∧ k_held s = [LProc i] ∧
  ∃ p, k_procs s !! i = Some p ∧ p_state p ≠ RUNNING.

Lemma sched_swtch i s :
  sched_ok i s → sched s = Swtch s (λ s', Ret tt (set_k_intr (k_intr s) s')).
Proof.
  intros (Hc & Hh & p & Hp & Hs). unfold sched.
  rewrite (bind_run _ _ _ _ _ (myproc_run _ _ Hc)), bind_gets.
  unfold holding. rewrite Hh, bool_decide_eq_true_2 by set_solver. cbn [negb].
  rewrite bind_gets. unfold noff. rewrite Hh. cbn [length Nat.eqb negb].
  rewrite (bind_run _ _ _ _ _ (getp_run _ _ _ Hp)).
  rewrite bool_decide_eq_false_2 by done. rewrite bind_gets.
  unfold intr_get. rewrite Hh, bool_decide_eq_false_2 by done. by rewrite andb_false_r.
Qed.

(** [sched] refuses to switch while another spinlock is held. *)
Lemma sched_locks_panic i lk l s :
  cur s = Some i → k_held s = lk :: l → LProc i ∈ lk :: l → l ≠ [] →
  sched s = Panic "sched locks" s.
Proof.
  intros Hc Hh Hin Hl. unfold sched.
  rewrite (bind_run _ _ _ _ _ (myproc_run _ _ Hc)), bind_gets.
  unfold holding. rewrite Hh, bool_decide_eq_true_2 by done. cbn [negb].
  rewrite bind_gets. unfold noff. rewrite Hh. by destruct l.
Qed.

Definition proc_set (i : nat) (p : proc) (s : kstate) : kstate :=
  set_k_procs (<[i := p]> (k_procs s)) s.

Lemma proc_set_lookup i p q s :
  k_procs s !! i = Some q → k_procs (proc_set i p s) !! i = Some p.
Proof. intros. apply list_lookup_insert_eq. eauto using lookup_lt_Some. Qed.

Lemma modp_set i p f s :
  k_procs s !! i = Some p → modp i f s = Ret tt (proc_set i (f p) s).
Proof. apply modp_run. Qed.
Lemma proc_set_set i p q s : proc_set i q (proc_set i p s) = proc_set i q s.
Proof. unfold proc_set. kcbn. rewrite list_insert_insert_eq. kstate_eq. Qed.

Lemma yield_swtch i p s :
  cur s = Some i → k_held s = [] → k_procs s !! i = Some p →
  yield s = Swtch (proc_set i (set_p_state RUNNABLE p) (set_k_held [LProc i] s))
    (λ s', release (LProc i) (set_k_intr (k_intr s) s')).
Proof.
  intros Hc Hh Hp. unfold yield. rewrite (bind_run _ _ _ _ _ (myproc_run _ _ Hc)).
  rewrite (bind_run _ _ _ _ _ (acquire_run (LProc i) s ltac:(rewrite Hh; set_solver))).
  rewrite (bind_run _ _ _ _ _ (modp_run (upd_held _ s) i p _ Hp)).
  set (s1 := proc_set _ _ _). unfold bind at 1.
  replace (set_k_procs _ _) with s1
    by (unfold s1, proc_set, upd_held; rewrite Hh; kstate_eq).
  rewrite (sched_swtch i).
  - simpl. f_equal.
  - split; [done|]. split; [done|]. eexists. split; [by eapply proc_set_lookup|done].
Qed.

(** [sleep]: the process is marked before the condition lock is let go, all
    under its own lock, and the condition lock is taken again on return. *)
Lemma sleep_swtch i p ch lk s :
  cur s = Some i → k_held s = [lk] → lk ≠ LProc i → k_procs s !! i = Some p →
  ∃ k, sleep ch lk s =
      Swtch (proc_set i (set_p_state SLEEPING (set_p_chan ch p)) (set_k_held [LProc i] s)) k ∧
    ∀ s' q, k_held s' = [LProc i] → k_procs s' !! i = Some q →
      k s' = Ret tt (proc_set i (set_p_chan ChNull q)
                       (set_k_held [lk] (set_k_intr (k_intr s) s'))).
Proof.
  intros Hc Hh Hne Hp. unfold sleep. rewrite (bind_run _ _ _ _ _ (myproc_run _ _ Hc)).
  rewrite (bind_run _ _ _ _ _ (acquire_run (LProc i) s ltac:(rewrite Hh; set_solver))).
  rewrite (bind_run _ _ _ _ _ (release_in_run lk (upd_held (cons (LProc i)) s) ltac:(kcbn; rewrite Hh; set_solver))).
  rewrite (bind_run _ _ _ _ _ (modp_run (upd_held _ (upd_held _ s)) i p _ Hp)).
  rewrite (bind_run _ _ _ _ _ (modp_run (set_k_procs _ _) i _ _
    (list_lookup_insert_eq _ _ _ (lookup_lt_Some _ _ _ Hp)))).
  set (s1 := proc_set _ _ (set_k_held [LProc i] s)). unfold bind at 1.
  replace (set_k_procs _ _) with s1.
  2: { unfold s1, proc_set, upd_held. kcbn. rewrite Hh. cbn [remove_one].
       rewrite decide_False by done. rewrite decide_True by done.
       rewrite list_insert_insert_eq. kstate_eq. }
  rewrite (sched_swtch i).
  2: { split; [done|]. split; [done|]. eexists. split; [by eapply proc_set_lookup|done]. }
  eexists. split; [reflexivity|]. intros s' q Hh' Hq. cbn [res_bind].
  rewrite (bind_run _ _ _ _ _ (modp_run (set_k_intr _ s') i q _ Hq)).
  rewrite (bind_run _ _ _ _ _ (release_run (LProc i) [] (set_k_procs _ (set_k_intr _ s')) Hh')).
  rewrite acquire_run by (kcbn; set_solver). reflexivity.
Qed.

(** ** Waking *)

(** [set_k_procs] through the lock of the slot. *)
Lemma for_slots_procs (body : nat → K unit) (f : nat → proc → proc) s :
  length (k_procs s) = NPROC →
  (∀ i p l, i < NPROC → k_procs s !! i = Some p → l !! i = Some p →
     body i (set_k_procs l s) = Ret tt (set_k_procs (<[i := f i p]> l) s))%nat →
  for_each slots body s = Ret tt (set_k_procs (imap f (k_procs s)) s).
Proof.
  intros Hlen Hb.
  assert (∀ n m l, n + m = NPROC → length l = NPROC →
    (∀ j, n ≤ j → l !! j = k_procs s !! j) →
    for_each (seq n m) body (set_k_procs l s) =
      Ret tt (set_k_procs (take n l ++ imap (λ j, f (n + j)) (drop n (k_procs s))) s))%nat as Hgen.
  { intros n m. revert n. induction m as [|m IH]; intros n l Hnm Hl Heq.
    - cbn [seq for_each]. unfold ret. rewrite (drop_ge (k_procs s)) by lia.
      rewrite take_ge by lia. simpl. by rewrite app_nil_r.
    - cbn [seq for_each].
      destruct (lookup_lt_is_Some_2 (k_procs s) n) as [p Hp]; [lia|].
      rewrite (bind_run _ _ _ _ _ (Hb n p l ltac:(lia) Hp ltac:(rewrite Heq by lia; done))).
      rewrite IH; [|lia|by rewrite length_insert|].
      2: { intros j Hj. rewrite list_lookup_insert_ne by lia. apply Heq. lia. }
      f_equal. f_equal. rewrite (drop_S _ _ _ Hp). cbn [imap].
      rewrite (take_S_r _ _ (f n p)) by (apply list_lookup_insert_eq; lia).
      rewrite take_insert_ge by lia. rewrite <- app_assoc. simpl. rewrite Nat.add_0_r.
      f_equal. f_equal. apply imap_ext. intros. simpl. by rewrite Nat.add_succ_r. }
  specialize (Hgen 0 NPROC (k_procs s) eq_refl Hlen (λ _ _, eq_refl))%nat.
  rewrite set_k_procs_id in Hgen. unfold slots. rewrite Hgen. by rewrite take_0, drop_0.
Qed.

Lemma set_wake_id me ch i p (l : list proc) :
  l !! i = Some p → wake_slot me ch i p = p → <[i := wake_slot me ch i p]> l = l.
Proof. intros Hl ->. by apply list_insert_id. Qed.

Lemma wakeup_run ch s :
  length (k_procs s) = NPROC → (∀ i, cur s ≠ Some i → LProc i ∉ k_held s) →
  wakeup ch s = Ret tt (set_k_procs (imap (wake_slot (cur s) ch) (k_procs s)) s).
Proof.
  intros Hlen Hf. unfold wakeup. apply for_slots_procs; [done|].
  intros i p l Hi _ Hp. rewrite bind_gets. set (t := set_k_procs l s).
  change (cur t) with (cur s). case_bool_decide as Hme; cbn [negb whenM].
  - rewrite set_wake_id; [reflexivity|done|].
    unfold wake_slot. by rewrite bool_decide_eq_true_2.
  - rewrite (bind_run _ _ _ _ _ (acquire_run (LProc i) t (Hf i Hme))).
    rewrite (bind_run _ _ _ _ _ (getp_run (upd_held _ t) i p Hp)).
    unfold wake_slot, wake_proc. rewrite (bool_decide_eq_false_2 (cur s = Some i)) by done.
    destruct (bool_decide (p_state p = SLEEPING) && bool_decide (p_chan p = ch)); cbn [whenM].
    + rewrite (bind_run _ _ _ _ _ (modp_run (upd_held _ t) i p _ Hp)).
      rewrite (release_run (LProc i) (k_held s)) by done. unfold t. ret_eq.
    + rewrite bind_ret_l, (release_run (LProc i) (k_held s)) by done.
      rewrite list_insert_id by done. unfold t. ret_eq.
Qed.

(** [kkill] marks the process and wakes it if it sleeps. *)
Definition kill_proc (p : proc) : proc :=
  let p1 := set_p_killed 1 p in
  if bool_decide (p_state p = SLEEPING) then set_p_state RUNNABLE p1 else p1.
Definition has_pid (pid : Z) (p : proc) : bool := p_pid p =? pid.

Lemma scan_skip {A} (body : nat → K (option A)) js s :
  (∀ j, j ∈ js → body j s = Ret None s) → for_list js body s = Ret None s.
Proof.
  intros H. induction js as [|j js IH]; cbn [for_list]; [done|].
  rewrite (bind_run _ _ _ _ _ (H j ltac:(set_solver))). apply IH. set_solver.
Qed.

(** A scan of the table that stops at the first slot that satisfies [f]. *)
Lemma scan_slots {A} (body : nat → K (option A)) (f : proc → bool) s :
  length (k_procs s) = NPROC →
  (∀ j p, k_procs s !! j = Some p → f p = false → body j s = Ret None s) →
  for_list slots body s =
    match find_index f (k_procs s) with
    | Some i => (r ← body i; match r with
                   | Some a => ret (Some a)
                   | None => for_list (seq (S i) (NPROC - S i)) body end) s
    | None => Ret None s
    end.
Proof.
  intros Hlen Hb. unfold slots. destruct (find_index f (k_procs s)) as [i|] eqn:E.
  - apply find_index_Some in E as [(p & Hp & _) Hlt]. pose proof (lookup_lt_Some _ _ _ Hp).
    rewrite (seq_split NPROC i) by lia. rewrite (for_list_app _ _ _ s s); [done|].
    apply scan_skip. intros j Hj%elem_of_seq.
    destruct (lookup_lt_is_Some_2 (k_procs s) j) as [q Hq]; [lia|].
    apply (Hb j q Hq), (Hlt j); [lia|done].
  - apply scan_skip. intros j Hj%elem_of_seq.
    destruct (lookup_lt_is_Some_2 (k_procs s) j) as [q Hq]; [lia|].
    rewrite find_index_None in E. eauto.
Qed.

Lemma kkill_run pid s :
  length (k_procs s) = NPROC → procs_free s →
  kkill pid s =
    match find_index (has_pid pid) (k_procs s) with
    | Some i => Ret 0 (upd_procs (alter kill_proc i) s)
    | None => Ret (-1) s
    end.
Proof.
  intros Hlen Hf. unfold kkill. unfold bind at 1.
  rewrite (scan_slots _ (has_pid pid) s Hlen).
  2: { intros j p Hp Hn. rewrite (bind_run _ _ _ _ _ (acquire_run _ _ (Hf j))).
       rewrite (bind_run _ _ _ _ _ (getp_run (upd_held _ s) j p Hp)).
       unfold has_pid in Hn. rewrite Hn.
       rewrite (bind_run _ _ _ _ _ (release_run (LProc j) (k_held s) (upd_held _ s) eq_refl)).
       ret_eq. }
  destruct (find_index (has_pid pid) (k_procs s)) as [i|] eqn:E; [|done].
  apply find_index_Some in E as [(p & Hp & Hpid) _]. unfold has_pid in Hpid.
  rewrite (bind_run _ _ _ (Some 0) (upd_procs (alter kill_proc i) s)); [done|].
  rewrite (bind_run _ _ _ _ _ (acquire_run _ _ (Hf i))).
  rewrite (bind_run _ _ _ _ _ (getp_run (upd_held _ s) i p Hp)). rewrite Hpid.
  rewrite (bind_run _ _ _ _ _ (modp_run (upd_held _ s) i p _ Hp)).
  set (s1 := set_k_procs _ _).
  assert (Hp1 : k_procs s1 !! i = Some (set_p_killed 1 p))
    by (apply list_lookup_insert_eq; eauto using lookup_lt_Some).
  rewrite (upd_procs_insert s i p) by done. unfold kill_proc.
  case_bool_decide; cbn [whenM].
  - rewrite (bind_run _ _ _ _ _ (modp_run s1 i _ _ Hp1)).
    rewrite (bind_run _ _ _ _ _ (release_run (LProc i) (k_held s) (set_k_procs _ s1) eq_refl)).
    unfold s1. kcbn. rewrite list_insert_insert_eq. ret_eq.
  - rewrite bind_ret_l.
    rewrite (bind_run _ _ _ _ _ (release_run (LProc i) (k_held s) s1 eq_refl)).
    unfold s1. ret_eq.
Qed.

(** ** The timer tick *)

Lemma timer_account_run i p s :
  cur s = Some i → k_procs s !! i = Some p → p_state p = RUNNING →
  timer_account s = Ret tt (proc_set i (tick_proc p) s).
Proof.
  intros Hc Hp Hr. unfold timer_account. rewrite bind_gets, Hc.
  rewrite (bind_run _ _ _ _ _ (getp_run _ _ _ Hp)), bool_decide_eq_true_2 by done.
  cbn [whenM]. rewrite (bind_run _ _ _ _ _ (modp_set _ _ _ _ Hp)).
  set (p1 := set_p_ticks_used _ p). pose proof (proc_set_lookup i p1 p s Hp) as H1.
  rewrite (bind_run _ _ _ _ _ (getp_run _ _ _ H1)). unfold tick_proc. fold p1.
  destruct ((p_priority p1 =? 0) && (5 <=? p_ticks_used p1));
    [|destruct ((p_priority p1 =? 1) && (10 <=? p_ticks_used p1)); [|done]].
  all: rewrite (bind_run _ _ _ _ _ (modp_set _ _ _ _ H1)), proc_set_set;
    rewrite (modp_set i _ _ _ (proc_set_lookup i _ p s Hp)); by rewrite proc_set_set.
Qed.

(** An interrupt with no current process accounts nothing. *)
Lemma timer_account_idle s : cur s = None → timer_account s = Ret tt s.
Proof. intros H. unfold timer_account. by rewrite bind_gets, H. Qed.

Lemma tick_proc_state p : p_state (tick_proc p) = p_state p.
Proof. unfold tick_proc. repeat case_match; by destruct p. Qed.

(** A preempted process: demoted if its quantum is used up, RUNNABLE, and its
    lock handed to the scheduler. *)
Lemma timer_tick_swtch i p s :
  cur s = Some i → k_held s = [] → k_procs s !! i = Some p → p_state p = RUNNING →
  timer_tick s =
    Swtch (proc_set i (set_p_state RUNNABLE (tick_proc p)) (set_k_held [LProc i] s))
      (λ s', release (LProc i) (set_k_intr (k_intr s) s')).
Proof.
  intros Hc Hh Hp Hr. unfold timer_tick.
  rewrite (bind_run _ _ _ _ _ (timer_account_run i p s Hc Hp Hr)).
  rewrite (yield_swtch i (tick_proc p)); [|done|done|by eapply proc_set_lookup].
  f_equal. unfold proc_set. kcbn. by rewrite list_insert_insert_eq.
Qed.

(** ** Properties *)

Lemma lookup_imap_some {A B} (f : nat → A → B) (l : list A) i x :
  l !! i = Some x → imap f l !! i = Some (f i x).
Proof. intros H. by rewrite list_lookup_imap, H. Qed.


Definition ticks_sleeper : kstate :=
  set_k_held [LTicks] (set_k_cpus (<[0 := Some 2]> (k_cpus kstate0))%nat
    (set_k_procs (<[2 := set_p_state RUNNING proc0]> (k_procs kstate0))%nat kstate0)).


(** [kkill(pid)] finds the first slot with that pid, marks it killed and makes
    it RUNNABLE if it was asleep (so that it notices), returns 0, and changes
    nothing else; when no slot has the pid it returns -1 and changes nothing. *)
Theorem kkill_spec (s : kstate) (pid : Z) (Hlen : length (k_procs s) = NPROC)
    (Hfree : procs_free s) :
  (∃ i p, k_procs s !! i = Some p ∧ p_pid p = pid ∧
     (∀ j q, (j < i)%nat → k_procs s !! j = Some q → p_pid q ≠ pid) ∧
     kkill pid s = Ret 0 (proc_set i
       (if bool_decide (p_state p = SLEEPING) then set_p_state RUNNABLE (set_p_killed 1 p)
        else set_p_killed 1 p) s)) ∨
  ((∀ j q, k_procs s !! j = Some q → p_pid q ≠ pid) ∧ kkill pid s = Ret (-1) s).
Proof.
  rewrite (kkill_run pid s Hlen Hfree).
  destruct (find_index (has_pid pid) (k_procs s)) as [i|] eqn:E.
  - apply find_index_Some in E as [(p & Hp & Hpid%Z.eqb_eq) Hlt]. left. exists i, p.
    split; [done|]. split; [done|]. split; [|by rewrite (upd_procs_insert s i p)].
    intros j q Hj Hq. by apply Z.eqb_neq, (Hlt j q).
  - right. split; [|done]. rewrite find_index_None in E.
    intros j q Hq. by apply Z.eqb_neq, (E j q).
Qed.

Lemma kkill_spec_witness : kkill 7 kstate0 = Ret (-1) kstate0.
Proof.
  destruct (kkill_spec kstate0 7 eq_refl) as [(i & p & Hp & Hpid & _)|[_ H]];
    [intros i Hi; by apply not_elem_of_nil in Hi| |exact H].
  exfalso. apply lookup_replicate_1 in Hp as [-> _]. discriminate Hpid.
Defined.
