(* ===== verification/Mlfq.v ===== *)
(** * The multi-level feedback queue policy

    What [scheduler] (proc.c) and the demotion rule of [usertrap] (trap.c)
    amount to as a policy: which process is chosen, how a process moves down
    the three lanes, and what a hart does over many rounds of a CPU-bound
    workload.  [cpu_round] composes the code of Sched.v: one pass of the
    scheduler, the process it switches to running until the next timer
    interrupt, and the switch back. *)
From Stdlib Require Import ZArith Lia.
From stdpp Require Import base list gmap numbers strings.
From S2P Require Import Prelude Machine State Sched.
Local Open Scope Z_scope.
Local Open Scope kernel_scope.

(** ** One round of one hart *)

(** The rest of [yield] after the switch into a process that was preempted in
    [usertrap], where interrupts are off. *)
Definition resumed (i : nat) : K unit :=
  modify (set_k_intr false) ;; release (LProc i).

Definition cpu_round (s : kstate) : option kstate :=
  match scheduler_iter s with
  | Ret _ s' => Some s'
  | Swtch s1 kS =>
      match cur s1 with
      | None => None
      | Some i =>
          match resumed i s1 with
          | Ret _ s2 =>
              match timer_tick s2 with
              | Swtch s3 _ => match kS s3 with Ret _ s4 => Some s4 | _ => None end
              | _ => None
              end
          | _ => None
          end
      end
  | _ => None
  end.

Fixpoint cpu_rounds (n : nat) (s : kstate) : option kstate :=
  match n with
  | O => Some s
  | S n' => match cpu_round s with Some s' => cpu_rounds n' s' | None => None end
  end.

(** The scheduler's own hart: it holds no lock and runs no process. *)
Definition idle_hart (s : kstate) : Prop :=
  length (k_procs s) = NPROC ∧ k_held s = [] ∧ (k_hart s < length (k_cpus s))%nat.

(** The effect of a round on the process table. *)
Definition round_procs (l : list proc) : list proc :=
  match pick l with Some i => alter tick_proc i l | None => l end.

(** ** What [pick] chooses *)

Definition lane_ok (p : proc) : Prop := 0 ≤ p_priority p ≤ 2.

Lemma pick_None l :
  Forall lane_ok l → pick l = None → ∀ i p, l !! i = Some p → p_state p ≠ RUNNABLE.
Proof.
  unfold pick. intros Hok H i p Hp Hr.
  destruct (find_index (runnable_at 0) l) eqn:E0; [done|].
  destruct (find_index (runnable_at 1) l) eqn:E1; [done|].
  rewrite find_index_None in E0, E1, H.
  specialize (E0 _ _ Hp). specialize (E1 _ _ Hp). specialize (H _ _ Hp).
  unfold runnable_at in *. rewrite bool_decide_eq_true_2 in * by done.
  eapply Forall_lookup_1 in Hok as [??]; [|exact Hp]. simpl in *. lia.
Qed.

Lemma pick_Some l i :
  pick l = Some i → ∃ p, l !! i = Some p ∧ p_state p = RUNNABLE ∧ lane_ok p ∧
    ∀ j q, l !! j = Some q → p_state q = RUNNABLE → lane_ok q →
      p_priority p < p_priority q ∨ (p_priority p = p_priority q ∧ (i ≤ j)%nat).
Proof.
  assert (∀ pr, 0 ≤ pr ≤ 2 → find_index (runnable_at pr) l = Some i →
    (∀ pr' j q, 0 ≤ pr' < pr → l !! j = Some q → runnable_at pr' q = false) →
    ∃ p, l !! i = Some p ∧ p_state p = RUNNABLE ∧ lane_ok p ∧
    ∀ j q, l !! j = Some q → p_state q = RUNNABLE → lane_ok q →
      p_priority p < p_priority q ∨ (p_priority p = p_priority q ∧ (i ≤ j)%nat)) as Hlane.
  { intros pr Hpr Hf Hlow. apply find_index_Some in Hf as [(p & Hp & Hr) Hlt].
    unfold runnable_at in Hr. apply andb_prop in Hr as [Hr%bool_decide_eq_true_1 Hpp%Z.eqb_eq].
    exists p. split; [done|]. split; [done|]. split; [unfold lane_ok; lia|].
    intros j q Hq Hqr [Hq0 Hq2].
    destruct (Z_lt_ge_dec (p_priority q) pr) as [Hl|Hl].
    - specialize (Hlow (p_priority q) j q ltac:(lia) Hq). unfold runnable_at in Hlow.
      by rewrite bool_decide_eq_true_2, Z.eqb_refl in Hlow.
    - destruct (decide (p_priority q = pr)) as [Heq|]; [right|left; lia].
      split; [lia|]. destruct (decide (i ≤ j)%nat); [done|].
      specialize (Hlt j q ltac:(lia) Hq). unfold runnable_at in Hlt.
      by rewrite bool_decide_eq_true_2, Heq, Z.eqb_refl in Hlt. }
  unfold pick. intros H.
  destruct (find_index (runnable_at 0) l) as [i0|] eqn:E0.
  { simplify_eq. apply (Hlane 0); [lia|done|]. intros; lia. }
  rewrite find_index_None in E0.
  destruct (find_index (runnable_at 1) l) as [i1|] eqn:E1.
  { simplify_eq. apply (Hlane 1); [lia|done|]. intros pr' j q ??.
    replace pr' with 0 by lia. eauto. }
  rewrite find_index_None in E1. apply (Hlane 2); [lia|done|]. intros pr' j q ??.
  assert (pr' = 0 ∨ pr' = 1) as [-> | ->] by lia; eauto.
Qed.

(** C15: one pass of [scheduler] switches to the RUNNABLE process that is first in
    the order (lane, slot), with its state RUNNING, its lock held and [c->proc]
    set; when the process gives the CPU back with its lock held, the pass clears
    [c->proc], releases that lock and returns.  It switches to nobody only when
    no process is RUNNABLE. *)
Theorem scheduler_picks_best (s : kstate) (Hidle : idle_hart s)
    (Hlanes : Forall lane_ok (k_procs s)) :
  (∃ i p k, k_procs s !! i = Some p ∧ p_state p = RUNNABLE ∧
     (∀ j q, k_procs s !! j = Some q → p_state q = RUNNABLE →
        p_priority p < p_priority q ∨ (p_priority p = p_priority q ∧ (i ≤ j)%nat)) ∧
     scheduler_iter s = Swtch (dispatched i p (set_k_intr false s)) k ∧
     ∀ s', k_held s' = [LProc i] →
       k s' = Ret tt (set_k_held [] (set_k_cpus (<[k_hart s' := None]> (k_cpus s')) s'))) ∨
  ((∀ j q, k_procs s !! j = Some q → p_state q ≠ RUNNABLE) ∧
   scheduler_iter s = Ret tt (set_k_intr false s)).
Proof.
  destruct Hidle as (Hlen & Hh & _).
  assert (procs_free s) as Hf by (intros i; rewrite Hh; set_solver).
  destruct (pick (k_procs s)) as [i|] eqn:E; [left|right].
  - destruct (pick_Some _ _ E) as (p & Hp & Hr & _ & Hmin).
    destruct (scheduler_iter_swtch i p s Hlen Hf E Hp) as (k & Hk & Hres).
    exists i, p, k. repeat split; try done.
    + intros j q Hq Hqr. eapply Hmin; eauto. by eapply Forall_lookup_1 in Hlanes.
    + intros s' Hs'. rewrite Hres. by apply after_run_run.
  - split; [by apply pick_None|]. by apply scheduler_iter_idle.
Qed.

Definition two_runnable : kstate :=
  set_k_procs (<[3 := set_p_priority 1 (set_p_state RUNNABLE proc0)]>
    (<[5 := set_p_state RUNNABLE proc0]> (k_procs kstate0)))%nat kstate0.

Lemma scheduler_picks_best_witness :
  ∃ k, scheduler_iter two_runnable =
    Swtch (dispatched 5 (set_p_state RUNNABLE proc0) (set_k_intr false two_runnable)) k.
Proof.
  assert (idle_hart two_runnable) as H1 by (vm_compute; repeat split; lia).
  assert (Forall lane_ok (k_procs two_runnable)) as H2.
  { apply (Forall_insert lane_ok); [apply (Forall_insert lane_ok)|]; [|vm_compute; split; congruence..].
    apply Forall_replicate. vm_compute. split; congruence. }
  destruct (scheduler_picks_best two_runnable H1 H2) as
    [(i & p & k & Hp & Hr & Hmin & Hk & _)|[Hno _]].
  - destruct (Hmin 5%nat (set_p_state RUNNABLE proc0) eq_refl eq_refl) as [H|[H Hi]].
    + exfalso. do 6 (destruct i as [|i]; [vm_compute in Hp; injection Hp as <-; vm_compute in Hr, H; congruence|]).
      apply lookup_replicate_1 in Hp as [-> _]. vm_compute in Hr. congruence.
    + do 5 (destruct i as [|i]; [vm_compute in Hp; injection Hp as <-; vm_compute in Hr, H; congruence|]).
      destruct i as [|i]; [|lia]. vm_compute in Hp. injection Hp as <-. eauto.
  - exfalso. by apply (Hno 5%nat (set_p_state RUNNABLE proc0)).
Defined.

(** ** Demotion *)

(** The stopwatch stays below the quantum of the lane. *)
Definition mlfq_ok (p : proc) : Prop :=
  (p_priority p = 0 ∧ 0 ≤ p_ticks_used p < 5) ∨
  (p_priority p = 1 ∧ 0 ≤ p_ticks_used p < 10) ∨
  p_priority p = 2.

Ltac mlfq_cases H :=
  destruct H as [[? ?]|[[? ?]|?]].

Lemma tick_lane0 p : p_priority p = 0 → 0 ≤ p_ticks_used p < 5 →
  tick_proc p = if p_ticks_used p =? 4
                then set_p_ticks_used 0 (set_p_priority 1 p)
                else set_p_ticks_used (p_ticks_used p + 1) p.
Proof.
  intros Hp Ht. unfold tick_proc. rewrite i32_small by lia.
  destruct p; simpl in *. subst. simpl.
  repeat case_match; try reflexivity; exfalso; lia.
Qed.

Lemma tick_lane1 p : p_priority p = 1 → 0 ≤ p_ticks_used p < 10 →
  tick_proc p = if p_ticks_used p =? 9
                then set_p_ticks_used 0 (set_p_priority 2 p)
                else set_p_ticks_used (p_ticks_used p + 1) p.
Proof.
  intros Hp Ht. unfold tick_proc. rewrite i32_small by lia.
  destruct p; simpl in *. subst. simpl.
  repeat case_match; try reflexivity; exfalso; lia.
Qed.

Lemma tick_lane2 p : p_priority p = 2 →
  tick_proc p = set_p_ticks_used (i32 (p_ticks_used p + 1)) p.
Proof. intros Hp. unfold tick_proc. destruct p; simpl in *. by subst. Qed.

Lemma tick_mlfq_ok p : mlfq_ok p → mlfq_ok (tick_proc p).
Proof.
  intros H. unfold mlfq_ok. mlfq_cases H.
  - rewrite tick_lane0 by done. destruct (Z.eqb_spec (p_ticks_used p) 4); destruct p; simpl in *; lia.
  - rewrite tick_lane1 by done. destruct (Z.eqb_spec (p_ticks_used p) 9); destruct p; simpl in *; lia.
  - rewrite tick_lane2 by done. destruct p; simpl in *; lia.
Qed.

(** Ticks the process has left before it reaches the last lane. *)
Definition remaining (p : proc) : nat :=
  if bool_decide (p_state p = RUNNABLE) then
    if p_priority p =? 0 then Z.to_nat (15 - p_ticks_used p)
    else if p_priority p =? 1 then Z.to_nat (10 - p_ticks_used p) else 0
  else 0.

Lemma remaining_tick p :
  mlfq_ok p → p_state p = RUNNABLE → remaining (tick_proc p) = pred (remaining p).
Proof.
  intros H Hr. unfold remaining. rewrite tick_proc_state, bool_decide_eq_true_2 by done.
  mlfq_cases H.
  - rewrite tick_lane0 by done. destruct (Z.eqb_spec (p_ticks_used p) 4);
      destruct p; simpl in *; subst; simpl; lia.
  - rewrite tick_lane1 by done. destruct (Z.eqb_spec (p_ticks_used p) 9);
      destruct p; simpl in *; subst; simpl; lia.
  - rewrite tick_lane2 by done. destruct p; simpl in *; by subst.
Qed.

Lemma remaining_0 p :
  mlfq_ok p → p_state p = RUNNABLE → remaining p = O ↔ p_priority p = 2.
Proof.
  intros H Hr. unfold remaining. rewrite bool_decide_eq_true_2 by done.
  mlfq_cases H; repeat case_match; lia.
Qed.

Lemma iter_tick_lane2 n p :
  p_priority p = 2 → p_ticks_used p = 0 → Z.of_nat n < 2147483648 →
  Nat.iter n tick_proc p = set_p_ticks_used (Z.of_nat n) p.
Proof.
  intros Hp H0 Hn. induction n as [|n IH]; [destruct p; simpl in *; by subst|].
  rewrite Nat.iter_succ, IH by lia. rewrite tick_lane2 by (destruct p; done).
  destruct p; unfold set_p_ticks_used; simpl in *. rewrite i32_small by lia. f_equal; lia.
Qed.

(** The process after [n] ticks, from lane 0 with its stopwatch at 0. *)
Definition demoted (n : nat) (p : proc) : proc :=
  let t := Z.of_nat n in
  if t <? 5 then set_p_ticks_used t p
  else if t <? 15 then set_p_ticks_used (t - 5) (set_p_priority 1 p)
  else set_p_ticks_used (t - 15) (set_p_priority 2 p).

Lemma iter_tick n p :
  p_priority p = 0 → p_ticks_used p = 0 → Z.of_nat n < 2147483648 →
  Nat.iter n tick_proc p = demoted n p.
Proof.
  intros Hlane Hstart Hn.
  assert (∀ m, (m ≤ 15)%nat → Nat.iter m tick_proc p = demoted m p) as Hsmall.
  { intros m Hm. destruct p; simpl in Hlane, Hstart; subst.
    do 16 (destruct m as [|m]; [reflexivity|]). lia. }
  destruct (le_lt_dec n 15) as [Hle|Hgt]; [auto|].
  assert (Nat.iter n tick_proc p = Nat.iter (n - 15) tick_proc (Nat.iter 15 tick_proc p)) as ->
    by (rewrite <- Nat.iter_add; f_equal; lia).
  rewrite (Hsmall 15%nat) by lia. unfold demoted.
  change (Z.of_nat 15 <? 5) with false. change (Z.of_nat 15 <? 15) with false. cbv iota zeta.
  rewrite iter_tick_lane2 by (first [by destruct p | lia]).
  destruct (Z.ltb_spec (Z.of_nat n) 5); [lia|]. destruct (Z.ltb_spec (Z.of_nat n) 15); [lia|].
  destruct p; unfold set_p_ticks_used, set_p_priority; simpl. f_equal; lia.
Qed.

Lemma timer_accounts_run n k i p s :
  cur s = Some i → k_procs s !! i = Some p → p_state p = RUNNING →
  for_each (seq k n) (λ _, timer_account) s = Ret tt (proc_set i (Nat.iter n tick_proc p) s).
Proof.
  revert k p s. induction n as [|n IH]; intros k p s Hc Hp Hr; cbn [seq for_each].
  - unfold proc_set. simpl. rewrite list_insert_id by done. by rewrite set_k_procs_id.
  - rewrite (bind_run _ _ _ _ _ (timer_account_run i p s Hc Hp Hr)).
    rewrite (IH _ (tick_proc p)); [|done|by eapply proc_set_lookup|by rewrite tick_proc_state].
    by rewrite proc_set_set, Nat.iter_succ_r.
Qed.

(** C17: the demotion rule of [usertrap].  A running process that starts in lane 0
    with its stopwatch at 0 is, after [n] timer ticks, in lane 0 for the first 5,
    in lane 1 for the next 10, and in lane 2 from the 15th on; nothing else of it
    or of the kernel changes, and it is never promoted.  In lane 2 the stopwatch
    counts on without being reset, so the bound on [n] is the range of [int]. *)
Theorem demotion_schedule (s : kstate) (i : nat) (p : proc) (n : nat)
    (Hcur : cur s = Some i) (Hp : k_procs s !! i = Some p) (Hrun : p_state p = RUNNING)
    (Hlane : p_priority p = 0) (Hstart : p_ticks_used p = 0) (Hn : Z.of_nat n < 2147483648) :
  for_each (seq 0 n) (λ _, timer_account) s = Ret tt (proc_set i (demoted n p) s).
Proof. rewrite (timer_accounts_run n 0 i p) by done. by rewrite iter_tick. Qed.

Definition one_running : kstate :=
  set_k_cpus (<[0 := Some 2]> (k_cpus kstate0))%nat
    (set_k_procs (<[2 := set_p_state RUNNING proc0]> (k_procs kstate0))%nat kstate0).

Lemma demotion_schedule_witness :
  for_each (seq 0 7) (λ _, timer_account) one_running =
    Ret tt (proc_set 2 (set_p_ticks_used 2 (set_p_priority 1 (set_p_state RUNNING proc0))) one_running).
Proof.
  apply (demotion_schedule one_running 2 (set_p_state RUNNING proc0) 7);
    first [reflexivity | lia].
Defined.

(** ** Rounds *)

Lemma idle_procs_free s : idle_hart s → procs_free s.
Proof. intros (_ & Hh & _) i. rewrite Hh. set_solver. Qed.

Lemma tick_set_state st p : tick_proc (set_p_state st p) = set_p_state st (tick_proc p).
Proof.
  unfold tick_proc.
  cbn [p_priority p_ticks_used set_p_ticks_used set_p_state set_p_priority].
  by repeat case_match.
Qed.

Lemma set_state_same p : set_p_state (p_state p) p = p.
Proof. by destruct p. Qed.

(** A round leaves the hart idle again and acts on the table as [round_procs]. *)
Lemma cpu_round_run s :
  idle_hart s →
  ∃ s', cpu_round s = Some s' ∧ idle_hart s' ∧ k_procs s' = round_procs (k_procs s).
Proof.
  intros Hi. pose proof (idle_procs_free s Hi) as Hf. destruct Hi as (Hlen & Hh & Hcpu).
  unfold cpu_round, round_procs. destruct (pick (k_procs s)) as [i|] eqn:E.
  2: { rewrite scheduler_iter_idle by done. by eexists. }
  destruct (pick_Some _ _ E) as (p & Hp & Hr & _).
  destruct (scheduler_iter_swtch i p s Hlen Hf E Hp) as (k & -> & Hk).
  assert (cur (dispatched i p (set_k_intr false s)) = Some i) as Hcur.
  { unfold cur, dispatched. kcbn. by rewrite list_lookup_insert_eq. }
  rewrite Hcur. unfold resumed. rewrite bind_modify.
  rewrite (release_run (LProc i) (k_held s)) by done.
  set (s2 := set_k_held _ _).
  assert (k_procs s2 !! i = Some (set_p_state RUNNING p)) as Hp2
    by (apply list_lookup_insert_eq; eauto using lookup_lt_Some).
  rewrite (timer_tick_swtch i (set_p_state RUNNING p) s2) by done.
  rewrite Hk. rewrite (after_run_run i _ []) by done. eexists. split; [done|]. split.
  - unfold idle_hart, s2, proc_set, dispatched. kcbn. by rewrite !length_insert.
  - unfold s2, proc_set, dispatched. kcbn. rewrite (list_alter_insert _ _ _ _ Hp), list_insert_insert_eq.
    f_equal. rewrite tick_set_state. rewrite <- (set_state_same (tick_proc p)) at 2.
    rewrite tick_proc_state, Hr. by destruct (tick_proc p).
Qed.

Lemma cpu_rounds_run n s :
  idle_hart s →
  ∃ s', cpu_rounds n s = Some s' ∧ idle_hart s' ∧
        k_procs s' = Nat.iter n round_procs (k_procs s).
Proof.
  revert s. induction n as [|n IH]; intros s Hi; [by exists s|].
  destruct (cpu_round_run s Hi) as (s1 & H1 & Hi1 & Hp1). cbn [cpu_rounds]. rewrite H1.
  destruct (IH s1 Hi1) as (s2 & H2 & Hi2 & Hp2). exists s2. split; [done|]. split; [done|].
  by rewrite Hp2, Hp1, Nat.iter_succ_r.
Qed.

(** ** Progress: the upper lanes drain *)

Definition total (l : list proc) : nat := sum_list_with remaining l.

Lemma sum_list_with_alter {A} (f : A → nat) (g : A → A) (l : list A) i x :
  l !! i = Some x → (sum_list_with f (alter g i l) + f x = sum_list_with f l + f (g x))%nat.
Proof.
  revert i. induction l as [|y l IH]; intros [|i] H; simplify_eq/=; [lia|].
  specialize (IH _ H). lia.
Qed.

Lemma total_0 l : total l = O ↔ Forall (λ p, remaining p = O) l.
Proof.
  unfold total. induction l as [|p l IH]; simpl; [split; auto|].
  rewrite Forall_cons, <- IH. lia.
Qed.

Lemma mlfq_lane_ok p : mlfq_ok p → lane_ok p.
Proof. unfold mlfq_ok, lane_ok. lia. Qed.

Lemma total_le l : Forall mlfq_ok l → (total l ≤ 15 * length l)%nat.
Proof.
  unfold total. induction 1 as [|p l Hp _ IH]; simpl; [lia|].
  assert (remaining p ≤ 15)%nat; [|lia].
  unfold remaining. mlfq_cases Hp; repeat case_match; lia.
Qed.

(** A process that still has ticks to use is preferred to one in the last lane. *)
Lemma pick_remaining l :
  Forall mlfq_ok l → total l ≠ O →
  ∃ i p, pick l = Some i ∧ l !! i = Some p ∧ p_state p = RUNNABLE ∧ remaining p ≠ O.
Proof.
  intros Hok Ht. destruct (pick l) as [i|] eqn:E.
  - destruct (pick_Some _ _ E) as (p & Hp & Hr & _ & Hmin). exists i, p.
    repeat split; try done. intros H0. apply Ht, total_0, Forall_lookup_2.
    intros j q Hq. destruct (decide (p_state q = RUNNABLE)) as [Hqr|Hqr].
    2: { unfold remaining. by rewrite bool_decide_eq_false_2. }
    pose proof (Forall_lookup_1 _ _ _ _ Hok Hp) as Hokp.
    pose proof (Forall_lookup_1 _ _ _ _ Hok Hq) as Hokq.
    apply (remaining_0 p Hokp Hr) in H0. apply remaining_0; [done..|].
    pose proof (mlfq_lane_ok q Hokq) as [? ?].
    destruct (Hmin j q Hq Hqr ltac:(by apply mlfq_lane_ok)) as [?|[? _]]; lia.
  - exfalso. apply Ht, total_0, Forall_lookup_2. intros j q Hq.
    unfold remaining. rewrite bool_decide_eq_false_2; [done|].
    refine (pick_None l _ E j q Hq). eapply Forall_impl; [exact Hok|apply mlfq_lane_ok].
Qed.

Lemma round_mlfq_ok l : Forall mlfq_ok l → Forall mlfq_ok (round_procs l).
Proof.
  intros H. unfold round_procs. destruct (pick l) as [i|] eqn:E; [|done].
  destruct (pick_Some _ _ E) as (p & Hp & _). rewrite (list_alter_insert _ _ _ _ Hp).
  apply Forall_insert; [done|]. apply tick_mlfq_ok. by eapply Forall_lookup_1 in H.
Qed.

Lemma round_total l : Forall mlfq_ok l → total (round_procs l) = pred (total l).
Proof.
  intros Hok. destruct (decide (total l = O)) as [H0|H0].
  - unfold round_procs. destruct (pick l) as [i|] eqn:E; [|lia].
    destruct (pick_Some _ _ E) as (p & Hp & Hr & _).
    pose proof (sum_list_with_alter remaining tick_proc l i p Hp) as Hs.
    pose proof (Forall_lookup_1 _ _ _ _ Hok Hp) as Hokp.
    rewrite remaining_tick in Hs by done.
    pose proof (proj1 (total_0 l) H0) as Hz. eapply Forall_lookup_1 in Hz; [|exact Hp].
    simpl in Hz. unfold total in *. lia.
  - destruct (pick_remaining l Hok H0) as (i & p & E & Hp & Hr & Hn).
    unfold round_procs. rewrite E.
    pose proof (sum_list_with_alter remaining tick_proc l i p Hp) as Hs.
    pose proof (Forall_lookup_1 _ _ _ _ Hok Hp) as Hokp.
    rewrite remaining_tick in Hs by done. unfold total in *. lia.
Qed.

Lemma rounds_total n l :
  Forall mlfq_ok l →
  Forall mlfq_ok (Nat.iter n round_procs l) ∧
  total (Nat.iter n round_procs l) = (total l - n)%nat.
Proof.
  intros Hok. induction n as [|n [IH1 IH2]]; [simpl; split; [done|lia]|].
  rewrite Nat.iter_succ. split; [by apply round_mlfq_ok|].
  rewrite round_total by done. lia.
Qed.

(** C18: on one hart with a fixed set of CPU-bound processes, the two upper lanes
    drain: after at most 15 rounds per slot (960 in all), every round completing,
    every RUNNABLE process has used up its 5 ticks of lane 0 and 10 of lane 1 and
    is in lane 2.  So each of them has run. *)
Theorem upper_lanes_drain (s : kstate) (n : nat) (Hidle : idle_hart s)
    (Hok : Forall mlfq_ok (k_procs s)) (Hn : (15 * NPROC ≤ n)%nat) :
  ∃ s', cpu_rounds n s = Some s' ∧ idle_hart s' ∧
    ∀ i p, k_procs s' !! i = Some p → p_state p = RUNNABLE → p_priority p = 2.
Proof.
  destruct (cpu_rounds_run n s Hidle) as (s' & Hs' & Hi' & Hp').
  exists s'. split; [done|]. split; [done|]. intros i p Hp Hr.
  destruct (rounds_total n (k_procs s) Hok) as [Hok' Ht]. rewrite <- Hp' in Hok', Ht.
  pose proof (total_le _ Hok) as Hle. destruct Hidle as (Hlen & _). rewrite Hlen in Hle.
  assert (total (k_procs s') = O) as H0 by lia.
  apply total_0 in H0. pose proof (Forall_lookup_1 _ _ _ _ H0 Hp) as Hz. simpl in Hz.
  apply remaining_0 in Hz; [done| |done]. by eapply Forall_lookup_1 in Hok'.
Qed.

Lemma two_runnable_mlfq : Forall mlfq_ok (k_procs two_runnable).
Proof.
  apply (Forall_insert mlfq_ok); [apply (Forall_insert mlfq_ok)|];
    [apply Forall_replicate; left|left|right; left]; vm_compute; intuition congruence.
Qed.

Lemma upper_lanes_drain_witness :
  ∃ s', cpu_rounds 960 two_runnable = Some s' ∧
    ∀ i p, k_procs s' !! i = Some p → p_state p = RUNNABLE → p_priority p = 2.
Proof.
  destruct (upper_lanes_drain two_runnable 960) as (s' & H & _ & Hp);
    [vm_compute; repeat split; lia|apply two_runnable_mlfq|vm_compute; lia|eauto].
Defined.

(** ** Starvation in the last lane *)

Lemma pick_last_lane l i p :
  (∀ j q, l !! j = Some q → p_state q = RUNNABLE → p_priority q = 2) →
  l !! i = Some p → p_state p = RUNNABLE →
  ∃ k q, pick l = Some k ∧ (k ≤ i)%nat ∧ l !! k = Some q ∧ p_state q = RUNNABLE.
Proof.
  intros Hall Hp Hr. destruct (pick l) as [k|] eqn:E.
  - destruct (pick_Some _ _ E) as (q & Hq & Hqr & _ & Hmin). exists k, q.
    pose proof (Hall _ _ Hp Hr). pose proof (Hall _ _ Hq Hqr).
    destruct (Hmin i p Hp Hr ltac:(unfold lane_ok; lia)) as [?|[? ?]]; [lia|done].
  - exfalso. unfold pick in E.
    destruct (find_index (runnable_at 0) l); [done|]. destruct (find_index (runnable_at 1) l); [done|].
    rewrite find_index_None in E. specialize (E _ _ Hp). unfold runnable_at in E.
    by rewrite bool_decide_eq_true_2, (Hall _ _ Hp Hr) in E.
Qed.

(** Everything the starvation argument needs of the table, kept by a round. *)
Definition last_lane (i : nat) (l : list proc) : Prop :=
  (∀ j q, l !! j = Some q → p_state q = RUNNABLE → p_priority q = 2) ∧
  ∃ p, l !! i = Some p ∧ p_state p = RUNNABLE.

Lemma round_last_lane i l :
  last_lane i l →
  last_lane i (round_procs l) ∧ ∀ j, (i < j)%nat → round_procs l !! j = l !! j.
Proof.
  intros [Hall (p & Hp & Hr)].
  destruct (pick_last_lane l i p Hall Hp Hr) as (k & q & E & Hk & Hq & Hqr).
  unfold round_procs. rewrite E, (list_alter_insert _ _ _ _ Hq).
  assert (k < length l)%nat as Hkl by eauto using lookup_lt_Some.
  assert (p_priority (tick_proc q) = 2) as Hq2.
  { rewrite tick_lane2 by eauto. cbn. eauto. }
  split; [split|].
  - intros j r. rewrite list_lookup_insert_full by done. case_decide; intros; simplify_eq; eauto.
  - destruct (decide (k = i)) as [->|Hne].
    + exists (tick_proc q). rewrite list_lookup_insert_eq by done. by rewrite tick_proc_state.
    + exists p. by rewrite list_lookup_insert_ne.
  - intros j Hj. by rewrite list_lookup_insert_ne by lia.
Qed.

(** C19: the last lane has no rotation.  [scheduler] restarts its scan at slot 0
    after every switch, so once the RUNNABLE processes are all in lane 2 (where
    [upper_lanes_drain] puts them) a CPU-bound process in slot [i] starves every
    process in a later slot: over any number of rounds of the hart the process
    in slot [j] is never dispatched and not one of its fields changes. *)
Theorem last_lane_starves (s : kstate) (i j n : nat) (p : proc) (Hidle : idle_hart s)
    (Hlast : ∀ k q, k_procs s !! k = Some q → p_state q = RUNNABLE → p_priority q = 2)
    (Hp : k_procs s !! i = Some p) (Hrun : p_state p = RUNNABLE) (Hij : (i < j)%nat) :
  ∃ s', cpu_rounds n s = Some s' ∧ k_procs s' !! j = k_procs s !! j.
Proof.
  destruct (cpu_rounds_run n s Hidle) as (s' & Hs' & _ & Hp').
  exists s'. split; [done|]. rewrite Hp'. clear Hp' Hs' s'.
  assert (last_lane i (k_procs s)) as Hl by (split; eauto). clear Hlast Hp Hrun p.
  cut (last_lane i (Nat.iter n round_procs (k_procs s)) ∧
       Nat.iter n round_procs (k_procs s) !! j = k_procs s !! j); [tauto|].
  induction n as [|n [IH1 IH2]]; [done|]. rewrite Nat.iter_succ.
  destruct (round_last_lane i _ IH1) as [H1 H2]. split; [done|]. by rewrite H2.
Qed.

Definition two_batch : kstate :=
  set_k_procs (<[3 := set_p_priority 2 (set_p_state RUNNABLE proc0)]>
    (<[5 := set_p_priority 2 (set_p_state RUNNABLE proc0)]> (k_procs kstate0)))%nat kstate0.

Lemma last_lane_starves_witness :
  ∃ s', cpu_rounds 1000 two_batch = Some s' ∧
    k_procs s' !! 5%nat = Some (set_p_priority 2 (set_p_state RUNNABLE proc0)).
Proof.
  apply (last_lane_starves two_batch 3 5 1000 (set_p_priority 2 (set_p_state RUNNABLE proc0)));
    [vm_compute; repeat split; lia| |reflexivity|reflexivity|lia].
  intros k q Hk Hr.
  do 6 (destruct k as [|k]; [vm_compute in Hk; injection Hk as <-; first [reflexivity | discriminate Hr]|]).
  apply lookup_replicate_1 in Hk as [-> _]. discriminate Hr.
Defined.
