(* ===== verification/Vm.v ===== *)
(** * kernel/vm.c

    Page tables and user memory.  A page table is the tree of pages in physical
    memory that [walk] follows, three levels of 512 eight-byte entries; user
    memory is the bytes of the pages its leaf entries point to.  The kernel
    buffers of [copyin], [copyinstr] and [copyout] are lists of bytes. *)
From Stdlib Require Import ZArith Lia.
From stdpp Require Import base list gmap numbers strings.
From S2P Require Import Prelude Machine KString State Kalloc.
Local Open Scope Z_scope.
Local Open Scope kernel_scope.

Section vm.
Context {L : Layout}.

(** ** Code *)

Definition load64 (a : Z) : K Z := gets (λ s, ld64 (k_mem s) a).
Definition store64 (a v : Z) : K unit := modmem (λ m, st64 m a v).

(** The loop of [walk], over the levels still to descend. *)
Fixpoint walk_levels (levels : list Z) (pagetable va : Z) (alloc : bool) : K Z :=
  match levels with
  | [] => ret (pagetable + 8 * PX 0 va)
  | level :: levels' =>
      let pte := pagetable + 8 * PX level va in
      v ← load64 pte;
      if negb (Z.land v PTE_V =? 0) then walk_levels levels' (PTE2PA v) va alloc
      else if negb alloc then ret 0
      else
        pg ← kalloc;
        if pg =? 0 then ret 0
        else
          modmem (λ m, memset m pg 0 PGSIZE) ;;
          store64 pte (Z.lor (PA2PTE pg) PTE_V) ;;
          walk_levels levels' pg va alloc
  end.
Definition walk (pagetable va : Z) (alloc : bool) : K Z :=
  if MAXVA <=? va then panic "walk" else walk_levels [2; 1] pagetable va alloc.

Definition walkaddr (pagetable va : Z) : K Z :=
  if MAXVA <=? va then ret 0 else
  pte ← walk pagetable va false;
  if pte =? 0 then ret 0 else
  v ← load64 pte;
  if Z.land v PTE_V =? 0 then ret 0 else
  if Z.land v PTE_U =? 0 then ret 0 else
  ret (PTE2PA v).

Fixpoint mappages_loop (fuel : nat) (pagetable a last pa perm : Z) : K Z :=
  match fuel with
  | O => nofuel
  | S f =>
      pte ← walk pagetable a true;
      if pte =? 0 then ret (-1) else
      v ← load64 pte;
      if negb (Z.land v PTE_V =? 0) then panic "mappages: remap" else
      store64 pte (Z.lor (Z.lor (PA2PTE pa) perm) PTE_V) ;;
      if a =? last then ret 0
      else mappages_loop f pagetable (u64 (a + PGSIZE)) last (u64 (pa + PGSIZE)) perm
  end.
Definition mappages (pagetable va size pa perm : Z) : K Z :=
  if negb (va mod PGSIZE =? 0) then panic "mappages: va not aligned" else
  if negb (size mod PGSIZE =? 0) then panic "mappages: size not aligned" else
  if size =? 0 then panic "mappages: size" else
  mappages_loop (Z.to_nat (size / PGSIZE)) pagetable va (u64 (va + size - PGSIZE)) pa perm.

Definition kvmmap (kpgtbl va pa sz perm : Z) : K unit :=
  r ← mappages kpgtbl va sz pa perm;
  if negb (r =? 0) then panic "kvmmap" else ret tt.

Definition uvmcreate : K Z :=
  pagetable ← kalloc;
  if pagetable =? 0 then ret 0
  else modmem (λ m, memset m pagetable 0 PGSIZE) ;; ret pagetable.

Fixpoint uvmunmap_loop (fuel : nat) (pagetable a stop : Z) (do_free : bool) : K unit :=
  if a <? stop then
    match fuel with
    | O => nofuel
    | S f =>
        pte ← walk pagetable a false;
        (if pte =? 0 then ret tt else
         v ← load64 pte;
         if Z.land v PTE_V =? 0 then ret tt else
         whenM do_free (kfree (PTE2PA v)) ;;
         store64 pte 0) ;;
        uvmunmap_loop f pagetable (u64 (a + PGSIZE)) stop do_free
    end
  else ret tt.
Definition uvmunmap (pagetable va npages : Z) (do_free : bool) : K unit :=
  if negb (va mod PGSIZE =? 0) then panic "uvmunmap: not aligned" else
  uvmunmap_loop (Z.to_nat npages) pagetable va (u64 (va + npages * PGSIZE)) do_free.

Definition uvmdealloc (pagetable oldsz newsz : Z) : K Z :=
  if oldsz <=? newsz then ret oldsz else
  whenM (PGROUNDUP newsz <? PGROUNDUP oldsz)
    (let npages := i32 ((PGROUNDUP oldsz - PGROUNDUP newsz) / PGSIZE) in
     uvmunmap pagetable (PGROUNDUP newsz) (u64 npages) true) ;;
  ret newsz.

Fixpoint uvmalloc_loop (fuel : nat) (pagetable a oldsz newsz xperm : Z) : K Z :=
  if a <? newsz then
    match fuel with
    | O => nofuel
    | S f =>
        mem ← kalloc;
        if mem =? 0 then uvmdealloc pagetable a oldsz ;; ret 0 else
        modmem (λ m, memset m mem 0 PGSIZE) ;;
        r ← mappages pagetable a PGSIZE mem (Z.lor (Z.lor PTE_R PTE_U) xperm);
        if negb (r =? 0) then
          kfree mem ;;
          uvmdealloc pagetable a oldsz ;;
          ret 0
        else uvmalloc_loop f pagetable (u64 (a + PGSIZE)) oldsz newsz xperm
    end
  else ret newsz.
Definition uvmalloc (pagetable oldsz newsz xperm : Z) : K Z :=
  if newsz <? oldsz then ret oldsz else
  let oldsz' := PGROUNDUP oldsz in
  uvmalloc_loop (Z.to_nat ((newsz - oldsz' + PGSIZE - 1) / PGSIZE)) pagetable oldsz' oldsz' newsz xperm.

(** The recursion of [freewalk] is three levels deep in a well-formed table:
    [fuel] is the number of levels below. *)
Fixpoint freewalk (fuel : nat) (pagetable : Z) : K unit :=
  match fuel with
  | O => nofuel
  | S f =>
      for_each (Z.of_nat <$> seq 0 512) (λ i,
        pte ← load64 (pagetable + 8 * i);
        if negb (Z.land pte PTE_V =? 0) &&
           (Z.land pte (Z.lor (Z.lor PTE_R PTE_W) PTE_X) =? 0) then
          freewalk f (PTE2PA pte) ;;
          store64 (pagetable + 8 * i) 0
        else if negb (Z.land pte PTE_V =? 0) then panic "freewalk: leaf"
        else ret tt) ;;
      kfree pagetable
  end.

Definition uvmfree (pagetable sz : Z) : K unit :=
  whenM (0 <? sz) (uvmunmap pagetable 0 (PGROUNDUP sz / PGSIZE) true) ;;
  freewalk 3 pagetable.

Fixpoint uvmcopy_loop (fuel : nat) (old new i sz : Z) : K Z :=
  if i <? sz then
    match fuel with
    | O => nofuel
    | S f =>
        let next := uvmcopy_loop f old new (u64 (i + PGSIZE)) sz in
        let err := uvmunmap new 0 (i / PGSIZE) true ;; ret (-1) in
        pte ← walk old i false;
        if pte =? 0 then next else
        v ← load64 pte;
        if Z.land v PTE_V =? 0 then next else
        let pa := PTE2PA v in
        let flags := PTE_FLAGS v in
        mem ← kalloc;
        if mem =? 0 then err else
        modmem (λ m, memmove m mem pa PGSIZE) ;;
        r ← mappages new i PGSIZE mem flags;
        if negb (r =? 0) then kfree mem ;; err
        else next
    end
  else ret 0.
Definition uvmcopy (old new sz : Z) : K Z :=
  uvmcopy_loop (Z.to_nat ((sz + PGSIZE - 1) / PGSIZE)) old new 0 sz.

Definition uvmclear (pagetable va : Z) : K unit :=
  pte ← walk pagetable va false;
  if pte =? 0 then panic "uvmclear" else
  v ← load64 pte;
  store64 pte (Z.land v (Z.lnot PTE_U)).

Definition ismapped (pagetable va : Z) : K bool :=
  pte ← walk pagetable va false;
  if pte =? 0 then ret false else
  v ← load64 pte;
  ret (negb (Z.land v PTE_V =? 0)).

Definition vmfault (pagetable va : Z) : K Z :=
  i ← myproc;
  p ← getp i;
  if p_sz p <=? va then ret 0 else
  let va := PGROUNDDOWN va in
  im ← ismapped pagetable va;
  if (im : bool) then ret 0 else
  mem ← kalloc;
  if mem =? 0 then ret 0 else
  modmem (λ m, memset m mem 0 PGSIZE) ;;
  r ← mappages (p_pagetable p) va PGSIZE mem (Z.lor (Z.lor PTE_W PTE_U) PTE_R);
  if negb (r =? 0) then kfree mem ;; ret 0
  else ret mem.

(** The bytes [l] stored from [a] on, and the [n] bytes from [a] on. *)
Fixpoint st_bytes (m : mem) (a : Z) (l : list Z) : mem :=
  match l with [] => m | b :: l' => st_bytes (st8 m a b) (a + 1) l' end.
Definition ld_bytes (m : mem) (a : Z) (n : nat) : list Z := bytes_at m a <$> seq 0 n.

(** [copyout]: [src] holds the [len] bytes to copy.  Each iteration but the
    first starts on a page, so [len + 1] iterations are enough. *)
Fixpoint copyout_loop (fuel : nat) (pagetable dstva : Z) (src : list Z) : K Z :=
  match src with
  | [] => ret 0
  | _ =>
      match fuel with
      | O => nofuel
      | S f =>
          let len := Z.of_nat (length src) in
          let va0 := PGROUNDDOWN dstva in
          if MAXVA <=? va0 then ret (-1) else
          pa ← walkaddr pagetable va0;
          pa0 ← (if pa =? 0 then vmfault pagetable va0 else ret pa);
          if pa0 =? 0 then ret (-1) else
          pte ← walk pagetable va0 false;
          if pte =? 0 then undef "copyout: *pte" else
          v ← load64 pte;
          if Z.land v PTE_W =? 0 then ret (-1) else
          let n := Z.to_nat (Z.min (PGSIZE - (dstva - va0)) len) in
          modmem (λ m, st_bytes m (pa0 + (dstva - va0)) (take n src)) ;;
          copyout_loop f pagetable (u64 (va0 + PGSIZE)) (drop n src)
      end
  end.
Definition copyout (pagetable dstva : Z) (src : list Z) : K Z :=
  copyout_loop (length src) pagetable dstva src.

(** [copyin]: the result, and the bytes that were copied to [dst]; the bytes copied
    so far are in [acc]. *)
Fixpoint copyin_loop (fuel : nat) (pagetable srcva len : Z) (acc : list Z) : K (Z * list Z) :=
  if 0 <? len then
    match fuel with
    | O => nofuel
    | S f =>
        let va0 := PGROUNDDOWN srcva in
        pa ← walkaddr pagetable va0;
        pa0 ← (if pa =? 0 then vmfault pagetable va0 else ret pa);
        if pa0 =? 0 then ret (-1, acc) else
        let n := Z.min (PGSIZE - (srcva - va0)) len in
        bs ← gets (λ s, ld_bytes (k_mem s) (pa0 + (srcva - va0)) (Z.to_nat n));
        copyin_loop f pagetable (u64 (va0 + PGSIZE)) (len - n) (acc ++ bs)
    end
  else ret (0, acc).
Definition copyin (pagetable srcva len : Z) : K (Z * list Z) :=
  copyin_loop (Z.to_nat len) pagetable srcva len [].

(** The inner loop of [copyinstr] over one page: the bytes before a NUL or the
    end of the [n] bytes, and whether a NUL was met. *)
Fixpoint copyinstr_page (m : mem) (p : Z) (n : nat) : list Z * bool :=
  match n with
  | O => ([], false)
  | S n' =>
      if ld8 m p =? 0 then ([], true)
      else let '(l, nul) := copyinstr_page m (p + 1) n' in (ld8 m p :: l, nul)
  end.
(** [copyinstr]: the string without its NUL, [None] for the result -1. *)
Fixpoint copyinstr_loop (fuel : nat) (pagetable srcva max : Z) (acc : list Z) : K (option (list Z)) :=
  if 0 <? max then
    match fuel with
    | O => nofuel
    | S f =>
        let va0 := PGROUNDDOWN srcva in
        pa0 ← walkaddr pagetable va0;
        if pa0 =? 0 then ret None else
        let n := Z.min (PGSIZE - (srcva - va0)) max in
        r ← gets (λ s, copyinstr_page (k_mem s) (pa0 + (srcva - va0)) (Z.to_nat n));
        if (r.2 : bool) then ret (Some (acc ++ r.1))
        else copyinstr_loop f pagetable (u64 (va0 + PGSIZE)) (max - n) (acc ++ r.1)
    end
  else ret None.
Definition copyinstr (pagetable srcva max : Z) : K (option (list Z)) :=
  copyinstr_loop (Z.to_nat max) pagetable srcva max [].

(** ** proc.c: copies to or from a user or a kernel address *)

(** A destination is a user address, an address in physical memory, or a local
    variable of the caller, which gets the bytes as a value. *)
Inductive kdst := DUser (va : Z) | DPhys (pa : Z) | DLocal.
(** A source is a user address, or the bytes of a local variable. *)
Inductive ksrc := SUser (va : Z) | SLocal (l : list Z).

Definition dst_add (d : kdst) (m : Z) : kdst :=
  match d with
  | DUser va => DUser (u64 (va + m))
  | DPhys pa => DPhys (u64 (pa + m))
  | DLocal => DLocal
  end.
Definition src_add (d : ksrc) (m : Z) : ksrc :=
  match d with
  | SUser va => SUser (u64 (va + m))
  | SLocal l => SLocal (drop (Z.to_nat m) l)
  end.

Definition either_copyout (dst : kdst) (src : list Z) : K Z :=
  match dst with
  | DUser va => i ← myproc; p ← getp i; copyout (p_pagetable p) va src
  | DPhys pa => modmem (λ m, st_bytes m pa src) ;; ret 0
  | DLocal => ret 0
  end.
(** The result and the bytes copied. *)
Definition either_copyin (src : ksrc) (len : Z) : K (Z * list Z) :=
  match src with
  | SUser va => i ← myproc; p ← getp i; copyin (p_pagetable p) va len
  | SLocal l => ret (0, take (Z.to_nat len) l)
  end.
End vm.
