(* ===== verification/PageTable.v ===== *)
(** * Page tables as trees of pages

    The representation of a page table in physical memory: a tree that sends the
    path of indices from the root to the page found there, and the entry it holds
    for each virtual address.  [walk] and [mappages] (vm.c) are specified against
    it, with the pages they take from the allocator. *)
From Stdlib Require Import ZArith Lia.
From stdpp Require Import base list gmap numbers strings.
From S2P Require Import Prelude Machine KString State Kalloc Vm.
Local Open Scope Z_scope.
Local Open Scope kernel_scope.

(** The pages of a table: [[]] is the root, [[i]] the page its entry [i] points
    to, [[i; j]] the page that one's entry [j] points to. *)
Abbreviation ptree := (gmap (list Z) Z).

Section pagetable.
Context {L : Layout}.
Implicit Types (t : ptree) (m : mem) (s : kstate).

(** ** States that differ in memory and free list *)

Definition withmem (m : mem) (f : Z) (s : kstate) : kstate := set_k_mem m (set_k_freelist f s).

Lemma withmem_id s : withmem (k_mem s) (k_freelist s) s = s.
Proof. unfold withmem. kstate_eq. Qed.
Lemma withmem_withmem m f m' f' s : withmem m' f' (withmem m f s) = withmem m' f' s.
Proof. unfold withmem. kstate_eq. Qed.
Lemma k_mem_withmem m f s : k_mem (withmem m f s) = m.
Proof. reflexivity. Qed.
Lemma k_freelist_withmem m f s : k_freelist (withmem m f s) = f.
Proof. reflexivity. Qed.
Lemma upd_mem_withmem g m f s : upd_mem g (withmem m f s) = withmem (g m) f s.
Proof. unfold withmem. kstate_eq. Qed.
Lemma upd_mem_eq g s : upd_mem g s = withmem (g (k_mem s)) (k_freelist s) s.
Proof. unfold withmem. kstate_eq. Qed.

(** ** Representation *)

(** The path of [va]: the indices of the two upper levels. *)
Definition vpath (va : Z) : list Z := [PX 2 va; PX 1 va].

Record pt_repr (m : mem) (t : ptree) (root : Z) : Prop := {
  pt_root : t !! [] = Some root;
  pt_page : ∀ p pg, t !! p = Some pg → page_ok pg;
  pt_depth : ∀ p pg, t !! p = Some pg → (length p ≤ 2)%nat;
  pt_inj : ∀ p q pg, t !! p = Some pg → t !! q = Some pg → p = q;
  pt_parent : ∀ p i pg, t !! (p ++ [i]) = Some pg → 0 ≤ i < 512 ∧ is_Some (t !! p);
  pt_low : ∀ i p pg, t !! (i :: p) = Some pg → i < 256;
  pt_entry : ∀ p pg i, t !! p = Some pg → (length p < 2)%nat → 0 ≤ i < 512 →
    ld64 m (pg + 8 * i) = match t !! (p ++ [i]) with
                          | Some c => Z.lor (PA2PTE c) PTE_V
                          | None => 0
                          end;
}.

(** The leaf entry of [va]; an absent leaf table holds no mapping. *)
Definition pte_at (m : mem) (t : ptree) (va : Z) : Z :=
  match t !! vpath va with
  | Some pg => ld64 m (pg + 8 * PX 0 va)
  | None => 0
  end.

(** No page of the table is free. *)
Definition pt_sep (t : ptree) (l : list Z) : Prop := ∀ p pg, t !! p = Some pg → pg ∉ l.

Lemma page_ok_pte pa : page_ok pa → pte_addr pa.
Proof.
  intros H. pose proof (page_ok_pos pa H). destruct H. split; [done|].
  unfold PHYSTOP, KERNBASE, PGSIZE in *. lia.
Qed.

Lemma PTE_V_range : 0 ≤ PTE_V < 1024.
Proof. done. Qed.

Lemma pte_valid pa f : page_ok pa → Z.testbit f 0 = true → Z.land (Z.lor (PA2PTE pa) f) PTE_V ≠ 0.
Proof.
  intros Hpa Hf. rewrite PA2PTE_land by (done || by apply page_ok_pte).
  intros E. apply (f_equal (λ z, Z.testbit z 0)) in E.
  by rewrite Z.land_spec, Hf in E.
Qed.

Lemma PTE2PA_page c f : page_ok c → 0 ≤ f < 1024 → PTE2PA (Z.lor (PA2PTE c) f) = c.
Proof. intros Hc Hf. apply PTE2PA_PA2PTE; [by apply page_ok_pte|done]. Qed.

Lemma entry_in_page pg i b : 0 ≤ i < 512 → pg + 8 * i ≤ b < pg + 8 * i + 8 → in_page pg b.
Proof. unfold in_page, PGSIZE. lia. Qed.

(** Memory matters only in the pages of the table. *)
Definition agree (m m' : mem) (pg : Z) : Prop := ∀ a, in_page pg a → ld8 m' a = ld8 m a.

Lemma agree_entry m m' pg i : agree m m' pg → 0 ≤ i < 512 → ld64 m' (pg + 8 * i) = ld64 m (pg + 8 * i).
Proof. intros H Hi. apply ld64_ext. intros b Hb. apply H. by eapply entry_in_page. Qed.

Lemma pt_repr_agree m m' t root :
  pt_repr m t root → (∀ p pg, t !! p = Some pg → (length p < 2)%nat → agree m m' pg) →
  pt_repr m' t root.
Proof.
  intros [H1 H2 H3 H4 H5 H6 H7] Ha. split; try done.
  intros p pg i Hp Hl Hi. rewrite (agree_entry m m') by eauto. eauto.
Qed.

Lemma pte_at_agree m m' t va :
  (∀ p pg, t !! p = Some pg → length p = 2%nat → agree m m' pg) →
  pte_at m' t va = pte_at m t va.
Proof.
  intros Ha. unfold pte_at. destruct (t !! vpath va) as [pg|] eqn:E; [|done].
  apply agree_entry; [by eapply Ha|apply PX_range].
Qed.

Lemma agree_refl m pg : agree m m pg.
Proof. done. Qed.
Lemma agree_trans m1 m2 m3 pg : agree m1 m2 pg → agree m2 m3 pg → agree m1 m3 pg.
Proof. intros H1 H2 a Ha. by rewrite H2, H1. Qed.

Lemma agree_memset m pa c pg :
  pa mod PGSIZE = 0 → pg mod PGSIZE = 0 → pg ≠ pa → agree m (memset m pa c PGSIZE) pg.
Proof.
  intros Ha Hb Hne a Hin. rewrite memset_ld8, decide_False; [done| |done].
  apply (pages_disjoint pg pa a Hb Ha Hne Hin).
Qed.
Lemma agree_st64 m pa i v pg :
  pa mod PGSIZE = 0 → pg mod PGSIZE = 0 → pg ≠ pa → 0 ≤ i < 512 →
  agree m (st64 m (pa + 8 * i) v) pg.
Proof.
  intros Ha Hb Hne Hi a Hin. rewrite ld8_st64_ne; [done|]. intros H.
  apply (pages_disjoint pg pa a Hb Ha Hne Hin). by eapply entry_in_page.
Qed.

(** ** [walk] without allocation *)

Lemma path_absent m t root p i q :
  pt_repr m t root → t !! (p ++ [i]) = None → t !! (p ++ i :: q) = None.
Proof.
  intros Hr Hn. induction q as [|j q IH] using rev_ind; [done|].
  replace (p ++ i :: q ++ [j]) with ((p ++ i :: q) ++ [j]) by (by rewrite <- app_assoc).
  apply eq_None_not_Some. intros [pg E].
  apply (pt_parent _ _ _ Hr) in E as [_ [pg' Hpg']]. congruence.
Qed.

Lemma walk_levels_none s t root va levels p pg :
  pt_repr (k_mem s) t root → t !! p = Some pg →
  p ++ ((λ l, PX l va) <$> levels) = vpath va →
  walk_levels levels pg va false s =
    Ret (match t !! vpath va with Some lf => lf + 8 * PX 0 va | None => 0 end) s.
Proof.
  intros Hr. revert p pg. induction levels as [|lv levels IH]; intros p pg Hp Hpath; cbn [walk_levels].
  - rewrite app_nil_r in Hpath. by rewrite <- Hpath, Hp.
  - unfold load64. rewrite bind_gets. simpl in Hpath.
    rewrite (pt_entry _ _ _ Hr p pg (PX lv va) Hp); [|by (apply (f_equal length) in Hpath; rewrite length_app in Hpath; simpl in Hpath; lia)|apply PX_range].
    destruct (t !! (p ++ [PX lv va])) as [c|] eqn:E.
    + pose proof (pt_page _ _ _ Hr _ _ E) as Hc.
      rewrite (proj2 (Z.eqb_neq _ 0)) by (by apply pte_valid). cbn [negb].
      rewrite (PTE2PA_page c PTE_V Hc PTE_V_range).
      apply (IH (p ++ [PX lv va])); [done|]. by rewrite <- app_assoc.
    + cbn [Z.land Z.eqb negb]. rewrite <- Hpath.
      by rewrite (path_absent _ _ _ _ _ _ Hr E).
Qed.

Lemma walk_run s t root va :
  pt_repr (k_mem s) t root → va < MAXVA →
  walk root va false s =
    Ret (match t !! vpath va with Some lf => lf + 8 * PX 0 va | None => 0 end) s.
Proof.
  intros Hr Hva. unfold walk. destruct (Z.leb_spec MAXVA va); [lia|].
  eapply walk_levels_none; [done|apply Hr|done].
Qed.

(** The address [walk] returns is not 0 exactly when the leaf table exists. *)
Lemma leaf_addr_pos m t root va lf :
  pt_repr m t root → t !! vpath va = Some lf → 0 < lf + 8 * PX 0 va.
Proof.
  intros Hr Hl. pose proof (page_ok_pos _ (pt_page _ _ _ Hr _ _ Hl)).
  pose proof (PX_range 0 va). lia.
Qed.

(** ** [walk] with allocation *)

(** The table has grown by the pages [new], and its leaf entries are now [f];
    memory outside the table and the new pages is as it was. *)
Record pt_step (root : Z) (m : mem) (t : ptree) (new : list Z) (m' : mem) (t' : ptree)
    (f : Z → Z) : Prop := {
  gr_repr : pt_repr m' t' root;
  gr_sub : ∀ p pg, t !! p = Some pg → t' !! p = Some pg;
  gr_new : ∀ p pg, t' !! p = Some pg → t !! p = Some pg ∨ pg ∈ new;
  gr_used : ∀ pg, pg ∈ new → ∃ p, t' !! p = Some pg;
  gr_pte : ∀ va, 0 ≤ va < MAXVA → pte_at m' t' va = f va;
  gr_frame : ∀ pg, page_ok pg → pg ∉ new → (∀ p, t !! p ≠ Some pg) → agree m m' pg;
}.

(** The leaf entries are the same. *)
Definition grown root m t new m' t' : Prop := pt_step root m t new m' t' (pte_at m t).

Lemma pt_step_view root m t new m' t' f g :
  pt_step root m t new m' t' f → (∀ va, 0 ≤ va < MAXVA → f va = g va) →
  pt_step root m t new m' t' g.
Proof. intros [R S N U P F] H. split; try done. intros va Hva. by rewrite P, H. Qed.

Lemma grown_refl root m t : pt_repr m t root → grown root m t [] m t.
Proof. intros H. split; auto; [set_solver|]. intros. apply agree_refl. Qed.

Lemma pt_step_trans root m1 t1 n1 m2 t2 n2 m3 t3 f g :
  pt_step root m1 t1 n1 m2 t2 f → pt_step root m2 t2 n2 m3 t3 g →
  pt_step root m1 t1 (n1 ++ n2) m3 t3 g.
Proof.
  intros [R1 S1 N1 U1 P1 F1] [R2 S2 N2 U2 P2 F2]. split.
  - done.
  - eauto.
  - intros p pg H. destruct (N2 _ _ H) as [H2|H2]; [destruct (N1 _ _ H2)|]; set_solver.
  - intros pg [H|H]%elem_of_app; [|eauto]. destruct (U1 _ H) as [p Hp]. eauto.
  - done.
  - intros pg Hok Hn Ht. apply agree_trans with m2; [apply F1|apply F2]; [done|set_solver|done|done|set_solver|].
    intros p Hp. destruct (N1 _ _ Hp); [by eapply Ht|set_solver].
Qed.

Lemma grown_step root m1 t1 n1 m2 t2 n2 m3 t3 f :
  pt_step root m1 t1 n1 m2 t2 f → grown root m2 t2 n2 m3 t3 →
  pt_step root m1 t1 (n1 ++ n2) m3 t3 f.
Proof.
  intros H1 H2. eapply pt_step_view; [by eapply pt_step_trans|].
  intros va Hva. by apply (gr_pte _ _ _ _ _ _ _ H1).
Qed.

(** Zeroing a page makes every entry in it 0. *)
Lemma ld64_zeroed m pg i : 0 ≤ i < 512 → ld64 (memset m pg 0 PGSIZE) (pg + 8 * i) = 0.
Proof.
  intros Hi. apply ld64_zero. intros b Hb. rewrite memset_ld8 by done.
  by rewrite decide_True by (unfold PGSIZE; lia).
Qed.

(** The store of [walk]: a zeroed page [c] hung below entry [i] of [pg]. *)
Definition hang (m : mem) (pg i c : Z) : mem :=
  st64 (memset m c 0 PGSIZE) (pg + 8 * i) (Z.lor (PA2PTE c) PTE_V).

Lemma hang_agree m pg i c q :
  page_ok pg → page_ok c → page_ok q → q ≠ pg → q ≠ c → 0 ≤ i < 512 → agree m (hang m pg i c) q.
Proof.
  intros [Hp _] [Hc _] [Hq _] H1 H2 Hi. unfold hang.
  eapply agree_trans; [|by apply agree_st64]. by apply agree_memset.
Qed.

Lemma hang_entry m pg i c j :
  page_ok pg → page_ok c → c ≠ pg → 0 ≤ i < 512 → 0 ≤ j < 512 →
  ld64 (hang m pg i c) (pg + 8 * j) =
    if decide (i = j) then Z.lor (PA2PTE c) PTE_V else ld64 m (pg + 8 * j).
Proof.
  intros Hp Hc Hne Hi Hj. unfold hang. case_decide as E.
  - subst j. apply ld64_st64_same.
    pose proof (PA2PTE_range c PTE_V (page_ok_pte c Hc) PTE_V_range). lia.
  - rewrite ld64_st64_ne by lia. destruct Hp as [Hp _]; destruct Hc as [Hc _].
    apply (agree_entry m); [|done]. apply agree_memset; auto.
Qed.

Lemma hang_new m pg i c j :
  page_ok pg → page_ok c → c ≠ pg → 0 ≤ i < 512 → 0 ≤ j < 512 →
  ld64 (hang m pg i c) (c + 8 * j) = 0.
Proof.
  intros Hp Hc Hne Hi Hj. unfold hang. destruct Hp as [Hp _]; destruct Hc as [Hc _].
  rewrite (agree_entry (memset m c 0 PGSIZE)); [|by apply agree_st64|done].
  by apply ld64_zeroed.
Qed.

Lemma snoc_inj (p q : list Z) i j : p ++ [i] = q ++ [j] → p = q ∧ i = j.
Proof. apply app_inj_tail. Qed.

Lemma hang_repr m t root p pg i c :
  pt_repr m t root → t !! p = Some pg → (length p < 2)%nat → 0 ≤ i < 512 → (p = [] → i < 256) →
  t !! (p ++ [i]) = None → page_ok c → (∀ q, t !! q ≠ Some c) →
  pt_repr (hang m pg i c) (<[p ++ [i] := c]> t) root.
Proof.
  intros Hr Hp Hlen Hi Hlow Hn Hc Hfresh. pose proof (pt_page _ _ _ Hr _ _ Hp) as Hpg.
  assert (c ≠ pg) as Hcp by (intros ->; by eapply Hfresh).
  assert (∀ j, t !! (p ++ [i] ++ [j]) = None) as Hbelow
    by (intros j; apply (path_absent _ _ _ p i [j] Hr Hn)).
  split.
  - rewrite lookup_insert_ne by (by destruct p). apply Hr.
  - intros q qg. rewrite lookup_insert. case_decide; intros; simplify_eq; [done|by eapply pt_page].
  - intros q qg. rewrite lookup_insert. case_decide; intros; simplify_eq; [rewrite length_app; simpl; lia|by eapply pt_depth].
  - intros q1 q2 g. rewrite !lookup_insert. repeat case_decide; intros; simplify_eq; try done.
    + exfalso. by eapply Hfresh.
    + exfalso. by eapply Hfresh.
    + by eapply pt_inj.
  - intros q j g. rewrite !lookup_insert. case_decide as E.
    + apply snoc_inj in E as [<- <-]. intros _. split; [done|]. rewrite decide_False; [by eexists|].
      intros E. apply (f_equal length) in E. rewrite length_app in E. simpl in E. lia.
    + intros H. destruct (pt_parent _ _ _ Hr _ _ _ H) as [Hj [g' Hg']]. split; [done|].
      rewrite Hg'. case_decide; eauto.
  - intros j q g. rewrite lookup_insert. case_decide as E; [|apply Hr]. intros _.
    destruct p as [|a p]; simpl in E; [injection E as <- _; by apply Hlow|].
    injection E as <- _. by eapply (pt_low _ _ _ Hr).
  - intros q g j Hq Hql Hj. rewrite lookup_insert in Hq. case_decide as E.
    + simplify_eq. rewrite hang_new by done.
      rewrite lookup_insert_ne.
      2: { intros E. apply (f_equal length) in E. rewrite !length_app in E. simpl in E. lia. }
      rewrite <- app_assoc. by rewrite (Hbelow j).
    + destruct (decide (g = pg)) as [->|Hgp].
      * assert (q = p) as -> by (by eapply pt_inj). rewrite hang_entry by done.
        case_decide as Eij; [subst; by rewrite lookup_insert_eq|].
        rewrite lookup_insert_ne by (intros [_ ?]%snoc_inj; done). by apply (pt_entry _ _ _ Hr).
      * rewrite (agree_entry m); [| |done].
        2: { apply hang_agree; try done; [by eapply pt_page|]. intros ->. by eapply Hfresh. }
        rewrite lookup_insert_ne.
        { by apply (pt_entry _ _ _ Hr). }
        intros [<- _]%snoc_inj. congruence.
Qed.

Lemma hang_pte m t root p pg i c va :
  pt_repr m t root → t !! p = Some pg → (length p < 2)%nat → 0 ≤ i < 512 →
  t !! (p ++ [i]) = None → page_ok c → (∀ q, t !! q ≠ Some c) →
  pte_at (hang m pg i c) (<[p ++ [i] := c]> t) va = pte_at m t va.
Proof.
  intros Hr Hp Hlen Hi Hn Hc Hfresh. pose proof (pt_page _ _ _ Hr _ _ Hp) as Hpg.
  assert (c ≠ pg) as Hcp by (intros ->; by eapply Hfresh).
  unfold pte_at. rewrite lookup_insert. case_decide as E.
  - rewrite <- E, Hn. apply hang_new; try done. apply PX_range.
  - destruct (t !! vpath va) as [lf|] eqn:El; [|done].
    apply agree_entry; [|apply PX_range]. apply hang_agree; try done.
    + by eapply pt_page.
    + intros ->. assert (vpath va = p) as Ep by (by eapply pt_inj).
      rewrite <- Ep in Hlen. simpl in Hlen. lia.
    + intros ->. by eapply Hfresh.
Qed.

Lemma hang_grown m t root p pg i c :
  pt_repr m t root → t !! p = Some pg → (length p < 2)%nat → 0 ≤ i < 512 → (p = [] → i < 256) →
  t !! (p ++ [i]) = None → page_ok c → (∀ q, t !! q ≠ Some c) →
  grown root m t [c] (hang m pg i c) (<[p ++ [i] := c]> t).
Proof.
  intros Hr Hp Hlen Hi Hlow Hn Hc Hfresh. split.
  - by apply hang_repr.
  - intros q g Hq. rewrite lookup_insert_ne; [done|]. intros <-. congruence.
  - intros q g. rewrite lookup_insert. case_decide; intros; simplify_eq; set_solver.
  - intros g ->%list_elem_of_singleton. exists (p ++ [i]). by rewrite lookup_insert_eq.
  - intros va _. by eapply hang_pte.
  - intros g Hg Hnew Ht. apply hang_agree; try done; [by eapply pt_page| |set_solver].
    intros ->. by eapply Ht.
Qed.

Lemma pt_step_sep root m t new m' t' f l :
  pt_step root m t new m' t' f → pt_sep t (new ++ l) → NoDup (new ++ l) → pt_sep t' l.
Proof.
  intros G Hs Hnd p pg Hp. destruct (gr_new _ _ _ _ _ _ _ G _ _ Hp) as [H|H].
  - intros Hin. apply (Hs _ _ H). set_solver.
  - apply NoDup_app in Hnd as (_ & Hd & _). by apply Hd.
Qed.

Lemma kmem_page s l pg : kmem_inv s l → pg ∈ l → page_ok pg.
Proof. intros [_ _ H] Hin. rewrite Forall_forall in H. by apply H. Qed.

(** The free list is untouched by writes that leave its pages alone. *)
Lemma kmem_inv_agree s l m f m' :
  kmem_inv (withmem m f s) l → (∀ pg, pg ∈ l → agree m m' pg) →
  kmem_inv (withmem m' f s) l.
Proof.
  intros H Ha. apply (kmem_inv_ext (withmem m f s)); [done| |done].
  intros pa a Hpa Hin. by apply (Ha pa).
Qed.

(** [kalloc] and [kfree] as their clients see them: a page moves, and memory
    changes in that page only. *)
Lemma wp_kalloc_page s l Q :
  kmem_inv s l → LKmem ∉ k_held s →
  (l = [] → Q 0 s) →
  (∀ c l' m' f', l = c :: l' → page_ok c → c ≠ 0 → c ∉ l' → kmem_inv (withmem m' f' s) l' →
     (∀ pg, page_ok pg → pg ≠ c → agree (k_mem s) m' pg) → Q c (withmem m' f' s)) →
  wp kalloc Q s.
Proof.
  intros Hk Hlk Hnil Hcons. apply (wp_kalloc s l Q Hk Hlk Hnil).
  intros c l' -> s' Hk'. pose proof (kmem_page _ _ c Hk (list_elem_of_here _ _)) as Hc.
  pose proof (page_ok_pos c Hc). apply (Hcons c l'); [done|done|lia| |done|].
  - destruct Hk as [_ Hnd _]. by apply list.NoDup_cons in Hnd as [? _].
  - intros pg [Hpg _] Hne. destruct Hc as [Hc _]. by apply agree_memset.
Qed.

Lemma wp_kfree_page s l pa Q :
  kmem_inv s l → page_ok pa → pa ∉ l → LKmem ∉ k_held s →
  (∀ m' f', kmem_inv (withmem m' f' s) (pa :: l) →
     (∀ pg, page_ok pg → pg ≠ pa → agree (k_mem s) m' pg) → Q tt (withmem m' f' s)) →
  wp (kfree pa) Q s.
Proof.
  intros Hk Hpa Hn Hlk HQ. apply (wp_kfree s l pa Q Hk Hpa Hn Hlk). intros s' Hk'.
  apply HQ; [done|]. intros pg [Hpg _] Hne a Ha. apply kfree_frame.
  destruct Hpa as [Hpa _]. apply (pages_disjoint pg pa a); done.
Qed.

Lemma wp_load64 a Q s : Q (ld64 (k_mem s) a) s → wp (load64 a) Q s.
Proof. done. Qed.
Lemma wp_store64 a v Q s :
  Q tt (withmem (st64 (k_mem s) a v) (k_freelist s) s) → wp (store64 a v) Q s.
Proof. intros H. apply wp_modify. by rewrite upd_mem_eq. Qed.
Lemma wp_memset pa c Q s :
  Q tt (withmem (memset (k_mem s) pa c PGSIZE) (k_freelist s) s) →
  wp (modmem (λ m, memset m pa c PGSIZE)) Q s.
Proof. intros H. apply wp_modify. by rewrite upd_mem_eq. Qed.

(** A page that is not in the table does not matter for it. *)
Lemma grown_pre root m m1 t c m' t' :
  (∀ pg, page_ok pg → pg ≠ c → agree m m1 pg) → (∀ q, t !! q ≠ Some c) →
  pt_repr m t root → (pt_repr m1 t root → grown root m1 t [c] m' t') →
  grown root m t [c] m' t'.
Proof.
  intros Ha Hc Hr Hg.
  assert (∀ p pg, t !! p = Some pg → agree m m1 pg) as Hat.
  { intros p pg Hp. apply Ha; [by eapply pt_page|]. intros ->. by eapply Hc. }
  destruct (Hg (pt_repr_agree _ _ _ _ Hr (λ p pg Hp _, Hat p pg Hp))) as [R S N U P F].
  split; try done.
  - intros va Hva. rewrite P by done. apply pte_at_agree. eauto.
  - intros pg Hok Hn Ht. eapply agree_trans; [apply Ha|by apply F]; [done|set_solver].
Qed.

(** The allocation of a table below entry [i] of [pg], in [walk]. *)
Lemma wp_new_table s t root l p pg i (k : Z → K Z) Q :
  kmem_inv s l → LKmem ∉ k_held s → pt_repr (k_mem s) t root → pt_sep t l →
  t !! p = Some pg → (length p < 2)%nat → 0 ≤ i < 512 → (p = [] → i < 256) →
  t !! (p ++ [i]) = None →
  (l = [] → Q 0 s) →
  (∀ c l' m' f', l = c :: l' → grown root (k_mem s) t [c] m' (<[p ++ [i] := c]> t) →
     kmem_inv (withmem m' f' s) l' → wp (k c) Q (withmem m' f' s)) →
  wp (c ← kalloc; if c =? 0 then ret 0 else
      modmem (λ m, memset m c 0 PGSIZE) ;; store64 (pg + 8 * i) (Z.lor (PA2PTE c) PTE_V) ;; k c) Q s.
Proof.
  intros Hk Hlk Hr Hs Hp Hlen Hi Hlow Hn Hnil Hcons.
  apply wp_bind, (wp_kalloc_page s l _ Hk Hlk); [intros ->; apply wp_ret; auto|].
  intros c l' m1 f1 -> Hc Hc0 Hcl Hk1 Ha1. rewrite (proj2 (Z.eqb_neq c 0) Hc0).
  assert (∀ q, t !! q ≠ Some c) as Hfresh by (intros q Hq; apply (Hs _ _ Hq), list_elem_of_here).
  apply wp_bind, wp_memset, wp_bind, wp_store64. rewrite !withmem_withmem.
  rewrite !k_mem_withmem, !k_freelist_withmem. fold (hang m1 pg i c). apply (Hcons c l'); [reflexivity| |].
  - apply (grown_pre _ _ m1); [assumption..|]. intros Hr1. by apply hang_grown.
  - eapply kmem_inv_agree; [exact Hk1|]. intros q Hq. apply hang_agree.
    + by eapply pt_page.
    + assumption.
    + apply (kmem_page _ _ q Hk). by apply list_elem_of_further.
    + intros ->. by apply (Hs _ _ Hp), list_elem_of_further.
    + by intros ->.
    + assumption.
Qed.

Lemma wp_walk_levels s t root l va levels p pg Q :
  kmem_inv s l → LKmem ∉ k_held s → pt_repr (k_mem s) t root → pt_sep t l →
  t !! p = Some pg → p ++ ((λ l, PX l va) <$> levels) = vpath va → PX 2 va < 256 →
  (∀ m' f' t' new l' r, l = new ++ l' → grown root (k_mem s) t new m' t' →
     kmem_inv (withmem m' f' s) l' →
     ((r = 0 ∧ l' = []) ∨ (∃ lf, t' !! vpath va = Some lf ∧ r = lf + 8 * PX 0 va)) →
     Q r (withmem m' f' s)) →
  wp (walk_levels levels pg va true) Q s.
Proof.
  revert s t l p pg. induction levels as [|lv levels IH];
    intros s t l p pg Hk Hlk Hr Hs Hp Hpath Hlow HQ; cbn [walk_levels].
  { apply wp_ret. rewrite <- (withmem_id s). rewrite app_nil_r in Hpath.
    apply (HQ _ _ t [] l); [done|by apply grown_refl|by rewrite withmem_id|].
    right. exists pg. by rewrite <- Hpath. }
  assert (length p < 2)%nat as Hlen.
  { apply (f_equal length) in Hpath. rewrite length_app in Hpath. simpl in Hpath. lia. }
  simpl in Hpath. pose proof (PX_range lv va) as Hpx.
  assert ((p ++ [PX lv va]) ++ ((λ l, PX l va) <$> levels) = vpath va) as Hpath'
    by (by rewrite <- app_assoc).
  apply wp_bind, wp_load64. rewrite (pt_entry _ _ _ Hr p pg _ Hp Hlen Hpx).
  destruct (t !! (p ++ [PX lv va])) as [c|] eqn:E.
  { pose proof (pt_page _ _ _ Hr _ _ E) as Hc.
    rewrite (proj2 (Z.eqb_neq _ 0)) by (by apply pte_valid). cbn [negb].
    rewrite (PTE2PA_page c PTE_V Hc PTE_V_range). by eapply (IH s t l). }
  cbn [Z.land Z.eqb negb].
  apply (wp_new_table s t root l p); try done.
  { intros ->. simpl in Hpath. injection Hpath as -> _. done. }
  { intros ->. rewrite <- (withmem_id s).
    apply (HQ _ _ t [] []); [done|by apply grown_refl|by rewrite withmem_id|by left]. }
  intros c l' m1 f1 -> Hg Hk1.
  eapply (IH (withmem m1 f1 s) _ l' (p ++ [PX lv va]) c); [done|done|apply Hg| | |done|done|].
  - apply (pt_step_sep _ _ _ _ _ _ _ _ Hg); [done|apply Hk].
  - by rewrite lookup_insert_eq.
  - intros m' f' t' new l'' r -> Hg' Hk' Hres. rewrite withmem_withmem in *.
    apply (HQ _ _ t' (c :: new) l''); [done| |done|done].
    by eapply (grown_step _ _ _ [c]).
Qed.

(** [walk] with [alloc]: the leaf table of [va] exists afterwards, unless the
    allocator ran out of pages. *)
Lemma wp_walk s t root l va Q :
  kmem_inv s l → LKmem ∉ k_held s → pt_repr (k_mem s) t root → pt_sep t l → 0 ≤ va < MAXVA →
  (∀ m' f' t' new l' r, l = new ++ l' → grown root (k_mem s) t new m' t' →
     kmem_inv (withmem m' f' s) l' →
     ((r = 0 ∧ l' = []) ∨ (∃ lf, t' !! vpath va = Some lf ∧ r = lf + 8 * PX 0 va)) →
     Q r (withmem m' f' s)) →
  wp (walk root va true) Q s.
Proof.
  intros Hk Hlk Hr Hs Hva HQ. unfold walk. destruct (Z.leb_spec MAXVA va); [lia|].
  by apply (wp_walk_levels s t root l va [2; 1] [] root Q Hk Hlk Hr Hs (pt_root _ _ _ Hr) eq_refl
    (PX2_low va Hva)).
Qed.

(** ** Writing a leaf entry, and [mappages] *)

Definition pte_set (va v : Z) (f : Z → Z) : Z → Z :=
  λ va', if decide (va' / PGSIZE = va / PGSIZE) then v else f va'.

Lemma st_leaf root m t va lf v :
  pt_repr m t root → t !! vpath va = Some lf → 0 ≤ v < 2 ^ 64 → 0 ≤ va < MAXVA →
  pt_step root m t [] (st64 m (lf + 8 * PX 0 va) v) t (pte_set va v (pte_at m t)).
Proof.
  intros Hr Hl Hv Hva. pose proof (pt_page _ _ _ Hr _ _ Hl) as [Hla _].
  pose proof (PX_range 0 va) as Hpx.
  assert (∀ pg, page_ok pg → pg ≠ lf → agree m (st64 m (lf + 8 * PX 0 va) v) pg) as Ha.
  { intros pg [Hpg _] Hne. by apply agree_st64. }
  split; [|auto|auto|set_solver| |].
  - eapply pt_repr_agree; [done|]. intros p pg Hp Hlen. apply Ha; [by eapply pt_page|].
    intros ->. rewrite (pt_inj _ _ _ Hr _ _ _ Hp Hl) in Hlen. simpl in Hlen. lia.
  - intros va' Hva'. unfold pte_at, pte_set. case_decide as E.
    + replace (vpath va') with (vpath va)
        by (unfold vpath; by rewrite (PX_page 2 va va'), (PX_page 1 va va')).
      rewrite Hl, (PX_page 0 va' va) by done. by apply ld64_st64_same.
    + destruct (t !! vpath va') as [lf'|] eqn:El; [|done].
      destruct (decide (lf' = lf)) as [->|Hne].
      * pose proof (pt_inj _ _ _ Hr _ _ _ El Hl) as Ep. unfold vpath in Ep.
        injection Ep as E2 E1. apply ld64_st64_ne.
        assert (PX 0 va' ≠ PX 0 va) by (intros E0; by apply E, PX_inj). lia.
      * apply agree_entry; [|apply PX_range]. apply Ha; [by eapply pt_page|done].
  - intros pg Hok _ Ht. apply Ha; [done|]. intros ->. by eapply Ht.
Qed.

(** The entries after [n] pages from [va] on are mapped to [pa] on. *)
Definition map_view (va : Z) (n : nat) (pa perm : Z) (f : Z → Z) : Z → Z := λ va',
  let k := va' / PGSIZE - va / PGSIZE in
  if decide (0 ≤ k < Z.of_nat n)
  then Z.lor (Z.lor (PA2PTE (pa + k * PGSIZE)) perm) PTE_V
  else f va'.

Lemma map_view_0 va pa perm f va' : map_view va 0 pa perm f va' = f va'.
Proof. unfold map_view. rewrite decide_False by lia. done. Qed.

Lemma map_view_S va n pa perm f va' :
  va mod PGSIZE = 0 →
  map_view (va + PGSIZE) n (pa + PGSIZE) perm
    (pte_set va (Z.lor (Z.lor (PA2PTE pa) perm) PTE_V) f) va' =
  map_view va (S n) pa perm f va'.
Proof.
  intros Ha. unfold map_view, pte_set.
  assert ((va + PGSIZE) / PGSIZE = va / PGSIZE + 1) as ->
    by (rewrite <- (Z.mul_1_l PGSIZE) at 1; apply Z.div_add; done).
  set (k := va' / PGSIZE - va / PGSIZE).
  replace (va' / PGSIZE - (va / PGSIZE + 1)) with (k - 1) by (unfold k; lia).
  repeat case_decide; try lia; try done.
  - by replace (pa + PGSIZE + (k - 1) * PGSIZE) with (pa + k * PGSIZE) by lia.
  - replace (pa + k * PGSIZE) with pa; [done|]. replace k with 0 by lia. lia.
Qed.

Lemma perm_pte pa perm :
  pte_addr pa → 0 ≤ perm < 1024 →
  0 ≤ Z.lor (Z.lor (PA2PTE pa) perm) PTE_V < 2 ^ 64.
Proof.
  intros Hpa Hperm. rewrite <- Z.lor_assoc.
  assert (0 ≤ Z.lor perm PTE_V < 1024) by (apply (lor_range _ _ 10); lia || done).
  pose proof (PA2PTE_range pa (Z.lor perm PTE_V) Hpa ltac:(done)). lia.
Qed.

(** What a call of [mappages] leaves: [k] of the [n] pages mapped, and all of
    them when it returns 0. *)
Definition mappages_post (root : Z) (s : kstate) (t : ptree) (l : list Z) (va : Z) (n : nat)
    (pa perm : Z) (Q : Z → kstate → Prop) : Prop :=
  ∀ k m' f' t' new l' r, l = new ++ l' →
    ((r = 0 ∧ k = n) ∨ (r = -1 ∧ (k < n)%nat ∧ l' = [])) →
    pt_step root (k_mem s) t new m' t' (map_view va k pa perm (pte_at (k_mem s) t)) →
    kmem_inv (withmem m' f' s) l' → Q r (withmem m' f' s).

Lemma pte_at_leaf m t va lf : t !! vpath va = Some lf → pte_at m t va = ld64 m (lf + 8 * PX 0 va).
Proof. intros H. unfold pte_at. by rewrite H. Qed.

(** The body of the loop: one entry written. *)
Lemma wp_map_step s t root l va v (k : K Z) Q :
  kmem_inv s l → LKmem ∉ k_held s → pt_repr (k_mem s) t root → pt_sep t l →
  0 ≤ va < MAXVA → 0 ≤ v < 2 ^ 64 → Z.land (pte_at (k_mem s) t va) PTE_V = 0 →
  (∀ m' f' t', grown root (k_mem s) t l m' t' → kmem_inv (withmem m' f' s) [] →
     Q (-1) (withmem m' f' s)) →
  (∀ m' f' t' new l', l = new ++ l' →
     pt_step root (k_mem s) t new m' t' (pte_set va v (pte_at (k_mem s) t)) →
     kmem_inv (withmem m' f' s) l' → wp k Q (withmem m' f' s)) →
  wp (pte ← walk root va true;
      if pte =? 0 then ret (-1) else
      v0 ← load64 pte;
      if negb (Z.land v0 PTE_V =? 0) then panic "mappages: remap" else
      store64 pte v ;; k) Q s.
Proof.
  intros Hk Hlk Hr Hs Hva Hv Hfree Hfail Hok.
  apply wp_bind, (wp_walk s t root l va); [done..|].
  intros m1 f1 t1 new l1 r -> Hg Hk1 [[-> ->]|(lf & Hlf & ->)].
  { cbn [Z.eqb]. apply wp_ret. rewrite app_nil_r in *. by apply (Hfail _ _ t1). }
  pose proof (gr_repr _ _ _ _ _ _ _ Hg) as Hr1.
  rewrite (proj2 (Z.eqb_neq _ 0)) by (pose proof (leaf_addr_pos _ _ _ _ _ Hr1 Hlf); lia).
  apply wp_bind, wp_load64. rewrite k_mem_withmem, <- (pte_at_leaf _ _ _ _ Hlf).
  rewrite (gr_pte _ _ _ _ _ _ _ Hg va), Hfree by done. cbn [Z.eqb negb].
  apply wp_bind, wp_store64. rewrite withmem_withmem, k_mem_withmem, k_freelist_withmem.
  pose proof (st_leaf root m1 t1 va lf v Hr1 Hlf Hv Hva) as Hst.
  pose proof (pt_step_trans _ _ _ _ _ _ _ _ _ _ _ Hg Hst) as Hg2. rewrite app_nil_r in Hg2.
  set (m2 := st64 m1 _ _) in *. clearbody m2. apply (Hok m2 f1 t1 new l1); [done| |].
  - eapply pt_step_view; [exact Hg2|]. intros va' Hva'. unfold pte_set.
    case_decide; [done|]. by apply (gr_pte _ _ _ _ _ _ _ Hg).
  - eapply kmem_inv_agree; [exact Hk1|]. intros q Hq.
    apply (gr_frame _ _ _ _ _ _ _ Hst); [by eapply kmem_page|set_solver|].
    intros p Hp. by apply (pt_step_sep _ _ _ _ _ _ _ l1 Hg Hs ltac:(apply Hk) _ _ Hp).
Qed.

Lemma mappages_loop_S f pt a last pa perm :
  mappages_loop (S f) pt a last pa perm =
    (pte ← walk pt a true;
     if pte =? 0 then ret (-1) else
     v ← load64 pte;
     if negb (Z.land v PTE_V =? 0) then panic "mappages: remap" else
     store64 pte (Z.lor (Z.lor (PA2PTE pa) perm) PTE_V) ;;
     if a =? last then ret 0
     else mappages_loop f pt (u64 (a + PGSIZE)) last (u64 (pa + PGSIZE)) perm).
Proof. reflexivity. Qed.

Lemma page_next va : va mod PGSIZE = 0 → (va + PGSIZE) mod PGSIZE = 0.
Proof. intros H. by rewrite <- Z.add_mod_idemp_l, H. Qed.

Lemma wp_mappages_loop n s t root l va pa perm Q :
  kmem_inv s l → LKmem ∉ k_held s → pt_repr (k_mem s) t root → pt_sep t l →
  va mod PGSIZE = 0 → 0 ≤ va → va + (Z.of_nat n + 1) * PGSIZE ≤ MAXVA →
  pa mod PGSIZE = 0 → 0 ≤ pa → pa + (Z.of_nat n + 1) * PGSIZE ≤ 2 ^ 56 → 0 ≤ perm < 1024 →
  (∀ k, 0 ≤ k ≤ Z.of_nat n → Z.land (pte_at (k_mem s) t (va + k * PGSIZE)) PTE_V = 0) →
  mappages_post root s t l va (S n) pa perm Q →
  wp (mappages_loop (S n) root va (va + Z.of_nat n * PGSIZE) pa perm) Q s.
Proof.
  pose proof MAXVA_val as HMAX. revert s t l va pa. induction n as [|n IH];
    intros s t l va pa Hk Hlk Hr Hs Hva Hva0 Hmax Hpa Hpa0 Hpam Hperm Hfree HQ.
  all: assert (pte_addr pa) as Hpaok by (split; [done|]; unfold PGSIZE in Hpam; lia).
  all: rewrite mappages_loop_S; apply (wp_map_step s t root l va); try done.
  all: try (by apply perm_pte).
  all: try (unfold PGSIZE in Hmax; lia).
  all: try (rewrite <- (Hfree 0) by lia; do 2 f_equal; lia).
  all: try (intros m' f' t' Hg Hk'; apply (HQ O _ _ t' l []);
    [by rewrite app_nil_r|right; repeat split; lia| |done];
    eapply pt_step_view; [exact Hg|]; intros; by rewrite map_view_0).
  all: intros m2 f2 t2 new l2 -> Hg Hk2.
  - replace (va + Z.of_nat 0 * PGSIZE) with va by lia. rewrite Z.eqb_refl. apply wp_ret.
    apply (HQ 1%nat _ _ t2 new l2); [done|by left| |done].
    eapply pt_step_view; [exact Hg|]. intros va' _.
    rewrite <- map_view_S by done. by rewrite map_view_0.
  - unfold PGSIZE in Hmax, Hpam.
    rewrite (proj2 (Z.eqb_neq _ _)), !u64_small by (unfold PGSIZE; lia).
    replace (va + Z.of_nat (S n) * PGSIZE) with (va + PGSIZE + Z.of_nat n * PGSIZE) by lia.
    apply (IH (withmem m2 f2 s) t2 l2); try done; try (by apply page_next);
      try (unfold PGSIZE; lia).
    + apply Hg.
    + eapply pt_step_sep; [exact Hg|done|apply Hk].
    + intros k Hkk. rewrite k_mem_withmem, (gr_pte _ _ _ _ _ _ _ Hg) by (unfold PGSIZE; lia).
      unfold pte_set. rewrite decide_False by (unfold PGSIZE in *; dlia).
      replace (va + PGSIZE + k * PGSIZE) with (va + (k + 1) * PGSIZE) by lia. apply Hfree. lia.
    + intros k m' f' t' new' l' r -> Hres Hst' Hk'. rewrite !withmem_withmem, !k_mem_withmem in *.
      apply (HQ (S k) _ _ t' (new ++ new') l'); [by rewrite app_assoc| | |done].
      { destruct Hres as [[-> ->]|(-> & ? & ->)]; [by left|right; repeat split; lia]. }
      eapply pt_step_view; [by eapply pt_step_trans|]. intros va' Hva'.
      rewrite <- map_view_S by done. unfold map_view. case_decide; [done|].
      by apply (gr_pte _ _ _ _ _ _ _ Hg).
Qed.

Lemma wp_mappages n s t root l va pa perm Q :
  kmem_inv s l → LKmem ∉ k_held s → pt_repr (k_mem s) t root → pt_sep t l →
  va mod PGSIZE = 0 → 0 ≤ va → (0 < n)%nat → va + Z.of_nat n * PGSIZE ≤ MAXVA →
  pa mod PGSIZE = 0 → 0 ≤ pa → pa + Z.of_nat n * PGSIZE ≤ 2 ^ 56 → 0 ≤ perm < 1024 →
  (∀ k, 0 ≤ k < Z.of_nat n → Z.land (pte_at (k_mem s) t (va + k * PGSIZE)) PTE_V = 0) →
  mappages_post root s t l va n pa perm Q →
  wp (mappages root va (Z.of_nat n * PGSIZE) pa perm) Q s.
Proof.
  intros Hk Hlk Hr Hs Hva Hva0 Hn Hmax Hpa Hpa0 Hpam Hperm Hfree HQ. unfold mappages.
  rewrite Hva, Z.mod_mul by done. cbn [Z.eqb negb].
  rewrite (proj2 (Z.eqb_neq _ 0)) by (unfold PGSIZE; lia).
  rewrite Z.div_mul, Nat2Z.id by done. pose proof MAXVA_val.
  destruct n as [|n]; [lia|]. unfold PGSIZE in Hmax, Hpam.
  rewrite u64_small by (unfold PGSIZE; lia).
  replace (va + Z.of_nat (S n) * PGSIZE - PGSIZE) with (va + Z.of_nat n * PGSIZE) by lia.
  apply (wp_mappages_loop n s t root l); try done; try (unfold PGSIZE; lia).
  intros k Hkk. apply Hfree. lia.
Qed.
End pagetable.
