(* ===== verification/UserMem.v ===== *)
(** * User address spaces

    The invariant of a user page table with the allocator (no page is both free
    and mapped, mapped twice, or part of the table), and what the operations of
    vm.c do to it: they only move pages between the free list, the table and the
    mapping, and touch no byte of any other page. *)
From Stdlib Require Import ZArith Lia.
From stdpp Require Import base list gmap numbers strings.
From S2P Require Import Prelude Machine KString State Kalloc Vm PageTable.
Local Open Scope Z_scope.
Local Open Scope kernel_scope.

Section usermem.
Context {L : Layout}.
Implicit Types (t : ptree) (m : mem) (s : kstate) (l : list Z).

(** ** The invariant *)

Definition valid (v : Z) : Prop := Z.land v PTE_V ≠ 0.
#[global] Instance valid_dec v : Decision (valid v).
Proof. unfold valid. apply _. Defined.

(** User addresses are below the trapframe page. *)
Definition uva (va : Z) : Prop := 0 ≤ va < TRAPFRAME.

Record asp (root : Z) (s : kstate) (l : list Z) (t : ptree) : Prop := {
  as_kmem : kmem_inv s l;
  as_lock : LKmem ∉ k_held s;
  as_repr : pt_repr (k_mem s) t root;
  as_sep : pt_sep t l;
  as_page : ∀ va, uva va → valid (pte_at (k_mem s) t va) → page_ok (PTE2PA (pte_at (k_mem s) t va));
  as_free : ∀ va, uva va → valid (pte_at (k_mem s) t va) → PTE2PA (pte_at (k_mem s) t va) ∉ l;
  as_table : ∀ va p, uva va → valid (pte_at (k_mem s) t va) →
    t !! p ≠ Some (PTE2PA (pte_at (k_mem s) t va));
  as_inj : ∀ va va', uva va → uva va' → valid (pte_at (k_mem s) t va) →
    valid (pte_at (k_mem s) t va') →
    PTE2PA (pte_at (k_mem s) t va) = PTE2PA (pte_at (k_mem s) t va') → va / PGSIZE = va' / PGSIZE;
  as_kern : ∀ va, TRAPFRAME ≤ va < MAXVA → Z.land (pte_at (k_mem s) t va) PTE_U = 0;
}.

(** The pages of the free list, of the table and of the mapping. *)
Definition owned (s : kstate) (l : list Z) (t : ptree) (pg : Z) : Prop :=
  pg ∈ l ∨ (∃ p, t !! p = Some pg) ∨
  (∃ va, uva va ∧ valid (pte_at (k_mem s) t va) ∧ PTE2PA (pte_at (k_mem s) t va) = pg).

(** No page appears or disappears, every page that stays mapped keeps its bytes,
    and no other page changes. *)
Record moves (s : kstate) l t (s' : kstate) l' t' : Prop := {
  mv_state : s' = withmem (k_mem s') (k_freelist s') s;
  mv_owned : ∀ pg, owned s' l' t' pg ↔ owned s l t pg;
  mv_keep : ∀ va, uva va → valid (pte_at (k_mem s) t va) →
    pte_at (k_mem s') t' va = pte_at (k_mem s) t va →
    agree (k_mem s) (k_mem s') (PTE2PA (pte_at (k_mem s) t va));
  mv_frame : ∀ pg, page_ok pg → ¬ owned s l t pg → agree (k_mem s) (k_mem s') pg;
}.

Lemma moves_refl s l t : moves s l t s l t.
Proof. split; [by rewrite withmem_id|done|intros; apply agree_refl|intros; apply agree_refl]. Qed.

(** [moves] composes when the first step keeps the entries the second keeps. *)
Lemma moves_trans s1 l1 t1 s2 l2 t2 s3 l3 t3 :
  moves s1 l1 t1 s2 l2 t2 → moves s2 l2 t2 s3 l3 t3 →
  (∀ va, uva va → valid (pte_at (k_mem s1) t1 va) →
     pte_at (k_mem s3) t3 va = pte_at (k_mem s1) t1 va →
     pte_at (k_mem s2) t2 va = pte_at (k_mem s1) t1 va) →
  moves s1 l1 t1 s3 l3 t3.
Proof.
  intros [S1 O1 K1 F1] [S2 O2 K2 F2] Hmid. split.
  - rewrite S2 at 1. rewrite S1. by rewrite withmem_withmem.
  - intros pg. by rewrite O2, O1.
  - intros va Hu Hv E. pose proof (Hmid va Hu Hv E) as E2.
    eapply agree_trans; [by apply K1|]. rewrite <- E2. apply K2; congruence.
  - intros pg Hok Hn. eapply agree_trans; [by apply F1|]. apply F2; [done|]. by rewrite O1.
Qed.

Lemma moves_held s l t s' l' t' : moves s l t s' l' t' → k_held s' = k_held s.
Proof. intros [S _ _ _]. by rewrite S. Qed.

Lemma TRAPFRAME_val : TRAPFRAME = 274877898752.
Proof. reflexivity. Qed.
Lemma uva_max va : uva va → 0 ≤ va < MAXVA.
Proof. unfold uva. pose proof TRAPFRAME_val. pose proof MAXVA_val. lia. Qed.

Lemma uva_page va x : uva va → x / PGSIZE = va / PGSIZE → x < TRAPFRAME.
Proof. unfold uva, PGSIZE. rewrite TRAPFRAME_val. intros. dlia. Qed.

(** Entries of the same page are the same. *)
Lemma pte_at_page m t va va' : va / PGSIZE = va' / PGSIZE → pte_at m t va = pte_at m t va'.
Proof.
  intros E. unfold pte_at, vpath.
  by rewrite (PX_page 2 va va'), (PX_page 1 va va'), (PX_page 0 va va').
Qed.

(** ** Unmapping *)

Lemma valid_0 : ¬ valid 0.
Proof. intros H. by apply H. Qed.

(** The entries after those of [P] are cleared. *)
Definition unmap_view (P : Z → Prop) `{∀ va, Decision (P va)} (f : Z → Z) : Z → Z :=
  λ va, if decide (P va ∧ valid (f va)) then 0 else f va.

(** A mapped page freed and its entry cleared. *)
Lemma asp_unmap root s l t va m1 f1 m2 :
  let f := pte_at (k_mem s) t in
  asp root s l t → uva va → valid (f va) →
  kmem_inv (withmem m1 f1 s) (PTE2PA (f va) :: l) →
  (∀ pg, page_ok pg → pg ≠ PTE2PA (f va) → agree (k_mem s) m1 pg) →
  pt_step root m1 t [] m2 t (pte_set va 0 (pte_at m1 t)) →
  (∀ va', 0 ≤ va' < MAXVA → pte_at m2 t va' = pte_set va 0 f va') →
  asp root (withmem m2 f1 s) (PTE2PA (f va) :: l) t ∧
  moves s l t (withmem m2 f1 s) (PTE2PA (f va) :: l) t.
Proof.
  intros f Ha Hu Hv Hk Hag Hst Hview. destruct Ha as [_ Hlk Hr Hs Hp Hf Ht Hi Hkern].
  assert (∀ va', uva va' → valid (pte_at m2 t va') →
    pte_at m2 t va' = f va' ∧ PTE2PA (f va') ≠ PTE2PA (f va)) as Hold.
  { intros va' Hu' Hv'. rewrite (Hview va') in * by (by apply uva_max). unfold pte_set in *.
    case_decide as E; [by apply valid_0 in Hv'|]. split; [done|]. intros Epa.
    by apply E, Hi. }
  assert (∀ pg, page_ok pg → pg ≠ PTE2PA (f va) → (∀ p, t !! p ≠ Some pg) → agree (k_mem s) m2 pg) as Hag2.
  { intros pg Hok Hne Hnt. eapply agree_trans; [by apply Hag|].
    apply (gr_frame _ _ _ _ _ _ _ Hst); [done|set_solver|done]. }
  split; split; rewrite ?k_mem_withmem; try done.
  - eapply kmem_inv_agree; [exact Hk|]. intros pg Hin.
    apply (gr_frame _ _ _ _ _ _ _ Hst); [by eapply kmem_page|set_solver|].
    intros p Hpp. apply elem_of_cons in Hin as [->|Hin]; [by eapply Ht|by eapply Hs].
  - apply Hst.
  - intros p pg Hpp [->|Hin]%elem_of_cons; [by eapply Ht|by eapply Hs].
  - intros va' Hu' Hv'. destruct (Hold va' Hu' Hv') as [E _]. rewrite E in *. by apply Hp.
  - intros va' Hu' Hv'. destruct (Hold va' Hu' Hv') as [E Hne]. rewrite E in *.
    intros [?|Hin]%elem_of_cons; [done|]. by eapply Hf.
  - intros va' p Hu' Hv'. destruct (Hold va' Hu' Hv') as [E _]. rewrite E in *. by apply Ht.
  - intros v1 v2 Hu1 Hu2 Hv1 Hv2. destruct (Hold v1 Hu1 Hv1) as [E1 _].
    destruct (Hold v2 Hu2 Hv2) as [E2 _]. rewrite E1, E2 in *. by apply Hi.
  - intros x Hx. rewrite Hview by (unfold uva in Hu; lia). unfold pte_set. case_decide; [done|]. by apply Hkern.
  - intros pg. unfold owned. rewrite k_mem_withmem. split.
    + intros [[->|Hin]%elem_of_cons|[Hin|(va' & Hu' & Hv' & <-)]]; [eauto 6|by left|by right; left|].
      destruct (Hold va' Hu' Hv') as [E _]. rewrite E in *. eauto 6.
    + intros [Hin|[Hin|(va' & Hu' & Hv' & <-)]]; [left; apply elem_of_cons; by right|by right; left|].
      destruct (decide (va' / PGSIZE = va / PGSIZE)) as [E|E].
      * left. apply elem_of_cons. left. f_equal. by apply pte_at_page.
      * right. right. exists va'. rewrite (Hview va') by (by apply uva_max).
        unfold pte_set. by rewrite decide_False.
  - intros va' Hu' Hv' E. rewrite (Hview va') in E by (by apply uva_max). unfold pte_set in E.
    case_decide as E'; [exfalso; rewrite <- E in Hv'; by apply valid_0 in Hv'|].
    apply Hag2; [by apply Hp|by intros Epa; apply E', Hi|]. intros p. by apply Ht.
  - intros pg Hok Hn. apply Hag2; [done| |].
    + intros ->. apply Hn. right. right. eauto.
    + intros p Hpp. apply Hn. right. left. eauto.
Qed.

Lemma wp_unmap_step root s l t va (k : K unit) Q :
  asp root s l t → uva va →
  (∀ s' l', asp root s' l' t → moves s l t s' l' t →
     (∀ va', 0 ≤ va' < MAXVA → pte_at (k_mem s') t va' =
        unmap_view (λ x, x / PGSIZE = va / PGSIZE) (pte_at (k_mem s) t) va') →
     wp k Q s') →
  wp (pte ← walk root va false;
      (if pte =? 0 then ret tt else
       v ← load64 pte;
       if Z.land v PTE_V =? 0 then ret tt else
       whenM true (kfree (PTE2PA v)) ;; store64 pte 0) ;; k) Q s.
Proof.
  intros Ha Hu HQ. pose proof (uva_max _ Hu). pose proof (as_repr _ _ _ _ Ha) as Hr.
  assert (¬ valid (pte_at (k_mem s) t va) → wp k Q s) as Hsame.
  { intros Hnv. apply (HQ s l Ha (moves_refl _ _ _)). intros va' Hva'. unfold unmap_view.
    rewrite decide_False; [done|]. intros [E Hv]. apply Hnv. by rewrite (pte_at_page _ _ va va'). }
  apply wp_bind. eapply wp_eq; [by apply (walk_run _ t); [|lia]|].
  destruct (t !! vpath va) as [lf|] eqn:El.
  2: { apply wp_bind. cbn [Z.eqb]. apply wp_ret, Hsame. unfold pte_at. rewrite El. apply valid_0. }
  pose proof (leaf_addr_pos _ _ _ _ _ Hr El). rewrite (proj2 (Z.eqb_neq _ 0)) by lia.
  apply wp_bind, wp_bind, wp_load64. rewrite <- (pte_at_leaf _ _ _ _ El).
  destruct (Z.eqb_spec (Z.land (pte_at (k_mem s) t va) PTE_V) 0) as [E|Hv].
  { apply wp_ret, Hsame. intros Hv. by apply Hv. }
  cbn [whenM]. apply wp_bind.
  apply (wp_kfree_page s l); [apply Ha|by apply (as_page _ _ _ _ Ha)|by apply (as_free _ _ _ _ Ha)|apply Ha|].
  intros m1 f1 Hk1 Hag. apply wp_store64. rewrite withmem_withmem, k_mem_withmem, k_freelist_withmem.
  assert (∀ p pg, t !! p = Some pg → agree (k_mem s) m1 pg) as Htab.
  { intros p pg Hp. apply Hag; [by eapply pt_page|]. intros ->. by eapply (as_table _ _ _ _ Ha va). }
  assert (pt_repr m1 t root) as Hr1 by (eapply pt_repr_agree; eauto).
  pose proof (st_leaf root m1 t va lf 0 Hr1 El ltac:(lia) ltac:(lia)) as Hst.
  set (m2 := st64 m1 _ _) in *. clearbody m2.
  assert (∀ va', 0 ≤ va' < MAXVA → pte_at m2 t va' = pte_set va 0 (pte_at (k_mem s) t) va') as Hview.
  { intros va' Hva'. rewrite (gr_pte _ _ _ _ _ _ _ Hst) by done. unfold pte_set.
    case_decide; [done|]. apply pte_at_agree. eauto. }
  destruct (asp_unmap root s l t va m1 f1 m2 Ha Hu Hv Hk1 Hag Hst Hview) as [Ha' Hm'].
  apply (HQ _ _ Ha' Hm'). intros va' Hva'. rewrite k_mem_withmem, Hview by done.
  unfold pte_set, unmap_view. repeat case_decide; try done; [|naive_solver].
  destruct (decide (valid (pte_at (k_mem s) t va'))); [naive_solver|].
  exfalso. apply n. by rewrite (pte_at_page _ _ va' va).
Qed.

(** The pages [va], [va + PGSIZE], ... ([n] of them). *)
Definition in_range (va : Z) (n : nat) (x : Z) : Prop :=
  va / PGSIZE ≤ x / PGSIZE < va / PGSIZE + Z.of_nat n.
#[global] Instance in_range_dec va n x : Decision (in_range va n x).
Proof. unfold in_range. apply _. Defined.

Lemma page_div_next va : (va + PGSIZE) / PGSIZE = va / PGSIZE + 1.
Proof. rewrite <- (Z.mul_1_l PGSIZE) at 1. by apply Z.div_add. Qed.

Lemma unmap_view_S va n f x :
  unmap_view (in_range (va + PGSIZE) n) (unmap_view (λ y, y / PGSIZE = va / PGSIZE) f) x =
  unmap_view (in_range va (S n)) f x.
Proof.
  unfold unmap_view, in_range. pose proof (page_div_next va) as E. pose proof valid_0 as H0.
  destruct (decide (x / PGSIZE = va / PGSIZE ∧ valid (f x))) as [[E1 Hv]|Hn].
  - rewrite decide_False by tauto. rewrite decide_True; [done|]. split; [lia|done].
  - case_decide as C1; case_decide as C2; try done; exfalso.
    + destruct C1 as [C1 Hv]. apply C2. split; [lia|done].
    + destruct C2 as [C2 Hv]. destruct (decide (x / PGSIZE = va / PGSIZE)) as [Ex|Ex];
        [by apply Hn|]. apply C1. split; [lia|done].
Qed.

Lemma unmap_view_ext P `{∀ x, Decision (P x)} f g x :
  f x = g x → unmap_view P f x = unmap_view P g x.
Proof. unfold unmap_view. by intros ->. Qed.

Lemma unmap_view_valid P `{∀ x, Decision (P x)} f x :
  valid (unmap_view P f x) → unmap_view P f x = f x ∧ ¬ P x.
Proof.
  unfold unmap_view. case_decide; [by intros ?%valid_0|]. intros Hv. split; [done|]. tauto.
Qed.

Lemma unmap_view_invalid P `{∀ x, Decision (P x)} f x : ¬ valid (f x) → unmap_view P f x = f x.
Proof. unfold unmap_view. case_decide; [|done]. tauto. Qed.

Definition uvmunmap_post root s l t (P : Z → Prop) `{∀ x, Decision (P x)} (Q : kstate → Prop) : Prop :=
  ∀ s' l', asp root s' l' t → moves s l t s' l' t →
    (∀ x, 0 ≤ x < MAXVA → pte_at (k_mem s') t x = unmap_view P (pte_at (k_mem s) t) x) → Q s'.

Lemma uvmunmap_loop_S f pt a stop do_free :
  uvmunmap_loop (S f) pt a stop do_free =
    if a <? stop then
      (pte ← walk pt a false;
       (if pte =? 0 then ret tt else
        v ← load64 pte;
        if Z.land v PTE_V =? 0 then ret tt else
        whenM do_free (kfree (PTE2PA v)) ;; store64 pte 0) ;;
       uvmunmap_loop f pt (u64 (a + PGSIZE)) stop do_free)
    else ret tt.
Proof. reflexivity. Qed.

Lemma wp_uvmunmap_loop n root s l t va Q :
  asp root s l t → va mod PGSIZE = 0 → 0 ≤ va → va + Z.of_nat n * PGSIZE ≤ TRAPFRAME →
  uvmunmap_post root s l t (in_range va n) (Q tt) →
  wp (uvmunmap_loop n root va (va + Z.of_nat n * PGSIZE) true) Q s.
Proof.
  pose proof TRAPFRAME_val as HTF. revert s l va.
  induction n as [|n IH]; intros s l va Ha Hal H0 Hmax HQ; unfold PGSIZE in Hmax.
  - unfold uvmunmap_loop. destruct (Z.ltb_spec va (va + Z.of_nat 0 * PGSIZE)); [lia|].
    apply wp_ret, (HQ s l Ha (moves_refl _ _ _)). intros x Hx. unfold unmap_view.
    rewrite decide_False; [done|]. unfold in_range. lia.
  - rewrite uvmunmap_loop_S. destruct (Z.ltb_spec va (va + Z.of_nat (S n) * PGSIZE)); [|unfold PGSIZE in *; lia].
    apply (wp_unmap_step root s l t); [done|unfold uva; lia|].
    intros s1 l1 Ha1 Hm1 Hv1. rewrite u64_small by (unfold PGSIZE; lia).
    replace (va + Z.of_nat (S n) * PGSIZE) with (va + PGSIZE + Z.of_nat n * PGSIZE) by lia.
    apply (IH s1 l1); [done|by apply page_next|unfold PGSIZE; lia|unfold PGSIZE; lia|].
    intros s2 l2 Ha2 Hm2 Hv2. apply (HQ s2 l2 Ha2).
    + eapply moves_trans; [exact Hm1|exact Hm2|]. intros x Hx Hvx E.
      pose proof (uva_max _ Hx). rewrite Hv2 in E by done. rewrite <- E in Hvx.
      destruct (unmap_view_valid _ _ _ Hvx) as [E2 _]. congruence.
    + intros x Hx. rewrite Hv2 by done. rewrite <- unmap_view_S. apply unmap_view_ext. by apply Hv1.
Qed.

Lemma wp_uvmunmap n root s l t va Q :
  asp root s l t → va mod PGSIZE = 0 → 0 ≤ va → va + Z.of_nat n * PGSIZE ≤ TRAPFRAME →
  uvmunmap_post root s l t (in_range va n) (Q tt) →
  wp (uvmunmap root va (Z.of_nat n) true) Q s.
Proof.
  intros Ha Hal H0 Hmax HQ. unfold uvmunmap. rewrite Hal. cbn [Z.eqb negb].
  pose proof TRAPFRAME_val. unfold PGSIZE in Hmax.
  rewrite Nat2Z.id, u64_small by (unfold PGSIZE; lia).
  apply (wp_uvmunmap_loop n root s l t); try done. 
Qed.

(** [uvmdealloc]: the pages from [PGROUNDUP newsz] to [PGROUNDUP oldsz] go. *)
Definition above (lo hi x : Z) : Prop := PGROUNDUP lo ≤ x < PGROUNDUP hi.
#[global] Instance above_dec lo hi x : Decision (above lo hi x).
Proof. unfold above. apply _. Defined.

Lemma in_range_above a b x :
  0 ≤ a ≤ b → b < 2 ^ 63 → 0 ≤ x →
  in_range (PGROUNDUP a) (Z.to_nat ((PGROUNDUP b - PGROUNDUP a) / PGSIZE)) x ↔ above a b x.
Proof.
  intros Hab Hb Hx. unfold in_range, above.
  destruct (PGROUNDUP_spec a ltac:(lia)) as [Ha1 Ha2].
  destruct (PGROUNDUP_spec b ltac:(lia)) as [Hb1 Hb2]. unfold PGSIZE in *. dlia.
Qed.

Lemma wp_uvmdealloc root s l t oldsz newsz Q :
  asp root s l t → 0 ≤ newsz → newsz ≤ oldsz → oldsz ≤ TRAPFRAME →
  uvmunmap_post root s l t (above newsz oldsz) (Q newsz) →
  wp (uvmdealloc root oldsz newsz) Q s.
Proof.
  intros Ha H0 Hle Hmax HQ. unfold uvmdealloc. pose proof TRAPFRAME_val.
  destruct (PGROUNDUP_spec newsz ltac:(lia)) as [Ha1 Ha2].
  destruct (PGROUNDUP_spec oldsz ltac:(lia)) as [Hb1 Hb2].
  assert (∀ s', s' = s → PGROUNDUP oldsz ≤ PGROUNDUP newsz → Q newsz s') as Hsame.
  { intros s' -> Hge. apply (HQ s l Ha (moves_refl _ _ _)). intros x Hx. unfold unmap_view.
    rewrite decide_False; [done|]. unfold above. lia. }
  destruct (Z.leb_spec oldsz newsz).
  { apply wp_ret. replace oldsz with newsz in * by lia. by apply Hsame. }
  destruct (Z.ltb_spec (PGROUNDUP newsz) (PGROUNDUP oldsz)) as [Hlt|Hge]; cbn [whenM].
  2: { wp_go. by apply Hsame. }
  apply wp_bind. set (n := Z.to_nat ((PGROUNDUP oldsz - PGROUNDUP newsz) / PGSIZE)).
  assert (Z.of_nat n = (PGROUNDUP oldsz - PGROUNDUP newsz) / PGSIZE) as Hn
    by (unfold n; rewrite Z2Nat.id; [done|]; unfold PGSIZE; dlia).
  assert (Z.of_nat n < 2 ^ 31) by (rewrite Hn; unfold PGSIZE in *; dlia).
  rewrite <- Hn, i32_small, u64_small by lia.
  apply (wp_uvmunmap n root s l t); [done|done|lia|rewrite Hn; unfold PGSIZE in *; dlia|].
  intros s' l' Ha' Hm' Hv'. apply wp_ret. apply (HQ s' l' Ha' Hm').
  intros x Hx. rewrite Hv' by done. unfold unmap_view, n.
  repeat case_decide; try done; exfalso; rewrite in_range_above in * by lia; naive_solver.
Qed.

(** ** Mapping a fresh page *)

(** A step that takes pages off the free list for the table and for at most one
    new mapping, of [va] to [c]. *)
Record takes (root : Z) (s : kstate) l t (va c : Z) (m' : mem) (f' : Z) l' t' (g : Z → Z) : Prop := {
  tk_kmem : kmem_inv (withmem m' f' s) l';
  tk_repr : pt_repr m' t' root;
  tk_sub : ∀ p pg, t !! p = Some pg → t' !! p = Some pg;
  tk_new : ∀ p pg, t' !! p = Some pg → t !! p = Some pg ∨ pg ∈ l;
  tk_sep : pt_sep t' l';
  tk_free : ∀ pg, pg ∈ l' → pg ∈ l;
  tk_all : ∀ pg, pg ∈ l → pg ∈ l' ∨ (∃ p, t' !! p = Some pg) ∨
             (∃ x, uva x ∧ valid (g x) ∧ PTE2PA (g x) = pg);
  tk_view : ∀ x, 0 ≤ x < MAXVA → pte_at m' t' x = g x;
  tk_entry : ∀ x, uva x → valid (g x) → g x = pte_at (k_mem s) t x ∨
    (x / PGSIZE = va / PGSIZE ∧ PTE2PA (g x) = c ∧ c ∈ l ∧ c ∉ l' ∧ ∀ p, t' !! p ≠ Some c);
  tk_kern : ∀ x, TRAPFRAME ≤ x < MAXVA → g x = pte_at (k_mem s) t x;
  tk_old : ∀ x, uva x → valid (pte_at (k_mem s) t x) → g x = pte_at (k_mem s) t x;
  tk_frame : ∀ pg, page_ok pg → pg ∉ l → (∀ p, t !! p ≠ Some pg) → agree (k_mem s) m' pg;
}.

Lemma takes_asp root s l t va c m' f' l' t' g :
  asp root s l t → takes root s l t va c m' f' l' t' g →
  asp root (withmem m' f' s) l' t' ∧ moves s l t (withmem m' f' s) l' t'.
Proof.
  intros [Hk Hlk Hr Hs Hp Hf Ht Hi Hkern] [Tk Tr Tsub Tnew Tsep Tfree Tall Tview Tent Tkern Told Tfr].
  assert (∀ x, uva x → pte_at m' t' x = g x) as Hg by (intros; by apply Tview, uva_max).
  assert (∀ x, uva x → valid (pte_at (k_mem s) t x) → PTE2PA (pte_at (k_mem s) t x) ≠ c ∨ c ∉ l) as Hc.
  { intros x Hx Hv. destruct (decide (PTE2PA (pte_at (k_mem s) t x) = c)) as [<-|]; [right|by left].
    by apply Hf. }
  split; split; rewrite ?k_mem_withmem; try done.
  - intros x Hx. rewrite (Hg x Hx). intros Hv. destruct (Tent x Hx Hv) as [E|(_ & -> & Hin & _)].
    + rewrite E in *. by apply Hp.
    + by apply (kmem_page s l).
  - intros x Hx. rewrite (Hg x Hx). intros Hv. destruct (Tent x Hx Hv) as [E|(_ & -> & _ & Hn & _)].
    + rewrite E in *. intros Hin%Tfree. by eapply Hf.
    + done.
  - intros x p Hx. rewrite (Hg x Hx). intros Hv. destruct (Tent x Hx Hv) as [E|(_ & -> & _ & _ & Hn)].
    + rewrite E in *. intros [Hpp|Hpp]%Tnew; [by eapply Ht|by eapply Hf].
    + done.
  - intros x y Hx Hy. rewrite (Hg x Hx), (Hg y Hy). intros Hvx Hvy Hpa.
    destruct (Tent x Hx Hvx) as [E|(Ex & Ec & Hcl & _)]; destruct (Tent y Hy Hvy) as [E'|(Ey & Ec' & Hcl' & _)].
    + rewrite E, E' in *. by apply Hi.
    + rewrite E in *. destruct (Hc x Hx Hvx); [congruence|done].
    + rewrite E' in *. destruct (Hc y Hy Hvy); [congruence|done].
    + congruence.
  - intros x Hx. pose proof TRAPFRAME_val. rewrite Tview, Tkern by lia. by apply Hkern.
  - intros pg. unfold owned. rewrite k_mem_withmem. split.
    + intros [Hin|[[p Hpp]|(x & Hx & Hv & <-)]].
      * left. by apply Tfree.
      * destruct (Tnew _ _ Hpp); [right; left; eauto|by left].
      * rewrite (Hg x Hx) in *. destruct (Tent x Hx Hv) as [E|(_ & -> & Hin & _)]; [|by left].
        rewrite E in *. eauto 6.
    + intros [Hin|[[p Hpp]|(x & Hx & Hv & <-)]].
      * destruct (Tall _ Hin) as [?|[?|(x & Hx & Hv & E)]]; [by left|by right; left|].
        right. right. exists x. by rewrite (Hg x Hx).
      * right. left. eauto.
      * right. right. exists x. rewrite (Hg x Hx), (Told x Hx Hv). done.
  - intros x Hx Hv _. apply Tfr; [by apply Hp|by apply Hf|]. intros p. by apply Ht.
  - intros pg Hok Hn. apply Tfr; [done| |].
    + intros Hin. apply Hn. by left.
    + intros p Hpp. apply Hn. right. left. eauto.
Qed.

Definition mkpte (pa perm : Z) : Z := Z.lor (Z.lor (PA2PTE pa) perm) PTE_V.

Lemma mkpte_range perm : 0 ≤ perm < 1024 → 0 ≤ Z.lor perm PTE_V < 1024.
Proof. intros. by apply (lor_range _ _ 10). Qed.
Lemma mkpte_pa pa perm : page_ok pa → 0 ≤ perm < 1024 → PTE2PA (mkpte pa perm) = pa.
Proof.
  intros. unfold mkpte. rewrite <- Z.lor_assoc. apply PTE2PA_page; [done|by apply mkpte_range].
Qed.
Lemma mkpte_valid pa perm : page_ok pa → 0 ≤ perm < 1024 → valid (mkpte pa perm).
Proof.
  intros. unfold valid, mkpte. rewrite <- Z.lor_assoc. apply pte_valid; [done|].
  rewrite Z.lor_spec. by rewrite orb_true_r.
Qed.
Lemma mkpte_flags pa perm : page_ok pa → 0 ≤ perm < 1024 → PTE_FLAGS (mkpte pa perm) = Z.lor perm PTE_V.
Proof.
  intros. unfold mkpte. rewrite <- Z.lor_assoc.
  apply PTE_FLAGS_PA2PTE; [by apply page_ok_pte|by apply mkpte_range].
Qed.
Lemma mkpte_land pa perm c : page_ok pa → 0 ≤ c < 1024 →
  Z.land (mkpte pa perm) c = Z.land (Z.lor perm PTE_V) c.
Proof. intros. unfold mkpte. rewrite <- Z.lor_assoc. apply PA2PTE_land; [by apply page_ok_pte|done]. Qed.

Lemma map_view_1 va pa perm f x :
  map_view va 1 pa perm f x = pte_set va (mkpte pa perm) f x.
Proof.
  unfold map_view, pte_set, mkpte. repeat case_decide; try lia; try done.
  by replace (pa + (x / PGSIZE - va / PGSIZE) * PGSIZE) with pa by lia.
Qed.

(** The table has grown by [new] in a memory [m2] where the page [c], taken
    before, was filled. *)
Section fresh.
Context (root : Z) (s : kstate) (t : ptree) (c : Z) (new l3 : list Z) (m2 m3 : mem) (t3 : ptree).
Context (g : Z → Z).
Context (Ha : asp root s (c :: new ++ l3) t) (Hc : page_ok c) (Hcn : c ∉ new ++ l3).
Context (Hag : ∀ pg, page_ok pg → pg ≠ c → agree (k_mem s) m2 pg).
Context (Hst : pt_step root m2 t new m3 t3 g).

Lemma fresh_table p : t !! p ≠ Some c.
Proof. intros Hp. apply (as_sep _ _ _ _ Ha _ _ Hp), list_elem_of_here. Qed.
Lemma fresh_table3 p : t3 !! p ≠ Some c.
Proof.
  intros Hp. destruct (gr_new _ _ _ _ _ _ _ Hst _ _ Hp); [by eapply fresh_table|].
  apply Hcn. apply elem_of_app. by left.
Qed.
Lemma fresh_new p pg : t3 !! p = Some pg → t !! p = Some pg ∨ pg ∈ c :: new ++ l3.
Proof.
  intros Hp. destruct (gr_new _ _ _ _ _ _ _ Hst _ _ Hp); [by left|right].
  apply elem_of_cons. right. apply elem_of_app. by left.
Qed.
Lemma fresh_frame pg :
  page_ok pg → pg ∉ c :: new ++ l3 → (∀ p, t !! p ≠ Some pg) → agree (k_mem s) m3 pg.
Proof.
  rewrite not_elem_of_cons, not_elem_of_app. intros Hok (Hn & Hn' & _) Hnt.
  eapply agree_trans; [by apply Hag|]. by apply (gr_frame _ _ _ _ _ _ _ Hst).
Qed.
Lemma fresh_sep : pt_sep t3 l3.
Proof.
  pose proof (kmem_nodup _ _ (as_kmem _ _ _ _ Ha)) as Hnd. apply list.NoDup_cons in Hnd as [_ Hnd].
  eapply pt_step_sep; [exact Hst| |exact Hnd]. intros p pg Hp Hin.
  apply (as_sep _ _ _ _ Ha _ _ Hp). by apply list_elem_of_further.
Qed.

Lemma takes_mapped va perm f3 :
  g = pte_set va (mkpte c perm) (pte_at (k_mem s) t) →
  uva va → ¬ valid (pte_at (k_mem s) t va) → 0 ≤ perm < 1024 →
  kmem_inv (withmem m3 f3 s) l3 → takes root s (c :: new ++ l3) t va c m3 f3 l3 t3 g.
Proof.
  intros Eg Hu Hnv Hperm Hk. split; try done; try apply Hst.
  - apply fresh_new.
  - apply fresh_sep.
  - intros pg Hin. apply elem_of_cons. right. apply elem_of_app. by right.
  - intros pg [->|[Hin|Hin]%elem_of_app]%elem_of_cons; [|right; left; by apply Hst|by left].
    right. right. exists va. rewrite Eg. unfold pte_set. rewrite decide_True by done.
    split; [done|]. split; [by apply mkpte_valid|by apply mkpte_pa].
  - intros x Hx Hvx. rewrite Eg in Hvx |- *. unfold pte_set in Hvx |- *. case_decide; [right|by left].
    rewrite mkpte_pa by done. pose proof (proj2 (proj1 (not_elem_of_app _ _ _) Hcn)).
    repeat split; try done; [apply list_elem_of_here|]. apply fresh_table3.
  - intros x Hx. rewrite Eg. unfold pte_set. case_decide as E; [|done].
    apply uva_page in E; [lia|done].
  - intros x Hx Hvx. rewrite Eg. unfold pte_set. case_decide as E; [|done].
    exfalso. apply Hnv. by rewrite (pte_at_page _ _ va x).
  - apply fresh_frame.
Qed.

Lemma takes_failed va m4 f4 :
  l3 = [] → g = pte_at (k_mem s) t → kmem_inv (withmem m4 f4 s) [c] →
  (∀ pg, page_ok pg → pg ≠ c → agree m3 m4 pg) →
  takes root s (c :: new ++ l3) t va c m4 f4 [c] t3 g.
Proof.
  intros El Eg Hk Hag4. pose proof (gr_repr _ _ _ _ _ _ _ Hst) as Hr3.
  assert (∀ p pg, t3 !! p = Some pg → agree m3 m4 pg) as Htab.
  { intros p pg Hp. apply Hag4; [by eapply pt_page|]. intros ->. by eapply fresh_table3. }
  split; try done.
  - eapply pt_repr_agree; [exact Hr3|eauto].
  - apply Hst.
  - apply fresh_new.
  - intros p pg Hp ->%list_elem_of_singleton. by eapply fresh_table3.
  - intros pg ->%list_elem_of_singleton. apply list_elem_of_here.
  - intros pg [->|[Hin|Hin]%elem_of_app]%elem_of_cons; [left; apply list_elem_of_here|right; left; by apply Hst|].
    rewrite El in Hin. by apply elem_of_nil in Hin.
  - intros x Hx. rewrite (pte_at_agree m3 m4) by eauto. by apply Hst.
  - intros x Hx _. left. by rewrite Eg.
  - intros x Hx. by rewrite Eg.
  - intros x Hx _. by rewrite Eg.
  - intros pg Hok Hn Hnt. eapply agree_trans; [by apply fresh_frame|].
    apply Hag4; [done|]. by apply not_elem_of_cons in Hn as [? _].
Qed.
End fresh.

(** A page fill that stays inside the page. *)
Definition fills (fill : Z → mem → mem) : Prop :=
  ∀ c m pg, page_ok c → page_ok pg → pg ≠ c → agree m (fill c m) pg.

(** The pattern of [uvmalloc], [uvmcopy] and [vmfault]: allocate a page, fill it
    and map it at [va], giving it back when the table cannot grow. *)
Definition alloc_map {A} (root va perm : Z) (fill : Z → mem → mem) (E1 E2 : K A) (k : Z → K A) : K A :=
  c ← kalloc;
  if c =? 0 then E1 else
  modmem (fill c) ;;
  r ← mappages root va PGSIZE c perm;
  if negb (r =? 0) then kfree c ;; E2 else k c.

(** What the continuation of a successful mapping may rely on. *)
Record mapped (root : Z) s l t (va perm : Z) (fill : Z → mem → mem) c s' l' t' : Prop := {
  mp_asp : asp root s' l' t';
  mp_moves : moves s l t s' l' t';
  mp_page : page_ok c;
  mp_from : c ∈ l;
  mp_view : ∀ x, 0 ≤ x < MAXVA →
    pte_at (k_mem s') t' x = pte_set va (mkpte c perm) (pte_at (k_mem s) t) x;
  mp_fill : ∃ m1, (∀ pg, page_ok pg → pg ≠ c → agree (k_mem s) m1 pg) ∧
                  agree (fill c m1) (k_mem s') c;
}.

Lemma wp_alloc_map {A} root s l t va perm fill (E1 E2 : K A) k Q :
  asp root s l t → uva va → va mod PGSIZE = 0 → ¬ valid (pte_at (k_mem s) t va) →
  0 ≤ perm < 1024 → fills fill →
  (l = [] → wp E1 Q s) →
  (∀ s' l' t', asp root s' l' t' → moves s l t s' l' t' →
     (∀ x, 0 ≤ x < MAXVA → pte_at (k_mem s') t' x = pte_at (k_mem s) t x) → wp E2 Q s') →
  (∀ c s' l' t', mapped root s l t va perm fill c s' l' t' → wp (k c) Q s') →
  wp (alloc_map root va perm fill E1 E2 k) Q s.
Proof.
  intros Ha Hu Hal Hnv Hperm Hfill HE1 HE2 HQ. pose proof Ha as [Hk Hlk Hr Hs _ _ _ _ _].
  unfold alloc_map. apply wp_bind, (wp_kalloc_page s l); [done|done|intros ->; by apply HE1|].
  intros c l1 m1 f1 -> Hc Hc0 Hcl Hk1 Hag1. rewrite (proj2 (Z.eqb_neq c 0) Hc0).
  apply wp_bind, wp_modify. rewrite upd_mem_withmem. set (m2 := fill c m1).
  assert (∀ pg, page_ok pg → pg ≠ c → agree (k_mem s) m2 pg) as Hag2
    by (intros; eapply agree_trans; [by apply Hag1|by apply Hfill]).
  assert (∀ p pg, t !! p = Some pg → agree (k_mem s) m2 pg) as Htab.
  { intros p pg Hpp. apply Hag2; [by eapply pt_page|]. intros ->. apply (Hs _ _ Hpp), list_elem_of_here. }
  assert (∀ x, pte_at m2 t x = pte_at (k_mem s) t x) as Hpte by (intros; apply pte_at_agree; eauto).
  apply wp_bind. replace PGSIZE with (Z.of_nat 1 * PGSIZE) by done.
  pose proof (page_ok_pte c Hc) as [Hca Hcr]. pose proof (page_ok_pos c Hc).
  pose proof TRAPFRAME_val. pose proof MAXVA_val.
  apply (wp_mappages 1 (withmem m2 f1 s) t root l1); try done;
    try (unfold uva, PHYSTOP, KERNBASE, PGSIZE in *; lia).
  { eapply kmem_inv_agree; [exact Hk1|]. intros pg Hin. apply Hfill; [done|by eapply kmem_page|by intros ->]. }
  { eapply pt_repr_agree; eauto. }
  { intros p pg Hpp Hin. apply (Hs _ _ Hpp). by apply list_elem_of_further. }
  { intros j Hj. replace (va + j * PGSIZE) with va by (unfold PGSIZE; lia).
    rewrite k_mem_withmem, Hpte. unfold valid in Hnv. lia. }
  intros j m3 f3 t3 new l3 r -> Hres Hst Hk3. rewrite withmem_withmem, k_mem_withmem in *.
  destruct Hres as [[-> ->]|(-> & Hj & El3)]; cbn [Z.eqb negb].
  - apply pt_step_view with (g := pte_set va (mkpte c perm) (pte_at (k_mem s) t)) in Hst.
    2: { intros x _. rewrite map_view_1. unfold pte_set. case_decide; [done|]. apply Hpte. }
    destruct (takes_asp _ _ _ _ _ _ _ _ _ _ _ Ha
      (takes_mapped root s t c new l3 m2 m3 t3 _ Ha Hc Hcl Hag2 Hst va perm f3 eq_refl Hu Hnv Hperm Hk3)) as [Ha' Hm'].
    apply (HQ c _ l3 t3). split; [done|done|done|apply list_elem_of_here| |].
    + intros x Hx. by apply (gr_pte _ _ _ _ _ _ _ Hst).
    + exists m1. split; [done|]. apply not_elem_of_app in Hcl as [Hcl _].
      apply (gr_frame _ _ _ _ _ _ _ Hst); [done|done|].
      intros p Hpp. by apply (fresh_table root s t c new l3 Ha p).
  - replace j with O in Hst by lia.
    apply pt_step_view with (g := pte_at (k_mem s) t) in Hst.
    2: { intros x _. by rewrite map_view_0. }
    apply wp_bind, (wp_kfree_page (withmem m3 f3 s) l3); [done|done| |done|].
    { rewrite El3. apply not_elem_of_nil. }
    intros m4 f4 Hk4 Hag4. rewrite withmem_withmem, k_mem_withmem in *. rewrite El3 in Hk4.
    destruct (takes_asp _ _ _ _ _ _ _ _ _ _ _ Ha
      (takes_failed root s t c new l3 m2 m3 t3 _ Ha Hcl Hag2 Hst va m4 f4 El3 eq_refl Hk4 Hag4)) as [Ha' Hm'].
    apply (HE2 _ [c] t3 Ha' Hm'). intros x Hx. rewrite k_mem_withmem.
    rewrite (pte_at_agree m3 m4); [by apply (gr_pte _ _ _ _ _ _ _ Hst)|].
    intros p pg Hpp _. apply Hag4; [eapply pt_page; [apply Hst|done]|].
    intros ->. by apply (fresh_table3 root s t c new l3 m2 m3 t3 _ Ha Hcl Hst p).
Qed.

(** ** Growing: [uvmalloc] *)

Definition zero_page (m : mem) (pg : Z) : Prop := ∀ b, in_page pg b → ld8 m b = 0.

Lemma zero_page_agree m m' pg : zero_page m pg → agree m m' pg → zero_page m' pg.
Proof. intros Hz Ha b Hb. by rewrite Ha, Hz. Qed.

Definition zero_fill_page (c : Z) (m : mem) : mem := memset m c 0 PGSIZE.

Lemma zero_fills : fills zero_fill_page.
Proof. intros c m pg [Hc _] [Hp _] Hne. by apply agree_memset. Qed.

Lemma zero_fill_zero c m : zero_page (zero_fill_page c m) c.
Proof.
  intros b Hb. unfold zero_fill_page. rewrite memset_ld8 by done.
  by rewrite decide_True.
Qed.

(** The addresses of [P] are mapped to fresh zeroed pages, the others as before. *)
Definition zero_mapped (P : Z → Prop) (perm : Z) (f : Z → Z) (m' : mem) (t' : ptree) : Prop :=
  ∀ x, 0 ≤ x < MAXVA →
    (P x → ∃ c, page_ok c ∧ pte_at m' t' x = mkpte c perm ∧ zero_page m' c) ∧
    (¬ P x → pte_at m' t' x = f x).

(** The same pages are mapped, with the same entries. *)
Definition same_map (f f' : Z → Z) : Prop :=
  ∀ x, 0 ≤ x < MAXVA → f' x = f x ∨ (¬ valid (f x) ∧ ¬ valid (f' x)).

Definition uvmalloc_post root s l t (oldsz newsz perm : Z) (Q : Z → kstate → Prop) : Prop :=
  (∀ s' l' t', asp root s' l' t' → moves s l t s' l' t' →
     zero_mapped (above oldsz newsz) perm (pte_at (k_mem s) t) (k_mem s') t' → Q newsz s') ∧
  (∀ s' l' t', asp root s' l' t' → moves s l t s' l' t' →
     same_map (pte_at (k_mem s) t) (pte_at (k_mem s') t') → Q 0 s').

Lemma uvmalloc_loop_S f pt a oldsz newsz xperm :
  uvmalloc_loop (S f) pt a oldsz newsz xperm =
    if a <? newsz then
      alloc_map pt a (Z.lor (Z.lor PTE_R PTE_U) xperm) zero_fill_page
        (uvmdealloc pt a oldsz ;; ret 0) (uvmdealloc pt a oldsz ;; ret 0)
        (λ _, uvmalloc_loop f pt (u64 (a + PGSIZE)) oldsz newsz xperm)
    else ret newsz.
Proof. reflexivity. Qed.

(** A step keeps the zeroed pages mapped so far. *)
Lemma zero_mapped_step P perm f s l t s' l' t' :
  (∀ x, P x → uva x) → 0 ≤ perm < 1024 →
  zero_mapped P perm f (k_mem s) t → moves s l t s' l' t' →
  (∀ x, P x → pte_at (k_mem s') t' x = pte_at (k_mem s) t x) →
  ∀ x, 0 ≤ x < MAXVA → P x →
    ∃ c, page_ok c ∧ pte_at (k_mem s') t' x = mkpte c perm ∧ zero_page (k_mem s') c.
Proof.
  intros HP Hperm Hz Hm Hsame x Hx Hpx. destruct (Hz x Hx) as [Hin _].
  destruct (Hin Hpx) as (c & Hc & Ec & Hzc). exists c. rewrite Hsame by done.
  split; [done|]. split; [done|]. eapply zero_page_agree; [exact Hzc|].
  pose proof (mv_keep _ _ _ _ _ _ Hm x (HP x Hpx)) as Hkeep.
  rewrite Ec, mkpte_pa in Hkeep by done. apply Hkeep; [by apply mkpte_valid|].
  rewrite Hsame by done. done.
Qed.

Lemma PGROUNDUP_aligned a : 0 ≤ a < 2 ^ 63 → a mod PGSIZE = 0 → PGROUNDUP a = a.
Proof. intros Hr Ha. destruct (PGROUNDUP_spec a Hr) as [H1 H2]. unfold PGSIZE in *. dlia. Qed.

(** Undoing a partial allocation. *)
Lemma wp_uvmalloc_undo root s0 l0 t0 s l t old a perm Q :
  asp root s l t → moves s0 l0 t0 s l t → 0 ≤ perm < 1024 →
  0 ≤ old → old ≤ a → a ≤ TRAPFRAME → old mod PGSIZE = 0 → a mod PGSIZE = 0 →
  (∀ x, 0 ≤ x < MAXVA → old ≤ x → ¬ valid (pte_at (k_mem s0) t0 x) ∨ a ≤ x) →
  zero_mapped (above old a) perm (pte_at (k_mem s0) t0) (k_mem s) t →
  (∀ s' l' t', asp root s' l' t' → moves s0 l0 t0 s' l' t' →
     same_map (pte_at (k_mem s0) t0) (pte_at (k_mem s') t') → Q 0 s') →
  wp (uvmdealloc root a old ;; ret 0) Q s.
Proof.
  intros Ha Hm Hperm H0 Hle Hmax Hold Hal Hinv Hz HQ. pose proof TRAPFRAME_val.
  assert (PGROUNDUP old = old) as Eo by (apply PGROUNDUP_aligned; [lia|done]).
  assert (PGROUNDUP a = a) as Ea by (apply PGROUNDUP_aligned; [lia|done]).
  apply wp_bind, (wp_uvmdealloc root s l t); [done|done|done|done|].
  intros s' l' Ha' Hm' Hv'. apply wp_ret. apply (HQ s' l' t Ha').
  - eapply moves_trans; [exact Hm|exact Hm'|]. intros x Hx Hvx E.
    destruct (Hz x (uva_max _ Hx)) as [_ Hout]. apply Hout. unfold above. rewrite Eo, Ea. intros Hr.
    destruct (Hinv x (uva_max _ Hx)); [lia|done|lia].
  - intros x Hx. rewrite Hv' by done. destruct (Hz x Hx) as [_ Hout].
    destruct (decide (above old a x)) as [Hab|Hab].
    + right. split.
      * unfold above in Hab. rewrite Eo, Ea in Hab. destruct (Hinv x Hx); [lia|done|lia].
      * intros [_ Hn]%unmap_view_valid. done.
    + left. rewrite <- Hout by done. unfold unmap_view. by rewrite decide_False by tauto.
Qed.

(** One more page mapped. *)
Lemma zero_mapped_extend root f0 s l t s1 l1 t1 old a perm c :
  0 ≤ perm < 1024 → 0 ≤ old → old ≤ a → a + PGSIZE ≤ TRAPFRAME →
  old mod PGSIZE = 0 → a mod PGSIZE = 0 →
  zero_mapped (above old a) perm f0 (k_mem s) t →
  mapped root s l t a perm zero_fill_page c s1 l1 t1 →
  zero_mapped (above old (a + PGSIZE)) perm f0 (k_mem s1) t1.
Proof.
  intros Hperm H0 Hle Hmax Hold Hal Hz [Ma Mm Mc _ Mv (m1 & _ & Mf)] x Hx.
  pose proof TRAPFRAME_val. pose proof MAXVA_val.
  assert (PGROUNDUP old = old) as Eo by (apply PGROUNDUP_aligned; [unfold PGSIZE in *; lia|done]).
  assert (PGROUNDUP a = a) as Ea by (apply PGROUNDUP_aligned; [unfold PGSIZE in *; lia|done]).
  assert (PGROUNDUP (a + PGSIZE) = a + PGSIZE) as Ea'
    by (apply PGROUNDUP_aligned; [unfold PGSIZE in *; lia|by apply page_next]).
  split.
  - intros Hab. destruct (decide (x / PGSIZE = a / PGSIZE)) as [E|E].
    + exists c. rewrite Mv by done. unfold pte_set. rewrite decide_True by done.
      split; [done|]. split; [done|]. eapply zero_page_agree; [apply zero_fill_zero|exact Mf].
    + assert (above old a x) as Hab'
        by (unfold above in *; rewrite Eo, Ea, Ea' in *; unfold PGSIZE in *; dlia).
      apply (zero_mapped_step (above old a) perm f0 s l t s1 l1 t1); try done.
      * unfold above, uva. intros y. rewrite Eo, Ea. unfold PGSIZE in *. lia.
      * intros y Hy. unfold above in Hy. rewrite Eo, Ea in Hy.
        rewrite Mv by (unfold PGSIZE in *; lia). unfold pte_set. rewrite decide_False; [done|].
        unfold PGSIZE in *; dlia.
  - intros Hnab. rewrite Mv by done. unfold pte_set. rewrite decide_False.
    + apply Hz; [done|]. unfold above in *. rewrite Ea' in Hnab. rewrite Ea.
      unfold PGSIZE in *; lia.
    + intros E. apply Hnab. unfold above. rewrite Eo, Ea'. unfold PGSIZE in *; dlia.
Qed.

Lemma wp_uvmalloc_loop n root s0 l0 t0 s l t old a newsz perm xperm Q :
  perm = Z.lor (Z.lor PTE_R PTE_U) xperm → 0 ≤ perm < 1024 →
  asp root s l t → moves s0 l0 t0 s l t →
  0 ≤ old → old ≤ a → old mod PGSIZE = 0 → a mod PGSIZE = 0 →
  0 ≤ newsz → newsz ≤ TRAPFRAME → a ≤ PGROUNDUP newsz →
  Z.of_nat n = (PGROUNDUP newsz - a) / PGSIZE →
  (∀ x, 0 ≤ x < MAXVA → old ≤ x → ¬ valid (pte_at (k_mem s0) t0 x) ∨ PGROUNDUP newsz ≤ x) →
  zero_mapped (above old a) perm (pte_at (k_mem s0) t0) (k_mem s) t →
  uvmalloc_post root s0 l0 t0 old newsz perm Q →
  wp (uvmalloc_loop n root a old newsz xperm) Q s.
Proof.
  intros Eperm Hperm. pose proof TRAPFRAME_val as HTF.
  revert s l t a. induction n as [|n IH];
    intros s l t a Ha Hm H0 Hle Hold Hal Hn0 Hmax Hga Hn Hinv Hz HQ;
    destruct (PGROUNDUP_spec newsz ltac:(lia)) as [Hg1 Hg2];
    assert (PGROUNDUP old = old) as Eo by (apply PGROUNDUP_aligned; [unfold PGSIZE in *; lia|done]);
    assert (PGROUNDUP a = a) as Ea by (apply PGROUNDUP_aligned; [unfold PGSIZE in *; lia|done]).
  - assert (a = PGROUNDUP newsz) as Ean by (unfold PGSIZE in *; dlia).
    unfold uvmalloc_loop. destruct (Z.ltb_spec a newsz); [lia|]. apply wp_ret.
    destruct HQ as [HQ _]. apply (HQ s l t Ha Hm). intros x Hx.
    assert (above old a x ↔ above old newsz x) as <- by (unfold above; rewrite Ea; lia). by apply Hz.
  - rewrite uvmalloc_loop_S, <- Eperm.
    destruct (Z.ltb_spec a newsz) as [Hlt|Hge]; [|exfalso; unfold PGSIZE in *; dlia].
    assert (PGROUNDUP newsz ≤ TRAPFRAME) as Hgt by (unfold PGSIZE in *; dlia).
    assert (a + PGSIZE ≤ PGROUNDUP newsz) as Hstep by (unfold PGSIZE in *; dlia).
    assert (uva a) as Hua by (unfold uva; lia). pose proof (uva_max _ Hua).
    assert (∀ s' l' t', asp root s' l' t' → moves s l t s' l' t' →
      (∀ x, 0 ≤ x < MAXVA → pte_at (k_mem s') t' x = pte_at (k_mem s) t x) →
      wp (uvmdealloc root a old ;; ret 0) Q s') as Hundo.
    { intros s' l' t' Ha' Hm' Hv'.
      eapply (wp_uvmalloc_undo root s0 l0 t0 s' l' t' old a perm); try done; try lia.
      - eapply moves_trans; [exact Hm|exact Hm'|]. intros x Hx _ E. rewrite <- E. symmetry.
        by apply Hv', uva_max.
      - intros x Hx Hox. destruct (Hinv x Hx Hox); [by left|right; lia].
      - intros x Hx. split; [|rewrite Hv' by done; apply Hz; done].
        intros Hab. apply (zero_mapped_step (above old a) perm (pte_at (k_mem s0) t0) s l t s' l' t'); try done.
        + unfold above, uva. intros y. rewrite Eo, Ea. lia.
        + intros y Hy. apply Hv'. unfold above in Hy. rewrite Eo, Ea in Hy. lia.
      - apply HQ. }
    assert (¬ valid (pte_at (k_mem s) t a)) as Hnva.
    { destruct (Hz a ltac:(lia)) as [_ Hout]. rewrite Hout by (unfold above; lia).
      destruct (Hinv a ltac:(lia) ltac:(lia)); [done|unfold PGSIZE in *; lia]. }
    apply (wp_alloc_map root s l t); try done.
    + apply zero_fills.
    + intros ->. apply (Hundo s [] t Ha (moves_refl _ _ _)). done.
    + intros c s1 l1 t1 Hmap. pose proof Hmap as [Ma Mm _ _ Mv _].
      rewrite u64_small by (unfold PGSIZE in *; lia).
      apply (IH s1 l1 t1); try done; try lia; try (by apply page_next);
        try (unfold PGSIZE in *; dlia).
      * eapply moves_trans; [exact Hm|exact Mm|]. intros x Hx Hvx E.
        rewrite <- E. rewrite Mv by (by apply uva_max). unfold pte_set. case_decide as Ex; [|done].
        exfalso. destruct (Hz x (uva_max _ Hx)) as [_ Hout]. pose proof (uva_max _ Hx).
        destruct (Hinv x ltac:(lia)); [unfold PGSIZE in *; dlia|done|unfold PGSIZE in *; dlia].
      * apply (zero_mapped_extend root (pte_at (k_mem s0) t0) s l t s1 l1 t1 old a perm c);
          try done; lia.
Qed.

Lemma wp_uvmalloc root s l t oldsz newsz xperm Q :
  asp root s l t → 0 ≤ oldsz → oldsz ≤ newsz → newsz ≤ TRAPFRAME →
  0 ≤ Z.lor (Z.lor PTE_R PTE_U) xperm < 1024 →
  (∀ x, PGROUNDUP oldsz ≤ x < PGROUNDUP newsz → ¬ valid (pte_at (k_mem s) t x)) →
  uvmalloc_post root s l t oldsz newsz (Z.lor (Z.lor PTE_R PTE_U) xperm) Q →
  wp (uvmalloc root oldsz newsz xperm) Q s.
Proof.
  intros Ha H0 Hle Hmax Hperm Hinv HQ. unfold uvmalloc. pose proof TRAPFRAME_val.
  destruct (Z.ltb_spec newsz oldsz); [lia|].
  destruct (PGROUNDUP_spec oldsz ltac:(lia)) as [Ho1 Ho2].
  destruct (PGROUNDUP_spec newsz ltac:(lia)) as [Hn1 Hn2].
  assert (PGROUNDUP (PGROUNDUP oldsz) = PGROUNDUP oldsz) as Eoo
    by (apply PGROUNDUP_aligned; [unfold PGSIZE in *; lia|done]).
  assert (∀ x, above (PGROUNDUP oldsz) newsz x ↔ above oldsz newsz x) as Hab
    by (intros x; unfold above; rewrite Eoo; done).
  assert (∀ x, ¬ above (PGROUNDUP oldsz) (PGROUNDUP oldsz) x) as Hnone by (intros x; unfold above; lia).
  eapply (wp_uvmalloc_loop _ root s l t s l t); try done; try lia.
  - apply moves_refl.
  - unfold PGSIZE in *; dlia.
  - unfold PGSIZE in *; dlia.
  - intros x Hx Hox. destruct (decide (PGROUNDUP newsz ≤ x)); [by right|left; apply Hinv; lia].
  - intros x Hx. split; [|done]. intros Hx'. by apply Hnone in Hx'.
  - destruct HQ as [HQ1 HQ2]. split; [|done]. intros s' l' t' Ha' Hm' Hz'.
    apply (HQ1 s' l' t' Ha' Hm'). intros x Hx. rewrite <- Hab. by apply Hz'.
Qed.

(** ** A new table *)

Lemma zero_page_entry m pg i : zero_page m pg → 0 ≤ i < 512 → ld64 m (pg + 8 * i) = 0.
Proof. intros Hz Hi. apply ld64_zero. intros b Hb. apply Hz. by eapply entry_in_page. Qed.

(** The table of a zeroed root: nothing is mapped. *)
Lemma pte_at_root m c x : pte_at m {[ [] := c ]} x = 0.
Proof. unfold pte_at, vpath. by rewrite lookup_singleton_ne. Qed.

Lemma asp_root s l c :
  kmem_inv s l → LKmem ∉ k_held s → page_ok c → c ∉ l → zero_page (k_mem s) c →
  asp c s l {[ [] := c ]}.
Proof.
  intros Hk Hlk Hc Hn Hz.
  assert (∀ x, ¬ valid (pte_at (k_mem s) {[ [] := c ]} x)) as Hnv
    by (intros x; rewrite pte_at_root; apply valid_0).
  split; try done.
  - split.
    + apply lookup_singleton_eq.
    + by intros p pg [<- <-]%lookup_singleton_Some.
    + intros p pg [<- <-]%lookup_singleton_Some. simpl. lia.
    + by intros p q pg [<- _]%lookup_singleton_Some [<- _]%lookup_singleton_Some.
    + intros p i pg [E _]%lookup_singleton_Some. by destruct p.
    + intros i p pg [E _]%lookup_singleton_Some. done.
    + intros p pg i [<- <-]%lookup_singleton_Some _ Hi. rewrite lookup_singleton_ne by done.
      by apply zero_page_entry.
  - by intros p pg [<- <-]%lookup_singleton_Some.
  - intros x Hx Hv. by apply Hnv in Hv.
  - intros x Hx Hv. by apply Hnv in Hv.
  - intros x p Hx Hv. by apply Hnv in Hv.
  - intros x y Hx Hy Hv. by apply Hnv in Hv.
  - intros x Hx. by rewrite pte_at_root.
Qed.

Lemma wp_uvmcreate s l Q :
  kmem_inv s l → LKmem ∉ k_held s →
  (l = [] → Q 0 s) →
  (∀ c s' l', l = c :: l' → s' = withmem (k_mem s') (k_freelist s') s → asp c s' l' {[ [] := c ]} →
     (∀ pg, page_ok pg → pg ≠ c → agree (k_mem s) (k_mem s') pg) → Q c s') →
  wp uvmcreate Q s.
Proof.
  intros Hk Hlk Hnil HQ. unfold uvmcreate.
  apply wp_bind, (wp_kalloc_page s l); [done|done|intros ->; by apply wp_ret, Hnil|].
  intros c l1 m1 f1 -> Hc Hc0 Hcl Hk1 Hag. rewrite (proj2 (Z.eqb_neq c 0) Hc0).
  apply wp_bind, wp_modify, wp_ret. rewrite upd_mem_withmem.
  fold (zero_fill_page c m1). apply (HQ c _ l1); [done|done| |].
  - apply asp_root; [|done|done|done|apply zero_fill_zero].
    eapply kmem_inv_agree; [exact Hk1|]. intros pg Hin.
    apply zero_fills; [done|by eapply kmem_page|by intros ->].
  - intros pg Hok Hne. eapply agree_trans; [by apply Hag|by apply zero_fills].
Qed.

(** ** Properties *)

(** C24: [uvmalloc] grows an address space without disturbing anything.  On success
    it returns the new size and exactly the pages from [PGROUNDUP(oldsz)] up to
    [newsz] have become mapped, each to a zeroed page of its own with the requested
    permissions; if memory runs out at any point it returns 0 with the mappings as
    they were.  Either way it returns, no page is leaked or owned twice (the
    invariant [asp] is kept and the owned pages are the same), every page that stays
    mapped keeps its bytes, and no page of another address space is written. *)
Theorem uvmalloc_correct (root : Z) (s : kstate) (l : list Z) (t : ptree) (oldsz newsz xperm : Z)
    (Ha : asp root s l t) (H0 : 0 ≤ oldsz) (Hle : oldsz ≤ newsz) (Hmax : newsz ≤ TRAPFRAME)
    (Hperm : 0 ≤ Z.lor (Z.lor PTE_R PTE_U) xperm < 1024)
    (Hunmapped : ∀ x, PGROUNDUP oldsz ≤ x < PGROUNDUP newsz → ¬ valid (pte_at (k_mem s) t x)) :
  ∃ r s' l' t', uvmalloc root oldsz newsz xperm s = Ret r s' ∧
    asp root s' l' t' ∧ moves s l t s' l' t' ∧
    ((r = newsz ∧ zero_mapped (above oldsz newsz) (Z.lor (Z.lor PTE_R PTE_U) xperm)
                    (pte_at (k_mem s) t) (k_mem s') t') ∨
     (r = 0 ∧ same_map (pte_at (k_mem s) t) (pte_at (k_mem s') t'))).
Proof.
  cut (wp (uvmalloc root oldsz newsz xperm) (λ r s', ∃ l' t', asp root s' l' t' ∧ moves s l t s' l' t' ∧
    ((r = newsz ∧ zero_mapped (above oldsz newsz) (Z.lor (Z.lor PTE_R PTE_U) xperm)
                    (pte_at (k_mem s) t) (k_mem s') t') ∨
     (r = 0 ∧ same_map (pte_at (k_mem s) t) (pte_at (k_mem s') t')))) s).
  { intros (r & s' & Hrun & l' & t' & H)%wp_run. by exists r, s', l', t'. }
  apply (wp_uvmalloc root s l t); try done. split; intros s' l' t' Ha' Hm' Hz'; eauto 8.
Qed.

(** [uvmdealloc] shrinks an address space: it returns the new size, exactly the
    pages from [PGROUNDUP(newsz)] up to [PGROUNDUP(oldsz)] are unmapped and handed
    to the allocator, also when some of them were never allocated, and everything
    else is kept as it was. *)
Theorem uvmdealloc_correct (root : Z) (s : kstate) (l : list Z) (t : ptree) (oldsz newsz : Z)
    (Ha : asp root s l t) (H0 : 0 ≤ newsz) (Hle : newsz ≤ oldsz) (Hmax : oldsz ≤ TRAPFRAME) :
  ∃ s' l', uvmdealloc root oldsz newsz s = Ret newsz s' ∧
    asp root s' l' t ∧ moves s l t s' l' t ∧
    ∀ x, 0 ≤ x < MAXVA →
      pte_at (k_mem s') t x =
        if decide (PGROUNDUP newsz ≤ x < PGROUNDUP oldsz ∧ valid (pte_at (k_mem s) t x)) then 0
        else pte_at (k_mem s) t x.
Proof.
  cut (wp (uvmdealloc root oldsz newsz) (λ r s', r = newsz ∧ ∃ l', asp root s' l' t ∧
    moves s l t s' l' t ∧ ∀ x, 0 ≤ x < MAXVA →
      pte_at (k_mem s') t x = unmap_view (above newsz oldsz) (pte_at (k_mem s) t) x) s).
  { intros (r & s' & Hrun & -> & l' & Ha' & Hm' & Hv')%wp_run. by exists s', l'. }
  apply (wp_uvmdealloc root s l t); try done. intros s' l' Ha' Hm' Hv'. eauto.
Qed.
End usermem.

(** ** Witnesses *)

#[local] Existing Instance layout_small.

(** A machine with an empty user page table at page 1 and seven free pages. *)
Definition small_table : ptree := {[ [] := small_page 1 ]}.
Definition kstate_table : kstate :=
  set_k_freelist (small_page 2) (set_k_mem (zero_fill_page (small_page 1) small_mem) kstate0).

Lemma small_pages i : 1 ≤ i ≤ 8 → page_ok (small_page i).
Proof.
  intros Hi. unfold page_ok, small_page. change kend with (PHYSTOP - 8 * PGSIZE).
  split; [|unfold PGSIZE; lia]. change PHYSTOP with (557056 * PGSIZE).
  rewrite <- Z.mul_sub_distr_r. by apply Z.mod_mul.
Qed.

Lemma kmem_inv_table : kmem_inv kstate_table (small_page <$> [2; 3; 4; 5; 6; 7; 8]).
Proof.
  pose proof kmem_inv_small as [_ Hnd Hok].
  assert (kmem_inv (withmem small_mem (small_page 2) kstate0) (small_page <$> [2; 3; 4; 5; 6; 7; 8])) as H.
  { split; [vm_compute; repeat split| |by apply Forall_cons in Hok as [_ ?]].
    by apply list.NoDup_cons in Hnd as [_ ?]. }
  eapply (kmem_inv_agree kstate0 _ small_mem (small_page 2)); [exact H|].
  intros pg Hin. pose proof (kmem_page _ _ _ H Hin). apply zero_fills; [by apply small_pages|done|].
  intros ->. by apply list.NoDup_cons in Hnd as [? _].
Qed.

Lemma asp_small : asp (small_page 1) kstate_table (small_page <$> [2; 3; 4; 5; 6; 7; 8]) small_table.
Proof.
  pose proof kmem_inv_small as [_ Hnd _]. apply list.NoDup_cons in Hnd as [Hn _].
  apply asp_root; [apply kmem_inv_table|apply not_elem_of_nil|by apply small_pages|exact Hn|].
  apply zero_fill_zero.
Qed.

Lemma uvmalloc_correct_witness :
  ∃ r s' l' t', uvmalloc (small_page 1) 0 5000 PTE_W kstate_table = Ret r s' ∧
    asp (small_page 1) s' l' t'.
Proof.
  destruct (uvmalloc_correct (small_page 1) kstate_table _ small_table 0 5000 PTE_W asp_small)
    as (r & s' & l' & t' & H1 & H2 & _).
  - lia.
  - lia.
  - vm_compute. congruence.
  - vm_compute. split; congruence.
  - intros x Hx. unfold small_table. rewrite pte_at_root. apply valid_0.
  - exists r, s', l', t'. split; [exact H1|exact H2].
Defined.

Lemma uvmdealloc_correct_witness :
  ∃ s' l', uvmdealloc (small_page 1) 5000 4096 kstate_table = Ret 4096 s' ∧
    asp (small_page 1) s' l' small_table.
Proof.
  destruct (uvmdealloc_correct (small_page 1) kstate_table _ small_table 5000 4096 asp_small)
    as (s' & l' & H1 & H2 & _).
  - lia.
  - lia.
  - vm_compute. congruence.
  - exists s', l'. split; [exact H1|exact H2].
Defined.
