(* ===== verification/UserCopy.v ===== *)
(** * Copying between kernel and user memory

    [walkaddr], [vmfault], [copyin], [copyinstr] and [copyout] (vm.c) against the
    view of user memory as a function from addresses to bytes, in which a page that
    [sbrk] promised but nobody has touched yet reads as zeros. *)
From Stdlib Require Import ZArith Lia.
From stdpp Require Import base list gmap numbers strings.
From S2P Require Import Prelude Machine KString State Kalloc Vm PageTable UserMem.
Local Open Scope Z_scope.
Local Open Scope kernel_scope.

Section usercopy.
Context {L : Layout}.
Implicit Types (t : ptree) (m : mem) (s : kstate) (l : list Z).

(** ** The view of user memory *)

Definition uview (m : mem) (t : ptree) (va : Z) : Z :=
  if decide (valid (pte_at m t va)) then ld8 m (PTE2PA (pte_at m t va) + va mod PGSIZE) else 0.

(** The [n] bytes from [va] on. *)
Definition ubytes (m : mem) (t : ptree) (va : Z) (n : nat) : list Z :=
  (λ i : nat, uview m t (va + Z.of_nat i)) <$> seq 0 n.

(** A step of the kernel on one address space: it keeps every mapping, moves no
    page in or out of what the address space and the allocator own, changes no
    other page, and leaves the user memory [h]. *)
Record ustep (s : kstate) l t (s' : kstate) l' t' (h : Z → Z) : Prop := {
  us_state : s' = withmem (k_mem s') (k_freelist s') s;
  us_owned : ∀ pg, owned s' l' t' pg ↔ owned s l t pg;
  us_frame : ∀ pg, page_ok pg → ¬ owned s l t pg → agree (k_mem s) (k_mem s') pg;
  us_old : ∀ x, 0 ≤ x < MAXVA → valid (pte_at (k_mem s) t x) →
    pte_at (k_mem s') t' x = pte_at (k_mem s) t x;
  us_view : ∀ x, uva x → uview (k_mem s') t' x = h x;
}.

Lemma ustep_refl s l t : ustep s l t s l t (uview (k_mem s) t).
Proof. split; [by rewrite withmem_id|done|intros; apply agree_refl|done|done]. Qed.

Lemma ustep_trans s1 l1 t1 s2 l2 t2 s3 l3 t3 h h' :
  ustep s1 l1 t1 s2 l2 t2 h → ustep s2 l2 t2 s3 l3 t3 h' → ustep s1 l1 t1 s3 l3 t3 h'.
Proof.
  intros [S1 O1 F1 P1 V1] [S2 O2 F2 P2 V2]. split; [| | | |done].
  - rewrite S2 at 1. rewrite S1. by rewrite withmem_withmem.
  - intros pg. by rewrite O2, O1.
  - intros pg Hok Hn. eapply agree_trans; [by apply F1|]. apply F2; [done|]. by rewrite O1.
  - intros x Hx Hv. rewrite P2; [by apply P1|done|]. by rewrite P1.
Qed.

Lemma ustep_view s l t s' l' t' h h' :
  ustep s l t s' l' t' h → (∀ x, uva x → h x = h' x) → ustep s l t s' l' t' h'.
Proof. intros [S O F P V] H. split; try done. intros x Hx. by rewrite V, H. Qed.

(** ** Faulting in a page *)

(** The process whose address space is [root], of [sz] bytes. *)
Definition user_proc (root sz : Z) (s : kstate) : Prop :=
  ∃ i p, cur s = Some i ∧ k_procs s !! i = Some p ∧ p_pagetable p = root ∧ p_sz p = sz ∧
         0 ≤ sz ≤ TRAPFRAME.

Lemma user_proc_ustep root sz s l t s' l' t' h :
  ustep s l t s' l' t' h → user_proc root sz s → user_proc root sz s'.
Proof. intros [S _ _ _ _]. by rewrite S. Qed.

Definition uperm : Z := Z.lor (Z.lor PTE_W PTE_U) PTE_R.

(** A fresh zeroed page for an untouched address does not change the view. *)
Lemma mapped_ustep root s l t va perm c s' l' t' :
  asp root s l t → uva va → ¬ valid (pte_at (k_mem s) t va) → 0 ≤ perm < 1024 →
  mapped root s l t va perm zero_fill_page c s' l' t' →
  ustep s l t s' l' t' (uview (k_mem s) t).
Proof.
  intros Ha Hu Hnv Hperm [Ma Mm Mc _ Mv (m1 & _ & Mf)]. pose proof Mm as [MS MO MK MF].
  assert (∀ x, 0 ≤ x < MAXVA → valid (pte_at (k_mem s) t x) →
    pte_at (k_mem s') t' x = pte_at (k_mem s) t x) as Hold.
  { intros x Hx Hv. rewrite Mv by done. unfold pte_set. case_decide as E; [|done].
    exfalso. apply Hnv. by rewrite (pte_at_page _ _ va x). }
  split; try done. intros x Hx. pose proof (uva_max _ Hx) as Hxm. unfold uview.
  destruct (decide (valid (pte_at (k_mem s) t x))) as [Hv|Hv].
  - rewrite (Hold x Hxm Hv). rewrite decide_True by done.
    apply (MK x Hx Hv (Hold x Hxm Hv)). unfold in_page.
    pose proof (Z.mod_pos_bound x PGSIZE ltac:(done)). lia.
  - case_decide as Hv'; [|done]. rewrite Mv in * by done. unfold pte_set in *.
    case_decide as E; [|done]. rewrite mkpte_pa by done.
    eapply zero_page_agree; [apply zero_fill_zero|exact Mf|].
    unfold in_page. pose proof (Z.mod_pos_bound x PGSIZE ltac:(done)). lia.
Qed.

Lemma same_moves_ustep root s l t s' l' t' :
  asp root s l t → moves s l t s' l' t' →
  (∀ x, 0 ≤ x < MAXVA → pte_at (k_mem s') t' x = pte_at (k_mem s) t x) →
  ustep s l t s' l' t' (uview (k_mem s) t).
Proof.
  intros Ha [MS MO MK MF] Hsame. split; try done; [auto|].
  intros x Hx. pose proof (uva_max _ Hx). unfold uview. rewrite Hsame by done.
  case_decide as Hv; [|done]. apply (MK x Hx Hv); [by apply Hsame|]. unfold in_page.
  pose proof (Z.mod_pos_bound x PGSIZE ltac:(done)). lia.
Qed.

Lemma walkaddr_run root s t va :
  pt_repr (k_mem s) t root → 0 ≤ va →
  walkaddr root va s =
    Ret (if decide (va < MAXVA ∧ valid (pte_at (k_mem s) t va) ∧
                    Z.land (pte_at (k_mem s) t va) PTE_U ≠ 0)
         then PTE2PA (pte_at (k_mem s) t va) else 0) s.
Proof.
  intros Hr H0. unfold walkaddr. destruct (Z.leb_spec MAXVA va).
  { rewrite decide_False by lia. done. }
  rewrite (bind_run _ _ _ _ _ (walk_run s t root va Hr ltac:(lia))).
  destruct (t !! vpath va) as [lf|] eqn:El.
  2: { unfold pte_at. rewrite El. rewrite decide_False; [done|]. intros (_ & Hv & _). by apply valid_0 in Hv. }
  pose proof (leaf_addr_pos _ _ _ _ _ Hr El). rewrite (proj2 (Z.eqb_neq _ 0)) by lia.
  unfold load64. rewrite bind_gets, <- (pte_at_leaf _ _ _ _ El).
  destruct (Z.eqb_spec (Z.land (pte_at (k_mem s) t va) PTE_V) 0).
  { rewrite decide_False; [done|]. unfold valid. tauto. }
  destruct (Z.eqb_spec (Z.land (pte_at (k_mem s) t va) PTE_U) 0).
  { rewrite decide_False; [done|]. tauto. }
  rewrite decide_True; [done|]. split; [lia|]. done.
Qed.

Lemma ismapped_run root s t va :
  pt_repr (k_mem s) t root → va < MAXVA →
  ismapped root va s = Ret (bool_decide (valid (pte_at (k_mem s) t va))) s.
Proof.
  intros Hr Hva. unfold ismapped. rewrite (bind_run _ _ _ _ _ (walk_run s t root va Hr Hva)).
  destruct (t !! vpath va) as [lf|] eqn:El.
  2: { unfold pte_at. rewrite El. rewrite bool_decide_eq_false_2; [done|apply valid_0]. }
  pose proof (leaf_addr_pos _ _ _ _ _ Hr El). rewrite (proj2 (Z.eqb_neq _ 0)) by lia.
  unfold load64. rewrite bind_gets, <- (pte_at_leaf _ _ _ _ El). unfold ret. f_equal.
  unfold valid. destruct (Z.eqb_spec (Z.land (pte_at (k_mem s) t va) PTE_V) 0); simpl.
  - by rewrite bool_decide_eq_false_2 by tauto.
  - by rewrite bool_decide_eq_true_2.
Qed.

(** The address resolves in the new state: it is a user mapping. *)
Definition resolved (s : kstate) t (va pa : Z) : Prop :=
  uva va ∧ valid (pte_at (k_mem s) t va) ∧ Z.land (pte_at (k_mem s) t va) PTE_U ≠ 0 ∧
  pa = PTE2PA (pte_at (k_mem s) t va).

Lemma wp_vmfault root sz s l t va Q :
  asp root s l t → user_proc root sz s → 0 ≤ va → va mod PGSIZE = 0 →
  (∀ s' l' t', asp root s' l' t' → ustep s l t s' l' t' (uview (k_mem s) t) → Q 0 s') →
  (∀ pa s' l' t', asp root s' l' t' → ustep s l t s' l' t' (uview (k_mem s) t) →
     va < sz → ¬ valid (pte_at (k_mem s) t va) → resolved s' t' va pa →
     pte_at (k_mem s') t' va = mkpte pa uperm → Q pa s') →
  wp (vmfault root va) Q s.
Proof.
  intros Ha (i & p & Hcur & Hp & Hroot & Hsz & Hszr) H0 Hal Hfail Hok. unfold vmfault.
  apply wp_bind. eapply wp_eq; [by apply myproc_run|].
  apply wp_bind. eapply wp_eq; [by apply getp_run|]. rewrite Hsz.
  destruct (Z.leb_spec sz va) as [Hge|Hlt].
  { apply wp_ret, (Hfail s l t Ha (ustep_refl _ _ _)). }
  assert (uva va) as Hu by (unfold uva; lia). pose proof (uva_max _ Hu).
  assert (PGROUNDDOWN va = va) as ->
    by (destruct (PGROUNDDOWN_spec va); unfold PGSIZE in *; dlia).
  apply wp_bind. eapply wp_eq; [apply (ismapped_run _ _ t); [apply Ha|lia]|].
  case_bool_decide as Hv; [apply wp_ret, (Hfail s l t Ha (ustep_refl _ _ _))|].
  rewrite Hroot. change (wp (alloc_map root va uperm zero_fill_page (ret 0) (ret 0) (λ c, ret c)) Q s).
  apply (wp_alloc_map root s l t); try done.
  - apply zero_fills.
  - intros _. apply wp_ret, (Hfail s l t Ha (ustep_refl _ _ _)).
  - intros s' l' t' Ha' Hm' Hsame. apply wp_ret, (Hfail s' l' t' Ha').
    by eapply same_moves_ustep.
  - intros c s' l' t' Hmap. pose proof Hmap as [Ma _ Mc _ Mv _]. apply wp_ret.
    assert (pte_at (k_mem s') t' va = mkpte c uperm) as E.
    { rewrite Mv by done. unfold pte_set. by rewrite decide_True. }
    apply (Hok c s' l' t' Ma); [by apply (mapped_ustep root s l t va uperm c)|done|done| |done].
    split; [done|]. rewrite E, mkpte_pa, mkpte_land by done.
    split; [by apply mkpte_valid|done].
Qed.

(** [walkaddr], then [vmfault] if that failed: the first half of an iteration of
    [copyin] and [copyout]. *)
Lemma wp_resolve {A} root sz s l t va (k : Z → K A) Q :
  asp root s l t → user_proc root sz s → 0 ≤ va → va mod PGSIZE = 0 →
  (∀ s' l' t', asp root s' l' t' → ustep s l t s' l' t' (uview (k_mem s) t) → wp (k 0) Q s') →
  (∀ pa s' l' t', asp root s' l' t' → ustep s l t s' l' t' (uview (k_mem s) t) →
     pa ≠ 0 → resolved s' t' va pa →
     (pte_at (k_mem s') t' va = pte_at (k_mem s) t va ∨
      pte_at (k_mem s') t' va = mkpte pa uperm) → wp (k pa) Q s') →
  wp (pa ← walkaddr root va; pa0 ← (if pa =? 0 then vmfault root va else ret pa); k pa0) Q s.
Proof.
  intros Ha Hproc H0 Hal Hfail Hok. pose proof TRAPFRAME_val. pose proof MAXVA_val.
  apply wp_bind. eapply wp_eq; [by apply (walkaddr_run _ _ t); [apply Ha|]|].
  case_decide as Hd.
  - destruct Hd as (Hlt & Hv & HU).
    assert (uva va) as Hu.
    { unfold uva. destruct (Z_lt_ge_dec va TRAPFRAME); [lia|]. exfalso.
      apply HU, (as_kern _ _ _ _ Ha). lia. }
    pose proof (page_ok_pos _ (as_page _ _ _ _ Ha va Hu Hv)).
    rewrite (proj2 (Z.eqb_neq _ 0)) by lia. apply wp_bind, wp_ret.
    apply (Hok _ s l t Ha (ustep_refl _ _ _)); [lia|done|by left].
  - cbn [Z.eqb]. apply wp_bind, (wp_vmfault root sz s l t); try done.
    intros pa s' l' t' Ha' Hs' Hlt Hnv Hres E.
    apply (Hok pa s' l' t' Ha' Hs'); [|done|by right].
    destruct Hres as (Hu & Hv & _ & ->).
    pose proof (page_ok_pos _ (as_page _ _ _ _ Ha' va Hu Hv)). lia.
Qed.

(** ** [copyin] *)

Lemma ubytes_app m t va n1 n2 :
  ubytes m t va (n1 + n2) = ubytes m t va n1 ++ ubytes m t (va + Z.of_nat n1) n2.
Proof.
  unfold ubytes. rewrite seq_app, fmap_app. f_equal. simpl.
  apply list_eq. intros i. rewrite !list_lookup_fmap.
  destruct (decide (i < n2)%nat) as [Hi|Hi].
  - rewrite !lookup_seq_lt by done. simpl. do 2 f_equal. lia.
  - by rewrite !lookup_seq_ge by lia.
Qed.

Lemma length_ubytes m t va n : length (ubytes m t va n) = n.
Proof. unfold ubytes. by rewrite length_fmap, length_seq. Qed.

Lemma ubytes_lookup m t va n i : (i < n)%nat → ubytes m t va n !! i = Some (uview m t (va + Z.of_nat i)).
Proof. intros Hi. unfold ubytes. by rewrite list_lookup_fmap, lookup_seq_lt. Qed.

Lemma ubytes_ext m t m' t' va n :
  (∀ x, va ≤ x < va + Z.of_nat n → uview m t x = uview m' t' x) → ubytes m t va n = ubytes m' t' va n.
Proof.
  intros H. unfold ubytes. apply list_fmap_ext. intros i j Hij%lookup_seq. apply H. lia.
Qed.

(** Addresses of the page at [va0]. *)
Lemma same_page va0 x : va0 mod PGSIZE = 0 → va0 ≤ x < va0 + PGSIZE →
  x / PGSIZE = va0 / PGSIZE ∧ x mod PGSIZE = x - va0.
Proof. unfold PGSIZE. intros. split; dlia. Qed.

Lemma uview_resolved s t va0 pa x :
  resolved s t va0 pa → va0 mod PGSIZE = 0 → va0 ≤ x < va0 + PGSIZE →
  uview (k_mem s) t x = ld8 (k_mem s) (pa + (x - va0)).
Proof.
  intros (Hu & Hv & _ & ->) Hal Hx. destruct (same_page va0 x Hal Hx) as [E1 E2].
  unfold uview. rewrite (pte_at_page _ _ x va0), E2 by done. by rewrite decide_True.
Qed.

(** The bytes read from the physical page are the user's. *)
Lemma ld_bytes_ubytes s t va0 pa va n :
  resolved s t va0 pa → va0 mod PGSIZE = 0 → va0 ≤ va → va + Z.of_nat n ≤ va0 + PGSIZE →
  ld_bytes (k_mem s) (pa + (va - va0)) n = ubytes (k_mem s) t va n.
Proof.
  intros Hres Hal H1 H2. unfold ld_bytes, ubytes, bytes_at. apply list_fmap_ext.
  intros i j Hij%lookup_seq. rewrite (uview_resolved s t va0 pa) by (done || lia). f_equal. lia.
Qed.

Lemma uva_next va0 : uva va0 → va0 mod PGSIZE = 0 → va0 + PGSIZE ≤ TRAPFRAME.
Proof. unfold uva, PGSIZE. rewrite TRAPFRAME_val. intros. dlia. Qed.

Lemma copyin_loop_eq f pt srcva len acc :
  0 < len →
  copyin_loop (S f) pt srcva len acc =
    (pa ← walkaddr pt (PGROUNDDOWN srcva);
     pa0 ← (if pa =? 0 then vmfault pt (PGROUNDDOWN srcva) else ret pa);
     if pa0 =? 0 then ret (-1, acc) else
     let n := Z.min (PGSIZE - (srcva - PGROUNDDOWN srcva)) len in
     bs ← gets (λ s, ld_bytes (k_mem s) (pa0 + (srcva - PGROUNDDOWN srcva)) (Z.to_nat n));
     copyin_loop f pt (u64 (PGROUNDDOWN srcva + PGSIZE)) (len - n) (acc ++ bs)).
Proof. intros H. cbn [copyin_loop]. destruct (Z.ltb_spec 0 len); [done|lia]. Qed.

Lemma wp_copyin_loop fuel root sz s l t srcva len acc Q :
  asp root s l t → user_proc root sz s → 0 ≤ srcva → 0 ≤ len ≤ Z.of_nat fuel →
  (∀ k s' l' t', 0 ≤ k < len → (0 < k → srcva + k ≤ TRAPFRAME) → asp root s' l' t' →
     ustep s l t s' l' t' (uview (k_mem s) t) →
     Q (-1, acc ++ ubytes (k_mem s) t srcva (Z.to_nat k)) s') →
  (∀ s' l' t', asp root s' l' t' → ustep s l t s' l' t' (uview (k_mem s) t) →
     (0 < len → srcva + len ≤ TRAPFRAME) →
     Q (0, acc ++ ubytes (k_mem s) t srcva (Z.to_nat len)) s') →
  wp (copyin_loop fuel root srcva len acc) Q s.
Proof.
  revert s l t srcva len acc. induction fuel as [|f IH];
    intros s l t srcva len acc Ha Hproc H0 Hlen Hfail Hok.
  all: destruct (Z_lt_ge_dec 0 len) as [Hpos|Hz]; [try lia|].
  1,3: replace len with 0 in * by lia; cbn; apply wp_ret; rewrite <- (app_nil_r acc);
    apply (Hok s l t Ha (ustep_refl _ _ _)); lia.
  rewrite copyin_loop_eq by done. destruct (PGROUNDDOWN_spec srcva) as [Hd1 Hd2].
  set (va0 := PGROUNDDOWN srcva) in *.
  assert (0 ≤ va0) by (unfold PGSIZE in *; dlia).
  apply (wp_resolve root sz s l t); try done.
  { intros s' l' t' Ha' Hs'. rewrite Z.eqb_refl. apply wp_ret. rewrite <- (app_nil_r acc).
    apply (Hfail 0 s' l' t'); [lia|lia|done|done]. }
  intros pa s' l' t' Ha' Hs' Hpa Hres _. rewrite (proj2 (Z.eqb_neq pa 0) Hpa). cbv zeta.
  apply wp_bind, wp_gets. set (n := Z.min _ len).
  assert (0 < n ≤ len ∧ srcva + n ≤ va0 + PGSIZE) as Hn by (unfold n; lia).
  pose proof Hres as (Hu & _). pose proof (uva_next va0 Hu Hd1). pose proof TRAPFRAME_val.
  rewrite (ld_bytes_ubytes s' t' va0 pa) by (done || lia).
  rewrite u64_small by (unfold PGSIZE in *; lia).
  assert (ubytes (k_mem s') t' srcva (Z.to_nat n) = ubytes (k_mem s) t srcva (Z.to_nat n)) as ->.
  { apply ubytes_ext. intros x Hx. apply (us_view _ _ _ _ _ _ _ Hs'). unfold uva in *. lia. }
  assert (∀ k, 0 ≤ k ≤ len - n → (0 < k → va0 + PGSIZE + k ≤ TRAPFRAME) →
    ubytes (k_mem s) t srcva (Z.to_nat n) ++ ubytes (k_mem s') t' (va0 + PGSIZE) (Z.to_nat k) =
    ubytes (k_mem s) t srcva (Z.to_nat (n + k))) as Happ.
  { intros k Hk Hk2. rewrite Z2Nat.inj_add, ubytes_app by lia. f_equal.
    destruct (decide (n = len)) as [En|En]; [by replace k with 0 by lia|].
    replace (srcva + Z.of_nat (Z.to_nat n)) with (va0 + PGSIZE) by (unfold n in *; lia).
    apply ubytes_ext. intros x Hx. apply (us_view _ _ _ _ _ _ _ Hs'). unfold uva, PGSIZE in *. lia. }
  apply (IH s' l' t'); [done|by eapply user_proc_ustep|unfold PGSIZE; lia|lia| |].
  - intros k s2 l2 t2 Hk Hk2 Ha2 Hs2. rewrite <- app_assoc, Happ by lia.
    apply (Hfail (n + k) s2 l2 t2); [lia|unfold n in *; lia|done|].
    eapply ustep_view; [by eapply ustep_trans|]. apply Hs'.
  - intros s2 l2 t2 Ha2 Hs2 Hend. rewrite <- app_assoc, Happ by lia.
    replace (n + (len - n)) with len by lia. apply (Hok s2 l2 t2 Ha2).
    + eapply ustep_view; [by eapply ustep_trans|]. apply Hs'.
    + unfold n in *. lia.
Qed.

(** ** [copyout] *)

(** The function [h] with the bytes [bs] from [va] on. *)
Definition upd_view (va : Z) (bs : list Z) (h : Z → Z) : Z → Z := λ x,
  if decide (va ≤ x) then
    match bs !! Z.to_nat (x - va) with Some b => u8 b | None => h x end
  else h x.

Lemma upd_view_out va bs h x :
  ¬ (va ≤ x < va + Z.of_nat (length bs)) → upd_view va bs h x = h x.
Proof.
  intros H. unfold upd_view. case_decide; [|done]. by rewrite lookup_ge_None_2 by lia.
Qed.

Lemma upd_view_app va b1 b2 h x :
  upd_view (va + Z.of_nat (length b1)) b2 (upd_view va b1 h) x = upd_view va (b1 ++ b2) h x.
Proof.
  unfold upd_view. case_decide as H1; case_decide as H2; try lia; try done.
  - rewrite lookup_app_r by lia. rewrite (lookup_ge_None_2 b1) by lia.
    by replace (Z.to_nat (x - va) - length b1)%nat with (Z.to_nat (x - (va + Z.of_nat (length b1)))) by lia.
  - rewrite lookup_app_l by lia. destruct (lookup_lt_is_Some_2 b1 (Z.to_nat (x - va))) as [b ->]; [lia|done].
Qed.

Lemma upd_view_ext va bs h h' x : h x = h' x → upd_view va bs h x = upd_view va bs h' x.
Proof. unfold upd_view. intros ->. done. Qed.

Lemma st_bytes_ld8 bs m a b : ld8 (st_bytes m a bs) b = upd_view a bs (ld8 m) b.
Proof.
  revert m a. induction bs as [|v bs IH]; intros m a; cbn [st_bytes].
  - by rewrite upd_view_out by (simpl; lia).
  - rewrite IH. replace (a + 1) with (a + Z.of_nat (length [v])) by (simpl; lia).
    rewrite <- (upd_view_app a [v] bs). apply upd_view_ext. rewrite ld8_st8.
    unfold upd_view. destruct (decide (a = b)) as [<-|Hne].
    + rewrite decide_True by lia. by rewrite Z.sub_diag.
    + case_decide; [|done]. by rewrite lookup_ge_None_2 by (simpl; lia).
Qed.

(** Writing inside a mapped page. *)
Lemma asp_write root s l t va0 pa va bs :
  asp root s l t → resolved s t va0 pa → va0 mod PGSIZE = 0 →
  va0 ≤ va → va + Z.of_nat (length bs) ≤ va0 + PGSIZE →
  let s' := withmem (st_bytes (k_mem s) (pa + (va - va0)) bs) (k_freelist s) s in
  asp root s' l t ∧ ustep s l t s' l t (upd_view va bs (uview (k_mem s) t)) ∧
  ∀ x, pte_at (k_mem s') t x = pte_at (k_mem s) t x.
Proof.
  intros Ha Hres Hal H1 H2. cbv zeta. pose proof Hres as (Hu & Hv & _ & Epa).
  pose proof (as_page _ _ _ _ Ha va0 Hu Hv) as Hpok. rewrite <- Epa in Hpok.
  set (m' := st_bytes _ _ _).
  assert (∀ b, ld8 m' b = upd_view (pa + (va - va0)) bs (ld8 (k_mem s)) b) as Hm' by (intros; apply st_bytes_ld8).
  assert (∀ b, ¬ in_page pa b → ld8 m' b = ld8 (k_mem s) b) as Hout.
  { intros b Hb. rewrite Hm'. apply upd_view_out. unfold in_page in Hb. lia. }
  clearbody m'.
  assert (∀ pg, page_ok pg → pg ≠ pa → agree (k_mem s) m' pg) as Hag.
  { intros pg [Hpg _] Hne b Hb. apply Hout. apply (pages_disjoint pg pa); try done. apply Hpok. }
  assert (∀ p pg, t !! p = Some pg → agree (k_mem s) m' pg) as Htab.
  { intros p pg Hp. apply Hag; [eapply pt_page; [apply Ha|done]|].
    intros ->. rewrite Epa in Hp. by eapply (as_table _ _ _ _ Ha va0). }
  assert (∀ x, pte_at m' t x = pte_at (k_mem s) t x) as Hpte
    by (intros; apply pte_at_agree; eauto).
  split; [|split; [|intros; by rewrite k_mem_withmem]].
  - destruct Ha as [Hk Hlk Hr Hs Hp Hf Ht Hi Hkern].
    split; rewrite ?k_mem_withmem; try done; try setoid_rewrite Hpte; try done.
    + eapply (kmem_inv_agree s l (k_mem s)); [by rewrite withmem_id|]. intros pg Hin.
      apply Hag; [by eapply kmem_page|]. intros ->. rewrite Epa in Hin. by eapply Hf.
    + eapply pt_repr_agree; eauto.
  - split; rewrite ?k_mem_withmem; try done.
    + intros pg. unfold owned. rewrite k_mem_withmem. setoid_rewrite Hpte. done.
    + intros pg Hok Hn. apply Hag; [done|]. intros ->. apply Hn. right. right. eauto.
    + intros x Hx. unfold uview at 1. rewrite Hpte.
      destruct (decide (x / PGSIZE = va0 / PGSIZE)) as [E|E].
      * rewrite (pte_at_page _ _ x va0) by done. rewrite !decide_True by done. rewrite <- Epa, Hm'.
        assert (x mod PGSIZE = x - va0) as -> by (unfold PGSIZE in *; dlia).
        unfold upd_view. repeat case_decide; try lia.
        -- replace (pa + (x - va0) - (pa + (va - va0))) with (x - va) by lia.
           destruct (bs !! _); [done|]. unfold uview. rewrite (pte_at_page _ _ x va0) by done.
           rewrite decide_True, <- Epa by done. f_equal. unfold PGSIZE in *; dlia.
        -- unfold uview. rewrite (pte_at_page _ _ x va0) by done. rewrite decide_True, <- Epa by done.
           f_equal. unfold PGSIZE in *; dlia.
      * rewrite upd_view_out by (unfold PGSIZE in *; dlia). unfold uview.
        case_decide as Hvx; [|done]. apply Hout. intros Hin.
        apply (pages_disjoint (PTE2PA (pte_at (k_mem s) t x)) pa (PTE2PA (pte_at (k_mem s) t x) + x mod PGSIZE)).
        -- apply (as_page _ _ _ _ Ha x Hx Hvx).
        -- apply Hpok.
        -- intros Epp. apply E. apply (as_inj _ _ _ _ Ha x va0 Hx Hu Hvx Hv). congruence.
        -- unfold in_page. pose proof (Z.mod_pos_bound x PGSIZE ltac:(done)). lia.
        -- done.
Qed.

(** A user address that may be written through [copyout]. *)
Definition writable (s : kstate) t (x : Z) : Prop :=
  uva x ∧ valid (pte_at (k_mem s) t x) ∧ Z.land (pte_at (k_mem s) t x) PTE_U ≠ 0 ∧
  Z.land (pte_at (k_mem s) t x) PTE_W ≠ 0.

Lemma writable_ustep s l t s' l' t' h x :
  ustep s l t s' l' t' h → writable s t x → writable s' t' x.
Proof.
  intros Hs (Hu & Hv & H). pose proof (us_old _ _ _ _ _ _ _ Hs x (uva_max _ Hu) Hv) as E.
  unfold writable. by rewrite E.
Qed.

Lemma writable_page s t x y :
  writable s t x → x / PGSIZE = y / PGSIZE → 0 ≤ y → writable s t y.
Proof.
  intros (Hu & H) E Hy. unfold writable. rewrite (pte_at_page _ _ y x) by done.
  split; [|done]. pose proof (uva_page x y Hu ltac:(done)). unfold uva. lia.
Qed.

Lemma copyout_loop_eq f pt dstva src :
  src ≠ [] →
  copyout_loop (S f) pt dstva src =
    let va0 := PGROUNDDOWN dstva in
    if MAXVA <=? va0 then ret (-1) else
    (pa ← walkaddr pt va0;
     pa0 ← (if pa =? 0 then vmfault pt va0 else ret pa);
     if pa0 =? 0 then ret (-1) else
     pte ← walk pt va0 false;
     if pte =? 0 then undef "copyout: *pte" else
     v ← load64 pte;
     if Z.land v PTE_W =? 0 then ret (-1) else
     let n := Z.to_nat (Z.min (PGSIZE - (dstva - va0)) (Z.of_nat (length src))) in
     modmem (λ m, st_bytes m (pa0 + (dstva - va0)) (take n src)) ;;
     copyout_loop f pt (u64 (va0 + PGSIZE)) (drop n src)).
Proof. by destruct src. Qed.

Lemma resolved_leaf root s l t va pa :
  asp root s l t → resolved s t va pa → ∃ lf, t !! vpath va = Some lf.
Proof.
  intros Ha (_ & Hv & _). unfold pte_at in Hv. destruct (t !! vpath va) as [lf|]; [by exists lf|].
  by apply valid_0 in Hv.
Qed.

Definition copyout_post root s l t dstva (src : list Z) (Q : Z → kstate → Prop) : Prop :=
  (∀ k s' l' t', (k < length src)%nat → asp root s' l' t' →
     ustep s l t s' l' t' (upd_view dstva (take k src) (uview (k_mem s) t)) → Q (-1) s') ∧
  (∀ s' l' t', asp root s' l' t' →
     ustep s l t s' l' t' (upd_view dstva src (uview (k_mem s) t)) →
     (∀ x, dstva ≤ x < dstva + Z.of_nat (length src) → writable s' t' x) → Q 0 s').

(** The body of one iteration, once the page is resolved. *)
Lemma wp_copyout_page root s l t va0 pa dstva src (k : K Z) Q n :
  asp root s l t → resolved s t va0 pa → va0 mod PGSIZE = 0 → va0 ≤ dstva →
  dstva + Z.of_nat n ≤ va0 + PGSIZE → (n ≤ length src)%nat →
  Q (-1) s →
  (∀ s', asp root s' l t →
     ustep s l t s' l t (upd_view dstva (take n src) (uview (k_mem s) t)) →
     writable s' t va0 → wp k Q s') →
  wp (pte ← walk root va0 false;
      if pte =? 0 then undef "copyout: *pte" else
      v ← load64 pte;
      if Z.land v PTE_W =? 0 then ret (-1) else
      modmem (λ m, st_bytes m (pa + (dstva - va0)) (take n src)) ;; k) Q s.
Proof.
  intros Ha Hres Hal H1 H2 Hn HQ Hk. pose proof Hres as (Hu & Hv & HU & _).
  pose proof (uva_max _ Hu). destruct (resolved_leaf _ _ _ _ _ _ Ha Hres) as [lf El].
  apply wp_bind. eapply wp_eq; [apply (walk_run _ t); [apply Ha|lia]|]. rewrite El.
  pose proof (leaf_addr_pos _ _ _ _ _ (as_repr _ _ _ _ Ha) El).
  rewrite (proj2 (Z.eqb_neq _ 0)) by lia. apply wp_bind, wp_load64.
  rewrite <- (pte_at_leaf _ _ _ _ El).
  destruct (Z.eqb_spec (Z.land (pte_at (k_mem s) t va0) PTE_W) 0); [by apply wp_ret|].
  apply wp_bind, wp_modify. rewrite upd_mem_eq.
  destruct (asp_write root s l t va0 pa dstva (take n src)) as (Ha' & Hs' & Hpte'); try done.
  { rewrite length_take. lia. }
  apply (Hk _ Ha' Hs'). unfold writable. by rewrite Hpte'.
Qed.

Lemma wp_copyout_loop fuel root sz s l t dstva src Q :
  asp root s l t → user_proc root sz s → 0 ≤ dstva → (length src ≤ fuel)%nat →
  copyout_post root s l t dstva src Q →
  wp (copyout_loop fuel root dstva src) Q s.
Proof.
  revert s l t dstva src. induction fuel as [|f IH]; intros s l t dstva src Ha Hproc H0 Hlen HQ.
  all: destruct (decide (src = [])) as [->|Hne].
  1,3: cbn; apply wp_ret, (proj2 HQ s l t Ha); [|cbn; intros; lia];
    eapply ustep_view; [apply ustep_refl|]; intros x _; by rewrite upd_view_out by (simpl; lia).
  { destruct src; simpl in *; [done|lia]. }
  assert (0 < length src)%nat by (destruct src; simpl in *; [done|lia]).
  assert (∀ s' l' t', asp root s' l' t' → ustep s l t s' l' t' (uview (k_mem s) t) → Q (-1) s') as Hfail.
  { intros s' l' t' Ha' Hs'. apply (proj1 HQ O s' l' t'); [done|done|].
    eapply ustep_view; [exact Hs'|]. intros x _. by rewrite upd_view_out by (simpl; lia). }
  rewrite copyout_loop_eq by done. cbv zeta. destruct (PGROUNDDOWN_spec dstva) as [Hd1 Hd2].
  set (va0 := PGROUNDDOWN dstva) in *. assert (0 ≤ va0) by (unfold PGSIZE in *; dlia).
  destruct (Z.leb_spec MAXVA va0); [apply wp_ret, (Hfail s l t Ha (ustep_refl _ _ _))|].
  apply (wp_resolve root sz s l t); try done.
  intros pa s1 l1 t1 Ha1 Hs1 Hpa Hres _. rewrite (proj2 (Z.eqb_neq pa 0) Hpa).
  set (n := Z.to_nat _).
  assert ((0 < n ≤ length src)%nat ∧ dstva + Z.of_nat n ≤ va0 + PGSIZE ∧
    ((n < length src)%nat → dstva + Z.of_nat n = va0 + PGSIZE)) as (Hn & Hend & Hfull)
    by (unfold n; lia).
  pose proof Hres as (Hu & _). pose proof (uva_next va0 Hu Hd1). pose proof TRAPFRAME_val.
  apply (wp_copyout_page root s1 l1 t1 va0 pa dstva src); try done; try lia; [by apply (Hfail s1 l1 t1)|].
  intros s2 Ha2 Hs2 Hw2. rewrite u64_small by (unfold PGSIZE in *; lia).
  pose proof (ustep_trans _ _ _ _ _ _ _ _ _ _ _ Hs1 Hs2) as Hs12.
  assert (∀ x, uva x → upd_view dstva (take n src) (uview (k_mem s1) t1) x =
    upd_view dstva (take n src) (uview (k_mem s) t) x) as Hv12
    by (intros x Hx; apply upd_view_ext; by apply Hs1).
  assert (∀ bs x, uva x → (n < length src)%nat →
    upd_view (va0 + PGSIZE) bs (uview (k_mem s2) t1) x =
    upd_view dstva (take n src ++ bs) (uview (k_mem s) t) x) as Hglue.
  { intros bs x Hx Hnl. rewrite <- upd_view_app.
    replace (dstva + Z.of_nat (length (take n src))) with (va0 + PGSIZE) by (rewrite length_take; lia).
    apply upd_view_ext. rewrite (us_view _ _ _ _ _ _ _ Hs2) by done. by apply Hv12. }
  assert (∀ s' l' t' h x, ustep s2 l1 t1 s' l' t' h →
    dstva ≤ x < dstva + Z.of_nat n → writable s' t' x) as Hwr.
  { intros s' l' t' h x Hs' Hx. eapply writable_ustep; [exact Hs'|].
    apply (writable_page _ _ va0); [done| |lia]. symmetry. apply (same_page va0 x); [done|lia]. }
  destruct (decide (n = length src)) as [En|En].
  - rewrite En, drop_ge by lia. assert (wp (ret 0) Q s2) as Hret.
    { apply wp_ret. apply (proj2 HQ s2 l1 t1 Ha2).
      - eapply ustep_view; [exact Hs12|]. intros x Hx. rewrite Hv12 by done. by rewrite En, take_ge by lia.
      - intros x Hx. apply (Hwr s2 l1 t1 _ x (ustep_refl _ _ _)). lia. }
    by destruct f.
  - apply (IH s2 l1 t1); [done|by eapply user_proc_ustep|unfold PGSIZE; lia|rewrite length_drop; lia|].
    split.
    + intros k s' l' t' Hk Ha' Hs'. rewrite length_drop in Hk.
      apply (proj1 HQ (n + k)%nat s' l' t'); [lia|done|].
      eapply ustep_view; [by eapply ustep_trans|]. intros x Hx.
      rewrite Hglue by (done || lia). by rewrite take_take_drop.
    + intros s' l' t' Ha' Hs' Hw'. apply (proj2 HQ s' l' t' Ha').
      * eapply ustep_view; [by eapply ustep_trans|]. intros x Hx.
        rewrite Hglue by (done || lia). by rewrite take_drop.
      * intros x Hx. rewrite length_drop in Hw'.
        destruct (Z_lt_ge_dec x (dstva + Z.of_nat n)); [by eapply Hwr; [exact Hs'|lia]|].
        apply Hw'. lia.
Qed.

(** ** [copyinstr] *)

Definition readable (s : kstate) t (x : Z) : Prop :=
  uva x ∧ valid (pte_at (k_mem s) t x) ∧ Z.land (pte_at (k_mem s) t x) PTE_U ≠ 0.

Lemma readable_page s t x y : readable s t x → y / PGSIZE = x / PGSIZE → 0 ≤ y → readable s t y.
Proof.
  intros (Hu & H) E Hy. unfold readable. rewrite (pte_at_page _ _ y x) by done.
  split; [|done]. pose proof (uva_page x y Hu E). unfold uva. lia.
Qed.

Lemma copyinstr_page_spec m p n l nul :
  copyinstr_page m p n = (l, nul) →
  (∀ i, (i < length l)%nat → l !! i = Some (ld8 m (p + Z.of_nat i)) ∧ ld8 m (p + Z.of_nat i) ≠ 0) ∧
  (if nul then (length l < n)%nat ∧ ld8 m (p + Z.of_nat (length l)) = 0 else length l = n).
Proof.
  revert p l nul. induction n as [|n IH]; intros p l nul; cbn [copyinstr_page].
  - intros [= <- <-]. split; [simpl; lia|done].
  - destruct (Z.eqb_spec (ld8 m p) 0) as [E|E].
    + intros [= <- <-]. split; [simpl; lia|].
      replace (p + Z.of_nat (length [])) with p by (simpl; lia). split; [simpl; lia|done].
    + destruct (copyinstr_page m (p + 1) n) as [l' nul'] eqn:Ec. intros [= <- <-].
      destruct (IH _ _ _ Ec) as [H1 H2]. split.
      * intros [|i] Hi; simpl in Hi; [replace (p + Z.of_nat 0) with p by lia; done|].
        replace (p + Z.of_nat (S i)) with (p + 1 + Z.of_nat i) by lia. apply H1. lia.
      * simpl length. replace (p + Z.of_nat (S (length l'))) with (p + 1 + Z.of_nat (length l')) by lia.
        destruct nul'; [|lia]. destruct H2. split; [lia|done].
Qed.

(** The string of at most [max - 1] bytes at [va], if it is readable. *)
Definition is_string (s : kstate) t (va max : Z) (str : list Z) : Prop :=
  Z.of_nat (length str) < max ∧
  (∀ i, (i < length str)%nat → str !! i = Some (uview (k_mem s) t (va + Z.of_nat i)) ∧
     uview (k_mem s) t (va + Z.of_nat i) ≠ 0) ∧
  uview (k_mem s) t (va + Z.of_nat (length str)) = 0 ∧
  (∀ i, 0 ≤ i ≤ Z.of_nat (length str) → readable s t (va + i)).
Definition no_string (s : kstate) t (va max : Z) : Prop :=
  ∀ k, 0 ≤ k < max → uview (k_mem s) t (va + k) = 0 → ∃ i, 0 ≤ i ≤ k ∧ ¬ readable s t (va + i).

Lemma readable_resolved s t x : readable s t x → resolved s t x (PTE2PA (pte_at (k_mem s) t x)).
Proof. intros (H1 & H2 & H3). unfold resolved. tauto. Qed.

Definition string_result (s : kstate) t va max acc (r : option (list Z)) : Prop :=
  match r with
  | Some full => ∃ str, full = acc ++ str ∧ is_string s t va max str
  | None => no_string s t va max
  end.

(** A first part without a NUL, and the result for the rest. *)
Lemma string_result_app s t va n max acc bs r :
  length bs = n → Z.of_nat n ≤ max → (∀ i, 0 ≤ i < Z.of_nat n → readable s t (va + i)) →
  (∀ i, (i < n)%nat → bs !! i = Some (uview (k_mem s) t (va + Z.of_nat i)) ∧
     uview (k_mem s) t (va + Z.of_nat i) ≠ 0) →
  string_result s t (va + Z.of_nat n) (max - Z.of_nat n) (acc ++ bs) r →
  string_result s t va max acc r.
Proof.
  intros Hlen Hmax Hrd Hbs. destruct r as [full|]; simpl.
  - intros (str & -> & H1 & H2 & H3 & H4). exists (bs ++ str). split; [by rewrite app_assoc|].
    unfold is_string. rewrite length_app, Hlen. split; [lia|]. split; [|split].
    + intros i Hi. destruct (decide (i < n)%nat) as [Hin|Hin].
      * rewrite lookup_app_l by lia. by apply Hbs.
      * rewrite lookup_app_r by lia. destruct (H2 (i - n)%nat) as [Ha Hb]; [lia|].
        rewrite Hlen. replace (va + Z.of_nat i) with (va + Z.of_nat n + Z.of_nat (i - n)) by lia. done.
    + rewrite <- H3. f_equal. lia.
    + intros i Hi. destruct (Z_lt_ge_dec i (Z.of_nat n)); [apply Hrd; lia|].
      replace (va + i) with (va + Z.of_nat n + (i - Z.of_nat n)) by lia. apply H4. lia.
  - intros Hno k Hk Hz. destruct (Z_lt_ge_dec k (Z.of_nat n)) as [Hlt|Hge].
    + exfalso. destruct (Hbs (Z.to_nat k)) as [_ Hnz]; [lia|]. apply Hnz. rewrite Z2Nat.id by lia. done.
    + destruct (Hno (k - Z.of_nat n)) as (i & Hi & Hnr); [lia| |].
      { rewrite <- Hz. f_equal. lia. }
      exists (Z.of_nat n + i). split; [lia|]. by rewrite Z.add_assoc.
Qed.

Lemma copyinstr_loop_eq f pt srcva max acc :
  0 < max →
  copyinstr_loop (S f) pt srcva max acc =
    (pa0 ← walkaddr pt (PGROUNDDOWN srcva);
     if pa0 =? 0 then ret None else
     let n := Z.min (PGSIZE - (srcva - PGROUNDDOWN srcva)) max in
     r ← gets (λ s, copyinstr_page (k_mem s) (pa0 + (srcva - PGROUNDDOWN srcva)) (Z.to_nat n));
     if (r.2 : bool) then ret (Some (acc ++ r.1))
     else copyinstr_loop f pt (u64 (PGROUNDDOWN srcva + PGSIZE)) (max - n) (acc ++ r.1)).
Proof. intros H. cbn [copyinstr_loop]. destruct (Z.ltb_spec 0 max); [done|lia]. Qed.

Lemma copyinstr_loop_run fuel root s l t srcva max acc :
  asp root s l t → 0 ≤ srcva → max ≤ Z.of_nat fuel →
  ∃ r, copyinstr_loop fuel root srcva max acc s = Ret r s ∧ string_result s t srcva max acc r.
Proof.
  intros Ha. revert srcva max acc. induction fuel as [|f IH]; intros srcva max acc H0 Hmax.
  all: destruct (Z_lt_ge_dec 0 max) as [Hpos|Hz]; [try lia|].
  1,3: exists None; cbn [copyinstr_loop]; destruct (Z.ltb_spec 0 max); [lia|];
    split; [done|]; intros k Hk; lia.
  rewrite copyinstr_loop_eq by done. destruct (PGROUNDDOWN_spec srcva) as [Hd1 Hd2].
  set (va0 := PGROUNDDOWN srcva) in *. assert (0 ≤ va0) by (unfold PGSIZE in *; dlia).
  assert (srcva / PGSIZE = va0 / PGSIZE) as Epage by (apply same_page; [done|lia]).
  rewrite (bind_run _ _ _ _ _ (walkaddr_run root s t va0 (as_repr _ _ _ _ Ha) ltac:(done))).
  case_decide as Hd.
  2: { rewrite Z.eqb_refl. exists None. split; [done|]. intros k Hk _. exists 0. split; [lia|].
       rewrite Z.add_0_r. intros Hr. apply Hd.
       destruct (readable_page s t srcva va0 Hr ltac:(done) ltac:(lia)) as (Hu & ? & ?).
       apply uva_max in Hu. split; [lia|done]. }
  destruct Hd as (Hm & Hv & HU).
  assert (readable s t va0) as Hr0.
  { split; [|done]. unfold uva. destruct (Z_lt_ge_dec va0 TRAPFRAME); [lia|].
    exfalso. apply HU, (as_kern _ _ _ _ Ha). lia. }
  pose proof (readable_resolved s t va0 Hr0) as Hres. pose proof Hr0 as (Hu & _).
  pose proof (page_ok_pos _ (as_page _ _ _ _ Ha va0 Hu Hv)).
  pose proof (uva_next va0 Hu Hd1). pose proof TRAPFRAME_val.
  rewrite (proj2 (Z.eqb_neq _ 0)) by lia. cbv zeta. rewrite bind_gets. set (n := Z.min _ max).
  assert (0 < n ≤ max ∧ srcva + n ≤ va0 + PGSIZE) as Hn by (unfold n; lia).
  set (pa := PTE2PA _) in *.
  assert (∀ i, 0 ≤ i < n → readable s t (srcva + i) ∧
    uview (k_mem s) t (srcva + i) = ld8 (k_mem s) (pa + (srcva - va0) + i)) as Hview.
  { intros i Hi. split.
    - apply (readable_page s t va0); [done| |lia]. apply (same_page va0); [done|lia].
    - rewrite (uview_resolved s t va0 pa) by (done || lia). f_equal. lia. }
  destruct (copyinstr_page (k_mem s) (pa + (srcva - va0)) (Z.to_nat n)) as [bs nul] eqn:Ec.
  destruct (copyinstr_page_spec _ _ _ _ _ Ec) as [Hbs Hnul]. cbn [fst snd].
  assert (length bs ≤ Z.to_nat n)%nat as Hbl by (destruct nul; lia).
  assert (∀ i, (i < length bs)%nat → bs !! i = Some (uview (k_mem s) t (srcva + Z.of_nat i)) ∧
    uview (k_mem s) t (srcva + Z.of_nat i) ≠ 0) as Hbs'.
  { intros i Hi. destruct (Hview (Z.of_nat i)) as [_ ->]; [lia|]. by apply Hbs. }
  destruct nul.
  - eexists. split; [done|]. exists bs. split; [done|]. destruct Hnul as [Hl Hz'].
    split; [lia|]. split; [done|]. split.
    + destruct (Hview (Z.of_nat (length bs))) as [_ ->]; [lia|done].
    + intros i Hi. apply Hview. lia.
  - rewrite u64_small by (unfold PGSIZE in *; lia).
    destruct (IH (va0 + PGSIZE) (max - n) (acc ++ bs)) as (r & Hr & Hres'); [unfold PGSIZE; lia|lia|].
    exists r. split; [done|]. eapply (string_result_app s t srcva (length bs)); [done|lia| |done|].
    + intros i Hi. apply Hview. lia.
    + replace (Z.of_nat (length bs)) with n by lia.
      destruct (decide (n = max)) as [En|En].
      * rewrite En, Z.sub_diag. destruct r as [full|]; simpl in *; [|intros k Hk; lia].
        destruct Hres' as (str & -> & Hlt & _). exfalso. lia.
      * by replace (srcva + n) with (va0 + PGSIZE) by (unfold n in *; lia).
Qed.

(** ** Properties *)

(** [copyin] of memory that is all readable takes no fault. *)
Lemma copyin_loop_readable fuel root s l t srcva len acc :
  asp root s l t → 0 ≤ srcva → 0 ≤ len ≤ Z.of_nat fuel →
  (∀ x, srcva ≤ x < srcva + len → readable s t x) →
  copyin_loop fuel root srcva len acc s =
    Ret (0, acc ++ ubytes (k_mem s) t srcva (Z.to_nat len)) s.
Proof.
  intros Ha. revert srcva len acc. induction fuel as [|f IH]; intros srcva len acc H0 Hlen Hrd.
  all: destruct (Z_lt_ge_dec 0 len) as [Hpos|Hz]; [try lia|].
  1,3: replace len with 0 by lia; cbn; by rewrite app_nil_r.
  rewrite copyin_loop_eq by done. destruct (PGROUNDDOWN_spec srcva) as [Hd1 Hd2].
  set (va0 := PGROUNDDOWN srcva) in *. assert (0 ≤ va0) by (unfold PGSIZE in *; dlia).
  assert (readable s t va0) as Hr0.
  { apply (readable_page s t srcva); [apply Hrd; lia| |done]. symmetry. apply same_page; [done|lia]. }
  pose proof Hr0 as (Hu & Hv & HU). pose proof (uva_max _ Hu). pose proof TRAPFRAME_val.
  pose proof (page_ok_pos _ (as_page _ _ _ _ Ha va0 Hu Hv)). pose proof (uva_next va0 Hu Hd1).
  rewrite (bind_run _ _ _ _ _ (walkaddr_run root s t va0 (as_repr _ _ _ _ Ha) ltac:(done))).
  rewrite decide_True by (split; [lia|done]). rewrite (proj2 (Z.eqb_neq _ 0)) by lia.
  rewrite bind_ret_l, (proj2 (Z.eqb_neq _ 0)) by lia. cbv zeta. rewrite bind_gets. set (n := Z.min _ len).
  assert (0 < n ≤ len ∧ srcva + n ≤ va0 + PGSIZE) as Hn by (unfold n; lia).
  rewrite (ld_bytes_ubytes s t va0 _ _ _ (readable_resolved _ _ _ Hr0)) by (done || lia).
  rewrite u64_small by (unfold PGSIZE in *; lia).
  assert (Z.to_nat len = Z.to_nat n + Z.to_nat (len - n))%nat as Elen by lia.
  rewrite IH; [|unfold PGSIZE; lia|lia|].
  - f_equal. f_equal. rewrite <- app_assoc, Elen, ubytes_app. do 2 f_equal.
    destruct (decide (n = len)) as [En|En]; [by rewrite En, Z.sub_diag|].
    f_equal. unfold n in *. lia.
  - intros x Hx. apply Hrd. unfold n in *. lia.
Qed.

(** C25: [copyout] writes user memory exactly as asked.  It always returns; with
    result 0 the bytes of the user's memory from [dstva] on are [src], all of them on
    pages the user may write, and every other user byte is unchanged; with -1 some
    proper prefix has been written.  Untouched pages promised by [sbrk] are allocated
    on the way, mapped pages stay mapped where they were, the kernel's invariant is
    kept and no page outside this address space is written. *)
Theorem copyout_correct (root sz : Z) (s : kstate) (l : list Z) (t : ptree) (dstva : Z)
    (src : list Z) (Ha : asp root s l t) (Hproc : user_proc root sz s) (H0 : 0 ≤ dstva) :
  ∃ r s' l' t', copyout root dstva src s = Ret r s' ∧ asp root s' l' t' ∧
    ((r = 0 ∧ ustep s l t s' l' t' (upd_view dstva src (uview (k_mem s) t)) ∧
      ∀ x, dstva ≤ x < dstva + Z.of_nat (length src) → writable s' t' x) ∨
     (r = -1 ∧ ∃ k, (k < length src)%nat ∧
        ustep s l t s' l' t' (upd_view dstva (take k src) (uview (k_mem s) t)))).
Proof.
  cut (wp (copyout root dstva src) (λ r s', ∃ l' t', asp root s' l' t' ∧
    ((r = 0 ∧ ustep s l t s' l' t' (upd_view dstva src (uview (k_mem s) t)) ∧
      ∀ x, dstva ≤ x < dstva + Z.of_nat (length src) → writable s' t' x) ∨
     (r = -1 ∧ ∃ k, (k < length src)%nat ∧
        ustep s l t s' l' t' (upd_view dstva (take k src) (uview (k_mem s) t))))) s).
  { intros (r & s' & Hrun & l' & t' & H)%wp_run. by exists r, s', l', t'. }
  apply (wp_copyout_loop _ root sz s l t); try done.
  split; [intros k s' l' t' Hk Ha' Hs'; exists l', t'; eauto 6|intros s' l' t' Ha' Hs' Hw; eauto 10].
Qed.

(** [copyin] returns the user's bytes.  It always returns; when it succeeds the
    [len] bytes are those of user memory at [srcva] before the call, an untouched page
    below the process size reading as zeros, and when it fails the destination has got
    a proper prefix of them; in both cases user memory looks the same afterwards and no
    other page is written. *)
Theorem copyin_correct (root sz : Z) (s : kstate) (l : list Z) (t : ptree) (srcva len : Z)
    (Ha : asp root s l t) (Hproc : user_proc root sz s) (H0 : 0 ≤ srcva) (Hlen : 0 ≤ len) :
  ∃ r s' l' t', copyin root srcva len s = Ret r s' ∧ asp root s' l' t' ∧
    ustep s l t s' l' t' (uview (k_mem s) t) ∧
    (r = (0, ubytes (k_mem s) t srcva (Z.to_nat len)) ∨
     ∃ k, 0 ≤ k < len ∧ r = (-1, ubytes (k_mem s) t srcva (Z.to_nat k))).
Proof.
  cut (wp (copyin root srcva len) (λ r s', ∃ l' t', asp root s' l' t' ∧
    ustep s l t s' l' t' (uview (k_mem s) t) ∧
    (r = (0, ubytes (k_mem s) t srcva (Z.to_nat len)) ∨
     ∃ k, 0 ≤ k < len ∧ r = (-1, ubytes (k_mem s) t srcva (Z.to_nat k)))) s).
  { intros (r & s' & Hrun & l' & t' & H)%wp_run. by exists r, s', l', t'. }
  apply (wp_copyin_loop _ root sz s l t); try done; [lia|eauto 10|eauto 8].
Qed.

(** What [copyout] stored, [copyin] reads back, byte for byte, without touching
    the state. *)
Theorem copyout_copyin (root sz : Z) (s : kstate) (l : list Z) (t : ptree) (va : Z)
    (src : list Z) (s' : kstate) (Ha : asp root s l t) (Hproc : user_proc root sz s)
    (H0 : 0 ≤ va) (Hbytes : Forall (λ b, 0 ≤ b < 256) src)
    (Hout : copyout root va src s = Ret 0 s') :
  copyin root va (Z.of_nat (length src)) s' = Ret (0, src) s'.
Proof.
  assert (wp (copyout root va src) (λ r s1, ∃ l' t', asp root s1 l' t' ∧
    (r = 0 → ustep s l t s1 l' t' (upd_view va src (uview (k_mem s) t)) ∧
      ∀ x, va ≤ x < va + Z.of_nat (length src) → writable s1 t' x)) s) as Hwp.
  { apply (wp_copyout_loop _ root sz s l t); try done. split.
    - intros k s1 l' t' _ Ha' _. exists l', t'. split; [done|]. intros [=].
    - intros s1 l' t' Ha' Hs' Hw. eauto. }
  unfold wp in Hwp. rewrite Hout in Hwp. destruct Hwp as (l' & t' & Ha' & H).
  destruct (H eq_refl) as [Hs' Hw]. unfold copyin.
  rewrite (copyin_loop_readable _ root s' l' t'); [|done|done|lia|].
  2: { intros x Hx. destruct (Hw x Hx) as (? & ? & ? & _). done. }
  f_equal. f_equal. rewrite app_nil_l. apply list_eq. intros i.
  destruct (decide (i < length src)%nat) as [Hi|Hi].
  - rewrite Nat2Z.id, ubytes_lookup by done.
    destruct (lookup_lt_is_Some_2 src i Hi) as [b Hb]. rewrite Hb. f_equal.
    destruct (Hw (va + Z.of_nat i) ltac:(lia)) as (Hu & _).
    rewrite (us_view _ _ _ _ _ _ _ Hs') by done. unfold upd_view. rewrite decide_True by lia.
    replace (Z.to_nat (va + Z.of_nat i - va)) with i by lia. rewrite Hb.
    apply u8_small. by eapply Forall_lookup_1 in Hbytes.
  - rewrite !lookup_ge_None_2; [done|lia|rewrite length_ubytes; lia].
Qed.

(** [copyinstr] finds the user's string.  It always returns and changes nothing;
    it succeeds with the bytes up to the first NUL exactly when there is a NUL within
    the [max] bytes at [srcva] and everything up to it is readable by the user. *)
Theorem copyinstr_correct (root : Z) (s : kstate) (l : list Z) (t : ptree) (srcva max : Z)
    (Ha : asp root s l t) (H0 : 0 ≤ srcva) :
  ∃ r, copyinstr root srcva max s = Ret r s ∧
    match r with
    | Some str => is_string s t srcva max str
    | None => no_string s t srcva max
    end.
Proof.
  destruct (copyinstr_loop_run (Z.to_nat max) root s l t srcva max [] Ha H0 ltac:(lia))
    as (r & Hrun & Hr).
  exists r. split; [done|]. destruct r as [str|]; [|done]. by destruct Hr as (str' & -> & Hs).
Qed.
End usercopy.

(** ** Witnesses *)

#[local] Existing Instance layout_small.

(** Process 0 runs with an empty page table and a size of 10000 bytes. *)
Definition kstate_user : kstate :=
  set_k_cpus (<[0 := Some 0]> (k_cpus kstate0))%nat
    (set_k_procs (<[0 := set_p_sz 10000 (set_p_pagetable (small_page 1) proc0)]> (k_procs kstate0))%nat
      kstate_table).

Lemma asp_user : asp (small_page 1) kstate_user (small_page <$> [2; 3; 4; 5; 6; 7; 8]) small_table.
Proof. destruct asp_small as [[A B C] D E F G H I J K]. split; try done. Qed.

Lemma user_proc_user : user_proc (small_page 1) 10000 kstate_user.
Proof.
  exists O, (set_p_sz 10000 (set_p_pagetable (small_page 1) proc0)).
  repeat split; try reflexivity; vm_compute; congruence.
Qed.

Lemma copyout_correct_witness :
  ∃ r s' l' t', copyout (small_page 1) 4090 [1; 2; 3] kstate_user = Ret r s' ∧
    asp (small_page 1) s' l' t'.
Proof.
  destruct (copyout_correct (small_page 1) 10000 kstate_user _ small_table 4090 [1; 2; 3]
    asp_user user_proc_user) as (r & s' & l' & t' & H1 & H2 & _); [lia|].
  exists r, s', l', t'. split; [exact H1|exact H2].
Defined.

Lemma copyin_correct_witness :
  ∃ r s' l' t', copyin (small_page 1) 4090 10 kstate_user = Ret r s' ∧ asp (small_page 1) s' l' t'.
Proof.
  destruct (copyin_correct (small_page 1) 10000 kstate_user _ small_table 4090 10
    asp_user user_proc_user) as (r & s' & l' & t' & H1 & H2 & _); [lia|lia|].
  exists r, s', l', t'. split; [exact H1|exact H2].
Defined.

Lemma copyout_copyin_witness :
  ∃ s', copyout (small_page 1) 4094 [1; 2; 3] kstate_user = Ret 0 s' ∧
    copyin (small_page 1) 4094 3 s' = Ret (0, [1; 2; 3]) s'.
Proof.
  assert (match copyout (small_page 1) 4094 [1; 2; 3] kstate_user with
          | Ret r _ => r | _ => 1 end = 0) as H0 by (vm_compute; reflexivity).
  destruct (copyout (small_page 1) 4094 [1; 2; 3] kstate_user) as [r s'| | | |] eqn:E;
    [|discriminate H0..].
  exists s'. rewrite H0 in E. split; [rewrite H0; reflexivity|].
  apply (copyout_copyin (small_page 1) 10000 kstate_user _ small_table 4094 [1; 2; 3] s'
    asp_user user_proc_user); [lia|repeat constructor; lia|exact E].
Defined.

Lemma copyinstr_correct_witness : copyinstr (small_page 1) 100 16 kstate_user = Ret None kstate_user.
Proof.
  destruct (copyinstr_correct (small_page 1) kstate_user _ small_table 100 16 asp_user)
    as (r & Hrun & Hr); [lia|].
  destruct r as [str|]; [|exact Hrun]. exfalso. destruct Hr as (_ & _ & _ & Hrd).
  destruct (Hrd 0) as (_ & Hv & _); [lia|]. unfold small_table in Hv.
  rewrite pte_at_root in Hv. by apply valid_0 in Hv.
Defined.
