(* ===== verification/UserFree.v ===== *)
(** * Freeing an address space

    [freewalk] and [uvmfree] (vm.c): every page an address space owned is on the free
    list afterwards, and no other page is touched. *)
From Stdlib Require Import ZArith Lia.
From stdpp Require Import base list gmap numbers strings.
From S2P Require Import Prelude Machine KString State Kalloc Vm PageTable UserMem.
Local Open Scope Z_scope.
Local Open Scope kernel_scope.

Section userfree.
Context {L : Layout}.
Implicit Types (t : ptree) (m : mem) (s : kstate) (l : list Z).

(** ** The part of a table below a path *)

Record sub_ok (m : mem) (t : ptree) (l : list Z) (p : list Z) : Prop := {
  so_page : ∀ k pg, t !! (p ++ k) = Some pg → page_ok pg;
  so_free : ∀ k pg, t !! (p ++ k) = Some pg → pg ∉ l;
  so_depth : ∀ k pg, t !! (p ++ k) = Some pg → (length (p ++ k) ≤ 2)%nat;
  so_inj : ∀ k k' pg, t !! (p ++ k) = Some pg → t !! (p ++ k') = Some pg → k = k';
  so_parent : ∀ k i pg, t !! (p ++ k ++ [i]) = Some pg → 0 ≤ i < 512 ∧ is_Some (t !! (p ++ k));
  so_entry : ∀ k pg i, t !! (p ++ k) = Some pg → (length (p ++ k) < 2)%nat → 0 ≤ i < 512 →
    ld64 m (pg + 8 * i) = match t !! (p ++ k ++ [i]) with
                          | Some c => Z.lor (PA2PTE c) PTE_V
                          | None => 0
                          end;
  so_leaf : ∀ k pg i, t !! (p ++ k) = Some pg → length (p ++ k) = 2%nat → 0 ≤ i < 512 →
    ¬ valid (ld64 m (pg + 8 * i));
}.

Lemma sub_ok_child m t l p j : sub_ok m t l p → sub_ok m t l (p ++ [j]).
Proof.
  intros [H1 H2 H3 H4 H5 H6 H7].
  assert (∀ k, (p ++ [j]) ++ k = p ++ j :: k) as E by (intros k; by rewrite <- app_assoc).
  split.
  - intros k pg. rewrite E. apply H1.
  - intros k pg. rewrite E. apply H2.
  - intros k pg. rewrite E. apply H3.
  - intros k k' pg. rewrite !E. intros Ha Hb. pose proof (H4 _ _ _ Ha Hb). congruence.
  - intros k i pg. rewrite !E. apply (H5 (j :: k)).
  - intros k pg i. rewrite !E. apply (H6 (j :: k)).
  - intros k pg i. rewrite !E. apply (H7 (j :: k)).
Qed.

Lemma sub_ok_agree m m' t l l' p :
  sub_ok m t l p → (∀ k pg, t !! (p ++ k) = Some pg → agree m m' pg ∧ pg ∉ l') → sub_ok m' t l' p.
Proof.
  intros [H1 H2 H3 H4 H5 H6 H7] Ha. split; try done.
  - intros k pg Hk. by destruct (Ha k pg Hk).
  - intros k pg i Hk Hl Hi. rewrite (agree_entry m m'); [by apply H6|by apply (Ha k)|done].
  - intros k pg i Hk Hl Hi. rewrite (agree_entry m m'); [by eapply H7|by apply (Ha k)|done].
Qed.

(** A page of the part is the one at [p] or lies below one of its entries. *)
Lemma sub_ok_split m t l p k pg :
  sub_ok m t l p → t !! (p ++ k) = Some pg →
  k = [] ∨ ∃ j k', k = j :: k' ∧ 0 ≤ j < 512.
Proof.
  intros Hs Hk. destruct k as [|j k]; [by left|right]. exists j, k. split; [done|].
  revert pg Hk. induction k as [|i k IH] using rev_ind; intros pg Hk.
  - apply (so_parent _ _ _ _ Hs [] j pg). done.
  - rewrite app_comm_cons in Hk. apply (so_parent _ _ _ _ Hs) in Hk as [_ [pg' Hpg']]. by eapply IH.
Qed.

(** ** [freewalk] *)

Definition idx512 : list Z := Z.of_nat <$> seq 0 512.

Lemma elem_of_idx512 i : i ∈ idx512 ↔ 0 ≤ i < 512.
Proof.
  unfold idx512. rewrite list_elem_of_fmap. split.
  - intros (n & -> & Hn%elem_of_seq). lia.
  - intros Hi. exists (Z.to_nat i). rewrite elem_of_seq. lia.
Qed.
Lemma NoDup_idx512 : NoDup idx512.
Proof. apply NoDup_fmap_2; [intros ???; lia|apply NoDup_seq]. Qed.

(** The state when the entries [rest] of the page at [p] are still to be done. *)
Record walking (s : kstate) (l : list Z) t (p : list Z) (pg : Z) (rest : list Z) (s' : kstate) : Prop := {
  wk_state : s' = withmem (k_mem s') (k_freelist s') s;
  wk_rest : NoDup rest ∧ ∀ j, j ∈ rest → 0 ≤ j < 512;
  wk_list : ∃ l', kmem_inv s' l' ∧
    ∀ x, x ∈ l' ↔ x ∈ l ∨ ∃ j k, 0 ≤ j < 512 ∧ j ∉ rest ∧ t !! (p ++ j :: k) = Some x;
  wk_entry : ∀ j, j ∈ rest → ld64 (k_mem s') (pg + 8 * j) = ld64 (k_mem s) (pg + 8 * j);
  wk_below : ∀ j k x, j ∈ rest → t !! (p ++ j :: k) = Some x → agree (k_mem s) (k_mem s') x;
  wk_frame : ∀ x, page_ok x → (∀ k, t !! (p ++ k) ≠ Some x) → agree (k_mem s) (k_mem s') x;
}.

Definition freewalk_post s l t p (Q : kstate → Prop) : Prop :=
  ∀ m' f' l', kmem_inv (withmem m' f' s) l' →
    (∀ x, x ∈ l' ↔ x ∈ l ∨ ∃ k, t !! (p ++ k) = Some x) →
    (∀ x, page_ok x → (∀ k, t !! (p ++ k) ≠ Some x) → agree (k_mem s) m' x) →
    Q (withmem m' f' s).

Lemma V_not_leaf c : page_ok c →
  (Z.land (Z.lor (PA2PTE c) PTE_V) (Z.lor (Z.lor PTE_R PTE_W) PTE_X) =? 0) = true.
Proof. intros Hc. rewrite PA2PTE_land; [done|by apply page_ok_pte|done]. Qed.

(** The child below entry [j] has been freed and the entry cleared. *)
Lemma walking_child s l t p pg j rest s1 m2 f2 l1 l2 c :
  kmem_inv s l → t !! p = Some pg → sub_ok (k_mem s) t l p → t !! (p ++ [j]) = Some c →
  walking s l t p pg (j :: rest) s1 → kmem_inv s1 l1 →
  (∀ x, x ∈ l1 ↔ x ∈ l ∨ ∃ i k, 0 ≤ i < 512 ∧ i ∉ j :: rest ∧ t !! (p ++ i :: k) = Some x) →
  kmem_inv (withmem m2 f2 s1) l2 →
  (∀ x, x ∈ l2 ↔ x ∈ l1 ∨ ∃ k, t !! (p ++ j :: k) = Some x) →
  (∀ x, page_ok x → (∀ k, t !! (p ++ j :: k) ≠ Some x) → agree (k_mem s1) m2 x) →
  walking s l t p pg rest (withmem (st64 m2 (pg + 8 * j) 0) f2 s1).
Proof.
  intros Hk Hp Hso Hc [W1 [W2 W2'] _ W4 W5 W6] Hk1 Hl1 Hk2 Hl2 Hfr.
  apply list.NoDup_cons in W2 as [Hj W2].
  assert (0 ≤ j < 512) as Hj5 by (apply W2'; apply list_elem_of_here).
  assert (t !! (p ++ []) = Some pg) as Hp0 by (by rewrite app_nil_r).
  pose proof (so_page _ _ _ _ Hso [] pg Hp0) as [Hpa _].
  assert (∀ x, page_ok x → x ≠ pg → agree m2 (st64 m2 (pg + 8 * j) 0) x) as Hst.
  { intros x [Hx _] Hne. by apply agree_st64. }
  assert (∀ i k x, t !! (p ++ i :: k) = Some x → x ≠ pg) as Hnpg.
  { intros i k x Hx ->. by pose proof (so_inj _ _ _ _ Hso _ _ _ Hx Hp0). }
  assert (∀ i k x, i ∈ rest → t !! (p ++ i :: k) = Some x → ∀ k', t !! (p ++ j :: k') ≠ Some x) as Hdisj.
  { intros i k x Hi Hx k' Hx'. pose proof (so_inj _ _ _ _ Hso _ _ _ Hx Hx') as [= -> _]. done. }
  split; rewrite ?k_mem_withmem.
  - rewrite W1. by rewrite withmem_withmem.
  - split; [done|]. intros i Hi. apply W2'. by apply list_elem_of_further.
  - exists l2. split.
    + eapply kmem_inv_agree; [exact Hk2|]. intros x Hx. apply Hst; [by eapply kmem_page|].
      intros ->. apply Hl2 in Hx as [Hx|[k Hx]]; [|by eapply Hnpg].
      apply Hl1 in Hx as [Hx|(i & k & _ & _ & Hx)]; [by apply (so_free _ _ _ _ Hso [] pg)|by eapply Hnpg].
    + intros x. rewrite Hl2, Hl1. split.
      * intros [[Hx|(i & k & Hi & Hn & Hx)]|[k Hx]]; [by left| |].
        -- right. exists i, k. split; [done|]. split; [|done]. intros Hin. apply Hn. by apply list_elem_of_further.
        -- right. by exists j, k.
      * intros [Hx|(i & k & Hi & Hn & Hx)]; [by left; left|].
        destruct (decide (i = j)) as [->|Hne]; [right; eauto|]. left. right. exists i, k.
        split; [done|]. split; [|done]. by intros [?|?]%elem_of_cons.
  - intros i Hi. assert (i ≠ j) by (intros ->; done).
    rewrite ld64_st64_ne by lia. rewrite <- W4 by (by apply list_elem_of_further).
    apply (agree_entry (k_mem s1)); [|apply W2'; by apply list_elem_of_further].
    apply Hfr; [by apply (so_page _ _ _ _ Hso [])|]. intros k Hx. by eapply Hnpg.
  - intros i k x Hi Hx. pose proof (so_page _ _ _ _ Hso _ _ Hx) as Hok.
    eapply agree_trans; [by eapply W5; [apply list_elem_of_further|]|].
    eapply agree_trans; [apply Hfr; [done|by eapply Hdisj]|]. apply Hst; [done|by eapply Hnpg].
  - intros x Hok Hn. eapply agree_trans; [by apply W6|].
    eapply agree_trans; [by apply Hfr|]. apply Hst; [done|]. intros ->. by apply (Hn []).
Qed.

(** An entry that points nowhere. *)
Lemma walking_skip s l t p pg j rest s1 :
  (∀ k, t !! (p ++ j :: k) = None) →
  walking s l t p pg (j :: rest) s1 → walking s l t p pg rest s1.
Proof.
  intros Hn [W1 [W2 W2'] (l1 & Hk1 & Hl1) W4 W5 W6].
  apply list.NoDup_cons in W2 as [Hj W2]. split; try done.
  - split; [done|]. intros i Hi. apply W2'. by apply list_elem_of_further.
  - exists l1. split; [done|]. intros x. rewrite Hl1. split.
    + intros [Hx|(i & k & Hi & Hni & Hx)]; [by left|right]. exists i, k. split; [done|]. split; [|done].
      intros Hin. apply Hni. by apply list_elem_of_further.
    + intros [Hx|(i & k & Hi & Hni & Hx)]; [by left|right]. exists i, k. split; [done|]. split; [|done].
      intros [->|?]%elem_of_cons; [by rewrite Hn in Hx|done].
  - intros i Hi. apply W4. by apply list_elem_of_further.
  - intros i k x Hi. apply W5. by apply list_elem_of_further.
Qed.

Lemma sub_absent m t l p j :
  sub_ok m t l p → t !! (p ++ [j]) = None → ∀ k, t !! (p ++ j :: k) = None.
Proof.
  intros Hs Hn k. induction k as [|i k IH] using rev_ind; [done|].
  apply eq_None_not_Some. intros [x Hx]. rewrite app_comm_cons in Hx.
  apply (so_parent _ _ _ _ Hs) in Hx as [_ [y Hy]]. congruence.
Qed.

Lemma sub_leaf_absent m t l p j :
  sub_ok m t l p → length p = 2%nat → ∀ k, t !! (p ++ j :: k) = None.
Proof.
  intros Hs Hl k. apply eq_None_not_Some. intros [x Hx].
  apply (so_depth _ _ _ _ Hs) in Hx. rewrite length_app in Hx. simpl in Hx. lia.
Qed.

Lemma wp_freewalk f t p pg s l Q :
  (length p + f = 3)%nat → kmem_inv s l → LKmem ∉ k_held s → t !! p = Some pg →
  sub_ok (k_mem s) t l p → freewalk_post s l t p (Q tt) → wp (freewalk f pg) Q s.
Proof.
  revert p pg s l Q. induction f as [|f IH]; intros p pg s l Q Hlen Hk Hlk Hp Hso HQ.
  { exfalso. assert (t !! (p ++ []) = Some pg) as Hp0 by (by rewrite app_nil_r).
    apply (so_depth _ _ _ _ Hso) in Hp0. rewrite app_nil_r in Hp0. lia. }
  assert (t !! (p ++ []) = Some pg) as Hp0 by (by rewrite app_nil_r).
  pose proof (so_page _ _ _ _ Hso [] pg Hp0) as Hpok.
  pose proof (so_free _ _ _ _ Hso [] pg Hp0) as Hpfree.
  cbn [freewalk]. fold idx512. apply wp_bind.
  apply (wp_for_each (λ rest s', walking s l t p pg rest s')).
  - split; [by rewrite withmem_id|split; [apply NoDup_idx512|intros; by apply elem_of_idx512]| |done|intros; apply agree_refl|intros; apply agree_refl].
    exists l. split; [done|]. intros x. split; [by left|]. intros [Hx|(j & k & Hj & Hn & _)]; [done|].
    by apply elem_of_idx512 in Hj.
  - intros j rest s1 Hw. pose proof Hw as [W1 [W2 W2'] (l1 & Hk1 & Hl1) W4 W5 W6].
    pose proof (W2' j (list_elem_of_here _ _)) as Hj.
    apply wp_bind, wp_load64. rewrite W4 by apply list_elem_of_here.
    destruct (decide (length p = 2%nat)) as [El|El].
    { destruct (decide (valid (ld64 (k_mem s) (pg + 8 * j)))) as [Hv|Hv].
      { exfalso. eapply (so_leaf _ _ _ _ Hso []); [exact Hp0|by rewrite app_nil_r|exact Hj|exact Hv]. }
      assert (Z.land (ld64 (k_mem s) (pg + 8 * j)) PTE_V = 0) as -> by (unfold valid in Hv; lia).
      cbn [Z.eqb negb andb]. apply wp_ret. apply (walking_skip s l t p pg j); [|done].
      by eapply sub_leaf_absent. }
    assert (length (p ++ []) < 2)%nat as Hlt
      by (pose proof (so_depth _ _ _ _ Hso [] pg Hp0); rewrite app_nil_r in *; lia).
    rewrite (so_entry _ _ _ _ Hso [] pg j Hp0 Hlt Hj). simpl app.
    destruct (t !! (p ++ [j])) as [c|] eqn:Ec.
    + pose proof (so_page _ _ _ _ Hso [j] c Ec) as Hc.
      rewrite (proj2 (Z.eqb_neq _ 0)) by (by apply pte_valid).
      rewrite V_not_leaf by done. cbn [negb andb]. rewrite (PTE2PA_page c PTE_V Hc PTE_V_range).
      apply wp_bind, (IH (p ++ [j]) c s1 l1); [rewrite length_app; simpl; lia|done|by rewrite W1|done| |].
      * eapply sub_ok_agree; [apply sub_ok_child; exact Hso|]. intros k x. rewrite <- app_assoc. simpl.
        intros Hx. split; [by eapply W5; [apply list_elem_of_here|]|]. rewrite Hl1.
        intros [Hin|(i & k' & _ & Hni & Hx')]; [by eapply (so_free _ _ _ _ Hso)|].
        pose proof (so_inj _ _ _ _ Hso _ _ _ Hx Hx') as [= -> _]. apply Hni, list_elem_of_here.
      * intros m2 f2 l2 Hk2 Hl2 Hfr. apply wp_store64. rewrite withmem_withmem, k_mem_withmem, k_freelist_withmem.
        apply (walking_child s l t p pg j rest s1 m2 f2 l1 l2 c); try done.
        -- intros x. rewrite Hl2. by setoid_rewrite <- app_assoc.
        -- intros x Hx Hn. apply Hfr; [done|]. intros k. rewrite <- app_assoc. apply Hn.
    + cbn [Z.land Z.eqb negb andb]. apply wp_ret. apply (walking_skip s l t p pg j); [|done].
      by eapply sub_absent.
  - intros s1 [W1 _ (l1 & Hk1 & Hl1) _ _ W6].
    apply (wp_kfree_page s1 l1); [done|done| |by rewrite W1|].
    { rewrite Hl1. intros [?|(j & k & _ & _ & Hx)]; [done|]. by pose proof (so_inj _ _ _ _ Hso _ _ _ Hx Hp0). }
    intros m2 f2 Hk2 Hag. rewrite W1, withmem_withmem in *. apply (HQ m2 f2 (pg :: l1)); [done| |].
    + intros x. rewrite elem_of_cons, Hl1. split.
      * intros [->|[?|(j & k & _ & _ & Hx)]]; [right; by exists []|by left|right; by exists (j :: k)].
      * intros [?|[k Hx]]; [by right; left|].
        destruct (sub_ok_split _ _ _ _ _ _ Hso Hx) as [->|(j & k' & -> & Hj)].
        -- left. rewrite Hp0 in Hx. congruence.
        -- right. right. exists j, k'. split; [done|]. split; [apply not_elem_of_nil|done].
    + intros x Hx Hn. rewrite k_mem_withmem in *. eapply agree_trans; [by apply W6|].
      apply Hag; [done|]. intros ->. by apply (Hn []).
Qed.

(** ** [uvmfree] *)

Lemma asp_sub_ok root s l t :
  asp root s l t → (∀ x, 0 ≤ x < MAXVA → ¬ valid (pte_at (k_mem s) t x)) →
  sub_ok (k_mem s) t l [].
Proof.
  intros [Hk Hlk Hr Hs _ _ _ _ _] Hnv. split; simpl.
  - apply Hr.
  - apply Hs.
  - apply Hr.
  - intros k k' pg. apply Hr.
  - apply Hr.
  - apply Hr.
  - intros k pg i Hp Hl Hi.
    destruct k as [|a [|b [|]]]; simpl in Hl; try lia.
    assert (0 ≤ a < 512) as Ha by (destruct (pt_parent _ _ _ Hr [a] b pg Hp) as [_ [c Hc]];
      by apply (pt_parent _ _ _ Hr [] a c)).
    pose proof (pt_low _ _ _ Hr _ _ _ Hp) as Hlow.
    assert (0 ≤ b < 512) as Hb by (by apply (pt_parent _ _ _ Hr [a] b pg)).
    set (va := (a * 262144 + b * 512 + i) * PGSIZE).
    assert (va / PGSIZE = a * 262144 + b * 512 + i) as Ev by (unfold va; by rewrite Z.div_mul).
    assert (PX 2 va = a) as E2 by (rewrite PX_eq, Ev by lia; change (512 ^ 2) with 262144; dlia).
    assert (PX 1 va = b) as E1 by (rewrite PX_eq, Ev by lia; change (512 ^ 1) with 512; dlia).
    assert (PX 0 va = i) as E0 by (rewrite PX_eq, Ev by lia; change (512 ^ 0) with 1; rewrite Z.div_1_r; dlia).
    specialize (Hnv va). unfold pte_at, vpath in Hnv. rewrite E2, E1, E0, Hp in Hnv. apply Hnv.
    rewrite MAXVA_val. unfold va, PGSIZE. lia.
Qed.

Lemma wp_uvmfree root s l t sz Q :
  asp root s l t → 0 ≤ sz ≤ TRAPFRAME →
  (∀ x, PGROUNDUP sz ≤ x < MAXVA → ¬ valid (pte_at (k_mem s) t x)) →
  (∀ s' l', s' = withmem (k_mem s') (k_freelist s') s → kmem_inv s' l' →
     (∀ x, x ∈ l' ↔ owned s l t x) →
     (∀ x, page_ok x → ¬ owned s l t x → agree (k_mem s) (k_mem s') x) → Q tt s') →
  wp (uvmfree root sz) Q s.
Proof.
  intros Ha Hsz Hhigh HQ. unfold uvmfree. pose proof TRAPFRAME_val. pose proof MAXVA_val.
  destruct (PGROUNDUP_spec sz ltac:(lia)) as [Hg1 Hg2].
  assert (∀ s1 l1, asp root s1 l1 t → moves s l t s1 l1 t →
    (∀ x, 0 ≤ x < MAXVA → ¬ valid (pte_at (k_mem s1) t x)) → wp (freewalk 3 root) Q s1) as Hfw.
  { intros s1 l1 Ha1 [MS MO _ MF] Hnv.
    assert (∀ x, owned s1 l1 t x ↔ x ∈ l1 ∨ ∃ k, t !! k = Some x) as Hown1.
    { intros x. unfold owned. split; [|tauto]. intros [?|[?|(va & Hu & Hv & _)]]; [tauto..|].
      exfalso. eapply Hnv; [by apply uva_max|exact Hv]. }
    apply (wp_freewalk 3 t [] root s1 l1); [done|apply Ha1|apply Ha1|apply Ha1|by eapply asp_sub_ok|].
    intros m' f' l' Hk' Hl' Hfr. simpl in *. apply (HQ _ l'); [by rewrite MS, withmem_withmem|done| |].
    - intros x. by rewrite Hl', <- Hown1, MO.
    - intros x Hx Hn. eapply agree_trans; [by apply MF|]. rewrite k_mem_withmem. apply Hfr; [done|].
      intros k Hkx. apply Hn. rewrite <- MO, Hown1. eauto. }
  destruct (Z.ltb_spec 0 sz) as [Hpos|Hz]; cbn [whenM].
  - apply wp_bind. set (n := Z.to_nat (PGROUNDUP sz / PGSIZE)).
    assert (Z.of_nat n = PGROUNDUP sz / PGSIZE) as Hn by (unfold n, PGSIZE in *; dlia).
    rewrite <- Hn. apply (wp_uvmunmap n root s l t); [done|done|lia|rewrite Hn; unfold PGSIZE in *; dlia|].
    intros s1 l1 Ha1 Hm1 Hv1. apply (Hfw s1 l1 Ha1 Hm1). intros x Hx. rewrite Hv1 by done.
    intros Hv. apply unmap_view_valid in Hv as Hv'. destruct Hv' as [E Hnr]. rewrite E in Hv.
    apply (Hhigh x); [|done]. unfold in_range in Hnr. rewrite Hn in Hnr. unfold PGSIZE in *. dlia.
  - apply wp_bind, wp_ret. apply (Hfw s l Ha (moves_refl _ _ _)). intros x Hx. apply Hhigh.
    unfold PGSIZE in *. dlia.
Qed.

(** C26: [uvmfree] returns an address space to the allocator: it terminates without a
    panic, afterwards the free list holds exactly the pages that were free, mapped or
    part of the table, each once, and no other page is written.  The caller has
    unmapped everything above [sz], as [proc_freepagetable] does. *)
Theorem uvmfree_correct (root : Z) (s : kstate) (l : list Z) (t : ptree) (sz : Z)
    (Ha : asp root s l t) (Hsz : 0 ≤ sz ≤ TRAPFRAME)
    (Hhigh : ∀ x, PGROUNDUP sz ≤ x < MAXVA → ¬ valid (pte_at (k_mem s) t x)) :
  ∃ s' l', uvmfree root sz s = Ret tt s' ∧ kmem_inv s' l' ∧
    (∀ x, x ∈ l' ↔ owned s l t x) ∧
    (∀ x, page_ok x → ¬ owned s l t x → agree (k_mem s) (k_mem s') x).
Proof.
  cut (wp (uvmfree root sz) (λ _ s', ∃ l', kmem_inv s' l' ∧ (∀ x, x ∈ l' ↔ owned s l t x) ∧
    (∀ x, page_ok x → ¬ owned s l t x → agree (k_mem s) (k_mem s') x)) s).
  { intros ([] & s' & Hrun & l' & H)%wp_run. by exists s', l'. }
  apply (wp_uvmfree root s l t); try done. eauto.
Qed.
End userfree.

#[local] Existing Instance layout_small.

Lemma uvmfree_correct_witness :
  ∃ s' l', uvmfree (small_page 1) 5000 kstate_table = Ret tt s' ∧ kmem_inv s' l'.
Proof.
  destruct (uvmfree_correct (small_page 1) kstate_table _ small_table 5000 asp_small)
    as (s' & l' & H1 & H2 & _).
  - vm_compute. split; congruence.
  - intros x Hx. unfold small_table. rewrite pte_at_root. apply valid_0.
  - exists s', l'. split; [exact H1|exact H2].
Defined.
