(* ===== verification/UserFork.v ===== *)
(** * Copying an address space

    [uvmcopy] (vm.c), the copy that [fork] makes: the child's pages have the same
    addresses, permissions and bytes as the parent's, pages the parent never touched
    stay unallocated in the child, and a failure gives back everything. *)
From Stdlib Require Import ZArith Lia.
From stdpp Require Import base list gmap numbers strings.
From S2P Require Import Prelude Machine KString State Kalloc Vm PageTable UserMem.
Local Open Scope Z_scope.
Local Open Scope kernel_scope.

Section userfork.
Context {L : Layout}.
Implicit Types (t : ptree) (m : mem) (s : kstate) (l : list Z).

(** The pages of an address space other than the free ones. *)
Definition held_page (s : kstate) t (pg : Z) : Prop :=
  (∃ p, t !! p = Some pg) ∨
  (∃ va, uva va ∧ valid (pte_at (k_mem s) t va) ∧ PTE2PA (pte_at (k_mem s) t va) = pg).

Definition page_copy (m m' : mem) (pa c : Z) : Prop :=
  ∀ off, 0 ≤ off < PGSIZE → ld8 m' (c + off) = ld8 m (pa + off).

Definition copy_fill (pa c : Z) (m : mem) : mem := memmove m c pa PGSIZE.

Lemma copy_fills pa : fills (copy_fill pa).
Proof.
  intros c m pg [Hc _] [Hp _] Hne a Ha. unfold copy_fill. rewrite memmove_ld8 by done.
  rewrite decide_False; [done|]. apply (pages_disjoint pg c); done.
Qed.

(** The parent [root1] with table [t1] and the child [root2], first with [t20], in
    the state [s0]: they share no page. *)
Context (root1 root2 : Z) (s0 : kstate) (l0 : list Z) (t1 t20 : ptree).
Context (Hold : asp root1 s0 l0 t1) (Hnew : asp root2 s0 l0 t20).
Context (Hdisj : ∀ pg, held_page s0 t1 pg → ¬ owned s0 l0 t20 pg).

Local Notation f1 := (pte_at (k_mem s0) t1).
Local Notation f2 := (pte_at (k_mem s0) t20).

(** The child's entry for [x] is a copy of the parent's. *)
Definition entry_copied (m : mem) t (x : Z) : Prop :=
  (valid (f1 x) → ∃ c, page_ok c ∧ pte_at m t x = mkpte c (PTE_FLAGS (f1 x)) ∧
     page_copy (k_mem s0) m (PTE2PA (f1 x)) c) ∧
  (¬ valid (f1 x) → pte_at m t x = f2 x).

(** The pages below [i] are copied. *)
Record copied (i : Z) (s : kstate) l t : Prop := {
  cd_asp : asp root2 s l t;
  cd_moves : moves s0 l0 t20 s l t;
  cd_done : ∀ x, 0 ≤ x < i → entry_copied (k_mem s) t x;
  cd_rest : ∀ x, i ≤ x < MAXVA → pte_at (k_mem s) t x = f2 x;
}.

Lemma old_agree i s l t pg : copied i s l t → page_ok pg → held_page s0 t1 pg → agree (k_mem s0) (k_mem s) pg.
Proof. intros [_ M _ _] Hok Hh. apply (mv_frame _ _ _ _ _ _ M); [done|]. by apply Hdisj. Qed.

Lemma old_table i s l t p pg : copied i s l t → t1 !! p = Some pg → agree (k_mem s0) (k_mem s) pg.
Proof.
  intros Hc Hp. eapply old_agree; [done|eapply pt_page; [apply Hold|done]|]. left. by exists p.
Qed.

Lemma old_repr i s l t : copied i s l t → pt_repr (k_mem s) t1 root1.
Proof. intros Hc. eapply pt_repr_agree; [apply Hold|]. intros p pg Hp _. by eapply old_table. Qed.

Lemma old_pte i s l t x : copied i s l t → pte_at (k_mem s) t1 x = f1 x.
Proof. intros Hc. apply pte_at_agree. intros p pg Hp _. by eapply old_table. Qed.

Lemma old_page x : uva x → valid (f1 x) → page_ok (PTE2PA (f1 x)) ∧ held_page s0 t1 (PTE2PA (f1 x)).
Proof. intros Hu Hv. split; [by apply (as_page _ _ _ _ Hold)|]. right. by exists x. Qed.

Lemma flags_range v : 0 ≤ PTE_FLAGS v < 1024.
Proof.
  unfold PTE_FLAGS. change 0x3FF with (Z.ones 10). rewrite Z.land_ones by lia.
  apply Z.mod_pos_bound. lia.
Qed.

Lemma copied_start : copied 0 s0 l0 t20.
Proof. split; [done|apply moves_refl|intros; lia|done]. Qed.

Lemma entry_copied_page m t x y : x / PGSIZE = y / PGSIZE → entry_copied m t x → entry_copied m t y.
Proof.
  intros E. unfold entry_copied.
  by rewrite (pte_at_page m t y x), (pte_at_page _ t1 y x), (pte_at_page _ t20 y x).
Qed.

Lemma page_copy_agree m m' m'' pa c : page_copy m m' pa c → agree m' m'' c → page_copy m m'' pa c.
Proof. intros H Ha off Hoff. rewrite Ha; [by apply H|]. unfold in_page. lia. Qed.

(** A step that keeps the child's entries below [i] keeps the copies. *)
Lemma entry_copied_step s l t s' l' t' x :
  uva x → moves s l t s' l' t' → pte_at (k_mem s') t' x = pte_at (k_mem s) t x →
  entry_copied (k_mem s) t x → entry_copied (k_mem s') t' x.
Proof.
  intros Hu Hm E [H1 H2]. split; rewrite E; [|done]. intros Hv.
  destruct (H1 Hv) as (c & Hc & Ec & Hp). exists c. split; [done|]. split; [done|].
  eapply page_copy_agree; [exact Hp|].
  pose proof (mv_keep _ _ _ _ _ _ Hm x Hu) as Hkeep. rewrite Ec, mkpte_pa in Hkeep
    by (done || apply flags_range).
  apply Hkeep; [apply mkpte_valid; [done|apply flags_range]|]. by rewrite E.
Qed.

(** The parent has nothing at [i]. *)
Lemma copied_skip i s l t :
  copied i s l t → 0 ≤ i → i mod PGSIZE = 0 → i + PGSIZE ≤ MAXVA → ¬ valid (f1 i) →
  copied (i + PGSIZE) s l t.
Proof.
  intros [A M D R] H0 Hal Hmax Hnv. split; try done.
  - intros x Hx. destruct (Z_lt_ge_dec x i); [apply D; lia|].
    apply (entry_copied_page _ _ i x); [unfold PGSIZE in *; dlia|]. split; [done|].
    intros _. apply R. unfold PGSIZE in *; lia.
  - intros x Hx. apply R. unfold PGSIZE in *; lia.
Qed.

(** The page at [i] has been copied and mapped. *)
Lemma copied_page i s l t c s' l' t' :
  copied i s l t → uva i → i mod PGSIZE = 0 → valid (f1 i) → ¬ valid (f2 i) →
  mapped root2 s l t i (PTE_FLAGS (f1 i)) (copy_fill (PTE2PA (f1 i))) c s' l' t' →
  copied (i + PGSIZE) s' l' t'.
Proof.
  intros HC Hu Hal Hv Hnv2 [Ma Mm Mc Mfrom Mv (m1 & Hm1 & Mf)]. pose proof HC as [A M D R].
  pose proof (uva_max _ Hu). pose proof TRAPFRAME_val. pose proof MAXVA_val.
  assert (∀ x, 0 ≤ x < MAXVA → x / PGSIZE ≠ i / PGSIZE →
    pte_at (k_mem s') t' x = pte_at (k_mem s) t x) as Hother.
  { intros x Hx Hne. rewrite Mv by done. unfold pte_set. by rewrite decide_False. }
  destruct (old_page i Hu Hv) as [Hpok Hph].
  assert (c ≠ PTE2PA (f1 i)) as Hne.
  { intros ->. apply (Hdisj _ Hph). apply (mv_owned _ _ _ _ _ _ M). by left. }
  split; [done| | |].
  - eapply moves_trans; [exact M|exact Mm|]. intros x Hx Hvx E. rewrite <- E.
    symmetry. apply Hother; [by apply uva_max|]. intros Epage. apply Hnv2.
    by rewrite (pte_at_page _ _ i x).
  - intros x Hx. destruct (decide (x / PGSIZE = i / PGSIZE)) as [E|E].
    + apply (entry_copied_page _ _ i x); [done|]. split; [|done]. intros _. exists c.
      split; [done|]. split; [rewrite Mv by done; unfold pte_set; by rewrite decide_True|].
      intros off Hoff. rewrite Mf by (unfold in_page; lia). unfold copy_fill. rewrite memmove_ld8 by done.
      rewrite decide_True by lia. replace (PTE2PA (f1 i) + (c + off - c)) with (PTE2PA (f1 i) + off) by lia.
      rewrite (Hm1 (PTE2PA (f1 i))) by (done || unfold in_page; lia).
      apply (old_agree i s l t _ HC Hpok Hph). unfold in_page; lia.
    + eapply (entry_copied_step s l t); [|exact Mm|apply Hother; [|done]|].
      * unfold uva in *. unfold PGSIZE in *; dlia.
      * unfold uva in *. unfold PGSIZE in *; dlia.
      * apply D. unfold PGSIZE in *; dlia.
  - intros x Hx. rewrite Hother; [apply R; unfold PGSIZE in *; lia|unfold uva, PGSIZE in *; lia|].
    unfold PGSIZE in *; dlia.
Qed.

Lemma copied_same i s l t s' l' t' :
  copied i s l t → 0 ≤ i ≤ TRAPFRAME → asp root2 s' l' t' → moves s l t s' l' t' →
  (∀ x, 0 ≤ x < MAXVA → pte_at (k_mem s') t' x = pte_at (k_mem s) t x) →
  copied i s' l' t'.
Proof.
  intros [A M D R] Hi Ha Hm Hsame. pose proof TRAPFRAME_val. pose proof MAXVA_val. split; [done| | |].
  - eapply moves_trans; [exact M|exact Hm|]. intros x Hx _ E. rewrite <- E. symmetry.
    by apply Hsame, uva_max.
  - intros x Hx. eapply (entry_copied_step s l t); [unfold uva; lia|exact Hm|apply Hsame; lia|by apply D].
  - intros x Hx. rewrite Hsame by lia. by apply R.
Qed.

Definition uvmcopy_post (sz : Z) (Q : Z → kstate → Prop) : Prop :=
  (∀ s l t, copied (PGROUNDUP sz) s l t → Q 0 s) ∧
  (∀ s l t, asp root2 s l t → moves s0 l0 t20 s l t →
     same_map f2 (pte_at (k_mem s) t) → Q (-1) s).

Lemma wp_uvmcopy_err sz i s l t Q :
  copied i s l t → 0 ≤ i ≤ TRAPFRAME → i mod PGSIZE = 0 → i ≤ PGROUNDUP sz →
  (∀ x, 0 ≤ x < PGROUNDUP sz → ¬ valid (f2 x)) → uvmcopy_post sz Q →
  wp (uvmunmap root2 0 (i / PGSIZE) true ;; ret (-1)) Q s.
Proof.
  intros [A M D R] Hi Hal Hle Hnv2 [_ HQ]. apply wp_bind.
  set (n := Z.to_nat (i / PGSIZE)).
  assert (Z.of_nat n = i / PGSIZE) as Hn by (unfold n, PGSIZE in *; dlia). rewrite <- Hn.
  apply (wp_uvmunmap n root2 s l t); [done|done|lia|rewrite Hn; unfold PGSIZE in *; dlia|].
  intros s' l' Ha' Hm' Hv'. apply wp_ret.
  assert (∀ x, 0 ≤ x → in_range 0 n x ↔ x < i) as Hrange
    by (intros x Hx; unfold in_range; rewrite Hn; unfold PGSIZE in *; dlia).
  apply (HQ s' l' t Ha').
  - eapply moves_trans; [exact M|exact Hm'|]. intros x Hx Hvx _. apply R.
    pose proof (uva_max _ Hx). destruct (Z_lt_ge_dec x i); [|lia]. exfalso. apply (Hnv2 x); [lia|done].
  - intros x Hx. rewrite Hv' by done. destruct (Z_lt_ge_dec x i) as [Hlt|Hge].
    + right. split; [apply Hnv2; lia|]. intros [_ Hnr]%unmap_view_valid. apply Hnr, Hrange; lia.
    + left. rewrite <- (R x) by lia. unfold unmap_view. rewrite decide_False; [done|].
      rewrite Hrange by lia. lia.
Qed.

Lemma uvmcopy_loop_S f old new i sz :
  uvmcopy_loop (S f) old new i sz =
    if i <? sz then
      (pte ← walk old i false;
       if pte =? 0 then uvmcopy_loop f old new (u64 (i + PGSIZE)) sz else
       v ← load64 pte;
       if Z.land v PTE_V =? 0 then uvmcopy_loop f old new (u64 (i + PGSIZE)) sz else
       alloc_map new i (PTE_FLAGS v) (copy_fill (PTE2PA v))
         (uvmunmap new 0 (i / PGSIZE) true ;; ret (-1))
         (uvmunmap new 0 (i / PGSIZE) true ;; ret (-1))
         (λ _, uvmcopy_loop f old new (u64 (i + PGSIZE)) sz))
    else ret 0.
Proof. reflexivity. Qed.

Lemma wp_uvmcopy_loop n sz i s l t Q :
  copied i s l t → 0 ≤ sz ≤ TRAPFRAME → 0 ≤ i ≤ PGROUNDUP sz → i mod PGSIZE = 0 →
  Z.of_nat n = (PGROUNDUP sz - i) / PGSIZE →
  (∀ x, 0 ≤ x < PGROUNDUP sz → ¬ valid (f2 x)) → uvmcopy_post sz Q →
  wp (uvmcopy_loop n root1 root2 i sz) Q s.
Proof.
  pose proof TRAPFRAME_val. pose proof MAXVA_val.
  revert i s l t. induction n as [|n IH]; intros i s l t HC Hsz Hi Hal Hn Hnv2 HQ;
    destruct (PGROUNDUP_spec sz ltac:(lia)) as [Hg1 Hg2].
  - assert (i = PGROUNDUP sz) as -> by (unfold PGSIZE in *; dlia). unfold uvmcopy_loop.
    destruct (Z.ltb_spec (PGROUNDUP sz) sz); [lia|]. apply wp_ret. by apply (proj1 HQ s l t).
  - rewrite uvmcopy_loop_S. destruct (Z.ltb_spec i sz) as [Hlt|Hge]; [|exfalso; unfold PGSIZE in *; dlia].
    assert (i + PGSIZE ≤ PGROUNDUP sz) as Hstep by (unfold PGSIZE in *; dlia).
    assert (PGROUNDUP sz ≤ TRAPFRAME) as Hgt by (unfold PGSIZE in *; dlia).
    assert (uva i) as Hu by (unfold uva, PGSIZE in *; lia). rewrite u64_small by (unfold PGSIZE in *; lia).
    assert (∀ s' l' t', copied (i + PGSIZE) s' l' t' → wp (uvmcopy_loop n root1 root2 (i + PGSIZE) sz) Q s') as Hnext.
    { intros s' l' t' HC'. apply (IH _ s' l' t'); try done; [unfold PGSIZE in *; lia|by apply page_next|].
      unfold PGSIZE in *; dlia. }
    assert (¬ valid (f1 i) → wp (uvmcopy_loop n root1 root2 (i + PGSIZE) sz) Q s) as Hskip.
    { intros Hnv. apply (Hnext s l t). apply copied_skip; try done; lia. }
    apply wp_bind. eapply wp_eq; [apply (walk_run _ t1); [by eapply old_repr|lia]|].
    pose proof (old_pte i s l t i HC) as Ef1. unfold pte_at in Ef1 at 1.
    destruct (t1 !! vpath i) as [lf|] eqn:El.
    2: { cbn [Z.eqb]. apply Hskip. rewrite <- Ef1. apply valid_0. }
    pose proof (leaf_addr_pos _ _ _ _ _ (old_repr i s l t HC) El).
    rewrite (proj2 (Z.eqb_neq _ 0)) by lia. apply wp_bind, wp_load64. rewrite Ef1.
    destruct (Z.eqb_spec (Z.land (f1 i) PTE_V) 0) as [E|Hv].
    { apply Hskip. intros Hv. by apply Hv. }
    assert (¬ valid (f2 i)) as Hnvi by (apply Hnv2; unfold PGSIZE in *; lia).
    pose proof HC as [A M D R].
    apply (wp_alloc_map root2 s l t).
    + done.
    + done.
    + done.
    + rewrite R by lia. done.
    + apply flags_range.
    + apply copy_fills.
    + intros _. apply (wp_uvmcopy_err sz i s l t); try done; lia.
    + intros s' l' t' Ha' Hm' Hsame. apply (wp_uvmcopy_err sz i s' l' t'); try done; try lia.
      eapply copied_same; [exact HC|lia|done|exact Hm'|done].
    + intros c s' l' t' Hmap. apply (Hnext s' l' t'). eapply copied_page; try done.
Qed.

(** C27: [uvmcopy] gives the child a copy of the parent's memory.  It always returns.
    With 0, every address below [sz] that the parent has mapped is mapped in the child
    with the same permissions to a page of its own with the same bytes, addresses
    the parent never touched are left unmapped, and the parent's table and memory are
    unchanged; with -1 the child's mappings are as before and every page taken has been
    given back. *)
Theorem uvmcopy_correct (sz : Z) (Hsz : 0 ≤ sz ≤ TRAPFRAME)
    (Hempty : ∀ x, 0 ≤ x < PGROUNDUP sz → ¬ valid (f2 x)) :
  ∃ r s l t, uvmcopy root1 root2 sz s0 = Ret r s ∧
    asp root2 s l t ∧ moves s0 l0 t20 s l t ∧
    (∀ pg, page_ok pg → held_page s0 t1 pg → agree (k_mem s0) (k_mem s) pg) ∧
    ((r = 0 ∧ ∀ x, 0 ≤ x < PGROUNDUP sz → entry_copied (k_mem s) t x) ∨
     (r = -1 ∧ same_map f2 (pte_at (k_mem s) t))).
Proof.
  cut (wp (uvmcopy root1 root2 sz) (λ r s, ∃ l t, asp root2 s l t ∧ moves s0 l0 t20 s l t ∧
    ((r = 0 ∧ ∀ x, 0 ≤ x < PGROUNDUP sz → entry_copied (k_mem s) t x) ∨
     (r = -1 ∧ same_map f2 (pte_at (k_mem s) t)))) s0).
  { intros (r & s & Hrun & l & t & Ha & Hm & H)%wp_run. exists r, s, l, t.
    split; [done|]. split; [done|]. split; [done|]. split; [|done].
    intros pg Hok Hh. apply (mv_frame _ _ _ _ _ _ Hm); [done|]. by apply Hdisj. }
  pose proof TRAPFRAME_val. destruct (PGROUNDUP_spec sz ltac:(lia)) as [Hg1 Hg2].
  apply (wp_uvmcopy_loop _ sz 0 s0 l0 t20); [apply copied_start|done|lia|done| |done|].
  - unfold PGSIZE in *; dlia.
  - split; [intros s l t HC; exists l, t; split; [apply HC|]; split; [apply HC|]; left; split; [done|apply HC]|].
    intros s l t Ha Hm Hs. exists l, t. eauto.
Qed.
End userfork.

(** ** Witness: an empty parent at page 1 and an empty child at page 2 *)

#[local] Existing Instance layout_small.

Definition fork_mem : mem := zero_fill_page (small_page 2) (zero_fill_page (small_page 1) small_mem).
Definition kstate_fork : kstate := set_k_freelist (small_page 3) (set_k_mem fork_mem kstate0).
Definition fork_free : list Z := small_page <$> [3; 4; 5; 6; 7; 8].
Definition fork_child : ptree := {[ [] := small_page 2 ]}.

Lemma small_page_ne i j : i ≠ j → small_page i ≠ small_page j.
Proof. unfold small_page, PGSIZE. lia. Qed.

Lemma fork_free_spec pg : pg ∈ fork_free → page_ok pg ∧ pg ≠ small_page 1 ∧ pg ≠ small_page 2.
Proof.
  unfold fork_free. rewrite list_elem_of_fmap. intros (i & -> & Hi).
  assert (3 ≤ i ≤ 8) by (repeat (apply elem_of_cons in Hi as [->|Hi]; [lia|]); by apply elem_of_nil in Hi).
  split; [apply small_pages; lia|]. split; apply small_page_ne; lia.
Qed.

Lemma kmem_inv_fork : kmem_inv kstate_fork fork_free.
Proof.
  pose proof kmem_inv_small as [_ Hnd Hok].
  assert (kmem_inv (withmem small_mem (small_page 3) kstate0) fork_free) as H.
  { split; [vm_compute; repeat split| |].
    - by apply list.NoDup_cons in Hnd as [_ [_ ?]%list.NoDup_cons].
    - by apply Forall_cons in Hok as [_ [_ ?]%Forall_cons]. }
  eapply (kmem_inv_agree kstate0 _ small_mem (small_page 3)); [exact H|].
  intros pg Hin. destruct (fork_free_spec pg Hin) as (Hpg & H1 & H2).
  eapply agree_trans; apply zero_fills; try done; by apply small_pages.
Qed.

Lemma asp_fork_parent : asp (small_page 1) kstate_fork fork_free small_table.
Proof.
  apply asp_root; [apply kmem_inv_fork|apply not_elem_of_nil|by apply small_pages| |].
  - intros Hin. by apply fork_free_spec in Hin as (_ & ? & _).
  - eapply zero_page_agree; [apply zero_fill_zero|]. apply zero_fills; [by apply small_pages..|].
    by apply small_page_ne.
Qed.
Lemma asp_fork_child : asp (small_page 2) kstate_fork fork_free fork_child.
Proof.
  apply asp_root; [apply kmem_inv_fork|apply not_elem_of_nil|by apply small_pages| |apply zero_fill_zero].
  intros Hin. by apply fork_free_spec in Hin as (_ & _ & ?).
Qed.

Lemma uvmcopy_correct_witness :
  ∃ r s l t, uvmcopy (small_page 1) (small_page 2) 5000 kstate_fork = Ret r s ∧
    asp (small_page 2) s l t.
Proof.
  destruct (uvmcopy_correct (small_page 1) (small_page 2) kstate_fork fork_free small_table fork_child
    asp_fork_parent asp_fork_child) with (sz := 5000) as (r & s & l & t & H1 & H2 & _).
  - intros pg [[p Hp]|(va & _ & Hv & _)]; [|unfold small_table in Hv; rewrite pte_at_root in Hv; by apply valid_0 in Hv].
    unfold small_table in Hp. apply lookup_singleton_Some in Hp as [<- <-]. intros [Hin|[[p Hp]|(va & _ & Hv & _)]].
    + by apply fork_free_spec in Hin as (_ & ? & _).
    + unfold fork_child in Hp. apply lookup_singleton_Some in Hp as [_ Hp]. by apply small_page_ne in Hp.
    + unfold fork_child in Hv. rewrite pte_at_root in Hv. by apply valid_0 in Hv.
  - vm_compute. split; congruence.
  - intros x Hx. unfold fork_child. rewrite pte_at_root. apply valid_0.
  - exists r, s, l, t. split; [exact H1|exact H2].
Defined.
