(* ===== verification/Hart.v ===== *)
(** * A RISC-V hart, and the accessors of kernel/riscv.h

    The registers, privilege modes, address translation and memory protection that the
    assembly code and start.c rely on, and the instructions they use.  The accessors of
    riscv.h are computations over this state.  An access the hart does not allow (a
    fault, an illegal instruction) ends the computation with [Undef].

    A translation may be kept by the hart after [satp] has changed, until the next
    [sfence.vma]: an access is defined only when every page table that may still be in
    use translates it to the same physical address.  The hart's updates of the accessed and
    dirty bits of page-table entries are left out. *)
From Stdlib Require Import ZArith Lia.
From stdpp Require Import base list gmap numbers functions strings.
From S2P Require Import Prelude Machine.
Local Open Scope Z_scope.
Local Open Scope kernel_scope.

Create Rewrite HintDb regs.

(** ** Registers *)

Inductive reg :=
  | Zero | Ra | Sp | Gp | Tp | T0 | T1 | T2 | S0 | S1
  | A0 | A1 | A2 | A3 | A4 | A5 | A6 | A7
  | S2 | S3 | S4 | S5 | S6 | S7 | S8 | S9 | S10 | S11 | T3 | T4 | T5 | T6.
#[export] Instance reg_eq_dec : EqDecision reg.
Proof. solve_decision. Defined.

(** The control and status registers that are stored.  [sstatus], [sie] and [sip] are
    views of [mstatus], [mie] and [mip]. *)
Inductive csr :=
  | Mhartid | Mstatus | Mepc | Medeleg | Mideleg | Mie | Mip | Menvcfg | Mcounteren
  | Pmpcfg0 | Pmpaddr0
  | Sstatus | Sie | Sip | Sepc | Scause | Stval | Stvec | Sscratch | Satp | Stimecmp | Time.
#[export] Instance csr_eq_dec : EqDecision csr.
Proof. solve_decision. Defined.

Inductive mode := User | Supervisor | Machine.
#[export] Instance mode_eq_dec : EqDecision mode.
Proof. solve_decision. Defined.

Record hart := Hart {
  h_mode : mode;
  h_pc : Z;
  h_reg : reg → Z;
  h_csr : csr → Z;
  h_stale : list Z;     (* values of [satp] whose translations may still be in use *)
  h_mem : mem }.

Abbreviation H := (M hart).

(** Writes to [zero] are ignored, and it reads as 0. *)
Definition upd (r : reg) (v : Z) (rs : reg → Z) : reg → Z :=
  if decide (r = Zero) then rs else <[r := v]> rs.
Definition rget (rs : reg → Z) (r : reg) : Z := if decide (r = Zero) then 0 else rs r.

Definition set_h_mode (v : mode) (h : hart) : hart :=
  Hart v (h_pc h) (h_reg h) (h_csr h) (h_stale h) (h_mem h).
Definition set_h_pc (v : Z) (h : hart) : hart :=
  Hart (h_mode h) v (h_reg h) (h_csr h) (h_stale h) (h_mem h).
Definition set_h_reg (r : reg) (v : Z) (h : hart) : hart :=
  Hart (h_mode h) (h_pc h) (upd r v (h_reg h)) (h_csr h) (h_stale h) (h_mem h).
Definition set_h_csr (c : csr) (v : Z) (h : hart) : hart :=
  Hart (h_mode h) (h_pc h) (h_reg h) (<[c := v]> (h_csr h)) (h_stale h) (h_mem h).
Definition set_h_stale (v : list Z) (h : hart) : hart :=
  Hart (h_mode h) (h_pc h) (h_reg h) (h_csr h) v (h_mem h).
Definition set_h_mem (v : mem) (h : hart) : hart :=
  Hart (h_mode h) (h_pc h) (h_reg h) (h_csr h) (h_stale h) v.

Definition get_reg (h : hart) (r : reg) : Z := rget (h_reg h) r.

Lemma rget_upd rs r v : r ≠ Zero → rget (upd r v rs) r = v.
Proof. intros Hr. unfold rget, upd. rewrite !decide_False by done. by rewrite fn_lookup_insert. Qed.
Lemma rget_upd_ne rs r r' v : r ≠ r' → rget (upd r v rs) r' = rget rs r'.
Proof.
  intros Hr. unfold rget, upd. case_decide; [done|]. case_decide; [done|].
  by rewrite fn_lookup_insert_ne.
Qed.
#[global] Arguments upd : simpl never.
#[global] Arguments rget : simpl never.
#[export] Hint Rewrite rget_upd using done : regs.
#[export] Hint Rewrite rget_upd_ne using done : regs.

(** ** Control and status registers *)

(** The bits of [mstatus] and the counters that matter here. *)
Definition SIE_BIT : Z := 1.
Definition SPIE_BIT : Z := 5.
Definition SPP_BIT : Z := 8.
Definition MPP_BIT : Z := 11.
Definition SUM_BIT : Z := 18.
Definition MXR_BIT : Z := 19.
Definition STCE_BIT : Z := 63.
Definition TM_BIT : Z := 1.

(** The bits of [mstatus] that [sstatus] shows: SIE, SPIE, UBE, SPP, VS, FS, XS, SUM, MXR,
    UXL and SD. *)
Definition SSTATUS_VIEW : Z := 0x80000003000de762.

(** The exceptions and interrupts a hart lets machine mode delegate are its own choice;
    those of supervisor mode are among them. *)
Class Hw := {
  medeleg_bits : Z;
  mideleg_bits : Z;
  hw_exceptions : Z.land medeleg_bits 0xb3ff = 0xb3ff;
  hw_interrupts : Z.land mideleg_bits 0x222 = 0x222;
}.

Section hart.
Context {W : Hw}.
Implicit Types h : hart.

Definition get_csr (h : hart) (c : csr) : Z :=
  match c with
  | Sstatus => Z.land (h_csr h Mstatus) SSTATUS_VIEW
  | Sie => Z.land (h_csr h Mie) (h_csr h Mideleg)
  | Sip => Z.land (h_csr h Mip) (h_csr h Mideleg)
  | _ => h_csr h c
  end.

(** [old] with the bits of [mask] from [v]. *)
Definition merge (old mask v : Z) : Z := Z.lor (Z.ldiff old mask) (Z.land v mask).

(** What a write stores: fields that hold legal values only keep to them. *)
Definition put_csr (c : csr) (v : Z) (h : hart) : hart :=
  match c with
  | Sstatus => set_h_csr Mstatus (merge (h_csr h Mstatus) SSTATUS_VIEW v) h
  | Sie => set_h_csr Mie (merge (h_csr h Mie) (h_csr h Mideleg) v) h
  | Sip => set_h_csr Mip (merge (h_csr h Mip) (Z.land 2 (h_csr h Mideleg)) v) h
  | Medeleg => set_h_csr Medeleg (Z.land v medeleg_bits) h
  | Mideleg => set_h_csr Mideleg (Z.land v mideleg_bits) h
  | Mepc | Sepc => set_h_csr c (Z.ldiff v 1) h
  | Satp =>
      if bool_decide (Z.shiftr v 60 = 0 ∨ Z.shiftr v 60 = 8)
      then set_h_stale (h_csr h Satp :: h_stale h) (set_h_csr Satp v h)
      else h
  | _ => set_h_csr c v h
  end.

(** Whether an instruction may name the register in this mode. *)
Definition csr_allowed (h : hart) (c : csr) : bool :=
  match h_mode h with
  | Machine => true
  | User => false
  | Supervisor =>
      match c with
      | Sstatus | Sie | Sip | Sepc | Scause | Stval | Stvec | Sscratch | Satp => true
      | Time => Z.testbit (h_csr h Mcounteren) TM_BIT
      | Stimecmp => Z.testbit (h_csr h Mcounteren) TM_BIT && Z.testbit (h_csr h Menvcfg) STCE_BIT
      | _ => false
      end
  end.
Definition csr_readonly (c : csr) : bool := match c with Mhartid | Time => true | _ => false end.

Definition csrr (c : csr) : H Z :=
  ok ← gets (λ h, csr_allowed h c);
  if negb ok then undef "illegal instruction" else gets (λ h, get_csr h c).
Definition csrw (c : csr) (v : Z) : H unit :=
  ok ← gets (λ h, csr_allowed h c);
  if negb ok || csr_readonly c then undef "illegal instruction" else modify (put_csr c v).

(** ** Memory protection *)

Inductive access := Load | Store | Fetch.
Definition pmp_bit (a : access) : Z := match a with Load => 0 | Store => 1 | Fetch => 2 end.

(** The physical addresses that entry 0 covers, by its address-matching field; the other
    entries are off. *)
Definition pmp_range (h : hart) : Z * Z :=
  let a := h_csr h Pmpaddr0 in
  match Z.land (Z.shiftr (h_csr h Pmpcfg0) 3) 3 with
  | 0 => (0, 0)
  | 1 => (0, 4 * a)
  | 2 => (4 * a, 4 * a + 4)
  | _ => let m := Z.lxor a (a + 1) in (4 * Z.ldiff a m, 4 * (Z.ldiff a m + m + 1))
  end.
(** An access of [n] bytes; machine mode is not restricted. *)
Definition pmp_ok (h : hart) (acc : access) (pa n : Z) : bool :=
  match h_mode h with
  | Machine => true
  | _ =>
      (fst (pmp_range h) <=? pa) && (pa + n <=? snd (pmp_range h)) &&
      Z.testbit (h_csr h Pmpcfg0) (pmp_bit acc)
  end.

(** ** Address translation (Sv39) *)

Definition PTE_PPN (pte : Z) : Z := Z.land (Z.shiftr pte 10) (Z.ones 44).

(** The leaf entry for [va] and its level. *)
Fixpoint sv39_walk (h : hart) (levels : list Z) (table va : Z) : option (Z * Z) :=
  match levels with
  | [] => None
  | level :: levels' =>
      let a := table + 8 * PX level va in
      let pte := ld64 (h_mem h) a in
      if negb (pmp_ok h Load a 8) then None
      else if negb (Z.testbit pte 0) || (negb (Z.testbit pte 1) && Z.testbit pte 2)
              || negb (Z.shiftr pte 54 =? 0) then None
      else if Z.testbit pte 1 || Z.testbit pte 3 then Some (pte, level)
      else sv39_walk h levels' (Z.shiftl (PTE_PPN pte) 12) va
  end.

(** The permission bits of a leaf entry. *)
Definition pte_allows (h : hart) (acc : access) (pte : Z) : bool :=
  match h_mode h, acc with
  | User, _ => Z.testbit pte 4
  | _, Fetch => negb (Z.testbit pte 4)
  | _, _ => negb (Z.testbit pte 4) || Z.testbit (h_csr h Mstatus) SUM_BIT
  end &&
  match acc with
  | Load => Z.testbit pte 1 || (Z.testbit (h_csr h Mstatus) MXR_BIT && Z.testbit pte 3)
  | Store => Z.testbit pte 2
  | Fetch => Z.testbit pte 3
  end.

(** The upper bits of an address repeat bit 38. *)
Definition canonical (va : Z) : bool :=
  ((0 <=? va) && (va <? 2 ^ 38)) || ((2 ^ 64 - 2 ^ 38 <=? va) && (va <? 2 ^ 64)).

(** The physical address of [va] when [satp] has the given value. *)
Definition translate_with (h : hart) (satp : Z) (acc : access) (va : Z) : option Z :=
  match h_mode h with
  | Machine => Some va
  | _ =>
      if Z.shiftr satp 60 =? 0 then Some va else
      if negb (Z.shiftr satp 60 =? 8) || negb (canonical va) then None else
      match sv39_walk h [2; 1; 0] (Z.shiftl (Z.land satp (Z.ones 44)) 12) va with
      | None => None
      | Some (pte, level) =>
          let size := PGSIZE * 512 ^ level in
          let base := Z.shiftl (PTE_PPN pte) 12 in
          if pte_allows h acc pte && (base mod size =? 0) then Some (base + va mod size) else None
      end
  end.

(** Every page table that may be in use has to give the same address. *)
Definition translate (h : hart) (acc : access) (va : Z) : option Z :=
  let pa := translate_with h (h_csr h Satp) acc va in
  if forallb (λ satp, bool_decide (translate_with h satp acc va = pa)) (h_stale h)
  then pa else None.

(** An aligned access of [n] bytes, at a physical address. *)
Definition reach (acc : access) (va n : Z) : H Z :=
  o ← gets (λ h, translate h acc va);
  match o with
  | None => undef "page fault"
  | Some pa =>
      ok ← gets (λ h, pmp_ok h acc pa n);
      if negb ok then undef "access fault" else
      if negb (va mod n =? 0) then undef "misaligned" else ret pa
  end.

(** ** Traps *)

Definition setbit_to (z i : Z) (b : bool) : Z := if b then Z.setbit z i else Z.clearbit z i.

(** A trap from user or supervisor mode that is delegated to supervisor mode. *)
Definition trap (cause tval : Z) (h : hart) : hart :=
  let st := h_csr h Mstatus in
  let st := setbit_to st SPP_BIT (bool_decide (h_mode h = Supervisor)) in
  let st := setbit_to st SPIE_BIT (Z.testbit (h_csr h Mstatus) SIE_BIT) in
  let st := Z.clearbit st SIE_BIT in
  set_h_mode Supervisor (set_h_pc (Z.ldiff (h_csr h Stvec) 3)
    (set_h_csr Mstatus st (set_h_csr Scause cause (set_h_csr Stval tval
      (set_h_csr Sepc (h_pc h) h))))).

Definition sret : H unit :=
  h ← gets (λ h, h);
  if negb (csr_allowed h Sepc) then undef "illegal instruction" else
  let st := h_csr h Mstatus in
  let st' := Z.clearbit (Z.setbit (setbit_to st SIE_BIT (Z.testbit st SPIE_BIT)) SPIE_BIT) SPP_BIT in
  modify (set_h_csr Mstatus st') ;;
  modify (set_h_mode (if Z.testbit st SPP_BIT then Supervisor else User)) ;;
  modify (set_h_pc (h_csr h Sepc)).

(** [mret]; the bits MIE and MPIE are 3 and 7, MPRV is 17. *)
Definition mret : H unit :=
  h ← gets (λ h, h);
  if negb (bool_decide (h_mode h = Machine)) then undef "illegal instruction" else
  let st := h_csr h Mstatus in
  let mpp := Z.land (Z.shiftr st MPP_BIT) 3 in
  let m := if mpp =? 3 then Machine else if mpp =? 1 then Supervisor else User in
  let st := Z.ldiff (Z.setbit (setbit_to st 3 (Z.testbit st 7)) 7) (Z.shiftl 3 MPP_BIT) in
  modify (set_h_csr Mstatus (if mpp =? 3 then st else Z.clearbit st 17)) ;;
  modify (set_h_mode m) ;;
  modify (set_h_pc (h_csr h Mepc)).


(** ** Properties *)

(** Memory protection as start.c programs it. *)
Definition pmp_open (cs : csr → Z) : Prop := cs Pmpcfg0 = 0xf ∧ cs Pmpaddr0 = 0x3fffffffffffff.

Lemma pmp_all_memory h acc pa n :
  pmp_open (h_csr h) → 0 ≤ pa → pa + n ≤ 2 ^ 56 - 4 → pmp_ok h acc pa n = true.
Proof.
  intros [Hc Ha] Hp Hn. unfold pmp_ok, pmp_range. rewrite Hc, Ha. change (Z.land (Z.shiftr 15 3) 3) with 1. cbv beta iota zeta. cbn [fst snd].
  rewrite (proj2 (Z.leb_le 0 pa)), (proj2 (Z.leb_le (pa + n) _)) by lia.
  by destruct (h_mode h), acc.
Qed.

Lemma ldiff_even a : a mod 2 = 0 → Z.ldiff a 1 = a.
Proof.
  intros Ha. change 1 with (Z.ones 1). rewrite Z.ldiff_ones_r by lia.
  rewrite Z.shiftl_mul_pow2, Z.shiftr_div_pow2 by lia. change (2 ^ 1) with 2. dlia.
Qed.

Lemma reach_run acc va n pa h :
  translate h acc va = Some pa → pmp_ok h acc pa n = true → va mod n = 0 → reach acc va n h = Ret pa h.
Proof.
  intros Ht Hp Hm. unfold reach, bind, gets. cbn [res_bind]. rewrite Ht. cbn [res_bind].
  rewrite Hp, Hm. done.
Qed.

Lemma translate_fresh h acc va : h_stale h = [] → translate h acc va = translate_with h (h_csr h Satp) acc va.
Proof. intros Hs. unfold translate. by rewrite Hs. Qed.

Lemma translate_bare h satp acc va : Z.shiftr satp 60 = 0 → translate_with h satp acc va = Some va.
Proof. intros Hb. unfold translate_with. rewrite Hb. by destruct (h_mode h). Qed.
End hart.

(** ** kernel/riscv.h *)

Module Riscv.
Section riscv.
Context {W : Hw}.

Definition r_mhartid : H Z := csrr Mhartid.

Definition MSTATUS_MPP_MASK : Z := Z.shiftl 3 11.
Definition MSTATUS_MPP_M : Z := Z.shiftl 3 11.
Definition MSTATUS_MPP_S : Z := Z.shiftl 1 11.
Definition MSTATUS_MPP_U : Z := Z.shiftl 0 11.

Definition r_mstatus : H Z := csrr Mstatus.
Definition w_mstatus (x : Z) : H unit := csrw Mstatus x.
Definition w_mepc (x : Z) : H unit := csrw Mepc x.

Definition SSTATUS_SIE : Z := Z.shiftl 1 1.
Definition r_sstatus : H Z := csrr Sstatus.
Definition w_sstatus (x : Z) : H unit := csrw Sstatus x.
Definition r_sip : H Z := csrr Sip.
Definition w_sip (x : Z) : H unit := csrw Sip x.

Definition SIE_SEIE : Z := Z.shiftl 1 9.
Definition SIE_STIE : Z := Z.shiftl 1 5.
Definition r_sie : H Z := csrr Sie.
Definition w_sie (x : Z) : H unit := csrw Sie x.
Definition r_mie : H Z := csrr Mie.
Definition w_mie (x : Z) : H unit := csrw Mie x.
Definition w_sepc (x : Z) : H unit := csrw Sepc x.
Definition r_sepc : H Z := csrr Sepc.
Definition r_medeleg : H Z := csrr Medeleg.
Definition w_medeleg (x : Z) : H unit := csrw Medeleg x.
Definition r_mideleg : H Z := csrr Mideleg.
Definition w_mideleg (x : Z) : H unit := csrw Mideleg x.
Definition w_stvec (x : Z) : H unit := csrw Stvec x.
Definition r_stvec : H Z := csrr Stvec.
Definition r_stimecmp : H Z := csrr Stimecmp.
Definition w_stimecmp (x : Z) : H unit := csrw Stimecmp x.
Definition r_menvcfg : H Z := csrr Menvcfg.
Definition w_menvcfg (x : Z) : H unit := csrw Menvcfg x.
Definition w_pmpcfg0 (x : Z) : H unit := csrw Pmpcfg0 x.
Definition w_pmpaddr0 (x : Z) : H unit := csrw Pmpaddr0 x.
Definition w_satp (x : Z) : H unit := csrw Satp x.
Definition r_satp : H Z := csrr Satp.
Definition r_scause : H Z := csrr Scause.
Definition r_stval : H Z := csrr Stval.
Definition w_mcounteren (x : Z) : H unit := csrw Mcounteren x.
Definition r_mcounteren : H Z := csrr Mcounteren.
Definition r_time : H Z := csrr Time.

Definition intr_on : H unit := x ← r_sstatus; w_sstatus (Z.lor x SSTATUS_SIE).
Definition intr_off : H unit := x ← r_sstatus; w_sstatus (Z.land x (Z.lnot SSTATUS_SIE)).
Definition intr_get : H bool := x ← r_sstatus; ret (negb (Z.land x SSTATUS_SIE =? 0)).

Definition r_sp : H Z := gets (λ h, get_reg h Sp).
Definition r_tp : H Z := gets (λ h, get_reg h Tp).
Definition w_tp (x : Z) : H unit := modify (set_h_reg Tp x).
Definition r_ra : H Z := gets (λ h, get_reg h Ra).

Definition sfence_vma : H unit :=
  ok ← gets (λ h, bool_decide (h_mode h ≠ User));
  if negb ok then undef "illegal instruction" else modify (set_h_stale []).
End riscv.
End Riscv.
