(* ===== verification/Asm.v ===== *)
(** * The assembly code: entry.S, swtch.S, kernelvec.S, trampoline.S, and the stubs of usys.pl

    Each listing is the list of its instructions, run by [exec_all] on a hart: before every
    instruction the hart fetches from the address in [pc].  The sizes of the instructions in
    bytes, and so the addresses of the labels, are the assembler's: the class [Text]. *)
From Stdlib Require Import ZArith Lia.
From stdpp Require Import base list gmap numbers functions strings.
From S2P Require Import Prelude Machine Hart.
Local Open Scope Z_scope.
Local Open Scope kernel_scope.

(** ** Instructions *)

Inductive instr :=
  | ISd (rs : reg) (off : Z) (rb : reg)
  | ILd (rd : reg) (off : Z) (rb : reg)
  | ILi (rd : reg) (imm : Z)
  | ILa (rd : reg) (addr : Z)
  | IAddi (rd rs : reg) (imm : Z)
  | IAdd (rd ra rb : reg)
  | IMul (rd ra rb : reg)
  | ICsrr (rd : reg) (c : csr)
  | ICsrw (c : csr) (rs : reg)
  | ISfence
  | IJalr (rs : reg)
  | ICall (addr : Z)
  | IRet
  | ISret
  | IEcall.

(** The size of an instruction, and the addresses the listings name. *)
Class Text := {
  isize : instr → Z;
  isize_range i : 2 ≤ isize i ≤ 32;
  isize_even i : isize i mod 2 = 0;
  isize_ecall : isize IEcall = 4;
  a_start : Z;
  a_main : Z;
  a_kerneltrap : Z;
  stack0 : Z;
}.

Section asm.
Context {W : Hw} {X : Text}.

Definition setreg (r : reg) (v : Z) : H unit := modify (set_h_reg r (u64 v)).
Definition jump (a : Z) : H unit := modify (set_h_pc a).

(** One instruction, at the address in [pc]. *)
Definition exec (i : instr) : H unit :=
  pc ← gets h_pc;
  let next := u64 (pc + isize i) in
  match i with
  | ISd rs off rb =>
      a ← gets (λ h, u64 (get_reg h rb + off));
      pa ← reach Store a 8;
      v ← gets (λ h, get_reg h rs);
      modify (λ h, set_h_mem (st64 (h_mem h) pa v) h) ;; jump next
  | ILd rd off rb =>
      a ← gets (λ h, u64 (get_reg h rb + off));
      pa ← reach Load a 8;
      v ← gets (λ h, ld64 (h_mem h) pa);
      setreg rd v ;; jump next
  | ILi rd imm => setreg rd imm ;; jump next
  | ILa rd addr => setreg rd addr ;; jump next
  | IAddi rd rs imm => v ← gets (λ h, get_reg h rs); setreg rd (v + imm) ;; jump next
  | IAdd rd ra rb =>
      v ← gets (λ h, get_reg h ra); w ← gets (λ h, get_reg h rb); setreg rd (v + w) ;; jump next
  | IMul rd ra rb =>
      v ← gets (λ h, get_reg h ra); w ← gets (λ h, get_reg h rb); setreg rd (v * w) ;; jump next
  | ICsrr rd c => v ← csrr c; setreg rd v ;; jump next
  | ICsrw c rs => v ← gets (λ h, get_reg h rs); csrw c v ;; jump next
  | ISfence => Riscv.sfence_vma ;; jump next
  | IJalr rs => a ← gets (λ h, get_reg h rs); setreg Ra next ;; jump (Z.ldiff a 1)
  | ICall addr => setreg Ra next ;; jump addr
  | IRet => a ← gets (λ h, get_reg h Ra); jump (Z.ldiff a 1)
  | ISret => sret
  | IEcall =>
      m ← gets h_mode;
      let cause := match m with User => 8 | Supervisor => 9 | Machine => 11 end in
      ok ← gets (λ h, bool_decide (m ≠ Machine) && Z.testbit (h_csr h Medeleg) cause);
      if negb ok then undef "trap to machine mode" else modify (trap cause 0)
  end.

Definition fetch : H unit := pc ← gets h_pc; reach Fetch pc 2 ;; ret tt.

Fixpoint exec_all (l : list instr) : H unit :=
  match l with
  | [] => ret tt
  | i :: l' => fetch ;; exec i ;; exec_all l'
  end.

(** The number of bytes of a listing. *)
Fixpoint size (l : list instr) : Z :=
  match l with [] => 0 | i :: l' => isize i + size l' end.

(** ** entry.S *)

Definition entry : list instr :=
  [ ILa Sp stack0; ILi A0 (1024 * 4); ICsrr A1 Mhartid; IAddi A1 A1 1; IMul A0 A0 A1;
    IAdd Sp Sp A0; ICall a_start ].

(** ** swtch.S *)

Definition swtch_code : list instr :=
  [ ISd Ra 0 A0; ISd Sp 8 A0; ISd S0 16 A0; ISd S1 24 A0; ISd S2 32 A0; ISd S3 40 A0;
    ISd S4 48 A0; ISd S5 56 A0; ISd S6 64 A0; ISd S7 72 A0; ISd S8 80 A0; ISd S9 88 A0;
    ISd S10 96 A0; ISd S11 104 A0; ILd Ra 0 A1; ILd Sp 8 A1; ILd S0 16 A1; ILd S1 24 A1;
    ILd S2 32 A1; ILd S3 40 A1; ILd S4 48 A1; ILd S5 56 A1; ILd S6 64 A1; ILd S7 72 A1;
    ILd S8 80 A1; ILd S9 88 A1; ILd S10 96 A1; ILd S11 104 A1; IRet ].

(** ** kernelvec.S: before [kerneltrap], and from its return *)

Definition kernelvec_save : list instr :=
  [ IAddi Sp Sp (-256); ISd Ra 0 Sp; ISd Gp 16 Sp; ISd T0 32 Sp; ISd T1 40 Sp;
    ISd T2 48 Sp; ISd A0 72 Sp; ISd A1 80 Sp; ISd A2 88 Sp; ISd A3 96 Sp; ISd A4 104 Sp;
    ISd A5 112 Sp; ISd A6 120 Sp; ISd A7 128 Sp; ISd T3 216 Sp; ISd T4 224 Sp;
    ISd T5 232 Sp; ISd T6 240 Sp; ICall a_kerneltrap ].
Definition kernelvec_restore : list instr :=
  [ ILd Ra 0 Sp; ILd Gp 16 Sp; ILd T0 32 Sp; ILd T1 40 Sp; ILd T2 48 Sp; ILd A0 72 Sp;
    ILd A1 80 Sp; ILd A2 88 Sp; ILd A3 96 Sp; ILd A4 104 Sp; ILd A5 112 Sp; ILd A6 120 Sp;
    ILd A7 128 Sp; ILd T3 216 Sp; ILd T4 224 Sp; ILd T5 232 Sp; ILd T6 240 Sp;
    IAddi Sp Sp 256; ISret ].

(** ** trampoline.S *)

Definition uservec : list instr :=
  [ ICsrw Sscratch A0; ILi A0 TRAPFRAME; ISd Ra 40 A0; ISd Sp 48 A0; ISd Gp 56 A0;
    ISd Tp 64 A0; ISd T0 72 A0; ISd T1 80 A0; ISd T2 88 A0; ISd S0 96 A0; ISd S1 104 A0;
    ISd A1 120 A0; ISd A2 128 A0; ISd A3 136 A0; ISd A4 144 A0; ISd A5 152 A0;
    ISd A6 160 A0; ISd A7 168 A0; ISd S2 176 A0; ISd S3 184 A0; ISd S4 192 A0;
    ISd S5 200 A0; ISd S6 208 A0; ISd S7 216 A0; ISd S8 224 A0; ISd S9 232 A0;
    ISd S10 240 A0; ISd S11 248 A0; ISd T3 256 A0; ISd T4 264 A0; ISd T5 272 A0;
    ISd T6 280 A0; ICsrr T0 Sscratch; ISd T0 112 A0; ILd Sp 8 A0; ILd Tp 32 A0;
    ILd T0 16 A0; ILd T1 0 A0; ISfence; ICsrw Satp T1; ISfence; IJalr T0 ].
Definition userret : list instr :=
  [ ISfence; ICsrw Satp A0; ISfence; ILi A0 TRAPFRAME; ILd Ra 40 A0; ILd Sp 48 A0;
    ILd Gp 56 A0; ILd Tp 64 A0; ILd T0 72 A0; ILd T1 80 A0; ILd T2 88 A0; ILd S0 96 A0;
    ILd S1 104 A0; ILd A1 120 A0; ILd A2 128 A0; ILd A3 136 A0; ILd A4 144 A0;
    ILd A5 152 A0; ILd A6 160 A0; ILd A7 168 A0; ILd S2 176 A0; ILd S3 184 A0;
    ILd S4 192 A0; ILd S5 200 A0; ILd S6 208 A0; ILd S7 216 A0; ILd S8 224 A0;
    ILd S9 232 A0; ILd S10 240 A0; ILd S11 248 A0; ILd T3 256 A0; ILd T4 264 A0;
    ILd T5 272 A0; ILd T6 280 A0; ILd A0 112 A0; ISret ].

(** ** The system call stubs of usys.pl *)

(** syscall.h *)
Inductive sysno :=
  | SYS_fork | SYS_exit | SYS_wait | SYS_pipe | SYS_read | SYS_kill | SYS_exec | SYS_fstat
  | SYS_chdir | SYS_dup | SYS_getpid | SYS_sbrk | SYS_pause | SYS_uptime | SYS_open
  | SYS_write | SYS_mknod | SYS_unlink | SYS_link | SYS_mkdir | SYS_close | SYS_sleep | SYS_getprocinfo.
Definition sysnum (n : sysno) : Z :=
  match n with
  | SYS_fork => 1 | SYS_exit => 2 | SYS_wait => 3 | SYS_pipe => 4
  | SYS_read => 5 | SYS_kill => 6 | SYS_exec => 7 | SYS_fstat => 8
  | SYS_chdir => 9 | SYS_dup => 10 | SYS_getpid => 11 | SYS_sbrk => 12
  | SYS_pause => 13 | SYS_uptime => 14 | SYS_open => 15 | SYS_write => 16
  | SYS_mknod => 17 | SYS_unlink => 18 | SYS_link => 19 | SYS_mkdir => 20
  | SYS_close => 21 | SYS_sleep => 22 | SYS_getprocinfo => 23
  end.
Coercion sysnum : sysno >-> Z.

Definition stub (num : Z) : list instr := [ILi A7 num; IEcall; IRet].

(** The stubs by the name of the call; [sbrk] is [sys_sbrk] in user programs. *)
Definition usys : list (string * list instr) :=
  [ ("fork"%string, stub SYS_fork); ("exit"%string, stub SYS_exit);
    ("wait"%string, stub SYS_wait); ("pipe"%string, stub SYS_pipe);
    ("read"%string, stub SYS_read); ("write"%string, stub SYS_write);
    ("close"%string, stub SYS_close); ("kill"%string, stub SYS_kill);
    ("exec"%string, stub SYS_exec); ("open"%string, stub SYS_open);
    ("mknod"%string, stub SYS_mknod); ("unlink"%string, stub SYS_unlink);
    ("fstat"%string, stub SYS_fstat); ("link"%string, stub SYS_link);
    ("mkdir"%string, stub SYS_mkdir); ("chdir"%string, stub SYS_chdir);
    ("dup"%string, stub SYS_dup); ("getpid"%string, stub SYS_getpid);
    ("sbrk"%string, stub SYS_sbrk); ("pause"%string, stub SYS_pause);
    ("uptime"%string, stub SYS_uptime); ("sleep"%string, stub SYS_sleep);
    ("getprocinfo"%string, stub SYS_getprocinfo) ].

(** ** The effect of each instruction *)

Section effect.
Context (m : mode) (pc : Z) (rs : reg → Z) (cs : csr → Z) (st : list Z) (me : mem).
Let next (i : instr) : Z := u64 (pc + isize i).
Let h : hart := Hart m pc rs cs st me.

Lemma exec_li rd imm :
  exec (ILi rd imm) h = Ret tt (Hart m (next (ILi rd imm)) (upd rd (u64 imm) rs) cs st me).
Proof. done. Qed.
Lemma exec_la rd a :
  exec (ILa rd a) h = Ret tt (Hart m (next (ILa rd a)) (upd rd (u64 a) rs) cs st me).
Proof. done. Qed.
Lemma exec_addi rd r imm :
  exec (IAddi rd r imm) h =
  Ret tt (Hart m (next (IAddi rd r imm)) (upd rd (u64 (rget rs r + imm)) rs) cs st me).
Proof. done. Qed.
Lemma exec_add rd ra rb :
  exec (IAdd rd ra rb) h =
  Ret tt (Hart m (next (IAdd rd ra rb)) (upd rd (u64 (rget rs ra + rget rs rb)) rs) cs st me).
Proof. done. Qed.
Lemma exec_mul rd ra rb :
  exec (IMul rd ra rb) h =
  Ret tt (Hart m (next (IMul rd ra rb)) (upd rd (u64 (rget rs ra * rget rs rb)) rs) cs st me).
Proof. done. Qed.
Lemma exec_csrr rd c :
  csr_allowed h c = true →
  exec (ICsrr rd c) h =
  Ret tt (Hart m (next (ICsrr rd c)) (upd rd (u64 (get_csr h c)) rs) cs st me).
Proof. intros Hc. unfold exec, csrr, bind, gets. cbn [res_bind]. by rewrite Hc. Qed.
Lemma exec_csrw rsrc c :
  csr_allowed h c = true → csr_readonly c = false →
  exec (ICsrw c rsrc) h = Ret tt (set_h_pc (next (ICsrw c rsrc)) (put_csr c (rget rs rsrc) h)).
Proof. intros Hc Hr. unfold exec, csrw, bind, gets. cbn [res_bind]. by rewrite Hc, Hr. Qed.
Lemma exec_sfence : m = Supervisor → exec ISfence h = Ret tt (Hart m (next ISfence) rs cs [] me).
Proof. unfold h. by intros ->. Qed.
Lemma exec_jalr r :
  exec (IJalr r) h =
  Ret tt (Hart m (Z.ldiff (rget rs r) 1) (upd Ra (u64 (next (IJalr r))) rs) cs st me).
Proof. done. Qed.
Lemma exec_call a :
  exec (ICall a) h = Ret tt (Hart m a (upd Ra (u64 (next (ICall a))) rs) cs st me).
Proof. done. Qed.
Lemma exec_ret : exec IRet h = Ret tt (Hart m (Z.ldiff (rget rs Ra) 1) rs cs st me).
Proof. done. Qed.
Lemma exec_sd r off rb pa :
  reach Store (u64 (rget rs rb + off)) 8 h = Ret pa h →
  exec (ISd r off rb) h =
  Ret tt (Hart m (next (ISd r off rb)) rs cs st (st64 me pa (rget rs r))).
Proof. intros Hr. unfold exec. rewrite !bind_gets. by rewrite (bind_run _ _ _ _ _ Hr). Qed.
Lemma exec_ld rd off rb pa :
  reach Load (u64 (rget rs rb + off)) 8 h = Ret pa h →
  exec (ILd rd off rb) h =
  Ret tt (Hart m (next (ILd rd off rb)) (upd rd (u64 (ld64 me pa)) rs) cs st me).
Proof. intros Hr. unfold exec. rewrite !bind_gets. by rewrite (bind_run _ _ _ _ _ Hr). Qed.
Lemma exec_sret :
  m = Supervisor →
  exec ISret h =
  Ret tt (Hart (if Z.testbit (cs Mstatus) SPP_BIT then Supervisor else User) (cs Sepc) rs
    (<[Mstatus := Z.clearbit (Z.setbit (setbit_to (cs Mstatus) SIE_BIT
        (Z.testbit (cs Mstatus) SPIE_BIT)) SPIE_BIT) SPP_BIT]> cs) st me).
Proof. unfold h. by intros ->. Qed.
End effect.

Lemma exec_step i l h h' :
  fetch h = Ret tt h → exec i h = Ret tt h' → exec_all (i :: l) h = exec_all l h'.
Proof.
  intros Hf Hi. cbn [exec_all]. rewrite (bind_run _ _ _ _ _ Hf). by rewrite (bind_run _ _ _ _ _ Hi).
Qed.

Lemma exec_all_app l1 l2 h h' :
  exec_all l1 h = Ret tt h' → exec_all (l1 ++ l2) h = exec_all l2 h'.
Proof.
  revert h. induction l1 as [|i l1 IH]; intros h Hr; [by injection Hr as ->|].
  cbn [exec_all app] in *. unfold bind in *.
  destruct (fetch h) as [[] h1| | | |]; cbn [res_bind] in *; try done.
  destruct (exec i h1) as [[] h2| | | |]; cbn [res_bind] in *; try done. by apply IH.
Qed.
End asm.

#[global] Arguments exec_all : simpl never.
#[global] Arguments exec : simpl never.
#[global] Arguments fetch : simpl never.
