(* ===== verification/Start.v ===== *)
(** * kernel/start.c: from reset to main

    The code of start.c on a hart in machine mode, and the state in which a hart arrives
    in [main] after entry.S and [start]. *)
From Stdlib Require Import ZArith Lia.
From stdpp Require Import base list gmap numbers functions strings.
From S2P Require Import Prelude Machine Hart Asm.
Local Open Scope Z_scope.
Local Open Scope kernel_scope.

Section start.
Context {W : Hw} {X : Text}.
Import Riscv.

(** ** Code *)

Definition timerinit : H unit :=
  x ← r_menvcfg;
  w_menvcfg (Z.lor x (Z.shiftl 1 63)) ;;
  x ← r_mcounteren;
  w_mcounteren (Z.lor x 2) ;;
  x ← r_time;
  w_stimecmp (u64 (x + 1000000)).

Definition start : H unit :=
  x ← r_mstatus;
  let x := Z.land x (Z.lnot MSTATUS_MPP_MASK) in
  let x := Z.lor x MSTATUS_MPP_S in
  w_mstatus x ;;
  w_mepc a_main ;;
  w_satp 0 ;;
  w_medeleg 0xffff ;;
  w_mideleg 0xffff ;;
  x ← r_sie;
  w_sie (Z.lor (Z.lor x SIE_SEIE) SIE_STIE) ;;
  w_pmpaddr0 0x3fffffffffffff ;;
  w_pmpcfg0 0xf ;;
  timerinit ;;
  id ← r_mhartid;
  w_tp (u64 (i32 id)) ;;
  mret.

(** ** Bits *)

Lemma land_testbit a m i : Z.land a m = m → Z.testbit m i = true → Z.testbit a i = true.
Proof. intros E Hm. rewrite <- E, Z.land_spec in Hm. by apply andb_prop in Hm as [? _]. Qed.

Lemma merge_testbit old mask v i :
  Z.testbit (merge old mask v) i = if Z.testbit mask i then Z.testbit v i else Z.testbit old i.
Proof.
  unfold merge. rewrite Z.lor_spec, Z.ldiff_spec, Z.land_spec.
  destruct (Z.testbit mask i), (Z.testbit old i), (Z.testbit v i); done.
Qed.

Lemma mpp_supervisor x :
  Z.land (Z.shiftr (Z.lor (Z.land x (Z.lnot MSTATUS_MPP_MASK)) MSTATUS_MPP_S) MPP_BIT) 3 = 1.
Proof.
  rewrite Z.shiftr_lor, Z.shiftr_land. change (Z.shiftr (Z.lnot MSTATUS_MPP_MASK) MPP_BIT) with (Z.lnot 3).
  change (Z.shiftr MSTATUS_MPP_S MPP_BIT) with 1.
  rewrite Z.land_lor_distr_l, <- Z.land_assoc. change (Z.land (Z.lnot 3) 3) with 0.
  by rewrite Z.land_0_r.
Qed.

(** The interrupts that [start] enables are those that were delegated before. *)
Lemma sie_enabled mie i :
  i = 5 ∨ i = 9 →
  let d := Z.land 0xffff mideleg_bits in
  Z.testbit (Z.land (merge mie d (Z.lor (Z.lor (Z.land mie d) SIE_SEIE) SIE_STIE)) d) i = true.
Proof.
  intros Hi d. rewrite Z.land_spec, merge_testbit.
  assert (Z.testbit d i = true) as ->.
  { unfold d. rewrite Z.land_spec.
    by destruct Hi as [-> | ->]; rewrite (land_testbit mideleg_bits 0x222) by (done || apply hw_interrupts). }
  rewrite !Z.lor_spec. destruct Hi as [-> | ->]; cbn; by rewrite ?orb_true_r.
Qed.

Lemma exceptions_delegated i :
  Z.testbit 0xb3ff i = true → Z.testbit (Z.land 0xffff medeleg_bits) i = true.
Proof.
  intros Hi. rewrite Z.land_spec, (land_testbit medeleg_bits 0xb3ff) by (done || apply hw_exceptions).
  rewrite (land_testbit 0xffff 0xb3ff) by done. done.
Qed.

(** ** Booting *)

(** What [main] finds, on a hart that came out of reset as [h]. *)
Record booted (h h' : hart) : Prop := {
  bo_mode : h_mode h' = Supervisor;
  bo_pc : h_pc h' = a_main;
  bo_sp : get_reg h' Sp = stack0 + (h_csr h Mhartid + 1) * 4096;
  bo_tp : get_reg h' Tp = h_csr h Mhartid;
  bo_satp : h_csr h' Satp = 0;
  bo_exceptions : ∀ i, Z.testbit 0xb3ff i = true → Z.testbit (h_csr h' Medeleg) i = true;
  bo_timer : Z.testbit (get_csr h' Sie) 5 = true;
  bo_external : Z.testbit (get_csr h' Sie) 9 = true;
  bo_first_tick : h_csr h' Stimecmp = u64 (h_csr h Time + 1000000);
  bo_clock : csr_allowed h' Time = true ∧ csr_allowed h' Stimecmp = true;
  bo_memory : ∀ acc pa n, 0 ≤ pa → pa + n ≤ 2 ^ 56 - 4 → pmp_ok h' acc pa n = true;
  bo_mem : h_mem h' = h_mem h;
}.

Lemma fetch_machine h : h_mode h = Machine → h_pc h mod 2 = 0 → h_stale h = [] → fetch h = Ret tt h.
Proof.
  intros Hm Hp Hs. unfold fetch, reach. cbn. unfold translate, translate_with, pmp_ok.
  rewrite Hs, Hm. cbn. rewrite Hm. cbn. by rewrite Hp.
Qed.

Lemma next_even pc i : pc mod 2 = 0 → u64 (pc + isize i) mod 2 = 0.
Proof.
  intros Hp. unfold u64. pose proof (isize_even i).
  rewrite <- Znumtheory.Zmod_div_mod; [|lia|lia|by exists (2 ^ 63)]. dlia.
Qed.

Ltac step_entry Hf lem :=
  erewrite exec_step; [|apply Hf; repeat apply next_even; assumption|apply lem; reflexivity].

(** entry.S leaves a stack of the hart's own and goes on in [start]. *)
Lemma entry_run h :
  h_mode h = Machine → h_pc h mod 2 = 0 → h_stale h = [] →
  0 ≤ h_csr h Mhartid < Z.of_nat NCPU → 0 ≤ stack0 < 2 ^ 63 →
  ∃ rs, exec_all entry h = Ret tt (Hart Machine a_start rs (h_csr h) [] (h_mem h)) ∧
    rget rs Sp = stack0 + (h_csr h Mhartid + 1) * 4096.
Proof.
  intros Hm Hp Hs Hid Hst. destruct h as [m pc rs cs st me]; cbn [h_mode h_pc h_csr h_stale h_mem] in *; subst. unfold entry.
  assert (∀ rs pc, pc mod 2 = 0 → fetch (Hart Machine pc rs cs [] me) = Ret tt (Hart Machine pc rs cs [] me)) as Hf
    by (intros; by apply fetch_machine).
  eexists. split.
  { step_entry Hf exec_la. step_entry Hf exec_li. step_entry Hf exec_csrr. step_entry Hf exec_addi.
    step_entry Hf exec_mul. step_entry Hf exec_add. step_entry Hf exec_call. reflexivity. }
  cbn [get_csr h_csr]. autorewrite with regs.
  change (Z.of_nat NCPU) with 8 in Hid. rewrite (u64_small stack0), (u64_small (cs Mhartid)) by lia.
  rewrite (u64_small (1024 * 4)), (u64_small (cs Mhartid + 1)) by lia.
  rewrite (u64_small (1024 * 4 * _)), u64_small; lia.
Qed.

(** Reads and writes in machine mode. *)
Section machine_mode.
Context (pc : Z) (rs : reg → Z) (st : list Z) (me : mem).
Let hm (cs : csr → Z) : hart := Hart Machine pc rs cs st me.

Definition plain (c : csr) : bool :=
  match c with
  | Mstatus | Pmpcfg0 | Pmpaddr0 | Menvcfg | Mcounteren | Stimecmp => true
  | _ => false
  end.
Lemma wp_read c Q cs : Q (get_csr (hm cs) c) (hm cs) → wp (csrr c) Q (hm cs).
Proof. done. Qed.
Lemma wp_write c v Q cs : plain c = true → Q tt (hm (<[c := v]> cs)) → wp (csrw c v) Q (hm cs).
Proof. by destruct c. Qed.
Lemma wp_write_mepc v Q cs : Q tt (hm (<[Mepc := Z.ldiff v 1]> cs)) → wp (csrw Mepc v) Q (hm cs).
Proof. done. Qed.
Lemma wp_write_medeleg v Q cs :
  Q tt (hm (<[Medeleg := Z.land v medeleg_bits]> cs)) → wp (csrw Medeleg v) Q (hm cs).
Proof. done. Qed.
Lemma wp_write_mideleg v Q cs :
  Q tt (hm (<[Mideleg := Z.land v mideleg_bits]> cs)) → wp (csrw Mideleg v) Q (hm cs).
Proof. done. Qed.
Lemma wp_write_sie v Q cs :
  Q tt (hm (<[Mie := merge (cs Mie) (cs Mideleg) v]> cs)) → wp (csrw Sie v) Q (hm cs).
Proof. done. Qed.
Lemma wp_write_satp Q cs :
  Q tt (Hart Machine pc rs (<[Satp := 0]> cs) (cs Satp :: st) me) → wp (csrw Satp 0) Q (hm cs).
Proof. done. Qed.
Lemma wp_mret Q cs :
  Z.land (Z.shiftr (cs Mstatus) MPP_BIT) 3 = 1 →
  (∀ mst, Q tt (Hart Supervisor (cs Mepc) rs (<[Mstatus := mst]> cs) st me)) → wp mret Q (hm cs).
Proof. intros Hp HQ. unfold mret, wp, bind. cbn [gets res_bind]. cbn -[Z.land Z.shiftr]. rewrite Hp. apply HQ. Qed.
End machine_mode.

Ltac csr_step :=
  lazymatch goal with
  | |- wp (bind _ _) _ _ => apply wp_bind
  | |- wp (modify _) _ _ => apply wp_modify
  | |- wp (csrr _) _ _ => apply wp_read
  | |- wp (csrw Mepc _) _ _ => apply wp_write_mepc
  | |- wp (csrw Medeleg _) _ _ => apply wp_write_medeleg
  | |- wp (csrw Mideleg _) _ _ => apply wp_write_mideleg
  | |- wp (csrw Sie _) _ _ => apply wp_write_sie
  | |- wp (csrw Satp _) _ _ => apply wp_write_satp
  | |- wp (csrw _ _) _ _ => apply wp_write; [reflexivity|]
  | |- wp mret _ _ => apply wp_mret
  end;
  cbn beta; cbn [get_csr h_csr set_h_reg h_mode h_pc h_reg h_stale h_mem];
  repeat first [rewrite fn_lookup_insert | rewrite fn_lookup_insert_ne by discriminate].

(** The control registers that [start] leaves; [mret] has changed [mstatus] to [st]. *)
Definition start_csrs (cs : csr → Z) (st : Z) : csr → Z :=
  let d := Z.land 0xffff mideleg_bits in
  <[Mstatus := st]> (<[Stimecmp := u64 (cs Time + 1000000)]>
    (<[Mcounteren := Z.lor (cs Mcounteren) 2]> (<[Menvcfg := Z.lor (cs Menvcfg) (Z.shiftl 1 63)]>
    (<[Pmpcfg0 := 0xf]> (<[Pmpaddr0 := 0x3fffffffffffff]>
    (<[Mie := merge (cs Mie) d (Z.lor (Z.lor (Z.land (cs Mie) d) SIE_SEIE) SIE_STIE)]>
    (<[Mideleg := d]> (<[Medeleg := Z.land 0xffff medeleg_bits]>
    (<[Satp := 0]> (<[Mepc := Z.ldiff a_main 1]>
    (<[Mstatus := Z.lor (Z.land (cs Mstatus) (Z.lnot MSTATUS_MPP_MASK)) MSTATUS_MPP_S]> cs))))))))))).

Lemma wp_start_code pc rs cs me :
  wp start (λ _ h', ∃ st, h' = Hart Supervisor (Z.ldiff a_main 1)
    (upd Tp (u64 (i32 (cs Mhartid))) rs) (start_csrs cs st) [cs Satp] me)
    (Hart Machine pc rs cs [] me).
Proof.
  unfold start, timerinit. cbv zeta.
  unfold Riscv.r_mstatus, Riscv.w_mstatus, Riscv.w_mepc, Riscv.w_satp, Riscv.w_medeleg, Riscv.w_mideleg,
    Riscv.r_sie, Riscv.w_sie, Riscv.w_pmpaddr0, Riscv.w_pmpcfg0, Riscv.r_menvcfg, Riscv.w_menvcfg,
    Riscv.r_mcounteren, Riscv.w_mcounteren, Riscv.r_time, Riscv.w_stimecmp, Riscv.r_mhartid, Riscv.w_tp.
  repeat csr_step; [apply mpp_supervisor|]. intros mst. exists mst. reflexivity.
Qed.

Lemma start_csrs_booted h rs st :
  h_mode h = Machine → 0 ≤ h_csr h Mhartid < Z.of_nat NCPU → a_main mod 2 = 0 →
  rget rs Sp = stack0 + (h_csr h Mhartid + 1) * 4096 →
  booted h (Hart Supervisor (Z.ldiff a_main 1) (upd Tp (u64 (i32 (h_csr h Mhartid))) rs)
    (start_csrs (h_csr h) st) [h_csr h Satp] (h_mem h)).
Proof.
  intros Hm Hid Ha Hsp. change (Z.of_nat NCPU) with 8 in Hid. unfold start_csrs.
  split; intros; try (apply pmp_all_memory; [split|assumption..]); unfold get_reg;
  cbn [h_mode h_pc h_reg h_csr h_stale h_mem get_csr csr_allowed];
  repeat first [rewrite fn_lookup_insert | rewrite fn_lookup_insert_ne by discriminate];
  autorewrite with regs; try reflexivity; try assumption.
  - by apply ldiff_even.
  - rewrite i32_small, u64_small; lia.
  - by apply exceptions_delegated.
  - apply sie_enabled. by left.
  - apply sie_enabled. by right.
  - rewrite !Z.lor_spec. change (Z.testbit 2 TM_BIT) with true.
    change (Z.testbit (Z.shiftl 1 63) STCE_BIT) with true. by rewrite !orb_true_r.
Qed.

(** C5: A hart that leaves reset reaches [main] in supervisor mode, on a stack of its own and with
    its number in [tp], without paging; the exceptions of user and supervisor mode and the timer
    and device interrupts are delegated and enabled, supervisor mode may read the clock and set
    the next tick, the first tick is a million cycles ahead, and memory protection lets
    supervisor mode reach every physical address. *)
Theorem boot_reaches_main (h : hart) (Hm : h_mode h = Machine) (Hp : h_pc h mod 2 = 0)
    (Hs : h_stale h = []) (Hid : 0 ≤ h_csr h Mhartid < Z.of_nat NCPU)
    (Hst : 0 ≤ stack0 < 2 ^ 63) (Ha : a_main mod 2 = 0) :
  ∃ h', bind (exec_all entry) (λ _, start) h = Ret tt h' ∧ booted h h'.
Proof.
  destruct (entry_run h) as (rs & Hr & Hsp); [assumption..|]. rewrite (bind_run _ _ _ _ _ Hr).
  destruct (proj1 (wp_run _ _ _) (wp_start_code a_start rs (h_csr h) (h_mem h))) as ([] & h' & E & st & ->).
  eexists. split; [exact E|]. by apply start_csrs_booted.
Qed.
End start.

(** A hart that can delegate everything, and a program text with four-byte instructions. *)
Definition hw_full : Hw := {| medeleg_bits := Z.ones 16; mideleg_bits := Z.ones 16;
  hw_exceptions := eq_refl; hw_interrupts := eq_refl |}.
Definition text_four : Text.
Proof.
  refine {| isize _ := 4; a_start := 0x80000100; a_main := 0x80000200; a_kerneltrap := 0x80000300;
            stack0 := 0x80007000 |}; intros; first [lia | reflexivity].
Defined.
Definition hart_reset (id : Z) : hart :=
  Hart Machine 0x80000000 (λ _, 0) (λ c, if decide (c = Mhartid) then id else 0) [] ∅.

#[local] Existing Instance hw_full.
#[local] Existing Instance text_four.
Lemma boot_reaches_main_witness :
  ∃ h', bind (exec_all entry) (λ _, start) (hart_reset 3) = Ret tt h' ∧ booted (hart_reset 3) h'.
Proof. apply (boot_reaches_main (hart_reset 3)); cbn; lia || done. Defined.
