(* ===== verification/Switch.v ===== *)
(** * swtch.S and kernelvec.S

    Runs of the listings of Asm.v that save and restore registers in memory.  [swtch]
    suspends a thread with its callee-saved registers in a [context] and resumes another;
    [kernelvec] makes a trap in the kernel invisible to the code it interrupts. *)
From Stdlib Require Import ZArith Lia.
From stdpp Require Import base list gmap numbers functions strings.
From S2P Require Import Prelude Machine State Hart Asm Start.
Local Open Scope Z_scope.
Local Open Scope kernel_scope.

(** A register and the offset it is kept at. *)
Abbreviation slot := (reg * Z)%type.

Section switch.
Context {W : Hw} {X : Text}.
Implicit Types (rs : reg → Z) (cs : csr → Z) (me : mem).

(** ** Blocks of stores and loads *)

Definition saves (rb : reg) (tbl : list slot) : list instr := (λ x, ISd x.1 x.2 rb) <$> tbl.
Definition loads (rb : reg) (tbl : list slot) : list instr := (λ x, ILd x.1 x.2 rb) <$> tbl.

(** Memory after the registers of [tbl] have been stored from [pa] on, and the registers
    after they have been loaded. *)
Fixpoint stored (pa : Z) rs (tbl : list slot) me : mem :=
  match tbl with [] => me | (r, o) :: tbl' => stored pa rs tbl' (st64 me (pa + o) (rget rs r)) end.
Fixpoint loaded (pa : Z) me (tbl : list slot) rs : reg → Z :=
  match tbl with [] => rs | (r, o) :: tbl' => loaded pa me tbl' (upd r (ld64 me (pa + o)) rs) end.

Lemma ldn_shift n me me' a b :
  (∀ i, 0 ≤ i < Z.of_nat n → ld8 me (a + i) = ld8 me' (b + i)) → ldn n me a = ldn n me' b.
Proof.
  revert a b. induction n as [|n IH]; intros a b Hb; [done|]. rewrite !ldn_S.
  rewrite <- (Z.add_0_r a), <- (Z.add_0_r b) at 1. rewrite (Hb 0) by lia. rewrite !Z.add_0_r.
  do 2 f_equal. apply IH. intros i Hi. rewrite <- !Z.add_assoc. apply Hb. lia.
Qed.

(** Registers hold 64-bit values. *)
Definition wide rs : Prop := ∀ r, 0 ≤ rget rs r < 2 ^ 64.

(** The slots of a table: distinct words, and registers other than [zero]. *)
Definition table_ok (lo hi : Z) (tbl : list slot) : bool :=
  forallb (λ x, (lo <=? x.2) && (x.2 + 8 <=? hi) && (x.2 mod 8 =? 0)
                && negb (bool_decide (x.1 = Zero))) tbl
  && bool_decide (NoDup tbl.*1) && bool_decide (NoDup tbl.*2).

Lemma table_ok_spec lo hi tbl : table_ok lo hi tbl = true →
  (∀ r o, (r, o) ∈ tbl → lo ≤ o ∧ o + 8 ≤ hi ∧ o mod 8 = 0 ∧ r ≠ Zero) ∧ NoDup tbl.*1 ∧ NoDup tbl.*2.
Proof.
  unfold table_ok. rewrite !andb_true_iff, !bool_decide_eq_true, forallb_forall.
  intros [[H H1] H2]. split; [|done]. intros r o Hin. apply list_elem_of_In, H in Hin. cbn in Hin.
  rewrite !andb_true_iff, !Z.leb_le, Z.eqb_eq, negb_true_iff, bool_decide_eq_false in Hin. tauto.
Qed.
Lemma table_ok_tail lo hi x tbl : table_ok lo hi (x :: tbl) = true → table_ok lo hi tbl = true.
Proof.
  unfold table_ok. cbn [forallb fmap list_fmap].
  rewrite !andb_true_iff, !bool_decide_eq_true, !list.NoDup_cons. tauto.
Qed.

(** What the stores leave in memory. *)
Lemma stored_frame pa rs tbl me lo hi a :
  table_ok lo hi tbl = true → ¬ (pa + lo ≤ a < pa + hi) → ld8 (stored pa rs tbl me) a = ld8 me a.
Proof.
  revert me. induction tbl as [|[r o] tbl IH]; intros me Ht Ha; [done|]. cbn [stored].
  rewrite IH by eauto using table_ok_tail. apply table_ok_spec in Ht as (Ht & _).
  destruct (Ht r o ltac:(by left)) as (? & ? & _). apply ld8_st64_ne. lia.
Qed.
Lemma stored_other pa rs tbl me lo hi o :
  table_ok lo hi tbl = true → o ∉ tbl.*2 → o mod 8 = 0 → ld64 (stored pa rs tbl me) (pa + o) = ld64 me (pa + o).
Proof.
  revert me. induction tbl as [|[r o'] tbl IH]; intros me Ht Ho Ha; [done|]. cbn [stored].
  cbn in Ho. apply not_elem_of_cons in Ho as [Hne Ho].
  rewrite IH by eauto using table_ok_tail. apply table_ok_spec in Ht as (Ht & _).
  destruct (Ht r o' ltac:(by left)) as (_ & _ & Hm & _). apply ld64_st64_ne.
  assert (o = 8 * (o / 8)) by dlia. assert (o' = 8 * (o' / 8)) by dlia.
  assert (o / 8 ≠ o' / 8) by (intros E; apply Hne; lia). lia.
Qed.
Lemma stored_at pa rs tbl me lo hi r o :
  table_ok lo hi tbl = true → wide rs → (r, o) ∈ tbl → ld64 (stored pa rs tbl me) (pa + o) = rget rs r.
Proof.
  revert me. induction tbl as [|[r' o'] tbl IH]; intros me Ht Hw Hin; [by apply elem_of_nil in Hin|].
  cbn [stored]. pose proof (table_ok_spec _ _ _ Ht) as (Hall & _ & Hnd).
  apply elem_of_cons in Hin as [[= -> ->]|Hin]; [|by apply IH; eauto using table_ok_tail].
  cbn in Hnd. apply list.NoDup_cons in Hnd as [Hn _].
  destruct (Hall r' o' ltac:(by left)) as (_ & _ & Hm & _).
  erewrite stored_other by eauto using table_ok_tail. by apply ld64_st64_same.
Qed.

(** What the loads leave in the registers. *)
Lemma loaded_other pa me tbl rs r : r ∉ tbl.*1 → rget (loaded pa me tbl rs) r = rget rs r.
Proof.
  revert rs. induction tbl as [|[r' o] tbl IH]; intros rs Hr; [done|]. cbn [loaded].
  cbn in Hr. apply not_elem_of_cons in Hr as [Hne Hr]. rewrite IH by done. by apply rget_upd_ne.
Qed.
Lemma loaded_at pa me tbl rs lo hi r o :
  table_ok lo hi tbl = true → (r, o) ∈ tbl → rget (loaded pa me tbl rs) r = ld64 me (pa + o).
Proof.
  revert rs. induction tbl as [|[r' o'] tbl IH]; intros rs Ht Hin; [by apply elem_of_nil in Hin|].
  cbn [loaded]. pose proof (table_ok_spec _ _ _ Ht) as (Hall & Hnd & _).
  apply elem_of_cons in Hin as [[= -> ->]|Hin]; [|by apply IH; eauto using table_ok_tail].
  cbn in Hnd. apply list.NoDup_cons in Hnd as [Hn _].
  rewrite loaded_other by done. apply rget_upd. by eapply Hall; left.
Qed.

(** ** Running them *)

Lemma size_pos l : 0 ≤ size l.
Proof. induction l as [|i l IH]; cbn [size]; [lia|]. pose proof (isize_range i). lia. Qed.
Lemma size_even l : size l mod 2 = 0.
Proof. induction l as [|i l IH]; cbn [size]; [done|]. pose proof (isize_even i). dlia. Qed.
Lemma size_app l1 l2 : size (l1 ++ l2) = size l1 + size l2.
Proof. induction l1 as [|i l1 IH]; cbn [size app]; lia. Qed.

(** A stretch of code from [lo] to [hi] and [n] bytes at the virtual address [base], which is
    the physical address [pa], as long as memory satisfies [I]. *)
Record window (m : mode) cs (st : list Z) (I : mem → Prop) (lo hi base pa n : Z) : Prop := {
  wi_fetch : ∀ me pc rs, I me → lo ≤ pc < hi → pc mod 2 = 0 →
    fetch (Hart m pc rs cs st me) = Ret tt (Hart m pc rs cs st me);
  wi_reach : ∀ acc me pc rs o, acc ≠ Fetch → I me → 0 ≤ o → o + 8 ≤ n → o mod 8 = 0 →
    reach acc (base + o) 8 (Hart m pc rs cs st me) = Ret (pa + o) (Hart m pc rs cs st me);
  wi_keep : ∀ me o v, I me → 0 ≤ o → o + 8 ≤ n → o mod 8 = 0 → I (st64 me (pa + o) v);
  wi_range : 0 ≤ lo ∧ hi < 2 ^ 64 ∧ 0 ≤ base ∧ base + n < 2 ^ 64;
}.

Section run.
Context (m : mode) (cs : csr → Z) (st : list Z) (I : mem → Prop) (lo hi base pa n : Z).
Context (Hwin : window m cs st I lo hi base pa n).

(** Any instruction in the window. *)
Lemma window_step i l pc rs me h' :
  I me → lo ≤ pc < hi → pc mod 2 = 0 → exec i (Hart m pc rs cs st me) = Ret tt h' →
  exec_all (i :: l) (Hart m pc rs cs st me) = exec_all l h'.
Proof. intros HI Hpc He Hx. apply exec_step; [|done]. by apply Hwin. Qed.

Lemma window_next pc i : lo ≤ pc → pc + isize i ≤ hi → u64 (pc + isize i) = pc + isize i.
Proof. intros. destruct (wi_range _ _ _ _ _ _ _ _ _ Hwin). pose proof (isize_range i). apply u64_small. lia. Qed.

Lemma exec_saves rb tbl rest pc rs me :
  I me → table_ok 0 n tbl = true → rget rs rb = base →
  lo ≤ pc → pc + size (saves rb tbl) ≤ hi → pc mod 2 = 0 →
  exec_all (saves rb tbl ++ rest) (Hart m pc rs cs st me) =
  exec_all rest (Hart m (pc + size (saves rb tbl)) rs cs st (stored pa rs tbl me)).
Proof.
  revert pc me. induction tbl as [|[r o] tbl IH]; intros pc me HI Ht Hb Hlo Hhi He.
  { cbn. by rewrite Z.add_0_r. }
  cbn [saves fmap list_fmap app size fst snd stored] in *. fold (saves rb tbl) in *.
  pose proof (size_pos (saves rb tbl)). pose proof (isize_range (ISd r o rb)).
  pose proof (isize_even (ISd r o rb)).
  destruct (proj1 (table_ok_spec _ _ _ Ht) r o ltac:(by left)) as (? & ? & ? & _).
  destruct (wi_range _ _ _ _ _ _ _ _ _ Hwin) as (? & ? & ? & ?).
  erewrite window_step; [|done|lia|done|].
  2:{ apply (exec_sd _ _ _ _ _ _ _ _ _ (pa + o)). rewrite Hb, u64_small by lia. by apply Hwin. }
  rewrite window_next by lia. rewrite IH; [|by apply Hwin|by eapply table_ok_tail|done|lia|lia|dlia].
  do 2 f_equal. lia.
Qed.

Lemma stored_keep rs tbl me : I me → table_ok 0 n tbl = true → I (stored pa rs tbl me).
Proof.
  revert me. induction tbl as [|[r o] tbl IH]; intros me HI Ht; [done|]. cbn [stored].
  destruct (proj1 (table_ok_spec _ _ _ Ht) r o ltac:(by left)) as (? & ? & ? & _).
  apply IH; [by apply Hwin|by eapply table_ok_tail].
Qed.

Lemma exec_loads rb tbl rest pc rs me :
  I me → table_ok 0 n tbl = true → rb ∉ tbl.*1 → rget rs rb = base →
  lo ≤ pc → pc + size (loads rb tbl) ≤ hi → pc mod 2 = 0 →
  exec_all (loads rb tbl ++ rest) (Hart m pc rs cs st me) =
  exec_all rest (Hart m (pc + size (loads rb tbl)) (loaded pa me tbl rs) cs st me).
Proof.
  revert pc rs. induction tbl as [|[r o] tbl IH]; intros pc rs HI Ht Hnb Hb Hlo Hhi He.
  { cbn. by rewrite Z.add_0_r. }
  cbn [loads fmap list_fmap app size fst snd loaded] in *. fold (loads rb tbl) in *.
  pose proof (size_pos (loads rb tbl)). pose proof (isize_range (ILd r o rb)).
  pose proof (isize_even (ILd r o rb)). apply not_elem_of_cons in Hnb as [Hne Hnb].
  destruct (proj1 (table_ok_spec _ _ _ Ht) r o ltac:(by left)) as (? & ? & ? & _).
  destruct (wi_range _ _ _ _ _ _ _ _ _ Hwin) as (? & ? & ? & ?).
  erewrite window_step; [|done|lia|done|].
  2:{ apply (exec_ld _ _ _ _ _ _ _ _ _ (pa + o)). rewrite Hb, u64_small by lia. by apply Hwin. }
  rewrite window_next by lia. rewrite (u64_small (ld64 _ _)) by apply ld64_range.
  rewrite IH; [|done|by eapply table_ok_tail|done| |lia|lia|dlia].
  - do 2 f_equal. lia.
  - rewrite rget_upd_ne by congruence. done.
Qed.
End run.

(** ** [swtch] *)

(** The fields of [struct context] in order. *)
Definition context_slots : list slot :=
  [ (Ra, 0); (Sp, 8); (S0, 16); (S1, 24); (S2, 32); (S3, 40); (S4, 48); (S5, 56); (S6, 64);
    (S7, 72); (S8, 80); (S9, 88); (S10, 96); (S11, 104) ].
Definition CONTEXT_SIZE : Z := 112.

(** The context in memory at [a], and the one in the registers. *)
Definition context_at me (a : Z) : context :=
  mkContext (ld64 me a) (ld64 me (a + 8)) ((λ o, ld64 me (a + o)) <$> drop 2 context_slots.*2).
Definition context_of rs : context :=
  mkContext (rget rs Ra) (rget rs Sp) (rget rs <$> drop 2 context_slots.*1).

(** [h] fetches code from [lo] to [hi] and finds the [n] bytes at the virtual address [base] at
    the physical address [pa], whatever the memory in [area] holds. *)
Definition maps (h : hart) (area : Z → Prop) (lo hi base pa n : Z) : Prop :=
  window (h_mode h) (h_csr h) (h_stale h) (λ me, ∀ b, ¬ area b → ld8 me b = ld8 (h_mem h) b) lo hi base pa n.

Lemma context_slots_ok : table_ok 0 CONTEXT_SIZE context_slots = true.
Proof. done. Qed.

Lemma swtch_code_eq : swtch_code = saves A0 context_slots ++ loads A1 context_slots ++ [IRet].
Proof. done. Qed.

Lemma context_at_ext me me' a :
  (∀ b, a ≤ b < a + CONTEXT_SIZE → ld8 me b = ld8 me' b) → context_at me a = context_at me' a.
Proof.
  intros H. unfold context_at. unfold CONTEXT_SIZE in H.
  assert (∀ o, 0 ≤ o ≤ 104 → ld64 me (a + o) = ld64 me' (a + o)) as Hld.
  { intros o Ho. apply ld64_ext. intros b Hb. apply H. lia. }
  rewrite <- (Z.add_0_r a) at 1 4. rewrite !Hld by lia. rewrite Z.add_0_r. f_equal.
  apply list_fmap_ext. intros j o Ho. apply Hld. cbn in Ho.
  apply list_elem_of_lookup_2 in Ho. rewrite !elem_of_cons, elem_of_nil in Ho. lia.
Qed.

Lemma context_list me a rs :
  (∀ r o, (r, o) ∈ context_slots → ld64 me (a + o) = rget rs r) →
  (λ o, ld64 me (a + o)) <$> drop 2 context_slots.*2 = rget rs <$> drop 2 context_slots.*1.
Proof.
  intros H. rewrite <- !fmap_drop, <- !list_fmap_compose. apply list_fmap_ext. intros j [r o] Hj.
  rewrite lookup_drop in Hj. cbn. apply H. by eapply list_elem_of_lookup_2.
Qed.

Lemma context_at_stored a rs me : wide rs → context_at (stored a rs context_slots me) a = context_of rs.
Proof.
  intros Hw. pose proof (λ r o, stored_at a rs context_slots me 0 CONTEXT_SIZE r o context_slots_ok Hw) as H.
  unfold context_at, context_of. f_equal.
  - rewrite <- (Z.add_0_r a) at 2. apply H. by left.
  - apply H. right. by left.
  - apply context_list. apply H.
Qed.

Lemma context_of_loaded a me rs : context_of (loaded a me context_slots rs) = context_at me a.
Proof.
  pose proof (λ r o, loaded_at a me context_slots rs 0 CONTEXT_SIZE r o context_slots_ok) as H.
  unfold context_at, context_of. rewrite (H Ra 0), (H Sp 8), Z.add_0_r by (by repeat constructor).
  rewrite <- (context_list me a); [done|]. intros r o Hin. symmetry. by apply H.
Qed.

(** One run of [swtch]. *)
Lemma swtch_run h area old new lo :
  maps h area lo (lo + size swtch_code) old old CONTEXT_SIZE →
  maps h area lo (lo + size swtch_code) new new CONTEXT_SIZE →
  old + CONTEXT_SIZE ≤ new ∨ new + CONTEXT_SIZE ≤ old →
  h_pc h = lo → lo mod 2 = 0 → get_reg h A0 = old → get_reg h A1 = new → wide (h_reg h) →
  ∃ rs me,
    exec_all swtch_code h =
      Ret tt (Hart (h_mode h) (Z.ldiff (cx_ra (context_at (h_mem h) new)) 1) rs (h_csr h) (h_stale h) me) ∧
    context_of rs = context_at (h_mem h) new ∧
    context_at me old = context_of (h_reg h) ∧
    (∀ a, ¬ (old ≤ a < old + CONTEXT_SIZE) → ld8 me a = ld8 (h_mem h) a) ∧
    (∀ r, r ∉ context_slots.*1 → rget rs r = get_reg h r).
Proof.
  intros Hold Hnew Hsep Hpc He H0 H1 Hw. destruct h as [m pc rs cs st me].
  unfold maps in *. unfold get_reg in *. cbn [h_mode h_pc h_reg h_csr h_stale h_mem] in *. subst pc.
  rewrite swtch_code_eq in *. rewrite !size_app in *.
  pose proof (size_pos (saves A0 context_slots)). pose proof (size_pos (loads A1 context_slots)).
  pose proof (size_even (saves A0 context_slots)). pose proof (size_even (loads A1 context_slots)).
  assert (0 < size [IRet]) as Hr by (cbn; pose proof (isize_range IRet); lia).
  set (me1 := stored old rs context_slots me).
  assert (∀ a, ¬ (old ≤ a < old + CONTEXT_SIZE) → ld8 me1 a = ld8 me a) as Hf.
  { intros a Ha. apply (stored_frame old rs context_slots me 0 CONTEXT_SIZE); [apply context_slots_ok|lia]. }
  exists (loaded new me1 context_slots rs), me1. split; [|split; [|split; [|split]]].
  - rewrite (exec_saves _ _ _ _ _ _ _ _ _ Hold); [|done|apply context_slots_ok|done|lia|lia|done].
    fold me1. rewrite (exec_loads _ _ _ _ _ _ _ _ _ Hnew); [| |apply context_slots_ok|set_solver|done|lia|lia|dlia].
    + erewrite window_step; [|exact Hnew| |lia|dlia|apply exec_ret].
      * cbn [exec_all]. unfold ret. do 3 f_equal.
        change (rget ?x Ra) with (cx_ra (context_of x)). rewrite context_of_loaded.
        f_equal. apply context_at_ext. intros b Hb. apply Hf. unfold CONTEXT_SIZE in *. lia.
      * exact (stored_keep _ _ _ _ _ _ _ _ _ Hold rs context_slots me (λ _ _, eq_refl) context_slots_ok).
    + exact (stored_keep _ _ _ _ _ _ _ _ _ Hold rs context_slots me (λ _ _, eq_refl) context_slots_ok).
  - rewrite context_of_loaded. apply context_at_ext. intros b Hb. apply Hf. unfold CONTEXT_SIZE in *. lia.
  - by apply context_at_stored.
  - done.
  - intros r Hr'. by rewrite loaded_other.
Qed.

(** C6: [swtch(old, new)] saves the return address, the stack pointer and s0 to s11 in [*old] and
    nothing else, and returns to the return address in [*new] with the registers saved there.
    A thread suspended this way goes on as if its call had just returned, with the same stack
    and callee-saved registers, when any later [swtch] on any hart resumes the context, provided
    no one wrote to it in between. *)
Theorem swtch_resumes (h h2 : hart) (area area2 : Z → Prop) (old new other lo : Z)
    (Hold : maps h area lo (lo + size swtch_code) old old CONTEXT_SIZE)
    (Hnew : maps h area lo (lo + size swtch_code) new new CONTEXT_SIZE)
    (Hoth : maps h2 area2 lo (lo + size swtch_code) other other CONTEXT_SIZE)
    (Hold2 : maps h2 area2 lo (lo + size swtch_code) old old CONTEXT_SIZE)
    (Hsep : old + CONTEXT_SIZE ≤ new ∨ new + CONTEXT_SIZE ≤ old)
    (Hsep2 : other + CONTEXT_SIZE ≤ old ∨ old + CONTEXT_SIZE ≤ other)
    (Hlo : lo mod 2 = 0) (Hpc : h_pc h = lo) (Hpc2 : h_pc h2 = lo)
    (H0 : get_reg h A0 = old) (H1 : get_reg h A1 = new)
    (H2 : get_reg h2 A0 = other) (H3 : get_reg h2 A1 = old)
    (Hw : wide (h_reg h)) (Hw2 : wide (h_reg h2)) :
  ∃ h1, exec_all swtch_code h = Ret tt h1 ∧
    context_of (h_reg h1) = context_at (h_mem h) new ∧
    h_pc h1 = Z.ldiff (cx_ra (context_at (h_mem h) new)) 1 ∧
    (∀ a, ¬ (old ≤ a < old + CONTEXT_SIZE) → ld8 (h_mem h1) a = ld8 (h_mem h) a) ∧
    ((∀ a, old ≤ a < old + CONTEXT_SIZE → ld8 (h_mem h2) a = ld8 (h_mem h1) a) →
     ∃ h3, exec_all swtch_code h2 = Ret tt h3 ∧
       context_of (h_reg h3) = context_of (h_reg h) ∧
       h_pc h3 = Z.ldiff (get_reg h Ra) 1 ∧
       context_at (h_mem h3) other = context_of (h_reg h2)).
Proof.
  destruct (swtch_run h area old new lo) as (rs & me & E & Hc & Hs & Hf & _); [done..|].
  eexists. split; [exact E|]. split; [done|]. split; [done|]. split; [done|]. cbn [h_mem]. intros Hk.
  destruct (swtch_run h2 area2 other old lo) as (rs3 & me3 & E3 & Hc3 & Hs3 & _); [done..|].
  assert (context_at (h_mem h2) old = context_of (h_reg h)) as Eo.
  { rewrite <- Hs. by apply context_at_ext. }
  rewrite Eo in *. eexists. split; [exact E3|]. cbn [h_reg h_pc h_mem]. split; [done|]. split; [done|]. done.
Qed.

(** ** [kernelvec] *)

Definition kernelvec_slots : list slot :=
  [ (Ra, 0); (Gp, 16); (T0, 32); (T1, 40); (T2, 48); (A0, 72); (A1, 80); (A2, 88); (A3, 96);
    (A4, 104); (A5, 112); (A6, 120); (A7, 128); (T3, 216); (T4, 224); (T5, 232); (T6, 240) ].

Lemma kernelvec_slots_ok : table_ok 0 256 kernelvec_slots = true.
Proof. done. Qed.
Lemma kernelvec_save_eq :
  kernelvec_save = IAddi Sp Sp (-256) :: saves Sp kernelvec_slots ++ [ICall a_kerneltrap].
Proof. done. Qed.
Lemma kernelvec_restore_eq :
  kernelvec_restore = loads Sp kernelvec_slots ++ [IAddi Sp Sp 256; ISret].
Proof. done. Qed.

(** The registers a C function keeps for its caller. *)
Definition callee_saved : list reg := [S0; S1; S2; S3; S4; S5; S6; S7; S8; S9; S10; S11].

Lemma kernelvec_saved h area lo hi sp pa :
  maps h area lo hi (sp - 256) pa 256 → hi = lo + size kernelvec_save + size kernelvec_restore →
  h_pc h = lo → lo mod 2 = 0 → get_reg h Sp = sp → wide (h_reg h) →
  ∃ rs me,
    exec_all kernelvec_save h = Ret tt (Hart (h_mode h) a_kerneltrap rs (h_csr h) (h_stale h) me) ∧
    rget rs Sp = sp - 256 ∧ rget rs Ra = lo + size kernelvec_save ∧
    (∀ r, r ≠ Sp → r ≠ Ra → rget rs r = get_reg h r) ∧
    (∀ r o, (r, o) ∈ kernelvec_slots → ld64 me (pa + o) = get_reg h r) ∧
    (∀ a, ¬ (pa ≤ a < pa + 256) → ld8 me a = ld8 (h_mem h) a).
Proof.
  intros Hwin Hhi Hpc He Hsp Hw. destruct h as [m pc rs cs st me].
  unfold maps, get_reg in *. cbn [h_mode h_pc h_reg h_csr h_stale h_mem] in *. subst pc.
  destruct (wi_range _ _ _ _ _ _ _ _ _ Hwin) as (? & ? & ? & ?).
  set (rs1 := upd Sp (sp - 256) rs). pose proof (size_pos kernelvec_restore).
  assert (wide rs1) as Hw1.
  { intros r. destruct (decide (r = Sp)) as [->|Hr]; unfold rs1; autorewrite with regs; [lia|apply Hw]. }
  pose proof (isize_range (IAddi Sp Sp (-256))). pose proof (isize_even (IAddi Sp Sp (-256))).
  pose proof (isize_range (ICall a_kerneltrap)).
  pose proof (size_pos (saves Sp kernelvec_slots)). pose proof (size_even (saves Sp kernelvec_slots)).
  assert (size kernelvec_save = isize (IAddi Sp Sp (-256)) + (size (saves Sp kernelvec_slots) + isize (ICall a_kerneltrap))) as Hsz.
  { rewrite kernelvec_save_eq. cbn [size]. rewrite size_app. cbn [size]. lia. }
  exists (upd Ra (lo + size kernelvec_save) rs1), (stored pa rs1 kernelvec_slots me).
  split; [|split; [|split; [|split; [|split]]]].
  - rewrite kernelvec_save_eq at 1.
    erewrite window_step; [|exact Hwin|done|lia|done|apply exec_addi].
    rewrite Hsp, (u64_small (sp + -256)), (window_next _ _ _ _ _ _ _ _ _ Hwin) by lia.
    replace (sp + -256) with (sp - 256) by lia. fold rs1.
    rewrite (exec_saves _ _ _ _ _ _ _ _ _ Hwin);
      [|done|apply kernelvec_slots_ok|unfold rs1; by autorewrite with regs|lia|lia|dlia].
    erewrite window_step; [|exact Hwin| |lia|dlia|apply exec_call].
    + cbn [exec_all]. rewrite (u64_small (u64 _)), (window_next _ _ _ _ _ _ _ _ _ Hwin) by (lia || apply u64_range).
      rewrite Hsz. change (exec_all [] ?x) with (Ret tt x). do 3 f_equal. lia.
    + exact (stored_keep _ _ _ _ _ _ _ _ _ Hwin rs1 kernelvec_slots me (λ _ _, eq_refl) kernelvec_slots_ok).
  - unfold rs1. by autorewrite with regs.
  - by autorewrite with regs.
  - intros r Hr1 Hr2. unfold rs1. by rewrite !rget_upd_ne.
  - intros r o Hin. rewrite (stored_at pa rs1 kernelvec_slots me 0 256 r o kernelvec_slots_ok Hw1 Hin).
    unfold rs1. rewrite rget_upd_ne; [done|]. intros <-. by vm_compute in Hin; set_solver.
  - intros a Ha. apply (stored_frame pa rs1 kernelvec_slots me 0 256); [apply kernelvec_slots_ok|lia].
Qed.

Lemma kernelvec_restored h area lo hi sp pa :
  maps h area lo hi (sp - 256) pa 256 → hi = lo + size kernelvec_save + size kernelvec_restore →
  h_mode h = Supervisor → h_pc h = lo + size kernelvec_save → lo mod 2 = 0 →
  get_reg h Sp = sp - 256 → 
  ∃ rs st, exec_all kernelvec_restore h =
      Ret tt (Hart (if Z.testbit (h_csr h Mstatus) SPP_BIT then Supervisor else User) (h_csr h Sepc) rs
        (<[Mstatus := st]> (h_csr h)) (h_stale h) (h_mem h)) ∧
    rget rs Sp = sp ∧
    (∀ r o, (r, o) ∈ kernelvec_slots → rget rs r = ld64 (h_mem h) (pa + o)) ∧
    (∀ r, r ∉ kernelvec_slots.*1 → r ≠ Sp → rget rs r = get_reg h r).
Proof.
  intros Hwin Hhi Hm Hpc He Hsp. destruct h as [m pc rs cs st me].
  unfold maps, get_reg in *. cbn [h_mode h_pc h_reg h_csr h_stale h_mem] in *. subst m pc.
  destruct (wi_range _ _ _ _ _ _ _ _ _ Hwin) as (? & ? & ? & ?).
  pose proof (size_pos kernelvec_save). pose proof (size_even kernelvec_save).
  pose proof (size_pos (loads Sp kernelvec_slots)). pose proof (size_even (loads Sp kernelvec_slots)).
  pose proof (isize_range (IAddi Sp Sp 256)). pose proof (isize_even (IAddi Sp Sp 256)).
  pose proof (isize_range ISret).
  rewrite kernelvec_restore_eq in *. rewrite size_app in Hhi. cbn [size] in Hhi.
  assert (Sp ∉ kernelvec_slots.*1) as Hnsp by (vm_compute; set_solver).
  eexists (upd Sp sp (loaded pa me kernelvec_slots rs)), _. split; [|split; [|split]].
  - rewrite (exec_loads _ _ _ _ _ _ _ _ _ Hwin); [|done|apply kernelvec_slots_ok|done|done|lia|lia|dlia].
    erewrite window_step; [|exact Hwin|done|lia|dlia|apply exec_addi].
    rewrite loaded_other, Hsp, (u64_small (sp - 256 + 256)) by (done || lia).
    rewrite (window_next _ _ _ _ _ _ _ _ _ Hwin) by lia. replace (sp - 256 + 256) with sp by lia.
    erewrite window_step; [|exact Hwin|done|lia|dlia|by apply exec_sret]. reflexivity.
  - by autorewrite with regs.
  - intros r o Hin. rewrite rget_upd_ne.
    + by apply (loaded_at pa me kernelvec_slots rs 0 256 r o kernelvec_slots_ok).
    + intros <-. apply Hnsp. apply list_elem_of_fmap. by exists (Sp, o).
  - intros r Hr Hs. rewrite rget_upd_ne by done. by apply loaded_other.
Qed.

Lemma reg_kind r :
  r = Zero ∨ r = Sp ∨ r = Tp ∨ r ∈ callee_saved ∨ r ∈ kernelvec_slots.*1.
Proof. destruct r; apply (bool_decide_unpack _); vm_compute; exact I. Qed.
Lemma callee_saved_spec r : r ∈ callee_saved → r ≠ Sp ∧ r ≠ Ra ∧ r ∉ kernelvec_slots.*1.
Proof.
  intros Hr. apply (bool_decide_pack _) in Hr. destruct r; try (vm_compute in Hr; done);
    apply (bool_decide_unpack _); vm_compute; exact I.
Qed.


(** Without paging every address is its own. *)
Lemma maps_bare h area lo hi a n :
  h_mode h = Supervisor → Z.shiftr (h_csr h Satp) 60 = 0 → h_stale h = [] → pmp_open (h_csr h) →
  a mod 8 = 0 → 0 ≤ lo → hi ≤ 2 ^ 55 → 0 ≤ a → a + n ≤ 2 ^ 55 → (∀ b, a ≤ b < a + n → area b) →
  maps h area lo hi a a n.
Proof.
  intros Hm Hb Hs Hp Ha Hlo Hhi H0 Hn Har. unfold maps. destruct h as [m pc rs cs st me].
  cbn [h_mode h_pc h_reg h_csr h_stale h_mem] in *. subst m st.
  assert (∀ acc va k pc rs me, va mod k = 0 → 0 ≤ va → va + k ≤ 2 ^ 55 + 8 →
    reach acc va k (Hart Supervisor pc rs cs [] me) = Ret va (Hart Supervisor pc rs cs [] me)) as Hr.
  { intros acc va k pc' rs' me' Hmod Hva Hk. apply reach_run; [|apply pmp_all_memory; [done|lia|lia]|done].
    rewrite translate_fresh by done. by apply translate_bare. }
  split.
  - intros me' pc' rs' _ Hpc He. unfold fetch. rewrite bind_gets. cbn [h_pc].
    by rewrite (bind_run _ _ _ _ _ (Hr Fetch pc' 2 pc' rs' me' He ltac:(lia) ltac:(lia))).
  - intros acc me' pc' rs' o _ _ Ho H8 Hmod. apply Hr; [dlia|lia|lia].
  - intros me' o v HI Ho H8 _ b Hnb. rewrite ld8_st64_ne; [by apply HI|]. intros Hin. apply Hnb, Har. lia.
  - lia.
Qed.
End switch.

(** ** Witnesses *)

#[local] Existing Instance hw_full.
#[local] Existing Instance text_four.

(** A hart without paging, with the given registers. *)
Definition hart_bare (pc : Z) (rs : reg → Z) : hart :=
  Hart Supervisor pc rs (λ c, match c with Pmpcfg0 => 0xf | Pmpaddr0 => 0x3fffffffffffff | _ => 0 end) [] ∅.
Definition regs_swtch (old new : Z) : reg → Z := λ r,
  match r with A0 => old | A1 => new | Ra => 0x80001000 | Sp => 0x80009000 | _ => 7 end.

Lemma wide_regs_swtch old new : 0 ≤ old < 2 ^ 64 → 0 ≤ new < 2 ^ 64 → wide (regs_swtch old new).
Proof. intros Ho Hn r. unfold rget. case_decide; [lia|]. destruct r; cbn; lia. Qed.

Lemma swtch_resumes_witness : ∃ h1,
  exec_all swtch_code (hart_bare 0x80000100 (regs_swtch 0x80020000 0x80020100)) = Ret tt h1 ∧ h_pc h1 = 0.
Proof.
  destruct (swtch_resumes (hart_bare 0x80000100 (regs_swtch 0x80020000 0x80020100))
    (hart_bare 0x80000100 (regs_swtch 0x80020100 0x80020000)) (λ _, True) (λ _, True)
    0x80020000 0x80020100 0x80020100 0x80000100) as (h1 & E & _ & Hpc & _);
    try (apply maps_bare; try done; (vm_compute; congruence) || (split; vm_compute; congruence));
    try (apply wide_regs_swtch; lia); try (vm_compute; congruence); try reflexivity;
    try (left; vm_compute; congruence).
  { unfold CONTEXT_SIZE. lia. }
  exists h1. split; [exact E|exact Hpc].
Defined.

