(* ===== verification/Console.v ===== *)
(** * kernel/console.c and kernel/uart.c

    The console: input with line editing from the UART's interrupt to
    [consoleread], output through [uartwrite]. *)
From Stdlib Require Import ZArith Lia.
From stdpp Require Import base list gmap numbers strings.
From S2P Require Import Prelude Machine KString Bytes State Printk Kalloc Sched Vm.
Local Open Scope Z_scope.
Local Open Scope kernel_scope.

Section console.
Context {L : Layout} {F : Fuel}.

(** ** Code *)

Definition INPUT_BUF_SIZE : Z := 128.

Definition moduart (f : uartstate → uartstate) : K unit :=
  modify (λ s, set_k_uart (f (k_uart s)) s).
Definition modcons (f : consstate → consstate) : K unit :=
  modify (λ s, set_k_cons (f (k_cons s)) s).

(** The registers of the 16550a and the bits of them the driver uses. *)
Definition THR : Z := 0.
Definition IER : Z := 1.
Definition IER_RX_ENABLE : Z := Z.shiftl 1 0.
Definition IER_TX_ENABLE : Z := Z.shiftl 1 1.
Definition FCR : Z := 2.
Definition FCR_FIFO_ENABLE : Z := Z.shiftl 1 0.
Definition FCR_FIFO_CLEAR : Z := Z.shiftl 3 1.
Definition LCR : Z := 3.
Definition LCR_EIGHT_BITS : Z := Z.shiftl 3 0.
Definition LCR_BAUD_LATCH : Z := Z.shiftl 1 7.

(** [WriteReg]: while the latch bit of [LCR] is set, the registers 0 and 1 are the bytes of
    the divisor; otherwise they are [THR] and [IER]. The clear bits of [FCR] empty the
    receiver's queue and clear themselves. *)
Definition WriteReg (reg v : Z) : K unit :=
  lcr ← gets (λ s, u_lcr (k_uart s));
  let latch := negb (Z.land lcr LCR_BAUD_LATCH =? 0) in
  if reg =? THR then (if latch then moduart (set_u_dll (u8 v)) else thr_write v)
  else if reg =? IER then
    (if latch then moduart (set_u_dlm (u8 v)) else moduart (set_u_ier (u8 v)))
  else if reg =? FCR then
    whenM (Z.testbit v 1) (moduart (set_u_rx [])) ;;
    moduart (set_u_fcr (Z.land (u8 v) (Z.lnot FCR_FIFO_CLEAR)))
  else if reg =? LCR then moduart (set_u_lcr (u8 v))
  else ret tt.

Definition uartinit : K unit :=
  WriteReg IER 0x00 ;;
  WriteReg LCR LCR_BAUD_LATCH ;;
  WriteReg 0 0x03 ;;
  WriteReg 1 0x00 ;;
  WriteReg LCR LCR_EIGHT_BITS ;;
  WriteReg FCR (Z.lor FCR_FIFO_ENABLE FCR_FIFO_CLEAR) ;;
  WriteReg IER (Z.lor IER_TX_ENABLE IER_RX_ENABLE).

(** [while (tx_busy != 0) sleep(&tx_chan, &tx_lock);], then one byte *)
Fixpoint uartwrite_loop (buf : list Z) : K unit :=
  match buf with
  | [] => ret tt
  | c :: buf' =>
      sleep_loop (busy ← gets (λ s, u_tx_busy (k_uart s));
                  if (busy : bool) then sleep ChTx LTx ;; ret None else ret (Some tt)) ;;
      thr_write c ;;
      moduart (set_u_tx_busy true) ;;
      uartwrite_loop buf'
  end.
Definition uartwrite (buf : list Z) : K unit :=
  acquire LTx ;;
  uartwrite_loop buf ;;
  release LTx.

Definition uartgetc : K Z :=
  rx ← gets (λ s, u_rx (k_uart s));
  match rx with
  | [] => ret (-1)
  | c :: rx' => moduart (set_u_rx rx') ;; ret c
  end.

(** The loop of [consolewrite]; each iteration moves between 1 and 32 bytes. *)
Fixpoint consolewrite_loop (fuel : nat) (src : ksrc) (i n : Z) : K Z :=
  if i <? n then
    match fuel with
    | O => nofuel
    | S f =>
        let nn := Z.min 32 (n - i) in
        o ← either_copyin (src_add src i) nn;
        if o.1 =? -1 then ret i else
        uartwrite o.2 ;; consolewrite_loop f src (i + nn) n
    end
  else ret i.
Definition consolewrite (src : ksrc) (n : Z) : K Z :=
  consolewrite_loop (Z.to_nat n) src 0 n.

(** Wait for input: the result is false if the process was killed. *)
Definition console_wait : K bool :=
  sleep_loop (c ← gets k_cons;
              if c_r c =? c_w c then
                i ← myproc;
                k ← killed i;
                if negb (k =? 0) then ret (Some false)
                else sleep ChCons LCons ;; ret None
              else ret (Some true)).

(** The outer loop of [consoleread]: the bytes still wanted when it ends and the
    bytes it has delivered, or [None] if the process was killed. *)
Fixpoint consoleread_loop (n : nat) (target : Z) (dst : kdst) (acc : list Z) :
    K (option (Z * list Z)) :=
  match n with
  | O => ret (Some (0, acc))
  | S n' =>
      ok ← console_wait;
      if negb ok then ret None else
      s ← gets k_cons;
      let c := nth (Z.to_nat (c_r s mod INPUT_BUF_SIZE)) (c_buf s) 0 in
      modcons (set_c_r (u32 (c_r s + 1))) ;;
      if c =? 4 then
        whenM (Z.of_nat n <? target) (modcons (λ s, set_c_r (u32 (c_r s - 1)) s)) ;;
        ret (Some (Z.of_nat n, acc))
      else
        r ← either_copyout dst [c];
        if r =? -1 then ret (Some (Z.of_nat n, acc)) else
        if c =? 10 then ret (Some (Z.of_nat n', acc ++ [c]))
        else consoleread_loop n' target (dst_add dst 1) (acc ++ [c])
  end.
Definition consoleread (dst : kdst) (n : Z) : K (Z * list Z) :=
  acquire LCons ;;
  o ← consoleread_loop (Z.to_nat n) n dst [];
  match o with
  | None => release LCons ;; ret (-1, [])
  | Some (rest, acc) => release LCons ;; ret ((if n <? 0 then 0 else n - rest), acc)
  end.

(** [while (cons.e != cons.w && cons.buf[(cons.e - 1) % INPUT_BUF_SIZE] != '\n')]:
    at most [INPUT_BUF_SIZE] characters are being edited. *)
Fixpoint kill_line (fuel : nat) : K unit :=
  s ← gets k_cons;
  if negb (c_e s =? c_w s) &&
     negb (nth (Z.to_nat (u32 (c_e s - 1) mod INPUT_BUF_SIZE)) (c_buf s) 0 =? 10) then
    match fuel with
    | O => nofuel
    | S f =>
        modcons (set_c_e (u32 (c_e s - 1))) ;;
        consputc BACKSPACE ;;
        kill_line f
    end
  else ret tt.

Definition consoleintr (c : Z) : K unit :=
  acquire LCons ;;
  (if c =? 16 then procdump
   else if c =? 21 then kill_line (Z.to_nat INPUT_BUF_SIZE)
   else if (c =? 8) || (c =? 127) then
     s ← gets k_cons;
     whenM (negb (c_e s =? c_w s))
       (modcons (set_c_e (u32 (c_e s - 1))) ;; consputc BACKSPACE)
   else
     s ← gets k_cons;
     whenM (negb (c =? 0) && (u32 (c_e s - c_r s) <? INPUT_BUF_SIZE))
       (let c := if c =? 13 then 10 else c in
        consputc c ;;
        modcons (λ s, set_c_e (u32 (c_e s + 1))
                        (set_c_buf (<[Z.to_nat (c_e s mod INPUT_BUF_SIZE) := u8 c]> (c_buf s)) s)) ;;
        s ← gets k_cons;
        whenM ((c =? 10) || (c =? 4) || (u32 (c_e s - c_r s) =? INPUT_BUF_SIZE))
          (modcons (λ s, set_c_w (c_e s) s) ;;
           wakeup ChCons))) ;;
  release LCons.

(** [while (1) { int c = uartgetc(); if (c == -1) break; consoleintr(c); }]: one
    iteration for each character waiting in the device. *)
Fixpoint uartintr_loop (fuel : nat) : K unit :=
  match fuel with
  | O => nofuel
  | S f =>
      c ← uartgetc;
      if c =? -1 then ret tt else consoleintr c ;; uartintr_loop f
  end.
Definition uartintr : K unit :=
  acquire LTx ;;
  idle ← gets (λ s, u_tx_idle (k_uart s));
  whenM idle (moduart (set_u_tx_busy false) ;; wakeup ChTx) ;;
  release LTx ;;
  n ← gets (λ s, length (u_rx (k_uart s)));
  uartintr_loop (S n).

Definition consoleinit : K unit :=
  uartinit ;;
  modify (λ s, set_k_devsw (<[1%nat := Some DevConsole]> (k_devsw s)) s).

End console.
