(* ===== verification/Virtio.v ===== *)
(** * kernel/virtio_disk.c

    The disk driver: the descriptor table, the rings it shares with the device,
    and the two sides of a transfer, [virtio_disk_rw] and [virtio_disk_intr].
    The device itself is [device_serve]: what the virtio specification says it
    does with an available request. *)
From Stdlib Require Import ZArith Lia.
From stdpp Require Import base list gmap numbers strings.
From S2P Require Import Prelude Machine KString Bytes State Kalloc Sched.
Local Open Scope Z_scope.
Local Open Scope kernel_scope.

(** ** Code *)

(** virtio.h *)
Definition NUM : nat := 8.
Definition VRING_DESC_F_NEXT : Z := 1.
Definition VRING_DESC_F_WRITE : Z := 2.
Definition VIRTIO_BLK_T_IN : Z := 0.
Definition VIRTIO_BLK_T_OUT : Z := 1.
Definition BSIZE : Z := 1024.

Definition modvd (f : vdisk → vdisk) : K unit := modify (λ s, set_k_vd (f (k_vd s)) s).

Definition getb (i : nat) : K buf :=
  o ← gets (λ s, k_bufs s !! i); unwrap "buf" o.
Definition modb (i : nat) (f : buf → buf) : K unit :=
  modify (λ s, set_k_bufs (alter f i (k_bufs s)) s).

Definition alloc_desc : K Z :=
  r ← for_list (seq 0 NUM) (λ i,
    free ← gets (λ s, v_free (k_vd s));
    if nth i free false then
      modvd (λ v, set_v_free (<[i := false]> (v_free v)) v) ;;
      ret (Some (Z.of_nat i))
    else ret None);
  ret (default (-1) r).

(** [desc[i]], where [i] is known to be a descriptor. *)
Definition moddesc (i : Z) (f : virtq_desc → virtq_desc) : K unit :=
  modvd (λ v, set_v_desc (alter f (Z.to_nat i) (v_desc v)) v).

Definition free_desc (i : Z) : K unit :=
  if Z.of_nat NUM <=? i then panic "free_desc 1" else
  free ← gets (λ s, v_free (k_vd s));
  if nth (Z.to_nat i) free false then panic "free_desc 2" else
  moddesc i (set_d_addr DmaNull) ;;
  moddesc i (set_d_len 0) ;;
  moddesc i (set_d_flags 0) ;;
  moddesc i (set_d_next 0) ;;
  modvd (λ v, set_v_free (<[Z.to_nat i := true]> (v_free v)) v) ;;
  wakeup ChDisk.

(** A chain has at most [NUM] descriptors. *)
Fixpoint free_chain (fuel : nat) (i : Z) : K unit :=
  match fuel with
  | O => nofuel
  | S f =>
      d ← gets (λ s, v_desc (k_vd s) !! Z.to_nat i);
      d ← unwrap "free_chain" d;
      let flag := d_flags d in
      let nxt := d_next d in
      free_desc i ;;
      if negb (Z.land flag VRING_DESC_F_NEXT =? 0) then free_chain f nxt else ret tt
  end.

(** [alloc3_desc]: the loop with the descriptors found so far; [None] is -1. *)
Fixpoint alloc3_loop (n : nat) (idx : list Z) : K (option (list Z)) :=
  match n with
  | O => ret (Some idx)
  | S n' =>
      i ← alloc_desc;
      if i <? 0 then for_each idx free_desc ;; ret None
      else alloc3_loop n' (idx ++ [i])
  end.
Definition alloc3_desc : K (option (list Z)) := alloc3_loop 3 [].

Section rw.
Context {F : Fuel}.

Definition virtio_disk_rw (i : nat) (write : bool) : K unit :=
  b ← getb i;
  let sector := u64 (u32 (b_blockno b * (BSIZE / 512))) in
  acquire LVdisk ;;
  idx ← sleep_loop (o ← alloc3_desc;
                    match o with
                    | Some idx => ret (Some idx)
                    | None => sleep ChDisk LVdisk ;; ret None
                    end);
  let i0 := nth 0 idx 0 in
  let i1 := nth 1 idx 0 in
  let i2 := nth 2 idx 0 in
  modvd (λ v, set_v_ops (<[Z.to_nat i0 := (if write then VIRTIO_BLK_T_OUT else VIRTIO_BLK_T_IN,
                                           sector)]> (v_ops v)) v) ;;
  moddesc i0 (λ _, mkDesc (DmaOps (Z.to_nat i0)) 16 VRING_DESC_F_NEXT i1) ;;
  moddesc i1 (λ _, mkDesc (DmaData i) BSIZE
                     (Z.lor (if write then 0 else VRING_DESC_F_WRITE) VRING_DESC_F_NEXT) i2) ;;
  modvd (λ v, set_v_status (<[Z.to_nat i0 := 0xff]> (v_status v)) v) ;;
  moddesc i2 (λ _, mkDesc (DmaStatus (Z.to_nat i0)) 1 VRING_DESC_F_WRITE 0) ;;
  modb i (set_b_disk true) ;;
  modvd (λ v, set_v_info_b (<[Z.to_nat i0 := Some i]> (v_info_b v)) v) ;;
  modvd (λ v, set_v_avail (<[Z.to_nat (v_avail_idx v mod Z.of_nat NUM) := i0]> (v_avail v)) v) ;;
  modvd (λ v, set_v_avail_idx (u16 (v_avail_idx v + 1)) v) ;;
  sleep_loop (b ← getb i;
              if b_disk b then sleep (ChBuf i) LVdisk ;; ret None else ret (Some tt)) ;;
  modvd (λ v, set_v_info_b (<[Z.to_nat i0 := None]> (v_info_b v)) v) ;;
  free_chain NUM i0 ;;
  release LVdisk.
End rw.

(** [while (disk.used_idx != disk.used->idx)]: at most [NUM] requests are in
    flight. *)
Fixpoint virtio_intr_loop (fuel : nat) : K unit :=
  v ← gets k_vd;
  if v_used_idx v =? v_used_ridx v then ret tt else
  match fuel with
  | O => nofuel
  | S f =>
      let id := nth (Z.to_nat (v_used_idx v mod Z.of_nat NUM)) (v_used v) 0 in
      st ← unwrap "info" (v_status v !! Z.to_nat id);
      if negb (st =? 0) then panic "virtio_disk_intr status" else
      o ← unwrap "info" (v_info_b v !! Z.to_nat id);
      b ← unwrap "info[id].b" o;
      modb b (set_b_disk false) ;;
      wakeup (ChBuf b) ;;
      modvd (λ v, set_v_used_idx (u16 (v_used_idx v + 1)) v) ;;
      virtio_intr_loop f
  end.
Definition virtio_disk_intr : K unit :=
  acquire LVdisk ;;
  virtio_intr_loop NUM ;;
  release LVdisk.

(** [virtio_disk_init]: [reg] gives the values the device's registers are read
    as; the rings are the zeroed tables of [vdisk0]. *)
Definition VIRTIO_MMIO_MAGIC_VALUE : Z := 0x000.
Definition VIRTIO_MMIO_VERSION : Z := 0x004.
Definition VIRTIO_MMIO_DEVICE_ID : Z := 0x008.
Definition VIRTIO_MMIO_VENDOR_ID : Z := 0x00c.
Definition VIRTIO_MMIO_QUEUE_NUM_MAX : Z := 0x034.
Definition VIRTIO_MMIO_QUEUE_READY : Z := 0x044.
Definition VIRTIO_MMIO_STATUS : Z := 0x070.
Definition VIRTIO_CONFIG_S_FEATURES_OK : Z := 8.

Section init.
Context {L : Layout}.
Definition virtio_disk_init (reg : Z → Z) : K unit :=
  if negb (reg VIRTIO_MMIO_MAGIC_VALUE =? 0x74726976) || negb (reg VIRTIO_MMIO_VERSION =? 2) ||
     negb (reg VIRTIO_MMIO_DEVICE_ID =? 2) || negb (reg VIRTIO_MMIO_VENDOR_ID =? 0x554d4551)
  then panic "could not find virtio disk" else
  if Z.land (reg VIRTIO_MMIO_STATUS) VIRTIO_CONFIG_S_FEATURES_OK =? 0
  then panic "virtio disk FEATURES_OK unset" else
  if negb (reg VIRTIO_MMIO_QUEUE_READY =? 0) then panic "virtio disk should not be ready" else
  if reg VIRTIO_MMIO_QUEUE_NUM_MAX =? 0 then panic "virtio disk has no queue 0" else
  if reg VIRTIO_MMIO_QUEUE_NUM_MAX <? Z.of_nat NUM
  then panic "virtio disk max queue too short" else
  desc ← kalloc;
  avail ← kalloc;
  used ← kalloc;
  if (desc =? 0) || (avail =? 0) || (used =? 0) then panic "virtio disk kalloc" else
  modmem (λ m, memset m desc 0 PGSIZE) ;;
  modmem (λ m, memset m avail 0 PGSIZE) ;;
  modmem (λ m, memset m used 0 PGSIZE) ;;
  modvd (λ v, set_v_desc (v_desc vdisk0)
    (set_v_avail (v_avail vdisk0) (set_v_avail_idx 0
      (set_v_used (v_used vdisk0) (set_v_used_ridx 0 v))))) ;;
  for_each (seq 0 NUM) (λ i, modvd (λ v, set_v_free (<[i := true]> (v_free v)) v)).
End init.

(** ** The device *)

(** The disk has 512-byte sectors; a block is two of them. *)
Definition block_of (sector : Z) : Z := sector / 2.

(** The device takes the next available request, if there is one: it follows the
    chain from the head the driver put in the ring, moves the data, writes a zero
    status, and puts the head in the used ring.  A malformed chain is left alone. *)
Definition device_serve (s : kstate) : kstate :=
  let v := k_vd s in
  if v_seen v =? v_avail_idx v then s else
  let head := nth (Z.to_nat (v_seen v mod Z.of_nat NUM)) (v_avail v) 0 in
  match v_desc v !! Z.to_nat head with
  | Some (mkDesc (DmaOps o) _ _ n1) =>
      match v_ops v !! o, v_desc v !! Z.to_nat n1 with
      | Some (ty, sector), Some (mkDesc (DmaData b) _ fl n2) =>
          match v_desc v !! Z.to_nat n2, k_bufs s !! b with
          | Some (mkDesc (DmaStatus st) _ _ _), Some bf =>
              let v' :=
                set_v_seen (u16 (v_seen v + 1))
                  (set_v_used (<[Z.to_nat (v_used_ridx v mod Z.of_nat NUM) := head]> (v_used v))
                     (set_v_used_ridx (u16 (v_used_ridx v + 1))
                        (set_v_status (<[st := 0]> (v_status v)) v))) in
              if ty =? VIRTIO_BLK_T_OUT then
                set_k_vd v' (set_k_disk (<[block_of sector := b_data bf]> (k_disk s))
                  (set_k_dwrites ((block_of sector, b_data bf) :: k_dwrites s) s))
              else if negb (Z.land fl VRING_DESC_F_WRITE =? 0) then
                set_k_vd v' (set_k_bufs
                  (<[b := set_b_data (default (replicate 1024 0) (k_disk s !! block_of sector)) bf]>
                     (k_bufs s)) s)
              else s
          | _, _ => s
          end
      | _, _ => s
      end
  | _ => s
  end.
