(* ===== verification/DiskIo.v ===== *)
(** * Disk transfers

    A transfer of [virtio_disk_rw] from the request to the return, with the
    device, the completion interrupt and the scheduler in between: it moves exactly
    one block between a buffer and the disk, and leaves the driver idle with all its
    descriptors free. *)
From Stdlib Require Import ZArith Lia.
From stdpp Require Import base list gmap numbers strings.
From S2P Require Import Prelude Machine KString Bytes State Kalloc Sched Virtio.
Local Open Scope Z_scope.
Local Open Scope kernel_scope.

(** ** Resumption after a wait for the disk *)

(** What happens between the switch away in state [s] and the switch back, when the
    disk is the only thing that is active: the scheduler releases the process, the
    device serves a request and interrupts, [virtio_disk_intr] runs, and the
    scheduler switches to the process if that has made it RUNNABLE. *)
Definition resume (s : kstate) : option kstate :=
  match cur s with
  | None => None
  | Some me =>
      match after_run me s with
      | Ret _ s1 =>
          match virtio_disk_intr (device_serve (set_k_intr false s1)) with
          | Ret _ s2 =>
              match k_procs s2 !! me with
              | Some p =>
                  if decide (p_state p = RUNNABLE) then Some (dispatched me p s2) else None
              | None => None
              end
          | _ => None
          end
      | _ => None
      end
  end.

(** A process [me] in the kernel, running on this hart. *)
Record running (me : nat) (s : kstate) : Prop := {
  rn_cur : cur s = Some me;
  rn_len : length (k_procs s) = NPROC;
  rn_proc : ∃ p, k_procs s !! me = Some p ∧ p_state p = RUNNING ∧ p_chan p = ChNull;
}.

(** Between [l] and [l'] nothing happened to the process table but wake-ups of
    processes other than [me]. *)
Definition quiet (me : nat) (l l' : list proc) : Prop :=
  length l' = length l ∧ l' !! me = l !! me ∧
  ∀ j p, l !! j = Some p →
    ∃ p', l' !! j = Some p' ∧ (p' = p ∨ p_state p = SLEEPING ∧ p' = set_p_state RUNNABLE p).

(** The driver with no request in flight. *)
Record drv_idle (v : vdisk) : Prop := {
  dv_desc : length (v_desc v) = NUM;
  dv_avail : length (v_avail v) = NUM;
  dv_used : length (v_used v) = NUM;
  dv_free : v_free v = replicate NUM true;
  dv_info : length (v_info_b v) = NUM;
  dv_status : length (v_status v) = NUM;
  dv_ops : length (v_ops v) = NUM;
  dv_seen : v_seen v = v_avail_idx v;
  dv_uidx : v_used_idx v = v_used_ridx v;
  dv_aidx : 0 ≤ v_avail_idx v < 2 ^ 16;
  dv_ridx : 0 ≤ v_used_ridx v < 2 ^ 16;
}.

(** The contents of a block; a block that was never written is zeros. *)
Definition block_data (d : gmap Z (list Z)) (bn : Z) : list Z :=
  default (replicate 1024 0) (d !! bn).

(** The transfer of buffer [i] holding [b]. *)
Definition xfer (i : nat) (b : buf) (write : bool) (s : kstate) : kstate :=
  if write then
    set_k_disk (<[b_blockno b := b_data b]> (k_disk s))
      (set_k_dwrites ((b_blockno b, b_data b) :: k_dwrites s) s)
  else set_k_bufs (<[i := set_b_data (block_data (k_disk s) (b_blockno b)) b]> (k_bufs s)) s.

Section quiet.
Implicit Types l : list proc.

Lemma quiet_refl me l : quiet me l l.
Proof. split; [done|]. split; [done|]. eauto. Qed.

Lemma quiet_trans me l1 l2 l3 : quiet me l1 l2 → quiet me l2 l3 → quiet me l1 l3.
Proof.
  intros (H1 & H2 & H3) (G1 & G2 & G3). split; [congruence|]. split; [congruence|].
  intros j p Hp. destruct (H3 j p Hp) as (p' & Hp' & H). destruct (G3 j p' Hp') as (p'' & Hp'' & G).
  exists p''. split; [done|]. destruct H as [->|[Hs ->]]; [done|].
  destruct G as [->|[Gs ->]]; [by right|done].
Qed.

Lemma quiet_wake me ch l : quiet me l (imap (wake_slot (Some me) ch) l).
Proof.
  split; [apply length_imap|].
  assert (∀ j, imap (wake_slot (Some me) ch) l !! j = wake_slot (Some me) ch j <$> l !! j) as E
    by (intros; apply list_lookup_imap).
  split.
  - rewrite E. destruct (l !! me); [|done]. cbn. unfold wake_slot.
    by rewrite bool_decide_eq_true_2.
  - intros j p Hp. rewrite E, Hp. eexists. split; [done|]. unfold wake_slot, wake_proc.
    case_bool_decide; [by left|].
    destruct (bool_decide (p_state p = SLEEPING)) eqn:Es; cbn; [|by left].
    apply bool_decide_eq_true in Es. case_bool_decide; [by right|by left].
Qed.

Lemma running_quiet me s l :
  running me s → quiet me (k_procs s) l → running me (set_k_procs l s).
Proof.
  intros [Hc Hl Hp] (H1 & H2 & _). split; [done|by kcbn; rewrite H1|]. kcbn. by rewrite H2.
Qed.
End quiet.

(** ** Descriptors *)

Definition freed3 : list bool := [false; false; false; true; true; true; true; true].

Lemma alloc3_run s :
  v_free (k_vd s) = replicate NUM true →
  alloc3_desc s = Ret (Some [0; 1; 2]) (set_k_vd (set_v_free freed3 (k_vd s)) s).
Proof.
  intros E. destruct s as [? ? ? ? ? ? ? ? ? ? ? ? ? ? ? ? ? ? ? ? ? ? v]. destruct v.
  cbn in E. subst. reflexivity.
Qed.

(** A list of eight elements, taken apart. *)
Lemma list8 {A} (l : list A) : length l = NUM →
  ∃ a b c d e f g h, l = [a; b; c; d; e; f; g; h].
Proof.
  intros H. do 9 (destruct l as [|? l]; try discriminate). by repeat eexists.
Qed.

(** The driver's tables when the request for buffer [i] has been posted. *)
Definition posted (i : nat) (w : bool) (sector : Z) (v : vdisk) : vdisk :=
  mkVdisk
    (<[2%nat := mkDesc (DmaStatus 0) 1 VRING_DESC_F_WRITE 0]>
      (<[1%nat := mkDesc (DmaData i) BSIZE
                    (Z.lor (if w then 0 else VRING_DESC_F_WRITE) VRING_DESC_F_NEXT) 2]>
        (<[0%nat := mkDesc (DmaOps 0) 16 VRING_DESC_F_NEXT 1]> (v_desc v))))
    (<[Z.to_nat (v_avail_idx v mod Z.of_nat NUM) := 0]> (v_avail v))
    (u16 (v_avail_idx v + 1)) (v_used v) (v_used_ridx v) freed3 (v_used_idx v)
    (<[0%nat := Some i]> (v_info_b v)) (<[0%nat := 0xff]> (v_status v))
    (<[0%nat := (if w then VIRTIO_BLK_T_OUT else VIRTIO_BLK_T_IN, sector)]> (v_ops v)) (v_seen v).

(** ... and when the device has served it. *)
Definition served (i : nat) (w : bool) (sector : Z) (v : vdisk) : vdisk :=
  let v := posted i w sector v in
  set_v_seen (v_avail_idx v)
    (set_v_used (<[Z.to_nat (v_used_ridx v mod Z.of_nat NUM) := 0]> (v_used v))
      (set_v_used_ridx (u16 (v_used_ridx v + 1))
        (set_v_status (<[0%nat := 0]> (v_status v)) v))).

Lemma u16_succ_ne a : 0 ≤ a < 2 ^ 16 → u16 (a + 1) ≠ a.
Proof. intros H. unfold u16. destruct (decide (a = 2 ^ 16 - 1)) as [->|]; [done|]. rewrite Z.mod_small; lia. Qed.
Lemma u16_range a : 0 ≤ u16 a < 2 ^ 16.
Proof. apply Z.mod_pos_bound. lia. Qed.

Lemma ring_nth (l : list Z) a x :
  length l = NUM → 0 ≤ a →
  nth (Z.to_nat (a mod Z.of_nat NUM)) (<[Z.to_nat (a mod Z.of_nat NUM) := x]> l) 0 = x.
Proof.
  intros Hl Ha. rewrite nth_lookup, list_lookup_insert_eq; [done|].
  rewrite Hl. pose proof (Z.mod_pos_bound a (Z.of_nat NUM)). unfold NUM in *. lia.
Qed.

(** What the device and the interrupt handler find in the tables. *)
Lemma posted_tables i w sector v : drv_idle v →
  v_desc (posted i w sector v) !! 0%nat = Some (mkDesc (DmaOps 0) 16 VRING_DESC_F_NEXT 1) ∧
  v_desc (posted i w sector v) !! 1%nat =
    Some (mkDesc (DmaData i) BSIZE
            (Z.lor (if w then 0 else VRING_DESC_F_WRITE) VRING_DESC_F_NEXT) 2) ∧
  v_desc (posted i w sector v) !! 2%nat = Some (mkDesc (DmaStatus 0) 1 VRING_DESC_F_WRITE 0) ∧
  v_ops (posted i w sector v) !! 0%nat =
    Some (if w then VIRTIO_BLK_T_OUT else VIRTIO_BLK_T_IN, sector) ∧
  v_status (served i w sector v) !! 0%nat = Some 0 ∧
  v_info_b (served i w sector v) !! 0%nat = Some (Some i).
Proof.
  intros Hv.
  destruct (list8 _ (dv_desc v Hv)) as (d0 & d1 & d2 & d3 & d4 & d5 & d6 & d7 & Ed).
  destruct (list8 _ (dv_ops v Hv)) as (o0 & o1 & o2 & o3 & o4 & o5 & o6 & o7 & Eo).
  destruct (list8 _ (dv_status v Hv)) as (t0 & t1 & t2 & t3 & t4 & t5 & t6 & t7 & Et).
  destruct (list8 _ (dv_info v Hv)) as (n0 & n1 & n2 & n3 & n4 & n5 & n6 & n7 & En).
  unfold served, posted.
  cbn [v_desc v_ops v_status v_info_b set_v_seen set_v_used set_v_used_ridx set_v_status].
  by rewrite Ed, Eo, Et, En.
Qed.

(** The device finds the request the driver has posted. *)
Lemma device_serve_posted i w b v s :
  drv_idle v → k_vd s = posted i w (2 * b_blockno b) v → k_bufs s !! i = Some b →
  device_serve s = set_k_vd (served i w (2 * b_blockno b) v) (xfer i b w s).
Proof.
  intros Hv Ev Hb.
  destruct (posted_tables i w (2 * b_blockno b) v Hv) as (D0 & D1 & D2 & O0 & _).
  assert (block_of (2 * b_blockno b) = b_blockno b) as Ebn
    by (unfold block_of; rewrite Z.mul_comm, Z.div_mul; lia).
  assert (v_seen (posted i w (2 * b_blockno b) v) = v_avail_idx v) as Es by apply Hv.
  assert (v_avail_idx (posted i w (2 * b_blockno b) v) = u16 (v_avail_idx v + 1)) as Ei by done.
  assert (nth (Z.to_nat (v_avail_idx v mod Z.of_nat NUM))
            (v_avail (posted i w (2 * b_blockno b) v)) 0 = 0) as Eh by (apply ring_nth; apply Hv).
  unfold served. set (v1 := posted i w (2 * b_blockno b) v) in *.
  unfold device_serve. rewrite Ev, Es, Ei, Eh.
  rewrite (proj2 (Z.eqb_neq _ _)) by (apply not_eq_sym, u16_succ_ne, Hv).
  change (Z.to_nat 0) with 0%nat. rewrite D0, O0.
  change (Z.to_nat 1) with 1%nat. rewrite D1.
  change (Z.to_nat 2) with 2%nat. rewrite D2, Hb, Ebn.
  destruct w; cbn; kstate_eq.
Qed.

Lemma virtio_intr_loop_S f s :
  virtio_intr_loop (S f) s =
  (if v_used_idx (k_vd s) =? v_used_ridx (k_vd s) then ret tt else
   let v := k_vd s in
   let id := nth (Z.to_nat (v_used_idx v mod Z.of_nat NUM)) (v_used v) 0 in
   st ← unwrap "info" (v_status v !! Z.to_nat id);
   if negb (st =? 0) then panic "virtio_disk_intr status" else
   o ← unwrap "info" (v_info_b v !! Z.to_nat id);
   b ← unwrap "info[id].b" o;
   modb b (set_b_disk false) ;;
   wakeup (ChBuf b) ;;
   modvd (λ v, set_v_used_idx (u16 (v_used_idx v + 1)) v) ;;
   virtio_intr_loop f) s.
Proof. cbn [virtio_intr_loop]. rewrite bind_gets. by case_match. Qed.

(** The driver once the completion has been handled. *)
Definition handled (i : nat) (w : bool) (sector : Z) (v : vdisk) : vdisk :=
  set_v_used_idx (u16 (v_used_ridx v + 1)) (served i w sector v).

Lemma virtio_disk_intr_run i w sector v s :
  drv_idle v → k_vd s = served i w sector v → k_held s = [] → cur s = None →
  length (k_procs s) = NPROC →
  virtio_disk_intr s = Ret tt (set_k_vd (handled i w sector v)
    (set_k_bufs (alter (set_b_disk false) i (k_bufs s))
      (set_k_procs (imap (wake_slot None (ChBuf i)) (k_procs s)) s))).
Proof.
  intros Hv Ev Hh Hc Hl.
  destruct (posted_tables i w sector v Hv) as (_ & _ & _ & _ & St & Inf).
  unfold virtio_disk_intr.
  rewrite (bind_run _ _ _ _ _ (acquire_run LVdisk s ltac:(rewrite Hh; set_solver))).
  set (s0 := upd_held _ s). unfold bind. unfold NUM.
  assert (k_vd s0 = served i w sector v) as Ev0 by done.
  rewrite virtio_intr_loop_S, Ev0.
  assert (v_used_idx (served i w sector v) = v_used_ridx v) as E1 by apply Hv.
  assert (v_used_ridx (served i w sector v) = u16 (v_used_ridx v + 1)) as E2 by done.
  assert (nth (Z.to_nat (v_used_ridx v mod Z.of_nat NUM)) (v_used (served i w sector v)) 0 = 0) as E3
    by (apply ring_nth; apply Hv).
  rewrite E1, E2, (proj2 (Z.eqb_neq _ _)) by (apply not_eq_sym, u16_succ_ne, Hv).
  cbv zeta. rewrite E1, E3. change (Z.to_nat 0) with 0%nat. rewrite St, Inf.
  cbn [unwrap]. rewrite bind_ret_l. rewrite Z.eqb_refl. cbn [negb unwrap]. rewrite bind_ret_l.
  cbn [unwrap]. rewrite bind_ret_l. unfold modb at 1. rewrite bind_modify.
  rewrite (bind_run _ _ _ _ _ (wakeup_run (ChBuf i) (set_k_bufs _ s0) Hl
    ltac:(intros j _; unfold s0; kcbn; rewrite Hh; set_solver))).
  unfold modvd at 1. rewrite bind_modify.
  rewrite virtio_intr_loop_S. kcbn.
  change (v_used_idx (set_v_used_idx (u16 (v_used_idx (k_vd s0) + 1)) (k_vd s0)))
    with (u16 (v_used_idx (k_vd s0) + 1)).
  change (v_used_ridx (set_v_used_idx (u16 (v_used_idx (k_vd s0) + 1)) (k_vd s0)))
    with (v_used_ridx (k_vd s0)).
  rewrite Ev0, E1, E2, Z.eqb_refl. cbn [res_bind ret].
  rewrite (release_run LVdisk []) by (unfold s0; kcbn; by rewrite Hh).
  assert (cur (set_k_bufs (alter (set_b_disk false) i (k_bufs s0)) s0) = None) as -> by done.
  f_equal. unfold s0, handled. rewrite <- Hh. kstate_eq.
Qed.

(** From the switch away with the request posted to the switch back. *)
Lemma resume_run me p i b w v s :
  drv_idle v → k_vd s = posted i w (2 * b_blockno b) v → k_bufs s !! i = Some b →
  cur s = Some me → k_held s = [LProc me] → length (k_procs s) = NPROC →
  k_procs s !! me = Some p → p_state p = SLEEPING → p_chan p = ChBuf i →
  resume s = Some (dispatched me (set_p_state RUNNABLE p)
    (set_k_held [] (set_k_intr false (set_k_vd (handled i w (2 * b_blockno b) v)
      (set_k_procs (imap (wake_slot None (ChBuf i)) (k_procs s))
        (set_k_bufs (alter (set_b_disk false) i (k_bufs (xfer i b w s)))
          (set_k_cpus (<[k_hart s := None]> (k_cpus s)) (xfer i b w s)))))))).
Proof.
  intros Hv Ev Hb Hc Hh Hl Hp Hst Hch. unfold resume. rewrite Hc.
  rewrite (after_run_run me s [] Hh).
  set (s1 := set_k_intr false _).
  rewrite (device_serve_posted i w b v s1) by done.
  assert (k_held (set_k_vd (served i w (2 * b_blockno b) v) (xfer i b w s1)) = [] ∧
    k_procs (set_k_vd (served i w (2 * b_blockno b) v) (xfer i b w s1)) = k_procs s ∧
    k_hart (set_k_vd (served i w (2 * b_blockno b) v) (xfer i b w s1)) = k_hart s ∧
    k_cpus (set_k_vd (served i w (2 * b_blockno b) v) (xfer i b w s1)) =
      <[k_hart s := None]> (k_cpus s)) as (E1 & E2 & E3 & E4) by (by destruct w).
  rewrite (virtio_disk_intr_run i w (2 * b_blockno b) v); [|done|done|done|
    unfold cur; rewrite E3, E4|by rewrite E2].
  2: { unfold cur in Hc. destruct (k_cpus s !! k_hart s) eqn:E; [|done].
       by rewrite list_lookup_insert_eq by eauto using lookup_lt_Some. }
  kcbn. kcbn in E2. rewrite E2. rewrite list_lookup_imap, Hp. cbn [fmap option_fmap option_map].
  assert (wake_slot None (ChBuf i) me p = set_p_state RUNNABLE p) as ->.
  { unfold wake_slot, wake_proc. rewrite (bool_decide_eq_true_2 (p_state p = _)), (bool_decide_eq_true_2 (p_chan p = _)) by done.
    done. }
  rewrite decide_True by done. f_equal. f_equal. destruct w; unfold s1; kstate_eq.
Qed.

(** States that differ from [s] in the driver's tables, the buffers and the locks. *)
Definition drv (v : vdisk) (B : list buf) (h : list lockid) (s : kstate) : kstate :=
  set_k_vd v (set_k_bufs B (set_k_held h s)).

Lemma drv_id s : drv (k_vd s) (k_bufs s) (k_held s) s = s.
Proof. by destruct s. Qed.
Lemma modvd_drv {A} f v B h s (k : unit → K A) :
  bind (modvd f) k (drv v B h s) = k tt (drv (f v) B h s).
Proof. done. Qed.
Lemma modb_drv {A} i f v B h s (k : unit → K A) :
  bind (modb i f) k (drv v B h s) = k tt (drv v (alter f i B) h s).
Proof. done. Qed.
Lemma moddesc_drv {A} j f d v B h s (k : unit → K A) :
  v_desc v !! j = Some d →
  bind (moddesc (Z.of_nat j) f) k (drv v B h s) =
  k tt (drv (set_v_desc (<[j := f d]> (v_desc v)) v) B h s).
Proof.
  intros H. unfold moddesc. rewrite modvd_drv, Nat2Z.id. by rewrite (list_alter_insert _ _ j d).
Qed.
Lemma moddesc_drv2 {A} j f d l v B h s (k : unit → K A) :
  (j < length l)%nat →
  bind (moddesc (Z.of_nat j) f) k (drv (set_v_desc (<[j := d]> l) v) B h s) =
  k tt (drv (set_v_desc (<[j := f d]> l) v) B h s).
Proof.
  intros H. rewrite (moddesc_drv j f d) by (by apply list_lookup_insert_eq).
  cbn [v_desc set_v_desc]. rewrite list_insert_insert_eq. done.
Qed.

Definition free_at (j : nat) (v : vdisk) : vdisk :=
  set_v_free (<[j := true]> (v_free v)) (set_v_desc (<[j := desc0]> (v_desc v)) v).

Lemma free_desc_run me j d v B s :
  cur s = Some me → length (k_procs s) = NPROC →
  v_free v !! j = Some false → v_desc v !! j = Some d → (j < NUM)%nat →
  free_desc (Z.of_nat j) (drv v B [LVdisk] s) =
  Ret tt (drv (free_at j v) B [LVdisk]
            (set_k_procs (imap (wake_slot (Some me) ChDisk) (k_procs s)) s)).
Proof.
  intros Hc Hl Hj Hd Hlt. unfold free_desc.
  destruct (Z.leb_spec (Z.of_nat NUM) (Z.of_nat j)); [unfold NUM in *; lia|].
  rewrite bind_gets. change (k_vd (drv v B [LVdisk] s)) with v.
  rewrite Nat2Z.id, nth_lookup, Hj. cbn [from_option id].
  assert (j < length (v_desc v))%nat as Hjl by eauto using lookup_lt_Some.
  rewrite (moddesc_drv j _ d) by exact Hd.
  rewrite !moddesc_drv2 by done.
  rewrite modvd_drv, wakeup_run; [|done|].
  - change (cur (drv _ B [LVdisk] s)) with (cur s). rewrite Hc. by destruct d.
  - intros k _. cbn. set_solver.
Qed.

Lemma free_chain_step f me j d v B s :
  cur s = Some me → length (k_procs s) = NPROC →
  v_free v !! j = Some false → v_desc v !! j = Some d → (j < NUM)%nat →
  free_chain (S f) (Z.of_nat j) (drv v B [LVdisk] s) =
  (if negb (Z.land (d_flags d) VRING_DESC_F_NEXT =? 0) then free_chain f (d_next d) else ret tt)
    (drv (free_at j v) B [LVdisk]
      (set_k_procs (imap (wake_slot (Some me) ChDisk) (k_procs s)) s)).
Proof.
  intros Hc Hl Hj Hd Hlt. cbn [free_chain]. rewrite bind_gets.
  change (k_vd (drv v B [LVdisk] s)) with v. rewrite Nat2Z.id, Hd. cbn [unwrap]. rewrite bind_ret_l.
  rewrite (bind_run _ _ _ _ _ (free_desc_run me j d v B s Hc Hl Hj Hd Hlt)). done.
Qed.

Lemma free_chain_run me i (w : bool) v B s :
  cur s = Some me → length (k_procs s) = NPROC → v_free v = freed3 →
  v_desc v !! 0%nat = Some (mkDesc (DmaOps 0) 16 VRING_DESC_F_NEXT 1) →
  v_desc v !! 1%nat =
    Some (mkDesc (DmaData i) BSIZE
            (Z.lor (if w then 0 else VRING_DESC_F_WRITE) VRING_DESC_F_NEXT) 2) →
  v_desc v !! 2%nat = Some (mkDesc (DmaStatus 0) 1 VRING_DESC_F_WRITE 0) →
  ∃ l', quiet me (k_procs s) l' ∧
    free_chain NUM 0 (drv v B [LVdisk] s) =
    Ret tt (drv (free_at 2 (free_at 1 (free_at 0 v))) B [LVdisk] (set_k_procs l' s)).
Proof.
  intros Hc Hl Hf D0 D1 D2. set (wk := λ l : list proc, imap (wake_slot (Some me) ChDisk) l).
  exists (wk (wk (wk (k_procs s)))). split.
  { eapply quiet_trans; [eapply quiet_trans; apply quiet_wake|apply quiet_wake]. }
  unfold NUM. change 0 with (Z.of_nat 0).
  rewrite (free_chain_step _ me 0 _ v B s Hc Hl) by (rewrite ?Hf; done || (unfold NUM; lia)).
  cbn [d_flags d_next]. change (negb (Z.land VRING_DESC_F_NEXT VRING_DESC_F_NEXT =? 0)) with true.
  cbv iota. change 1 with (Z.of_nat 1).
  erewrite (free_chain_step _ me 1); [|exact Hc|kcbn; by rewrite length_imap|
    cbn; rewrite Hf; done|cbn; rewrite list_lookup_insert_ne by lia; exact D1|unfold NUM; lia].
  cbn [d_flags d_next].
  assert (negb (Z.land (Z.lor (if w then 0 else VRING_DESC_F_WRITE) VRING_DESC_F_NEXT)
            VRING_DESC_F_NEXT =? 0) = true) as -> by (by destruct w).
  cbv iota. change 2 with (Z.of_nat 2).
  erewrite (free_chain_step _ me 2); [|exact Hc|kcbn; by rewrite !length_imap|
    cbn; rewrite Hf; done|cbn; rewrite !list_lookup_insert_ne by lia; exact D2|unfold NUM; lia].
  cbn [d_flags]. change (negb (Z.land VRING_DESC_F_WRITE VRING_DESC_F_NEXT =? 0)) with false.
  done.
Qed.

(** ** A whole transfer *)

Lemma getb_run i b s : k_bufs s !! i = Some b → getb i s = Ret b s.
Proof. intros H. unfold getb. by rewrite bind_gets, H. Qed.

(** Everybody asleep on [ch] is woken, and [me] gets its old entry back. *)
Lemma quiet_back me ch p p' (l : list proc) :
  l !! me = Some p →
  quiet me l (<[me := p]> (imap (wake_slot None ch) (<[me := p']> l))).
Proof.
  intros Hp. assert (me < length l)%nat by eauto using lookup_lt_Some.
  split; [by rewrite length_insert, length_imap, length_insert|].
  split; [rewrite list_lookup_insert_eq; [done|by rewrite length_imap, length_insert]|].
  intros j q Hq. destruct (decide (j = me)) as [->|Hj].
  - exists p. rewrite list_lookup_insert_eq by (by rewrite length_imap, length_insert).
    split; [done|]. left. congruence.
  - rewrite list_lookup_insert_ne, list_lookup_imap, list_lookup_insert_ne, Hq by done.
    eexists. split; [done|]. unfold wake_slot, wake_proc. rewrite bool_decide_eq_false_2 by done.
    destruct (bool_decide (p_state q = SLEEPING)) eqn:Es; cbn; [|by left].
    apply bool_decide_eq_true in Es. case_bool_decide; [by right|by left].
Qed.

Lemma cpus_back s me :
  cur s = Some me → <[k_hart s := Some me]> (<[k_hart s := None]> (k_cpus s)) = k_cpus s.
Proof.
  intros Hc. rewrite list_insert_insert_eq. apply list_insert_id. unfold cur in Hc.
  destruct (k_cpus s !! k_hart s) as [o|]; [|done]. cbn in Hc. by rewrite Hc.
Qed.

Lemma xfer_bufs i b w (s : kstate) B :
  (i < length B)%nat →
  alter (set_b_disk false) i (k_bufs (xfer i (set_b_disk true b) w
    (set_k_bufs (<[i := set_b_disk true b]> B) s))) =
  <[i := set_b_disk false (if w then b else set_b_data (block_data (k_disk s) (b_blockno b)) b)]> B.
Proof.
  intros Hi. destruct w; cbn [xfer]; kcbn.
  - by rewrite (list_alter_insert _ _ i (set_b_disk true b)), list_insert_insert_eq
      by (by apply list_lookup_insert_eq).
  - rewrite list_insert_insert_eq.
    by erewrite (list_alter_insert _ _ i), list_insert_insert_eq by (by apply list_lookup_insert_eq).
Qed.

Section transfer.
Context {F : Fuel}.

(** The state in which [sleep] returns to a process [p] that posted a request. *)
Lemma back_state me i b w v p p' ch s :
  cur s = Some me → (me < length (k_procs s))%nat → (i < length (k_bufs s))%nat →
  p_state p = RUNNING → p_chan p = ChNull → p' = set_p_state SLEEPING (set_p_chan (ChBuf i) p) →
  let s1 := drv (posted i w (2 * b_blockno b) v) (<[i := set_b_disk true b]> (k_bufs s)) [LVdisk] s in
  let s2 := proc_set me p' (set_k_held [LProc me] s1) in
  let lw := imap (wake_slot None ch) (k_procs s2) in
  let b' := set_b_disk true b in
  proc_set me (set_p_chan ChNull (set_p_state RUNNING (set_p_state RUNNABLE p')))
    (set_k_held [LVdisk] (set_k_intr (k_intr s1)
      (dispatched me (set_p_state RUNNABLE p')
        (set_k_held [] (set_k_intr false (set_k_vd (handled i w (2 * b_blockno b') v)
          (set_k_procs lw (set_k_bufs (alter (set_b_disk false) i (k_bufs (xfer i b' w s2)))
            (set_k_cpus (<[k_hart s2 := None]> (k_cpus s2)) (xfer i b' w s2)))))))))) =
  drv (handled i w (2 * b_blockno b) v)
    (<[i := set_b_disk false
              (if w then b else set_b_data (block_data (k_disk s) (b_blockno b)) b)]>
       (k_bufs s)) [LVdisk]
    (set_k_procs (<[me := p]> (imap (wake_slot None ch) (<[me := p']> (k_procs s))))
      (set_k_disk (k_disk (xfer i b w s)) (set_k_dwrites (k_dwrites (xfer i b w s)) s))).
Proof.
  intros Hc Hml Hil Hst Hch Hp' s1 s2 lw b'.
  assert (set_p_chan ChNull (set_p_state RUNNING (set_p_state RUNNABLE p')) = p) as ->.
  { subst p'. destruct p. cbn in *. by subst. }
  assert (alter (set_b_disk false) i (k_bufs (xfer i b' w s2)) =
    <[i := set_b_disk false (if w then b else set_b_data (block_data (k_disk s) (b_blockno b)) b)]>
      (k_bufs s)) as ->.
  { rewrite <- (xfer_bufs i b w s (k_bufs s) Hil). by destruct w. }
  unfold proc_set, dispatched, drv. kcbn.
  replace (k_hart (xfer i b' w s2)) with (k_hart s) by (by destruct w).
  change (k_hart s2) with (k_hart s). change (k_cpus s2) with (k_cpus s).
  rewrite (cpus_back s me Hc).
  rewrite (list_insert_insert_eq (imap _ _)) || rewrite list_insert_insert_eq.
  subst s2 s1 lw b'. destruct w; unfold xfer, drv, proc_set; kstate_eq.
Qed.

(** The wait for the completion. *)
Definition disk_wait (i : nat) : K unit :=
  sleep_loop (b ← getb i;
              if b_disk b then sleep (ChBuf i) LVdisk ;; ret None else ret (Some tt)).

Lemma disk_wait_run me i b w v p s :
  drv_idle v → cur s = Some me → length (k_procs s) = NPROC → k_procs s !! me = Some p →
  p_state p = RUNNING → p_chan p = ChNull → k_bufs s !! i = Some b →
  ∃ l', quiet me (k_procs s) l' ∧
    sync resume (disk_wait i)
      (drv (posted i w (2 * b_blockno b) v) (<[i := set_b_disk true b]> (k_bufs s)) [LVdisk] s) =
    Ret tt (drv (handled i w (2 * b_blockno b) v)
             (<[i := set_b_disk false
                       (if w then b else set_b_data (block_data (k_disk s) (b_blockno b)) b)]>
                (k_bufs s)) [LVdisk]
             (set_k_procs l'
               (set_k_disk (k_disk (xfer i b w s)) (set_k_dwrites (k_dwrites (xfer i b w s)) s)))).
Proof.
  intros Hv Hc Hl Hp Hst Hch Hb.
  assert (i < length (k_bufs s))%nat as Hil by eauto using lookup_lt_Some.
  assert (me < length (k_procs s))%nat as Hml by eauto using lookup_lt_Some.
  set (p' := set_p_state SLEEPING (set_p_chan (ChBuf i) p)).
  pose proof (back_state me i b w v p p' (ChBuf i) s Hc Hml Hil Hst Hch eq_refl) as Hback.
  cbv zeta in Hback.
  set (s1 := drv (posted i w (2 * b_blockno b) v) _ [LVdisk] s) in *.
  destruct (sleep_swtch me p (ChBuf i) LVdisk s1 Hc eq_refl ltac:(done) Hp) as (k & Ek & Hk).
  fold p' in Ek. set (s2 := proc_set me p' (set_k_held [LProc me] s1)) in *.
  assert (k_procs s2 !! me = Some p') as Hp2 by (by apply list_lookup_insert_eq).
  assert (k_bufs s2 !! i = Some (set_b_disk true b)) as Hb2 by (by apply list_lookup_insert_eq).
  assert (length (k_procs s2) = NPROC) as Hl2
    by (unfold s2, proc_set; kcbn; rewrite length_insert; exact Hl).
  pose proof (resume_run me p' i (set_b_disk true b) w v s2 Hv eq_refl Hb2 Hc eq_refl Hl2 Hp2
    eq_refl eq_refl) as Hr.
  match type of Hr with _ = Some ?s3 => set (s3' := s3) in * end.
  specialize (Hk s3' (set_p_state RUNNING (set_p_state RUNNABLE p')) eq_refl).
  rewrite Hback in Hk. clear Hback.
  eexists. split; [by apply (quiet_back me (ChBuf i) p p')|].
  match goal with |- _ = Ret tt ?t => set (s4 := t) in * end.
  assert (k s3' = Ret tt s4) as Hk'.
  { apply Hk. apply list_lookup_insert_eq. unfold s2, proc_set. kcbn.
    rewrite length_imap, length_insert. exact Hml. }
  assert (k_bufs s1 !! i = Some (set_b_disk true b)) as Hb1 by (by apply list_lookup_insert_eq).
  assert (∃ c, k_bufs s4 !! i = Some c ∧ b_disk c = false) as (c & Hb4 & Hd4).
  { eexists. split; [by apply list_lookup_insert_eq|]. by destruct w. }
  clearbody s1 s2 s3' s4. unfold disk_wait, sleep_loop.
  pose proof wakeups_pos as HW. destruct wakeups as [|n]; [lia|].
  rewrite sync_loop_S, (bind_run _ _ s1 None s4).
  - rewrite sync_loop_S, (bind_run _ _ s4 (Some tt) s4); [done|]. apply sync_run.
    by rewrite (bind_run _ _ _ _ _ (getb_run _ _ _ Hb4)), Hd4.
  - rewrite sync_bind, (bind_run _ _ _ _ _ (sync_run _ _ _ _ _ (getb_run _ _ _ Hb1))).
    cbn [b_disk set_b_disk]. rewrite sync_bind.
    rewrite (bind_run _ _ s1 tt s4); [done|]. rewrite (sync_swtch _ _ _ _ _ _ Ek Hr), Hk'. done.
Qed.
Lemma alloc_wait_run v B s :
  v_free v = replicate NUM true →
  sleep_loop (o ← alloc3_desc;
              match o with
              | Some idx => ret (Some idx)
              | None => sleep ChDisk LVdisk ;; ret None
              end) (drv v B [LVdisk] s) = Ret [0; 1; 2] (drv (set_v_free freed3 v) B [LVdisk] s).
Proof.
  intros E. unfold sleep_loop. cbn [loop].
  rewrite (bind_run _ _ _ (Some [0; 1; 2]) (drv (set_v_free freed3 v) B [LVdisk] s)); [done|].
  by rewrite (bind_run _ _ _ _ _ (alloc3_run (drv v B [LVdisk] s) E)).
Qed.

Lemma handled_idle i w sector v :
  drv_idle v →
  drv_idle (free_at 2 (free_at 1 (free_at 0
    (set_v_info_b (<[0%nat := None]> (v_info_b (handled i w sector v))) (handled i w sector v))))).
Proof.
  intros []. unfold handled, served, posted, free_at.
  split; cbn; rewrite ?length_insert; try done; apply u16_range.
Qed.

Lemma rw_run me i b w s :
  running me s → k_held s = [] → drv_idle (k_vd s) → k_bufs s !! i = Some b →
  b_disk b = false → 0 ≤ b_blockno b < 2 ^ 31 →
  ∃ v' l', drv_idle v' ∧ quiet me (k_procs s) l' ∧
    sync resume (virtio_disk_rw i w) s = Ret tt (set_k_vd v' (set_k_procs l' (xfer i b w s))).
Proof.
  intros [Hc Hl (p & Hp & Hst & Hch)] Hh Hv Hb Hd Hbn.
  destruct (disk_wait_run me i b w (k_vd s) p s Hv Hc Hl Hp Hst Hch Hb) as (l1 & Hq1 & Hwait).
  unfold sync, virtio_disk_rw. rewrite (bind_run _ _ _ _ _ (getb_run _ _ _ Hb)). cbv zeta.
  assert (u64 (u32 (b_blockno b * (BSIZE / 512))) = 2 * b_blockno b) as ->.
  { unfold u64, u32, BSIZE. change (1024 / 512) with 2.
    rewrite (Z.mod_small _ (2 ^ 32)), (Z.mod_small _ (2 ^ 64)); lia. }
  rewrite (bind_run _ _ _ _ _ (acquire_run LVdisk s ltac:(rewrite Hh; set_solver))).
  replace (upd_held (cons LVdisk) s) with (drv (k_vd s) (k_bufs s) [LVdisk] s)
    by (unfold drv, upd_held; rewrite Hh; kstate_eq).
  rewrite (bind_run _ _ _ _ _ (alloc_wait_run _ _ s (dv_free _ Hv))). cbn [nth].
  destruct (list8 _ (dv_desc _ Hv)) as (d0 & d1 & d2 & d3 & d4 & d5 & d6 & d7 & Ed).
  rewrite modvd_drv.
  rewrite (moddesc_drv 0 _ d0) by (cbn; by rewrite Ed).
  rewrite (moddesc_drv 1 _ d1) by (cbn; by rewrite Ed).
  rewrite modvd_drv.
  rewrite (moddesc_drv 2 _ d2) by (cbn; by rewrite Ed).
  rewrite modb_drv, !modvd_drv, (list_alter_insert _ _ i b Hb).
  match goal with |- context [bind _ _ (drv ?v _ _ _)] =>
    change v with (posted i w (2 * b_blockno b) (k_vd s)) end.
  fold (disk_wait i).
  match goal with |- context [run_with resume (bind ?m ?f ?t)] =>
    change (run_with resume (bind m f t)) with (sync resume (bind m f) t) end.
  setoid_rewrite sync_bind. setoid_rewrite (bind_run _ _ _ _ _ Hwait). unfold sync.
  setoid_rewrite modvd_drv. change (Z.to_nat 0) with 0%nat.
  set (v2 := set_v_info_b _ _).
  set (s2 := set_k_procs l1 _).
  destruct (posted_tables i w (2 * b_blockno b) (k_vd s) Hv) as (D0 & D1 & D2 & _).
  destruct (free_chain_run me i w v2 (<[i := set_b_disk false (if w then b else
    set_b_data (block_data (k_disk s) (b_blockno b)) b)]> (k_bufs s)) s2) as (l2 & Hq2 & Hfree);
    [done|by rewrite <- Hl; apply Hq1|done|exact D0|exact D1|exact D2|].
  exists (free_at 2 (free_at 1 (free_at 0 v2))), l2.
  split; [by apply handled_idle|]. split; [by eapply quiet_trans|].
  rewrite (bind_run _ _ _ _ _ Hfree), (release_run LVdisk []) by done. cbn [run_with].
  f_equal. subst s2. clearbody v2. rewrite <- Hh. assert (set_b_disk false b = b) as Eb by (destruct b; cbn in *; by subst).
  destruct w; cbn [xfer].
  - rewrite Eb, list_insert_id by done. unfold drv. kstate_eq.
  - assert (set_b_disk false (set_b_data (block_data (k_disk s) (b_blockno b)) b) =
      set_b_data (block_data (k_disk s) (b_blockno b)) b) as ->
      by (unfold set_b_data, set_b_disk; cbn; by rewrite Hd).
    unfold drv. kstate_eq.
Qed.
End transfer.

(** C29: a call of [virtio_disk_rw] with the driver idle returns, having moved exactly
    the block of its buffer: a write makes the disk block equal to the buffer's data, a
    read makes the buffer's data equal to the disk block, and everything else but
    wake-ups of other processes is as before.  The device finds a well-formed request,
    the interrupt handler the right buffer, and all the descriptors are free again. *)
Theorem disk_transfer {F : Fuel} (me i : nat) (b : buf) (w : bool) (s : kstate)
    (Hrun : running me s) (Hheld : k_held s = []) (Hidle : drv_idle (k_vd s))
    (Hb : k_bufs s !! i = Some b) (Hdisk : b_disk b = false) (Hbn : 0 ≤ b_blockno b < 2 ^ 31) :
  ∃ v' l', drv_idle v' ∧ quiet me (k_procs s) l' ∧
    sync resume (virtio_disk_rw i w) s = Ret tt (set_k_vd v' (set_k_procs l' (xfer i b w s))).
Proof. by apply rw_run. Qed.

Definition fuel1 : Fuel := {| wakeups := 1; wakeups_pos := Nat.lt_0_1 |}.

(** Process 2 runs on hart 0 with the driver initialised. *)
Definition kstate_disk : kstate :=
  set_k_vd (set_v_free (replicate NUM true) vdisk0)
    (set_k_cpus (<[0 := Some 2]> (k_cpus kstate0))%nat
      (set_k_procs (<[2 := set_p_pid 3 (set_p_state RUNNING proc0)]> (k_procs kstate0))%nat kstate0)).
Lemma running_disk : running 2 kstate_disk.
Proof. split; [reflexivity|reflexivity|]. eexists. split; [reflexivity|]. by split. Qed.
Lemma idle_disk : drv_idle (k_vd kstate_disk).
Proof. by split. Qed.

Lemma disk_transfer_witness :
  ∃ v' l', drv_idle v' ∧ quiet 2 (k_procs kstate_disk) l' ∧
    sync resume (virtio_disk_rw (F := fuel1) 3 true) kstate_disk =
      Ret tt (set_k_vd v' (set_k_procs l' (xfer 3 buf0 true kstate_disk))).
Proof.
  apply (disk_transfer (F := fuel1) 2 3 buf0 true kstate_disk running_disk eq_refl idle_disk
    eq_refl eq_refl). split; [discriminate|reflexivity].
Defined.
