(* ===== verification/Bio.v ===== *)
(** * kernel/sleeplock.c and kernel/bio.c

    Sleep-locks, and the buffer cache: [bcache.buf[]] with the LRU list threaded
    through it, slot [NBUF] being [bcache.head]. *)
From Stdlib Require Import ZArith Lia.
From stdpp Require Import base list gmap numbers strings.
From S2P Require Import Prelude Machine KString Bytes State Kalloc Sched Virtio.
Local Open Scope Z_scope.
Local Open Scope kernel_scope.

(** ** sleeplock.c *)

Definition geti (i : nat) : K inode :=
  o ← gets (λ s, k_itable s !! i); unwrap "inode" o.
Definition modi (i : nat) (f : inode → inode) : K unit :=
  modify (λ s, set_k_itable (alter f i (k_itable s)) s).

(** The struct of a sleep-lock, inside its buffer or inode. *)
Definition getsl (lk : sleepid) : K sleeplock :=
  match lk with
  | SlBuf i => b ← getb i; ret (b_lock b)
  | SlInode i => ip ← geti i; ret (i_lock ip)
  end.
Definition modsl (lk : sleepid) (f : sleeplock → sleeplock) : K unit :=
  match lk with
  | SlBuf i => modb i (λ b, set_b_lock (f (b_lock b)) b)
  | SlInode i => modi i (λ ip, set_i_lock (f (i_lock ip)) ip)
  end.

Definition initsleeplock (lk : sleepid) : K unit :=
  modsl lk (set_sl_locked false) ;;
  modsl lk (set_sl_pid 0).

Definition releasesleep (lk : sleepid) : K unit :=
  acquire (LSleep lk) ;;
  modsl lk (set_sl_locked false) ;;
  modsl lk (set_sl_pid 0) ;;
  wakeup (ChSleep lk) ;;
  release (LSleep lk).

Definition holdingsleep (lk : sleepid) : K bool :=
  acquire (LSleep lk) ;;
  l ← getsl lk;
  r ← (if sl_locked l then
         me ← myproc; p ← getp me; ret (sl_pid l =? p_pid p)
       else ret false);
  release (LSleep lk) ;;
  ret r.

Section bio.
Context {F : Fuel}.

Definition acquiresleep (lk : sleepid) : K unit :=
  acquire (LSleep lk) ;;
  sleep_loop (l ← getsl lk;
              if sl_locked l then sleep (ChSleep lk) (LSleep lk) ;; ret None
              else ret (Some tt)) ;;
  modsl lk (set_sl_locked true) ;;
  me ← myproc;
  p ← getp me;
  modsl lk (set_sl_pid (p_pid p)) ;;
  release (LSleep lk).

(** ** bio.c *)

Definition bhead : nat := NBUF.

(** The insertion of [i] at the front of the list. *)
Definition list_push (i : nat) : K unit :=
  h ← getb bhead;
  modb i (set_b_next (b_next h)) ;;
  modb i (set_b_prev bhead) ;;
  ret tt.
Definition list_link (i : nat) : K unit :=
  h ← getb bhead;
  modb (b_next h) (set_b_prev i) ;;
  modb bhead (set_b_next i).

Definition binit : K unit :=
  modb bhead (set_b_prev bhead) ;;
  modb bhead (set_b_next bhead) ;;
  for_each (seq 0 NBUF) (λ i,
    list_push i ;;
    initsleeplock (SlBuf i) ;;
    list_link i).

(** The two scans of [bget], along [next] and along [prev]: the first buffer
    satisfying [f] from slot [i] on.  The list has [NBUF] buffers and the bhead. *)
Fixpoint scan_next (fuel : nat) (f : buf → bool) (i : nat) : K (option nat) :=
  match fuel with
  | O => nofuel
  | S n =>
      if (i =? bhead)%nat then ret None else
      b ← getb i;
      if f b then ret (Some i) else scan_next n f (b_next b)
  end.
Fixpoint scan_prev (fuel : nat) (f : buf → bool) (i : nat) : K (option nat) :=
  match fuel with
  | O => nofuel
  | S n =>
      if (i =? bhead)%nat then ret None else
      b ← getb i;
      if f b then ret (Some i) else scan_prev n f (b_prev b)
  end.

Definition bget (dev blockno : Z) : K nat :=
  acquire LBcache ;;
  h ← getb bhead;
  hit ← scan_next (S NBUF) (λ b, (b_dev b =? dev) && (b_blockno b =? blockno)) (b_next h);
  match hit with
  | Some i =>
      modb i (λ b, set_b_refcnt (u32 (b_refcnt b + 1)) b) ;;
      release LBcache ;;
      acquiresleep (SlBuf i) ;;
      ret i
  | None =>
      free ← scan_prev (S NBUF) (λ b, b_refcnt b =? 0) (b_prev h);
      match free with
      | Some i =>
          modb i (set_b_dev dev) ;;
          modb i (set_b_blockno blockno) ;;
          modb i (set_b_valid false) ;;
          modb i (set_b_refcnt 1) ;;
          release LBcache ;;
          acquiresleep (SlBuf i) ;;
          ret i
      | None => panic "bget: no buffers"
      end
  end.

Definition bread (dev blockno : Z) : K nat :=
  i ← bget dev blockno;
  b ← getb i;
  whenM (negb (b_valid b))
    (virtio_disk_rw i false ;;
     modb i (set_b_valid true)) ;;
  ret i.

Definition bwrite (i : nat) : K unit :=
  h ← holdingsleep (SlBuf i);
  if negb h then panic "bwrite" else virtio_disk_rw i true.

Definition brelse (i : nat) : K unit :=
  h ← holdingsleep (SlBuf i);
  if negb h then panic "brelse" else
  releasesleep (SlBuf i) ;;
  acquire LBcache ;;
  modb i (λ b, set_b_refcnt (u32 (b_refcnt b - 1)) b) ;;
  b ← getb i;
  whenM (b_refcnt b =? 0)
    (modb (b_next b) (set_b_prev (b_prev b)) ;;
     b ← getb i;
     modb (b_prev b) (set_b_next (b_next b)) ;;
     list_push i ;;
     list_link i) ;;
  release LBcache.

Definition bpin (i : nat) : K unit :=
  acquire LBcache ;;
  modb i (λ b, set_b_refcnt (u32 (b_refcnt b + 1)) b) ;;
  release LBcache.
Definition bunpin (i : nat) : K unit :=
  acquire LBcache ;;
  modb i (λ b, set_b_refcnt (u32 (b_refcnt b - 1)) b) ;;
  release LBcache.
End bio.
