(* ===== verification/Lru.v ===== *)
(** * The LRU list of the buffer cache

    The doubly linked list that bio.c threads through [bcache.buf[]] as a sequence of
    slots, most recently used first, and the effect on it of the scans of [bget] and
    of the pointer updates of [binit] and [brelse]. *)
From Stdlib Require Import ZArith Lia.
From stdpp Require Import base list gmap numbers strings.
From S2P Require Import Prelude Machine State Kalloc Sched Virtio DiskIo Bio.
Local Open Scope nat_scope.
Local Open Scope kernel_scope.

Implicit Types (B : list buf) (o l : list nat).

Definition nx B (i : nat) : nat := default 0 (b_next <$> B !! i).
Definition pv B (i : nat) : nat := default 0 (b_prev <$> B !! i).

(** Neighbours in [l] point at each other. *)
Fixpoint seg B l : Prop :=
  match l with
  | x :: l' => match l' with y :: _ => nx B x = y ∧ pv B y = x ∧ seg B l' | [] => True end
  | [] => True
  end.

(** [o] is the list, from [head.next] to [head.prev]. *)
Record lru B o : Prop := {
  lru_len : length B = S NBUF;
  lru_seg : seg B (bhead :: o ++ [bhead]);
  lru_perm : o ≡ₚ seq 0 NBUF;
}.

(** The fields other than the links. *)
Definition core (b : buf) : buf := set_b_prev 0 (set_b_next 0 b).
Definition same_core B B' : Prop := core <$> B' = core <$> B.

(** ** Segments *)

Lemma seg_cons B x y l : seg B (x :: y :: l) ↔ nx B x = y ∧ pv B y = x ∧ seg B (y :: l).
Proof. done. Qed.

Lemma seg_app B l1 x l2 : seg B (l1 ++ x :: l2) ↔ seg B (l1 ++ [x]) ∧ seg B (x :: l2).
Proof.
  induction l1 as [|y l1 IH]; [cbn; tauto|].
  destruct l1 as [|z l1]; cbn [app] in *; rewrite !seg_cons; [cbn; tauto|]. rewrite IH. tauto.
Qed.

Lemma seg_frame B B' l x :
  seg B (l ++ [x]) → (∀ y, y ∈ l → nx B' y = nx B y) →
  (∀ y, y ∈ tail (l ++ [x]) → pv B' y = pv B y) → seg B' (l ++ [x]).
Proof.
  induction l as [|y l IH]; intros H Hn Hp; [done|].
  destruct l as [|z l]; cbn [app tail] in *; rewrite seg_cons in *.
  - destruct H as (<- & H2 & _). rewrite Hn by set_solver. split; [done|].
    split; [|done]. rewrite Hp by set_solver. done.
  - destruct H as (H1 & H2 & H3). rewrite Hn by set_solver. split; [done|].
    rewrite Hp by set_solver. split; [done|]. apply IH; [done| |].
    + intros; apply Hn; set_solver.
    + intros; apply Hp; set_solver.
Qed.

(** The last element before [x] points at it. *)
Lemma seg_last B l y x : seg B ((l ++ [y]) ++ [x]) → nx B y = x ∧ pv B x = y.
Proof. rewrite <- app_assoc. cbn. rewrite seg_app, seg_cons. tauto. Qed.

(** ** Updates *)

Lemma nx_alter B f i j :
  nx (alter f i B) j = if decide (i = j) then default 0 (b_next ∘ f <$> B !! j) else nx B j.
Proof.
  unfold nx. rewrite list_lookup_alter. case_decide; [|done]. subst. by destruct (B !! j).
Qed.
Lemma pv_alter B f i j :
  pv (alter f i B) j = if decide (i = j) then default 0 (b_prev ∘ f <$> B !! j) else pv B j.
Proof.
  unfold pv. rewrite list_lookup_alter. case_decide; [|done]. subst. by destruct (B !! j).
Qed.

Lemma nx_set_prev B p i j : nx (alter (set_b_prev p) i B) j = nx B j.
Proof. rewrite nx_alter. case_decide; [|done]. unfold nx. by destruct (B !! j). Qed.
Lemma pv_set_next B n i j : pv (alter (set_b_next n) i B) j = pv B j.
Proof. rewrite pv_alter. case_decide; [|done]. unfold pv. by destruct (B !! j). Qed.
Lemma nx_set_next B n i j :
  i < length B → nx (alter (set_b_next n) i B) j = if decide (i = j) then n else nx B j.
Proof.
  intros Hi. rewrite nx_alter. case_decide; [|done]. subst.
  destruct (lookup_lt_is_Some_2 B j Hi) as [b ->]. done.
Qed.
Lemma pv_set_prev B n i j :
  i < length B → pv (alter (set_b_prev n) i B) j = if decide (i = j) then n else pv B j.
Proof.
  intros Hi. rewrite pv_alter. case_decide; [|done]. subst.
  destruct (lookup_lt_is_Some_2 B j Hi) as [b ->]. done.
Qed.

(** The links of [b] are taken out of the list, and put in after the head. *)
Definition unlink (i : nat) B : list buf :=
  alter (set_b_next (nx B i)) (pv B i) (alter (set_b_prev (pv B i)) (nx B i) B).
Definition push (i : nat) B : list buf :=
  alter (set_b_next i) bhead
    (alter (set_b_prev i) (nx B bhead)
      (alter (set_b_prev bhead) i (alter (set_b_next (nx B bhead)) i B))).

Lemma core_alter B f i : (∀ b, core (f b) = core b) → same_core B (alter f i B).
Proof.
  intros H. unfold same_core. apply list_eq. intros j.
  rewrite !list_lookup_fmap, list_lookup_alter. case_decide; [|done]. subst.
  destruct (B !! j); [|done]. cbn. by rewrite H.
Qed.
Lemma same_core_trans B1 B2 B3 : same_core B1 B2 → same_core B2 B3 → same_core B1 B3.
Proof. unfold same_core. congruence. Qed.
Lemma same_core_unlink i B : same_core B (unlink i B).
Proof. eapply same_core_trans; by apply core_alter. Qed.
Lemma same_core_push i B : same_core B (push i B).
Proof.
  eapply same_core_trans; [eapply same_core_trans; [eapply same_core_trans|]|]; by apply core_alter.
Qed.
Lemma same_core_length B B' : same_core B B' → length B' = length B.
Proof. intros H. apply (f_equal length) in H. by rewrite !length_fmap in H. Qed.
Lemma same_core_lookup B B' i b :
  same_core B B' → B !! i = Some b → ∃ b', B' !! i = Some b' ∧ core b' = core b.
Proof.
  intros H Hb. apply (f_equal (λ l : list buf, l !! i)) in H. rewrite !list_lookup_fmap, Hb in H.
  destruct (B' !! i) as [b'|]; [|done]. exists b'. split; [done|]. by apply (inj Some) in H.
Qed.
Lemma same_core_lookup' B B' i b' :
  same_core B B' → B' !! i = Some b' → ∃ b, B !! i = Some b ∧ core b' = core b.
Proof.
  intros H Hb. apply (f_equal (λ l : list buf, l !! i)) in H. rewrite !list_lookup_fmap, Hb in H.
  destruct (B !! i) as [b|]; [|done]. exists b. split; [done|]. by apply (inj Some) in H.
Qed.

(** [l], not empty, taken apart at its end or at its beginning. *)
Lemma list_snoc_ne (x : nat) l : ∃ l' (y : nat), x :: l = l' ++ [y].
Proof.
  destruct (exists_last (l := x :: l) ltac:(done)) as (l' & y & E). eauto.
Qed.
Lemma list_cons_ne (x : nat) l : ∃ (y : nat) l', l ++ [x] = y :: l'.
Proof. destruct l; cbn; eauto. Qed.

(** Membership goals. *)
Ltac memb :=
  repeat first [rewrite elem_of_cons in * | rewrite elem_of_app in * | rewrite elem_of_nil in *];
  tauto.

(** The head, the part before [i] and the part after it have no element in common. *)
Lemma around_nodup o1 i o2 :
  NoDup (bhead :: o1 ++ i :: o2) →
  NoDup (bhead :: o1) ∧ NoDup (o2 ++ [bhead]) ∧
  (∀ j, j ∈ bhead :: o1 → j ∉ o2) ∧ (∀ j, j ∈ o1 → j ∉ o2 ++ [bhead]).
Proof.
  intros Hnd. apply list.NoDup_cons in Hnd as [Hh Hnd].
  apply NoDup_app in Hnd as (H1 & H2 & H3). apply list.NoDup_cons in H3 as [_ H3].
  rewrite elem_of_app, elem_of_cons in Hh.
  assert (∀ j, j ∈ o1 → j ∉ o2) as H4.
  { intros j Hj Hj2. apply (H2 j Hj). apply elem_of_cons. by right. }
  split; [apply list.NoDup_cons; tauto|]. split.
  - apply NoDup_app. split; [done|]. split; [|apply NoDup_singleton].
    intros j Hj ->%list_elem_of_singleton. tauto.
  - split; intros j Hj.
    + apply elem_of_cons in Hj as [->|Hj]; [tauto|by apply H4].
    + rewrite elem_of_app, list_elem_of_singleton. intros [Hj2| ->]; [by apply (H4 j)|tauto].
Qed.

Lemma unlink_seg B o1 i o2 :
  seg B (bhead :: o1 ++ i :: o2 ++ [bhead]) → NoDup (bhead :: o1 ++ i :: o2) →
  (∀ j, j ∈ bhead :: o1 ++ i :: o2 → j < length B) →
  seg (unlink i B) (bhead :: o1 ++ o2 ++ [bhead]).
Proof.
  intros H Hnd Hlt. destruct (around_nodup _ _ _ Hnd) as (N1 & N2 & N3 & N4).
  destruct (list_snoc_ne bhead o1) as (l1 & a & E1). destruct (list_cons_ne bhead o2) as (c & l2 & E2).
  assert (seg B (l1 ++ a :: i :: c :: l2)) as H'.
  { rewrite <- E2. change (seg B (l1 ++ [a] ++ i :: o2 ++ [bhead])). rewrite app_assoc, <- E1. done. }
  clear H. rewrite seg_app, !seg_cons in H'. destruct H' as (Ha & Hai & Hia & Hic & Hci & Hc).
  assert (a ∈ bhead :: o1) as Ha1 by (rewrite E1, elem_of_app, list_elem_of_singleton; by right).
  assert (c ∈ o2 ++ [bhead]) as Hc1 by (rewrite E2, elem_of_cons; by left).
  assert (a < length B ∧ c < length B) as [Hal Hcl]. { clear - Ha1 Hc1 Hlt. split; apply Hlt; memb. }
  change (seg (unlink i B) ((bhead :: o1) ++ o2 ++ [bhead])). rewrite E1, E2, <- app_assoc. cbn [app].
  assert (∀ j, a ≠ j → nx (unlink i B) j = nx B j) as Hn.
  { intros j Hj. unfold unlink. rewrite Hia, Hic, nx_set_next, decide_False
      by (by rewrite ?length_alter). apply nx_set_prev. }
  assert (∀ j, c ≠ j → pv (unlink i B) j = pv B j) as Hp.
  { intros j Hj. unfold unlink. by rewrite Hia, Hic, pv_set_next, pv_set_prev, decide_False. }
  rewrite seg_app, seg_cons. split_and!.
  - apply (seg_frame B); [done| |]; intros y Hy.
    + apply Hn. intros ->. rewrite E1 in N1. apply NoDup_app in N1 as (_ & N1 & _).
      apply (N1 y Hy). by apply list_elem_of_singleton.
    + apply Hp. intros ->. rewrite <- E1 in Hy. by apply (N4 y).
  - unfold unlink. by rewrite Hia, Hic, nx_set_next, decide_True by (by rewrite ?length_alter).
  - unfold unlink. by rewrite Hia, Hic, pv_set_next, pv_set_prev, decide_True.
  - rewrite <- E2 in Hc |- *. apply (seg_frame B); [done| |]; intros y Hy.
    + apply Hn. intros ->. by apply (N3 y).
    + apply Hp. intros ->. rewrite E2 in Hy, N2. by apply list.NoDup_cons in N2 as [N2 _].
Qed.

Lemma push_seg B o i :
  seg B (bhead :: o ++ [bhead]) → NoDup (bhead :: o) → i ∉ bhead :: o → i < length B →
  (∀ j, j ∈ bhead :: o → j < length B) →
  seg (push i B) (bhead :: i :: o ++ [bhead]).
Proof.
  intros H Hnd Hi Hil Hlt. destruct (list_cons_ne bhead o) as (c & l & E).
  assert (c ∈ o ++ [bhead]) as Hc by (rewrite E, elem_of_cons; by left).
  assert (c ∈ bhead :: o) as Hc' by (clear - Hc; memb).
  assert (c ≠ i ∧ bhead ≠ i) as [Hci Hbi].
  { split; intros Ei; rewrite <- Ei in Hi; [done|]. apply Hi, elem_of_cons. by left. }
  rewrite E in H. rewrite seg_cons in H. destruct H as (Hh1 & Hh2 & Hs).
  assert (bhead < length B) as Hbl by (apply Hlt, elem_of_cons; by left).
  assert (c < length B) as Hcl by (by apply Hlt).
  assert (∀ j, nx (push i B) j = if decide (bhead = j) then i else if decide (i = j) then c else nx B j) as Hn.
  { intros j. unfold push. rewrite Hh1, nx_set_next by (by rewrite !length_alter).
    case_decide; [done|]. by rewrite !nx_set_prev, nx_set_next. }
  assert (∀ j, pv (push i B) j = if decide (c = j) then i else if decide (i = j) then bhead else pv B j) as Hp.
  { intros j. unfold push. rewrite Hh1, pv_set_next, pv_set_prev by (by rewrite !length_alter).
    case_decide; [done|]. rewrite pv_set_prev by (by rewrite !length_alter).
    case_decide; [done|]. apply pv_set_next. }
  rewrite E, !seg_cons, !Hn, !Hp.
  split; [by rewrite decide_True|]. split; [by rewrite decide_False, decide_True|].
  split; [by rewrite decide_False, decide_True|]. split; [by rewrite decide_True|].
  rewrite <- E in Hs |- *. apply (seg_frame B); [done| |]; intros y Hy.
  - rewrite Hn, !decide_False; [done| |].
    + intros ->. apply Hi, elem_of_cons. by right.
    + intros Ey. rewrite <- Ey in Hy. by apply list.NoDup_cons in Hnd as [Hnd _].
  - assert (NoDup (o ++ [bhead])) as Hnd'.
    { apply list.NoDup_cons in Hnd as [Hb Hnd]. apply NoDup_app. split; [done|].
      split; [|apply NoDup_singleton]. intros j Hj ->%list_elem_of_singleton. done. }
    rewrite E in Hy, Hnd'. cbn [tail] in Hy. apply list.NoDup_cons in Hnd' as [Hnc _].
    assert (y ∈ o ++ [bhead]) as Hy2 by (rewrite E, elem_of_cons; by right).
    rewrite Hp, !decide_False; [done| |].
    + intros ->. apply Hi. clear - Hy2. memb.
    + intros ->. done.
Qed.

(** ** The list as a whole *)

Lemma lru_nodup B o : lru B o → NoDup (bhead :: o).
Proof.
  intros H. apply list.NoDup_cons. rewrite (lru_perm _ _ H). split; [|apply NoDup_seq].
  rewrite elem_of_seq. unfold bhead. lia.
Qed.
Lemma lru_elem B o i : lru B o → i ∈ o ↔ i < NBUF.
Proof. intros H. rewrite (lru_perm _ _ H), elem_of_seq. lia. Qed.
Lemma lru_lt B o i : lru B o → i ∈ bhead :: o → i < length B.
Proof.
  intros H. rewrite elem_of_cons, (lru_elem B o) by done. rewrite (lru_len _ _ H). unfold bhead. lia.
Qed.

(** Updates that leave the links alone. *)
Definition keeps_links (f : buf → buf) : Prop :=
  ∀ b, b_next (f b) = b_next b ∧ b_prev (f b) = b_prev b.

Lemma lru_alter B o f i : keeps_links f → lru B o → lru (alter f i B) o.
Proof.
  intros Hf [H1 H2 H3]. split; [by rewrite length_alter| |done].
  change (bhead :: o ++ [bhead]) with ((bhead :: o) ++ [bhead]) in *.
  apply (seg_frame B); [done| |]; intros y _.
  - rewrite nx_alter. case_decide; [|done]. unfold nx. destruct (B !! y); [|done]. cbn.
    by rewrite (proj1 (Hf _)).
  - rewrite pv_alter. case_decide; [|done]. unfold pv. destruct (B !! y); [|done]. cbn.
    by rewrite (proj2 (Hf _)).
Qed.

(** Moving [i] to the front. *)
Definition move_front (i : nat) B : list buf := push i (unlink i B).

Lemma length_unlink i B : length (unlink i B) = length B.
Proof. apply same_core_length, same_core_unlink. Qed.

Lemma lru_move_front B o1 i o2 :
  lru B (o1 ++ i :: o2) → lru (move_front i B) (i :: o1 ++ o2).
Proof.
  intros H. pose proof (lru_nodup _ _ H) as Hnd. pose proof (λ j, lru_lt _ _ j H) as Hlt.
  destruct H as [H1 H2 H3]. split.
  - unfold move_front. rewrite (same_core_length _ _ (same_core_push _ _)). by rewrite length_unlink.
  - unfold move_front. rewrite <- app_comm_cons. apply push_seg.
    + rewrite <- app_assoc. apply unlink_seg; [|done|done]. by rewrite <- app_assoc in H2.
    + apply list.NoDup_cons in Hnd as [Hh Hnd]. apply list.NoDup_cons. split; [clear - Hh; memb|].
      apply NoDup_app in Hnd as (Ha & Hb & Hc). apply list.NoDup_cons in Hc as [_ Hc].
      apply NoDup_app. split; [done|]. split; [|done]. intros j Hj Hj2. apply (Hb j Hj). memb.
    + intros Hi. apply list.NoDup_cons in Hnd as [Hh Hnd].
      apply NoDup_app in Hnd as (Ha & Hb & Hc). apply list.NoDup_cons in Hc as [Hc _].
      apply elem_of_cons in Hi as [->|Hi]; [apply Hh; memb|].
      apply elem_of_app in Hi as [Hi|Hi]; [|done]. apply (Hb i Hi). memb.
    + rewrite length_unlink. apply Hlt. memb.
    + intros j Hj. rewrite length_unlink. apply Hlt. memb.
  - rewrite <- H3. apply Permutation_middle.
Qed.

(** The first buffer of [o] that satisfies [f]. *)
Fixpoint first_buf (f : buf → bool) B o : option nat :=
  match o with
  | [] => None
  | i :: o' =>
      match B !! i with
      | Some b => if f b then Some i else first_buf f B o'
      | None => None
      end
  end.

Lemma first_buf_Some f B o i :
  first_buf f B o = Some i →
  ∃ o1 o2 b, o = o1 ++ i :: o2 ∧ B !! i = Some b ∧ f b = true ∧
    ∀ j c, j ∈ o1 → B !! j = Some c → f c = false.
Proof.
  induction o as [|j o IH]; [done|]. cbn. destruct (B !! j) as [b|] eqn:Hj; [|done].
  destruct (f b) eqn:Hf.
  - intros [= <-]. exists [], o, b. split_and!; try done. intros ? ? []%elem_of_nil.
  - intros (o1 & o2 & c & -> & Hc & Hfc & Hall)%IH. exists (j :: o1), o2, c.
    split_and!; try done. intros k d [->|Hk]%elem_of_cons Hd; [congruence|]. by apply (Hall k).
Qed.
Lemma first_buf_None f B o :
  (∀ i, i ∈ o → i < length B) → first_buf f B o = None →
  ∀ i b, i ∈ o → B !! i = Some b → f b = false.
Proof.
  intros Hlt. induction o as [|j o IH]; intros H i b Hi Hb; [by apply elem_of_nil in Hi|]. cbn in H.
  destruct (lookup_lt_is_Some_2 B j) as [c Hc]; [apply Hlt, elem_of_cons; by left|].
  rewrite Hc in H. destruct (f c) eqn:Hf; [done|].
  apply elem_of_cons in Hi as [->|Hi]; [congruence|]. apply (IH ltac:(intros; apply Hlt; memb) H i); done.
Qed.
Lemma first_buf_is_Some f B o i b :
  (∀ i, i ∈ o → i < length B) → i ∈ o → B !! i = Some b → f b = true → is_Some (first_buf f B o).
Proof.
  intros Hlt Hi Hb Hf. destruct (first_buf f B o) eqn:E; [eauto|].
  pose proof (first_buf_None f B o Hlt E i b Hi Hb). congruence.
Qed.

(** ** The scans of [bget] *)

Lemma scan_next_run f fuel s l :
  seg (k_bufs s) (l ++ [bhead]) → (∀ j, j ∈ l → j ≠ bhead ∧ j < length (k_bufs s)) →
  length l < fuel →
  scan_next fuel f (default bhead (head l)) s = Ret (first_buf f (k_bufs s) l) s.
Proof.
  revert l. induction fuel as [|fuel IH]; intros l Hs Hl Hlen; [lia|].
  destruct l as [|i l]; cbn [head default scan_next from_option id first_buf].
  - by rewrite Nat.eqb_refl.
  - destruct (Hl i ltac:(memb)) as [Hne Hlt]. rewrite (proj2 (Nat.eqb_neq _ _) Hne).
    destruct (lookup_lt_is_Some_2 _ _ Hlt) as [b Hb].
    rewrite (bind_run _ _ _ _ _ (getb_run _ _ _ Hb)), Hb.
    destruct (f b); [done|]. cbn [length] in Hlen.
    assert (b_next b = default bhead (head l)) as ->.
    { destruct (list_cons_ne bhead l) as (c & l' & E). cbn [app] in Hs. rewrite E, seg_cons in Hs.
      destruct Hs as (Hn & _). unfold nx in Hn. rewrite Hb in Hn. cbn in Hn.
      destruct l; cbn in E; injection E as <- _; done. }
    apply IH; [|intros; apply Hl; memb|lia].
    destruct (list_cons_ne bhead l) as (c & l' & E). cbn [app] in Hs. rewrite E, seg_cons in Hs.
    rewrite E. apply Hs.
Qed.

Lemma scan_prev_run f fuel s r :
  seg (k_bufs s) (bhead :: rev r) → (∀ j, j ∈ r → j ≠ bhead ∧ j < length (k_bufs s)) →
  length r < fuel →
  scan_prev fuel f (default bhead (head r)) s = Ret (first_buf f (k_bufs s) r) s.
Proof.
  revert r. induction fuel as [|fuel IH]; intros l Hs Hl Hlen; [lia|].
  destruct l as [|i l]; cbn [head default scan_prev from_option id first_buf].
  - by rewrite Nat.eqb_refl.
  - destruct (Hl i ltac:(memb)) as [Hne Hlt]. rewrite (proj2 (Nat.eqb_neq _ _) Hne).
    destruct (lookup_lt_is_Some_2 _ _ Hlt) as [b Hb].
    rewrite (bind_run _ _ _ _ _ (getb_run _ _ _ Hb)), Hb.
    destruct (f b); [done|]. cbn [length] in Hlen. cbn [rev] in Hs.
    assert (b_prev b = default bhead (head l) ∧ seg (k_bufs s) (bhead :: rev l)) as [-> Hs'].
    { destruct l as [|c l]; cbn [rev app head default] in *.
      - rewrite seg_cons in Hs. unfold pv in Hs. rewrite Hb in Hs. by destruct Hs as (_ & ? & _).
      - assert (bhead :: (rev l ++ [c]) ++ [i] = (bhead :: rev l) ++ c :: [i]) as E
          by (cbn; by rewrite <- app_assoc).
        rewrite E in Hs. rewrite seg_app, seg_cons in Hs. unfold pv in Hs. rewrite Hb in Hs.
        by destruct Hs as (? & _ & ? & _). }
    apply IH; [done|intros; apply Hl; memb|lia].
Qed.
