(* ===== verification/Cache.v ===== *)
(** * The buffer cache, bio.c

    What [bread], [bwrite], [brelse], [bpin] and [bunpin] promise to the log and the
    file system: the cache shows one array of blocks [V], of which the caller holds the
    blocks [H], and which the disk agrees with except at held or pinned blocks.  The
    calls run to their end, with the disk requests completed as in [DiskIo]. *)
From Stdlib Require Import ZArith Lia.
From stdpp Require Import base list gmap numbers strings.
From S2P Require Import Prelude Machine Bytes State Kalloc Sched Virtio DiskIo Bio Lru.
Local Open Scope Z_scope.
Local Open Scope kernel_scope.

Implicit Types (B : list buf) (h : list lockid) (s : kstate).

(** ** Runs of the operations on buffers *)

(** States that differ from [s] in the buffers, the locks and the processes. *)
Definition bst B h (l : list proc) s : kstate :=
  set_k_bufs B (set_k_held h (set_k_procs l s)).

Lemma bst_id s : s = bst (k_bufs s) (k_held s) (k_procs s) s.
Proof. by destruct s. Qed.

Section bst.
Context {A : Type}.
Implicit Types k : unit → K A.
Lemma modb_bst i f B h l s k : bind (modb i f) k (bst B h l s) = k tt (bst (alter f i B) h l s).
Proof. done. Qed.
Lemma getb_bst i b B h l s (k : buf → K A) :
  B !! i = Some b → bind (getb i) k (bst B h l s) = k b (bst B h l s).
Proof. intros H. apply (bind_run (getb i)), getb_run, H. Qed.
Lemma me_bst me p B h l s (k : nat → proc → K A) :
  cur s = Some me → l !! me = Some p →
  (me ← myproc; p ← getp me; k me p) (bst B h l s) = k me p (bst B h l s).
Proof.
  intros Hc Hp. rewrite (bind_run _ _ _ _ _ (myproc_run (bst B h l s) me Hc)).
  by rewrite (bind_run _ _ _ _ _ (getp_run (bst B h l s) me p Hp)).
Qed.
Lemma acquire_bst lk B h l s k :
  lk ∉ h → bind (acquire lk) k (bst B h l s) = k tt (bst B (lk :: h) l s).
Proof. intros H. rewrite (bind_run _ _ _ _ _ (acquire_run lk (bst B h l s) H)). f_equal. Qed.
Lemma release_bst lk B h l s k :
  bind (release lk) k (bst B (lk :: h) l s) = k tt (bst B h l s).
Proof. rewrite (bind_run _ _ _ _ _ (release_run lk h (bst B (lk :: h) l s) eq_refl)). f_equal. Qed.
Lemma wakeup_bst ch B h l s k me :
  length l = NPROC → cur s = Some me → (∀ i, LProc i ∉ h) →
  bind (wakeup ch) k (bst B h l s) = k tt (bst B h (imap (wake_slot (Some me) ch) l) s).
Proof.
  intros Hl Hc Hp. rewrite (bind_run _ _ _ _ _ (wakeup_run ch (bst B h l s) Hl (λ i _, Hp i))).
  change (cur (bst B h l s)) with (cur s). rewrite Hc. f_equal.
Qed.
End bst.
Lemma release_end_bst lk B h l s : release lk (bst B (lk :: h) l s) = Ret tt (bst B h l s).
Proof. apply (release_run lk h), eq_refl. Qed.

Lemma alter_insert f i b B : (i < length B)%nat → alter f i (<[i := b]> B) = <[i := f b]> B.
Proof.
  intros H. erewrite list_alter_insert by (by apply list_lookup_insert_eq).
  by rewrite list_insert_insert_eq.
Qed.

Definition lock_buf (pid : Z) (b : buf) : buf := set_b_lock (mkSleeplock true pid) b.
Definition unlock_buf (b : buf) : buf := set_b_lock (mkSleeplock false 0) b.

Section runs.
Context {F : Fuel}.

Lemma acquiresleep_run me p i b B h l s :
  B !! i = Some b → sl_locked (b_lock b) = false → cur s = Some me → l !! me = Some p →
  LSleep (SlBuf i) ∉ h →
  acquiresleep (SlBuf i) (bst B h l s) = Ret tt (bst (<[i := lock_buf (p_pid p) b]> B) h l s).
Proof.
  intros Hb Hl Hc Hp Hh. assert (i < length B)%nat by eauto using lookup_lt_Some.
  unfold acquiresleep. rewrite acquire_bst by done.
  unfold sleep_loop. cbn [loop].
  erewrite bind_run; cycle 1.
  { erewrite bind_run; cycle 1.
    { erewrite bind_run; cycle 1.
      { cbn [getsl]. rewrite (getb_bst i b) by done. reflexivity. }
      rewrite Hl. reflexivity. }
    reflexivity. }
  cbn [modsl]. rewrite modb_bst, (list_alter_insert _ _ i b) by done.
  rewrite (me_bst me p) by done.
  rewrite modb_bst, alter_insert, release_end_bst by done. f_equal.
Qed.

Lemma releasesleep_run me i b B h l s :
  B !! i = Some b → cur s = Some me → length l = NPROC →
  LSleep (SlBuf i) ∉ h → (∀ j, LProc j ∉ h) →
  releasesleep (SlBuf i) (bst B h l s) =
  Ret tt (bst (<[i := unlock_buf b]> B) h (imap (wake_slot (Some me) (ChSleep (SlBuf i))) l) s).
Proof.
  intros Hb Hc Hl Hh Hp. assert (i < length B)%nat by eauto using lookup_lt_Some.
  unfold releasesleep. rewrite acquire_bst by done. cbn [modsl].
  rewrite modb_bst, (list_alter_insert _ _ i b), modb_bst, alter_insert by done.
  rewrite (wakeup_bst _ _ _ _ _ _ me), release_end_bst; try done.
  intros j. rewrite not_elem_of_cons. by split.
Qed.

Lemma holdingsleep_run me p i b B h l s :
  B !! i = Some b → b_lock b = mkSleeplock true (p_pid p) → cur s = Some me → l !! me = Some p →
  LSleep (SlBuf i) ∉ h →
  holdingsleep (SlBuf i) (bst B h l s) = Ret true (bst B h l s).
Proof.
  intros Hb Hl Hc Hp Hh. unfold holdingsleep. rewrite acquire_bst by done. cbn [getsl].
  erewrite bind_run; [|rewrite (getb_bst i b) by done; reflexivity].
  rewrite Hl. cbn [sl_locked sl_pid].
  erewrite bind_run; cycle 1.
  { rewrite (me_bst me p) by done.
    rewrite Z.eqb_refl. reflexivity. }
  by rewrite release_bst.
Qed.

(** [bget]: a hit on slot [i], a recycled slot [i], or no buffer left. *)
Definition is_block (dev bn : Z) (b : buf) : bool := (b_dev b =? dev) && (b_blockno b =? bn).
Definition is_free (b : buf) : bool := b_refcnt b =? 0.
Definition recycle (dev bn : Z) (b : buf) : buf :=
  set_b_refcnt 1 (set_b_valid false (set_b_blockno bn (set_b_dev dev b))).
Definition share (b : buf) : buf := set_b_refcnt (u32 (b_refcnt b + 1)) b.

Lemma scans_run o h l s B :
  lru B o → ∃ hd, B !! bhead = Some hd ∧
  ∀ f, scan_next (S NBUF) f (b_next hd) (bst B h l s) = Ret (first_buf f B o) (bst B h l s) ∧
       scan_prev (S NBUF) f (b_prev hd) (bst B h l s) = Ret (first_buf f B (rev o)) (bst B h l s).
Proof.
  intros Ho. destruct (lookup_lt_is_Some_2 B bhead) as [hd Hhd].
  { rewrite (lru_len _ _ Ho). unfold bhead. lia. }
  pose proof (lru_nodup _ _ Ho) as Hnd. apply list.NoDup_cons in Hnd as [Hnd _].
  assert (length o = NBUF) as Hlen by (rewrite (lru_perm _ _ Ho); apply length_seq).
  pose proof (lru_seg _ _ Ho) as Hs. exists hd. split; [done|]. intros f. split.
  - assert (b_next hd = default bhead (head o)) as ->.
    { destruct o as [|x o]; cbn in Hs; destruct Hs as [Hs _]; unfold nx in Hs; by rewrite Hhd in Hs. }
    apply scan_next_run.
    + destruct o; [done|]. apply Hs.
    + intros j Hj. split; [by intros ->|]. apply (lru_lt _ _ _ Ho). by apply elem_of_cons; right.
    + rewrite Hlen. lia.
  - assert (b_prev hd = default bhead (head (rev o))) as ->.
    { rewrite <- (rev_involutive o) in Hs. destruct (rev o) as [|x r]; cbn [rev app] in Hs.
      - rewrite seg_cons in Hs. destruct Hs as (_ & Hs & _). unfold pv in Hs. by rewrite Hhd in Hs.
      - rewrite <- app_assoc in Hs. change (bhead :: rev r ++ [x] ++ [bhead]) with
          ((bhead :: rev r) ++ x :: [bhead]) in Hs. rewrite seg_app, seg_cons in Hs.
        destruct Hs as (_ & _ & Hs & _). unfold pv in Hs. by rewrite Hhd in Hs. }
    apply scan_prev_run.
    + rewrite rev_involutive. change (bhead :: o ++ [bhead]) with ((bhead :: o) ++ [bhead]) in Hs.
      change (k_bufs (bst B h l s)) with B. clear - Hs.
      destruct (list_snoc_ne bhead o) as (l' & y & E). rewrite E, <- app_assoc in Hs. cbn in Hs.
      rewrite seg_app in Hs. rewrite E. apply Hs.
    + intros j Hj. apply list_elem_of_In, in_rev, list_elem_of_In in Hj.
      split; [by intros ->|]. apply (lru_lt _ _ _ Ho). by apply elem_of_cons; right.
    + rewrite length_rev, Hlen. lia.
Qed.

Lemma bget_hit_run me p dev bn i b B o l s :
  lru B o → first_buf (is_block dev bn) B o = Some i → B !! i = Some b →
  sl_locked (b_lock b) = false → cur s = Some me → l !! me = Some p →
  bget dev bn (bst B [] l s) = Ret i (bst (<[i := lock_buf (p_pid p) (share b)]> B) [] l s).
Proof.
  intros Ho Hf Hb Hl Hc Hp. assert (i < length B)%nat by eauto using lookup_lt_Some.
  destruct (scans_run o [LBcache] l s B Ho) as (hd & Hhd & Hscan). unfold bget.
  rewrite acquire_bst by apply not_elem_of_nil. rewrite (getb_bst bhead hd) by done.
  rewrite (bind_run _ _ _ _ _ (proj1 (Hscan _))). fold (is_block dev bn). rewrite Hf.
  rewrite modb_bst, release_bst, (list_alter_insert _ _ i b) by done.
  erewrite bind_run; [reflexivity|].
  rewrite (acquiresleep_run me p i (share b)); try done.
  - by rewrite list_insert_insert_eq.
  - by apply list_lookup_insert_eq.
  - apply not_elem_of_nil.
Qed.

Lemma bget_recycle_run me p dev bn i b B o l s :
  lru B o → first_buf (is_block dev bn) B o = None → first_buf is_free B (rev o) = Some i →
  B !! i = Some b → sl_locked (b_lock b) = false → cur s = Some me → l !! me = Some p →
  bget dev bn (bst B [] l s) = Ret i (bst (<[i := lock_buf (p_pid p) (recycle dev bn b)]> B) [] l s).
Proof.
  intros Ho Hf Hg Hb Hl Hc Hp. assert (i < length B)%nat by eauto using lookup_lt_Some.
  destruct (scans_run o [LBcache] l s B Ho) as (hd & Hhd & Hscan). unfold bget.
  rewrite acquire_bst by apply not_elem_of_nil. rewrite (getb_bst bhead hd) by done.
  rewrite (bind_run _ _ _ _ _ (proj1 (Hscan _))). fold (is_block dev bn). rewrite Hf.
  rewrite (bind_run _ _ _ _ _ (proj2 (Hscan _))). fold is_free. rewrite Hg.
  rewrite modb_bst, (list_alter_insert _ _ i b) by done. rewrite !modb_bst, !alter_insert by done.
  rewrite release_bst. erewrite bind_run; [reflexivity|].
  rewrite (acquiresleep_run me p i (recycle dev bn b)); try done.
  - by rewrite list_insert_insert_eq.
  - by apply list_lookup_insert_eq.
  - apply not_elem_of_nil.
Qed.

Lemma bget_full_run dev bn B o l s :
  lru B o → first_buf (is_block dev bn) B o = None → first_buf is_free B (rev o) = None →
  bget dev bn (bst B [] l s) = Panic "bget: no buffers" (bst B [LBcache] l s).
Proof.
  intros Ho Hf Hg. destruct (scans_run o [LBcache] l s B Ho) as (hd & Hhd & Hscan). unfold bget.
  rewrite acquire_bst by apply not_elem_of_nil. rewrite (getb_bst bhead hd) by done.
  rewrite (bind_run _ _ _ _ _ (proj1 (Hscan _))). fold (is_block dev bn). rewrite Hf.
  rewrite (bind_run _ _ _ _ _ (proj2 (Hscan _))). fold is_free. by rewrite Hg.
Qed.

(** [brelse] of a locked buffer, and the move to the front when it was the last use. *)
Definition unshare (b : buf) : buf := set_b_refcnt (u32 (b_refcnt b - 1)) b.
Definition released (i : nat) (b : buf) B : list buf :=
  let B' := <[i := unshare (unlock_buf b)]> B in
  if is_free (unshare b) then move_front i B' else B'.

Lemma links_lookup i B : (i < length B)%nat → ∃ b, B !! i = Some b ∧ b_next b = nx B i ∧ b_prev b = pv B i.
Proof.
  intros Hi. destruct (lookup_lt_is_Some_2 B i Hi) as [b Hb]. exists b. unfold nx, pv. by rewrite Hb.
Qed.

Lemma relink_run i b B h l s :
  length B = S NBUF → (i < NBUF)%nat → B !! i = Some b →
  (modb (b_next b) (set_b_prev (b_prev b)) ;;
   b ← getb i;
   modb (b_prev b) (set_b_next (b_next b)) ;;
   list_push i ;;
   list_link i) (bst B h l s) = Ret tt (bst (move_front i B) h l s).
Proof.
  intros HB Hi Hb. rewrite modb_bst.
  assert (b_next b = nx B i ∧ b_prev b = pv B i) as [-> ->] by (unfold nx, pv; by rewrite Hb).
  set (B1 := alter _ (nx B i) B). assert (length B1 = S NBUF) as HB1 by (unfold B1; by rewrite length_alter).
  destruct (links_lookup i B1) as (b1 & Hb1 & En & Ep); [lia|].
  assert (nx B1 i = nx B i ∧ pv B1 i = pv B i) as [En' Ep'].
  { unfold B1. rewrite nx_set_prev. split; [done|]. destruct (decide (nx B i < length B)%nat).
    - rewrite pv_set_prev by done. by case_decide.
    - rewrite pv_alter. case_decide as E; [|done]. rewrite E in *. lia. }
  rewrite (getb_bst i b1) by done. rewrite modb_bst, En, Ep, En', Ep'.
  change (alter _ _ B1) with (unlink i B).
  assert (length (unlink i B) = S NBUF) as HU by (by rewrite length_unlink).
  set (U := unlink i B) in *. unfold move_front. fold U. clearbody U. clear - HU Hi.
  destruct (links_lookup bhead U) as (hd & Hhd & En & _); [unfold bhead; lia|].
  unfold list_push, list_link.
  erewrite bind_run; [|rewrite (getb_bst bhead hd) by done; rewrite !modb_bst; reflexivity].
  assert (i ≠ bhead) by (unfold bhead; lia).
  rewrite (getb_bst bhead hd) by (by rewrite !list_lookup_alter_ne). rewrite En. reflexivity.
Qed.

Lemma brelse_run me p i b B l s :
  B !! i = Some b → (i < NBUF)%nat → length B = S NBUF →
  b_lock b = mkSleeplock true (p_pid p) → cur s = Some me → l !! me = Some p → length l = NPROC →
  ∃ l', quiet me l l' ∧ brelse i (bst B [] l s) = Ret tt (bst (released i b B) [] l' s).
Proof.
  intros Hb Hi HB Hl Hc Hp Hlen. assert (i < length B)%nat by eauto using lookup_lt_Some.
  eexists. split; [apply (quiet_wake me (ChSleep (SlBuf i)))|]. unfold brelse.
  rewrite (bind_run _ _ _ _ _ (holdingsleep_run me p i b B [] l s Hb Hl Hc Hp (not_elem_of_nil _))).
  cbn [negb].
  rewrite (bind_run _ _ _ _ _ (releasesleep_run me i b B [] l s Hb Hc Hlen (not_elem_of_nil _)
    (λ j, not_elem_of_nil _))).
  rewrite acquire_bst by apply not_elem_of_nil. rewrite modb_bst, alter_insert by done.
  change (set_b_refcnt _ (unlock_buf b)) with (unshare (unlock_buf b)). unfold released.
  set (B' := <[i := unshare (unlock_buf b)]> B).
  assert (B' !! i = Some (unshare (unlock_buf b))) as Hb' by (by apply list_lookup_insert_eq).
  assert (length B' = S NBUF) as HB' by (by unfold B'; rewrite length_insert).
  rewrite (getb_bst i _ _ _ _ _ _ Hb'). change (b_refcnt (unshare (unlock_buf b)) =? 0) with (is_free (unshare b)).
  destruct (is_free (unshare b)); cbn [whenM]; [|by rewrite bind_ret_l, release_end_bst].
  rewrite (bind_run _ _ _ _ _ (relink_run i _ B' _ _ _ HB' Hi Hb')), release_end_bst. done.
Qed.
End runs.

(** ** The cache as an array of blocks *)

Definition held_ref (H : gmap Z nat) (bn : Z) : Z := if H !! bn then 1 else 0.

(** A buffer of device 1 shows its block; one of device 0 was never used.  [H] are the
    blocks locked by the caller, whose pid is [pid], with their slots; [P] counts the
    pins of each block. *)
Definition buf_ok (pid : Z) (H : gmap Z nat) (P : Z → Z) (V : Z → list Z) (i : nat) (b : buf) : Prop :=
  b_disk b = false ∧
  (b_dev b = 0 ∧ b_refcnt b = 0 ∧ sl_locked (b_lock b) = false
   ∨ b_dev b = 1 ∧ 0 ≤ b_blockno b < 2 ^ 31 ∧ b_valid b = true ∧ b_data b = V (b_blockno b) ∧
     b_refcnt b = held_ref H (b_blockno b) + P (b_blockno b) ∧
     match H !! b_blockno b with
     | Some j => j = i ∧ b_lock b = mkSleeplock true pid
     | None => sl_locked (b_lock b) = false
     end).

Definition caches B (bn : Z) (i : nat) : Prop :=
  (i < NBUF)%nat ∧ ∃ b, B !! i = Some b ∧ b_dev b = 1 ∧ b_blockno b = bn.

Record bufs_ok (pid : Z) (H : gmap Z nat) (P : Z → Z) (V : Z → list Z)
    (d : gmap Z (list Z)) B : Prop := {
  bo_lru : ∃ o, lru B o;
  bo_buf : ∀ i b, (i < NBUF)%nat → B !! i = Some b → buf_ok pid H P V i b;
  bo_uniq : ∀ bn i j, caches B bn i → caches B bn j → i = j;
  bo_held : ∀ bn i, H !! bn = Some i → caches B bn i;
  bo_pins : ∀ bn, 0 ≤ P bn < 2 ^ 31 ∧ (P bn ≠ 0 → ∃ i, caches B bn i);
  bo_clean : ∀ bn, H !! bn = None → P bn = 0 → V bn = block_data d bn;
  bo_len : ∀ bn, length (V bn) = 1024%nat;
}.

(** Between two calls of process [me] on the cache. *)
Record cache (me : nat) (H : gmap Z nat) (P : Z → Z) (V : Z → list Z) s : Prop := {
  ca_run : running me s;
  ca_lock : k_held s = [];
  ca_drv : drv_idle (k_vd s);
  ca_bufs : ∀ p, k_procs s !! me = Some p → bufs_ok (p_pid p) H P V (k_disk s) (k_bufs s);
}.

(** What may change in a call: the buffers, the disk, the driver's tables, and other
    processes being woken up. *)
Definition bio B d w v l s : kstate :=
  set_k_bufs B (set_k_disk d (set_k_dwrites w (set_k_vd v (set_k_procs l s)))).
Definition bstep (me : nat) s s' : Prop :=
  ∃ B d w v l, s' = bio B d w v l s ∧ quiet me (k_procs s) l.

Lemma bstep_refl me s : bstep me s s.
Proof.
  exists (k_bufs s), (k_disk s), (k_dwrites s), (k_vd s), (k_procs s). split; [|apply quiet_refl].
  by destruct s.
Qed.
Lemma bstep_trans me s1 s2 s3 : bstep me s1 s2 → bstep me s2 s3 → bstep me s1 s3.
Proof.
  intros (B & d & w & v & l & -> & Hq) (B' & d' & w' & v' & l' & -> & Hq').
  exists B', d', w', v', l'. split; [unfold bio; kstate_eq|]. by eapply quiet_trans.
Qed.
Lemma bstep_log me s s' : bstep me s s' → k_log s' = k_log s.
Proof. by intros (? & ? & ? & ? & ? & -> & _). Qed.

(** ** Pigeonholes *)

Lemma bufs_lookup pid H P V d B i :
  bufs_ok pid H P V d B → (i < NBUF)%nat → ∃ b, B !! i = Some b.
Proof.
  intros [[o Ho] _ _ _ _ _ _] Hi. destruct (lookup_lt_is_Some_2 B i) as [b Hb]; [|eauto].
  rewrite (lru_len _ _ Ho). lia.
Qed.

(** When fewer than [NBUF] blocks are held or pinned, a buffer is free. *)
Lemma bufs_free pid H P V d B (L : list Z) :
  bufs_ok pid H P V d B → (∀ bn, is_Some (H !! bn) ∨ P bn ≠ 0 → bn ∈ L) → (length L < NBUF)%nat →
  ∃ i b, (i < NBUF)%nat ∧ B !! i = Some b ∧ b_refcnt b = 0.
Proof.
  intros HB HL Hlen.
  destruct (decide (Exists (λ i, is_free <$> B !! i = Some true) (seq 0 NBUF))) as [Hex|Hex].
  { apply Exists_exists in Hex as (i & Hi & Hf). apply elem_of_seq in Hi.
    destruct (B !! i) as [b|] eqn:Hb; [|done]. exists i, b. split_and!; [lia|done|].
    injection Hf as Hf. by apply Z.eqb_eq. }
  exfalso. set (bns := (λ i, default 0 (b_blockno <$> B !! i)) <$> seq 0 NBUF).
  assert (∀ i, (i < NBUF)%nat → ∃ b, B !! i = Some b ∧ b_dev b = 1 ∧ b_blockno b ∈ L) as Hall.
  { intros i Hi. destruct (bufs_lookup _ _ _ _ _ _ i HB Hi) as [b Hb]. exists b. split; [done|].
    assert (b_refcnt b ≠ 0) as Hr.
    { intros Hr. apply Hex, Exists_exists. exists i. split; [apply elem_of_seq; lia|].
      rewrite Hb. cbn. unfold is_free. by rewrite Hr. }
    destruct (bo_buf _ _ _ _ _ _ HB i b Hi Hb) as (_ & [(_ & ? & _)|(Hdev & _ & _ & _ & Href & _)]); [done|].
    split; [done|]. apply HL. unfold held_ref in Href.
    destruct (H !! b_blockno b); [left; eauto|right; lia]. }
  assert (NoDup bns) as Hnd.
  { apply NoDup_fmap_2_strong; [|apply NoDup_seq]. intros i j Hi%elem_of_seq Hj%elem_of_seq E.
    destruct (Hall i ltac:(lia)) as (b & Hb & Hbd & _). destruct (Hall j ltac:(lia)) as (c & Hc & Hcd & _).
    rewrite Hb, Hc in E. cbn in E. apply (bo_uniq _ _ _ _ _ _ HB (b_blockno b)); (split; [lia|]); eauto. }
  assert (length bns ≤ length L)%nat as Hle.
  { apply submseteq_length, NoDup_submseteq; [done|]. intros bn (i & -> & Hi)%list_elem_of_fmap.
    apply elem_of_seq in Hi. destruct (Hall i ltac:(lia)) as (b & Hb & _ & HbL). by rewrite Hb. }
  unfold bns in Hle. rewrite length_fmap, length_seq in Hle. lia.
Qed.

Lemma first_block pid H P V d B o bn :
  bufs_ok pid H P V d B → lru B o →
  match first_buf (is_block 1 bn) B o with
  | Some i => caches B bn i
  | None => ∀ i, ¬ caches B bn i
  end.
Proof.
  intros HB Ho. destruct (first_buf (is_block 1 bn) B o) as [i|] eqn:E.
  - apply first_buf_Some in E as (o1 & o2 & b & -> & Hb & Hf & _). unfold is_block in Hf. split.
    + apply (lru_elem _ _ _ Ho). memb.
    + exists b. split; [done|]. lia.
  - intros i (Hi & b & Hb & Hd & Hbn).
    assert (is_block 1 bn b = false) as Hf; [|unfold is_block in Hf; lia].
    apply (first_buf_None _ B o) with i; [|done|by apply (lru_elem _ _ _ Ho)|done].
    intros j Hj. apply (lru_lt _ _ _ Ho), elem_of_cons. by right.
Qed.

(** ** Changing one buffer *)

Lemma lru_insert B o i b b' :
  lru B o → B !! i = Some b → b_next b' = b_next b → b_prev b' = b_prev b → lru (<[i := b']> B) o.
Proof.
  intros [H1 H2 H3] Hb Hn Hp. assert (i < length B)%nat by eauto using lookup_lt_Some.
  split; [by rewrite length_insert| |done].
  change (bhead :: o ++ [bhead]) with ((bhead :: o) ++ [bhead]) in *.
  apply (seg_frame B); [done| |]; intros y _; unfold nx, pv;
    (rewrite list_lookup_insert_full by done; case_decide; [subst y; by rewrite Hb; cbn; congruence|done]).
Qed.

Lemma caches_insert B i b b' bn j :
  B !! i = Some b → (i < NBUF)%nat → b_dev b' = 1 →
  caches (<[i := b']> B) bn j ↔ (j = i ∧ b_blockno b' = bn ∨ j ≠ i ∧ caches B bn j).
Proof.
  intros Hb Hi Hd. assert (i < length B)%nat by eauto using lookup_lt_Some. unfold caches.
  rewrite list_lookup_insert_full by done. case_decide as E.
  - subst j. split.
    + intros (_ & c & [= <-] & _ & Hc). by left.
    + intros [[_ Hc]|[]]; [|done]. eauto.
  - split; [by right|]. intros [[]|[_ ?]]; done.
Qed.

Lemma buf_ok_ext pid H P V H' P' V' i b :
  (b_dev b = 1 → H' !! b_blockno b = H !! b_blockno b ∧ P' (b_blockno b) = P (b_blockno b) ∧
     V' (b_blockno b) = V (b_blockno b)) →
  buf_ok pid H P V i b → buf_ok pid H' P' V' i b.
Proof.
  intros Hext (Hd & [?|(H1 & H2 & H3 & H4 & H5 & H6)]); (split; [done|]); [by left|].
  destruct (Hext H1) as (E1 & E2 & E3). right. unfold held_ref. rewrite E1, E2, E3. done.
Qed.

(** Slot [i] gets the contents [b'] for block [bn]: it showed [bn] before, or it was
    free and nothing showed [bn]. *)
Lemma bufs_update pid H P V d B i b b' bn H' P' V' d' :
  bufs_ok pid H P V d B → (i < NBUF)%nat → B !! i = Some b →
  b_next b' = b_next b → b_prev b' = b_prev b →
  b_dev b' = 1 → b_blockno b' = bn → buf_ok pid H' P' V' i b' →
  (caches B bn i ∨ b_refcnt b = 0 ∧ ∀ j, ¬ caches B bn j) →
  (∀ x, x ≠ bn → H' !! x = H !! x ∧ P' x = P x ∧ V' x = V x ∧ block_data d' x = block_data d x) →
  0 ≤ P' bn < 2 ^ 31 → (H' !! bn = None → P' bn = 0 → V' bn = block_data d' bn) →
  length (V' bn) = 1024%nat →
  bufs_ok pid H' P' V' d' (<[i := b']> B).
Proof.
  intros [[o Ho] Hbuf Huniq Hheld Hpins Hclean Hvlen] Hi Hb Hn Hp Hd Hbn Hok Hold Hext HP Hcl HV.
  assert (i < length B)%nat as Hil by eauto using lookup_lt_Some.
  assert (∀ j c, j ≠ i → caches B c j → c ≠ bn) as Hne.
  { intros j c Hj Hc ->. destruct Hold as [Hold|[_ Hold]]; [|by apply (Hold j)]. apply Hj. by apply (Huniq bn). }
  assert (∀ x j, x ≠ bn → is_Some (H !! x) ∨ P x ≠ 0 → caches B x j → j ≠ i) as Hoth.
  { intros x j Hx Huse Hj ->. destruct Hold as [(_ & c & Hc & _ & Hcb)|[Hr Hnot]].
    - destruct Hj as (_ & c' & Hc' & _ & Hcb'). congruence.
    - destruct Hj as (_ & c & Hc & Hcd & Hcb). assert (c = b) as -> by congruence.
      destruct (Hbuf i b Hi Hb) as (_ & [(Hd0 & _)|(_ & _ & _ & _ & Href & _)]); [congruence|].
      rewrite Hr, Hcb in Href. unfold held_ref in Href. pose proof (proj1 (Hpins x)).
      destruct (H !! x); [lia|]. destruct Huse as [[]|]; [done|lia]. }
  split.
  - exists o. by eapply lru_insert.
  - intros j c Hj Hc. rewrite list_lookup_insert_full in Hc by done. case_decide as E.
    { injection Hc as <-. by subst j. }
    apply (buf_ok_ext pid H P V); [|by apply Hbuf]. intros Hcd.
    destruct (Hext (b_blockno c)) as (? & ? & ? & _); [|done]. apply (Hne j); [done|]. split; eauto.
  - intros x j k. rewrite !(caches_insert B i b b') by done. rewrite Hbn.
    intros [[-> <-]|[Hj Hcj]] [[-> Hx]|[Hk Hck]]; try done.
    + by destruct (Hne k bn Hk).
    + by destruct (Hne j x Hj).
    + by apply (Huniq x).
  - intros x j Hx. rewrite (caches_insert B i b b') by done. rewrite Hbn. destruct (decide (x = bn)) as [->|Hxb].
    { left. split; [|done]. destruct Hok as (_ & [(? & _)|(_ & _ & _ & _ & _ & Hm)]); [congruence|].
      rewrite Hbn, Hx in Hm. apply Hm. }
    destruct (Hext x Hxb) as (Ex & _). rewrite Ex in Hx. right. split; [|by apply Hheld].
    apply (Hoth x); [done|left; by exists j|by apply Hheld].
  - intros x. destruct (decide (x = bn)) as [->|Hxb].
    { split; [done|]. intros _. exists i. rewrite (caches_insert B i b b') by done. by left. }
    destruct (Hext x Hxb) as (_ & Ex & _). rewrite Ex. split; [apply Hpins|]. intros Hx.
    destruct (proj2 (Hpins x) Hx) as [j Hj]. exists j. rewrite (caches_insert B i b b') by done.
    right. split; [|done]. apply (Hoth x); [done|by right|done].
  - intros x Hx HPx. destruct (decide (x = bn)) as [->|Hxb]; [by apply Hcl|].
    destruct (Hext x Hxb) as (E1 & E2 & E3 & E4). rewrite E1 in Hx. rewrite E2 in HPx.
    rewrite E3, E4. by apply Hclean.
  - intros x. destruct (decide (x = bn)) as [->|Hxb]; [done|].
    destruct (Hext x Hxb) as (_ & _ & -> & _). apply Hvlen.
Qed.

Definition put (V : Z → list Z) (bn : Z) (x : list Z) : Z → list Z :=
  λ c, if decide (c = bn) then x else V c.
Definition repin (P : Z → Z) (bn n : Z) : Z → Z := λ c, if decide (c = bn) then n else P c.

Lemma put_eq V bn x : put V bn x bn = x.
Proof. unfold put. by rewrite decide_True. Qed.
Lemma put_ne V bn x c : c ≠ bn → put V bn x c = V c.
Proof. intros. unfold put. by rewrite decide_False. Qed.
Lemma repin_eq P bn n : repin P bn n bn = n.
Proof. unfold repin. by rewrite decide_True. Qed.
Lemma repin_ne P bn n c : c ≠ bn → repin P bn n c = P c.
Proof. intros. unfold repin. by rewrite decide_False. Qed.

Lemma block_data_insert d bn x : block_data (<[bn := x]> d) bn = x.
Proof. unfold block_data. by rewrite lookup_insert_eq. Qed.
Lemma block_data_insert_ne d bn x c : c ≠ bn → block_data (<[bn := x]> d) c = block_data d c.
Proof. intros. unfold block_data. by rewrite lookup_insert_ne by done. Qed.

(** The buffer of a held block. *)
Record held_buf (pid bn : Z) (P : Z → Z) (V : Z → list Z) (b : buf) : Prop := {
  hb_dev : b_dev b = 1;
  hb_bn : b_blockno b = bn;
  hb_range : 0 ≤ bn < 2 ^ 31;
  hb_valid : b_valid b = true;
  hb_data : b_data b = V bn;
  hb_ref : b_refcnt b = 1 + P bn;
  hb_lock : b_lock b = mkSleeplock true pid;
  hb_disk : b_disk b = false;
}.

Section transitions.
Context (pid : Z) (H : gmap Z nat) (P : Z → Z) (V : Z → list Z) (d : gmap Z (list Z)).

Lemma held_lookup B bn i :
  bufs_ok pid H P V d B → H !! bn = Some i →
  (i < NBUF)%nat ∧ ∃ b, B !! i = Some b ∧ held_buf pid bn P V b.
Proof.
  intros HB Hi. destruct (bo_held _ _ _ _ _ _ HB _ _ Hi) as (Hlt & b & Hb & Hd & Hbn).
  split; [done|]. exists b. split; [done|].
  destruct (bo_buf _ _ _ _ _ _ HB i b Hlt Hb) as (Hdk & [(? & _)|(_ & Hr & Hv & Hdat & Href & Hl)]); [congruence|].
  rewrite Hbn in *. unfold held_ref in Href. rewrite Hi in *. destruct Hl as [_ Hl]. by split.
Qed.

Lemma bufs_hit B bn i b :
  bufs_ok pid H P V d B → H !! bn = None → caches B bn i → B !! i = Some b →
  bufs_ok pid (<[bn := i]> H) P V d (<[i := lock_buf pid (share b)]> B).
Proof.
  intros HB Hbn Hc Hb. pose proof Hc as (Hi & b' & Hb' & Hd & Hbb). assert (b' = b) as -> by congruence.
  pose proof (bo_pins _ _ _ _ _ _ HB bn) as [HP _].
  destruct (bo_buf _ _ _ _ _ _ HB i b Hi Hb) as (Hdk & [(? & _)|(_ & Hr & Hv & Hdat & Href & Hl)]); [congruence|].
  rewrite Hbb in *. unfold held_ref in Href. rewrite Hbn in Href.
  apply (bufs_update pid H P V d B i b _ bn); try done.
  - split; [done|]. right. cbn. rewrite Hbb. unfold held_ref. rewrite lookup_insert_eq.
    split_and!; try done; try lia. rewrite Href, u32_small; lia.
  - by left.
  - intros x Hx. by rewrite lookup_insert_ne by done.
  - by rewrite lookup_insert_eq.
  - apply (bo_len _ _ _ _ _ _ HB).
Qed.

Lemma bufs_recycle B bn i b :
  bufs_ok pid H P V d B → H !! bn = None → (∀ j, ¬ caches B bn j) → (i < NBUF)%nat →
  B !! i = Some b → b_refcnt b = 0 → 0 ≤ bn < 2 ^ 31 →
  bufs_ok pid (<[bn := i]> H) P V d
    (<[i := set_b_valid true (set_b_data (block_data d bn) (lock_buf pid (recycle 1 bn b)))]> B).
Proof.
  intros HB Hbn Hnot Hi Hb Href Hr. pose proof (bo_pins _ _ _ _ _ _ HB bn) as [HP HP0].
  assert (P bn = 0) as HPbn.
  { destruct (decide (P bn = 0)) as [|Hne]; [done|]. destruct (HP0 Hne) as [j Hj]. by destruct (Hnot j). }
  apply (bufs_update pid H P V d B i b _ bn); try done.
  - split; [apply (bo_buf _ _ _ _ _ _ HB i b Hi Hb)|]. right. cbn. unfold held_ref. rewrite lookup_insert_eq.
    split_and!; try done; try lia. symmetry. by apply (bo_clean _ _ _ _ _ _ HB).
  - by right.
  - intros x Hx. by rewrite lookup_insert_ne by done.
  - by rewrite lookup_insert_eq.
  - apply (bo_len _ _ _ _ _ _ HB).
Qed.

Lemma held_ok bn i P' V' b' :
  H !! bn = Some i → held_buf pid bn P' V' b' → buf_ok pid H P' V' i b'.
Proof.
  intros Hi [Hd Hbb Hr Hv Hdat Href Hl Hdk]. split; [done|]. right. rewrite Hbb. unfold held_ref.
  rewrite Hi. split_and!; try done; lia.
Qed.

(** The owner of a held block changes its data, its pins or its copy on the disk. *)
Lemma bufs_own B bn i b b' P' V' d' :
  bufs_ok pid H P V d B → H !! bn = Some i → B !! i = Some b →
  b_next b' = b_next b → b_prev b' = b_prev b → held_buf pid bn P' V' b' →
  (∀ x, x ≠ bn → P' x = P x ∧ V' x = V x ∧ block_data d' x = block_data d x) →
  0 ≤ P' bn < 2 ^ 31 → length (V' bn) = 1024%nat →
  bufs_ok pid H P' V' d' (<[i := b']> B).
Proof.
  intros HB Hi Hb Hn Hp Hok Hext HP' HV'.
  apply (bufs_update pid H P V d B i b b' bn); try done.
  - by apply (held_lookup B bn i HB Hi).
  - apply Hok.
  - apply Hok.
  - by apply (held_ok bn).
  - left. by apply (bo_held _ _ _ _ _ _ HB).
  - intros x Hx. split; [done|]. by apply Hext.
  - congruence.
Qed.

Lemma bufs_release B bn i b :
  bufs_ok pid H P V d B → H !! bn = Some i → B !! i = Some b →
  (P bn ≠ 0 ∨ V bn = block_data d bn) →
  bufs_ok pid (delete bn H) P V d (<[i := unshare (unlock_buf b)]> B).
Proof.
  intros HB Hi Hb Hcl. destruct (held_lookup B bn i HB Hi) as (Hlt & b' & Hb' & Hok).
  assert (b' = b) as -> by congruence. destruct Hok as [Hd Hbb Hr Hv Hdat Href Hl Hdk].
  pose proof (proj1 (bo_pins _ _ _ _ _ _ HB bn)) as HP.
  apply (bufs_update pid H P V d B i b _ bn); try done.
  - split; [done|]. right. cbn. rewrite Hbb. unfold held_ref. rewrite lookup_delete_eq.
    split_and!; try done; try lia. rewrite Href, u32_small; lia.
  - left. by apply (bo_held _ _ _ _ _ _ HB).
  - intros x Hx. by rewrite lookup_delete_ne by done.
  - intros _ HP0. destruct Hcl; [done|congruence].
  - apply (bo_len _ _ _ _ _ _ HB).
Qed.
End transitions.

Lemma same_core_caches B B' bn i : same_core B B' → caches B' bn i → caches B bn i.
Proof.
  intros Hs (Hi & b & Hb & Hd & Hbn). split; [done|].
  destruct (same_core_lookup' _ _ _ _ Hs Hb) as (c & Hc & E). exists c. split; [done|].
  destruct b, c. injection E. cbn in *. intros. by subst.
Qed.
Lemma same_core_caches' B B' bn i : same_core B B' → caches B bn i → caches B' bn i.
Proof. intros Hs. apply same_core_caches. by unfold same_core in *. Qed.

Lemma bufs_relink pid H P V d B i :
  bufs_ok pid H P V d B → (i < NBUF)%nat → bufs_ok pid H P V d (move_front i B).
Proof.
  intros [[o Ho] Hbuf Huniq Hheld Hpins Hclean Hvlen] Hi.
  assert (same_core B (move_front i B)) as Hs
    by (eapply same_core_trans; [apply same_core_unlink|apply same_core_push]).
  split; try done.
  - apply (lru_elem _ _ _ Ho) in Hi. apply list_elem_of_split in Hi as (o1 & o2 & ->).
    exists (i :: o1 ++ o2). by apply lru_move_front.
  - intros j b Hj Hb. destruct (same_core_lookup' _ _ _ _ Hs Hb) as (c & Hc & E).
    specialize (Hbuf j c Hj Hc). destruct b, c. injection E. cbn in *. intros. by subst.
  - intros bn j k Hj Hk. apply (Huniq bn); by apply (same_core_caches B (move_front i B)).
  - intros bn j Hj. by apply (same_core_caches' B), Hheld.
  - intros bn. split; [apply Hpins|]. intros Hbn. destruct (proj2 (Hpins bn) Hbn) as [j Hj].
    exists j. by apply (same_core_caches' B).
Qed.

(** ** The operations on a cache *)

(** The block can be brought in: it is there, or a buffer is free. *)
Definition room (H : gmap Z nat) (P : Z → Z) (s : kstate) (bn : Z) : Prop :=
  (∃ i, caches (k_bufs s) bn i) ∨
  ∃ L : list Z, (∀ x, is_Some (H !! x) ∨ P x ≠ 0 → x ∈ L) ∧ (length L < NBUF)%nat.

Section specs.
Context {F : Fuel} (me : nat).

Lemma cache_me H P V s : cache me H P V s →
  ∃ p, k_procs s !! me = Some p ∧ cur s = Some me ∧ length (k_procs s) = NPROC ∧
    bufs_ok (p_pid p) H P V (k_disk s) (k_bufs s) ∧ s = bst (k_bufs s) [] (k_procs s) s.
Proof.
  intros [[Hc Hl (p & Hp & _)] Hh _ HB]. exists p. split_and!; try done; [by apply HB|].
  rewrite <- Hh. apply bst_id.
Qed.

(** The invariant after a step that keeps the caller and the driver in order. *)
Lemma cache_bio H P V s B d w v l p :
  running me s → k_held s = [] → drv_idle v → quiet me (k_procs s) l → k_procs s !! me = Some p →
  bufs_ok (p_pid p) H P V d B → cache me H P V (bio B d w v l s).
Proof.
  intros Hrun Hh Hv Hq Hp HB. split; [|done|done|].
  - destruct (running_quiet me s l Hrun Hq) as [? ? ?]. by split.
  - intros q Hqp. destruct Hq as (_ & Hme & _). cbn in Hqp. rewrite Hme in Hqp.
    assert (q = p) as -> by congruence. done.
Qed.

Lemma first_free pid H P V d B o (L : list Z) :
  bufs_ok pid H P V d B → lru B o → (∀ x, is_Some (H !! x) ∨ P x ≠ 0 → x ∈ L) → (length L < NBUF)%nat →
  ∃ i b, first_buf is_free B (rev o) = Some i ∧ (i < NBUF)%nat ∧ B !! i = Some b ∧ b_refcnt b = 0.
Proof.
  intros HB Ho HL Hlen. destruct (bufs_free _ _ _ _ _ _ L HB HL Hlen) as (i & b & Hi & Hb & Hr).
  assert (∀ j, j ∈ rev o → j ∈ o) as Hrev.
  { intros j Hj. by apply list_elem_of_In, in_rev, list_elem_of_In in Hj. }
  destruct (first_buf_is_Some is_free B (rev o) i b) as [j Hj].
  - intros j Hj. apply (lru_lt _ _ _ Ho), elem_of_cons. right. by apply Hrev.
  - apply list_elem_of_In, (proj1 (in_rev _ _)), list_elem_of_In. by apply (lru_elem _ _ _ Ho).
  - done.
  - unfold is_free. by rewrite Hr.
  - pose proof (first_buf_Some _ _ _ _ Hj) as (o1 & o2 & c & E & Hc & Hf & _). exists j, c.
    split_and!; [done| |done|by apply Z.eqb_eq]. apply (lru_elem _ _ _ Ho), Hrev. rewrite E. memb.
Qed.

(** The two cases of [bread], whose state after the call is a [bio] of [s]. *)
Lemma bread_hit H P V bn i s :
  cache me H P V s → H !! bn = None → caches (k_bufs s) bn i →
  ∃ B, cache me (<[bn := i]> H) P V (bio B (k_disk s) (k_dwrites s) (k_vd s) (k_procs s) s) ∧
    sync resume (bread 1 bn) s = Ret i (bio B (k_disk s) (k_dwrites s) (k_vd s) (k_procs s) s).
Proof.
  intros Hca Hbn Hi. destruct (cache_me _ _ _ _ Hca) as (p & Hp & Hc & Hl & HB & Es).
  destruct Hca as [Hrun Hh Hv _]. pose proof (bo_lru _ _ _ _ _ _ HB) as [o Ho].
  pose proof Hi as (Hlt & b & Hb & Hd & Hbb).
  assert (first_buf (is_block 1 bn) (k_bufs s) o = Some i) as Ehit.
  { pose proof (first_block _ _ _ _ _ _ o bn HB Ho) as Hf.
    destruct (first_buf (is_block 1 bn) (k_bufs s) o) as [j|]; [|by destruct (Hf i)].
    by rewrite (bo_uniq _ _ _ _ _ _ HB bn i j). }
  assert (b_valid b = true ∧ sl_locked (b_lock b) = false) as [Hvb Hlb].
  { destruct (bo_buf _ _ _ _ _ _ HB i b Hlt Hb) as (_ & [(? & _)|(_ & _ & Hvb & _ & _ & Hlb)]); [congruence|].
    by rewrite Hbb, Hbn in Hlb. }
  set (B := <[i := lock_buf (p_pid p) (share b)]> (k_bufs s)). exists B. split.
  { apply cache_bio with p; try done; [apply quiet_refl|]. by apply bufs_hit. }
  apply sync_run. unfold bread.
  assert (bget 1 bn s = Ret i (bst B [] (k_procs s) s)) as Hg
    by (rewrite Es at 1; by apply (bget_hit_run me p 1 bn i b _ o)).
  rewrite (bind_run _ _ _ _ _ Hg), (getb_bst i (lock_buf (p_pid p) (share b))).
  - cbn [b_valid lock_buf share set_b_lock set_b_refcnt]. rewrite Hvb. cbn [negb whenM].
    rewrite bind_ret_l. unfold ret, bst, bio. rewrite <- Hh. subst B. ret_eq.
  - apply list_lookup_insert_eq. by eauto using lookup_lt_Some.
Qed.

Lemma bread_miss H P V bn (L : list Z) s :
  cache me H P V s → H !! bn = None → 0 ≤ bn < 2 ^ 31 → (∀ i, ¬ caches (k_bufs s) bn i) →
  (∀ x, is_Some (H !! x) ∨ P x ≠ 0 → x ∈ L) → (length L < NBUF)%nat →
  ∃ i B v l, quiet me (k_procs s) l ∧
    cache me (<[bn := i]> H) P V (bio B (k_disk s) (k_dwrites s) v l s) ∧
    sync resume (bread 1 bn) s = Ret i (bio B (k_disk s) (k_dwrites s) v l s).
Proof.
  intros Hca Hbn Hr Hnot HL Hlen. destruct (cache_me _ _ _ _ Hca) as (p & Hp & Hc & Hl & HB & Es).
  destruct Hca as [Hrun Hh Hv _]. pose proof (bo_lru _ _ _ _ _ _ HB) as [o Ho].
  assert (first_buf (is_block 1 bn) (k_bufs s) o = None) as Emiss.
  { pose proof (first_block _ _ _ _ _ _ o bn HB Ho) as Hf.
    destruct (first_buf (is_block 1 bn) (k_bufs s) o) as [j|]; [by destruct (Hnot j)|done]. }
  destruct (first_free _ _ _ _ _ _ o L HB Ho HL Hlen) as (i & b & Hff & Hi & Hb & Href).
  assert (sl_locked (b_lock b) = false ∧ b_disk b = false) as [Hlb Hdb].
  { destruct (bo_buf _ _ _ _ _ _ HB i b Hi Hb) as (Hdb & Hok). split; [|done].
    destruct Hok as [(_ & _ & ?)|(_ & _ & _ & _ & Hrc & Hlb)]; [done|].
    pose proof (proj1 (bo_pins _ _ _ _ _ _ HB (b_blockno b))). unfold held_ref in Hrc.
    destruct (H !! b_blockno b); [lia|done]. }
  assert (i < length (k_bufs s))%nat as Hil by eauto using lookup_lt_Some.
  set (b1 := lock_buf (p_pid p) (recycle 1 bn b)). set (t := bst (<[i := b1]> (k_bufs s)) [] (k_procs s) s).
  assert (bget 1 bn s = Ret i t) as Hg
    by (rewrite Es at 1; by apply (bget_recycle_run me p 1 bn i b _ o)).
  destruct (rw_run me i b1 false t) as (v' & l' & Hv' & Hq' & Hrw); try done.
  { by destruct Hrun; split. }
  { by apply list_lookup_insert_eq. }
  exists i, (<[i := set_b_valid true (set_b_data (block_data (k_disk s) bn) b1)]> (k_bufs s)), v', l'.
  split_and!; [done| |].
  { apply cache_bio with p; try done. by apply bufs_recycle. }
  unfold bread. rewrite sync_bind, (bind_run _ _ _ _ _ (sync_run _ _ _ _ _ Hg)).
  assert (getb i t = Ret b1 t) as Hgb by (by apply getb_run, list_lookup_insert_eq).
  rewrite sync_bind, (bind_run _ _ _ _ _ (sync_run _ _ _ _ _ Hgb)).
  change (b_valid b1) with false. cbn [negb whenM].
  rewrite sync_bind. erewrite bind_run; cycle 1.
  { rewrite sync_bind, (bind_run _ _ _ _ _ Hrw). reflexivity. }
  unfold sync, ret. cbn [run_with xfer]. f_equal. kcbn. unfold t, bst. kcbn.
  rewrite alter_insert by (by rewrite length_insert). rewrite list_insert_insert_eq.
  change (b_blockno b1) with bn. unfold bio. rewrite <- Hh. subst t b1. kstate_eq.
Qed.

Lemma wp_bread H P V bn s (Q : nat → kstate → Prop) :
  cache me H P V s → 0 ≤ bn < 2 ^ 31 → H !! bn = None → room H P s bn →
  (∀ i s', bstep me s s' → k_disk s' = k_disk s → k_dwrites s' = k_dwrites s →
     cache me (<[bn := i]> H) P V s' → Q i s') →
  wp (sync resume (bread 1 bn)) Q s.
Proof.
  intros Hca Hr Hbn Hroom HQ.
  destruct (decide (Exists (λ i, is_block 1 bn <$> k_bufs s !! i = Some true) (seq 0 NBUF))) as [Hex|Hex].
  - apply Exists_exists in Hex as (i & Hi%elem_of_seq & Hf).
    destruct (k_bufs s !! i) as [b|] eqn:Hb; [|done]. injection Hf as Hf. unfold is_block in Hf.
    destruct (bread_hit H P V bn i s Hca Hbn) as (B & Hca' & E).
    { split; [lia|]. exists b. split; [done|]. lia. }
    eapply wp_eq; [exact E|]. apply HQ; try done. eexists _, _, _, _, _. split; [done|apply quiet_refl].
  - assert (∀ i, ¬ caches (k_bufs s) bn i) as Hnot.
    { intros i (Hi & b & Hb & Hd & Hbb). apply Hex, Exists_exists. exists i.
      split; [apply elem_of_seq; lia|]. rewrite Hb. cbn. unfold is_block. f_equal. lia. }
    destruct Hroom as [[i Hi]|(L & HL & Hlen)]; [by destruct (Hnot i)|].
    destruct (bread_miss H P V bn L s Hca Hbn Hr Hnot HL Hlen) as (i & B & v & l & Hq & Hca' & E).
    eapply wp_eq; [exact E|]. apply HQ; try done. by eexists _, _, _, _, _.
Qed.

(** The owner of a held block reads or writes its data. *)
Lemma wp_held H P V bn i s (Q : buf → kstate → Prop) :
  cache me H P V s → H !! bn = Some i →
  (∀ b, b_data b = V bn → b_blockno b = bn → Q b s) → wp (sync resume (getb i)) Q s.
Proof.
  intros Hca Hi HQ. destruct (cache_me _ _ _ _ Hca) as (p & Hp & _ & _ & HB & _).
  destruct (held_lookup _ _ _ _ _ _ _ _ HB Hi) as (_ & b & Hb & []).
  eapply wps_eq; [by apply getb_run|]. by apply HQ.
Qed.

Lemma bio_bufs B s : set_k_bufs B s = bio B (k_disk s) (k_dwrites s) (k_vd s) (k_procs s) s.
Proof. unfold bio. kstate_eq. Qed.

Lemma wp_setdata H P V bn i f s (Q : unit → kstate → Prop) :
  cache me H P V s → H !! bn = Some i → length (f (V bn)) = 1024%nat →
  (∀ s', bstep me s s' → k_disk s' = k_disk s → k_dwrites s' = k_dwrites s →
     cache me H P (put V bn (f (V bn))) s' → Q tt s') →
  wp (sync resume (modb i (λ b, set_b_data (f (b_data b)) b))) Q s.
Proof.
  intros Hca Hi Hf HQ. destruct (cache_me _ _ _ _ Hca) as (p & Hp & _ & _ & HB & _).
  destruct Hca as [Hrun Hh Hv _].
  destruct (held_lookup _ _ _ _ _ _ _ _ HB Hi) as (Hlt & b & Hb & Hok).
  apply wps_of_wp. unfold modb. apply wp_modify. rewrite (list_alter_insert _ _ i b) by done.
  rewrite bio_bufs. apply HQ; try done.
  - eexists _, _, _, _, _. split; [done|apply quiet_refl].
  - apply cache_bio with p; try done; [apply quiet_refl|].
    apply (bufs_own (p_pid p) H P V (k_disk s) _ bn i b); try done.
    + destruct Hok. split; try done. cbn. rewrite put_eq. congruence.
    + intros x Hx. by rewrite put_ne.
    + by apply (bo_pins _ _ _ _ _ _ HB).
    + by rewrite put_eq.
Qed.

Lemma wp_bwrite H P V bn i s (Q : unit → kstate → Prop) :
  cache me H P V s → H !! bn = Some i →
  (∀ s', bstep me s s' → k_disk s' = <[bn := V bn]> (k_disk s) →
     k_dwrites s' = (bn, V bn) :: k_dwrites s → cache me H P V s' → Q tt s') →
  wp (sync resume (bwrite i)) Q s.
Proof.
  intros Hca Hi HQ. destruct (cache_me _ _ _ _ Hca) as (p & Hp & Hc & Hl & HB & Es).
  destruct Hca as [Hrun Hh Hv _].
  destruct (held_lookup _ _ _ _ _ _ _ _ HB Hi) as (Hlt & b & Hb & Hok).
  pose proof (hb_lock _ _ _ _ _ Hok) as Hlk.
  assert (holdingsleep (SlBuf i) s = Ret true s) as Hhold.
  { rewrite Es. apply (holdingsleep_run me p i b); try done. apply not_elem_of_nil. }
  destruct (rw_run me i b true s) as (v' & l' & Hv' & Hq' & Hrw); try done; try apply Hok.
  { rewrite (hb_bn _ _ _ _ _ Hok). apply Hok. }
  unfold bwrite. apply wps_bind. eapply wps_eq; [exact Hhold|]. cbn [negb].
  eapply wp_eq; [exact Hrw|]. cbn [xfer]. rewrite (hb_data _ _ _ _ _ Hok), (hb_bn _ _ _ _ _ Hok).
  match goal with |- Q tt ?t => replace t with
    (bio (k_bufs s) (<[bn := V bn]> (k_disk s)) ((bn, V bn) :: k_dwrites s) v' l' s)
    by (unfold bio; kstate_eq) end.
  apply HQ; try done.
  - by eexists _, _, _, _, _.
  - apply cache_bio with p; try done. rewrite <- (list_insert_id (k_bufs s) i b) by done.
    apply (bufs_own (p_pid p) H P V (k_disk s) _ bn i b); try done.
    + intros x Hx. by rewrite block_data_insert_ne.
    + by apply (bo_pins _ _ _ _ _ _ HB).
    + apply (bo_len _ _ _ _ _ _ HB).
Qed.

Lemma wp_brelse H P V bn i s (Q : unit → kstate → Prop) :
  cache me H P V s → H !! bn = Some i → (P bn ≠ 0 ∨ V bn = block_data (k_disk s) bn) →
  (∀ s', bstep me s s' → k_disk s' = k_disk s → k_dwrites s' = k_dwrites s →
     cache me (delete bn H) P V s' → Q tt s') →
  wp (sync resume (brelse i)) Q s.
Proof.
  intros Hca Hi Hcl HQ. destruct (cache_me _ _ _ _ Hca) as (p & Hp & Hc & Hl & HB & Es).
  destruct Hca as [Hrun Hh Hv _]. pose proof (bo_lru _ _ _ _ _ _ HB) as [o Ho].
  destruct (held_lookup _ _ _ _ _ _ _ _ HB Hi) as (Hlt & b & Hb & Hok).
  destruct (brelse_run me p i b (k_bufs s) (k_procs s) s) as (l' & Hq & E); try done; try apply Hok.
  { apply (lru_len _ _ Ho). }
  rewrite <- Es in E. eapply wps_eq; [exact E|].
  replace (bst _ _ _ _) with (bio (released i b (k_bufs s)) (k_disk s) (k_dwrites s) (k_vd s) l' s)
    by (unfold bst, bio; rewrite <- Hh; kstate_eq).
  apply HQ; try done.
  - by eexists _, _, _, _, _.
  - apply cache_bio with p; try done. unfold released. cbv zeta.
    pose proof (bufs_release _ _ _ _ _ _ bn i b HB Hi Hb Hcl) as HB'.
    destruct (is_free (unshare b)); [by apply bufs_relink|done].
Qed.

(** [bpin] and [bunpin] may be called with spinlocks held. *)
Lemma bpin_run i s :
  LBcache ∉ k_held s → bpin i s = Ret tt (set_k_bufs (alter share i (k_bufs s)) s).
Proof.
  intros Hh. unfold bpin. rewrite (bst_id s) at 1. rewrite acquire_bst, modb_bst, release_end_bst by done.
  unfold bst. ret_eq.
Qed.
Lemma bunpin_run i s :
  LBcache ∉ k_held s → bunpin i s = Ret tt (set_k_bufs (alter unshare i (k_bufs s)) s).
Proof.
  intros Hh. unfold bunpin. rewrite (bst_id s) at 1. rewrite acquire_bst, modb_bst, release_end_bst by done.
  unfold bst. ret_eq.
Qed.

Lemma cache_repin H P V bn i n s :
  cache me H P V s → H !! bn = Some i → 0 ≤ n < 2 ^ 31 - 1 →
  cache me H (repin P bn n) V (set_k_bufs (alter (set_b_refcnt (1 + n)) i (k_bufs s)) s).
Proof.
  intros Hca Hi Hn. destruct (cache_me _ _ _ _ Hca) as (p & Hp & _ & _ & HB & _).
  destruct Hca as [Hrun Hh Hv _].
  destruct (held_lookup _ _ _ _ _ _ _ _ HB Hi) as (Hlt & b & Hb & Hok).
  rewrite bio_bufs, (list_alter_insert _ _ i b) by done.
  apply cache_bio with p; try done; [apply quiet_refl|].
  apply (bufs_own (p_pid p) H P V (k_disk s) _ bn i b); try done.
  - destruct Hok. split; try done. cbn. by rewrite repin_eq.
  - intros x Hx. by rewrite repin_ne.
  - rewrite repin_eq. lia.
  - apply (bo_len _ _ _ _ _ _ HB).
Qed.

Lemma wp_bunpin H P V bn i s (Q : unit → kstate → Prop) :
  cache me H P V s → H !! bn = Some i → 0 < P bn →
  (∀ s', bstep me s s' → k_disk s' = k_disk s → k_dwrites s' = k_dwrites s →
     cache me H (repin P bn (P bn - 1)) V s' → Q tt s') →
  wp (sync resume (bunpin i)) Q s.
Proof.
  intros Hca Hi HP HQ. destruct (cache_me _ _ _ _ Hca) as (p & Hp & _ & _ & HB & _).
  destruct (held_lookup _ _ _ _ _ _ _ _ HB Hi) as (Hlt & b & Hb & Hok).
  pose proof (proj1 (bo_pins _ _ _ _ _ _ HB bn)).
  eapply wps_eq; [apply bunpin_run; rewrite (ca_lock _ _ _ _ _ Hca); apply not_elem_of_nil|].
  assert (alter unshare i (k_bufs s) = alter (set_b_refcnt (1 + (P bn - 1))) i (k_bufs s)) as ->.
  { rewrite !(list_alter_insert _ _ i b) by done. f_equal. unfold unshare.
    rewrite (hb_ref _ _ _ _ _ Hok), u32_small by lia. f_equal. lia. }
  apply HQ; try done.
  - rewrite bio_bufs. eexists _, _, _, _, _. split; [done|apply quiet_refl].
  - apply cache_repin; [done|done|lia].
Qed.
End specs.

(** ** Consequences of the invariant *)

Lemma cache_ext me H P V P' V' s :
  (∀ bn, P' bn = P bn) → (∀ bn, V' bn = V bn) → cache me H P V s → cache me H P' V' s.
Proof.
  intros EP EV [H1 H2 H3 H4]. split; try done. intros p Hp.
  destruct (H4 p Hp) as [Hlru Hbuf Huniq Hheld Hpins Hclean Hvlen]. split; try done.
  - intros i b Hi Hb. apply (buf_ok_ext _ H P V); [done|]. by apply Hbuf.
  - intros bn. rewrite EP. apply Hpins.
  - intros bn Hbn Hpn. rewrite EV. apply Hclean; [done|]. by rewrite <- EP.
  - intros bn. by rewrite EV.
Qed.

Lemma cache_clean me P V bn s :
  cache me ∅ P V s → P bn = 0 → V bn = block_data (k_disk s) bn.
Proof.
  intros Hca HP. destruct (cache_me _ _ _ _ _ Hca) as (p & _ & _ & _ & HB & _).
  by apply (bo_clean _ _ _ _ _ _ HB).
Qed.
Lemma cache_vlen me H P V bn s : cache me H P V s → length (V bn) = 1024%nat.
Proof.
  intros Hca. destruct (cache_me _ _ _ _ _ Hca) as (p & _ & _ & _ & HB & _).
  apply (bo_len _ _ _ _ _ _ HB).
Qed.
Lemma cache_pinned me H P V bn s : cache me H P V s → P bn ≠ 0 → ∃ i, caches (k_bufs s) bn i.
Proof.
  intros Hca. destruct (cache_me _ _ _ _ _ Hca) as (p & _ & _ & _ & HB & _).
  apply (bo_pins _ _ _ _ _ _ HB).
Qed.

(** ** The cache after [binit] *)

(** [binit] on the zeroed buffers [b0]: slot [NBUF - 1] is the most recently used. *)
Definition binit_bufs (b0 : buf) : list buf :=
  (λ i : nat, mkBuf (b_valid b0) (b_disk b0) (b_dev b0) (b_blockno b0) (mkSleeplock false 0) (b_refcnt b0)
     (S i) (match i with O => bhead | S j => j end) (b_data b0)) <$> seq 0 NBUF.
Definition binit_head (b0 : buf) : buf := set_b_prev 0%nat (set_b_next (NBUF - 1)%nat b0).

Lemma binit_run b0 s :
  k_bufs s = replicate (S NBUF) b0 →
  binit s = Ret tt (set_k_bufs (binit_bufs b0 ++ [binit_head b0]) s).
Proof.
  intros E. rewrite (bst_id s), E. destruct b0. vm_compute. reflexivity.
Qed.
Lemma binit_lru b0 : lru (binit_bufs b0 ++ [binit_head b0]) (rev (seq 0 NBUF)).
Proof.
  split.
  - by rewrite length_app; unfold binit_bufs; rewrite length_fmap, length_seq.
  - vm_compute. repeat split.
  - symmetry. apply Permutation_rev.
Qed.

Lemma cache_init {F : Fuel} me b0 s :
  running me s → k_held s = [] → drv_idle (k_vd s) → k_bufs s = binit_bufs b0 ++ [binit_head b0] →
  b_disk b0 = false → b_dev b0 = 0 → b_refcnt b0 = 0 →
  (∀ bn, length (block_data (k_disk s) bn) = 1024%nat) →
  cache me ∅ (λ _, 0) (block_data (k_disk s)) s.
Proof.
  intros Hrun Hh Hv EB Hdk Hdev Href Hlen. split; try done. intros p _. rewrite EB.
  assert (∀ i b, (i < NBUF)%nat → (binit_bufs b0 ++ [binit_head b0]) !! i = Some b →
    b_disk b = false ∧ b_dev b = 0 ∧ b_refcnt b = 0 ∧ sl_locked (b_lock b) = false) as Hb.
  { intros i b Hi Hb. rewrite lookup_app_l in Hb by (unfold binit_bufs; by rewrite length_fmap, length_seq).
    unfold binit_bufs in Hb. rewrite list_lookup_fmap, lookup_seq_lt in Hb by done. by injection Hb as <-. }
  assert (∀ bn i, ¬ caches (binit_bufs b0 ++ [binit_head b0]) bn i) as Hnone.
  { intros bn i (Hi & b & Hbi & Hd & _). destruct (Hb i b Hi Hbi) as (_ & ? & _). congruence. }
  split.
  - exists (rev (seq 0 NBUF)). apply binit_lru.
  - intros i b Hi Hbi. destruct (Hb i b Hi Hbi) as (? & ? & ? & ?). split; [done|]. by left.
  - intros bn i j Hi. by destruct (Hnone bn i).
  - done.
  - intros bn. split; [lia|done].
  - done.
  - done.
Qed.

(** ** Refinement: the cache is an array of blocks *)

(** The abstract cache: the blocks as the file system sees them, the blocks on the
    disk, those held by the caller and the pin counts. *)
Record acache := mkAc {
  a_view : Z → list Z;
  a_disk : Z → list Z;
  a_held : gset Z;
  a_pins : gmap Z Z;
}.

(** The operations: [bread], an assignment to [b->data], [bwrite], [brelse], [bpin]
    and [bunpin], on the buffer of a block. *)
Inductive bop :=
  | BRead (bn : Z)
  | BSet (bn : Z) (f : list Z → list Z)
  | BWrite (bn : Z)
  | BRelse (bn : Z)
  | BPin (bn : Z)
  | BUnpin (bn : Z).

Definition pins_of (a : acache) (bn : Z) : Z := default 0 (a_pins a !! bn).
Definition in_use (a : acache) : gset Z := a_held a ∪ dom (a_pins a).

(** What each operation does to the array, when it is legal. *)
Definition abs_op (o : bop) (a : acache) : option acache :=
  match o with
  | BRead bn =>
      if bool_decide (0 ≤ bn < 2 ^ 31) && bool_decide (bn ∉ a_held a) &&
         (bool_decide (pins_of a bn ≠ 0) || (size (in_use a) <? NBUF)%nat)
      then Some (mkAc (a_view a) (a_disk a) ({[bn]} ∪ a_held a) (a_pins a)) else None
  | BSet bn f =>
      if bool_decide (bn ∈ a_held a) && (length (f (a_view a bn)) =? 1024)%nat
      then Some (mkAc (put (a_view a) bn (f (a_view a bn))) (a_disk a) (a_held a) (a_pins a)) else None
  | BWrite bn =>
      if bool_decide (bn ∈ a_held a)
      then Some (mkAc (a_view a) (put (a_disk a) bn (a_view a bn)) (a_held a) (a_pins a)) else None
  | BRelse bn =>
      if bool_decide (bn ∈ a_held a) &&
         (bool_decide (pins_of a bn ≠ 0) || bool_decide (a_view a bn = a_disk a bn))
      then Some (mkAc (a_view a) (a_disk a) (a_held a ∖ {[bn]}) (a_pins a)) else None
  | BPin bn =>
      if bool_decide (bn ∈ a_held a) && (pins_of a bn <? 2 ^ 30)
      then Some (mkAc (a_view a) (a_disk a) (a_held a) (<[bn := pins_of a bn + 1]> (a_pins a))) else None
  | BUnpin bn =>
      if bool_decide (bn ∈ a_held a) && (0 <? pins_of a bn)
      then Some (mkAc (a_view a) (a_disk a) (a_held a) (<[bn := pins_of a bn - 1]> (a_pins a))) else None
  end.
Fixpoint abs_ops (os : list bop) (a : acache) : option acache :=
  match os with [] => Some a | o :: os' => a' ← abs_op o a; abs_ops os' a' end%stdpp.

(** The client's side: it keeps the pointers to the buffers it holds. *)
Definition run_op {F : Fuel} (o : bop) (H : gmap Z nat) : K (gmap Z nat) :=
  match o with
  | BRead bn => i ← bread 1 bn; ret (<[bn := i]> H)
  | BSet bn f => i ← unwrap "buf" (H !! bn); modb i (λ b, set_b_data (f (b_data b)) b) ;; ret H
  | BWrite bn => i ← unwrap "buf" (H !! bn); bwrite i ;; ret H
  | BRelse bn => i ← unwrap "buf" (H !! bn); brelse i ;; ret (delete bn H)
  | BPin bn => i ← unwrap "buf" (H !! bn); bpin i ;; ret H
  | BUnpin bn => i ← unwrap "buf" (H !! bn); bunpin i ;; ret H
  end.
Fixpoint run_ops {F : Fuel} (os : list bop) (H : gmap Z nat) : K (gmap Z nat) :=
  match os with [] => ret H | o :: os' => H' ← run_op o H; run_ops os' H' end.

Record cache_repr (me : nat) (a : acache) (H : gmap Z nat) (s : kstate) : Prop := {
  cr_cache : cache me H (pins_of a) (a_view a) s;
  cr_held : dom H = a_held a;
  cr_disk : ∀ bn, block_data (k_disk s) bn = a_disk a bn;
}.

Section refinement.
Context {F : Fuel} (me : nat).

Lemma pins_of_insert a bn n V d hs x :
  pins_of (mkAc V d hs (<[bn := n]> (a_pins a))) x = repin (pins_of a) bn n x.
Proof.
  unfold pins_of, repin. cbn. case_decide; [subst; by rewrite lookup_insert_eq|].
  by rewrite lookup_insert_ne.
Qed.

Lemma repr_held a H bn s : cache_repr me a H s → bn ∈ a_held a → ∃ i, H !! bn = Some i.
Proof. intros Hr Hbn. rewrite <- (cr_held _ _ _ _ Hr) in Hbn. by apply elem_of_dom in Hbn. Qed.

Lemma in_use_spec a H s bn :
  cache_repr me a H s → is_Some (H !! bn) ∨ pins_of a bn ≠ 0 → bn ∈ elements (in_use a).
Proof.
  intros Hr Hbn. apply elem_of_elements. unfold in_use. rewrite <- (cr_held _ _ _ _ Hr), elem_of_union, !elem_of_dom.
  destruct Hbn as [?|Hbn]; [by left|right]. unfold pins_of in Hbn. destruct (a_pins a !! bn); [eauto|done].
Qed.

Lemma wp_run_op o a a' H s :
  cache_repr me a H s → abs_op o a = Some a' →
  wp (sync resume (run_op o H)) (λ H' s', cache_repr me a' H' s' ∧ bstep me s s') s.
Proof.
  intros Hr Ho. pose proof Hr as [Hc Hh Hd].
  destruct o as [bn|bn f|bn|bn|bn|bn]; cbn [abs_op run_op] in *;
    (match type of Ho with (if ?g then _ else _) = _ => destruct g eqn:E end; [|done]);
    injection Ho as <-;
    rewrite ?andb_true_iff, ?orb_true_iff, ?bool_decide_eq_true in E.
  - destruct E as [[Hrange Hnh] Hroom]. apply wps_bind.
    apply (wp_bread me H (pins_of a) (a_view a) bn s); [done|done| | |].
    { apply not_elem_of_dom. by rewrite Hh. }
    { destruct Hroom as [Hp|Hsz]; [left; by apply (cache_pinned _ _ _ _ _ _ Hc)|right].
      exists (elements (in_use a)). split; [intros x; by apply (in_use_spec a H s)|].
      unfold size, set_size in Hsz. apply Nat.ltb_lt in Hsz. done. }
    intros i s' St Ed Ew C. wp_go. split; [|done]. split; [done| |].
    + cbn. by rewrite dom_insert_L, Hh.
    + intros x. rewrite Ed. apply Hd.
  - destruct E as [Hbn Hlen%Nat.eqb_eq]. destruct (repr_held a H bn s Hr Hbn) as [i Hi]. wp_go.
    apply (wp_setdata me H (pins_of a) (a_view a) bn i f s); try done.
    intros s' St Ed Ew C. wp_go. split; [|done]. split; [done|done|]. intros x. rewrite Ed. apply Hd.
  - destruct (repr_held a H bn s Hr E) as [i Hi]. wp_go.
    apply (wp_bwrite me H (pins_of a) (a_view a) bn i s); try done.
    intros s' St Ed Ew C. wp_go. split; [|done]. split; [done|done|]. intros x. rewrite Ed. cbn.
    unfold put. case_decide; [subst; apply block_data_insert|].
    rewrite block_data_insert_ne by done. apply Hd.
  - destruct E as [Hbn Hcl]. destruct (repr_held a H bn s Hr Hbn) as [i Hi]. wp_go.
    apply (wp_brelse me H (pins_of a) (a_view a) bn i s); try done; [by rewrite Hd|].
    intros s' St Ed Ew C. wp_go. split; [|done]. split; [done| |].
    + cbn. by rewrite dom_delete_L, Hh.
    + intros x. rewrite Ed. apply Hd.
  - destruct E as [Hbn Hlt%Z.ltb_lt]. destruct (repr_held a H bn s Hr Hbn) as [i Hi]. wp_go.
    eapply wps_eq; [apply bpin_run; rewrite (ca_lock _ _ _ _ _ Hc); apply not_elem_of_nil|]. wp_go.
    destruct (cache_me _ _ _ _ _ Hc) as (p & _ & _ & _ & HB & _).
    destruct (held_lookup _ _ _ _ _ _ _ _ HB Hi) as (_ & b & Hb & Hok).
    pose proof (proj1 (bo_pins _ _ _ _ _ _ HB bn)).
    assert (alter share i (k_bufs s) = alter (set_b_refcnt (1 + (pins_of a bn + 1))) i (k_bufs s)) as ->.
    { rewrite !(list_alter_insert _ _ i b) by done. f_equal. unfold share.
      rewrite (hb_ref _ _ _ _ _ Hok), u32_small by lia. f_equal. lia. }
    split; [split; [|done|done]|].
    + eapply cache_ext; [| |apply (cache_repin me H (pins_of a) (a_view a) bn i (pins_of a bn + 1)); try done; lia].
      * intros x. apply pins_of_insert.
      * done.
    + rewrite bio_bufs. eexists _, _, _, _, _. split; [done|apply quiet_refl].
  - destruct E as [Hbn Hlt%Z.ltb_lt]. destruct (repr_held a H bn s Hr Hbn) as [i Hi]. wp_go.
    apply (wp_bunpin me H (pins_of a) (a_view a) bn i s); try done.
    intros s' St Ed Ew C. wp_go. split; [|done]. split; [|done|].
    + eapply cache_ext; [| |exact C]; [|done]. intros x. apply pins_of_insert.
    + intros x. rewrite Ed. apply Hd.
Qed.

Lemma wp_run_ops os a a' H s :
  cache_repr me a H s → abs_ops os a = Some a' →
  wp (sync resume (run_ops os H)) (λ H' s', cache_repr me a' H' s' ∧ bstep me s s') s.
Proof.
  revert a H s. induction os as [|o os IH]; intros a H s Hr Ho; cbn [abs_ops run_ops] in *.
  - injection Ho as <-. wp_go. split; [done|apply bstep_refl].
  - destruct (abs_op o a) as [a1|] eqn:E; [|done]. cbn in Ho. apply wps_bind.
    eapply wp_mono; [by apply (wp_run_op o a a1)|]. cbn. intros H1 s1 [Hr1 St1].
    eapply wp_mono; [by apply (IH a1)|]. cbn. intros H2 s2 [Hr2 St2]. split; [done|].
    by eapply bstep_trans.
Qed.
End refinement.

(** C2: bio.c implements an array of blocks.  Any sequence of [bread], assignments to
    [b->data], [bwrite], [brelse], [bpin] and [bunpin] that is legal for the array, in
    which a dirty block is not released unpinned and no more than [NBUF] blocks are in
    use, runs to its end without a panic; the cache then shows the abstract blocks, the
    disk holds the abstract disk, and nothing else has changed. *)
Theorem cache_refines {F : Fuel} (me : nat) (os : list bop) (a a' : acache) (H : gmap Z nat)
    (s : kstate) (Hr : cache_repr me a H s) (Hos : abs_ops os a = Some a') :
  ∃ H' s', sync resume (run_ops os H) s = Ret H' s' ∧ cache_repr me a' H' s' ∧ bstep me s s'.
Proof. by apply (wp_run (sync resume (run_ops os H))), (wp_run_ops me os a). Qed.

(** Process 2 runs with the cache initialised and an empty disk. *)
Definition kstate_cache : kstate :=
  set_k_bufs (binit_bufs buf0 ++ [binit_head buf0]) kstate_disk.
Lemma cache_kstate : cache 2 ∅ (λ _, 0) (block_data ∅) kstate_cache.
Proof.
  apply (cache_init (F := fuel1) 2 buf0 kstate_cache); try done.
  destruct running_disk as [H1 H2 H3]. by split.
Qed.

Lemma cache_refines_witness :
  ∃ H' s', sync resume (run_ops (F := fuel1)
      [BRead 5; BSet 5 (λ _, replicate 1024 7); BWrite 5; BRelse 5] ∅) kstate_cache = Ret H' s' ∧
    block_data (k_disk s') 5 = replicate 1024 7.
Proof.
  destruct (cache_refines (F := fuel1) 2
    [BRead 5; BSet 5 (λ _, replicate 1024 7); BWrite 5; BRelse 5]
    (mkAc (block_data ∅) (block_data ∅) ∅ ∅)
    (mkAc (put (block_data ∅) 5 (replicate 1024 7)) (put (block_data ∅) 5 (replicate 1024 7))
       (({[5]} ∪ ∅) ∖ {[5]}) ∅) ∅ kstate_cache) as (H' & s' & E & [_ _ Hd] & _).
  - split; [apply cache_kstate|done|done].
  - cbn [abs_ops abs_op a_held a_view a_disk a_pins]. vm_compute. reflexivity.
  - exists H', s'. split; [exact E|]. rewrite Hd. reflexivity.
Defined.
