(* ===== verification/Log.v ===== *)
(** * kernel/log.c

    The redo log: transactions of file-system system calls, commit, and recovery
    at boot. *)
From Stdlib Require Import ZArith Lia.
From stdpp Require Import base list gmap numbers strings.
From S2P Require Import Prelude Machine KString Bytes State Printk Kalloc Sched Virtio Bio.
Local Open Scope Z_scope.
Local Open Scope kernel_scope.

Section log.
Context {F : Fuel}.

(** ** Code *)

Definition modlog (f : logstate → logstate) : K unit :=
  modify (λ s, set_k_log (f (k_log s)) s).

(** [log.lh.block[i]], an array of [LOGBLOCKS] ints. *)
Definition lh_block (i : Z) : K Z :=
  l ← gets k_log;
  unwrap "log.lh.block" (if i <? 0 then None else l_block l !! Z.to_nat i).
Definition set_lh_block (i v : Z) : K unit :=
  l ← gets k_log;
  if (0 <=? i) && (i <? LOGBLOCKS)
  then modlog (set_l_block (<[Z.to_nat i := v]> (l_block l)))
  else undef "log.lh.block".

(** 0, 1, ..., n-1: the values of a C loop variable. *)
Definition upto (n : Z) : list Z := Z.of_nat <$> seq 0 (Z.to_nat n).

Definition install_trans (recovering : bool) : K unit :=
  n ← gets (λ s, l_n (k_log s));
  for_each (upto n) (λ tail,
    whenM recovering
      (b ← lh_block tail;
       printk (str "recovering tail %d dst %d" ++ [10]) [KInt tail; KInt b]) ;;
    l ← gets k_log;
    lbuf ← bread (u32 (l_dev l)) (u32 (l_start l + tail + 1));
    dst ← lh_block tail;
    dbuf ← bread (u32 (l_dev l)) (u32 dst);
    lb ← getb lbuf;
    modb dbuf (set_b_data (b_data lb)) ;;
    bwrite dbuf ;;
    whenM (negb recovering) (bunpin dbuf) ;;
    brelse lbuf ;;
    brelse dbuf).

(** The on-disk header: [n] at offset 0, [block[i]] at offset 4 + 4 i, all ints. *)
Definition hd_n (data : list Z) : Z := i32 (ldl 4 data 0).
Definition hd_block (data : list Z) (i : Z) : Z := i32 (ldl 4 data (Z.to_nat (4 + 4 * i))).

Definition read_head : K unit :=
  l ← gets k_log;
  buf ← bread (u32 (l_dev l)) (u32 (l_start l));
  b ← getb buf;
  modlog (set_l_n (hd_n (b_data b))) ;;
  for_each (upto (hd_n (b_data b))) (λ i, set_lh_block i (hd_block (b_data b) i)) ;;
  brelse buf.

Definition write_head : K unit :=
  l ← gets k_log;
  buf ← bread (u32 (l_dev l)) (u32 (l_start l));
  modb buf (λ b, set_b_data (stl 4 (b_data b) 0 (l_n l)) b) ;;
  for_each (upto (l_n l)) (λ i,
    v ← lh_block i;
    modb buf (λ b, set_b_data (stl 4 (b_data b) (Z.to_nat (4 + 4 * i)) v) b)) ;;
  bwrite buf ;;
  brelse buf.

Definition recover_from_log : K unit :=
  read_head ;;
  install_trans true ;;
  modlog (set_l_n 0) ;;
  write_head.

(** [sizeof(struct logheader)] is 4 + 4 * LOGBLOCKS. *)
Definition initlog (dev : Z) (sb : superblock) : K unit :=
  if BSIZE <=? 4 + 4 * LOGBLOCKS then panic "initlog: too big logheader" else
  modlog (set_l_start (i32 (sb_logstart sb))) ;;
  modlog (set_l_dev dev) ;;
  recover_from_log.

Definition begin_op : K unit :=
  acquire LLog ;;
  sleep_loop
    (l ← gets k_log;
     if (l_committing l : bool) then sleep ChLog LLog ;; ret None
     else if LOGBLOCKS <? l_n l + (l_outstanding l + 1) * MAXOPBLOCKS then
       sleep ChLog LLog ;; ret None
     else
       modlog (set_l_outstanding (l_outstanding l + 1)) ;;
       release LLog ;;
       ret (Some tt)).

Definition write_log : K unit :=
  n ← gets (λ s, l_n (k_log s));
  for_each (upto n) (λ tail,
    l ← gets k_log;
    to ← bread (u32 (l_dev l)) (u32 (l_start l + tail + 1));
    src ← lh_block tail;
    from ← bread (u32 (l_dev l)) (u32 src);
    fb ← getb from;
    modb to (set_b_data (b_data fb)) ;;
    bwrite to ;;
    brelse from ;;
    brelse to).

Definition commit : K unit :=
  n ← gets (λ s, l_n (k_log s));
  whenM (0 <? n)
    (write_log ;;
     write_head ;;
     install_trans false ;;
     modlog (set_l_n 0) ;;
     write_head).

Definition end_op : K unit :=
  acquire LLog ;;
  modlog (λ l, set_l_outstanding (l_outstanding l - 1) l) ;;
  l ← gets k_log;
  if (l_committing l : bool) then panic "log.committing" else
  let do_commit := l_outstanding l =? 0 in
  (if do_commit then modlog (set_l_committing true) else wakeup ChLog) ;;
  release LLog ;;
  whenM do_commit
    (commit ;;
     acquire LLog ;;
     modlog (set_l_committing false) ;;
     wakeup ChLog ;;
     release LLog).

Definition log_write (i : nat) : K unit :=
  acquire LLog ;;
  l ← gets k_log;
  if LOGBLOCKS <=? l_n l then panic "too big a transaction" else
  if l_outstanding l <? 1 then panic "log_write outside of trans" else
  b ← getb i;
  r ← for_list (upto (l_n l)) (λ j,
        v ← lh_block j; ret (if u32 v =? b_blockno b then Some j else None));
  let j := default (l_n l) r in
  set_lh_block j (i32 (b_blockno b)) ;;
  whenM (j =? l_n l)
    (bpin i ;; modlog (λ l, set_l_n (l_n l + 1) l)) ;;
  release LLog.
End log.
