(* ===== verification/Crash.v ===== *)
(** * Transactions and crashes

    The redo log of log.c on the buffer cache of [Cache].  A transaction collects
    blocks with [log_write]; [end_op] commits it.  If the machine stops after any
    number of disk writes of the commit, and stops again any number of times during
    recovery, then a recovery that runs to its end leaves the disk with none or all of
    the transaction. *)
From Stdlib Require Import ZArith Lia.
From stdpp Require Import base list gmap numbers strings.
From S2P Require Import Prelude Machine Bytes State Printk Kalloc Sched Virtio DiskIo Bio Lru Cache Log.
Local Open Scope Z_scope.
Local Open Scope kernel_scope.

(** ** Disk writes *)

Notation disk := (gmap Z (list Z)).

Definition apply_writes (ws : list (Z * list Z)) (d : disk) : disk :=
  fold_left (λ d w, <[w.1 := w.2]> d) ws d.

Lemma apply_writes_app ws1 ws2 d : apply_writes (ws1 ++ ws2) d = apply_writes ws2 (apply_writes ws1 d).
Proof. apply fold_left_app. Qed.
Lemma apply_writes_notin ws d bn :
  bn ∉ ws.*1 → block_data (apply_writes ws d) bn = block_data d bn.
Proof.
  revert d. induction ws as [|[c x] ws IH]; intros d Hn; [done|]. cbn in Hn |- *.
  rewrite not_elem_of_cons in Hn. destruct Hn as [Hc Hn]. rewrite IH by done.
  by apply block_data_insert_ne.
Qed.
Lemma apply_writes_in ws d bn x :
  NoDup ws.*1 → (bn, x) ∈ ws → block_data (apply_writes ws d) bn = x.
Proof.
  revert d. induction ws as [|[c y] ws IH]; intros d Hnd Hin; [by apply elem_of_nil in Hin|].
  cbn in Hnd |- *. apply list.NoDup_cons in Hnd as [Hc Hnd].
  apply elem_of_cons in Hin as [[= -> ->]|Hin]; [|by apply IH].
  rewrite apply_writes_notin by done. apply block_data_insert.
Qed.

(** ** The header block *)

Fixpoint put_blocks (data : list Z) (l : list (Z * Z)) : list Z :=
  match l with
  | [] => data
  | iv :: l' => put_blocks (stl 4 data (Z.to_nat (4 + 4 * iv.1)) iv.2) l'
  end.
(** What [write_head] makes of the header block for the block numbers [bl]. *)
Definition put_head (data : list Z) (bl : list Z) : list Z :=
  put_blocks (stl 4 data 0 (Z.of_nat (length bl))) (imap (λ i v, (Z.of_nat i, v)) bl).

Lemma put_blocks_app data l1 l2 : put_blocks data (l1 ++ l2) = put_blocks (put_blocks data l1) l2.
Proof. revert data. induction l1; intros data; cbn; auto. Qed.
Lemma length_put_blocks data l : length (put_blocks data l) = length data.
Proof.
  revert data. induction l as [|iv l IH]; intros data; [done|]. cbn [put_blocks].
  rewrite IH. apply length_stl.
Qed.
Lemma length_put_head data bl : length (put_head data bl) = length data.
Proof. unfold put_head. rewrite length_put_blocks. apply length_stl. Qed.

Lemma ldl_put_blocks_ne data l off :
  (∀ iv, iv ∈ l → 0 ≤ iv.1 ∧ (off + 4 ≤ Z.to_nat (4 + 4 * iv.1) ∨ Z.to_nat (4 + 4 * iv.1) + 4 ≤ off)%nat ∧
     4 + 4 * iv.1 + 4 ≤ Z.of_nat (length data)) →
  ldl 4 (put_blocks data l) off = ldl 4 data off.
Proof.
  revert data. induction l as [|iv l IH]; intros data Hl; [done|]. cbn [put_blocks]. rewrite IH.
  - destruct (Hl iv) as (H0 & H1 & H2); [apply elem_of_cons; by left|]. apply ldl_stl_ne; lia.
  - intros iv' Hiv. rewrite length_stl. apply Hl, elem_of_cons. by right.
Qed.

Lemma ldl_put_blocks data (l1 l2 : list (Z * Z)) i v :
  0 ≤ i → 4 + 4 * i + 4 ≤ Z.of_nat (length data) →
  (∀ iv, iv ∈ l2 → i < iv.1 ∧ 4 + 4 * iv.1 + 4 ≤ Z.of_nat (length data)) →
  ldl 4 (put_blocks data (l1 ++ (i, v) :: l2)) (Z.to_nat (4 + 4 * i)) = v mod 2 ^ 32.
Proof.
  intros Hi Hl Hl2. rewrite put_blocks_app. cbn [put_blocks fst snd].
  rewrite ldl_put_blocks_ne.
  - rewrite ldl_stl; [done|]. rewrite length_put_blocks. lia.
  - intros iv Hiv. destruct (Hl2 iv Hiv). rewrite length_stl, length_put_blocks. lia.
Qed.

Lemma imap_split {A B} (f : nat → A → B) (l : list A) i x :
  l !! i = Some x → imap f l = imap f (take i l) ++ f i x :: imap (λ j, f (i + S j)%nat) (drop (S i) l).
Proof.
  intros Hx. rewrite <- (take_drop_middle l i x Hx) at 1. rewrite imap_app. cbn.
  rewrite length_take. assert (i < length l)%nat by eauto using lookup_lt_Some.
  rewrite Nat.min_l, Nat.add_0_r by lia. do 2 f_equal.
Qed.

Lemma hd_put_head data bl :
  length data = 1024%nat → (length bl ≤ Z.to_nat LOGBLOCKS)%nat → Forall (λ v, 0 ≤ v < 2 ^ 31) bl →
  hd_n (put_head data bl) = Z.of_nat (length bl) ∧
  ∀ i v, bl !! i = Some v → hd_block (put_head data bl) (Z.of_nat i) = v.
Proof.
  intros Hd Hlen Hbl. change (Z.to_nat LOGBLOCKS) with 30%nat in Hlen. split.
  - unfold hd_n, put_head. rewrite ldl_put_blocks_ne.
    + rewrite ldl_stl by lia. change (256 ^ Z.of_nat 4) with (2 ^ 32).
      rewrite Z.mod_small by lia. apply i32_small. lia.
    + intros iv (i & v & -> & Hi)%elem_of_lookup_imap. apply lookup_lt_Some in Hi.
      rewrite length_stl. cbn. lia.
  - intros i v Hi. pose proof (lookup_lt_Some _ _ _ Hi). unfold hd_block, put_head.
    rewrite (imap_split _ _ _ _ Hi), ldl_put_blocks.
    + rewrite Forall_lookup in Hbl. specialize (Hbl i v Hi).
      rewrite Z.mod_small by lia. apply i32_small. lia.
    + lia.
    + rewrite length_stl. lia.
    + intros iv (j & w & -> & Hj)%elem_of_lookup_imap. apply lookup_lt_Some in Hj.
      rewrite length_drop in Hj. rewrite length_stl. cbn. lia.
Qed.

(** ** The log on the disk *)

Section ondisk.
Context (st : Z).
Implicit Types (d : disk) (bl : list Z).

(** The header block and the [LOGBLOCKS] blocks after it. *)
Definition in_log (bn : Z) : Prop := st ≤ bn ≤ st + LOGBLOCKS.

(** The home blocks the header names, and the writes a recovery from [d] makes. *)
Definition dsts d : list Z := hd_block (block_data d st) <$> upto (hd_n (block_data d st)).
Definition installs d : list (Z * list Z) :=
  imap (λ i b, (b, block_data d (st + Z.of_nat i + 1))) (dsts d).
Definition recovery_writes d : list (Z * list Z) :=
  installs d ++ [(st, put_head (block_data d st) [])].
Definition recovered d (bn : Z) : list Z := block_data (apply_writes (recovery_writes d) d) bn.

Record blocks_ok bl : Prop := {
  bk_nodup : NoDup bl;
  bk_range : Forall (λ b, 0 ≤ b < 2 ^ 31) bl;
  bk_home : Forall (λ b, ¬ in_log b) bl;
}.
Record log_ok d : Prop := {
  lo_n : 0 ≤ hd_n (block_data d st) ≤ LOGBLOCKS;
  lo_dsts : blocks_ok (dsts d);
  lo_len : length (block_data d st) = 1024%nat;
}.

Lemma length_upto n : length (upto n) = Z.to_nat n.
Proof. unfold upto. by rewrite length_fmap, length_seq. Qed.
Lemma lookup_upto n i : (i < Z.to_nat n)%nat → upto n !! i = Some (Z.of_nat i).
Proof. intros H. unfold upto. by rewrite list_lookup_fmap, lookup_seq_lt. Qed.
Lemma in_log_start : in_log st.
Proof. unfold in_log, LOGBLOCKS, MAXOPBLOCKS. lia. Qed.

Lemma dsts_lt d i bn : 0 ≤ hd_n (block_data d st) ≤ LOGBLOCKS → dsts d !! i = Some bn → in_log (st + Z.of_nat i + 1).
Proof.
  intros Hn Hi. apply lookup_lt_Some in Hi. unfold dsts in Hi. rewrite length_fmap, length_upto in Hi.
  unfold in_log. lia.
Qed.

(** The log does not change when its blocks do not. *)
Lemma log_same d d' :
  0 ≤ hd_n (block_data d st) ≤ LOGBLOCKS → (∀ bn, in_log bn → block_data d' bn = block_data d bn) →
  dsts d' = dsts d ∧ recovery_writes d' = recovery_writes d.
Proof.
  intros Hn Heq. assert (dsts d' = dsts d) as E by (unfold dsts; by rewrite (Heq st in_log_start)).
  split; [done|]. unfold recovery_writes, installs. rewrite E, (Heq st in_log_start). f_equal.
  apply imap_ext. intros i b Hb. by rewrite (Heq _ (dsts_lt d i b Hn Hb)).
Qed.

Lemma installs_keys d : (installs d).*1 = dsts d.
Proof.
  unfold installs. rewrite fmap_imap. apply list_eq. intros i. rewrite list_lookup_imap.
  by destruct (dsts d !! i).
Qed.
Lemma installs_home d bn : blocks_ok (dsts d) → in_log bn → bn ∉ (installs d).*1.
Proof.
  intros Hok Hbn Hin. rewrite installs_keys in Hin. pose proof (bk_home _ Hok) as Hh.
  rewrite Forall_forall in Hh. by apply (Hh bn).
Qed.

Lemma recovered_out d bn : bn ∉ dsts d → ¬ in_log bn → recovered d bn = block_data d bn.
Proof.
  intros Hn Hl. unfold recovered, recovery_writes. apply apply_writes_notin.
  rewrite fmap_app, installs_keys, elem_of_app. cbn. rewrite list_elem_of_singleton.
  intros [Hin| ->]; [done|]. by apply Hl, in_log_start.
Qed.
Lemma recovered_in d i bn :
  log_ok d → dsts d !! i = Some bn → recovered d bn = block_data d (st + Z.of_nat i + 1).
Proof.
  intros [Hn Hok _] Hi. unfold recovered, recovery_writes. rewrite apply_writes_app.
  rewrite (apply_writes_notin [_]).
  - apply apply_writes_in; [rewrite installs_keys; apply Hok|]. unfold installs.
    apply elem_of_lookup_imap. eauto.
  - cbn. rewrite list_elem_of_singleton. intros ->. pose proof (bk_home _ Hok) as Hh.
    rewrite Forall_lookup in Hh. by apply (Hh i st), in_log_start.
Qed.

(** An empty header: nothing to recover. *)
Lemma empty_log d :
  hd_n (block_data d st) = 0 → length (block_data d st) = 1024%nat →
  log_ok d ∧ ∀ bn, ¬ in_log bn → recovered d bn = block_data d bn.
Proof.
  intros Hn Hl. assert (dsts d = []) as E.
  { apply length_zero_iff_nil. unfold dsts. rewrite length_fmap, length_upto. lia. }
  split.
  - split; [unfold LOGBLOCKS, MAXOPBLOCKS; lia| |done]. rewrite E. split; [by apply NoDup_nil|done|done].
  - intros bn Hbn. apply recovered_out; [rewrite E; apply not_elem_of_nil|done].
Qed.
Lemma cleared_log d data :
  block_data d st = put_head data [] → length data = 1024%nat →
  log_ok d ∧ ∀ bn, ¬ in_log bn → recovered d bn = block_data d bn.
Proof.
  intros E Hl. apply empty_log; rewrite E; [|by rewrite length_put_head].
  destruct (hd_put_head data []) as [-> _]; [done|cbn; lia|done|done].
Qed.

(** A recovery that is cut short after [k] writes changes nothing to what the next
    one recovers. *)
Lemma recovery_prefix d k :
  log_ok d →
  let d' := apply_writes (take k (recovery_writes d)) d in
  log_ok d' ∧ ∀ bn, ¬ in_log bn → recovered d' bn = recovered d bn.
Proof.
  intros Hok d'. pose proof Hok as [Hn Hd Hl].
  destruct (decide (k ≤ length (installs d))%nat) as [Hk|Hk].
  - assert (d' = apply_writes (take k (installs d)) d) as Ed
      by (unfold d', recovery_writes; by rewrite take_app_le by done).
    assert (∀ bn, bn ∈ (take k (installs d)).*1 → bn ∈ dsts d) as Hsub.
    { intros bn. rewrite fmap_take, installs_keys. apply elem_of_subseteq. apply subseteq_take. }
    assert (∀ bn, in_log bn → block_data d' bn = block_data d bn) as Hlog.
    { intros bn Hbn. rewrite Ed. apply apply_writes_notin. intros Hin%Hsub.
      apply (installs_home d bn Hd Hbn). by rewrite installs_keys. }
    destruct (log_same d d' Hn Hlog) as [E1 E2].
    assert (log_ok d') as Hok' by (split; rewrite ?E1, ?(Hlog st in_log_start); done).
    split; [done|]. intros bn Hbn. destruct (decide (bn ∈ dsts d)) as [Hin|Hout].
    + apply list_elem_of_lookup in Hin as [i Hi].
      rewrite (recovered_in d i), (recovered_in d' i) by (done || by rewrite E1).
      apply Hlog. by apply (dsts_lt d i bn).
    + rewrite !recovered_out by (done || by rewrite E1). rewrite Ed.
      apply apply_writes_notin. by intros Hin%Hsub.
  - assert (d' = apply_writes (recovery_writes d) d) as Ed.
    { unfold d'. rewrite take_ge; [done|]. unfold recovery_writes. rewrite length_app. cbn. lia. }
    destruct (cleared_log d' (block_data d st)) as [H1 H2]; [|done|].
    { rewrite Ed. unfold recovery_writes. rewrite apply_writes_app. apply block_data_insert. }
    split; [done|]. intros bn Hbn. rewrite H2 by done. by rewrite Ed.
Qed.

(** The writes of a commit of the blocks [bl] of [V], from the disk [d]: the log
    blocks, the header, the home blocks, the empty header. *)
Definition log_writes (V : Z → list Z) bl : list (Z * list Z) :=
  imap (λ i b, (st + Z.of_nat i + 1, V b)) bl.
Definition home_writes (V : Z → list Z) bl : list (Z * list Z) := (λ b, (b, V b)) <$> bl.
Definition commit_writes (V : Z → list Z) bl d : list (Z * list Z) :=
  log_writes V bl ++ [(st, put_head (block_data d st) bl)] ++
  home_writes V bl ++ [(st, put_head (put_head (block_data d st) bl) [])].

(** What the commit relies on: the log on the disk is empty, and [V] differs from the
    disk only in the blocks [bl] and in the log. *)
Record commit_ok (V : Z → list Z) bl d : Prop := {
  co_len : (length bl ≤ Z.to_nat LOGBLOCKS)%nat;
  co_blocks : blocks_ok bl;
  co_empty : hd_n (block_data d st) = 0;
  co_hdr : length (block_data d st) = 1024%nat;
  co_view : ∀ bn, bn ∉ bl → ¬ in_log bn → V bn = block_data d bn;
}.

Lemma log_writes_keys V bl bn : bn ∈ (log_writes V bl).*1 → st < bn ≤ st + Z.of_nat (length bl).
Proof.
  intros ([c x] & -> & Hin)%list_elem_of_fmap. unfold log_writes in Hin.
  apply elem_of_lookup_imap in Hin as (i & b & [= -> ->] & Hi). apply lookup_lt_Some in Hi. cbn. lia.
Qed.
Lemma log_writes_nodup V bl : NoDup (log_writes V bl).*1.
Proof.
  unfold log_writes. rewrite fmap_imap. apply NoDup_alt. intros i j bn Hi Hj.
  rewrite list_lookup_imap in Hi, Hj. destruct (bl !! i), (bl !! j); try done. cbn in *.
  injection Hi as Hi. injection Hj as Hj. lia.
Qed.
Lemma home_writes_keys V bl : (home_writes V bl).*1 = bl.
Proof. unfold home_writes. rewrite <- list_fmap_compose. apply list_fmap_id. Qed.

(** After the header is written the log holds the transaction. *)
Lemma logged V bl d :
  commit_ok V bl d →
  let d1 := apply_writes (log_writes V bl ++ [(st, put_head (block_data d st) bl)]) d in
  dsts d1 = bl ∧ log_ok d1 ∧
  (∀ i b, bl !! i = Some b → block_data d1 (st + Z.of_nat i + 1) = V b) ∧
  (∀ bn, ¬ in_log bn → block_data d1 bn = block_data d bn) ∧
  block_data d1 st = put_head (block_data d st) bl.
Proof.
  intros [Hlen Hok Hemp Hhdr Hview] d1.
  destruct (hd_put_head (block_data d st) bl Hhdr Hlen (bk_range _ Hok)) as [Hn Hb].
  assert (block_data d1 st = put_head (block_data d st) bl) as Est
    by (unfold d1; rewrite apply_writes_app; apply block_data_insert).
  assert (dsts d1 = bl) as Ed.
  { unfold dsts. rewrite Est, Hn. apply list_eq. intros i. rewrite list_lookup_fmap.
    destruct (bl !! i) as [b|] eqn:Hi.
    - rewrite lookup_upto by (apply lookup_lt_Some in Hi; lia). cbn. f_equal. by apply Hb.
    - rewrite lookup_ge_None_2; [done|]. apply lookup_ge_None in Hi. rewrite length_upto. lia. }
  split_and!; try done.
  - split; [|by rewrite Ed|].
    + rewrite Est, Hn. unfold LOGBLOCKS, MAXOPBLOCKS in *. lia.
    + by rewrite Est, length_put_head.
  - intros i b Hi. unfold d1. rewrite apply_writes_app. cbn. rewrite block_data_insert_ne by lia.
    apply apply_writes_in; [apply log_writes_nodup|]. unfold log_writes.
    apply elem_of_lookup_imap. eauto.
  - intros bn Hbn. unfold d1. apply apply_writes_notin. rewrite fmap_app, elem_of_app.
    intros [Hin%log_writes_keys|Hin]; apply Hbn; unfold in_log in *.
    + unfold LOGBLOCKS, MAXOPBLOCKS in *. lia.
    + cbn in Hin. apply list_elem_of_singleton in Hin as ->. apply in_log_start.
Qed.

Section prefixes.
Context (V : Z → list Z) (bl : list Z) (d : disk) (Hc : commit_ok V bl d).
Let header := (st, put_head (block_data d st) bl).
Let d1 := apply_writes (log_writes V bl ++ [header]) d.

Lemma prefix_log k :
  let d' := apply_writes (take k (log_writes V bl)) d in
  log_ok d' ∧ ∀ bn, ¬ in_log bn → recovered d' bn = block_data d bn.
Proof.
  intros d'. destruct Hc as [Hlen Hok Hemp Hhdr Hview].
  assert (∀ bn, bn ≤ st ∨ st + LOGBLOCKS < bn → block_data d' bn = block_data d bn) as Hsame.
  { intros bn Hbn. apply apply_writes_notin. rewrite fmap_take. intros Hin.
    apply (subseteq_take k) in Hin. apply log_writes_keys in Hin.
    unfold LOGBLOCKS, MAXOPBLOCKS in *. lia. }
  destruct (empty_log d') as [H1 H2]; [rewrite Hsame by lia; done|rewrite Hsame by lia; done|].
  split; [done|]. intros bn Hbn. rewrite H2 by done. apply Hsame. unfold in_log in Hbn. lia.
Qed.

Lemma prefix_home j :
  let d' := apply_writes (take j (home_writes V bl)) d1 in
  log_ok d' ∧ ∀ bn, ¬ in_log bn → recovered d' bn = V bn.
Proof.
  intros d'. destruct (logged V bl d Hc) as (Ed & Hok1 & Hlog1 & Hhome1 & _).
  fold header d1 in Ed, Hok1, Hlog1, Hhome1. destruct Hc as [Hlen Hok _ _ Hview].
  assert (∀ bn, bn ∈ (take j (home_writes V bl)).*1 → bn ∈ bl) as Hsub.
  { intros bn. rewrite fmap_take, home_writes_keys. apply elem_of_subseteq, subseteq_take. }
  assert (∀ bn, in_log bn → block_data d' bn = block_data d1 bn) as Hlog2.
  { intros bn Hbn. apply apply_writes_notin. intros Hin%Hsub. pose proof (bk_home _ Hok) as Hh.
    rewrite Forall_forall in Hh. by apply (Hh bn). }
  destruct (log_same d1 d' (lo_n _ Hok1) Hlog2) as [E1 _].
  assert (log_ok d') as Hok2.
  { destruct Hok1. split; rewrite ?E1, ?(Hlog2 st in_log_start); done. }
  split; [done|]. intros bn Hbn. destruct (decide (bn ∈ bl)) as [Hin|Hout].
  - pose proof Hin as [i Hi]%list_elem_of_lookup.
    rewrite (recovered_in d' i) by (done || by rewrite E1, Ed).
    rewrite Hlog2; [by apply Hlog1|]. apply (dsts_lt d1 i bn); [apply Hok1|by rewrite Ed].
  - rewrite recovered_out by (done || by rewrite E1, Ed). unfold d'.
    rewrite apply_writes_notin by (by intros Hin%Hsub). rewrite Hhome1 by done.
    symmetry. by apply Hview.
Qed.

Lemma prefix_all :
  let d' := apply_writes (commit_writes V bl d) d in
  log_ok d' ∧ hd_n (block_data d' st) = 0 ∧ length (block_data d' st) = 1024%nat ∧
  ∀ bn, ¬ in_log bn → block_data d' bn = V bn ∧ recovered d' bn = V bn.
Proof.
  intros d'. destruct (logged V bl d Hc) as (_ & _ & _ & Hhome1 & _).
  fold header d1 in Hhome1. destruct Hc as [Hlen Hok _ Hhdr Hview].
  assert (d' = <[st := put_head (put_head (block_data d st) bl) []]> (apply_writes (home_writes V bl) d1)) as E.
  { unfold d', commit_writes. rewrite (app_assoc (log_writes V bl)), apply_writes_app.
    fold header d1. rewrite apply_writes_app. done. }
  assert (∀ bn, ¬ in_log bn → block_data d' bn = V bn) as Hnew.
  { intros bn Hbn. rewrite E, block_data_insert_ne by (intros ->; by apply Hbn, in_log_start).
    destruct (decide (bn ∈ bl)) as [Hin|Hout].
    - apply apply_writes_in; [rewrite home_writes_keys; apply Hok|]. unfold home_writes.
      apply list_elem_of_fmap. eauto.
    - rewrite apply_writes_notin by (by rewrite home_writes_keys).
      rewrite Hhome1 by done. symmetry. by apply Hview. }
  assert (block_data d' st = put_head (put_head (block_data d st) bl) []) as Est
    by (rewrite E; apply block_data_insert).
  destruct (cleared_log d' (put_head (block_data d st) bl) Est) as [H1 H2]; [by rewrite length_put_head|].
  split_and!; [done| | |].
  - rewrite Est. destruct (hd_put_head (put_head (block_data d st) bl) []) as [-> _]; try done.
    + by rewrite length_put_head.
    + cbn. lia.
  - by rewrite Est, !length_put_head.
  - intros bn Hbn. split; [by apply Hnew|]. rewrite H2 by done. by apply Hnew.
Qed.

(** Recovery after the first [k] writes of a commit finds the old or the new blocks. *)
Lemma commit_prefix k :
  let d' := apply_writes (take k (commit_writes V bl d)) d in
  log_ok d' ∧
  ∀ bn, ¬ in_log bn →
    recovered d' bn = if decide (k ≤ length bl)%nat then block_data d bn else V bn.
Proof.
  cbv zeta.
  assert (length (log_writes V bl) = length bl) as HL by apply length_imap.
  assert (length (home_writes V bl) = length bl) as HH by apply length_fmap.
  destruct (decide (k ≤ length bl)%nat) as [Hk|Hk].
  { unfold commit_writes. rewrite take_app_le by lia. apply prefix_log. }
  destruct (decide (k ≤ S (length bl + length bl))%nat) as [Hk2|Hk2].
  - assert (take k (commit_writes V bl d) =
      (log_writes V bl ++ [header]) ++ take (k - S (length bl)) (home_writes V bl)) as ->.
    { unfold commit_writes. fold header. rewrite (app_assoc (log_writes V bl)), take_app_ge;
        rewrite ?length_app, HL; cbn [length]; [|lia].
      rewrite take_app_le by lia. do 2 f_equal. lia. }
    rewrite apply_writes_app. apply prefix_home.
  - rewrite take_ge; [|unfold commit_writes; rewrite !length_app, HL, HH; cbn; lia].
    destruct prefix_all as (H1 & _ & _ & H2). split; [done|]. intros bn Hbn. by apply H2.
Qed.
End prefixes.
End ondisk.

(** ** The code of the log *)

(** What may change in a call of log.c. *)
Definition lstep (me : nat) (s s' : kstate) : Prop :=
  ∃ B d w v l lg out u,
    s' = bio B d w v l (set_k_log lg (set_k_out out (set_k_uart u s))) ∧ quiet me (k_procs s) l.

Lemma bstep_lstep me s s' : bstep me s s' → lstep me s s'.
Proof.
  intros (B & d & w & v & l & -> & Hq). exists B, d, w, v, l, (k_log s), (k_out s), (k_uart s).
  split; [|done]. unfold bio. kstate_eq.
Qed.
Lemma lstep_refl me s : lstep me s s.
Proof. apply bstep_lstep, bstep_refl. Qed.
Lemma lstep_trans me s1 s2 s3 : lstep me s1 s2 → lstep me s2 s3 → lstep me s1 s3.
Proof.
  intros (B & d & w & v & l & lg & out & u & -> & Hq) (B' & d' & w' & v' & l' & lg' & out' & u' & -> & Hq').
  exists B', d', w', v', l', lg', out', u'. split; [unfold bio; kstate_eq|]. by eapply quiet_trans.
Qed.
Lemma lstep_log me s lg : lstep me s (set_k_log lg s).
Proof.
  exists (k_bufs s), (k_disk s), (k_dwrites s), (k_vd s), (k_procs s), lg, (k_out s), (k_uart s).
  split; [unfold bio; kstate_eq|apply quiet_refl].
Qed.
Lemma lstep_out me s out u : lstep me s (set_k_out out (set_k_uart u s)).
Proof.
  exists (k_bufs s), (k_disk s), (k_dwrites s), (k_vd s), (k_procs s), (k_log s), out, u.
  split; [unfold bio; kstate_eq|apply quiet_refl].
Qed.

Lemma cache_log me H P V s lg : cache me H P V s → cache me H P V (set_k_log lg s).
Proof. intros [[? ? ?] ? ? ?]. by split. Qed.
Lemma cache_out me H P V s out u : cache me H P V s → cache me H P V (set_k_out out (set_k_uart u s)).
Proof. intros [[? ? ?] ? ? ?]. by split. Qed.

(** A C loop over [0 .. n-1], with an invariant on the index. *)
Lemma wps_upto (I : nat → kstate → Prop) n body (Q : unit → kstate → Prop) s :
  I 0%nat s →
  (∀ i t, (i < Z.to_nat n)%nat → I i t → wp (sync resume (body (Z.of_nat i))) (λ _ t', I (S i) t') t) →
  (∀ t, I (Z.to_nat n) t → Q tt t) →
  wp (sync resume (for_each (upto n) body)) Q s.
Proof.
  intros H0 HS HQ.
  apply (wps_for_each _ (λ l t, ∃ i, l = drop i (upto n) ∧ (i ≤ Z.to_nat n)%nat ∧ I i t)).
  - exists 0%nat. split_and!; [done|lia|done].
  - intros x l t (i & E & Hi & HI).
    assert (i < Z.to_nat n)%nat as Hlt.
    { destruct (decide (i < Z.to_nat n)%nat); [done|]. rewrite drop_ge in E by (rewrite length_upto; lia). done. }
    rewrite (drop_S _ (Z.of_nat i)) in E by (by apply lookup_upto). injection E as -> ->.
    eapply wp_mono; [by apply HS|]. cbn. intros _ t' HI'. exists (S i). split_and!; [done|lia|done].
  - intros t (i & E & Hi & HI). apply HQ.
    assert (i = Z.to_nat n) as <-; [|done].
    destruct (decide (i < Z.to_nat n)%nat); [|lia].
    rewrite (drop_S _ (Z.of_nat i)) in E by (by apply lookup_upto). done.
Qed.

(** The log in memory: device 1, first block [st], the blocks [bl]. *)
Record log_at (st : Z) (bl : list Z) (lg : logstate) : Prop := {
  la_dev : l_dev lg = 1;
  la_start : l_start lg = st;
  la_range : 0 ≤ st ∧ st + LOGBLOCKS < 2 ^ 31;
  la_n : l_n lg = Z.of_nat (length bl);
  la_len : length (l_block lg) = Z.to_nat LOGBLOCKS;
  la_blocks : ∀ i b, bl !! i = Some b → l_block lg !! i = Some b;
}.

Definition log_conf (st : Z) (lg : logstate) : Prop :=
  l_dev lg = 1 ∧ l_start lg = st ∧ (0 ≤ st ∧ st + LOGBLOCKS < 2 ^ 31) ∧
  length (l_block lg) = Z.to_nat LOGBLOCKS.

Lemma wp_lh_block {F : Fuel} st bl i b s (Q : Z → kstate → Prop) :
  log_at st bl (k_log s) → bl !! i = Some b → Q b s → wp (sync resume (lh_block (Z.of_nat i))) Q s.
Proof.
  intros Hl Hi HQ. apply wps_of_wp. unfold lh_block. wp_go.
  destruct (Z.ltb_spec (Z.of_nat i) 0); [lia|]. rewrite Nat2Z.id.
  eapply wp_unwrap; [by apply (la_blocks _ _ _ Hl)|done].
Qed.

Lemma two_released (a b : Z) (i j : nat) :
  a ≠ b → delete a (delete b (<[b := j]> (<[a := i]> (∅ : gmap Z nat)))) = ∅.
Proof. intros Hab. by rewrite delete_insert_eq, delete_insert_ne, delete_insert_eq, !delete_empty. Qed.

(** The pins of the blocks of a transaction. *)
Definition pinned (bl : list Z) (bn : Z) : Z := if decide (bn ∈ bl) then 1 else 0.
Lemma pinned_in bl bn : bn ∈ bl → pinned bl bn = 1.
Proof. intros. unfold pinned. by rewrite decide_True. Qed.
Lemma pinned_out bl bn : bn ∉ bl → pinned bl bn = 0.
Proof. intros. unfold pinned. by rewrite decide_False. Qed.
Lemma pinned_use bl bn : pinned bl bn ≠ 0 → bn ∈ bl.
Proof. unfold pinned. by case_decide. Qed.

Section code.
Context {F : Fuel} (me : nat) (st : Z).
Implicit Types (bl : list Z) (V : Z → list Z) (P : Z → Z) (s : kstate).

(** One round of [write_log]: block [src] is copied to log block [to]. *)
Lemma wp_copy_to_log P V to src (L : list Z) s (Q : unit → kstate → Prop) :
  cache me ∅ P V s → 0 ≤ to < 2 ^ 31 → 0 ≤ src < 2 ^ 31 → to ≠ src → P src ≠ 0 → P to = 0 →
  (∀ x, P x ≠ 0 → x ∈ L) → (length L < NBUF)%nat →
  (∀ s', bstep me s s' → k_disk s' = <[to := V src]> (k_disk s) →
     k_dwrites s' = (to, V src) :: k_dwrites s → cache me ∅ P (put V to (V src)) s' → Q tt s') →
  ∀ m : K Z, (∀ t (R : Z → kstate → Prop), k_log t = k_log s → R src t → wp (sync resume m) R t) →
  wp (sync resume (i ← bread 1 to; x ← m; j ← bread 1 (u32 x); fb ← getb j;
        modb i (set_b_data (b_data fb)) ;; bwrite i ;; brelse j ;; brelse i)) Q s.
Proof.
  intros Hca Hto Hsrc Hne HPs HPt HL Hlen HQ m Hm. apply wps_bind.
  apply (wp_bread me ∅ P V to s); [done|done|done| |].
  { right. exists L. split; [|done]. intros x [[? Hx]|Hx]; [done|by apply HL]. }
  intros i s1 St1 Ed1 Ew1 C1. apply wps_bind, Hm; [by apply bstep_log in St1|].
  rewrite u32_small by lia. apply wps_bind.
  apply (wp_bread me (<[to := i]> ∅) P V src s1); [done|done|by rewrite lookup_insert_ne| |].
  { left. by apply (cache_pinned _ _ _ _ _ _ C1). }
  intros j s2 St2 Ed2 Ew2 C2. apply wps_bind.
  apply (wp_held me _ P V src j s2 _ C2); [by rewrite lookup_insert_eq|]. intros fb Hfb _.
  assert (<[src := j]> (<[to := i]> (∅ : gmap Z nat)) !! to = Some i) as Hi
    by (by rewrite lookup_insert_ne, lookup_insert_eq).
  rewrite Hfb. apply wps_bind.
  apply (wp_setdata me _ P V to i (λ _, V src) s2 _ C2 Hi); [apply (cache_vlen _ _ _ _ _ _ C2)|].
  intros s3 St3 Ed3 Ew3 C3. apply wps_bind.
  apply (wp_bwrite me _ P _ to i s3 _ C3 Hi). rewrite put_eq. intros s4 St4 Ed4 Ew4 C4. apply wps_bind.
  apply (wp_brelse me _ P _ src j s4 _ C4); [by rewrite lookup_insert_eq|by left|].
  intros s5 St5 Ed5 Ew5 C5. rewrite delete_insert_eq, delete_insert_ne, delete_empty in C5 by done.
  apply (wp_brelse me _ P _ to i s5 _ C5); [by rewrite lookup_insert_eq| |].
  { right. by rewrite put_eq, Ed5, Ed4, block_data_insert. }
  intros s6 St6 Ed6 Ew6 C6. rewrite delete_insert_eq, delete_empty in C6. apply HQ.
  - do 5 (eapply bstep_trans; [done|]). done.
  - congruence.
  - congruence.
  - done.
Qed.

(** One round of [install_trans]: log block [lb] is copied to its home [dst]. *)
Lemma wp_copy_home (recovering : bool) P V lb dst (L : list Z) s (Q : unit → kstate → Prop) :
  cache me ∅ P V s → 0 ≤ lb < 2 ^ 31 → 0 ≤ dst < 2 ^ 31 → lb ≠ dst → P lb = 0 →
  (if recovering then P dst = 0 ∧ (S (length L) < NBUF)%nat else 0 < P dst) →
  (∀ x, P x ≠ 0 → x ∈ L) → (length L < NBUF)%nat →
  (∀ s', bstep me s s' → k_disk s' = <[dst := V lb]> (k_disk s) →
     k_dwrites s' = (dst, V lb) :: k_dwrites s →
     cache me ∅ (if recovering then P else repin P dst (P dst - 1)) (put V dst (V lb)) s' → Q tt s') →
  ∀ m : K Z, (∀ t (R : Z → kstate → Prop), k_log t = k_log s → R dst t → wp (sync resume m) R t) →
  wp (sync resume (i ← bread 1 lb; x ← m; j ← bread 1 (u32 x); b ← getb i;
        modb j (set_b_data (b_data b)) ;; bwrite j ;; whenM (negb recovering) (bunpin j) ;;
        brelse i ;; brelse j)) Q s.
Proof.
  intros Hca Hlb Hdst Hne HPl HPd HL Hlen HQ m Hm. apply wps_bind.
  assert (V lb = block_data (k_disk s) lb) as Hclean by (by apply (cache_clean _ _ _ _ _ Hca)).
  apply (wp_bread me ∅ P V lb s); [done|done|done| |].
  { right. exists L. split; [|done]. intros x [[? Hx]|Hx]; [done|by apply HL]. }
  intros i s1 St1 Ed1 Ew1 C1. apply wps_bind, Hm; [by apply bstep_log in St1|].
  rewrite u32_small by lia. apply wps_bind.
  apply (wp_bread me (<[lb := i]> ∅) P V dst s1); [done|done|by rewrite lookup_insert_ne| |].
  { destruct recovering.
    - right. exists (lb :: L). split; [|cbn; lia]. intros x [[k Hx]|Hx]; apply elem_of_cons.
      + left. destruct (decide (x = lb)); [done|]. by rewrite lookup_insert_ne in Hx.
      + right. by apply HL.
    - left. apply (cache_pinned _ _ _ _ _ _ C1). lia. }
  intros j s2 St2 Ed2 Ew2 C2.
  assert (<[dst := j]> (<[lb := i]> (∅ : gmap Z nat)) !! lb = Some i) as Hi
    by (by rewrite lookup_insert_ne, lookup_insert_eq).
  assert (<[dst := j]> (<[lb := i]> (∅ : gmap Z nat)) !! dst = Some j) as Hj by (by rewrite lookup_insert_eq).
  apply wps_bind. apply (wp_held me _ P V lb i s2 _ C2 Hi). intros b Hb _.
  rewrite Hb. apply wps_bind.
  apply (wp_setdata me _ P V dst j (λ _, V lb) s2 _ C2 Hj); [apply (cache_vlen _ _ _ _ _ _ C2)|].
  intros s3 St3 Ed3 Ew3 C3. apply wps_bind.
  apply (wp_bwrite me _ P _ dst j s3 _ C3 Hj). rewrite put_eq. intros s4 St4 Ed4 Ew4 C4. apply wps_bind.
  set (P' := if recovering then P else repin P dst (P dst - 1)) in *.
  assert (∀ Q', (∀ s5, bstep me s4 s5 → k_disk s5 = k_disk s4 → k_dwrites s5 = k_dwrites s4 →
      cache me (<[dst := j]> (<[lb := i]> ∅)) P' (put V dst (V lb)) s5 → Q' tt s5) →
    wp (sync resume (whenM (negb recovering) (bunpin j))) Q' s4) as Hunpin.
  { intros Q' HQ'. unfold P' in HQ'. destruct recovering; cbn [negb whenM].
    - wp_go. apply HQ'; try done. apply bstep_refl.
    - by apply (wp_bunpin me _ P _ dst j s4 _ C4 Hj). }
  apply Hunpin. intros s5 St5 Ed5 Ew5 C5. apply wps_bind.
  apply (wp_brelse me _ P' _ lb i s5 _ C5 Hi).
  { right. rewrite put_ne, Ed5, Ed4, block_data_insert_ne by done. congruence. }
  intros s6 St6 Ed6 Ew6 C6. rewrite delete_insert_ne, delete_insert_eq, delete_empty in C6 by done.
  apply (wp_brelse me _ P' _ dst j s6 _ C6); [by rewrite lookup_insert_eq| |].
  { right. by rewrite put_eq, Ed6, Ed5, Ed4, block_data_insert. }
  intros s7 St7 Ed7 Ew7 C7. rewrite delete_insert_eq, delete_empty in C7. apply HQ.
  - do 6 (eapply bstep_trans; [done|]). done.
  - congruence.
  - congruence.
  - done.
Qed.

(** [write_head]. *)
Lemma wp_write_head P V bl (L : list Z) s (Q : unit → kstate → Prop) :
  cache me ∅ P V s → log_at st bl (k_log s) → (length bl ≤ Z.to_nat LOGBLOCKS)%nat →
  P st = 0 → (∀ x, P x ≠ 0 → x ∈ L) → (length L < NBUF)%nat →
  (∀ s', bstep me s s' → k_disk s' = <[st := put_head (V st) bl]> (k_disk s) →
     k_dwrites s' = (st, put_head (V st) bl) :: k_dwrites s →
     cache me ∅ P (put V st (put_head (V st) bl)) s' → Q tt s') →
  wp (sync resume write_head) Q s.
Proof.
  intros Hca Hl Hn HPs HL Hlen HQ. unfold write_head. pose proof Hl as [Hdev Hst Hr Hln _ _].
  wp_go. rewrite Hdev, Hst, Hln.
  change (u32 1) with 1. rewrite (u32_small st) by (unfold LOGBLOCKS, MAXOPBLOCKS in *; lia).
  apply (wp_bread me ∅ P V st s); [done|unfold LOGBLOCKS, MAXOPBLOCKS in *; lia|done| |].
  { right. exists L. split; [|done]. intros x [[? Hx]|Hx]; [done|by apply HL]. }
  intros i s1 St1 Ed1 Ew1 C1. apply wps_bind.
  assert (<[st := i]> (∅ : gmap Z nat) !! st = Some i) as Hi by (by rewrite lookup_insert_eq).
  apply (wp_setdata me _ P V st i (λ data, stl 4 data 0 (Z.of_nat (length bl))) s1 _ C1 Hi).
  { rewrite length_stl. apply (cache_vlen _ _ _ _ _ _ C1). }
  intros s2 St2 Ed2 Ew2 C2. apply wps_bind.
  apply (wps_upto (λ k t, bstep me s2 t ∧ k_disk t = k_disk s2 ∧ k_dwrites t = k_dwrites s2 ∧
    cache me (<[st := i]> ∅) P (put V st (put_blocks (stl 4 (V st) 0 (Z.of_nat (length bl)))
      (take k (imap (λ i v, (Z.of_nat i, v)) bl)))) t)).
  - split_and!; try done. apply bstep_refl.
  - intros k t Hk (St & Ed & Ew & C). rewrite Nat2Z.id in Hk.
    destruct (lookup_lt_is_Some_2 bl k Hk) as [v Hv]. apply wps_bind.
    apply (wp_lh_block st bl k v); [|done|].
    { rewrite (bstep_log _ _ _ St), (bstep_log _ _ _ St2), (bstep_log _ _ _ St1). done. }
    apply (wp_setdata me _ P _ st i (λ data, stl 4 data (Z.to_nat (4 + 4 * Z.of_nat k)) v) t _ C Hi).
    { rewrite length_stl. apply (cache_vlen _ _ _ _ _ _ C). }
    rewrite put_eq. intros t' St' Ed' Ew' C'.
    split_and!; [by eapply bstep_trans|congruence|congruence|].
    eapply cache_ext; [done| |exact C']. intros bn. destruct (decide (bn = st)) as [->|Hbn].
    + rewrite !put_eq, (take_S_r _ k (Z.of_nat k, v)) by (by rewrite list_lookup_imap, Hv).
      by rewrite put_blocks_app.
    + by rewrite !put_ne.
  - rewrite Nat2Z.id. intros t (St & Ed & Ew & C). rewrite take_ge in C by (rewrite length_imap; lia).
    change (put_blocks _ _) with (put_head (V st) bl) in C. apply wps_bind.
    apply (wp_bwrite me _ P _ st i t _ C Hi). rewrite put_eq. intros s4 St4 Ed4 Ew4 C4.
    apply (wp_brelse me _ P _ st i s4 _ C4 Hi).
    { right. by rewrite put_eq, Ed4, block_data_insert. }
    intros s5 St5 Ed5 Ew5 C5. rewrite delete_insert_eq, delete_empty in C5. apply HQ.
    + do 4 (eapply bstep_trans; [done|]). done.
    + congruence.
    + congruence.
    + done.
Qed.

(** [write_log]: the log blocks get the blocks of the transaction. *)
Lemma wp_write_log V bl s (Q : unit → kstate → Prop) :
  cache me ∅ (pinned bl) V s → log_at st bl (k_log s) → blocks_ok st bl → (length bl < NBUF)%nat →
  (∀ s' V', bstep me s s' → k_disk s' = apply_writes (log_writes st V bl) (k_disk s) →
     k_dwrites s' = rev (log_writes st V bl) ++ k_dwrites s →
     cache me ∅ (pinned bl) V' s' →
     (∀ bn, ¬ (st < bn ≤ st + Z.of_nat (length bl)) → V' bn = V bn) →
     (∀ i b, bl !! i = Some b → V' (st + Z.of_nat i + 1) = V b) → Q tt s') →
  wp (sync resume write_log) Q s.
Proof.
  intros Hca Hl Hok Hlen HQ. unfold write_log. pose proof Hl as [Hdev Hst Hr Hln Hll _]. wp_go. rewrite Hln.
  assert (Z.of_nat (length bl) ≤ LOGBLOCKS) as Hn
    by (unfold NBUF, LOGBLOCKS, MAXOPBLOCKS in *; lia).
  apply (wps_upto (λ k t, ∃ V', bstep me s t ∧ k_disk t = apply_writes (take k (log_writes st V bl)) (k_disk s) ∧
    k_dwrites t = rev (take k (log_writes st V bl)) ++ k_dwrites s ∧ cache me ∅ (pinned bl) V' t ∧
    (∀ bn, ¬ (st < bn ≤ st + Z.of_nat k) → V' bn = V bn) ∧
    (∀ i b, (i < k)%nat → bl !! i = Some b → V' (st + Z.of_nat i + 1) = V b))).
  - exists V. split_and!; try done; [apply bstep_refl|lia].
  - rewrite Nat2Z.id. intros k t Hk (V' & St & Ed & Ew & C & Hout & Hin).
    destruct (lookup_lt_is_Some_2 bl k Hk) as [b Hb]. apply wps_bind, wps_of_wp, wp_gets.
    pose proof (bk_range _ _ Hok) as Hrange. rewrite Forall_lookup in Hrange. specialize (Hrange k b Hb).
    pose proof (bk_home _ _ Hok) as Hhome. rewrite Forall_lookup in Hhome. specialize (Hhome k b Hb).
    unfold in_log in Hhome.
    rewrite (bstep_log _ _ _ St), Hdev, Hst. change (u32 1) with 1. rewrite u32_small by lia.
    assert (log_writes st V bl !! k = Some (st + Z.of_nat k + 1, V b)) as Hw
      by (unfold log_writes; by rewrite list_lookup_imap, Hb).
    assert (V' b = V b) as Eb by (apply Hout; lia).
    apply (wp_copy_to_log (pinned bl) V' (st + Z.of_nat k + 1) b bl t); try done; try lia.
    + rewrite pinned_in; [done|]. by eapply list_elem_of_lookup_2.
    + apply pinned_out. intros (i & Hi)%list_elem_of_lookup_1. pose proof (bk_home _ _ Hok) as Hh.
      rewrite Forall_lookup in Hh. apply (Hh i _ Hi). unfold in_log. lia.
    + apply pinned_use.
    + intros t' St' Ed' Ew' C'. exists (put V' (st + Z.of_nat k + 1) (V b)). rewrite Eb in *.
      rewrite (take_S_r _ _ _ Hw), apply_writes_app, rev_app_distr. split_and!.
      * by eapply bstep_trans.
      * by rewrite Ed', Ed.
      * by rewrite Ew', Ew.
      * done.
      * intros bn Hbn. rewrite put_ne by lia. apply Hout. lia.
      * intros i c Hi Hc. destruct (decide (i = k)) as [->|Hik].
        { rewrite put_eq. congruence. }
        rewrite put_ne by lia. apply Hin; [lia|done].
    + intros t0 R Et HR. apply (wp_lh_block st bl k b); [|done|done].
      by rewrite Et, (bstep_log _ _ _ St).
  - rewrite Nat2Z.id. intros t (V' & St & Ed & Ew & C & Hout & Hin).
    rewrite take_ge in Ed, Ew by (by unfold log_writes; rewrite length_imap).
    apply (HQ t V'); try done. intros i b Hb. apply Hin; [by eapply lookup_lt_Some|done].
Qed.

(** The message of a recovery. *)
Lemma wp_recovering a b s (Q : unit → kstate → Prop) :
  LPr ∉ k_held s → (∀ s', says s s' → Q tt s') →
  wp (printk (str "recovering tail %d dst %d" ++ [10]) [KInt a; KInt b]) Q s.
Proof.
  intros Hh HQ. unfold printk. apply wp_bind, wp_acquire; [done|]. apply wp_bind.
  assert (∀ (R : unit → kstate → Prop) t,
    (∀ t', says t t' → R tt t') →
    wp (printk_loop (str "recovering tail %d dst %d" ++ [10]) 0 [KInt a; KInt b]) R t) as Hloop.
  { intros R t HR.
    change (str "recovering tail %d dst %d" ++ [10]) with
      (str "recovering tail " ++ 37 :: 100 :: (str " dst " ++ 37 :: 100 :: ([10] ++ []))).
    apply wp_printk_text; [by repeat constructor|]. intros t1 H1.
    apply wp_printk_d. intros t2 H2. apply wp_printk_text; [by repeat constructor|]. intros t3 H3.
    apply wp_printk_d. intros t4 H4. apply wp_printk_text; [by repeat constructor|]. intros t5 H5.
    apply wp_ret, HR. do 4 (eapply says_trans; [done|]). done. }
  apply Hloop. intros s' (out & u & ->). apply (wp_release LPr (k_held s)); [done|].
  apply HQ. exists out, u. kstate_eq.
Qed.

Lemma lb_unpinned bl i : blocks_ok st bl → (i < Z.to_nat LOGBLOCKS)%nat → st + Z.of_nat i + 1 ∉ bl.
Proof.
  intros Hok Hi (j & Hj)%list_elem_of_lookup_1. pose proof (bk_home _ _ Hok) as Hh.
  rewrite Forall_lookup in Hh. apply (Hh j _ Hj). unfold in_log. lia.
Qed.
Lemma home_block bl i b :
  blocks_ok st bl → bl !! i = Some b → 0 ≤ b < 2 ^ 31 ∧ ¬ in_log st b.
Proof.
  intros [_ Hr Hh] Hi. rewrite Forall_lookup in Hr, Hh. eauto.
Qed.
Lemma blocks_ok_drop bl k : blocks_ok st bl → blocks_ok st (drop k bl).
Proof.
  intros [H1 H2 H3]. split; [|by apply Forall_drop|by apply Forall_drop].
  rewrite <- (take_drop k bl) in H1. by apply NoDup_app in H1 as (_ & _ & ?).
Qed.
Lemma pinned_drop bl k b x :
  NoDup bl → bl !! k = Some b → pinned (drop (S k) bl) x = repin (pinned (drop k bl)) b 0 x.
Proof.
  intros Hnd Hb. rewrite <- (take_drop k bl) in Hnd. apply NoDup_app in Hnd as (_ & _ & Hnd).
  rewrite (drop_S bl b k Hb) in Hnd |- *. apply list.NoDup_cons in Hnd as [Hnb _].
  unfold repin. case_decide; [subst; by apply pinned_out|].
  unfold pinned. apply decide_ext. rewrite elem_of_cons. tauto.
Qed.

(** [install_trans] of a commit: the home blocks are written and unpinned. *)
Lemma wp_install_commit V bl s (Q : unit → kstate → Prop) :
  cache me ∅ (pinned bl) V s → log_at st bl (k_log s) → blocks_ok st bl → (length bl < NBUF)%nat →
  (∀ i b, bl !! i = Some b → V (st + Z.of_nat i + 1) = V b) →
  (∀ s', bstep me s s' → k_disk s' = apply_writes (home_writes V bl) (k_disk s) →
     k_dwrites s' = rev (home_writes V bl) ++ k_dwrites s → cache me ∅ (λ _, 0) V s' → Q tt s') →
  wp (sync resume (install_trans false)) Q s.
Proof.
  intros Hca Hl Hok Hlen HV HQ. unfold install_trans. pose proof Hl as [Hdev Hst Hr Hln _ _].
  apply wps_bind, wps_of_wp, wp_gets. rewrite Hln.
  assert (Z.of_nat (length bl) ≤ LOGBLOCKS) as Hn by (unfold NBUF, LOGBLOCKS, MAXOPBLOCKS in *; lia).
  apply (wps_upto (λ k t, bstep me s t ∧ k_disk t = apply_writes (take k (home_writes V bl)) (k_disk s) ∧
    k_dwrites t = rev (take k (home_writes V bl)) ++ k_dwrites s ∧ cache me ∅ (pinned (drop k bl)) V t)).
  - split_and!; try done. apply bstep_refl.
  - rewrite Nat2Z.id. intros k t Hk (St & Ed & Ew & C). cbn [whenM].
    destruct (lookup_lt_is_Some_2 bl k Hk) as [b Hb].
    apply wps_bind, wps_of_wp, wp_ret. apply wps_bind, wps_of_wp, wp_gets.
    rewrite (bstep_log _ _ _ St), Hdev, Hst. change (u32 1) with 1. rewrite u32_small by lia.
    destruct (home_block bl k b Hok Hb) as [Hrange Hhome].
    assert (home_writes V bl !! k = Some (b, V b)) as Hw by (unfold home_writes; by rewrite list_lookup_fmap, Hb).
    assert (drop k bl = b :: drop (S k) bl) as Edr by (by apply drop_S).
    assert (pinned (drop k bl) b = 1) as Hpb by (apply pinned_in; rewrite Edr, elem_of_cons; by left).
    apply (wp_copy_home false (pinned (drop k bl)) V (st + Z.of_nat k + 1) b (drop k bl) t); try done; try lia.
    + intros E. apply Hhome. unfold in_log. lia.
    + apply pinned_out, lb_unpinned; [by apply blocks_ok_drop|lia].
    + apply pinned_use.
    + rewrite length_drop. lia.
    + intros t' St' Ed' Ew' C'. rewrite (HV k b Hb) in Ed', Ew', C'.
      rewrite (take_S_r _ _ _ Hw), apply_writes_app, rev_app_distr. split_and!.
      * by eapply bstep_trans.
      * by rewrite Ed', Ed.
      * by rewrite Ew', Ew.
      * eapply cache_ext; [| |exact C'].
        { intros x. rewrite Hpb. apply pinned_drop; [apply Hok|done]. }
        intros x. unfold put. by case_decide; subst.
    + intros t0 R Et HR. apply (wp_lh_block st bl k b); [|done|done].
      by rewrite Et, (bstep_log _ _ _ St).
  - rewrite Nat2Z.id. intros t (St & Ed & Ew & C).
    rewrite take_ge in Ed, Ew by (by unfold home_writes; rewrite length_fmap).
    apply HQ; try done. eapply cache_ext; [|done|exact C]. intros x. rewrite drop_ge by lia. done.
Qed.

(** [install_trans] of a recovery. *)
Lemma wp_install_recover V d s (Q : unit → kstate → Prop) :
  cache me ∅ (λ _, 0) V s → k_disk s = d → log_at st (dsts st d) (k_log s) → log_ok st d →
  (∀ s' V', lstep me s s' → k_log s' = k_log s → k_disk s' = apply_writes (installs st d) d →
     k_dwrites s' = rev (installs st d) ++ k_dwrites s → cache me ∅ (λ _, 0) V' s' → Q tt s') →
  wp (sync resume (install_trans true)) Q s.
Proof.
  intros Hca Hd Hl Hok HQ. unfold install_trans. pose proof Hl as [Hdev Hst Hr Hln Hll Hlb].
  pose proof Hok as [Hn Hbk _]. apply wps_bind, wps_of_wp, wp_gets. rewrite Hln.
  assert (length (dsts st d) ≤ Z.to_nat LOGBLOCKS)%nat as Hlen
    by (unfold dsts; rewrite length_fmap, length_upto; lia).
  apply (wps_upto (λ k t, ∃ V', lstep me s t ∧ k_log t = k_log s ∧
    k_disk t = apply_writes (take k (installs st d)) d ∧
    k_dwrites t = rev (take k (installs st d)) ++ k_dwrites s ∧ cache me ∅ (λ _, 0) V' t)).
  - exists V. split_and!; try done. apply lstep_refl.
  - rewrite Nat2Z.id. intros k t Hk (V' & St & El & Ed & Ew & C). cbn [whenM negb].
    destruct (lookup_lt_is_Some_2 _ k Hk) as [b Hb]. destruct (home_block _ k b Hbk Hb) as [Hrange Hhome].
    apply wps_bind, wps_bind. apply (wp_lh_block st (dsts st d) k b); [by rewrite El|done|].
    apply wps_of_wp, wp_recovering; [rewrite (ca_lock _ _ _ _ _ C); apply not_elem_of_nil|].
    intros t1 (out & u & ->). apply wps_bind, wps_of_wp, wp_gets.
    change (k_log (set_k_out _ _)) with (k_log t). rewrite El, Hdev, Hst.
    change (u32 1) with 1. rewrite u32_small by lia.
    assert (installs st d !! k = Some (b, block_data d (st + Z.of_nat k + 1))) as Hw
      by (unfold installs; by rewrite list_lookup_imap, Hb).
    assert (V' (st + Z.of_nat k + 1) = block_data d (st + Z.of_nat k + 1)) as Elb.
    { rewrite (cache_clean _ _ _ _ _ C) by done. rewrite Ed. apply apply_writes_notin.
      rewrite fmap_take, installs_keys. intros Hin%subseteq_take.
      apply (lb_unpinned _ k Hbk); [lia|done]. }
    apply (wp_copy_home true (λ _, 0) V' (st + Z.of_nat k + 1) b []); try done; try lia.
    + by apply cache_out.
    + intros E. apply Hhome. unfold in_log. lia.
    + split; [done|]. unfold NBUF, MAXOPBLOCKS. cbn. lia.
    + unfold NBUF, MAXOPBLOCKS. cbn. lia.
    + intros t' St' Ed' Ew' C'. exists (put V' b (V' (st + Z.of_nat k + 1))).
      rewrite (take_S_r _ _ _ Hw), apply_writes_app, rev_app_distr. split_and!.
      * eapply lstep_trans; [exact St|]. eapply lstep_trans; [apply lstep_out|by apply bstep_lstep].
      * by rewrite (bstep_log _ _ _ St').
      * rewrite Ed', Elb. cbn. by rewrite <- Ed.
      * rewrite Ew', Elb. cbn. by rewrite Ew.
      * done.
    + intros t0 R Et HR. apply (wp_lh_block st (dsts st d) k b); [|done|done].
      rewrite Et. change (k_log (set_k_out _ _)) with (k_log t). by rewrite El.
  - rewrite Nat2Z.id. intros t (V' & St & El & Ed & Ew & C).
    rewrite take_ge in Ed, Ew by (by unfold installs; rewrite length_imap). by apply (HQ t V').
Qed.

Lemma wp_modlog f s (Q : unit → kstate → Prop) :
  Q tt (set_k_log (f (k_log s)) s) → wp (sync resume (modlog f)) Q s.
Proof. intros HQ. by apply wps_of_wp, wp_modify. Qed.

(** [read_head]. *)
Lemma wp_read_head V d s (Q : unit → kstate → Prop) :
  cache me ∅ (λ _, 0) V s → k_disk s = d → log_conf st (k_log s) → log_ok st d →
  (∀ s' V', lstep me s s' → k_disk s' = d → k_dwrites s' = k_dwrites s →
     cache me ∅ (λ _, 0) V' s' → log_at st (dsts st d) (k_log s') → Q tt s') →
  wp (sync resume read_head) Q s.
Proof.
  intros Hca Hd (Hdev & Hst & Hr & Hlen) Hok HQ. unfold read_head.
  pose proof Hok as [Hn _ _]. wp_go. rewrite Hdev, Hst. change (u32 1) with 1.
  assert (0 ≤ st < 2 ^ 31) as Hst31 by (unfold LOGBLOCKS, MAXOPBLOCKS in *; lia).
  rewrite u32_small by lia.
  apply (wp_bread me ∅ (λ _, 0) V st s); [done|done|done| |].
  { right. exists []. split; [by intros x [[? Hx]|Hx]|]. unfold NBUF, MAXOPBLOCKS. cbn. lia. }
  intros i s1 St1 Ed1 Ew1 C1. apply wps_bind.
  assert (<[st := i]> (∅ : gmap Z nat) !! st = Some i) as Hi by (by rewrite lookup_insert_eq).
  apply (wp_held me _ _ V st i s1 _ C1 Hi). intros b Hb _.
  assert (V st = block_data d st) as Ev by (rewrite (cache_clean _ _ _ _ _ Hca) by done; by rewrite Hd).
  rewrite Hb, Ev. apply wps_bind, wp_modlog, wps_bind.
  set (n := hd_n (block_data d st)) in *. set (hb := hd_block (block_data d st)).
  apply (wps_upto (λ k t, ∃ lb, t = set_k_log (set_l_block lb (set_l_n n (k_log s1))) s1 ∧
    length lb = Z.to_nat LOGBLOCKS ∧ ∀ j, (j < k)%nat → lb !! j = Some (hb (Z.of_nat j)))).
  - exists (l_block (k_log s1)). split_and!; [|by rewrite (bstep_log _ _ _ St1)|lia].
    unfold set_l_n, set_l_block. done.
  - intros k t Hk (lb & -> & Hlb & Hj). unfold set_lh_block. wp_go.
    change (l_block _) with lb.
    destruct (Z.leb_spec 0 (Z.of_nat k)); [|lia]. destruct (Z.ltb_spec (Z.of_nat k) LOGBLOCKS); [|lia].
    cbn [andb]. apply wp_modlog. exists (<[k := hb (Z.of_nat k)]> lb). rewrite Nat2Z.id.
    split_and!; [kstate_eq|by rewrite length_insert|]. intros j Hjk.
    rewrite list_lookup_insert_full by lia. case_decide; [by subst|]. apply Hj. lia.
  - intros t (lb & -> & Hlb & Hj).
    apply (wp_brelse me (<[st := i]> ∅) (λ _, 0) V st i); [by apply cache_log|done| |].
    { right. kcbn. rewrite Ed1, Hd. done. }
    intros s' St' Ed' Ew' C'. rewrite delete_insert_eq, delete_empty in C'. apply (HQ s' V).
    + eapply lstep_trans; [by apply bstep_lstep|]. eapply lstep_trans; [apply lstep_log|by apply bstep_lstep].
    + rewrite Ed'. kcbn. congruence.
    + rewrite Ew'. kcbn. congruence.
    + done.
    + rewrite (bstep_log _ _ _ St'). kcbn. rewrite (bstep_log _ _ _ St1).
      assert (length (dsts st d) = Z.to_nat n) as Hld by (unfold dsts; by rewrite length_fmap, length_upto).
      split; try done; [cbn; lia|]. intros j c Hc. pose proof (lookup_lt_Some _ _ _ Hc).
      cbn. rewrite Hj by lia. rewrite <- Hc. unfold dsts. by rewrite list_lookup_fmap, lookup_upto by lia.
Qed.

Lemma log_at_nil bl lg : log_at st bl lg → log_at st [] (set_l_n 0 lg).
Proof. intros [? ? ? ? ? ?]. by split. Qed.

Lemma wp_recover V d s (Q : unit → kstate → Prop) :
  cache me ∅ (λ _, 0) V s → k_disk s = d → log_conf st (k_log s) → log_ok st d →
  (∀ s' V', lstep me s s' → k_disk s' = apply_writes (recovery_writes st d) d →
     k_dwrites s' = rev (recovery_writes st d) ++ k_dwrites s →
     cache me ∅ (λ _, 0) V' s' → log_at st [] (k_log s') → Q tt s') →
  wp (sync resume recover_from_log) Q s.
Proof.
  intros Hca Hd Hl Hok HQ. unfold recover_from_log. apply wps_bind.
  apply (wp_read_head V d s); try done. intros s1 V1 St1 Ed1 Ew1 C1 L1. apply wps_bind.
  apply (wp_install_recover V1 d s1); try done. intros s2 V2 St2 El2 Ed2 Ew2 C2.
  apply wps_bind, wp_modlog. rewrite El2.
  set (s3 := set_k_log _ s2).
  assert (V2 st = block_data d st) as Ev.
  { rewrite (cache_clean _ _ _ _ _ C2) by done. rewrite Ed2. apply apply_writes_notin.
    apply installs_home; [apply Hok|apply in_log_start]. }
  apply (wp_write_head (λ _, 0) V2 [] [] s3); try done.
  - by apply cache_log.
  - by apply log_at_nil in L1.
  - cbn. lia.
  - unfold NBUF, MAXOPBLOCKS. cbn. lia.
  - intros s4 St4 Ed4 Ew4 C4. apply (HQ s4 (put V2 st (put_head (V2 st) []))); try done.
    + eapply lstep_trans; [exact St1|]. eapply lstep_trans; [exact St2|].
      eapply lstep_trans; [apply lstep_log|by apply bstep_lstep].
    + unfold recovery_writes. rewrite apply_writes_app, Ed4, Ev. cbn. unfold s3. kcbn. by rewrite Ed2.
    + unfold recovery_writes. rewrite rev_app_distr, Ew4, Ev. cbn. unfold s3. kcbn. by rewrite Ew2, Ew1.
    + rewrite (bstep_log _ _ _ St4). by apply log_at_nil in L1.
Qed.

(** [commit]. *)
Definition txn_writes V bl d : list (Z * list Z) :=
  match bl with [] => [] | _ => commit_writes st V bl d end.

Lemma wp_commit V bl d s (Q : unit → kstate → Prop) :
  cache me ∅ (pinned bl) V s → k_disk s = d → log_at st bl (k_log s) → blocks_ok st bl →
  (length bl < NBUF)%nat →
  (∀ s' V', lstep me s s' → k_disk s' = apply_writes (txn_writes V bl d) d →
     k_dwrites s' = rev (txn_writes V bl d) ++ k_dwrites s →
     cache me ∅ (λ _, 0) V' s' → (∀ bn, ¬ in_log st bn → V' bn = V bn) →
     k_log s' = set_l_n 0 (k_log s) → Q tt s') →
  wp (sync resume commit) Q s.
Proof.
  intros Hca Hd Hl Hok Hlen HQ. unfold commit. apply wps_bind, wps_of_wp, wp_gets.
  rewrite (la_n _ _ _ Hl). destruct bl as [|b0 bl'].
  { cbn [length Z.of_nat Z.ltb Z.compare whenM]. wp_go. apply (HQ s V); try done; [apply lstep_refl|].
    pose proof (la_n _ _ _ Hl). destruct (k_log s). cbn in *. by subst. }
  set (bl := b0 :: bl') in *. assert (0 < length bl)%nat as Hpos by (cbn; lia).
  change (txn_writes V bl d) with (commit_writes st V bl d) in HQ. clearbody bl.
  destruct (Z.ltb_spec 0 (Z.of_nat (length bl))); [|lia]. cbn [whenM].
  assert (Z.of_nat (length bl) ≤ LOGBLOCKS) as Hn by (unfold NBUF, LOGBLOCKS, MAXOPBLOCKS in *; lia).
  assert (∀ bn, in_log st bn → pinned bl bn = 0) as Hpl.
  { intros bn Hbn. apply pinned_out. intros (i & Hi)%list_elem_of_lookup_1.
    by destruct (home_block bl i bn Hok Hi). }
  assert (V st = block_data d st) as Est.
  { rewrite (cache_clean _ _ _ _ _ Hca), Hd; [done|]. apply Hpl, in_log_start. }
  apply wps_bind, (wp_write_log V bl s); try done. intros s1 V1 St1 Ed1 Ew1 C1 Hout1 Hin1.
  assert (V1 st = block_data d st) as Est1 by (rewrite Hout1 by lia; done).
  apply wps_bind, (wp_write_head (pinned bl) V1 bl bl s1); try done.
  { by rewrite (bstep_log _ _ _ St1). } { lia. } { apply Hpl, in_log_start. } { apply pinned_use. }
  rewrite Est1. intros s2 St2 Ed2 Ew2 C2. set (V2 := put V1 st _) in C2.
  assert (∀ i b, bl !! i = Some b → V2 b = V b) as HV2.
  { intros i b Hb. destruct (home_block bl i b Hok Hb) as [_ Hh]. unfold V2, in_log in *.
    rewrite put_ne, Hout1; [done|lia|]. unfold LOGBLOCKS, MAXOPBLOCKS in *. lia. }
  apply wps_bind, (wp_install_commit V2 bl s2); try done.
  { by rewrite (bstep_log _ _ _ St2), (bstep_log _ _ _ St1). }
  { intros i b Hb. rewrite (HV2 i b Hb). unfold V2. rewrite put_ne by lia. by apply Hin1. }
  assert (home_writes V2 bl = home_writes V bl) as ->.
  { unfold home_writes. apply list_eq. intros i. rewrite !list_lookup_fmap.
    destruct (bl !! i) as [b|] eqn:Hb; [|done]. cbn. by rewrite (HV2 i b Hb). }
  intros s3 St3 Ed3 Ew3 C3. apply wps_bind, wp_modlog.
  assert (k_log s3 = k_log s) as El by (rewrite (bstep_log _ _ _ St3), (bstep_log _ _ _ St2); by apply bstep_log in St1).
  rewrite El. set (s4 := set_k_log _ s3).
  apply (wp_write_head (λ _, 0) V2 [] [] s4); try done.
  { by apply cache_log. } { by eapply log_at_nil. } { cbn. lia. } { unfold NBUF, MAXOPBLOCKS. cbn. lia. }
  unfold V2. rewrite put_eq. fold V2. intros s5 St5 Ed5 Ew5 C5. eapply (HQ s5); [..|exact C5| |].
  - do 3 (eapply lstep_trans; [by apply bstep_lstep|]).
    eapply lstep_trans; [apply lstep_log|by apply bstep_lstep].
  - rewrite Ed5. unfold s4. kcbn. rewrite Ed3, Ed2, Ed1, Hd. unfold commit_writes.
    rewrite !apply_writes_app. done.
  - rewrite Ew5. unfold s4. kcbn. rewrite Ew3, Ew2, Ew1. unfold commit_writes.
    rewrite !rev_app_distr. cbn. rewrite <- !app_assoc. done.
  - intros bn Hbn. rewrite put_ne by (intros ->; by apply Hbn, in_log_start). unfold V2.
    rewrite put_ne by (intros ->; by apply Hbn, in_log_start). apply Hout1.
    unfold in_log, LOGBLOCKS, MAXOPBLOCKS in *. lia.
  - by rewrite (bstep_log _ _ _ St5).
Qed.

(** [log_write]: the search for the block in the log. *)
Lemma scan_log bl bn s k :
  log_at st bl (k_log s) → Forall (λ b, 0 ≤ b < 2 ^ 31) bl →
  for_list (drop k (upto (Z.of_nat (length bl)))) (λ j,
    v ← lh_block j; ret (if u32 v =? bn then Some j else None)) s =
  Ret ((λ i, Z.of_nat (k + i)) <$> find_index (λ b, b =? bn) (drop k bl)) s.
Proof.
  intros Hl Hr. remember (length bl - k)%nat as m eqn:Em. revert k Em. induction m as [|m IH]; intros k Em.
  - rewrite !drop_ge by (rewrite ?length_upto; lia). done.
  - destruct (lookup_lt_is_Some_2 bl k) as [b Hb]; [lia|].
    rewrite (drop_S bl b k Hb), (drop_S _ (Z.of_nat k)) by (apply lookup_upto; lia).
    cbn [for_list find_index].
    assert (lh_block (Z.of_nat k) s = Ret b s) as Elh.
    { unfold lh_block. rewrite bind_gets. destruct (Z.ltb_spec (Z.of_nat k) 0); [lia|].
      rewrite Nat2Z.id, (la_blocks _ _ _ Hl k b Hb). done. }
    erewrite bind_run; [|rewrite (bind_run _ _ _ _ _ Elh); reflexivity].
    rewrite Forall_lookup in Hr. specialize (Hr k b Hb). rewrite u32_small by lia.
    destruct (b =? bn); [cbn; by rewrite Nat.add_0_r|]. rewrite IH by lia.
    f_equal. rewrite <- option_fmap_compose. destruct (find_index _ _); cbn; [|done]. f_equal. lia.
Qed.

(** A transaction under way: the blocks [bl] are logged. *)
Record txn (H : gmap Z nat) V bl s : Prop := {
  tx_cache : cache me H (pinned bl) V s;
  tx_log : log_at st bl (k_log s);
  tx_blocks : blocks_ok st bl;
  tx_active : 1 ≤ l_outstanding (k_log s);
  tx_idle : l_committing (k_log s) = false;
}.

(** The blocks logged after a [log_write] of [bn]. *)
Definition absorb bl (bn : Z) : list Z := if decide (bn ∈ bl) then bl else bl ++ [bn].

Lemma find_index_elem bl bn :
  find_index (λ b, b =? bn) bl = None ↔ bn ∉ bl.
Proof.
  rewrite find_index_None. split.
  - intros Hall (i & Hi)%list_elem_of_lookup_1. specialize (Hall i bn Hi). lia.
  - intros Hn i x Hx. apply Z.eqb_neq. intros ->. apply Hn. by eapply list_elem_of_lookup_2.
Qed.

Lemma absorb_ok bl bn : blocks_ok st bl → 0 ≤ bn < 2 ^ 31 → ¬ in_log st bn → blocks_ok st (absorb bl bn).
Proof.
  intros [H1 H2 H3] Hr Hh. unfold absorb. case_decide as Hin; [done|]. split.
  - apply NoDup_app. split_and!; [done| |by apply NoDup_singleton]. intros x Hx ->%list_elem_of_singleton. done.
  - apply Forall_app. split; [done|]. by apply Forall_singleton.
  - apply Forall_app. split; [done|]. by apply Forall_singleton.
Qed.

Lemma set_lh_block_run j v s :
  (j < Z.to_nat LOGBLOCKS)%nat →
  set_lh_block (Z.of_nat j) v s =
  Ret tt (set_k_log (set_l_block (<[j := v]> (l_block (k_log s))) (k_log s)) s).
Proof.
  intros Hj. unfold set_lh_block. rewrite bind_gets. destruct (Z.leb_spec 0 (Z.of_nat j)); [|lia].
  destruct (Z.ltb_spec (Z.of_nat j) LOGBLOCKS); [|lia]. cbn [andb]. by rewrite Nat2Z.id.
Qed.

Lemma log_write_run H V bl bn i s :
  txn H V bl s → H !! bn = Some i → (length bl < Z.to_nat LOGBLOCKS)%nat →
  log_write i s = Ret tt (if decide (bn ∈ bl) then s else
    set_k_log (set_l_n (l_n (k_log s) + 1) (set_l_block (<[length bl := bn]> (l_block (k_log s))) (k_log s)))
      (set_k_bufs (alter (set_b_refcnt 2) i (k_bufs s)) s)).
Proof.
  intros [Hca Hl Hok Hact Hidle] Hi Hlen. pose proof (ca_lock _ _ _ _ _ Hca) as Hh.
  destruct (cache_me _ _ _ _ _ Hca) as (p & _ & _ & _ & HB & _).
  destruct (held_lookup _ _ _ _ _ _ _ _ HB Hi) as (_ & b & Hb & Hheld).
  pose proof (hb_range _ _ _ _ _ Hheld) as Hr.
  unfold log_write. rewrite (bind_run _ _ _ _ _ (acquire_run LLog s ltac:(rewrite Hh; apply not_elem_of_nil))).
  rewrite bind_gets. set (s1 := upd_held (cons LLog) s). change (k_log s1) with (k_log s).
  rewrite (la_n _ _ _ Hl). destruct (Z.leb_spec LOGBLOCKS (Z.of_nat (length bl))); [lia|].
  destruct (Z.ltb_spec (l_outstanding (k_log s)) 1); [lia|].
  rewrite (bind_run _ _ _ _ _ (getb_run i b s1 Hb)), (hb_bn _ _ _ _ _ Hheld).
  pose proof (scan_log bl bn s1 0 Hl (bk_range _ _ Hok)) as Hscan. rewrite !drop_0 in Hscan. cbn in Hscan.
  rewrite (bind_run _ _ _ _ _ Hscan). cbv zeta. rewrite i32_small by lia.
  destruct (find_index (λ b, b =? bn) bl) as [j|] eqn:Ef; cbn [fmap option_fmap option_map default from_option id].
  - apply find_index_Some in Ef as [(x & Hx & Ex%Z.eqb_eq) _]. subst x.
    rewrite decide_True by (by eapply list_elem_of_lookup_2).
    pose proof (lookup_lt_Some _ _ _ Hx).
    rewrite (bind_run _ _ _ _ _ (set_lh_block_run j bn s1 ltac:(lia))). change (k_log s1) with (k_log s).
    rewrite (list_insert_id _ j) by (by apply (la_blocks _ _ _ Hl)).
    destruct (Z.eqb_spec (Z.of_nat j) (Z.of_nat (length bl))); [lia|]. cbn [whenM]. rewrite bind_ret_l.
    rewrite (release_run LLog (k_held s)) by done. unfold s1. f_equal.
    destruct s as [], k_log. reflexivity.
  - apply find_index_elem in Ef. rewrite decide_False by done.
    rewrite (bind_run _ _ _ _ _ (set_lh_block_run (length bl) bn s1 Hlen)), Z.eqb_refl.
    change (k_log s1) with (k_log s). cbn [whenM].
    set (s2 := set_k_log _ s1).
    assert (bpin i s2 = Ret tt (set_k_bufs (alter (set_b_refcnt 2) i (k_bufs s)) s2)) as Hpin.
    { rewrite bpin_run by (cbn; rewrite Hh; apply not_elem_of_cons; split; [done|apply not_elem_of_nil]).
      change (k_bufs s2) with (k_bufs s). rewrite !(list_alter_insert _ _ i b) by done.
      unfold share. rewrite (hb_ref _ _ _ _ _ Hheld), pinned_out by done. done. }
    erewrite bind_run; [|rewrite (bind_run _ _ _ _ _ Hpin); reflexivity].
    rewrite (release_run LLog (k_held s)) by done. unfold s2, s1. f_equal.
    destruct s as [], k_log. cbn in *. by rewrite <- (la_n _ _ _ Hl).
Qed.

Lemma log_write_txn H V bl bn i s :
  txn H V bl s → H !! bn = Some i → ¬ in_log st bn → (length bl < Z.to_nat LOGBLOCKS)%nat →
  ∃ s', log_write i s = Ret tt s' ∧ txn H V (absorb bl bn) s' ∧ lstep me s s' ∧
    k_disk s' = k_disk s ∧ k_dwrites s' = k_dwrites s ∧
    l_outstanding (k_log s') = l_outstanding (k_log s).
Proof.
  intros Htx Hi Hhome Hlen. rewrite (log_write_run H V bl bn i s) by done. eexists. split; [done|].
  pose proof Htx as [Hca Hl Hok Hact Hidle].
  destruct (cache_me _ _ _ _ _ Hca) as (p & _ & _ & _ & HB & _).
  destruct (held_lookup _ _ _ _ _ _ _ _ HB Hi) as (_ & b & Hb & Hheld).
  pose proof (hb_range _ _ _ _ _ Hheld) as Hr.
  pose proof (absorb_ok bl bn Hok Hr Hhome) as Hok'. unfold absorb in *.
  case_decide as Hin; [split_and!; try done; apply lstep_refl|]. split_and!; try done.
  - split; try done.
    + apply cache_log. eapply cache_ext; [|done|by apply (cache_repin me H (pinned bl) V bn i 1)].
      intros x. unfold repin. case_decide; [subst; apply pinned_in, elem_of_app; right; by apply list_elem_of_singleton|].
      unfold pinned. apply decide_ext. rewrite elem_of_app, list_elem_of_singleton. tauto.
    + kcbn. destruct Hl as [H1 H2 H3 H4 H5 H6]. split; try done.
      * cbn. rewrite length_app, H4. cbn. lia.
      * cbn. by rewrite length_insert.
      * intros j c Hc. cbn. rewrite list_lookup_insert_full by lia.
        apply lookup_app_Some in Hc as [Hc|[Hj Hc]].
        { rewrite decide_False by (apply lookup_lt_Some in Hc; lia). by apply H6. }
        destruct (j - length bl)%nat eqn:E; [|done]. rewrite decide_True by lia. done.
  - eapply lstep_trans; [|apply lstep_log]. apply bstep_lstep. rewrite bio_bufs.
    eexists _, _, _, _, _. split; [done|apply quiet_refl].
Qed.

(** [begin_op] when the log has room, and [end_op] of the last system call. *)
Lemma begin_op_run V s :
  cache me ∅ (λ _, 0) V s → log_at st [] (k_log s) → l_committing (k_log s) = false →
  l_outstanding (k_log s) = 0 →
  ∃ s', begin_op s = Ret tt s' ∧ txn ∅ V [] s' ∧ lstep me s s' ∧ k_disk s' = k_disk s ∧
    k_dwrites s' = k_dwrites s ∧ l_outstanding (k_log s') = 1.
Proof.
  intros Hca Hl Hcom Hout. pose proof (ca_lock _ _ _ _ _ Hca) as Hh.
  exists (set_k_log (set_l_outstanding 1 (k_log s)) s). split_and!; try done.
  - unfold begin_op. rewrite (bind_run _ _ _ _ _ (acquire_run LLog s ltac:(rewrite Hh; apply not_elem_of_nil))).
    unfold sleep_loop. cbn [loop]. erewrite bind_run; cycle 1.
    { rewrite bind_gets. change (k_log (upd_held _ s)) with (k_log s).
      rewrite Hcom, (la_n _ _ _ Hl), Hout.
      change (LOGBLOCKS <? Z.of_nat (@length Z []) + (0 + 1) * MAXOPBLOCKS) with false. cbv iota. unfold modlog. rewrite bind_modify.
      erewrite bind_run by (by apply (release_run LLog (k_held s))). reflexivity. }
    ret_eq.
  - split; try done.
    + apply cache_log. by eapply cache_ext; [| |exact Hca].
    + by destruct Hl; split.
    + split; [by apply NoDup_nil|by apply Forall_nil|by apply Forall_nil].
  - apply lstep_log.
Qed.

Lemma cache_quiet H P V s l :
  cache me H P V s → quiet me (k_procs s) l → cache me H P V (set_k_procs l s).
Proof.
  intros [H1 H2 H3 H4] Hq. split; try done; [by apply running_quiet|].
  intros p Hp. kcbn. apply H4. cbn in Hp. by rewrite <- (proj1 (proj2 Hq)).
Qed.

Lemma wp_end_op V bl s (Q : unit → kstate → Prop) :
  txn ∅ V bl s → l_outstanding (k_log s) = 1 → (length bl < NBUF)%nat →
  (∀ s' V', lstep me s s' → k_disk s' = apply_writes (txn_writes V bl (k_disk s)) (k_disk s) →
     k_dwrites s' = rev (txn_writes V bl (k_disk s)) ++ k_dwrites s →
     cache me ∅ (λ _, 0) V' s' → (∀ bn, ¬ in_log st bn → V' bn = V bn) →
     log_at st [] (k_log s') → l_outstanding (k_log s') = 0 → l_committing (k_log s') = false → Q tt s') →
  wp (sync resume end_op) Q s.
Proof.
  intros [Hca Hl Hok _ Hidle] Hout Hlen HQ. pose proof (ca_lock _ _ _ _ _ Hca) as Hh. unfold end_op.
  apply wps_bind. eapply wps_eq; [apply acquire_run; rewrite Hh; apply not_elem_of_nil|].
  set (lg0 := set_l_outstanding 0 (k_log s)).
  apply wps_bind, wp_modlog. change (k_log (upd_held _ s)) with (k_log s). rewrite Hout.
  change (set_l_outstanding (1 - 1) (k_log s)) with lg0.
  apply wps_bind, wps_of_wp, wp_gets. change (k_log (set_k_log lg0 _)) with lg0.
  change (l_committing lg0) with (l_committing (k_log s)). rewrite Hidle.
  change (l_outstanding lg0 =? 0) with true. cbv zeta iota.
  apply wps_bind, wp_modlog, wps_bind. eapply wps_eq; [by apply (release_run LLog (k_held s))|].
  set (lg1 := set_l_committing true lg0).
  match goal with |- wp _ _ ?t => replace t with (set_k_log lg1 s) by (unfold lg1, lg0; kstate_eq) end.
  assert (log_at st bl lg1 ∧ l_outstanding lg1 = 0) as [Hlg1 Ho1] by (split; [by destruct Hl; split|done]).
  clearbody lg1. clear lg0.
  cbn [whenM]. apply wps_bind.
  apply (wp_commit V bl (k_disk s)); try done; [by apply cache_log|].
  intros s1 V1 St1 Ed1 Ew1 C1 HV1 El1. pose proof (ca_lock _ _ _ _ _ C1) as Hh1.
  apply wps_bind. eapply wps_eq; [apply acquire_run; rewrite Hh1; apply not_elem_of_nil|].
  apply wps_bind, wp_modlog, wps_bind. pose proof (ca_run _ _ _ _ _ C1) as [Hc1 Hl1 _].
  eapply wps_eq; [apply wakeup_run; [done|]|].
  { intros j _. cbn. rewrite Hh1, list_elem_of_singleton. done. }
  eapply wps_eq; [by apply (release_run LLog (k_held s1))|]. kcbn. change (cur _) with (cur s1). rewrite Hc1.
  set (l := imap _ _). assert (quiet me (k_procs s1) l) as Hq by apply quiet_wake. clearbody l.
  match goal with |- Q tt ?t => replace t with (set_k_procs l (set_k_log (set_l_committing false (k_log s1)) s1))
    by kstate_eq end.
  assert (lstep me s (set_k_procs l (set_k_log (set_l_committing false (k_log s1)) s1))) as Hst.
  { eapply lstep_trans; [apply lstep_log|]. eapply lstep_trans; [exact St1|].
    eapply lstep_trans; [apply (lstep_log me s1 (set_l_committing false (k_log s1)))|]. apply bstep_lstep.
    exists (k_bufs s1), (k_disk s1), (k_dwrites s1), (k_vd s1), l. split; [|exact Hq]. unfold bio. kstate_eq. }
  apply (HQ _ V1); try done.
  - apply cache_quiet; [by apply cache_log|done].
  - kcbn. rewrite El1. kcbn. destruct Hlg1. by split.
  - kcbn. by rewrite El1.
Qed.

(** ** Start-up *)

(** Process [me] runs with a cache that holds nothing dirty, on the disk [d]. *)
Definition boots (d : disk) s : Prop :=
  cache me ∅ (λ _, 0) (block_data d) s ∧ k_disk s = d ∧
  length (l_block (k_log s)) = Z.to_nat LOGBLOCKS.

Lemma wp_initlog d sb s (Q : unit → kstate → Prop) :
  boots d s → log_ok st d → i32 (sb_logstart sb) = st → 0 ≤ st ∧ st + LOGBLOCKS < 2 ^ 31 →
  (∀ s' V', lstep me s s' → k_disk s' = apply_writes (recovery_writes st d) d →
     k_dwrites s' = rev (recovery_writes st d) ++ k_dwrites s →
     cache me ∅ (λ _, 0) V' s' → log_at st [] (k_log s') → Q tt s') →
  wp (sync resume (initlog 1 sb)) Q s.
Proof.
  intros (Hca & Hd & Hlen) Hok Hst Hr HQ. unfold initlog.
  change (BSIZE <=? 4 + 4 * LOGBLOCKS) with false. cbv iota.
  apply wps_bind, wp_modlog, wps_bind, wp_modlog. rewrite Hst. kcbn.
  set (lg := set_l_dev 1 (set_l_start st (k_log s))).
  replace (set_k_log _ (set_k_log _ s)) with (set_k_log lg s) by (unfold lg; kstate_eq).
  apply (wp_recover (block_data d) d); [by apply cache_log|done| |done|].
  { destruct Hr. by split_and!. }
  intros s' V' St Ed Ew C L. by apply (HQ s' V').
Qed.

Lemma initlog_run d sb s :
  boots d s → log_ok st d → i32 (sb_logstart sb) = st → 0 ≤ st ∧ st + LOGBLOCKS < 2 ^ 31 →
  ∃ s', sync resume (initlog 1 sb) s = Ret tt s' ∧ k_disk s' = apply_writes (recovery_writes st d) d ∧
    k_dwrites s' = rev (recovery_writes st d) ++ k_dwrites s.
Proof.
  intros Hb Hok Hst Hr.
  destruct (proj1 (wp_run (sync resume (initlog 1 sb)) (λ _ s', k_disk s' = apply_writes (recovery_writes st d) d ∧
    k_dwrites s' = rev (recovery_writes st d) ++ k_dwrites s) s)) as ([] & s' & E & H1 & H2); [|eauto].
  apply (wp_initlog d); try done.
Qed.
End code.

(** The disks left by recoveries that the machine stopping cuts short: each time it
    starts again, the cache is empty, and [initlog] gets as far as its first [k] disk
    writes. *)
Inductive cut_recoveries {F : Fuel} (sb : superblock) : disk → disk → Prop :=
  | cut_none d : cut_recoveries sb d d
  | cut_once me d s s' ws k d' :
      boots me d s → sync resume (initlog 1 sb) s = Ret tt s' →
      k_dwrites s' = rev ws ++ k_dwrites s →
      cut_recoveries sb (apply_writes (take k ws) d) d' →
      cut_recoveries sb d d'.

Lemma cut_recoveries_ok {F : Fuel} st sb d d' :
  cut_recoveries sb d d' → i32 (sb_logstart sb) = st → 0 ≤ st ∧ st + LOGBLOCKS < 2 ^ 31 →
  log_ok st d → log_ok st d' ∧ ∀ bn, ¬ in_log st bn → recovered st d' bn = recovered st d bn.
Proof.
  intros Hcut Hst Hr. induction Hcut as [d|me d s s' ws k d' Hb E Ew _ IH]; intros Hok; [done|].
  destruct (initlog_run me st d sb s Hb Hok Hst Hr) as (s1 & E1 & _ & Ew1).
  assert (s1 = s') as -> by congruence. rewrite Ew1 in Ew. apply app_inv_tail in Ew.
  apply (f_equal (@rev _)) in Ew. rewrite !rev_involutive in Ew. subst ws.
  destruct (recovery_prefix st d k Hok) as [Hok' Hrec].
  destruct (IH Hok') as [Hd' Hrec']. split; [done|]. intros bn Hbn. by rewrite Hrec', Hrec.
Qed.

Lemma length_txn_writes st V bl d : bl ≠ [] → length (txn_writes st V bl d) = (2 * length bl + 2)%nat.
Proof.
  intros Hbl. assert (txn_writes st V bl d = commit_writes st V bl d) as -> by (by destruct bl).
  unfold commit_writes, log_writes, home_writes. rewrite !length_app, length_imap, length_fmap. cbn. lia.
Qed.

Lemma txn_commit_ok me st V bl s :
  txn me st ∅ V bl s → (length bl < NBUF)%nat → hd_n (block_data (k_disk s) st) = 0 →
  commit_ok st V bl (k_disk s).
Proof.
  intros [Hca Hl Hok _ _] Hlen Hemp. split; try done.
  - unfold NBUF, LOGBLOCKS in *. lia.
  - rewrite <- (cache_clean _ _ _ _ _ Hca); [by eapply cache_vlen|]. apply pinned_out.
    intros (i & Hi)%list_elem_of_lookup_1. destruct (home_block st bl i st Hok Hi) as [_ Hh].
    apply Hh, in_log_start.
  - intros bn Hbn _. apply (cache_clean _ _ _ _ _ Hca). by apply pinned_out.
Qed.

Lemma txn_prefix st me V bl s k :
  txn me st ∅ V bl s → (length bl < NBUF)%nat → hd_n (block_data (k_disk s) st) = 0 →
  let d' := apply_writes (take k (txn_writes st V bl (k_disk s))) (k_disk s) in
  log_ok st d' ∧ ∀ bn, ¬ in_log st bn →
    recovered st d' bn = if decide (k ≤ length bl)%nat then block_data (k_disk s) bn else V bn.
Proof.
  intros Htxn Hlen Hemp. pose proof (txn_commit_ok me st V bl s Htxn Hlen Hemp) as Hc.
  destruct bl as [|b bl]; [|by apply commit_prefix]. cbn [txn_writes]. rewrite take_nil. cbn [apply_writes fold_left].
  destruct (empty_log st (k_disk s) Hemp (co_hdr _ _ _ _ Hc)) as [Hok Hrec]. split; [done|].
  intros bn Hbn. rewrite Hrec by done. case_decide; [done|]. symmetry.
  apply (co_view _ _ _ _ Hc); [apply not_elem_of_nil|done].
Qed.

(** C1: atomicity and durability of a file-system transaction.  [end_op] of the last
    system call of a transaction with blocks [bl] returns, after the disk writes [ws].
    If the machine stops after the first [k] of them, stops again during any number of
    recoveries, and a last [initlog] runs, then that call returns and every block
    outside the log is as before the transaction if the header had not been written
    ([k <= length bl]), and as the transaction left it otherwise; with all of [ws]
    written the transaction stays. *)
Theorem transaction_atomic {F : Fuel} (me : nat) (st : Z) (V : Z → list Z) (bl : list Z)
    (sb : superblock) (s : kstate)
    (Htxn : txn me st ∅ V bl s) (Hlast : l_outstanding (k_log s) = 1)
    (Hroom : (length bl < NBUF)%nat) (Hempty : hd_n (block_data (k_disk s) st) = 0)
    (Hsb : i32 (sb_logstart sb) = st) :
  ∃ s' ws, sync resume end_op s = Ret tt s' ∧
    k_dwrites s' = rev ws ++ k_dwrites s ∧ k_disk s' = apply_writes ws (k_disk s) ∧
    (bl ≠ [] → length ws = (2 * length bl + 2)%nat) ∧
    ∀ k d me' t, cut_recoveries sb (apply_writes (take k ws) (k_disk s)) d → boots me' d t →
      ∃ t', sync resume (initlog 1 sb) t = Ret tt t' ∧
        ∀ bn, ¬ in_log st bn →
          block_data (k_disk t') bn =
          if decide (k ≤ length bl)%nat then block_data (k_disk s) bn else V bn.
Proof.
  destruct (proj1 (wp_run (sync resume end_op)
    (λ _ s', k_disk s' = apply_writes (txn_writes st V bl (k_disk s)) (k_disk s) ∧
      k_dwrites s' = rev (txn_writes st V bl (k_disk s)) ++ k_dwrites s) s)) as ([] & s' & E & Ed & Ew).
  { by apply (wp_end_op me st V bl s). }
  exists s', (txn_writes st V bl (k_disk s)). split_and!; try done; [apply length_txn_writes|].
  intros k d me' t Hcut Hboot. pose proof (la_range _ _ _ (tx_log _ _ _ _ _ _ Htxn)) as Hr.
  destruct (txn_prefix st me V bl s k Htxn Hroom Hempty) as [Hok Hrec].
  destruct (cut_recoveries_ok st sb _ d Hcut Hsb Hr Hok) as [Hok' Hrec'].
  destruct (initlog_run me' st d sb t Hboot Hok' Hsb Hr) as (t' & Et & Edt & _).
  exists t'. split; [done|]. intros bn Hbn. rewrite Edt. fold (recovered st d bn).
  by rewrite Hrec', Hrec.
Qed.

(** ** Updating a block inside a transaction *)

Section update.
Context {F : Fuel} (me : nat) (st : Z).

(** The idiom in the comment of [log_write]. *)
Definition update (bn : Z) (f : list Z → list Z) : K unit :=
  i ← bread 1 bn;
  modb i (λ b, set_b_data (f (b_data b)) b) ;;
  log_write i ;;
  brelse i.

Lemma txn_lstep_cache H V bl s s' :
  txn me st H V bl s → k_log s' = k_log s → ∀ H' V', cache me H' (pinned bl) V' s' →
  txn me st H' V' bl s'.
Proof. intros [H1 H2 H3 H4 H5] El H' V' Hc. split; rewrite ?El; done. Qed.

Lemma wp_update V bl bn f s (Q : unit → kstate → Prop) :
  txn me st ∅ V bl s → 0 ≤ bn < 2 ^ 31 → ¬ in_log st bn → (length bl < NBUF)%nat →
  length (f (V bn)) = 1024%nat →
  (∀ s', txn me st ∅ (put V bn (f (V bn))) (absorb bl bn) s' → lstep me s s' →
     k_disk s' = k_disk s → k_dwrites s' = k_dwrites s →
     l_outstanding (k_log s') = l_outstanding (k_log s) → Q tt s') →
  wp (sync resume (update bn f)) Q s.
Proof.
  intros Htx Hr Hh Hlen Hf HQ. unfold update. apply wps_bind.
  apply (wp_bread me ∅ (pinned bl) V bn s); [apply Htx|done|done| |].
  { right. exists bl. split; [|done]. intros x [[? Hx]|Hx]; [done|by apply pinned_use]. }
  intros i s1 St1 Ed1 Ew1 C1. apply wps_bind.
  assert (<[bn := i]> (∅ : gmap Z nat) !! bn = Some i) as Hi by (by rewrite lookup_insert_eq).
  apply (wp_setdata me _ _ V bn i f s1 _ C1 Hi Hf). intros s2 St2 Ed2 Ew2 C2. apply wps_bind.
  assert (k_log s2 = k_log s) as El by (rewrite (bstep_log _ _ _ St2); by apply bstep_log in St1).
  pose proof (txn_lstep_cache _ _ _ _ _ Htx El _ _ C2) as Htx2.
  destruct (log_write_txn me st _ _ bl bn i s2 Htx2 Hi Hh) as (s3 & E3 & Htx3 & St3 & Ed3 & Ew3 & Eo3).
  { unfold NBUF, LOGBLOCKS in *. lia. }
  eapply wps_eq; [exact E3|].
  apply (wp_brelse me _ _ _ bn i s3 _ (tx_cache _ _ _ _ _ _ Htx3) Hi).
  { left. unfold absorb. rewrite pinned_in; [done|]. case_decide; [done|]. apply elem_of_app. right.
    by apply list_elem_of_singleton. }
  intros s4 St4 Ed4 Ew4 C4. rewrite delete_insert_eq, delete_empty in C4.
  pose proof (bstep_log _ _ _ St4) as El4. apply HQ.
  - by apply (txn_lstep_cache _ _ _ _ _ Htx3 El4).
  - do 2 (eapply lstep_trans; [by apply bstep_lstep|]). eapply lstep_trans; [exact St3|by apply bstep_lstep].
  - congruence.
  - congruence.
  - rewrite El4. congruence.
Qed.
End update.

(** A start-up state: process 2, an empty disk and log blocks 2 to 32. *)
Definition sb2 : superblock := mkSb 0 0 0 0 0 2 0 0.
Definition kstate_fs : kstate :=
  set_k_log (mkLog 2 0 false 1 0 (replicate 30 0)) kstate_cache.

Lemma cache_fs : cache 2 ∅ (λ _, 0) (block_data ∅) kstate_fs.
Proof. apply cache_log, cache_kstate. Qed.
Lemma log_at_fs : log_at 2 [] (k_log kstate_fs).
Proof. by split. Qed.

(** A transaction that has set block 45 to ones. *)
Lemma txn_fs : ∃ s, txn 2 2 ∅ (put (block_data ∅) 45 (replicate 1024 1)) [45] s ∧
  l_outstanding (k_log s) = 1 ∧ k_disk s = ∅ ∧ k_dwrites s = [].
Proof.
  destruct (begin_op_run (F := fuel1) 2 2 _ _ cache_fs log_at_fs eq_refl eq_refl)
    as (s1 & _ & Htx & _ & Ed & Ew & Eo).
  destruct (proj1 (wp_run (sync resume (update (F := fuel1) 45 (λ _, replicate 1024 1)))
    (λ _ s', txn 2 2 ∅ (put (block_data ∅) 45 (replicate 1024 1)) [45] s' ∧
      l_outstanding (k_log s') = 1 ∧ k_disk s' = ∅ ∧ k_dwrites s' = []) s1)) as (_ & s & _ & Hs); [|by exists s].
  apply (wp_update (F := fuel1) 2 2 (block_data ∅) [] 45 _ s1); [done|lia|unfold in_log, LOGBLOCKS, MAXOPBLOCKS; lia|
    unfold NBUF, MAXOPBLOCKS; cbn; lia|done|].
  intros s' Htx' _ Ed' Ew' Eo'. split_and!; [done|congruence|by rewrite Ed', Ed|by rewrite Ew', Ew].
Qed.

Lemma transaction_atomic_witness :
  ∃ s s' ws, txn 2 2 ∅ (put (block_data ∅) 45 (replicate 1024 1)) [45] s ∧
    sync resume (end_op (F := fuel1)) s = Ret tt s' ∧ k_dwrites s' = rev ws ++ k_dwrites s ∧
    length ws = 4%nat.
Proof.
  destruct txn_fs as (s & Htx & Ho & Ed & _).
  destruct (transaction_atomic (F := fuel1) 2 2 (put (block_data ∅) 45 (replicate 1024 1)) [45] sb2 s Htx Ho)
    as (s' & ws & E & Ew & _ & Hlen & _).
  - unfold NBUF, MAXOPBLOCKS. cbn. lia.
  - rewrite Ed. reflexivity.
  - reflexivity.
  - exists s, s', ws. split_and!; try done. by apply Hlen.
Defined.

(** [log_write] of a held block in a transaction: the block is pinned and appended
    to the log, or absorbed when the log has it already, with no disk write; it panics
    when the log is full, and outside a transaction. *)
Theorem log_write_correct (me : nat) (st : Z) (H : gmap Z nat) (V : Z → list Z) (bl : list Z)
    (bn : Z) (i : nat) (s : kstate)
    (Htxn : txn me st H V bl s) (Hheld : H !! bn = Some i) (Hhome : ¬ in_log st bn) :
  (Z.of_nat (length bl) < LOGBLOCKS →
   ∃ s', log_write i s = Ret tt s' ∧ txn me st H V (absorb bl bn) s' ∧ lstep me s s' ∧
     k_disk s' = k_disk s ∧ k_dwrites s' = k_dwrites s) ∧
  (LOGBLOCKS ≤ Z.of_nat (length bl) → ∃ s', log_write i s = Panic "too big a transaction" s') ∧
  (Z.of_nat (length bl) < LOGBLOCKS →
   ∃ s', log_write i (set_k_log (set_l_outstanding 0 (k_log s)) s) = Panic "log_write outside of trans" s').
Proof.
  pose proof (ca_lock _ _ _ _ _ (tx_cache _ _ _ _ _ _ Htxn)) as Hh.
  pose proof (la_n _ _ _ (tx_log _ _ _ _ _ _ Htxn)) as Hn. split_and!; intros Hlen.
  - destruct (log_write_txn me st H V bl bn i s Htxn Hheld Hhome) as (s' & E & Htx & St & Ed & Ew & _); [lia|].
    by exists s'.
  - eexists. unfold log_write.
    rewrite (bind_run _ _ _ _ _ (acquire_run LLog s ltac:(rewrite Hh; apply not_elem_of_nil))), bind_gets.
    change (k_log (upd_held _ s)) with (k_log s). rewrite Hn, (proj2 (Z.leb_le _ _) Hlen). done.
  - eexists. unfold log_write. set (s1 := set_k_log _ s).
    rewrite (bind_run _ _ _ _ _ (acquire_run LLog s1 ltac:(cbn; rewrite Hh; apply not_elem_of_nil))), bind_gets.
    change (l_n (k_log (upd_held _ s1))) with (l_n (k_log s)). rewrite Hn, (proj2 (Z.leb_gt _ _) Hlen). done.
Qed.

(** Block 45, held in the transaction that has logged it. *)
Lemma txn_fs_held : ∃ s i, txn 2 2 (<[45 := i]> ∅) (put (block_data ∅) 45 (replicate 1024 1)) [45] s.
Proof.
  destruct txn_fs as (s & Htx & _).
  destruct (proj1 (wp_run (sync resume (bread (F := fuel1) 1 45)) (λ i s',
    txn 2 2 (<[45 := i]> ∅) (put (block_data ∅) 45 (replicate 1024 1)) [45] s') s)) as (i & s' & _ & Hs);
    [|by exists s', i].
  apply (wp_bread (F := fuel1) 2 ∅ (pinned [45]) _ 45 s _ (tx_cache _ _ _ _ _ _ Htx)); [lia|done| |].
  { left. by apply (cache_pinned _ _ _ _ _ _ (tx_cache _ _ _ _ _ _ Htx)). }
  intros i s' St _ _ C. apply (txn_lstep_cache 2 2 _ _ _ _ _ Htx (bstep_log _ _ _ St) _ _ C).
Qed.
Lemma log_write_correct_witness :
  ∃ s i s', txn 2 2 (<[45 := i]> ∅) (put (block_data ∅) 45 (replicate 1024 1)) [45] s ∧
    log_write i s = Ret tt s' ∧ k_dwrites s' = k_dwrites s.
Proof.
  destruct txn_fs_held as (s & i & Htx).
  destruct (log_write_correct 2 2 (<[45 := i]> ∅) (put (block_data ∅) 45 (replicate 1024 1)) [45] 45 i s Htx)
    as [(s' & E & _ & _ & _ & Ew) _].
  - by rewrite lookup_insert_eq.
  - unfold in_log, LOGBLOCKS, MAXOPBLOCKS. lia.
  - reflexivity.
  - by exists s, i, s'.
Defined.

(** ** A full log *)

Section full.
Context {F : Fuel} (me : nat) (st : Z).

(** With [NBUF] blocks pinned, every buffer is one of them. *)
Lemma pinned_slots B (bl : list Z) :
  (∀ bn, bn ∈ bl → ∃ i, caches B bn i) → ∃ js : list nat, Forall2 (caches B) bl js.
Proof.
  induction bl as [|bn bl IH]; intros Hc; [by exists []|].
  destruct (Hc bn) as [i Hi]; [apply elem_of_cons; by left|].
  destruct IH as [js His]; [intros x Hx; apply Hc, elem_of_cons; by right|].
  exists (i :: js). by constructor.
Qed.
Lemma full_cache V bl s i b :
  cache me ∅ (pinned bl) V s → NoDup bl → length bl = NBUF → (i < NBUF)%nat →
  k_bufs s !! i = Some b → b_blockno b ∈ bl ∧ b_refcnt b ≠ 0.
Proof.
  intros Hca Hnd Hlen Hi Hb. destruct (cache_me _ _ _ _ _ Hca) as (p & _ & _ & _ & HB & _).
  destruct (pinned_slots (k_bufs s) bl) as [js His].
  { intros bn Hbn. apply (cache_pinned _ _ _ _ _ _ Hca). by rewrite pinned_in. }
  assert (NoDup js) as Hndi.
  { apply NoDup_alt. intros j k x Hj Hk. rewrite Forall2_lookup in His.
    pose proof (His j) as H1. pose proof (His k) as H2. rewrite Hj in H1. rewrite Hk in H2.
    inversion H1 as [c x1 (_ & c1 & Hc1 & _ & E1) Ec|]; inversion H2 as [c' x2 (_ & c2 & Hc2 & _ & E2) Ec'|]; subst.
    assert (c1 = c2) as -> by congruence.
    eapply NoDup_lookup; [exact Hnd|by rewrite <- Ec|by rewrite <- Ec']. }
  assert (js ≡ₚ seq 0 NBUF) as Hperm.
  { apply submseteq_length_Permutation.
    - apply NoDup_submseteq; [done|]. intros x (j & Hj)%list_elem_of_lookup_1. rewrite Forall2_lookup in His.
      pose proof (His j) as H1. rewrite Hj in H1. inversion H1 as [c x1 (Hx & _)|]; subst.
      apply elem_of_seq. lia.
    - apply Forall2_length in His. rewrite length_seq. lia. }
  assert (i ∈ js) as (j & Hj)%list_elem_of_lookup_1 by (rewrite Hperm; apply elem_of_seq; lia).
  rewrite Forall2_lookup in His. pose proof (His j) as H1. rewrite Hj in H1.
  inversion H1 as [c x1 (_ & c1 & Hc1 & Hd1 & E1) Ec|]; subst. assert (c1 = b) as -> by congruence.
  assert (b_blockno b ∈ bl) as Hin by (eapply list_elem_of_lookup_2; by rewrite <- Ec).
  split; [done|].
  destruct (bo_buf _ _ _ _ _ _ HB i b Hi Hb) as (_ & [(? & _)|(_ & _ & _ & _ & Hr & _)]); [congruence|].
  rewrite pinned_in in Hr by done. unfold held_ref in Hr. rewrite lookup_empty in Hr. lia.
Qed.

Lemma bread_full V bl bn s :
  cache me ∅ (pinned bl) V s → NoDup bl → length bl = NBUF → bn ∉ bl →
  ∃ s', bread 1 bn s = Panic "bget: no buffers" s'.
Proof.
  intros Hca Hnd Hlen Hbn. destruct (cache_me _ _ _ _ _ Hca) as (p & _ & _ & _ & HB & Es).
  pose proof (bo_lru _ _ _ _ _ _ HB) as [o Ho].
  exists (bst (k_bufs s) [LBcache] (k_procs s) s). unfold bread. apply bind_panic. rewrite Es at 1.
  apply (bget_full_run 1 bn _ o); [done| |].
  - pose proof (first_block _ _ _ _ _ _ o bn HB Ho) as Hf.
    destruct (first_buf (is_block 1 bn) (k_bufs s) o) as [j|]; [|done].
    destruct Hf as (Hj & b & Hb & _ & <-). by destruct (full_cache V bl s j b).
  - destruct (first_buf is_free (k_bufs s) (rev o)) as [j|] eqn:E; [|done].
    apply first_buf_Some in E as (o1 & o2 & b & Eo & Hb & Hf & _).
    assert (j ∈ o) as Hj. { apply list_elem_of_In, in_rev, list_elem_of_In. rewrite Eo. memb. }
    apply (lru_elem _ _ _ Ho) in Hj. destruct (full_cache V bl s j b) as [_ Hr]; try done.
    unfold is_free in Hf. lia.
Qed.
End full.

(** C31: [log_write] accepts as many blocks as the log can hold, [LOGBLOCKS], and the
    buffer cache has just as many buffers; with all of them pinned the commit finds no
    buffer for the first log block, and [end_op] panics. *)
Theorem full_transaction_panics {F : Fuel} (me : nat) (st : Z) (V : Z → list Z) (bl : list Z) (s : kstate)
    (Htxn : txn me st ∅ V bl s) (Hlast : l_outstanding (k_log s) = 1)
    (Hfull : Z.of_nat (length bl) = LOGBLOCKS) :
  ∃ s', sync resume end_op s = Panic "bget: no buffers" s'.
Proof.
  pose proof Htxn as [Hca Hl Hok _ Hidle]. pose proof (ca_lock _ _ _ _ _ Hca) as Hh.
  pose proof Hl as [Hdev Hst Hr Hn _ _].
  set (lg := set_l_committing true (set_l_outstanding 0 (k_log s))).
  assert (length bl = NBUF) as Hlen by (unfold NBUF, LOGBLOCKS in *; lia).
  destruct (bread_full me V bl (st + 0 + 1) (set_k_log lg s)) as (s' & Hpanic); [by apply cache_log|apply Hok|done| |].
  { apply (lb_unpinned st bl 0 Hok). unfold LOGBLOCKS, MAXOPBLOCKS. lia. }
  exists s'. apply sync_panic. unfold end_op.
  rewrite (bind_run _ _ _ _ _ (acquire_run LLog s ltac:(rewrite Hh; apply not_elem_of_nil))).
  unfold modlog. rewrite bind_modify, bind_gets. cbn [k_log set_k_log]. kcbn.
  assert (l_outstanding (k_log s) - 1 = 0) as -> by lia.
  change (l_committing (set_l_outstanding 0 (k_log s))) with (l_committing (k_log s)). rewrite Hidle.
  change (l_outstanding (set_l_outstanding 0 (k_log s)) =? 0) with true. cbv zeta iota.
  rewrite bind_modify. erewrite bind_run by (by apply (release_run LLog (k_held s))). cbn [whenM].
  match goal with |- bind _ _ ?t = _ => replace t with (set_k_log lg s) by (unfold lg; kstate_eq) end.
  apply bind_panic. unfold commit. rewrite bind_gets. change (l_n (k_log (set_k_log lg s))) with (l_n (k_log s)).
  rewrite Hn, Hfull. change (0 <? LOGBLOCKS) with true. cbn [whenM]. apply bind_panic.
  unfold write_log. rewrite bind_gets. change (l_n (k_log (set_k_log lg s))) with (l_n (k_log s)).
  rewrite Hn, Hfull. change (upto LOGBLOCKS) with (0 :: tail (upto LOGBLOCKS)). cbn [for_each].
  apply bind_panic. rewrite bind_gets. apply bind_panic.
  change (l_dev (k_log (set_k_log lg s))) with (l_dev (k_log s)).
  change (l_start (k_log (set_k_log lg s))) with (l_start (k_log s)).
  rewrite Hdev, Hst. change (u32 1) with 1. rewrite u32_small; [done|].
  unfold LOGBLOCKS, MAXOPBLOCKS in *. lia.
Qed.

(** A transaction that has logged the [n] blocks from 40 on. *)
Definition blocks40 (n : nat) : list Z := (λ i : nat, 40 + Z.of_nat i) <$> seq 0 n.
Lemma txn_blocks40 n : (n ≤ NBUF)%nat →
  ∃ s, txn 2 2 ∅ (block_data ∅) (blocks40 n) s ∧ l_outstanding (k_log s) = 1.
Proof.
  induction n as [|n IH]; intros Hn.
  - destruct (begin_op_run (F := fuel1) 2 2 _ _ cache_fs log_at_fs eq_refl eq_refl)
      as (s1 & _ & Htx & _ & _ & _ & Eo). by exists s1.
  - destruct IH as (s & Htx & Eo); [lia|].
    assert (length (blocks40 n) = n) as Hl by (unfold blocks40; by rewrite length_fmap, length_seq).
    destruct (proj1 (wp_run (sync resume (update (F := fuel1) (40 + Z.of_nat n) id))
      (λ _ s', txn 2 2 ∅ (put (block_data ∅) (40 + Z.of_nat n) (block_data ∅ (40 + Z.of_nat n)))
         (absorb (blocks40 n) (40 + Z.of_nat n)) s' ∧ l_outstanding (k_log s') = 1) s))
      as (_ & s' & _ & [H1 H2 H3 H4 H5] & Eo').
    { apply (wp_update (F := fuel1) 2 2 (block_data ∅) (blocks40 n) _ _ s); try done.
      - unfold NBUF, MAXOPBLOCKS in Hn. lia.
      - unfold in_log, LOGBLOCKS, MAXOPBLOCKS. lia.
      - by rewrite Hl.
      - intros s' Htx' _ _ _ Eo'. split; [done|congruence]. }
    assert (absorb (blocks40 n) (40 + Z.of_nat n) = blocks40 (S n)) as Ea.
    { unfold absorb. rewrite decide_False.
      - unfold blocks40. by rewrite seq_S, fmap_app.
      - intros (i & E & Hi%elem_of_seq)%list_elem_of_fmap. lia. }
    rewrite Ea in *. exists s'. split; [|done]. split; try done.
    eapply cache_ext; [| |exact H1]; [done|]. intros bn. unfold put. by case_decide; subst.
Qed.

Lemma full_transaction_panics_witness :
  ∃ s s', txn 2 2 ∅ (block_data ∅) (blocks40 30) s ∧
    sync resume (end_op (F := fuel1)) s = Panic "bget: no buffers" s'.
Proof.
  destruct (txn_blocks40 30) as (s & Htx & Eo); [unfold NBUF, MAXOPBLOCKS; lia|].
  destruct (full_transaction_panics (F := fuel1) 2 2 (block_data ∅) (blocks40 30) s Htx Eo eq_refl) as (s' & E).
  by exists s, s'.
Defined.
