(* ===== verification/Fs.v ===== *)
(** * kernel/fs.c

    Blocks, inodes, file contents, directories and path names.  An in-memory
    inode is its slot in [itable.inode[]]; [struct dinode] and [struct dirent] are
    64 and 16 bytes of a block. *)
From Stdlib Require Import ZArith Lia.
From stdpp Require Import base list gmap numbers strings.
From S2P Require Import Prelude Machine KString Bytes State Printk Kalloc Sched Vm Virtio Bio Log.
Local Open Scope Z_scope.
Local Open Scope kernel_scope.

(** ** On-disk layout (fs.h) *)

Definition ROOTINO : Z := 1.
Definition FSMAGIC : Z := 0x10203040.
Definition NDIRECT : Z := 12.
Definition NINDIRECT : Z := BSIZE / 4.
Definition MAXFILE : Z := NDIRECT + NINDIRECT.
Definition IPB : Z := BSIZE / 64.
Definition IBLOCK (i : Z) (sb : superblock) : Z := u32 (u32 i / IPB + sb_inodestart sb).
Definition BPB : Z := BSIZE * 8.
Definition BBLOCK (b : Z) (sb : superblock) : Z := u32 (u32 b / BPB + sb_bmapstart sb).
Definition DIRSIZ : nat := 14.
Definition T_DIR : Z := 1.
Definition T_FILE : Z := 2.
Definition T_DEVICE : Z := 3.

(** [struct dinode] at [off] in a block. *)
Definition di_off (inum : Z) : nat := Z.to_nat (64 * (u32 inum mod IPB)).
Definition di_type (d : list Z) (off : nat) : Z := i16 (ldl 2 d off).
Definition di_major (d : list Z) (off : nat) : Z := i16 (ldl 2 d (off + 2)).
Definition di_minor (d : list Z) (off : nat) : Z := i16 (ldl 2 d (off + 4)).
Definition di_nlink (d : list Z) (off : nat) : Z := i16 (ldl 2 d (off + 6)).
Definition di_size (d : list Z) (off : nat) : Z := ldl 4 d (off + 8).
Definition di_addr (d : list Z) (off k : nat) : Z := ldl 4 d (off + 12 + 4 * k).

(** [struct superblock] *)
Definition sb_of (d : list Z) : superblock :=
  mkSb (ldl 4 d 0) (ldl 4 d 4) (ldl 4 d 8) (ldl 4 d 12) (ldl 4 d 16) (ldl 4 d 20)
    (ldl 4 d 24) (ldl 4 d 28).

Section fs.
Context {L : Layout} {F : Fuel}.

(** ** Blocks *)

Definition readsb (dev : Z) : K unit :=
  bp ← bread (u32 dev) 1;
  b ← getb bp;
  modify (set_k_sb (sb_of (b_data b))) ;;
  brelse bp.

Definition bzero (dev bno : Z) : K unit :=
  bp ← bread (u32 dev) (u32 bno);
  modb bp (set_b_data (replicate 1024 0)) ;;
  log_write bp ;;
  brelse bp.

(** The inner loop of [balloc], over the bits of the bitmap block in [bp] for the
    blocks from [b] on: a free one is marked. *)
Definition balloc_block (dev b : Z) (bp : nat) : K (option Z) :=
  sb ← gets k_sb;
  for_list (upto (Z.min BPB (sb_size sb - b))) (λ bi,
    let m := Z.shiftl 1 (bi mod 8) in
    bf ← getb bp;
    let v := nth (Z.to_nat (bi / 8)) (b_data bf) 0 in
    if Z.land v m =? 0 then
      modb bp (set_b_data (<[Z.to_nat (bi / 8) := u8 (Z.lor v m)]> (b_data bf))) ;;
      log_write bp ;;
      brelse bp ;;
      bzero dev (b + bi) ;;
      ret (Some (b + bi))
    else ret None).
Definition balloc (dev : Z) : K Z :=
  sb ← gets k_sb;
  r ← for_list (upto ((sb_size sb + BPB - 1) / BPB)) (λ k,
        let b := k * BPB in
        bp ← bread dev (BBLOCK b sb);
        r ← balloc_block dev b bp;
        match r with
        | Some a => ret (Some a)
        | None => brelse bp ;; ret None
        end);
  match r with
  | Some a => ret a
  | None => printk (str "balloc: out of blocks" ++ [10]) [] ;; ret 0
  end.

Definition bfree (dev b : Z) : K unit :=
  sb ← gets k_sb;
  bp ← bread (u32 dev) (BBLOCK b sb);
  let bi := b mod BPB in
  let m := Z.shiftl 1 (bi mod 8) in
  bf ← getb bp;
  let v := nth (Z.to_nat (bi / 8)) (b_data bf) 0 in
  if Z.land v m =? 0 then panic "freeing free block" else
  modb bp (set_b_data (<[Z.to_nat (bi / 8) := u8 (Z.land v (Z.lnot m))]> (b_data bf))) ;;
  log_write bp ;;
  brelse bp.

(** ** Inodes *)

Definition iinit : K unit :=
  for_each (seq 0 NINODE) (λ i, initsleeplock (SlInode i)).

(** The loop of [iget]: the entry that is in the table, or else the first empty one. *)
Fixpoint iget_scan (l : list nat) (dev inum : Z) (empty : option nat) :
    K (nat + option nat) :=
  match l with
  | [] => ret (inr empty)
  | i :: l' =>
      ip ← geti i;
      if (0 <? i_ref ip) && (i_dev ip =? dev) && (i_inum ip =? inum) then ret (inl i)
      else iget_scan l' dev inum
             (if bool_decide (empty = None) && (i_ref ip =? 0) then Some i else empty)
  end.
Definition iget (dev inum : Z) : K nat :=
  acquire LItable ;;
  r ← iget_scan (seq 0 NINODE) dev inum None;
  match r with
  | inl i =>
      modi i (λ ip, set_i_ref (i_ref ip + 1) ip) ;;
      release LItable ;;
      ret i
  | inr None => panic "iget: no inodes"
  | inr (Some i) =>
      modi i (set_i_dev dev) ;;
      modi i (set_i_inum inum) ;;
      modi i (set_i_ref 1) ;;
      modi i (set_i_valid false) ;;
      release LItable ;;
      ret i
  end.

(** [None] is a null pointer. *)
Definition ialloc (dev type : Z) : K (option nat) :=
  sb ← gets k_sb;
  r ← for_list (tail (upto (sb_ninodes sb))) (λ inum,
        bp ← bread dev (IBLOCK inum sb);
        b ← getb bp;
        let off := di_off inum in
        if di_type (b_data b) off =? 0 then
          modb bp (λ b, set_b_data (splice (b_data b) off (replicate 64 0)) b) ;;
          modb bp (λ b, set_b_data (stl 2 (b_data b) off type) b) ;;
          log_write bp ;;
          brelse bp ;;
          i ← iget dev inum;
          ret (Some i)
        else brelse bp ;; ret None);
  match r with
  | Some i => ret (Some i)
  | None => printk (str "ialloc: no inodes" ++ [10]) [] ;; ret None
  end.

(** The fields of an inode stored in a block. *)
Definition put_dinode (ip : inode) (d : list Z) (off : nat) : list Z :=
  let d := stl 2 d off (i_type ip) in
  let d := stl 2 d (off + 2) (i_major ip) in
  let d := stl 2 d (off + 4) (i_minor ip) in
  let d := stl 2 d (off + 6) (i_nlink ip) in
  let d := stl 4 d (off + 8) (i_size ip) in
  splice d (off + 12) (concat (le_bytes 4 <$> i_addrs ip)).
Definition iupdate (i : nat) : K unit :=
  ip ← geti i;
  sb ← gets k_sb;
  bp ← bread (i_dev ip) (IBLOCK (i_inum ip) sb);
  modb bp (λ b, set_b_data (put_dinode ip (b_data b) (di_off (i_inum ip))) b) ;;
  log_write bp ;;
  brelse bp.

Definition idup (i : nat) : K nat :=
  acquire LItable ;;
  modi i (λ ip, set_i_ref (i_ref ip + 1) ip) ;;
  release LItable ;;
  ret i.

(** The inode with the fields of a [struct dinode]. *)
Definition get_dinode (d : list Z) (off : nat) (ip : inode) : inode :=
  set_i_addrs (di_addr d off <$> seq 0 13)
    (set_i_size (di_size d off)
      (set_i_nlink (di_nlink d off)
        (set_i_minor (di_minor d off)
          (set_i_major (di_major d off)
            (set_i_type (di_type d off) ip))))).
Definition ilock (i : nat) : K unit :=
  ip ← geti i;
  if i_ref ip <? 1 then panic "ilock" else
  acquiresleep (SlInode i) ;;
  ip ← geti i;
  whenM (negb (i_valid ip))
    (sb ← gets k_sb;
     bp ← bread (i_dev ip) (IBLOCK (i_inum ip) sb);
     b ← getb bp;
     modi i (get_dinode (b_data b) (di_off (i_inum ip))) ;;
     brelse bp ;;
     modi i (set_i_valid true) ;;
     ip ← geti i;
     if i_type ip =? 0 then panic "ilock: no type" else ret tt).

Definition iunlock (i : nat) : K unit :=
  h ← holdingsleep (SlInode i);
  if negb h then panic "iunlock" else
  ip ← geti i;
  if i_ref ip <? 1 then panic "iunlock" else
  releasesleep (SlInode i).

Definition itrunc (i : nat) : K unit :=
  for_each (upto NDIRECT) (λ k,
    ip ← geti i;
    let a := nth (Z.to_nat k) (i_addrs ip) 0 in
    whenM (negb (a =? 0))
      (bfree (i_dev ip) a ;;
       modi i (λ ip, set_i_addrs (<[Z.to_nat k := 0]> (i_addrs ip)) ip))) ;;
  ip ← geti i;
  let ind := nth (Z.to_nat NDIRECT) (i_addrs ip) 0 in
  whenM (negb (ind =? 0))
    (bp ← bread (i_dev ip) ind;
     for_each (upto NINDIRECT) (λ j,
       b ← getb bp;
       let a := ldl 4 (b_data b) (Z.to_nat (4 * j)) in
       whenM (negb (a =? 0)) (bfree (i_dev ip) a)) ;;
     brelse bp ;;
     bfree (i_dev ip) ind ;;
     modi i (λ ip, set_i_addrs (<[Z.to_nat NDIRECT := 0]> (i_addrs ip)) ip)) ;;
  modi i (set_i_size 0) ;;
  iupdate i.

Definition iput (i : nat) : K unit :=
  acquire LItable ;;
  ip ← geti i;
  whenM ((i_ref ip =? 1) && i_valid ip && (i_nlink ip =? 0))
    (acquiresleep (SlInode i) ;;
     release LItable ;;
     itrunc i ;;
     modi i (set_i_type 0) ;;
     iupdate i ;;
     modi i (set_i_valid false) ;;
     releasesleep (SlInode i) ;;
     acquire LItable) ;;
  modi i (λ ip, set_i_ref (i_ref ip - 1) ip) ;;
  release LItable.

Definition iunlockput (i : nat) : K unit := iunlock i ;; iput i.

Definition ireclaim (dev : Z) : K unit :=
  sb ← gets k_sb;
  for_each (tail (upto (sb_ninodes sb))) (λ inum,
    bp ← bread (u32 dev) (IBLOCK inum sb);
    b ← getb bp;
    let off := di_off inum in
    ip ← (if negb (di_type (b_data b) off =? 0) && (di_nlink (b_data b) off =? 0) then
            printk (str "ireclaim: orphaned inode %d" ++ [10]) [KInt inum] ;;
            i ← iget (u32 dev) inum;
            ret (Some i)
          else ret None);
    brelse bp ;;
    match ip with
    | None => ret tt
    | Some i =>
        begin_op ;;
        ilock i ;;
        iunlock i ;;
        iput i ;;
        end_op
    end).

Definition fsinit (dev : Z) : K unit :=
  readsb dev ;;
  sb ← gets k_sb;
  if negb (sb_magic sb =? FSMAGIC) then panic "invalid file system" else
  initlog dev sb ;;
  ireclaim dev.

(** ** File contents *)

Definition bmap (i : nat) (bn : Z) : K Z :=
  ip ← geti i;
  if bn <? NDIRECT then
    let addr := nth (Z.to_nat bn) (i_addrs ip) 0 in
    if addr =? 0 then
      addr ← balloc (i_dev ip);
      if addr =? 0 then ret 0 else
      modi i (λ ip, set_i_addrs (<[Z.to_nat bn := addr]> (i_addrs ip)) ip) ;;
      ret addr
    else ret addr
  else
  let bn := bn - NDIRECT in
  if bn <? NINDIRECT then
    let addr := nth (Z.to_nat NDIRECT) (i_addrs ip) 0 in
    addr ← (if addr =? 0 then
              addr ← balloc (i_dev ip);
              whenM (negb (addr =? 0))
                (modi i (λ ip, set_i_addrs (<[Z.to_nat NDIRECT := addr]> (i_addrs ip)) ip)) ;;
              ret addr
            else ret addr);
    if addr =? 0 then ret 0 else
    bp ← bread (i_dev ip) addr;
    b ← getb bp;
    let addr := ldl 4 (b_data b) (Z.to_nat (4 * bn)) in
    addr ← (if addr =? 0 then
              addr ← balloc (i_dev ip);
              whenM (negb (addr =? 0))
                (modb bp (λ b, set_b_data (stl 4 (b_data b) (Z.to_nat (4 * bn)) addr) b) ;;
                 log_write bp) ;;
              ret addr
            else ret addr);
    brelse bp ;;
    ret addr
  else panic "bmap: out of range".

(** The loop of [readi]: the result, and the bytes copied to [dst].  Every
    iteration but the first starts at a block boundary, so [n / BSIZE + 2]
    iterations are enough. *)
Fixpoint readi_loop (fuel : nat) (i : nat) (dst : kdst) (tot off n : Z) (acc : list Z) :
    K (Z * list Z) :=
  if tot <? n then
    match fuel with
    | O => nofuel
    | S f =>
        addr ← bmap i (off / BSIZE);
        if addr =? 0 then ret (i32 tot, acc) else
        ip ← geti i;
        bp ← bread (i_dev ip) addr;
        let m := Z.min (n - tot) (BSIZE - off mod BSIZE) in
        b ← getb bp;
        let bs := slice (b_data b) (Z.to_nat (off mod BSIZE)) (Z.to_nat m) in
        r ← either_copyout dst bs;
        if r =? -1 then brelse bp ;; ret (-1, acc) else
        brelse bp ;;
        readi_loop f i (dst_add dst m) (tot + m) (u32 (off + m)) n (acc ++ bs)
    end
  else ret (i32 tot, acc).
Definition readi (i : nat) (dst : kdst) (off n : Z) : K (Z * list Z) :=
  ip ← geti i;
  if (i_size ip <? off) || (u32 (off + n) <? off) then ret (0, []) else
  let n := if i_size ip <? u32 (off + n) then i_size ip - off else n in
  readi_loop (Z.to_nat (n / BSIZE + 2)) i dst 0 off n [].

(** The loop of [writei]: the values of [tot] and [off] at its end. *)
Fixpoint writei_loop (fuel : nat) (i : nat) (src : ksrc) (tot off n : Z) : K (Z * Z) :=
  if tot <? n then
    match fuel with
    | O => nofuel
    | S f =>
        addr ← bmap i (off / BSIZE);
        if addr =? 0 then ret (tot, off) else
        ip ← geti i;
        bp ← bread (i_dev ip) addr;
        let m := Z.min (n - tot) (BSIZE - off mod BSIZE) in
        r ← either_copyin src m;
        modb bp (λ b, set_b_data (splice (b_data b) (Z.to_nat (off mod BSIZE)) r.2) b) ;;
        if r.1 =? -1 then brelse bp ;; ret (tot, off) else
        log_write bp ;;
        brelse bp ;;
        writei_loop f i (src_add src m) (tot + m) (u32 (off + m)) n
    end
  else ret (tot, off).
Definition writei (i : nat) (src : ksrc) (off n : Z) : K Z :=
  ip ← geti i;
  if (i_size ip <? off) || (u32 (off + n) <? off) then ret (-1) else
  if MAXFILE * BSIZE <? u32 (off + n) then ret (-1) else
  r ← writei_loop (Z.to_nat (n / BSIZE + 2)) i src 0 off n;
  ip ← geti i;
  whenM (i_size ip <? r.2) (modi i (set_i_size r.2)) ;;
  iupdate i ;;
  ret (i32 r.1).

(** [struct stat] as the 24 bytes that are copied to the user: [dev], [ino],
    [type], [nlink], four bytes of padding and [size].  [pad] is the padding, which
    the code leaves as it was on the stack. *)
Definition stati (pad : list Z) (ip : inode) : list Z :=
  le_bytes 4 (i_dev ip) ++ le_bytes 4 (i_inum ip) ++ le_bytes 2 (i_type ip) ++
  le_bytes 2 (i_nlink ip) ++ pad ++ le_bytes 8 (i_size ip).

(** ** Directories *)

Definition namecmp (s t : list Z) : Z := strncmp (bytes_of s) (bytes_of t) DIRSIZ.

(** [struct dirent] *)
Definition de_inum (de : list Z) : Z := ldl 2 de 0.
Definition de_name (de : list Z) : list Z := slice de 2 DIRSIZ.

(** The byte offsets of the entries of a directory of [size] bytes. *)
Definition de_offs (size : Z) : list Z := (λ k, 16 * k) <$> upto ((size + 15) / 16).

(** The entry's inode and its offset. *)
Definition dirlookup (dp : nat) (name : list Z) : K (option (nat * Z)) :=
  d ← geti dp;
  if negb (i_type d =? T_DIR) then panic "dirlookup not DIR" else
  for_list (de_offs (i_size d)) (λ off,
    r ← readi dp DLocal off 16;
    if negb (r.1 =? 16) then panic "dirlookup read" else
    if de_inum r.2 =? 0 then ret None else
    if namecmp name (de_name r.2) =? 0 then
      d ← geti dp;
      i ← iget (i_dev d) (de_inum r.2);
      ret (Some (i, off))
    else ret None).

Definition dirlink (dp : nat) (name : list Z) (inum : Z) : K Z :=
  o ← dirlookup dp name;
  match o with
  | Some (i, _) => iput i ;; ret (-1)
  | None =>
      d ← geti dp;
      r ← for_list (de_offs (i_size d)) (λ off,
            r ← readi dp DLocal off 16;
            if negb (r.1 =? 16) then panic "dirlink read" else
            if de_inum r.2 =? 0 then ret (Some off) else ret None);
      let off := default (16 * ((i_size d + 15) / 16)) r in
      let de := le_bytes 2 inum ++ strncpy (replicate DIRSIZ 0) (bytes_of name) DIRSIZ in
      w ← writei dp (SLocal de) off 16;
      if negb (w =? 16) then ret (-1) else ret 0
  end.

(** ** Paths *)

Definition SLASH : Z := 47.
Fixpoint skip_slashes (path : list Z) : list Z :=
  match path with
  | c :: path' => if c =? SLASH then skip_slashes path' else path
  | [] => []
  end.
(** [while ( *path != '/' && *path != 0) path++;]: the bytes passed over, the rest. *)
Fixpoint take_elem (path : list Z) : list Z * list Z :=
  match path with
  | c :: path' =>
      if (c =? SLASH) || (c =? 0) then ([], path)
      else let '(e, r) := take_elem path' in (c :: e, r)
  | [] => ([], [])
  end.
(** The path that follows and the new contents of [name]; [None] is a null
    pointer.  A path is the bytes before its NUL. *)
Definition skipelem (path name : list Z) : option (list Z * list Z) :=
  match skip_slashes path with
  | [] => None
  | path' =>
      let '(e, r) := take_elem path' in
      let len := length e in
      let name' := if (DIRSIZ <=? len)%nat then splice name 0 (take DIRSIZ e)
                   else splice (splice name 0 e) len [0] in
      Some (skip_slashes r, name')
  end.

(** The loop of [namex], one iteration for each path element; the result is null
    or the inode and the contents of [name]. *)
Fixpoint namex_loop (fuel : nat) (ip : nat) (path : list Z) (parent : bool) (name : list Z) :
    K (option (nat * list Z)) :=
  match fuel with
  | O => nofuel
  | S f =>
      match skipelem path name with
      | None =>
          if parent then iput ip ;; ret None else ret (Some (ip, name))
      | Some (path', name') =>
          ilock ip ;;
          d ← geti ip;
          if negb (i_type d =? T_DIR) then iunlockput ip ;; ret None else
          if parent && bool_decide (path' = []) then iunlock ip ;; ret (Some (ip, name')) else
          next ← dirlookup ip name';
          match next with
          | None => iunlockput ip ;; ret None
          | Some (n, _) => iunlockput ip ;; namex_loop f n path' parent name'
          end
      end
  end.
Definition namex (path : list Z) (parent : bool) (name : list Z) : K (option (nat * list Z)) :=
  ip ← (if bool_decide (head path = Some SLASH) then iget ROOTDEV ROOTINO
        else me ← myproc; p ← getp me; c ← unwrap "cwd" (p_cwd p); idup c);
  namex_loop (S (length path)) ip path parent name.

(** The array [name] of the callers is not initialised; it starts as zeros here.
    Only the bytes before the NUL that [skipelem] puts into it are looked at. *)
Definition namei (path : list Z) : K (option nat) :=
  r ← namex path false (replicate DIRSIZ 0); ret (fst <$> r).
Definition nameiparent (path : list Z) : K (option (nat * list Z)) :=
  namex path true (replicate DIRSIZ 0).
End fs.

Lemma length_put_dinode ip d off : length (put_dinode ip d off) = length d.
Proof. unfold put_dinode. by rewrite length_splice, !length_stl. Qed.
