(* ===== verification/Blocks.v ===== *)
(** * Block allocation inside a transaction

    [balloc], [bfree] and [bzero] (fs.c) on the logical array of blocks that a
    transaction of Crash.v shows.  The bitmap is read as a set of used blocks. *)
From Stdlib Require Import ZArith Lia.
From stdpp Require Import base list gmap numbers strings.
From S2P Require Import Prelude Machine KString Bytes State Printk Sched Virtio DiskIo Bio Lru Cache Log Crash Fs.
Local Open Scope Z_scope.
Local Open Scope kernel_scope.

(** A message without conversions. *)
Lemma wp_printk_plain txt s (Q : unit → kstate → Prop) :
  Forall (λ c, byte c ∧ c ≠ 37) txt → LPr ∉ k_held s → (∀ s', says s s' → Q tt s') → wp (printk txt []) Q s.
Proof.
  intros Ht Hh HQ. unfold printk. apply wp_bind, wp_acquire; [done|]. apply wp_bind.
  rewrite <- (app_nil_r txt). apply wp_printk_text; [done|]. intros s' (out & u & ->).
  apply wp_ret, (wp_release LPr (k_held s)); [done|]. apply HQ. exists out, u. kstate_eq.
Qed.

Section txn.
Context {F : Fuel} (me : nat) (st : Z).
Implicit Types (H : gmap Z nat) (V : Z → list Z) (bl : list Z) (s : kstate).

(** ** The calls on a block, inside a transaction *)

(** Room for one more buffer beside the held and the logged ones. *)
Definition fits H bl (k : nat) : Prop := (size H + length bl + k ≤ NBUF)%nat.

Lemma fits_room H bl s bn : fits H bl 1 → room H (pinned bl) s bn.
Proof.
  intros Hf. right. exists (elements (dom H) ++ bl). split.
  - intros x [[i Hi]|Hx]; apply elem_of_app; [left|right; by apply pinned_use].
    apply elem_of_elements, elem_of_dom. by exists i.
  - rewrite length_app. change (length (elements (dom H))) with (size (dom H)). rewrite size_dom.
    unfold fits in Hf. lia.
Qed.

(** A block is logged, or the same on the disk. *)
Definition settled V bl s (bn : Z) : Prop := bn ∈ bl ∨ V bn = block_data (k_disk s) bn.
Lemma settled_unheld H V bl s bn : txn me st H V bl s → H !! bn = None → settled V bl s bn.
Proof.
  intros Htx Hbn. destruct (cache_me _ _ _ _ _ (tx_cache _ _ _ _ _ _ Htx)) as (p & _ & _ & _ & HB & _).
  destruct (decide (bn ∈ bl)) as [Hin|Hin]; [by left|right]. apply (bo_clean _ _ _ _ _ _ HB); [done|by apply pinned_out].
Qed.

(** What a call in a transaction leaves alone. *)
Record tstep (s s' : kstate) : Prop := {
  ts_lstep : lstep me s s';
  ts_disk : k_disk s' = k_disk s;
  ts_dwrites : k_dwrites s' = k_dwrites s;
  ts_outstanding : l_outstanding (k_log s') = l_outstanding (k_log s);
}.
Lemma tstep_refl s : tstep s s.
Proof. split; try done. apply lstep_refl. Qed.
Lemma tstep_trans s1 s2 s3 : tstep s1 s2 → tstep s2 s3 → tstep s1 s3.
Proof. intros [] []. split; [by eapply lstep_trans|congruence..]. Qed.
Lemma tstep_bstep s s' : bstep me s s' → k_disk s' = k_disk s → k_dwrites s' = k_dwrites s → tstep s s'.
Proof. intros Hb Hd Hw. split; [by apply bstep_lstep|done|done|]. by rewrite (bstep_log _ _ _ Hb). Qed.
Lemma lstep_same me' s s' : lstep me' s s' →
  k_sb s' = k_sb s ∧ k_mem s' = k_mem s ∧ k_itable s' = k_itable s ∧ k_held s' = k_held s.
Proof. by intros (B & d & w & v & l & lg & out & u & -> & _). Qed.

Lemma wpt_bread H V bl bn s (Q : nat → kstate → Prop) :
  txn me st H V bl s → 0 ≤ bn < 2 ^ 31 → H !! bn = None → fits H bl 1 →
  (∀ i s', txn me st (<[bn := i]> H) V bl s' → tstep s s' → settled V bl s' bn → Q i s') →
  wp (sync resume (bread 1 bn)) Q s.
Proof.
  intros Htx Hr Hbn Hf HQ. pose proof (settled_unheld _ _ _ _ _ Htx Hbn) as Hs.
  apply (wp_bread me H (pinned bl) V bn s); [apply Htx|done|done|by apply fits_room|].
  intros i s' Hb Hd Hw Hca. apply HQ.
  - eapply txn_lstep_cache; [exact Htx|by eapply bstep_log|done].
  - by apply tstep_bstep.
  - destruct Hs as [Hs|Hs]; [by left|right]. by rewrite Hd.
Qed.
Lemma wpt_setdata H V bl bn i f s (Q : unit → kstate → Prop) :
  txn me st H V bl s → H !! bn = Some i → length (f (V bn)) = 1024%nat →
  (∀ s', txn me st H (put V bn (f (V bn))) bl s' → tstep s s' → Q tt s') →
  wp (sync resume (modb i (λ b, set_b_data (f (b_data b)) b))) Q s.
Proof.
  intros Htx Hi Hf HQ. apply (wp_setdata me H (pinned bl) V bn i f s); [apply Htx|done|done|].
  intros s' Hb Hd Hw Hca. apply HQ; [|by apply tstep_bstep].
  eapply txn_lstep_cache; [exact Htx|by eapply bstep_log|done].
Qed.
Lemma wpt_log_write H V bl bn i s (Q : unit → kstate → Prop) :
  txn me st H V bl s → H !! bn = Some i → ¬ in_log st bn → (length bl < NBUF)%nat →
  (∀ s', txn me st H V (absorb bl bn) s' → tstep s s' → Q tt s') →
  wp (sync resume (log_write i)) Q s.
Proof.
  intros Htx Hi Hh Hlen HQ.
  destruct (log_write_txn me st H V bl bn i s Htx Hi Hh) as (s' & E & Htx' & Hl & Hd & Hw & Ho).
  { unfold NBUF, LOGBLOCKS in *. lia. }
  eapply wps_eq; [exact E|]. by apply HQ.
Qed.
Lemma wpt_brelse H V bl bn i s (Q : unit → kstate → Prop) :
  txn me st H V bl s → H !! bn = Some i → settled V bl s bn →
  (∀ s', txn me st (delete bn H) V bl s' → tstep s s' → Q tt s') →
  wp (sync resume (brelse i)) Q s.
Proof.
  intros Htx Hi Hs HQ. apply (wp_brelse me H (pinned bl) V bn i s); [apply Htx|done| |].
  { destruct Hs as [Hs|Hs]; [left; by rewrite pinned_in|by right]. }
  intros s' Hb Hd Hw Hca. apply HQ; [|by apply tstep_bstep].
  eapply txn_lstep_cache; [exact Htx|by eapply bstep_log|done].
Qed.
Lemma wpt_held H V bl bn i s (Q : buf → kstate → Prop) :
  txn me st H V bl s → H !! bn = Some i → (∀ b, b_data b = V bn → Q b s) →
  wp (sync resume (getb i)) Q s.
Proof. intros Htx Hi HQ. eapply (wp_held me H (pinned bl) V bn i s); [apply Htx|done|]. intros b Hb _. by apply HQ. Qed.

Lemma absorb_in bl bn : bn ∈ absorb bl bn.
Proof. unfold absorb. case_decide; [done|]. apply elem_of_app. right. by apply list_elem_of_singleton. Qed.
Lemma absorb_len bl bn : (length (absorb bl bn) ≤ S (length bl))%nat.
Proof. unfold absorb. case_decide; [lia|]. rewrite length_app. cbn. lia. Qed.
Lemma absorb_mono bl bn x : x ∈ bl → x ∈ absorb bl bn.
Proof. unfold absorb. case_decide; [done|]. intros. apply elem_of_app. by left. Qed.

(** [bzero]. *)
Lemma wpt_bzero H V bl bn s (Q : unit → kstate → Prop) :
  txn me st H V bl s → 0 ≤ bn < 2 ^ 31 → H !! bn = None → ¬ in_log st bn → fits H bl 1 →
  (∀ s', txn me st H (put V bn (replicate 1024 0)) (absorb bl bn) s' → tstep s s' → Q tt s') →
  wp (sync resume (bzero 1 bn)) Q s.
Proof.
  intros Htx Hr Hbn Hh Hf HQ. unfold bzero. rewrite !u32_small by lia. apply wps_bind.
  apply (wpt_bread H V bl bn); try done. intros i s1 T1 S1 _. apply wps_bind.
  assert (<[bn := i]> H !! bn = Some i) as Hi by (by rewrite lookup_insert_eq).
  apply (wpt_setdata (<[bn := i]> H) V bl bn i (λ _, replicate 1024 0)); try done. intros s2 T2 S2. apply wps_bind.
  eapply (wpt_log_write _ _ bl bn i); [exact T2|done|done|unfold fits in Hf; lia|]. intros s3 T3 S3.
  eapply (wpt_brelse _ _ _ bn i); [exact T3|done|left; apply absorb_in|]. intros s4 T4 S4.
  rewrite delete_insert_id in T4 by done. apply HQ; [done|].
  eapply tstep_trans; [exact S1|]. eapply tstep_trans; [exact S2|]. by eapply tstep_trans.
Qed.

(** ** The bitmap *)

Context (sb : superblock) (nmeta : Z).

(** The blocks below [nmeta], which hold the boot block, the log, the inodes and the
    bitmap, are not for files. *)
Record layout_ok : Prop := {
  lo_size : 0 < nmeta ≤ sb_size sb ∧ sb_size sb < 2 ^ 31;
  lo_bmap : 0 ≤ sb_bmapstart sb ∧ ∀ b, 0 ≤ b < sb_size sb → sb_bmapstart sb + b / BPB < nmeta;
  lo_bmap_log : ∀ b, 0 ≤ b < sb_size sb → ¬ in_log st (sb_bmapstart sb + b / BPB);
  lo_log : ∀ bn, in_log st bn → bn < nmeta;
}.
Context (Hlay : layout_ok).

Definition bit_byte (b : Z) : nat := Z.to_nat (b mod BPB / 8).
Definition used V (b : Z) : bool := Z.testbit (nth (bit_byte b) (V (BBLOCK b sb)) 0) (b mod 8).
(** The bitmap with the bit of [b] set or cleared. *)
Definition mark V (b : Z) : Z → list Z :=
  put V (BBLOCK b sb)
    (<[bit_byte b := u8 (Z.lor (nth (bit_byte b) (V (BBLOCK b sb)) 0) (Z.shiftl 1 (b mod 8)))]> (V (BBLOCK b sb))).
Definition unmark V (b : Z) : Z → list Z :=
  put V (BBLOCK b sb)
    (<[bit_byte b := u8 (Z.land (nth (bit_byte b) (V (BBLOCK b sb)) 0) (Z.lnot (Z.shiftl 1 (b mod 8))))]>
       (V (BBLOCK b sb))).

Lemma BBLOCK_eq b : 0 ≤ b < sb_size sb → BBLOCK b sb = sb_bmapstart sb + b / BPB.
Proof.
  intros Hb. destruct (lo_bmap Hlay) as [H0 H1], (lo_size Hlay). specialize (H1 b Hb).
  unfold BBLOCK. rewrite (u32_small b) by lia. rewrite u32_small; [lia|].
  assert (0 ≤ b / BPB) by (apply Z.div_pos; [lia|unfold BPB, BSIZE; lia]). lia.
Qed.
Lemma BBLOCK_range b : 0 ≤ b < sb_size sb → 0 ≤ BBLOCK b sb < nmeta ∧ ¬ in_log st (BBLOCK b sb).
Proof.
  intros Hb. rewrite BBLOCK_eq by done. destruct (lo_bmap Hlay) as [H0 H1]. split; [|by apply lo_bmap_log].
  specialize (H1 b Hb). assert (0 ≤ b / BPB) by (apply Z.div_pos; [lia|unfold BPB, BSIZE; lia]). lia.
Qed.
Lemma bit_byte_lt b : (bit_byte b < 1024)%nat.
Proof. unfold bit_byte, BPB, BSIZE. dlia. Qed.
Lemma same_bit b b' :
  0 ≤ b < sb_size sb → 0 ≤ b' < sb_size sb → BBLOCK b sb = BBLOCK b' sb → bit_byte b = bit_byte b' →
  b mod 8 = b' mod 8 → b = b'.
Proof. intros Hb Hb'. rewrite !BBLOCK_eq by done. unfold bit_byte, BPB, BSIZE. intros E1 E2 E3. dlia. Qed.

Lemma testbit_u8 x k : 0 ≤ k < 8 → Z.testbit (u8 x) k = Z.testbit x k.
Proof. intros Hk. unfold u8. change 256 with (2 ^ 8). by rewrite Z.mod_pow2_bits_low by lia. Qed.
Lemma testbit_bit k j : 0 ≤ k → 0 ≤ j → Z.testbit (Z.shiftl 1 k) j = (j =? k).
Proof.
  intros Hk Hj. rewrite Z.shiftl_spec by done. destruct (Z.eqb_spec j k) as [->|Hne].
  - by rewrite Z.sub_diag.
  - destruct (decide (j < k)); [by rewrite Z.testbit_neg_r by lia|]. rewrite Z.bits_above_log2; [done|lia|cbn; lia].
Qed.
Lemma land_bit v k : 0 ≤ k → (Z.land v (Z.shiftl 1 k) =? 0) = negb (Z.testbit v k).
Proof.
  intros Hk. destruct (Z.testbit v k) eqn:E; cbn.
  - apply Z.eqb_neq. intros H0. apply (f_equal (λ x, Z.testbit x k)) in H0.
    rewrite Z.land_spec, E, testbit_bit, Z.eqb_refl, Z.bits_0 in H0 by lia. done.
  - apply Z.eqb_eq, Z.bits_inj'. intros j Hj. rewrite Z.land_spec, testbit_bit, Z.bits_0 by lia.
    destruct (Z.eqb_spec j k) as [->|]; [by rewrite E|by rewrite andb_false_r].
Qed.

(** A change of one byte of the bitmap. *)
Lemma used_put V b x b' :
  length (V (BBLOCK b sb)) = 1024%nat →
  used (put V (BBLOCK b sb) (<[bit_byte b := x]> (V (BBLOCK b sb)))) b' =
  if decide (BBLOCK b' sb = BBLOCK b sb ∧ bit_byte b' = bit_byte b) then Z.testbit x (b' mod 8) else used V b'.
Proof.
  intros Hl. unfold used. destruct (decide (BBLOCK b' sb = BBLOCK b sb)) as [E|E].
  - rewrite E, put_eq. destruct (decide (bit_byte b' = bit_byte b)) as [E2|E2].
    + rewrite decide_True by done. rewrite E2, nth_lookup, list_lookup_insert_eq; [done|]. rewrite Hl. apply bit_byte_lt.
    + rewrite decide_False by tauto. by rewrite !nth_lookup, list_lookup_insert_ne by done.
  - rewrite decide_False by tauto. by rewrite put_ne.
Qed.
Lemma used_mark V b b' :
  0 ≤ b < sb_size sb → 0 ≤ b' < sb_size sb → length (V (BBLOCK b sb)) = 1024%nat →
  used (mark V b) b' = if decide (b' = b) then true else used V b'.
Proof.
  intros Hb Hb' Hl. unfold mark. rewrite used_put by done.
  assert (0 ≤ b mod 8 < 8) by (apply Z.mod_pos_bound; lia). assert (0 ≤ b' mod 8 < 8) by (apply Z.mod_pos_bound; lia).
  destruct (decide (_ ∧ _)) as [[E1 E2]|E].
  - rewrite testbit_u8, Z.lor_spec, testbit_bit by lia. case_decide as E3.
    + subst. by rewrite Z.eqb_refl, orb_true_r.
    + destruct (Z.eqb_spec (b' mod 8) (b mod 8)) as [E4|]; [by destruct E3; apply same_bit|].
      rewrite orb_false_r. unfold used. by rewrite E1, E2.
  - case_decide; [|done]. subst. tauto.
Qed.
Lemma used_unmark V b b' :
  0 ≤ b < sb_size sb → 0 ≤ b' < sb_size sb → length (V (BBLOCK b sb)) = 1024%nat →
  used (unmark V b) b' = if decide (b' = b) then false else used V b'.
Proof.
  intros Hb Hb' Hl. unfold unmark. rewrite used_put by done.
  assert (0 ≤ b mod 8 < 8) by (apply Z.mod_pos_bound; lia). assert (0 ≤ b' mod 8 < 8) by (apply Z.mod_pos_bound; lia).
  destruct (decide (_ ∧ _)) as [[E1 E2]|E].
  - rewrite testbit_u8, Z.land_spec, Z.lnot_spec, testbit_bit by lia. case_decide as E3.
    + subst. by rewrite Z.eqb_refl, andb_false_r.
    + destruct (Z.eqb_spec (b' mod 8) (b mod 8)) as [E4|]; [by destruct E3; apply same_bit|].
      rewrite andb_true_r. unfold used. by rewrite E1, E2.
  - case_decide; [|done]. subst. tauto.
Qed.
Lemma used_block V b x b' : nmeta ≤ b → 0 ≤ b' < sb_size sb → used (put V b x) b' = used V b'.
Proof. intros Hb Hb'. unfold used. destruct (BBLOCK_range b' Hb') as [Hr _]. by rewrite put_ne by lia. Qed.

(** ** [balloc] *)

(** The state of the file system as a caller inside a transaction sees it: the bitmap
    has the blocks that are not for files and the blocks that the caller holds, none
    of them a bitmap block. *)
Record alloc_ok H V s : Prop := {
  al_sb : k_sb s = sb;
  al_meta : ∀ b, 0 ≤ b < nmeta → used V b = true;
  al_held : ∀ b, is_Some (H !! b) → used V b = true ∧ nmeta ≤ b < sb_size sb;
}.
Lemma alloc_bitmap H V s b : alloc_ok H V s → 0 ≤ b < sb_size sb → H !! BBLOCK b sb = None.
Proof.
  intros Ha Hb. destruct (H !! BBLOCK b sb) eqn:E; [|done].
  destruct (al_held _ _ _ Ha (BBLOCK b sb)) as [_ ?]; [by eexists|]. destruct (BBLOCK_range b Hb). lia.
Qed.
Lemma alloc_free H V s b :
  alloc_ok H V s → 0 ≤ b < sb_size sb → used V b = false → nmeta ≤ b ∧ H !! b = None ∧ ¬ in_log st b.
Proof.
  intros Ha Hb Hu. assert (nmeta ≤ b) as Hm.
  { destruct (decide (b < nmeta)); [|lia]. rewrite (al_meta _ _ _ Ha) in Hu by lia. done. }
  split_and!; [done| |].
  - destruct (H !! b) eqn:E; [|done]. destruct (al_held _ _ _ Ha b) as [Hub _]; [by eexists|]. congruence.
  - intros Hl. pose proof (lo_log Hlay b Hl). lia.
Qed.

(** The new block: marked in the bitmap and zeroed. *)
Definition allocated V (b : Z) : Z → list Z := put (mark V b) b (replicate 1024 0).
Definition alloc_log bl (b : Z) : list Z := absorb (absorb bl (BBLOCK b sb)) b.

(** What happens once the free bit is found. *)
Lemma wpt_take H V bl b bp s (Q : option Z → kstate → Prop) :
  txn me st (<[BBLOCK b sb := bp]> H) V bl s → alloc_ok H V s → 0 ≤ b < sb_size sb → used V b = false → fits H bl 2 →
  (∀ s', txn me st H (allocated V b) (alloc_log bl b) s' → tstep s s' → Q (Some b) s') →
  wp (sync resume
    (modb bp (set_b_data (<[bit_byte b := u8 (Z.lor (nth (bit_byte b) (V (BBLOCK b sb)) 0) (Z.shiftl 1 (b mod 8)))]>
       (V (BBLOCK b sb)))) ;;
     log_write bp ;; brelse bp ;; bzero 1 b ;; ret (Some b))) Q s.
Proof.
  intros Htx Ha Hb Hu Hf HQ. set (bm := BBLOCK b sb) in *.
  destruct (BBLOCK_range b Hb) as [Hbm Hbl]. destruct (alloc_free _ _ _ _ Ha Hb Hu) as (Hnm & HHb & Hlog).
  destruct (lo_size Hlay) as [Hs1 Hs2].
  assert (<[bm := bp]> H !! bm = Some bp) as Hi by (by rewrite lookup_insert_eq).
  apply wps_bind.
  apply (wpt_setdata (<[bm := bp]> H) V bl bm bp
    (λ _, <[bit_byte b := u8 (Z.lor (nth (bit_byte b) (V bm) 0) (Z.shiftl 1 (b mod 8)))]> (V bm))); [done|done| |].
  { rewrite length_insert. eapply cache_vlen, Htx. }
  intros s1 T1 S1. apply wps_bind. eapply (wpt_log_write _ _ bl bm bp); [exact T1|done|done|unfold fits in Hf; lia|].
  intros s2 T2 S2. apply wps_bind.
  eapply (wpt_brelse _ _ _ bm bp); [exact T2|done|left; apply absorb_in|]. intros s3 T3 S3.
  rewrite delete_insert_id in T3 by (by apply (alloc_bitmap H V s)). apply wps_bind.
  eapply (wpt_bzero H _ (absorb bl bm) b); [exact T3|lia|done|done| |].
  { unfold fits in *. pose proof (absorb_len bl bm). lia. }
  intros s4 T4 S4. apply wps_of_wp, wp_ret, HQ; [exact T4|].
  eapply tstep_trans; [exact S1|]. eapply tstep_trans; [exact S2|]. by eapply tstep_trans.
Qed.

Lemma upto_drop n k x l : drop k (upto n) = x :: l → x = Z.of_nat k ∧ l = drop (S k) (upto n) ∧ Z.of_nat k < n.
Proof.
  intros E. assert (upto n !! k = Some x) as Hx by (rewrite <- (Nat.add_0_r k), <- lookup_drop, E; done).
  pose proof (lookup_lt_Some _ _ _ Hx) as Hlt. rewrite length_upto in Hlt. rewrite lookup_upto in Hx by done.
  split_and!; [congruence| |lia]. rewrite (drop_S _ x k) in E; [congruence|]. rewrite lookup_upto by done. congruence.
Qed.
Lemma upto_end n k : drop k (upto n) = [] → n ≤ Z.of_nat k.
Proof. intros E. apply (f_equal length) in E. rewrite length_drop, length_upto in E. cbn in E. lia. Qed.

(** The bit of block [k * BPB + bi] in its bitmap block. *)
Lemma bit_of k bi : 0 ≤ k → 0 ≤ bi < BPB → let b := k * BPB + bi in
  b / BPB = k ∧ bit_byte b = Z.to_nat (bi / 8) ∧ b mod 8 = bi mod 8.
Proof. unfold bit_byte, BPB, BSIZE. intros. cbv zeta. split_and!; dlia. Qed.
Lemma same_BBLOCK k bi : 0 ≤ k → 0 ≤ bi < BPB → k * BPB + bi < sb_size sb →
  BBLOCK (k * BPB + bi) sb = BBLOCK (k * BPB) sb.
Proof.
  intros Hk Hbi Hs. pose proof (bit_of k bi Hk Hbi) as (E1 & _). pose proof (bit_of k 0 Hk ltac:(lia)) as (E2 & _).
  rewrite Z.add_0_r in E2. rewrite !BBLOCK_eq by (unfold BPB, BSIZE in *; lia). lia.
Qed.

Lemma wpt_balloc_block H V bl k bp s (Q : option Z → kstate → Prop) :
  0 ≤ k → k * BPB < sb_size sb →
  txn me st (<[BBLOCK (k * BPB) sb := bp]> H) V bl s → alloc_ok H V s → fits H bl 2 →
  ((∀ b, k * BPB ≤ b < Z.min (k * BPB + BPB) (sb_size sb) → used V b = true) → Q None s) →
  (∀ b s', k * BPB ≤ b < Z.min (k * BPB + BPB) (sb_size sb) → used V b = false →
     (∀ c, k * BPB ≤ c < b → used V c = true) →
     txn me st H (allocated V b) (alloc_log bl b) s' → tstep s s' → Q (Some b) s') →
  wp (sync resume (balloc_block 1 (k * BPB) bp)) Q s.
Proof.
  intros Hk Hlt Htx Ha Hf Hnone Hsome. unfold balloc_block. apply wps_bind, wps_of_wp, wp_gets. rewrite (al_sb _ _ _ Ha).
  set (n := Z.min BPB (sb_size sb - k * BPB)).
  apply (wps_for_list resume (λ rest s', s' = s ∧ ∃ j, rest = drop j (upto n) ∧
    ∀ c, k * BPB ≤ c < k * BPB + Z.of_nat j → used V c = true)).
  - split; [done|]. exists O. split; [done|]. intros c Hc. lia.
  - intros bi rest s' [-> (j & Er & Hused)]. symmetry in Er. apply upto_drop in Er as (-> & -> & Hj).
    assert (0 ≤ Z.of_nat j < BPB) as Hbi by (unfold n in Hj; lia).
    set (b := k * BPB + Z.of_nat j). assert (0 ≤ b < sb_size sb) as Hb by (unfold b, n, BPB, BSIZE in *; lia).
    pose proof (bit_of k (Z.of_nat j) Hk Hbi) as (_ & E1 & E2). fold b in E1, E2. rewrite <- E1, <- E2.
    pose proof (same_BBLOCK k (Z.of_nat j) Hk Hbi ltac:(lia)) as E3. fold b in E3. rewrite <- E3 in Htx.
    apply wps_bind. eapply (wpt_held _ V bl (BBLOCK b sb) bp); [exact Htx|by rewrite lookup_insert_eq|].
    intros bf Hbf. cbv zeta. rewrite Hbf, land_bit by (apply Z.mod_pos_bound; lia). fold (used V b).
    destruct (used V b) eqn:Eu; cbn [negb].
    + apply wps_of_wp, wp_ret. split; [done|]. exists (S j). split; [done|]. intros c Hc.
      destruct (decide (c = b)) as [->|]; [done|]. apply Hused. unfold b in *. lia.
    + apply (wpt_take H V bl b bp); try done. intros s' T S. eapply Hsome; try done; unfold b, n in *; lia.
  - intros s' [-> (j & Er & Hused)]. symmetry in Er. apply upto_end in Er. apply Hnone. intros b Hb. apply Hused. unfold n in Er. lia.
Qed.

(** The whole bitmap: the first free block is taken, or every block is used. *)
Lemma wpt_balloc H V bl s (Q : Z → kstate → Prop) :
  txn me st H V bl s → alloc_ok H V s → fits H bl 2 →
  (∀ b s', nmeta ≤ b < sb_size sb → used V b = false → (∀ c, 0 ≤ c < b → used V c = true) →
     txn me st H (allocated V b) (alloc_log bl b) s' → tstep s s' → Q b s') →
  ((∀ b, 0 ≤ b < sb_size sb → used V b = true) → ∀ s', txn me st H V bl s' → tstep s s' → Q 0 s') →
  wp (sync resume (balloc 1)) Q s.
Proof.
  intros Htx Ha Hf Hsome Hnone. unfold balloc. apply wps_bind, wps_of_wp, wp_gets. rewrite (al_sb _ _ _ Ha).
  set (n := (sb_size sb + BPB - 1) / BPB). apply wps_bind.
  apply (wps_for_list resume (λ rest s', txn me st H V bl s' ∧ tstep s s' ∧ ∃ k, rest = drop k (upto n) ∧
    ∀ c, 0 ≤ c < Z.min (Z.of_nat k * BPB) (sb_size sb) → used V c = true)).
  - split_and!; [done|apply tstep_refl|]. exists O. split; [done|]. lia.
  - intros k0 rest s1 (T1 & S1 & k & Er & Hused). symmetry in Er. apply upto_drop in Er as (-> & -> & Hk).
    set (k0 := Z.of_nat k) in *. assert (k0 * BPB < sb_size sb) as Hlt by (unfold n, BPB, BSIZE in *; dlia).
    destruct (BBLOCK_range (k0 * BPB)) as [Hbr _]; [unfold BPB, BSIZE in *; lia|]. destruct (lo_size Hlay).
    assert (alloc_ok H V s1) as Ha1.
    { destruct Ha as [A1 A2 A3]. split; [|done|done]. destruct (lstep_same _ _ _ (ts_lstep _ _ S1)) as (-> & _). done. }
    cbv zeta. apply wps_bind.
    apply (wpt_bread H V bl (BBLOCK (k0 * BPB) sb)); [done|lia|apply (alloc_bitmap H V s1); [done|unfold BPB, BSIZE in *; lia]|unfold fits in *; lia|].
    intros bp s2 T2 S2 Hset. apply wps_bind. pose proof (tstep_trans _ _ _ S1 S2) as S12.
    assert (alloc_ok H V s2) as Ha2.
    { destruct Ha1 as [A1 A2 A3]. split; [|done|done]. destruct (lstep_same _ _ _ (ts_lstep _ _ S2)) as (-> & _). done. }
    apply (wpt_balloc_block H V bl k0 bp); try done.
    + unfold k0. lia.
    + intros Hall. apply wps_bind. eapply (wpt_brelse _ V bl _ bp); [exact T2|by rewrite lookup_insert_eq|done|].
      intros s3 T3 S3. rewrite delete_insert_id in T3 by (apply (alloc_bitmap H V s1); [done|unfold BPB, BSIZE in *; lia]).
      apply wps_of_wp, wp_ret. split_and!; [done|by eapply tstep_trans|]. exists (S k). split; [done|].
      intros c Hc. destruct (decide (c < k0 * BPB)); [apply Hused; lia|]. apply Hall. unfold k0 in *. lia.
    + intros b s3 Hb Hu Hfirst T3 S3. apply wps_of_wp, wp_ret. cbn.
      apply Hsome; [|done| |done|by eapply tstep_trans].
      * destruct (alloc_free H V s2 b Ha2) as (? & _ & _); [unfold BPB, BSIZE in *; lia|done|]. lia.
      * intros c Hc. destruct (decide (c < k0 * BPB)); [apply Hused; lia|]. apply Hfirst. lia.
  - intros s1 (T1 & S1 & k & Er & Hused). symmetry in Er. apply upto_end in Er. cbn beta iota.
    apply wps_bind, wps_of_wp, wp_printk_plain; [by repeat constructor| |].
    { rewrite (ca_lock _ _ _ _ _ (tx_cache _ _ _ _ _ _ T1)). apply not_elem_of_nil. }
    intros s2 (out & u & ->). apply wps_of_wp, wp_ret, Hnone.
    + intros b Hb. apply Hused. unfold n, BPB, BSIZE in *. dlia.
    + destruct T1 as [C1 L1 B1 A1 I1]. split; [by apply cache_out|done..].
    + eapply tstep_trans; [exact S1|]. split; try done. apply lstep_out.
Qed.

(** [bfree] clears the bit of a used block. *)
Lemma wpt_bfree H V bl b s (Q : unit → kstate → Prop) :
  txn me st H V bl s → alloc_ok H V s → fits H bl 1 → 0 ≤ b < sb_size sb → used V b = true →
  (∀ s', txn me st H (unmark V b) (absorb bl (BBLOCK b sb)) s' → tstep s s' → Q tt s') →
  wp (sync resume (bfree 1 b)) Q s.
Proof.
  intros Htx Ha Hf Hb Hu HQ. unfold bfree. apply wps_bind, wps_of_wp, wp_gets. rewrite (al_sb _ _ _ Ha).
  change (u32 1) with 1. set (bm := BBLOCK b sb). destruct (BBLOCK_range b Hb) as [Hbm Hbl]. fold bm in Hbm, Hbl.
  destruct (lo_size Hlay). pose proof (alloc_bitmap H V s b Ha Hb) as HHb. fold bm in HHb. apply wps_bind.
  apply (wpt_bread H V bl bm); [done|lia|done|done|]. intros bp s1 T1 S1 _. cbv zeta. apply wps_bind.
  assert (<[bm := bp]> H !! bm = Some bp) as Hi by (by rewrite lookup_insert_eq).
  eapply (wpt_held _ V bl bm bp); [exact T1|done|]. intros bf Hbf. rewrite Hbf.
  assert (b mod BPB mod 8 = b mod 8) as -> by (unfold BPB, BSIZE; dlia). fold (bit_byte b).
  rewrite land_bit by (apply Z.mod_pos_bound; lia). unfold bm. fold (used V b). fold bm. rewrite Hu. cbn [negb].
  apply wps_bind.
  apply (wpt_setdata (<[bm := bp]> H) V bl bm bp
    (λ _, <[bit_byte b := u8 (Z.land (nth (bit_byte b) (V bm) 0) (Z.lnot (Z.shiftl 1 (b mod 8))))]> (V bm))); [done|done| |].
  { rewrite length_insert. eapply cache_vlen, Htx. }
  intros s2 T2 S2. apply wps_bind. eapply (wpt_log_write _ _ bl bm bp); [exact T2|done|done|unfold fits in Hf; lia|].
  intros s3 T3 S3. eapply (wpt_brelse _ _ _ bm bp); [exact T3|done|left; apply absorb_in|]. intros s4 T4 S4.
  rewrite delete_insert_id in T4 by done. apply HQ; [exact T4|].
  eapply tstep_trans; [exact S1|]. eapply tstep_trans; [exact S2|]. by eapply tstep_trans.
Qed.

(** [balloc] inside a transaction returns a block that the bitmap had as free, and
    never one that holds metadata or that the caller holds: in the view of the
    transaction the block is now used and zeroed, every other bit of the bitmap and
    every other block is as before, and the changes are logged; or it returns 0,
    nothing has changed and every block is in use. *)
Theorem balloc_correct H V bl s (Htxn : txn me st H V bl s) (Halloc : alloc_ok H V s) (Hroom : fits H bl 2) :
  ∃ b s', sync resume (balloc 1) s = Ret b s' ∧ tstep s s' ∧
    ((nmeta ≤ b < sb_size sb ∧ used V b = false ∧ H !! b = None ∧
      ∃ V', txn me st H V' (alloc_log bl b) s' ∧ V' b = replicate 1024 0 ∧
        (∀ c, 0 ≤ c < sb_size sb → used V' c = (if decide (c = b) then true else used V c)) ∧
        (∀ c, c ≠ b → c ≠ BBLOCK b sb → V' c = V c)) ∨
     (b = 0 ∧ (∀ c, 0 ≤ c < sb_size sb → used V c = true) ∧ txn me st H V bl s')).
Proof.
  apply wp_run, (wpt_balloc H V bl s); try done.
  - intros b s' Hb Hu _ T S. split; [done|left]. destruct (lo_size Hlay).
    destruct (alloc_free H V s b Halloc) as (_ & HHb & _); [lia|done|].
    split_and!; [lia..|done|done|]. exists (allocated V b). split_and!; [done|apply put_eq| |].
    + intros c Hc. unfold allocated. rewrite used_block by lia.
      rewrite used_mark; [done|lia|done|]. eapply cache_vlen, Htxn.
    + intros c Hcb Hcm. unfold allocated, mark. by rewrite !put_ne.
  - intros Hall s' T S. split; [done|right]. by split_and!.
Qed.
End txn.

(** ** Instance *)

(** 1000 blocks, of which 40 are for metadata: the log at 2, the bitmap at 34. *)
Definition sb34 : superblock := mkSb FSMAGIC 1000 0 0 0 2 33 34.
Definition bitmap40 : list Z := replicate 5 255 ++ replicate 1019 0.
Lemma layout34 : layout_ok 2 sb34 40.
Proof.
  split; cbn [sb_size sb_bmapstart sb34]; unfold in_log, BPB, BSIZE, LOGBLOCKS, MAXOPBLOCKS; try lia.
  - split; [lia|]. intros b Hb. dlia.
  - intros b Hb. dlia.
Qed.
Lemma cache_sb me H P V s sb : cache me H P V s → cache me H P V (set_k_sb sb s).
Proof. intros [[? ? ?] ? ? ?]. by split. Qed.

Lemma txn_bitmap : ∃ s, txn 2 2 ∅ (put (block_data ∅) 34 bitmap40) [34] s ∧ k_sb s = sb34.
Proof.
  destruct (begin_op_run (F := fuel1) 2 2 _ (set_k_sb sb34 kstate_fs) (cache_sb _ _ _ _ _ _ cache_fs) log_at_fs eq_refl eq_refl)
    as (s1 & _ & Htx & St & _).
  destruct (proj1 (wp_run (sync resume (update (F := fuel1) 34 (λ _, bitmap40)))
    (λ _ s', txn 2 2 ∅ (put (block_data ∅) 34 bitmap40) [34] s' ∧ k_sb s' = sb34) s1)) as (_ & s & _ & Hs); [|by exists s].
  apply (wp_update (F := fuel1) 2 2 (block_data ∅) [] 34 _ s1); [done|lia|unfold in_log, LOGBLOCKS, MAXOPBLOCKS; lia|
    unfold NBUF, MAXOPBLOCKS; cbn; lia|done|].
  intros s' Htx' St' _ _ _. split; [done|]. destruct (lstep_same _ _ _ St') as (-> & _), (lstep_same _ _ _ St) as (-> & _). done.
Qed.
Lemma balloc_correct_witness :
  ∃ s b s', sync resume (balloc (F := fuel1) 1) s = Ret b s' ∧ 40 ≤ b < 1000.
Proof.
  destruct txn_bitmap as (s & Htx & Esb).
  assert (alloc_ok sb34 40 ∅ (put (block_data ∅) 34 bitmap40) s) as Ha.
  { split; [done| |by intros b [i Hi]]. intros b Hb.
    assert (Forall (λ b, used sb34 (put (block_data ∅) 34 bitmap40) b = true) (seqZ 0 40)) as Hall
      by (repeat constructor).
    rewrite Forall_forall in Hall. apply Hall, elem_of_seqZ. lia. }
  destruct (balloc_correct (F := fuel1) 2 2 sb34 40 layout34 ∅ _ [34] s Htx Ha) as (b & s' & E & _ & H).
  { unfold fits. rewrite map_size_empty. unfold NBUF, MAXOPBLOCKS. cbn. lia. }
  exists s, b, s'. split; [exact E|]. destruct H as [(H & _)|(_ & Hall & _)]; [exact H|].
  discriminate (Hall 100 ltac:(cbn; lia)).
Defined.
