(* ===== verification/Inode.v ===== *)
(** * File contents and directories

    [bmap] and [readi] (fs.c) as reading a file: the bytes of an inode in the array of
    blocks that the buffer cache shows, through direct and indirect blocks; and
    [dirlookup] as searching the entries of a directory. *)
From Stdlib Require Import ZArith Lia.
From stdpp Require Import base list gmap numbers strings.
From S2P Require Import Prelude Machine KString Bytes State Kalloc Sched Vm Virtio DiskIo Bio Lru Cache Log Crash Fs.
Local Open Scope Z_scope.
Local Open Scope kernel_scope.

Section inode.
Context {L : Layout} {F : Fuel} (me : nat).
Implicit Types (H : gmap Z nat) (P : Z → Z) (V : Z → list Z) (s : kstate) (ip : inode).

(** ** The contents of a file *)

(** The block that holds block [bn] of the file. *)
Definition faddr V ip (bn : Z) : Z :=
  if bn <? NDIRECT then nth (Z.to_nat bn) (i_addrs ip) 0
  else ldl 4 (V (nth (Z.to_nat NDIRECT) (i_addrs ip) 0)) (Z.to_nat (4 * (bn - NDIRECT))).
Definition fbyte V ip (off : Z) : Z := nth (Z.to_nat (off mod BSIZE)) (V (faddr V ip (off / BSIZE))) 0.
Definition fbytes V ip (off : Z) (n : nat) : list Z := (λ k, fbyte V ip (off + Z.of_nat k)) <$> seq 0 n.

(** A block number that [bread] can be called with. *)
Definition readable_block H (b : Z) : Prop := 0 < b < 2 ^ 31 ∧ H !! b = None.

(** Every block up to the size of the file is allocated, and not in the caller's hands. *)
Record file_blocks H V ip : Prop := {
  fb_dev : i_dev ip = 1;
  fb_size : 0 ≤ i_size ip ≤ MAXFILE * BSIZE;
  fb_addr : ∀ bn, 0 ≤ bn → bn * BSIZE < i_size ip → readable_block H (faddr V ip bn);
  fb_ind : ∀ bn, NDIRECT ≤ bn → bn * BSIZE < i_size ip →
    readable_block H (nth (Z.to_nat NDIRECT) (i_addrs ip) 0);
}.

Lemma length_fbytes V ip off n : length (fbytes V ip off n) = n.
Proof. unfold fbytes. by rewrite length_fmap, length_seq. Qed.
Lemma fbytes_app V ip off n m :
  fbytes V ip off (n + m) = fbytes V ip off n ++ fbytes V ip (off + Z.of_nat n) m.
Proof.
  unfold fbytes. rewrite seq_app, fmap_app. f_equal. cbn. rewrite <- (Nat.add_0_r n) at 1.
  rewrite <- fmap_add_seq, <- list_fmap_compose. apply list_fmap_ext. intros i k _. cbn. f_equal. lia.
Qed.
(** Within one block. *)
Lemma fbytes_slice V ip off m :
  0 ≤ off → length (V (faddr V ip (off / BSIZE))) = 1024%nat → off mod BSIZE + Z.of_nat m ≤ BSIZE →
  fbytes V ip off m = slice (V (faddr V ip (off / BSIZE))) (Z.to_nat (off mod BSIZE)) m.
Proof.
  intros H0 Hl Hm. unfold BSIZE in *. assert (0 ≤ off mod 1024 < 1024) by (apply Z.mod_pos_bound; lia).
  apply list_eq. intros k. unfold fbytes, slice. rewrite list_lookup_fmap.
  destruct (decide (k < m)%nat) as [Hk|Hk].
  - rewrite lookup_seq_lt by done. cbn. rewrite lookup_take_lt, lookup_drop by done.
    unfold fbyte, BSIZE.
    assert ((off + Z.of_nat k) / 1024 = off / 1024) as -> by dlia.
    assert ((off + Z.of_nat k) mod 1024 = off mod 1024 + Z.of_nat k) as -> by dlia.
    rewrite nth_lookup. replace (Z.to_nat (off mod 1024 + Z.of_nat k)) with (Z.to_nat (off mod 1024) + k)%nat by lia.
    destruct (lookup_lt_is_Some_2 (V (faddr V ip (off / 1024))) (Z.to_nat (off mod 1024) + k)) as [x ->]; [lia|done].
  - rewrite lookup_seq_ge by lia. cbn. symmetry. apply lookup_take_ge. lia.
Qed.

(** ** Reading a block and giving it back *)

Definition roomy H P : Prop :=
  ∃ l : list Z, (∀ x, is_Some (H !! x) ∨ P x ≠ 0 → x ∈ l) ∧ (length l < NBUF)%nat.

(** A step that only uses the cache. *)
Record rstep (s s' : kstate) : Prop := {
  rs_bstep : bstep me s s';
  rs_disk : k_disk s' = k_disk s;
  rs_dwrites : k_dwrites s' = k_dwrites s;
}.
Lemma rstep_refl s : rstep s s.
Proof. split; try done. apply bstep_refl. Qed.
Lemma rstep_trans s1 s2 s3 : rstep s1 s2 → rstep s2 s3 → rstep s1 s3.
Proof. intros [] []. split; [by eapply bstep_trans|congruence..]. Qed.
Lemma rstep_same s s' : rstep s s' → k_itable s' = k_itable s ∧ k_sb s' = k_sb s ∧ k_mem s' = k_mem s ∧ k_log s' = k_log s.
Proof. by intros [(B & d & w & v & l & -> & _) _ _]. Qed.

Lemma wp_visit {A} H P V bn s (body : nat → K A) (Q : A → kstate → Prop) :
  cache me H P V s → readable_block H bn → roomy H P →
  (∀ i b s', cache me (<[bn := i]> H) P V s' → rstep s s' → k_bufs s' !! i = Some b → b_data b = V bn →
     (P bn ≠ 0 ∨ V bn = block_data (k_disk s') bn) → wp (sync resume (body i)) Q s') →
  wp (sync resume (i ← bread 1 bn; body i)) Q s.
Proof.
  intros Hca [Hr Hbn] Hroom HQ. apply wps_bind.
  assert (P bn ≠ 0 ∨ V bn = block_data (k_disk s) bn) as Hset.
  { destruct (cache_me _ _ _ _ _ Hca) as (p & _ & _ & _ & HB & _).
    destruct (decide (P bn = 0)); [right|by left]. by apply (bo_clean _ _ _ _ _ _ HB). }
  apply (wp_bread me H P V bn s); [done|lia|done|right; done|].
  intros i s' Hb Hd Hw Hca'. destruct (cache_me _ _ _ _ _ Hca') as (p & _ & _ & _ & HB & _).
  destruct (held_lookup _ _ _ _ _ _ _ _ HB (lookup_insert_eq H bn i)) as (_ & b & Hbi & Hh).
  eapply HQ; try done; [apply Hh|]. by rewrite Hd.
Qed.
Lemma wp_leave H P V bn i s (Q : unit → kstate → Prop) :
  cache me (<[bn := i]> H) P V s → H !! bn = None → (P bn ≠ 0 ∨ V bn = block_data (k_disk s) bn) →
  (∀ s', cache me H P V s' → rstep s s' → Q tt s') → wp (sync resume (brelse i)) Q s.
Proof.
  intros Hca Hbn Hset HQ. apply (wp_brelse me _ P V bn i s _ Hca); [by rewrite lookup_insert_eq|done|].
  intros s' Hb Hd Hw Hca'. rewrite delete_insert_id in Hca' by done. by apply HQ.
Qed.

(** ** [bmap] on a block that is allocated *)

Lemma geti_run i ip s : k_itable s !! i = Some ip → geti i s = Ret ip s.
Proof. intros Hi. unfold geti. by rewrite bind_gets, Hi. Qed.

Lemma wp_bmap H P V i ip bn s (Q : Z → kstate → Prop) :
  cache me H P V s → roomy H P → k_itable s !! i = Some ip → file_blocks H V ip →
  0 ≤ bn → bn * BSIZE < i_size ip →
  (∀ s', cache me H P V s' → rstep s s' → Q (faddr V ip bn) s') →
  wp (sync resume (bmap i bn)) Q s.
Proof.
  intros Hca Hroom Hi Hf H0 Hbn HQ. unfold bmap. apply wps_bind. eapply wps_eq; [by apply geti_run|].
  pose proof (fb_addr _ _ _ Hf bn H0 Hbn) as Ha. unfold faddr in *.
  destruct (bn <? NDIRECT) eqn:E.
  { cbv zeta. destruct Ha as [Ha _]. rewrite (proj2 (Z.eqb_neq _ 0)) by lia.
    apply wps_of_wp, wp_ret, HQ; [done|apply rstep_refl]. }
  assert (bn - NDIRECT <? NINDIRECT = true) as ->.
  { destruct (fb_size _ _ _ Hf). unfold MAXFILE, NDIRECT, NINDIRECT, BSIZE in *. lia. }
  set (ind := nth (Z.to_nat NDIRECT) (i_addrs ip) 0) in *.
  pose proof (fb_ind _ _ _ Hf bn ltac:(lia) Hbn) as Hind. cbv zeta.
  rewrite (proj2 (Z.eqb_neq ind 0)) by (destruct Hind; unfold ind in *; lia).
  apply wps_bind, wps_of_wp, wp_ret. rewrite (proj2 (Z.eqb_neq ind 0)) by (destruct Hind; unfold ind in *; lia).
  rewrite (fb_dev _ _ _ Hf). apply (wp_visit H P V ind); [done|done|done|].
  intros bp b s1 C1 S1 Hb Hd Hset. apply wps_bind. eapply wps_eq; [by apply getb_run|]. rewrite Hd.
  set (a := ldl 4 (V ind) _) in *. destruct Ha as [Ha Ha'].
  rewrite (proj2 (Z.eqb_neq a 0)) by lia. apply wps_bind, wps_of_wp, wp_ret, wps_bind.
  apply (wp_leave H P V ind bp s1); [done|apply Hind|done|]. intros s2 C2 S2.
  apply wps_of_wp, wp_ret, HQ; [done|by eapply rstep_trans].
Qed.

(** ** [readi] into a local variable *)

Lemma wp_readi_loop fuel H P V i ip s tot off n acc (Q : Z * list Z → kstate → Prop) :
  cache me H P V s → roomy H P → k_itable s !! i = Some ip → file_blocks H V ip →
  0 ≤ tot ≤ n → n < 2 ^ 31 → 0 ≤ off → off + (n - tot) ≤ i_size ip →
  (tot < n → off mod BSIZE + (n - tot) ≤ Z.of_nat fuel * BSIZE) →
  (∀ s', cache me H P V s' → rstep s s' → Q (n, acc ++ fbytes V ip off (Z.to_nat (n - tot))) s') →
  wp (sync resume (readi_loop fuel i DLocal tot off n acc)) Q s.
Proof.
  revert s tot off acc. induction fuel as [|f IH]; intros s tot off acc Hca Hroom Hi Hf Htot Hn Hoff Hsz Hfuel HQ;
    (destruct (decide (tot = n)) as [->|Hne];
     [cbn [readi_loop]; rewrite Z.ltb_irrefl; rewrite Z.sub_diag in HQ; cbn in HQ; rewrite app_nil_r in HQ;
      rewrite i32_small by lia; apply wps_of_wp, wp_ret, HQ; [done|apply rstep_refl]|]).
  { exfalso. specialize (Hfuel ltac:(lia)). assert (0 ≤ off mod BSIZE) by (apply Z.mod_pos_bound; unfold BSIZE; lia). lia. }
  destruct (fb_size _ _ _ Hf) as [_ Hmax]. specialize (Hfuel ltac:(lia)).
  cbn [readi_loop]. rewrite (proj2 (Z.ltb_lt tot n)) by lia. unfold BSIZE in *.
  assert (0 ≤ off mod 1024 < 1024) as Hm by (apply Z.mod_pos_bound; lia).
  assert (0 ≤ off / 1024 ∧ off / 1024 * 1024 < i_size ip) as [Hb0 Hb1] by dlia.
  apply wps_bind, (wp_bmap H P V i ip (off / 1024)); try done. intros s1 C1 S1.
  pose proof (fb_addr _ _ _ Hf _ Hb0 Hb1) as Ha. set (a := faddr V ip (off / 1024)) in *.
  rewrite (proj2 (Z.eqb_neq a 0)) by (destruct Ha; lia). apply wps_bind.
  destruct (rstep_same _ _ S1) as (Ei & _).
  eapply wps_eq; [apply geti_run; by rewrite Ei|]. rewrite (fb_dev _ _ _ Hf).
  apply (wp_visit H P V a); [done|done|done|]. intros bp b s2 C2 S2 Hb Hd Hset. cbv zeta.
  set (m := Z.min (n - tot) (1024 - off mod 1024)). apply wps_bind. eapply wps_eq; [by apply getb_run|]. rewrite Hd.
  cbn [either_copyout]. apply wps_bind, wps_of_wp, wp_ret. change (0 =? -1) with false. cbv iota. apply wps_bind.
  apply (wp_leave H P V a bp s2); [done|apply Ha|done|]. intros s3 C3 S3. cbn [dst_add].
  destruct (rstep_same _ _ S2) as (Ei2 & _), (rstep_same _ _ S3) as (Ei3 & _).
  change (MAXFILE * 1024) with 274432 in Hmax.
  assert (0 < m ≤ n - tot) as Hm2 by (unfold m; lia). rewrite u32_small by lia.
  assert (m = n - tot ∨ (off + m) mod 1024 = 0 ∧ m = 1024 - off mod 1024) as Hcase by (unfold m; dlia).
  assert (off mod 1024 + m ≤ 1024) as Hin by (unfold m; lia).
  apply IH; try done; try lia.
  - congruence.
  - intros s4 C4 S4. rewrite <- app_assoc.
    pose proof (fbytes_slice V ip off (Z.to_nat m) Hoff) as Hsl. unfold BSIZE in Hsl. fold a in Hsl.
    rewrite <- Hsl by (first [lia|eapply cache_vlen, Hca]).
    replace (off + m) with (off + Z.of_nat (Z.to_nat m)) by lia. rewrite <- fbytes_app.
    replace (Z.to_nat m + Z.to_nat (n - (tot + m)))%nat with (Z.to_nat (n - tot)) by lia.
    apply HQ; [done|]. eapply rstep_trans; [exact S1|]. eapply rstep_trans; [exact S2|]. by eapply rstep_trans.
Qed.

(** How much [readi] reads: as much of [n] bytes as there is before the end of the file. *)
Definition available ip (off n : Z) : Z := if off <=? i_size ip then Z.min n (i_size ip - off) else 0.

Lemma wp_readi H P V i ip s off n (Q : Z * list Z → kstate → Prop) :
  cache me H P V s → roomy H P → k_itable s !! i = Some ip → file_blocks H V ip →
  0 ≤ off → 0 ≤ n < 2 ^ 31 → off + n < 2 ^ 32 →
  (∀ s', cache me H P V s' → rstep s s' →
     Q (available ip off n, fbytes V ip off (Z.to_nat (available ip off n))) s') →
  wp (sync resume (readi i DLocal off n)) Q s.
Proof.
  intros Hca Hroom Hi Hf H0 Hn Hs HQ. unfold readi. apply wps_bind. eapply wps_eq; [by apply geti_run|].
  destruct (fb_size _ _ _ Hf) as [Hsz _]. rewrite !u32_small by lia. unfold available in HQ.
  rewrite (proj2 (Z.ltb_ge (off + n) off)), orb_false_r by lia.
  destruct (Z.ltb_spec (i_size ip) off) as [Hlt|Hge].
  { rewrite (proj2 (Z.leb_gt off (i_size ip))) in HQ by lia. apply wps_of_wp, wp_ret, HQ; [done|apply rstep_refl]. }
  rewrite (proj2 (Z.leb_le off (i_size ip))) in HQ by lia. cbv zeta.
  assert ((if i_size ip <? off + n then i_size ip - off else n) = Z.min n (i_size ip - off)) as ->.
  { destruct (Z.ltb_spec (i_size ip) (off + n)); lia. }
  set (m := Z.min n _) in *. eapply (wp_readi_loop _ H P V i ip s 0 off m); try done; try lia.
  - intros _. unfold BSIZE. assert (0 ≤ m) by lia. dlia.
  - by rewrite Z.sub_0_r.
Qed.


(** ** [iget] *)

Definition is_entry (dev inum : Z) ip : Prop := 0 < i_ref ip ∧ i_dev ip = dev ∧ i_inum ip = inum.

(** The in-memory inodes: an inode of the disk is in the table at most once. *)
Record itable_ok (T : list inode) : Prop := {
  it_len : length T = NINODE;
  it_ref : ∀ i ip, T !! i = Some ip → 0 ≤ i_ref ip;
  it_uniq : ∀ i j ip jp, T !! i = Some ip → T !! j = Some jp → 0 < i_ref ip →
    is_entry (i_dev ip) (i_inum ip) jp → i = j;
}.

(** Entry [i] of [T'] is a reference to the inode; the rest of the table is [T]. *)
Definition got (dev inum : Z) (T : list inode) (i : nat) (T' : list inode) : Prop :=
  ∃ ip, T !! i = Some ip ∧
    ((is_entry dev inum ip ∧ T' = <[i := set_i_ref (i_ref ip + 1) ip]> T) ∨
     (i_ref ip = 0 ∧ (∀ j jp, T !! j = Some jp → ¬ is_entry dev inum jp) ∧
      T' = <[i := set_i_valid false (set_i_ref 1 (set_i_inum inum (set_i_dev dev ip)))]> T)).

Lemma wp_iget_scan l dev inum e s (Q : nat + option nat → kstate → Prop) :
  Forall (λ i, i < length (k_itable s))%nat l →
  (∀ i ip, k_itable s !! i = Some ip → is_entry dev inum ip → Q (inl i) s) →
  (∀ e', (∀ j jp, j ∈ l → k_itable s !! j = Some jp → ¬ is_entry dev inum jp) →
     match e' with
     | Some i => e = Some i ∨ ∃ ip, k_itable s !! i = Some ip ∧ i_ref ip = 0
     | None => e = None ∧ ∀ j jp, j ∈ l → k_itable s !! j = Some jp → i_ref jp ≠ 0
     end → Q (inr e') s) →
  wp (iget_scan l dev inum e) Q s.
Proof.
  intros Hl Hin Hnot. revert e Hnot. induction Hl as [|i l Hi Hl IH]; intros e Hnot; cbn [iget_scan].
  { apply wp_ret, Hnot; [set_solver|]. destruct e; [by left|set_solver]. }
  destruct (lookup_lt_is_Some_2 _ _ Hi) as [ip Hip]. apply wp_bind. eapply wp_eq; [by apply geti_run|].
  destruct ((0 <? i_ref ip) && (i_dev ip =? dev) && (i_inum ip =? inum)) eqn:E.
  { apply wp_ret, (Hin i ip Hip). unfold is_entry. lia. }
  apply IH. intros e' Hno He'. apply Hnot.
  - intros j jp [->|Hj]%elem_of_cons Hjp; [|by eapply Hno]. unfold is_entry. assert (jp = ip) as -> by congruence. lia.
  - destruct e' as [k|].
    + destruct He' as [He'|?]; [|by right]. destruct (bool_decide (e = None) && (i_ref ip =? 0)) eqn:Eb; [|by left].
      injection He' as <-. right. exists ip. split; [done|lia].
    + destruct He' as [He' Hr]. destruct (bool_decide (e = None) && (i_ref ip =? 0)) eqn:Eb; [done|].
      split; [done|]. intros j jp [->|Hj]%elem_of_cons Hjp; [|by eapply Hr].
      rewrite He', bool_decide_eq_true_2 in Eb by done. assert (jp = ip) as -> by congruence. lia.
Qed.

Lemma got_ok dev inum T i T' : itable_ok T → got dev inum T i T' → itable_ok T'.
Proof.
  intros [Hl Hr Hu] (ip & Hip & [[He ->]|(H0 & Hno & ->)]);
    (split; [by rewrite length_insert| |]).
  - intros j jp [(<- & <- & _)|[_ ?]]%list_lookup_insert_Some; [|by eapply Hr]. destruct ip; unfold is_entry in He; cbn in *; lia.
  - assert (∀ j jp, <[i := set_i_ref (i_ref ip + 1) ip]> T !! j = Some jp →
      ∃ jp', T !! j = Some jp' ∧ i_dev jp' = i_dev jp ∧ i_inum jp' = i_inum jp ∧ (0 < i_ref jp → 0 < i_ref jp')) as Hback.
    { intros j jp [(<- & <- & _)|[_ ?]]%list_lookup_insert_Some; [|by exists jp]. exists ip. by destruct He, ip. }
    intros j k jp kp (jp' & Hj & Ej & Ej' & Rj)%Hback (kp' & Hk & Ek & Ek' & Rk)%Hback Hjr (R & E1 & E2).
    apply (Hu j k jp' kp'); [done|done|by apply Rj|]. split_and!; [by apply Rk|congruence..].
  - intros j jp [(<- & <- & _)|[_ ?]]%list_lookup_insert_Some; [|by eapply Hr]. destruct ip; cbn; lia.
  - intros j k jp kp [(<- & <- & _)|[Hij Hj]]%list_lookup_insert_Some [(<- & <- & _)|[Hik Hk]]%list_lookup_insert_Some Hjr He.
    + done.
    + exfalso. by apply (Hno k kp); destruct ip.
    + exfalso. destruct He as (_ & E1 & E2). apply (Hno j jp Hj). destruct ip. by split_and!.
    + by eapply Hu.
Qed.

Lemma cache_itable H P V s T : cache me H P V s → cache me H P V (set_k_itable T s).
Proof. intros [[? ? ?] ? ? ?]. by split. Qed.

Lemma wp_iget dev inum s (Q : nat → kstate → Prop) :
  k_held s = [] → itable_ok (k_itable s) → (∃ j jp, k_itable s !! j = Some jp ∧ i_ref jp = 0) →
  (∀ i T', got dev inum (k_itable s) i T' → Q i (set_k_itable T' s)) →
  wp (iget dev inum) Q s.
Proof.
  intros Hh [Hl Hr _] (j & jp & Hj & Hj0) HQ. unfold iget. apply wp_bind.
  eapply wp_eq; [apply acquire_run; rewrite Hh; set_solver|]. apply wp_bind.
  apply wp_iget_scan; kcbn.
  { apply Forall_forall. intros i Hi%elem_of_seq. lia. }
  - intros i ip Hi He. unfold modi. wp_go. kcbn. eapply wp_release; [cbn; by rewrite Hh|]. wp_go. kcbn.
    replace (set_k_held [] _) with (set_k_itable (alter (λ ip, set_i_ref (i_ref ip + 1) ip) i (k_itable s)) s)
      by (rewrite <- Hh; kstate_eq).
    apply HQ. exists ip. split; [done|]. left. split; [done|]. by rewrite (list_alter_insert _ _ _ ip).
  - intros [i|] Hno He; [|exfalso; eapply (proj2 He j jp); try done; apply elem_of_seq; apply lookup_lt_Some in Hj; lia].
    destruct He as [?|(ip & Hi & H0)]; [done|]. unfold modi. wp_go. kcbn. eapply wp_release; [cbn; by rewrite Hh|]. wp_go. kcbn.
    match goal with |- Q _ (set_k_held [] ?x) =>
      replace (set_k_held [] x) with (set_k_itable (k_itable x) s) by (rewrite <- Hh; kstate_eq) end.
    kcbn. apply HQ. exists ip. split; [done|]. right. split_and!; [done| |].
    + intros k kp Hk. eapply Hno; [|done]. apply elem_of_seq. apply lookup_lt_Some in Hk. lia.
    + rewrite !list_alter_alter_eq. by rewrite (list_alter_insert _ _ _ ip).
Qed.

(** ** [dirlookup] *)

(** The entry of the directory at [off] is in use and has the name. *)
Definition names V ip (name : list Z) (off : Z) : Prop :=
  de_inum (fbytes V ip off 16) ≠ 0 ∧
  cstr (bytes_of (de_name (fbytes V ip off 16))) DIRSIZ = cstr (bytes_of name) DIRSIZ.

Lemma de_offs_lookup size k off : de_offs size !! k = Some off → off = 16 * Z.of_nat k ∧ (Z.of_nat k < (size + 15) / 16).
Proof.
  unfold de_offs, upto. rewrite !list_lookup_fmap. intros (x & Hx & ->)%fmap_Some.
  apply fmap_Some in Hx as (y & Hy & ->). apply lookup_seq in Hy. lia.
Qed.
Lemma de_offs_split size pre o post :
  de_offs size = pre ++ o :: post → ∀ o', o' ∈ de_offs size → o' < o → o' ∈ pre.
Proof.
  intros E o' [k Hk]%list_elem_of_lookup Hlt.
  assert (de_offs size !! length pre = Some o) as Ho by (rewrite E; by apply list_lookup_middle).
  apply de_offs_lookup in Ho as [-> _]. pose proof (de_offs_lookup _ _ _ Hk) as [-> _].
  rewrite E, lookup_app_l in Hk by lia. by eapply list_elem_of_lookup_2.
Qed.
Lemma de_offs_in size off : 0 ≤ size → size mod 16 = 0 → off ∈ de_offs size → 0 ≤ off ∧ off + 16 ≤ size.
Proof. intros H0 Hm [k [-> Hk]%de_offs_lookup]%list_elem_of_lookup. dlia. Qed.

(** C12: [dirlookup] finds a name: on a directory whose blocks are allocated it returns
    the first entry in use with the name (both compared up to the NUL or [DIRSIZ]
    bytes) and a reference to that entry's inode, which is in the table of inodes in
    memory still at most once; or it returns null, the table is as it was, and no entry
    has the name.  The view of the cache is unchanged. *)
Theorem dirlookup_correct H P V dp ip s name (Hca : cache me H P V s) (Hroom : roomy H P)
    (Hi : k_itable s !! dp = Some ip) (Hf : file_blocks H V ip)
    (Hty : i_type ip = T_DIR) (Hmod : i_size ip mod 16 = 0) (Hit : itable_ok (k_itable s))
    (Hfree : ∃ j jp, k_itable s !! j = Some jp ∧ i_ref jp = 0) :
  ∃ r s', sync resume (dirlookup dp name) s = Ret r s' ∧ cache me H P V s' ∧ itable_ok (k_itable s') ∧
    match r with
    | Some (i, off) =>
        off ∈ de_offs (i_size ip) ∧ names V ip name off ∧
        (∀ off', off' ∈ de_offs (i_size ip) → off' < off → ¬ names V ip name off') ∧
        got 1 (de_inum (fbytes V ip off 16)) (k_itable s) i (k_itable s')
    | None => (∀ off, off ∈ de_offs (i_size ip) → ¬ names V ip name off) ∧ k_itable s' = k_itable s
    end.
Proof.
  apply wp_run. unfold dirlookup. apply wps_bind. eapply wps_eq; [by apply geti_run|].
  rewrite Hty. change (negb (T_DIR =? T_DIR)) with false. cbv iota. destruct (fb_size _ _ _ Hf) as [Hs0 Hs1].
  change (MAXFILE * BSIZE) with 274432 in Hs1.
  apply (wps_for_list resume (λ l s', cache me H P V s' ∧ rstep s s' ∧
    ∃ pre, de_offs (i_size ip) = pre ++ l ∧ Forall (λ o, ¬ names V ip name o) pre)).
  { split_and!; [done|apply rstep_refl|]. by exists []. }
  2:{ intros s' (C & St & pre & E & Hpre). rewrite app_nil_r in E. destruct (rstep_same _ _ St) as (-> & _).
      split_and!; try done. rewrite E. by apply Forall_forall. }
  intros off l s1 (C & St & pre & E & Hpre). destruct (rstep_same _ _ St) as (Ei & _).
  assert (off ∈ de_offs (i_size ip)) as Hin by (rewrite E; set_solver).
  pose proof (de_offs_in _ _ Hs0 Hmod Hin) as [Ho0 Ho1].
  apply wps_bind, (wp_readi H P V dp ip); try done; try lia; [by rewrite Ei|]. intros s2 C2 S2.
  assert (available ip off 16 = 16) as -> by (unfold available; rewrite (proj2 (Z.leb_le _ _)) by lia; lia).
  cbn [fst snd]. change (negb (16 =? 16)) with false. cbv iota. change (Z.to_nat 16) with 16%nat.
  set (de := fbytes V ip off 16) in *. destruct (rstep_same _ _ S2) as (Ei2 & _). rewrite Ei in Ei2.
  assert (¬ names V ip name off → cache me H P V s2 ∧ rstep s s2 ∧
    ∃ pre', de_offs (i_size ip) = pre' ++ l ∧ Forall (λ o, ¬ names V ip name o) pre') as Hnext.
  { intros Hn. split_and!; [done|by eapply rstep_trans|]. exists (pre ++ [off]). rewrite <- app_assoc.
    split; [done|]. apply Forall_app. split; [done|by constructor]. }
  destruct (Z.eqb_spec (de_inum de) 0) as [E0|E0].
  { apply wps_of_wp, wp_ret, Hnext. intros [? _]. done. }
  unfold namecmp. destruct (Z.eqb_spec (strncmp (bytes_of name) (bytes_of (de_name de)) DIRSIZ) 0) as [Ec|Ec];
    rewrite strncmp_cstr in Ec.
  2:{ apply wps_of_wp, wp_ret, Hnext. intros [_ Hn]. by apply Ec. }
  apply wps_bind. eapply wps_eq; [apply geti_run; by rewrite Ei2|]. apply wps_bind, wps_of_wp.
  rewrite (fb_dev _ _ _ Hf). apply wp_iget; [apply C2|by rewrite Ei2|by rewrite Ei2|].
  rewrite Ei2. intros i T' Hgot. apply wps_of_wp, wp_ret. kcbn.
  split_and!; [by apply cache_itable|by eapply got_ok|done|by split| |done].
  intros o' Ho' Hlt. rewrite Forall_forall in Hpre. apply Hpre. by eapply de_offs_split.
Qed.
End inode.

(** ** Instance *)

(** A root directory in block 50 with the entries [.], [..] and [init]. *)
Definition dirent (inum : Z) (name : list Z) : list Z :=
  [inum; 0] ++ name ++ replicate (DIRSIZ - length name) 0.
Definition init_name : list Z := [105; 110; 105; 116].
Definition root_block : list Z := dirent 1 [46] ++ dirent 1 [46; 46] ++ dirent 7 init_name ++ replicate 976 0.
Definition root_ip : inode := mkInode 1 1 1 sleeplock0 true T_DIR 0 0 1 48 (50 :: replicate 12 0).
Definition root_disk : gmap Z (list Z) := {[50 := root_block]}.
Definition kstate_root : kstate :=
  set_k_disk root_disk (set_k_itable (root_ip :: replicate 49 inode0) kstate_cache).

Lemma cache_root : cache 2 ∅ (λ _, 0) (block_data root_disk) kstate_root.
Proof.
  apply (cache_init (F := fuel1) 2 buf0 kstate_root); try done.
  - destruct running_disk as [H1 H2 H3]. by split.
  - intros bn. change (k_disk kstate_root) with root_disk. unfold block_data.
    destruct (root_disk !! bn) as [x|] eqn:E; [|done].
    unfold root_disk in E. apply lookup_singleton_Some in E as [_ <-]. done.
Qed.
Lemma root_roomy : roomy ∅ (λ _, 0).
Proof. exists []. split; [|unfold NBUF, MAXOPBLOCKS; cbn; lia]. by intros x [[? ?]|?]. Qed.
Lemma root_blocks : file_blocks ∅ (block_data root_disk) root_ip.
Proof.
  split; cbn [i_dev i_size root_ip]; [done|split; by vm_compute| |];
    unfold BSIZE, NDIRECT; intros bn H0 H1; [|lia].
  assert (bn = 0) as -> by lia. by split.
Qed.
Lemma root_itable : itable_ok (k_itable kstate_root).
Proof.
  assert (∀ i ip, k_itable kstate_root !! i = Some ip → i = 0%nat ∧ i_ref ip = 1 ∨ i_ref ip = 0) as Hr.
  { intros [|i] ip; cbn [k_itable kstate_root set_k_disk set_k_itable lookup list_lookup].
    - intros [= <-]. by left.
    - intros [-> _]%lookup_replicate. by right. }
  split; [done| |].
  - intros i ip [[_ ?]| ?]%Hr; lia.
  - intros i j ip jp [[-> ?]| ?]%Hr [[-> ?]| ?]%Hr Hpos [Hpos' _]; [done|lia..].
Qed.

Lemma dirlookup_correct_witness :
  ∃ i s', sync resume (dirlookup (L := layout_small) (F := fuel1) 0 init_name) kstate_root = Ret (Some (i, 32)) s' ∧
    got 1 7 (k_itable kstate_root) i (k_itable s').
Proof.
  destruct (dirlookup_correct (L := layout_small) (F := fuel1) 2 ∅ _ _ 0 root_ip kstate_root init_name
    cache_root root_roomy eq_refl root_blocks eq_refl eq_refl root_itable) as ([[i off]|] & s' & E & _ & _ & H).
  - exists 1%nat, inode0. done.
  - destruct H as (Hin & Hn & _ & Hgot). change (de_offs (i_size root_ip)) with [0; 16; 32] in Hin.
    assert (off = 32) as ->.
    { rewrite !elem_of_cons, elem_of_nil in Hin. destruct Hin as [->|[->|[->|[]]]]; [| |done];
        destruct Hn as [_ Hn]; vm_compute in Hn; discriminate. }
    assert (de_inum (fbytes (block_data root_disk) root_ip 32 16) = 7) as E7 by (vm_compute; reflexivity).
    rewrite E7 in Hgot. exists i, s'. split; [exact E|exact Hgot].
  - assert (32 ∈ de_offs (i_size root_ip)) as Hin
      by (change (de_offs (i_size root_ip)) with [0; 16; 32]; by right; right; left).
    destruct (proj1 H 32 Hin). split; [by vm_compute|]. vm_compute. reflexivity.
Defined.
