(* ===== verification/FileWrite.v ===== *)
(** * Writing files

    [bmap] with allocation and [writei] (fs.c) inside a transaction: a file as the blocks
    it owns in the array of blocks that the transaction shows, what a write does to the
    bytes of the file, that it leaves other files alone, and how many blocks it logs. *)
From Stdlib Require Import ZArith Lia.
From stdpp Require Import base list gmap numbers strings.
From S2P Require Import Prelude Machine KString Bytes State Printk Kalloc Sched Vm Virtio DiskIo Bio Lru Cache Log Crash Fs Blocks Inode.
Local Open Scope Z_scope.
Local Open Scope kernel_scope.

Section write.
Context {L : Layout} {F : Fuel} (me : nat) (st : Z) (sb : superblock) (nmeta : Z) (Hlay : layout_ok st sb nmeta).
Implicit Types (H : gmap Z nat) (V : Z → list Z) (bl : list Z) (s : kstate) (ip : inode).

(** ** The blocks of a file *)

(** Block [k] of the file, 0 for none; [MAXFILE] stands for the indirect block. *)
Definition indirect ip : Z := nth 12 (i_addrs ip) 0.
Definition own V ip (k : Z) : Z :=
  if k <? NDIRECT then nth (Z.to_nat k) (i_addrs ip) 0
  else if k =? MAXFILE then indirect ip
  else if indirect ip =? 0 then 0 else ldl 4 (V (indirect ip)) (Z.to_nat (4 * (k - NDIRECT))).
(** A byte of the file; there are zeroes where it has no block. *)
Definition content V ip (o : Z) : Z :=
  if own V ip (o / BSIZE) =? 0 then 0 else nth (Z.to_nat (o mod BSIZE)) (V (own V ip (o / BSIZE))) 0.

(** The blocks of a file are its own, they are used, and there is one for every byte. *)
Record file_ok V ip : Prop := {
  fo_dev : i_dev ip = 1;
  fo_len : length (i_addrs ip) = 13%nat;
  fo_size : 0 ≤ i_size ip ≤ MAXFILE * BSIZE;
  fo_used : ∀ k, 0 ≤ k ≤ MAXFILE → own V ip k ≠ 0 →
    nmeta ≤ own V ip k < sb_size sb ∧ used sb V (own V ip k) = true;
  fo_inj : ∀ j k, 0 ≤ j ≤ MAXFILE → 0 ≤ k ≤ MAXFILE → own V ip j ≠ 0 → own V ip j = own V ip k → j = k;
  fo_alloc : ∀ k, 0 ≤ k → k * BSIZE < i_size ip → own V ip k ≠ 0;
}.

(** What [bmap] and [writei] may do to a file and to the blocks around it. *)
Record grows V ip V' ip' : Prop := {
  gr_ok : file_ok V' ip';
  gr_ip : ∃ a, ip' = set_i_addrs a ip;
  gr_keep : ∀ k, 0 ≤ k ≤ MAXFILE → own V ip k ≠ 0 → own V' ip' k = own V ip k;
  gr_new : ∀ k, 0 ≤ k ≤ MAXFILE → own V ip k = 0 → own V' ip' k ≠ 0 → used sb V (own V' ip' k) = false;
  gr_used : ∀ c, 0 ≤ c < sb_size sb →
    used sb V' c = true ↔ used sb V c = true ∨ ∃ k, 0 ≤ k ≤ MAXFILE ∧ own V' ip' k = c ∧ c ≠ 0;
  gr_data : ∀ c, nmeta ≤ c < sb_size sb → used sb V c = true → (∀ k, 0 ≤ k ≤ MAXFILE → own V ip k ≠ c) → V' c = V c;
  gr_meta : ∀ c, c < nmeta → (∀ b, 0 ≤ b < sb_size sb → c ≠ BBLOCK b sb) → V' c = V c;
}.

Lemma grows_refl V ip : file_ok V ip → grows V ip V ip.
Proof.
  intros Hf. split; try done.
  - exists (i_addrs ip). by destruct ip.
  - intros c Hc. split; [by left|]. intros [?|(k & Hk & <- & H0)]; [done|]. by apply (fo_used _ _ Hf).
Qed.
Lemma grows_trans V ip V1 ip1 V2 ip2 : grows V ip V1 ip1 → grows V1 ip1 V2 ip2 → grows V ip V2 ip2.
Proof.
  intros G1 G2. split.
  - apply G2.
  - destruct (gr_ip _ _ _ _ G1) as [a ->], (gr_ip _ _ _ _ G2) as [a' ->]. by exists a'.
  - intros k Hk H0. pose proof (gr_keep _ _ _ _ G1 k Hk H0) as E1. rewrite <- E1.
    apply (gr_keep _ _ _ _ G2 k Hk). by rewrite E1.
  - intros k Hk H0 H2. destruct (decide (own V1 ip1 k = 0)) as [E|E].
    + pose proof (gr_new _ _ _ _ G2 k Hk E H2) as Hu. pose proof (fo_used _ _ (gr_ok _ _ _ _ G2) k Hk H2) as [? _].
      destruct (used sb V (own V2 ip2 k)) eqn:Eu; [|done]. destruct (lo_size _ _ _ Hlay).
      assert (used sb V1 (own V2 ip2 k) = true) by (apply (gr_used _ _ _ _ G1); [lia|by left]). congruence.
    + rewrite (gr_keep _ _ _ _ G2 k Hk E). by apply (gr_new _ _ _ _ G1).
  - intros c Hc. rewrite (gr_used _ _ _ _ G2 c Hc), (gr_used _ _ _ _ G1 c Hc). split.
    + intros [[?|(k & Hk & <- & H0)]|?]; [by left| |by right]. right. exists k. split; [done|]. split; [|done].
      by apply (gr_keep _ _ _ _ G2).
    + intros [?|?]; [by left; left|by right].
  - intros c Hc Hu Hno. rewrite (gr_data _ _ _ _ G2), (gr_data _ _ _ _ G1); try done.
    + destruct (lo_size _ _ _ Hlay). apply (gr_used _ _ _ _ G1); [lia|by left].
    + intros k Hk E. destruct (decide (own V ip k = 0)) as [E0|E0].
      * destruct (lo_size _ _ _ Hlay). pose proof (gr_new _ _ _ _ G1 k Hk E0) as Hnew. rewrite E in Hnew.
        rewrite Hnew in Hu by lia. done.
      * apply (Hno k Hk). by rewrite <- (gr_keep _ _ _ _ G1 k Hk E0).
  - intros c Hc Hb. by rewrite (gr_meta _ _ _ _ G2), (gr_meta _ _ _ _ G1).
Qed.

(** ** A new block *)

(** Block [b] was free and is now block [k] of the file. *)
Record gains V ip (k b : Z) V' ip' : Prop := {
  ga_ip : ∃ a, ip' = set_i_addrs a ip;
  ga_len : length (i_addrs ip') = 13%nat;
  ga_none : own V ip k = 0;
  ga_own : ∀ j, 0 ≤ j ≤ MAXFILE → own V' ip' j = if decide (j = k) then b else own V ip j;
  ga_range : nmeta ≤ b < sb_size sb;
  ga_free : used sb V b = false;
  ga_zero : V' b = replicate 1024 0;
  ga_used : ∀ c, 0 ≤ c < sb_size sb → used sb V' c = if decide (c = b) then true else used sb V c;
  ga_data : ∀ c, nmeta ≤ c → c ≠ b → c ≠ indirect ip → V' c = V c;
  ga_meta : ∀ c, c < nmeta → (∀ b, 0 ≤ b < sb_size sb → c ≠ BBLOCK b sb) → V' c = V c;
}.

Lemma own_indirect V ip : own V ip MAXFILE = indirect ip.
Proof. done. Qed.

Lemma gains_ok V ip k b V' ip' : 0 ≤ k ≤ MAXFILE → file_ok V ip → gains V ip k b V' ip' → file_ok V' ip'.
Proof.
  intros Hk [Hd Hl Hs Hu Hi Ha] G. destruct (lo_size _ _ _ Hlay) as [Hm _].
  destruct (ga_ip _ _ _ _ _ _ G) as [a Ea]. pose proof (ga_range _ _ _ _ _ _ G) as Hb.
  pose proof (ga_free _ _ _ _ _ _ G) as Hfree. pose proof (ga_own _ _ _ _ _ _ G) as Ho.
  split.
  - by rewrite Ea.
  - apply G.
  - by rewrite Ea.
  - intros j Hj. rewrite Ho by done. case_decide as Ej.
    + intros _. split; [done|]. rewrite (ga_used _ _ _ _ _ _ G) by lia. by rewrite decide_True.
    + intros H0. destruct (Hu j Hj H0) as [Hr Hu']. split; [done|]. rewrite (ga_used _ _ _ _ _ _ G) by lia. by case_decide.
  - intros j j' Hj Hj'. rewrite !Ho by done. repeat case_decide; subst; try done.
    + intros _ E. destruct (Hu j' Hj') as [_ Hc]; [lia|]. congruence.
    + intros H0 E. destruct (Hu j Hj) as [_ Hc]; [done|]. congruence.
    + by apply Hi.
  - intros j Hj. rewrite Ea. cbn [i_size set_i_addrs]. intros Hjs.
    assert (0 ≤ j ≤ MAXFILE) as Hj2 by (change (MAXFILE * BSIZE) with 274432 in Hs; change MAXFILE with 268; unfold BSIZE in Hjs; lia).
    rewrite <- Ea, Ho by done. case_decide; [lia|]. by apply Ha.
Qed.

Lemma gains_grows V ip k b V' ip' : 0 ≤ k ≤ MAXFILE → file_ok V ip → gains V ip k b V' ip' → grows V ip V' ip'.
Proof.
  intros Hk Hf G. destruct (lo_size _ _ _ Hlay) as [Hm _]. pose proof (ga_range _ _ _ _ _ _ G) as Hb.
  pose proof (ga_own _ _ _ _ _ _ G) as Ho. pose proof (ga_none _ _ _ _ _ _ G) as Hn. split.
  - by eapply gains_ok.
  - apply G.
  - intros j Hj H0. rewrite Ho by done. case_decide; [congruence|done].
  - intros j Hj H0. rewrite Ho by done. case_decide; [|done]. intros _. apply G.
  - intros c Hc. rewrite (ga_used _ _ _ _ _ _ G) by done. case_decide as E.
    + subst. split; [|done]. intros _. right. exists k. split; [done|]. rewrite Ho, decide_True by done. lia.
    + split; [by left|]. intros [?|(j & Hj & Ej & H0)]; [done|]. rewrite Ho in Ej by done. case_decide; [congruence|].
      subst c. by apply (fo_used _ _ Hf).
  - intros c Hc Hu Hno. apply (ga_data _ _ _ _ _ _ G); [lia| |].
    + intros ->. rewrite (ga_free _ _ _ _ _ _ G) in Hu. done.
    + intros ->. apply (Hno MAXFILE); [|done]. change MAXFILE with 268. lia.
  - apply G.
Qed.

(** A new block holds zeroes, so the contents are unchanged. *)
Lemma gains_content V ip k b V' ip' o :
  0 ≤ k ≤ MAXFILE → file_ok V ip → gains V ip k b V' ip' → 0 ≤ o < MAXFILE * BSIZE → content V' ip' o = content V ip o.
Proof.
  intros Hk Hf G Ho. change (MAXFILE * BSIZE) with 274432 in Ho. destruct (lo_size _ _ _ Hlay) as [Hm _].
  assert (0 ≤ o / BSIZE ≤ MAXFILE ∧ o / BSIZE ≠ MAXFILE) as [Hj Hj'] by (change MAXFILE with 268; unfold BSIZE; dlia).
  pose proof (ga_range _ _ _ _ _ _ G). unfold content. rewrite (ga_own _ _ _ _ _ _ G) by done. case_decide as E.
  - subst k. rewrite (ga_none _ _ _ _ _ _ G), (ga_zero _ _ _ _ _ _ G). cbn [Z.eqb]. rewrite (proj2 (Z.eqb_neq b 0)) by lia.
    rewrite nth_lookup. destruct (replicate 1024 0 !! _) as [x|] eqn:Ex; [|done]. by apply lookup_replicate in Ex as [-> _].
  - destruct (Z.eqb_spec (own V ip (o / BSIZE)) 0) as [|E0]; [done|]. destruct (fo_used _ _ Hf _ Hj E0) as [Hr Hu].
    rewrite (ga_data _ _ _ _ _ _ G); [done|lia| |].
    + intros Eb. rewrite Eb, (ga_free _ _ _ _ _ _ G) in Hu. done.
    + intros Ei. rewrite <- (own_indirect V) in Ei. apply (fo_inj _ _ Hf) in Ei; [done..|]. change MAXFILE with 268. lia.
Qed.

Section new.
Context V (b : Z) (Hlen : ∀ c, length (V c) = 1024%nat) (Hb : nmeta ≤ b < sb_size sb) (Hfree : used sb V b = false).

Lemma allocated_used c : 0 ≤ c < sb_size sb → used sb (allocated sb V b) c = if decide (c = b) then true else used sb V c.
Proof.
  intros Hc. destruct (lo_size _ _ _ Hlay). unfold allocated. rewrite (used_block st sb nmeta Hlay) by lia.
  apply (used_mark st sb nmeta Hlay); [lia|done|apply Hlen].
Qed.
Lemma allocated_data c : nmeta ≤ c → c ≠ b → allocated sb V b c = V c.
Proof.
  intros Hc Hcb. destruct (lo_size _ _ _ Hlay). unfold allocated, mark. rewrite put_ne by done.
  destruct (BBLOCK_range st sb nmeta Hlay b) as [? _]; [lia|]. by rewrite put_ne by lia.
Qed.
Lemma allocated_meta c : c < nmeta → (∀ b, 0 ≤ b < sb_size sb → c ≠ BBLOCK b sb) → allocated sb V b c = V c.
Proof.
  intros Hc Hno. destruct (lo_size _ _ _ Hlay). unfold allocated, mark. rewrite put_ne by lia. rewrite put_ne; [done|].
  apply Hno. lia.
Qed.

Lemma gains_direct ip k :
  file_ok V ip → 0 ≤ k < NDIRECT → own V ip k = 0 →
  gains V ip k b (allocated sb V b) (set_i_addrs (<[Z.to_nat k := b]> (i_addrs ip)) ip).
Proof.
  intros Hf Hk Hn. unfold NDIRECT in *. pose proof (fo_len _ _ Hf) as Hl.
  assert (indirect (set_i_addrs (<[Z.to_nat k := b]> (i_addrs ip)) ip) = indirect ip) as Ei.
  { unfold indirect. cbn [i_addrs set_i_addrs]. by rewrite !nth_lookup, list_lookup_insert_ne by lia. }
  split; try done.
  - by eexists.
  - cbn. by rewrite length_insert.
  - intros j Hj. unfold own, NDIRECT. rewrite Ei. cbn [i_addrs set_i_addrs]. destruct (Z.ltb_spec j 12).
    + rewrite !nth_lookup. case_decide as E; [subst; by rewrite list_lookup_insert_eq by lia|].
      by rewrite list_lookup_insert_ne by lia.
    + rewrite decide_False by lia. destruct (j =? MAXFILE); [done|]. destruct (Z.eqb_spec (indirect ip) 0) as [|E0]; [done|].
      destruct (fo_used _ _ Hf MAXFILE) as [Hr Hu]; [by vm_compute|done|]. rewrite own_indirect in Hr, Hu.
      rewrite allocated_data; [done|lia|]. intros E. rewrite E, Hfree in Hu. done.
  - unfold allocated. by rewrite put_eq.
  - apply allocated_used.
  - intros c Hc Hcb _. by apply allocated_data.
  - apply allocated_meta.
Qed.

Lemma ldl_zero n m off : ldl n (replicate m 0) off = 0.
Proof.
  unfold ldl, slice. rewrite drop_replicate, take_replicate. generalize (n `min` (m - off))%nat. intros k.
  induction k as [|k IH]; cbn; lia.
Qed.
Lemma gains_indirect ip :
  file_ok V ip → indirect ip = 0 →
  gains V ip MAXFILE b (allocated sb V b) (set_i_addrs (<[12%nat := b]> (i_addrs ip)) ip).
Proof.
  intros Hf Hn. pose proof (fo_len _ _ Hf) as Hl. destruct (lo_size _ _ _ Hlay).
  assert (indirect (set_i_addrs (<[12%nat := b]> (i_addrs ip)) ip) = b) as Ei.
  { unfold indirect. cbn [i_addrs set_i_addrs]. by rewrite !nth_lookup, list_lookup_insert_eq by lia. }
  split; try done.
  - by eexists.
  - cbn. by rewrite length_insert.
  - intros j Hj. unfold own, NDIRECT. rewrite Ei, Hn. cbn [i_addrs set_i_addrs]. destruct (Z.ltb_spec j 12).
    + rewrite decide_False by (change MAXFILE with 268; lia). by rewrite !nth_lookup, list_lookup_insert_ne by lia.
    + destruct (Z.eqb_spec j MAXFILE) as [->|E]; [by rewrite decide_True|]. rewrite decide_False by done.
      rewrite (proj2 (Z.eqb_neq b 0)) by lia. unfold allocated. rewrite put_eq. apply ldl_zero.
  - unfold allocated. by rewrite put_eq.
  - apply allocated_used.
  - intros c Hc Hcb _. by apply allocated_data.
  - apply allocated_meta.
Qed.

Definition entry_set V (ind k b : Z) : Z → list Z := put V ind (stl 4 (V ind) (Z.to_nat (4 * (k - NDIRECT))) b).
Lemma gains_entry ip k :
  file_ok V ip → NDIRECT ≤ k < MAXFILE → indirect ip ≠ 0 → own V ip k = 0 →
  gains V ip k b (entry_set (allocated sb V b) (indirect ip) k b) ip.
Proof.
  intros Hf Hk Hi Hn. destruct (lo_size _ _ _ Hlay). unfold NDIRECT in Hk. change MAXFILE with 268 in Hk.
  destruct (fo_used _ _ Hf MAXFILE) as [Hr Hu]; [by vm_compute|done|]. rewrite own_indirect in Hr, Hu.
  assert (indirect ip ≠ b) as Hib by (intros E; rewrite E, Hfree in Hu; done).
  assert (allocated sb V b (indirect ip) = V (indirect ip)) as Ea by (apply allocated_data; [lia|done]).
  unfold entry_set. rewrite Ea. split; try done.
  - exists (i_addrs ip). by destruct ip.
  - apply Hf.
  - intros j Hj. unfold own. change MAXFILE with 268 in *. unfold NDIRECT. destruct (Z.ltb_spec j 12); [by rewrite decide_False by lia|].
    destruct (Z.eqb_spec j 268); [by rewrite decide_False by lia|]. rewrite (proj2 (Z.eqb_neq (indirect ip) 0)) by done.
    rewrite put_eq. case_decide as E.
    + subst j. rewrite ldl_stl by (rewrite Hlen; lia). apply Z.mod_small. change (256 ^ Z.of_nat 4) with (2 ^ 32). lia.
    + rewrite ldl_stl_ne by (rewrite ?Hlen; lia). done.
  - rewrite put_ne by done. unfold allocated. by rewrite put_eq.
  - intros c Hc. rewrite (used_block st sb nmeta Hlay) by lia. by apply allocated_used.
  - intros c Hc Hcb Hci. rewrite put_ne by done. by apply allocated_data.
  - intros c Hc Hno. rewrite put_ne by lia. by apply allocated_meta.
Qed.
End new.

(** ** [bmap] *)

(** Between calls of a transaction: inode [i] of the table is the file, no buffer is held. *)
Record fstate (i : nat) bl V ip s : Prop := {
  fs_txn : txn me st ∅ V bl s;
  fs_sb : k_sb s = sb;
  fs_meta : ∀ b, 0 ≤ b < nmeta → used sb V b = true;
  fs_inode : k_itable s !! i = Some ip;
  fs_file : file_ok V ip;
}.
Lemma fstate_len i bl V ip s : fstate i bl V ip s → ∀ c, length (V c) = 1024%nat.
Proof. intros Hf c. eapply cache_vlen, tx_cache, Hf. Qed.
(** Nothing changes but the cache, the log and inode [i]. *)
Definition fstep (i : nat) s s' : Prop :=
  ∃ T, tstep me (set_k_itable T s) s' ∧ ∀ j, j ≠ i → T !! j = k_itable s !! j.

Lemma set_itable_same s : set_k_itable (k_itable s) s = s.
Proof. kstate_eq. Qed.
Lemma tstep_itable T s s' : tstep me s s' → tstep me (set_k_itable T s) (set_k_itable T s').
Proof.
  intros [(B & d & w & v & l & lg & out & u & E & Hq) H1 H2 H3]. split; [|exact H1|exact H2|exact H3].
  exists B, d, w, v, l, lg, out, u. split; [rewrite E; unfold bio; kstate_eq|exact Hq].
Qed.
Lemma tstep_fstep i s s' : tstep me s s' → fstep i s s'.
Proof. intros Ht. exists (k_itable s). split; [by rewrite set_itable_same|done]. Qed.
Lemma fstep_itable s s' T : tstep me (set_k_itable T s) s' → k_itable s' = T.
Proof. intros Ht. by destruct (lstep_same _ _ _ (ts_lstep _ _ _ Ht)) as (_ & _ & -> & _). Qed.
Lemma fstep_trans i s1 s2 s3 : fstep i s1 s2 → fstep i s2 s3 → fstep i s1 s3.
Proof.
  intros (T & Ht & HT) (T' & Ht' & HT'). pose proof (fstep_itable _ _ _ Ht) as E. exists T'. split.
  - eapply tstep_trans; [|exact Ht']. apply (tstep_itable T') in Ht.
    replace (set_k_itable T' s1) with (set_k_itable T' (set_k_itable T s1)) by kstate_eq. done.
  - intros j Hj. by rewrite HT', E, HT.
Qed.
Lemma fstep_modi i f s : fstep i s (set_k_itable (alter f i (k_itable s)) s).
Proof.
  eexists. split; [apply tstep_refl|]. intros j Hj. by rewrite list_lookup_alter_ne by done.
Qed.
Lemma txn_itable H V bl s T : txn me st H V bl s → txn me st H V bl (set_k_itable T s).
Proof. intros [Hc ? ? ? ?]. split; try done. by apply cache_itable. Qed.
Lemma tstep_sb s s' : tstep me s s' → k_sb s' = k_sb s ∧ k_itable s' = k_itable s.
Proof. intros Ht. by destruct (lstep_same _ _ _ (ts_lstep _ _ _ Ht)) as (? & _ & ? & _). Qed.

(** What the indirect block may still add to the log. *)
Definition pot bl ip : nat :=
  if decide (indirect ip = 0) then 2 else if decide (indirect ip ∈ bl) then 0 else 1.

(** From one state of the file to another, logging at most [d] blocks beside the
    indirect block. *)
Record mapped (i : nat) (d : nat) bl V ip s bl' V' ip' s' : Prop := {
  mp_state : fstate i bl' V' ip' s';
  mp_step : fstep i s s';
  mp_grows : grows V ip V' ip';
  mp_content : ∀ o, 0 ≤ o < MAXFILE * BSIZE → content V' ip' o = content V ip o;
  mp_cost : (length bl' + pot bl' ip' ≤ length bl + pot bl ip + d)%nat;
}.
Lemma mapped_trans i d1 d2 bl V ip s bl1 V1 ip1 s1 bl2 V2 ip2 s2 :
  mapped i d1 bl V ip s bl1 V1 ip1 s1 → mapped i d2 bl1 V1 ip1 s1 bl2 V2 ip2 s2 →
  mapped i (d1 + d2) bl V ip s bl2 V2 ip2 s2.
Proof.
  intros M1 M2. split.
  - apply M2.
  - eapply fstep_trans; [apply M1|apply M2].
  - eapply grows_trans; [apply M1|apply M2].
  - intros o Ho. by rewrite (mp_content _ _ _ _ _ _ _ _ _ _ M2), (mp_content _ _ _ _ _ _ _ _ _ _ M1).
  - pose proof (mp_cost _ _ _ _ _ _ _ _ _ _ M1). pose proof (mp_cost _ _ _ _ _ _ _ _ _ _ M2). lia.
Qed.
Lemma mapped_refl i bl V ip s s' : fstate i bl V ip s → tstep me s s' → fstate i bl V ip s' → mapped i 0 bl V ip s bl V ip s'.
Proof. intros Hf Ht Hf'. split; [done|by apply tstep_fstep|apply grows_refl, Hf|done|lia]. Qed.

Lemma alloc_ok_file i bl V ip s s' :
  fstate i bl V ip s → tstep me s s' → alloc_ok sb nmeta ∅ V s'.
Proof.
  intros Hf Ht. destruct (tstep_sb _ _ Ht) as [Es _]. split; [by rewrite Es, (fs_sb _ _ _ _ _ Hf)|apply Hf|].
  intros b [j Hj]. done.
Qed.
(** A new block is logged, and the bitmap. *)
Lemma gains_mapped i bl V ip s k b d bl' V' ip' s' :
  fstate i bl V ip s → 0 ≤ k ≤ MAXFILE → gains V ip k b V' ip' → txn me st ∅ V' bl' s' → fstep i s s' →
  k_itable s' !! i = Some ip' → (length bl' + pot bl' ip' ≤ length bl + pot bl ip + d)%nat →
  mapped i d bl V ip s bl' V' ip' s'.
Proof.
  intros Hf Hk G T Ht Hi Hc. destruct (lo_size _ _ _ Hlay). split; [split| | | |]; try done.
  - destruct Ht as (T' & Ht & _). apply tstep_sb in Ht as [-> _]. apply Hf.
  - intros c Hc'. rewrite (ga_used _ _ _ _ _ _ G) by lia. case_decide; [done|]. by apply Hf.
  - eapply gains_ok; [exact Hk|apply Hf|done].
  - eapply gains_grows; [exact Hk|apply Hf|done].
  - intros o Ho. eapply gains_content; [exact Hk|apply Hf|done..].
Qed.
Lemma alloc_log_len bl b : (length (alloc_log sb bl b) ≤ length bl + 2)%nat.
Proof. unfold alloc_log. pose proof (absorb_len (absorb bl (BBLOCK b sb)) b). pose proof (absorb_len bl (BBLOCK b sb)). lia. Qed.
Lemma alloc_log_in bl b : b ∈ alloc_log sb bl b.
Proof. apply absorb_in. Qed.
Lemma pot_mono bl bl' ip : bl ⊆ bl' → (pot bl' ip ≤ pot bl ip)%nat.
Proof. intros Hs. unfold pot. repeat case_decide; try lia. set_solver. Qed.
Lemma alloc_log_mono bl b : bl ⊆ alloc_log sb bl b.
Proof. intros x Hx. by apply absorb_mono, absorb_mono. Qed.

Definition cost1 V ip (bn : Z) : nat := if decide (own V ip bn = 0) then 2 else 0.

(** [balloc] for a file: a new block, or none is left. *)
Lemma wpt_balloc_file i bl V ip s (Q : Z → kstate → Prop) :
  fstate i bl V ip s → (length bl + 2 ≤ NBUF)%nat →
  (∀ b s', nmeta ≤ b < sb_size sb → used sb V b = false → txn me st ∅ (allocated sb V b) (alloc_log sb bl b) s' →
     tstep me s s' → Q b s') →
  (∀ s', (∀ b, 0 ≤ b < sb_size sb → used sb V b = true) → fstate i bl V ip s' → tstep me s s' → Q 0 s') →
  wp (sync resume (balloc 1)) Q s.
Proof.
  intros Hf Hl Hsome Hnone. apply (wpt_balloc me st sb nmeta Hlay ∅ V bl s); [apply Hf| | | |].
  - by eapply alloc_ok_file, tstep_refl.
  - unfold fits. by rewrite map_size_empty.
  - intros b s' Hb Hu _ T S. by apply Hsome.
  - intros Hall s' T S. apply Hnone; [done| |done]. destruct (tstep_sb _ _ S) as [E1 E2]. destruct Hf. split; try done; congruence.
Qed.

Lemma wpt_bmap_direct i bl V ip s bn (Q : Z → kstate → Prop) :
  fstate i bl V ip s → 0 ≤ bn < NDIRECT → own V ip bn = 0 → (length bl + 2 ≤ NBUF)%nat →
  (∀ bl' V' ip' s', mapped i 2 bl V ip s bl' V' ip' s' → own V' ip' bn ≠ 0 → own V' ip' bn ∈ bl' → Q (own V' ip' bn) s') →
  (∀ bl' V' ip' s', mapped i 2 bl V ip s bl' V' ip' s' → (∀ b, 0 ≤ b < sb_size sb → used sb V' b = true) → Q 0 s') →
  wp (sync resume (addr ← balloc 1; if addr =? 0 then ret 0 else
      modi i (λ ip, set_i_addrs (<[Z.to_nat bn := addr]> (i_addrs ip)) ip) ;; ret addr)) Q s.
Proof.
  intros Hf Hbn H0 Hl Hsome Hnone. destruct (lo_size _ _ _ Hlay). apply wps_bind, (wpt_balloc_file i bl V ip s); [done|done| |].
  - intros b s' Hb Hu T S. rewrite (proj2 (Z.eqb_neq b 0)) by lia. unfold modi. wp_go.
    assert (0 ≤ bn ≤ MAXFILE) as Hbn' by (unfold NDIRECT in Hbn; change MAXFILE with 268; lia).
    set (ip' := set_i_addrs (<[Z.to_nat bn := b]> (i_addrs ip)) ip).
    assert (gains V ip bn b (allocated sb V b) ip') as G.
    { apply gains_direct; try done; [by eapply fstate_len|apply Hf]. }
    assert (own (allocated sb V b) ip' bn = b) as Eo by (rewrite (ga_own _ _ _ _ _ _ G) by done; by rewrite decide_True).
    pose proof (Hsome (alloc_log sb bl b) (allocated sb V b) ip') as Hs. rewrite Eo in Hs.
    apply Hs; [|lia|apply alloc_log_in].
    eapply (gains_mapped i bl V ip s bn b); try done.
    + by apply txn_itable.
    + eapply fstep_trans; [by apply tstep_fstep|]. apply fstep_modi.
    + kcbn. destruct (tstep_sb _ _ S) as [_ ->]. rewrite list_lookup_alter_eq, (fs_inode _ _ _ _ _ Hf). done.
    + pose proof (alloc_log_len bl b). assert (pot (alloc_log sb bl b) ip' ≤ pot bl ip)%nat; [|lia].
      assert (pot (alloc_log sb bl b) ip' = pot (alloc_log sb bl b) ip) as ->; [|apply pot_mono, alloc_log_mono].
      unfold pot. rewrite <- !(own_indirect (allocated sb V b)), (ga_own _ _ _ _ _ _ G) by (by vm_compute).
      rewrite !(decide_False (P := MAXFILE = bn)) by (unfold NDIRECT in Hbn; change MAXFILE with 268; lia). done.
  - intros s' Hall Hf' S. cbn [Z.eqb]. apply wps_of_wp, wp_ret, (Hnone bl V ip); [|done].
    pose proof (mapped_refl i bl V ip s s' Hf S Hf') as []. split; try done. lia.
Qed.

Lemma wpt_bmap_ind i bl V ip s (Q : Z → kstate → Prop) :
  fstate i bl V ip s → (length bl + pot bl ip ≤ NBUF)%nat →
  (∀ bl' V' ip' s', mapped i 0 bl V ip s bl' V' ip' s' → indirect ip' ≠ 0 →
     (∀ k, 0 ≤ k < MAXFILE → own V' ip' k = own V ip k) → Q (indirect ip') s') →
  (∀ bl' V' ip' s', mapped i 0 bl V ip s bl' V' ip' s' → indirect ip = 0 →
     (∀ b, 0 ≤ b < sb_size sb → used sb V' b = true) → Q 0 s') →
  wp (sync resume (if indirect ip =? 0 then
      addr ← balloc 1;
      whenM (negb (addr =? 0)) (modi i (λ ip, set_i_addrs (<[Z.to_nat NDIRECT := addr]> (i_addrs ip)) ip)) ;;
      ret addr
    else ret (indirect ip))) Q s.
Proof.
  intros Hf Hl Hsome Hnone. destruct (lo_size _ _ _ Hlay). unfold pot in Hl.
  destruct (Z.eqb_spec (indirect ip) 0) as [E0|E0].
  2:{ apply wps_of_wp, wp_ret, (Hsome bl V ip); [|done|done]. by apply mapped_refl; [|apply tstep_refl|]. }
  rewrite decide_True in Hl by done. apply wps_bind, (wpt_balloc_file i bl V ip s); [done|done| |].
  - intros b s' Hb Hu T S. rewrite (proj2 (Z.eqb_neq b 0)) by lia. cbn [negb]. unfold modi. wp_go.
    change (Z.to_nat NDIRECT) with 12%nat. set (ip' := set_i_addrs (<[12%nat := b]> (i_addrs ip)) ip).
    assert (gains V ip MAXFILE b (allocated sb V b) ip') as G.
    { apply gains_indirect; try done; [by eapply fstate_len|apply Hf]. }
    assert (indirect ip' = b) as Eo.
    { rewrite <- (own_indirect (allocated sb V b)), (ga_own _ _ _ _ _ _ G) by (by vm_compute). by rewrite decide_True. }
    pose proof (Hsome (alloc_log sb bl b) (allocated sb V b) ip') as Hs. rewrite Eo in Hs. apply Hs; [|lia|].
    + eapply (gains_mapped i bl V ip s MAXFILE b); try done.
      * by apply txn_itable.
      * eapply fstep_trans; [by apply tstep_fstep|]. apply fstep_modi.
      * kcbn. destruct (tstep_sb _ _ S) as [_ ->]. rewrite list_lookup_alter_eq, (fs_inode _ _ _ _ _ Hf). done.
      * pose proof (alloc_log_len bl b). unfold pot. rewrite Eo, E0, (decide_False (P := b = 0)) by lia.
        rewrite (decide_True (P := b ∈ _)) by apply alloc_log_in. rewrite decide_True by done. lia.
    + intros k Hk. rewrite (ga_own _ _ _ _ _ _ G), decide_False by lia. done.
  - intros s' Hall Hf' S. cbn [Z.eqb negb]. wp_go. apply (Hnone bl V ip); [|done|done]. by apply mapped_refl.
Qed.

Lemma wpt_bmap_entry i bl V ip s bn (Q : Z → kstate → Prop) :
  fstate i bl V ip s → indirect ip ≠ 0 → NDIRECT ≤ bn < MAXFILE → (length bl + cost1 V ip bn + 1 ≤ NBUF)%nat →
  (∀ bl' V' ip' s', mapped i (cost1 V ip bn) bl V ip s bl' V' ip' s' → own V' ip' bn ≠ 0 →
     (own V ip bn = 0 → own V' ip' bn ∈ bl') → Q (own V' ip' bn) s') →
  (∀ bl' V' ip' s', mapped i (cost1 V ip bn) bl V ip s bl' V' ip' s' → own V ip bn = 0 →
     (∀ b, 0 ≤ b < sb_size sb → used sb V' b = true) → Q 0 s') →
  wp (sync resume (bp ← bread 1 (indirect ip);
    b ← getb bp;
    let addr := ldl 4 (b_data b) (Z.to_nat (4 * (bn - NDIRECT))) in
    addr ← (if addr =? 0 then
              addr ← balloc 1;
              whenM (negb (addr =? 0))
                (modb bp (λ b, set_b_data (stl 4 (b_data b) (Z.to_nat (4 * (bn - NDIRECT))) addr) b) ;;
                 log_write bp) ;;
              ret addr
            else ret addr);
    brelse bp ;;
    ret addr)) Q s.
Proof.
  intros Hf Hi Hbn Hl Hsome Hnone. destruct (lo_size _ _ _ Hlay).
  assert (0 ≤ bn ≤ MAXFILE) as Hbn' by (unfold NDIRECT in Hbn; lia). pose proof (fstate_len _ _ _ _ _ Hf) as Hlen.
  destruct (fo_used _ _ (fs_file _ _ _ _ _ Hf) MAXFILE) as [Hr Hu]; [by vm_compute|done|]. rewrite own_indirect in Hr, Hu.
  set (ind := indirect ip) in *. apply wps_bind.
  apply (wpt_bread me st ∅ V bl ind); [apply Hf|lia|done|unfold fits; rewrite map_size_empty; lia|].
  intros bp s1 T1 S1 Hset. assert (<[ind := bp]> (∅ : gmap Z nat) !! ind = Some bp) as Hbp by (by rewrite lookup_insert_eq).
  apply wps_bind. eapply (wpt_held me st _ V bl ind bp); [exact T1|done|]. intros bb Hbb. rewrite Hbb. cbv zeta.
  assert (ldl 4 (V ind) (Z.to_nat (4 * (bn - NDIRECT))) = own V ip bn) as ->.
  { unfold own. fold ind. unfold NDIRECT in *. rewrite (proj2 (Z.ltb_ge bn 12)), (proj2 (Z.eqb_neq bn MAXFILE)) by lia.
    by rewrite (proj2 (Z.eqb_neq ind 0)). }
  unfold cost1 in *. apply wps_bind. destruct (Z.eqb_spec (own V ip bn) 0) as [E0|E0].
  2:{ rewrite decide_False in * by done. apply wps_of_wp, wp_ret, wps_bind.
      eapply (wpt_brelse me st _ V bl ind bp); [exact T1|done|done|]. intros s2 T2 S2. rewrite delete_insert_id in T2 by done.
      pose proof (tstep_trans _ _ _ _ S1 S2) as S. destruct (tstep_sb _ _ S) as [Es Ei].
      apply wps_of_wp, wp_ret, (Hsome bl V ip); [|done|done]. apply mapped_refl; [done|done|]. destruct Hf. split; try done; congruence. }
  rewrite decide_True in * by done. apply wps_bind.
  apply (wpt_balloc me st sb nmeta Hlay (<[ind := bp]> ∅) V bl s1); [done| | | |].
  - split; [destruct (tstep_sb _ _ S1) as [-> _]; apply Hf|apply Hf|]. intros b [j Hj].
    apply lookup_insert_Some in Hj as [[<- _]|[_ Hj]]; done.
  - unfold fits. rewrite map_size_insert_None, map_size_empty by done. lia.
  - intros b s2 Hb Hub _ T2 S2. rewrite (proj2 (Z.eqb_neq b 0)) by lia. cbn [negb]. unfold whenM.
    pose proof (gains_entry V b Hlen Hb Hub ip bn (fs_file _ _ _ _ _ Hf) Hbn Hi E0) as G. fold ind in G.
    apply wps_bind, wps_bind.
    apply (wpt_setdata me st (<[ind := bp]> ∅) (allocated sb V b) (alloc_log sb bl b) ind bp
      (λ d, stl 4 d (Z.to_nat (4 * (bn - NDIRECT))) b)); [done|done| |].
    { rewrite length_stl. eapply cache_vlen, T2. }
    intros s3 T3 S3. fold (entry_set (allocated sb V b) ind bn b) in T3. pose proof (alloc_log_len bl b) as Hal.
    eapply (wpt_log_write me st _ _ (alloc_log sb bl b) ind bp); [exact T3|done|intros Hin; pose proof (lo_log _ _ _ Hlay _ Hin); lia|lia|].
    intros s4 T4 S4. apply wps_of_wp, wp_ret, wps_bind.
    eapply (wpt_brelse me st _ _ _ ind bp); [exact T4|done|left; apply absorb_in|]. intros s5 T5 S5.
    rewrite delete_insert_id in T5 by done. apply wps_of_wp, wp_ret.
    set (V' := entry_set (allocated sb V b) ind bn b) in *.
    assert (own V' ip bn = b) as Eo by (rewrite (ga_own _ _ _ _ _ _ G) by lia; by rewrite decide_True).
    assert (tstep me s s5) as S by (do 4 (eapply tstep_trans; [eassumption|]); done).
    pose proof (Hsome (absorb (alloc_log sb bl b) ind) V' ip) as Hs. rewrite Eo in Hs.
    apply Hs; [|lia|intros _; apply absorb_mono, alloc_log_in].
    eapply (gains_mapped i bl V ip s bn b); try done; [by apply tstep_fstep|destruct (tstep_sb _ _ S) as [_ ->]; apply Hf|].
    pose proof (absorb_len (alloc_log sb bl b) ind). unfold pot. fold ind. rewrite !(decide_False (P := ind = 0)) by done.
    rewrite (decide_True (P := ind ∈ absorb _ _)) by apply absorb_in. case_decide as Hin; [|lia].
    assert (absorb (alloc_log sb bl b) ind = alloc_log sb bl b) as ->; [|lia].
    unfold absorb at 1. rewrite decide_True; [done|]. by apply alloc_log_mono.
  - intros Hall s2 T2 S2. cbn [Z.eqb negb]. unfold whenM. wp_go.
    eapply (wpt_brelse me st _ V bl ind bp); [exact T2|done| |].
    { destruct Hset as [?|E]; [by left|right]. by rewrite (ts_disk _ _ _ S2). }
    intros s3 T3 S3. rewrite delete_insert_id in T3 by done. apply wps_of_wp, wp_ret.
    assert (tstep me s s3) as S by (do 2 (eapply tstep_trans; [eassumption|]); done). destruct (tstep_sb _ _ S) as [Es Ei].
    apply (Hnone bl V ip); [|done|done].
    assert (fstate i bl V ip s3) as Hf' by (destruct Hf; split; try done; congruence).
    pose proof (mapped_refl i bl V ip s s3 Hf S Hf') as []. split; try done. lia.
Qed.

Lemma wpt_bmap i bl V ip s bn (Q : Z → kstate → Prop) :
  fstate i bl V ip s → 0 ≤ bn < MAXFILE → (length bl + pot bl ip + cost1 V ip bn + 1 ≤ NBUF)%nat →
  (∀ bl' V' ip' s', mapped i (cost1 V ip bn) bl V ip s bl' V' ip' s' → own V' ip' bn ≠ 0 →
     (own V ip bn = 0 → own V' ip' bn ∈ bl') → Q (own V' ip' bn) s') →
  (∀ bl' V' ip' s', mapped i (cost1 V ip bn) bl V ip s bl' V' ip' s' → own V ip bn = 0 →
     (∀ b, 0 ≤ b < sb_size sb → used sb V' b = true) → Q 0 s') →
  wp (sync resume (bmap i bn)) Q s.
Proof.
  intros Hf Hbn Hl Hsome Hnone. unfold bmap. apply wps_bind. eapply wps_eq; [apply geti_run, Hf|].
  rewrite (fo_dev _ _ (fs_file _ _ _ _ _ Hf)). destruct (Z.ltb_spec bn NDIRECT) as [Hd|Hd]; cbv zeta.
  - assert (nth (Z.to_nat bn) (i_addrs ip) 0 = own V ip bn) as ->
      by (unfold own; by rewrite (proj2 (Z.ltb_lt bn NDIRECT))).
    unfold cost1 in *. destruct (Z.eqb_spec (own V ip bn) 0) as [E0|E0].
    + rewrite decide_True in * by done. apply (wpt_bmap_direct i bl V ip s bn); try done; try lia.
      * intros bl' V' ip' s' M Ho Hin. by apply (Hsome bl' V' ip').
      * intros bl' V' ip' s' M Hall. by apply (Hnone bl' V' ip').
    + apply wps_of_wp, wp_ret, (Hsome bl V ip); [|done|done]. rewrite decide_False by done.
      apply mapped_refl; [done|apply tstep_refl|done].
  - assert (bn - NDIRECT <? NINDIRECT = true) as -> by (unfold MAXFILE in Hbn; lia).
    change (nth (Z.to_nat NDIRECT) (i_addrs ip) 0) with (indirect ip). apply wps_bind.
    apply (wpt_bmap_ind i bl V ip s); [done|lia| |].
    + intros bl1 V1 ip1 s1 M1 Hi Ho. rewrite (proj2 (Z.eqb_neq _ 0)) by done.
      pose proof (mp_cost _ _ _ _ _ _ _ _ _ _ M1) as Hc1. assert (cost1 V1 ip1 bn = cost1 V ip bn) as Ec by (unfold cost1; by rewrite Ho).
      apply (wpt_bmap_entry i bl1 V1 ip1 s1 bn); [apply M1|done|lia|rewrite Ec; lia| |]; rewrite Ec, Ho by done.
      * intros bl' V' ip' s' M. apply (Hsome bl' V' ip'). exact (mapped_trans _ _ _ _ _ _ _ _ _ _ _ _ _ _ _ M1 M).
      * intros bl' V' ip' s' M. apply (Hnone bl' V' ip'). exact (mapped_trans _ _ _ _ _ _ _ _ _ _ _ _ _ _ _ M1 M).
    + intros bl' V' ip' s' M E0 Hall. cbn [Z.eqb]. apply wps_of_wp, wp_ret, (Hnone bl' V' ip'); [| |done].
      * destruct M. split; try done. lia.
      * unfold own, NDIRECT in *. rewrite (proj2 (Z.ltb_ge bn 12)), (proj2 (Z.eqb_neq bn MAXFILE)), E0 by lia. done.
Qed.

(** ** Writing into a block *)

Section data.
Context V ip (bn : Z) (x : list Z) (Hf : file_ok V ip) (Hbn : 0 ≤ bn < MAXFILE) (Ho : own V ip bn ≠ 0).
Let V' := put V (own V ip bn) x.

Lemma data_meta c : c < nmeta → V' c = V c.
Proof. intros Hc. destruct (fo_used _ _ Hf bn) as [? _]; [lia|done|]. unfold V'. by rewrite put_ne by lia. Qed.
Lemma data_used c : 0 ≤ c < sb_size sb → used sb V' c = used sb V c.
Proof. intros Hc. destruct (fo_used _ _ Hf bn) as [? _]; [lia|done|]. apply (used_block st sb nmeta Hlay); lia. Qed.
Lemma data_own k : own V' ip k = own V ip k.
Proof.
  unfold own at 1 2. destruct (k <? NDIRECT); [done|]. destruct (k =? MAXFILE); [done|]. destruct (Z.eqb_spec (indirect ip) 0) as [|E]; [done|].
  unfold V'. rewrite put_ne; [done|]. rewrite <- (own_indirect V). intros E2. apply (fo_inj _ _ Hf) in E2; [lia|by vm_compute|lia|done].
Qed.
Lemma data_ok : file_ok V' ip.
Proof.
  destruct (lo_size _ _ _ Hlay) as [Hs1 Hs2]. destruct Hf as [Hd Hl Hs Hu Hi Ha]. split; try done.
  - intros k Hk. rewrite data_own. intros H0. destruct (Hu k Hk H0). split; [done|]. by rewrite data_used by lia.
  - intros j k Hj Hk. rewrite !data_own. by apply Hi.
  - intros k Hk Hks. rewrite data_own. by apply Ha.
Qed.
Lemma data_grows : grows V ip V' ip.
Proof.
  destruct (grows_refl V ip Hf) as [_ G1 G2 G3 G4 G5 G6]. split; try done.
  - apply data_ok.
  - intros k Hk _. apply data_own.
  - intros k Hk H0. by rewrite data_own.
  - intros c Hc. rewrite data_used by done. setoid_rewrite data_own. apply (G4 c Hc).
  - intros c Hc _ Hno. unfold V'. rewrite put_ne; [done|]. intros ->. apply (Hno bn); [lia|done].
  - intros c Hc _. by apply data_meta.
Qed.
Lemma data_content o : 0 ≤ o < MAXFILE * BSIZE →
  content V' ip o = if decide (o / BSIZE = bn) then nth (Z.to_nat (o mod BSIZE)) x 0 else content V ip o.
Proof.
  intros Hr. unfold content. rewrite data_own. case_decide as E.
  - subst bn. unfold V'. rewrite put_eq. by rewrite (proj2 (Z.eqb_neq _ 0)).
  - destruct (Z.eqb_spec (own V ip (o / BSIZE)) 0) as [|E0]; [done|]. unfold V'. rewrite put_ne; [done|].
    change (MAXFILE * BSIZE) with 274432 in Hr.
    intros E2. apply (fo_inj _ _ Hf) in E2; [done| |lia|done]. change MAXFILE with 268. unfold BSIZE. dlia.
Qed.
End data.

(** [bs] has been written at [off]. *)
Record wrote (i : nat) (d : nat) bl V ip s (off : Z) (bs : list Z) bl' V' ip' s' : Prop := {
  wr_state : fstate i bl' V' ip' s';
  wr_step : fstep i s s';
  wr_grows : grows V ip V' ip';
  wr_content : ∀ o, 0 ≤ o < MAXFILE * BSIZE → content V' ip' o =
    if decide (off ≤ o < off + Z.of_nat (length bs)) then nth (Z.to_nat (o - off)) bs 0 else content V ip o;
  wr_own : ∀ o, off ≤ o < off + Z.of_nat (length bs) → own V' ip' (o / BSIZE) ≠ 0;
  wr_cost : (length bl' + pot bl' ip' ≤ length bl + pot bl ip + d)%nat;
}.
Lemma mapped_wrote i d bl V ip s off bl' V' ip' s' :
  mapped i d bl V ip s bl' V' ip' s' → wrote i d bl V ip s off [] bl' V' ip' s'.
Proof.
  intros [? ? ? Hc ?]. split; try done.
  - intros o Ho. cbn. rewrite decide_False by lia. by apply Hc.
  - cbn. lia.
Qed.
Lemma wrote_app i d1 d2 bl V ip s off bs1 bl1 V1 ip1 s1 bs2 bl2 V2 ip2 s2 :
  0 ≤ off → off + Z.of_nat (length bs1) ≤ MAXFILE * BSIZE →
  wrote i d1 bl V ip s off bs1 bl1 V1 ip1 s1 →
  wrote i d2 bl1 V1 ip1 s1 (off + Z.of_nat (length bs1)) bs2 bl2 V2 ip2 s2 →
  wrote i (d1 + d2) bl V ip s off (bs1 ++ bs2) bl2 V2 ip2 s2.
Proof.
  intros H0 Hmax [F1 S1 G1 C1 O1 K1] [F2 S2 G2 C2 O2 K2]. split.
  - done.
  - by eapply fstep_trans.
  - by eapply grows_trans.
  - intros o Ho. rewrite C2, length_app by done. destruct (decide (off + _ ≤ o < _)) as [Hd|Hd].
    + rewrite decide_True by lia. rewrite app_nth2 by lia. f_equal. lia.
    + rewrite C1 by done. destruct (decide (off ≤ o < off + Z.of_nat (length bs1))) as [Hd'|Hd'].
      * rewrite decide_True by lia. by rewrite app_nth1 by lia.
      * rewrite decide_False by lia. done.
  - intros o. rewrite length_app. intros Ho. destruct (decide (o < off + Z.of_nat (length bs1))) as [Hd|Hd]; [|apply O2; lia].
    change (MAXFILE * BSIZE) with 274432 in Hmax. rewrite (gr_keep _ _ _ _ G2); [apply O1; lia| |apply O1; lia].
    change MAXFILE with 268. unfold BSIZE. dlia.
  - lia.
Qed.

(** One turn of the loop of [writei] after [bmap]: [bs] goes into block [bn] at [off]. *)
Lemma wpt_write_block {A} i bl V ip s (off : Z) (data : list Z) (m : Z) (body : K A) X (Q : A → kstate → Prop) :
  fstate i bl V ip s → 0 ≤ off < MAXFILE * BSIZE → own V ip (off / BSIZE) ≠ 0 → (length bl + 1 ≤ NBUF)%nat →
  0 < m ≤ BSIZE - off mod BSIZE → m ≤ Z.of_nat (length data) →
  (∀ bl' V' s', wrote i (if decide (own V ip (off / BSIZE) ∈ bl) then 0 else 1) bl V ip s off (take (Z.to_nat m) data) bl' V' ip s' →
     wp (sync resume body) Q s') →
  wp (sync resume (bp ← bread 1 (own V ip (off / BSIZE));
    r ← either_copyin (SLocal data) m;
    modb bp (λ b, set_b_data (splice (b_data b) (Z.to_nat (off mod BSIZE)) r.2) b) ;;
    if r.1 =? -1 then brelse bp ;; ret X else
    log_write bp ;;
    brelse bp ;; body)) Q s.
Proof.
  intros Hf Hoff Hown Hl Hm Hdata HQ. destruct (lo_size _ _ _ Hlay) as [Hs1 Hs2]. pose proof (fs_file _ _ _ _ _ Hf) as Hfile.
  pose proof (fstate_len _ _ _ _ _ Hf) as Hlen. change (MAXFILE * BSIZE) with 274432 in Hoff. set (bn := off / BSIZE) in *.
  assert (0 ≤ bn < MAXFILE) as Hbn by (change MAXFILE with 268; unfold bn, BSIZE; dlia).
  destruct (fo_used _ _ Hfile bn) as [Hr _]; [lia|done|]. set (a := own V ip bn) in *.
  set (bs := take (Z.to_nat m) data) in *. assert (length bs = Z.to_nat m) as Hbs by (unfold bs; rewrite length_take; lia).
  apply wps_bind, (wpt_bread me st ∅ V bl a); [apply Hf|lia|done|unfold fits; rewrite map_size_empty; lia|].
  intros bp s1 T1 S1 _. assert (<[a := bp]> (∅ : gmap Z nat) !! a = Some bp) as Hbp by (by rewrite lookup_insert_eq).
  apply wps_bind. cbn [either_copyin]. apply wps_of_wp, wp_ret. cbn [fst snd]. fold bs. change (0 =? -1) with false. cbv iota.
  set (x := splice (V a) (Z.to_nat (off mod BSIZE)) bs). apply wps_bind.
  apply (wpt_setdata me st (<[a := bp]> ∅) V bl a bp (λ d, splice d (Z.to_nat (off mod BSIZE)) bs)); [done|done|by rewrite length_splice|].
  fold x. intros s2 T2 S2. apply wps_bind.
  eapply (wpt_log_write me st _ _ bl a bp); [exact T2|done|intros Hin; pose proof (lo_log _ _ _ Hlay _ Hin); lia|lia|].
  intros s3 T3 S3. apply wps_bind. eapply (wpt_brelse me st _ _ _ a bp); [exact T3|done|left; apply absorb_in|].
  intros s4 T4 S4. rewrite delete_insert_id in T4 by done. apply (HQ (absorb bl a) (put V a x)).
  assert (tstep me s s4) as S by (do 3 (eapply tstep_trans; [eassumption|]); done). destruct (tstep_sb _ _ S) as [Es Ei].
  split.
  - split; [done|by rewrite Es; apply Hf| |by rewrite Ei; apply Hf|by apply data_ok].
    intros b Hb. unfold a. rewrite data_used by (try done; lia). by apply Hf.
  - by apply tstep_fstep.
  - by apply data_grows.
  - intros o Ho. unfold a. rewrite data_content by done. unfold bn, BSIZE in *. rewrite Hbs. change (MAXFILE * 1024) with 274432 in Ho.
    assert (0 ≤ off mod 1024 < 1024) by (apply Z.mod_pos_bound; lia). assert (0 ≤ o mod 1024 < 1024) by (apply Z.mod_pos_bound; lia).
    unfold x, a, bn, BSIZE. destruct (decide (o / 1024 = off / 1024)) as [E|E].
    + rewrite nth_lookup, lookup_splice, Hbs by (rewrite Hbs, Hlen; lia). destruct (decide (off ≤ o < off + _)) as [Hd|Hd].
      * rewrite decide_True by dlia. rewrite nth_lookup. do 2 f_equal. dlia.
      * rewrite decide_False by dlia. unfold content. unfold BSIZE. rewrite E.
        rewrite (proj2 (Z.eqb_neq _ 0)) by done. by rewrite nth_lookup.
    + rewrite decide_False by dlia. done.
  - intros o Ho. unfold a. rewrite data_own by done. assert (o / BSIZE = bn) as -> by (unfold bn, BSIZE in *; dlia). done.
  - pose proof (absorb_len bl a). assert (pot (absorb bl a) ip ≤ pot bl ip)%nat by (apply pot_mono; intros y; apply absorb_mono).
    case_decide as Hin; [|lia]. unfold absorb. rewrite decide_True by done. lia.
Qed.

(** ** [writei] *)

(** The blocks that writing [rem] bytes at [off] may log beside the indirect block and
    the inode: two for a new block, with its bitmap block, and one for the block at an
    unaligned offset, which exists. *)
Definition rcost (off rem : Z) : nat :=
  if rem <=? 0 then 0
  else Z.to_nat (2 * ((off mod BSIZE + rem + BSIZE - 1) / BSIZE) - (if off mod BSIZE =? 0 then 0 else 1)).
(** With the indirect block, the bitmap block it is allocated from, and the inode. *)
Definition write_cost (off n : Z) : nat := rcost off n + 3.
Definition turn_cost (off : Z) : nat := if decide (off mod BSIZE = 0) then 2 else 1.

Lemma rcost_step off rem :
  0 ≤ off → 0 < rem → let m := Z.min rem (BSIZE - off mod BSIZE) in
  rcost off rem = (turn_cost off + rcost (off + m) (rem - m))%nat.
Proof.
  intros H0 Hr. unfold rcost, turn_cost, BSIZE. cbv zeta. assert (0 ≤ off mod 1024 < 1024) as Hm by (apply Z.mod_pos_bound; lia).
  rewrite (proj2 (Z.leb_gt rem 0)) by lia. destruct (Z.min_spec rem (1024 - off mod 1024)) as [[Hlt ->]|[Hge ->]].
  - rewrite Z.sub_diag. cbn [Z.leb Z.compare].
    assert ((off mod 1024 + rem + 1024 - 1) / 1024 = 1) as -> by dlia.
    destruct (Z.eqb_spec (off mod 1024) 0); [rewrite decide_True by done|rewrite decide_False by done]; lia.
  - assert ((off + (1024 - off mod 1024)) mod 1024 = 0) as -> by dlia. rewrite Z.eqb_refl.
    remember (rem - (1024 - off mod 1024)) as r eqn:Er.
    assert ((off mod 1024 + rem + 1024 - 1) / 1024 = 1 + (r + 1023) / 1024) as -> by dlia.
    assert (0 ≤ (r + 1023) / 1024) by (apply Z.div_pos; lia).
    destruct (Z.leb_spec r 0); [assert ((r + 1023) / 1024 = 0) as -> by dlia|
      assert ((0 + r + 1024 - 1) / 1024 = (r + 1023) / 1024) as -> by (f_equal; lia)];
      (destruct (Z.eqb_spec (off mod 1024) 0); [rewrite decide_True by done|rewrite decide_False by done]; lia).
Qed.
(** [filewrite] writes at most three blocks' worth of bytes in a transaction, which fits. *)
Lemma write_cost_max off n : 0 ≤ off → 0 ≤ n ≤ ((MAXOPBLOCKS - 1 - 1 - 2) / 2) * BSIZE → (write_cost off n ≤ Z.to_nat MAXOPBLOCKS)%nat.
Proof.
  intros H0 Hn. unfold write_cost, rcost, BSIZE, MAXOPBLOCKS in *. change ((10 - 1 - 1 - 2) / 2 * 1024) with 3072 in Hn.
  destruct (Z.leb_spec n 0); [lia|]. destruct (Z.eqb_spec (off mod 1024) 0) as [E|E]; dlia.
Qed.

Lemma wpt_writei_loop fuel i bl V ip s data tot off n (Q : Z * Z → kstate → Prop) :
  fstate i bl V ip s → 0 ≤ tot ≤ n → n - tot = Z.of_nat (length data) → 0 ≤ off → off + (n - tot) ≤ MAXFILE * BSIZE →
  (tot < n → off mod BSIZE + (n - tot) ≤ Z.of_nat fuel * BSIZE) →
  (off mod BSIZE ≠ 0 → tot < n → own V ip (off / BSIZE) ≠ 0) →
  (length bl + pot bl ip + rcost off (n - tot) + 1 ≤ NBUF)%nat →
  (∀ k bl' V' ip' s', (k ≤ length data)%nat →
     wrote i (rcost off (n - tot)) bl V ip s off (take k data) bl' V' ip' s' →
     (k = length data ∨ ∀ b, 0 ≤ b < sb_size sb → used sb V' b = true) →
     Q (tot + Z.of_nat k, off + Z.of_nat k) s') →
  wp (sync resume (writei_loop fuel i (SLocal data) tot off n)) Q s.
Proof.
  revert bl V ip s data tot off Q. induction fuel as [|f IH]; intros bl V ip s data tot off Q Hf Htot Hdata H0 Hmax Hfuel Hun Hl HQ;
    (destruct (decide (tot = n)) as [->|Hne];
     [cbn [writei_loop]; rewrite Z.ltb_irrefl; apply wps_of_wp, wp_ret;
      specialize (HQ O bl V ip s ltac:(lia)); rewrite !Z.add_0_r in HQ; apply HQ; [|left; lia];
      rewrite take_0; apply mapped_wrote; pose proof (mapped_refl i bl V ip s s Hf (tstep_refl _ _) Hf) as []; split; try done; lia|]).
  { exfalso. specialize (Hfuel ltac:(lia)). assert (0 ≤ off mod BSIZE) by (apply Z.mod_pos_bound; unfold BSIZE; lia). lia. }
  specialize (Hfuel ltac:(lia)). change (MAXFILE * BSIZE) with 274432 in Hmax.
  cbn [writei_loop]. rewrite (proj2 (Z.ltb_lt tot n)) by lia.
  assert (0 ≤ off mod BSIZE < BSIZE) as Hm by (apply Z.mod_pos_bound; unfold BSIZE; lia).
  assert (0 ≤ off / BSIZE < MAXFILE) as Hbn by (change MAXFILE with 268; unfold BSIZE; dlia).
  pose proof (rcost_step off (n - tot) H0 ltac:(lia)) as Hrc. cbv zeta in Hrc. set (m := Z.min (n - tot) (BSIZE - off mod BSIZE)) in *.
  set (bn := off / BSIZE) in *.
  assert (cost1 V ip bn + (if decide (own V ip bn = 0%Z) then 0 else 1) ≤ turn_cost off)%nat as Hc1.
  { unfold cost1, turn_cost. repeat case_decide; try lia. }
  apply wps_bind, (wpt_bmap i bl V ip s); [done|done|lia| |].
  2:{ intros bl' V' ip' s' M Eo Hall. cbn [Z.eqb]. apply wps_of_wp, wp_ret.
      specialize (HQ O bl' V' ip' s' ltac:(lia)). rewrite !Z.add_0_r in HQ. apply HQ; [|by right].
      rewrite take_0. apply mapped_wrote. destruct M as [? ? ? ? Hk]. split; try done. lia. }
  intros bl1 V1 ip1 s1 M1 Hown Hnew. rewrite (proj2 (Z.eqb_neq _ 0)) by done. apply wps_bind.
  pose proof (mp_state _ _ _ _ _ _ _ _ _ _ M1) as F1. pose proof (mp_cost _ _ _ _ _ _ _ _ _ _ M1) as K1.
  eapply wps_eq; [apply geti_run, F1|]. rewrite (fo_dev _ _ (fs_file _ _ _ _ _ F1)). cbv zeta.
  assert (0 < m ≤ n - tot ∧ m ≤ BSIZE - off mod BSIZE ∧ (tot + m < n → m = BSIZE - off mod BSIZE)) as (Hm2 & Hm3 & Hm4)
    by (unfold m; lia).
  clearbody m.
  apply (wpt_write_block i bl1 V1 ip1 s1 off data m); [done|change (MAXFILE * BSIZE) with 274432; lia|done|lia|lia|lia|].
  intros bl2 V2 s2 W2. cbn [src_add]. assert (off + m < 2 ^ 32) as Hs by lia. rewrite u32_small by lia.
  assert (length (take (Z.to_nat m) data) = Z.to_nat m) as Ht by (rewrite length_take; lia).
  pose proof (mapped_wrote _ _ _ _ _ _ off _ _ _ _ M1) as W1.
  pose proof (wrote_app _ _ _ _ _ _ _ _ [] _ _ _ _ _ _ _ _ _ H0 ltac:(cbn; change (MAXFILE * BSIZE) with 274432; lia) W1
    ltac:(cbn [length]; rewrite Z.add_0_r; exact W2)) as W. cbn [app] in W. clear W1.
  assert (off + m = off + Z.of_nat (length (take (Z.to_nat m) data))) as Eoff by lia.
  assert ((if decide (own V1 ip1 bn ∈ bl1) then 0 else 1) ≤ if decide (own V ip bn = 0%Z) then 0 else 1)%nat as Hc2.
  { destruct (decide (own V ip bn = 0)) as [E|E]; [rewrite decide_True by (by apply Hnew); lia|destruct (decide (own V1 ip1 bn ∈ bl1)); lia]. }
  pose proof (wr_cost _ _ _ _ _ _ _ _ _ _ _ _ W2) as K2. fold bn in K2.
  apply (IH bl2 V2 ip1 s2); [apply W2|lia|rewrite length_drop; lia|lia|change (MAXFILE * BSIZE) with 274432; lia| | | |].
  - intros Hlt. specialize (Hm4 Hlt). unfold BSIZE in *. dlia.
  - intros Hu Hlt. destruct Hu. specialize (Hm4 Hlt). unfold BSIZE in *. dlia.
  - replace (n - (tot + m)) with (n - tot - m) by lia. lia.
  - intros k bl' V' ip' s' Hk W3 Hend. rewrite length_drop in Hk, Hend.
    replace (tot + m + Z.of_nat k) with (tot + Z.of_nat (Z.to_nat m + k)) by lia.
    replace (off + m + Z.of_nat k) with (off + Z.of_nat (Z.to_nat m + k)) by lia.
    apply (HQ _ bl' V' ip'); [lia| |destruct Hend; [left; lia|by right]].
    rewrite Eoff in W3. pose proof (λ Hmx, wrote_app _ _ _ _ _ _ _ _ _ _ _ _ _ _ _ _ _ _ H0 Hmx W W3) as W4.
    specialize (W4 ltac:(change (MAXFILE * BSIZE) with 274432; lia)).
    assert (take (Z.to_nat m + k) data = take (Z.to_nat m) data ++ take k (drop (Z.to_nat m) data)) as -> by (symmetry; apply take_take_drop).
    destruct W4 as [? ? ? ? ? Hk4]. split; try done. rewrite <- Eoff in Hk4. fold bn in Hk4. replace (n - (tot + m)) with (n - tot - m) in Hk4 by lia. lia.
Qed.

(** ** The inode on the disk *)

(** The fields of an inode fit in a [struct dinode]. *)
Record dinode_ok ip : Prop := {
  dk_type : - 2 ^ 15 ≤ i_type ip < 2 ^ 15;
  dk_major : - 2 ^ 15 ≤ i_major ip < 2 ^ 15;
  dk_minor : - 2 ^ 15 ≤ i_minor ip < 2 ^ 15;
  dk_nlink : - 2 ^ 15 ≤ i_nlink ip < 2 ^ 15;
}.
(** The block of the inode is one of the inode blocks. *)
Record iblock_ok (inum : Z) : Prop := {
  ib_range : 0 ≤ IBLOCK inum sb < nmeta;
  ib_log : ¬ in_log st (IBLOCK inum sb);
  ib_bitmap : ∀ b, 0 ≤ b < sb_size sb → IBLOCK inum sb ≠ BBLOCK b sb;
}.

Lemma i16_le v : - 2 ^ 15 ≤ v < 2 ^ 15 → i16 (v mod 256 ^ Z.of_nat 2) = v.
Proof. intros Hv. change (256 ^ Z.of_nat 2) with 65536. unfold i16. dlia. Qed.
Lemma u32_le v : 0 ≤ v < 2 ^ 32 → v mod 256 ^ Z.of_nat 4 = v.
Proof. intros Hv. change (256 ^ Z.of_nat 4) with (2 ^ 32). apply Z.mod_small. lia. Qed.
Lemma length_concat_le (l : list Z) : length (concat (le_bytes 4 <$> l)) = (4 * length l)%nat.
Proof. induction l as [|x l IH]; [done|]. cbn [fmap list_fmap concat]. rewrite length_app, length_le_bytes, IH. cbn. lia. Qed.
Lemma ldl_concat (l : list Z) k x : l !! k = Some x → 0 ≤ x < 2 ^ 32 → ldl 4 (concat (le_bytes 4 <$> l)) (4 * k) = x.
Proof.
  revert k. induction l as [|y l IH]; intros [|k] Hx Hr; try done; cbn [fmap list_fmap concat].
  - injection Hx as ->. unfold ldl, slice. change (4 * 0)%nat with O. rewrite drop_0, take_app_length' by (by rewrite length_le_bytes).
    rewrite le_val_bytes. by apply u32_le.
  - unfold ldl, slice. replace (4 * S k)%nat with (length (le_bytes 4 y) + 4 * k)%nat by (rewrite length_le_bytes; lia).
    rewrite drop_app_add. by apply IH.
Qed.
Lemma slice_slice l a n b m : (b + m ≤ n)%nat → slice (slice l a n) b m = slice l (a + b) m.
Proof.
  intros Hm. apply list_eq. intros i. unfold slice. destruct (decide (i < m)%nat) as [Hi|Hi].
  - rewrite !lookup_take_lt, !lookup_drop, lookup_take_lt, lookup_drop by lia. f_equal. lia.
  - by rewrite !lookup_take_ge by lia.
Qed.

Ltac field_of := repeat first [rewrite ldl_splice_ne by (rewrite ?length_stl, ?length_concat_le; lia)
  | rewrite ldl_stl by (rewrite ?length_stl; lia) | rewrite ldl_stl_ne by (rewrite ?length_stl; lia)].
Lemma get_put_dinode ip d off :
  dinode_ok ip → 0 ≤ i_size ip < 2 ^ 32 → length (i_addrs ip) = 13%nat → Forall (λ a, 0 ≤ a < 2 ^ 32) (i_addrs ip) →
  (off + 64 ≤ length d)%nat → get_dinode (put_dinode ip d off) off ip = ip.
Proof.
  intros [H1 H2 H3 H4] Hs Hl Ha Hd. unfold get_dinode.
  assert (di_addr (put_dinode ip d off) off <$> seq 0 13 = i_addrs ip) as ->.
  { apply list_eq. intros k. rewrite list_lookup_fmap. destruct (decide (k < 13)%nat) as [Hk|Hk].
    2:{ rewrite lookup_seq_ge by lia. symmetry. apply lookup_ge_None. lia. }
    rewrite lookup_seq_lt by lia. destruct (lookup_lt_is_Some_2 (i_addrs ip) k) as [x Hx]; [lia|]. rewrite Hx. cbn [fmap option_fmap option_map].
    rewrite Forall_lookup in Ha. f_equal. unfold di_addr, put_dinode. rewrite <- (ldl_concat (i_addrs ip) k x) by eauto.
    unfold ldl. rewrite <- (slice_slice _ (off + 12) 52 (4 * k) 4) by lia. do 2 f_equal.
    replace 52%nat with (length (concat (le_bytes 4 <$> i_addrs ip))) by (rewrite length_concat_le; lia).
    apply slice_splice. rewrite !length_stl, length_concat_le. lia. }
  assert (length (concat (le_bytes 4 <$> i_addrs ip)) = 52%nat) by (rewrite length_concat_le; lia).
  assert (di_type (put_dinode ip d off) off = i_type ip ∧ di_major (put_dinode ip d off) off = i_major ip ∧
    di_minor (put_dinode ip d off) off = i_minor ip ∧ di_nlink (put_dinode ip d off) off = i_nlink ip ∧
    di_size (put_dinode ip d off) off = i_size ip) as (-> & -> & -> & -> & ->).
  { unfold di_size, di_nlink, di_minor, di_major, di_type, put_dinode. split_and!; field_of; rewrite ?i16_le, ?u32_le by done; done. }
  by destruct ip.
Qed.

Section meta.
Context V ip (c : Z) (x : list Z) (Hf : file_ok V ip) (Hc : c < nmeta) (Hbm : ∀ b, 0 ≤ b < sb_size sb → c ≠ BBLOCK b sb).
Lemma meta_own k : own (put V c x) ip k = own V ip k.
Proof.
  unfold own at 1 2. destruct (k <? NDIRECT); [done|]. destruct (k =? MAXFILE); [done|]. destruct (Z.eqb_spec (indirect ip) 0) as [|E]; [done|].
  destruct (fo_used _ _ Hf MAXFILE) as [Hr _]; [by vm_compute|done|]. rewrite own_indirect in Hr. by rewrite put_ne by lia.
Qed.
Lemma meta_used b : 0 ≤ b < sb_size sb → used sb (put V c x) b = used sb V b.
Proof. intros Hb. unfold used. rewrite put_ne; [done|]. intros E. by apply (Hbm b). Qed.
Lemma meta_ok : file_ok (put V c x) ip.
Proof.
  destruct (lo_size _ _ _ Hlay) as [Hs1 Hs2]. destruct Hf as [Hd Hl Hs Hu Hi Ha]. split; try done.
  - intros k Hk. rewrite meta_own. intros H0. destruct (Hu k Hk H0). split; [done|]. by rewrite meta_used by lia.
  - intros j k Hj Hk. rewrite !meta_own. by apply Hi.
  - intros k Hk Hks. rewrite meta_own. by apply Ha.
Qed.
Lemma meta_content o : 0 ≤ o < MAXFILE * BSIZE → content (put V c x) ip o = content V ip o.
Proof.
  intros Ho. unfold content. rewrite meta_own. destruct (Z.eqb_spec (own V ip (o / BSIZE)) 0) as [|E]; [done|].
  change (MAXFILE * BSIZE) with 274432 in Ho. destruct (fo_used _ _ Hf (o / BSIZE)) as [Hr _]; [|done|by rewrite put_ne by lia].
  change MAXFILE with 268. unfold BSIZE. dlia.
Qed.
End meta.

(** [iupdate] stores the inode in its block. *)
Definition stored V ip : Z → list Z :=
  put V (IBLOCK (i_inum ip) sb) (put_dinode ip (V (IBLOCK (i_inum ip) sb)) (di_off (i_inum ip))).
Lemma wpt_iupdate i bl V ip s (Q : unit → kstate → Prop) :
  fstate i bl V ip s → iblock_ok (i_inum ip) → (length bl + 1 ≤ NBUF)%nat →
  (∀ s', fstate i (absorb bl (IBLOCK (i_inum ip) sb)) (stored V ip) ip s' → tstep me s s' → Q tt s') →
  wp (sync resume (iupdate i)) Q s.
Proof.
  intros Hf [Hr Hlog Hbm] Hl HQ. destruct (lo_size _ _ _ Hlay) as [Hs1 Hs2]. unfold iupdate.
  apply wps_bind. eapply wps_eq; [apply geti_run, Hf|]. apply wps_bind, wps_of_wp, wp_gets. rewrite (fs_sb _ _ _ _ _ Hf).
  rewrite (fo_dev _ _ (fs_file _ _ _ _ _ Hf)). unfold stored in HQ. set (ib := IBLOCK (i_inum ip) sb) in *.
  apply wps_bind, (wpt_bread me st ∅ V bl ib); [apply Hf|lia|done|unfold fits; rewrite map_size_empty; lia|].
  intros bp s1 T1 S1 _. assert (<[ib := bp]> (∅ : gmap Z nat) !! ib = Some bp) as Hbp by (by rewrite lookup_insert_eq).
  apply wps_bind.
  apply (wpt_setdata me st (<[ib := bp]> ∅) V bl ib bp (λ d, put_dinode ip d (di_off (i_inum ip)))); [done|done| |].
  { rewrite length_put_dinode. by eapply fstate_len. }
  intros s2 T2 S2. apply wps_bind. eapply (wpt_log_write me st _ _ bl ib bp); [exact T2|done|done|lia|]. intros s3 T3 S3.
  eapply (wpt_brelse me st _ _ _ ib bp); [exact T3|done|left; apply absorb_in|].
  intros s4 T4 S4. rewrite delete_insert_id in T4 by done.
  assert (tstep me s s4) as S by (do 3 (eapply tstep_trans; [eassumption|]); done). destruct (tstep_sb _ _ S) as [Es Ei].
  apply HQ; [|done]. split; [done|by rewrite Es; apply Hf| |by rewrite Ei; apply Hf|].
  - intros b Hb. rewrite meta_used by (try done; lia). by apply Hf.
  - apply meta_ok; [apply Hf|lia|done].
Qed.

(** The bytes of a file as [readi] sees them. *)
Lemma own_faddr V ip k : 0 ≤ k < MAXFILE → own V ip k ≠ 0 → faddr V ip k = own V ip k.
Proof.
  intros Hk. unfold faddr, own. change (nth (Z.to_nat NDIRECT) (i_addrs ip) 0) with (indirect ip).
  destruct (k <? NDIRECT); [done|]. rewrite (proj2 (Z.eqb_neq k MAXFILE)) by lia. by destruct (Z.eqb_spec (indirect ip) 0).
Qed.
Lemma fbyte_content V ip o : file_ok V ip → 0 ≤ o < i_size ip → fbyte V ip o = content V ip o.
Proof.
  intros Hf Ho. pose proof (fo_size _ _ Hf) as Hs. change (MAXFILE * BSIZE) with 274432 in Hs.
  assert (own V ip (o / BSIZE) ≠ 0) as H0 by (apply (fo_alloc _ _ Hf); unfold BSIZE; dlia).
  unfold fbyte, content. rewrite (proj2 (Z.eqb_neq _ 0)) by done. rewrite own_faddr; [done| |done].
  change MAXFILE with 268. unfold BSIZE. dlia.
Qed.
Lemma file_ok_blocks V ip : file_ok V ip → file_blocks ∅ V ip.
Proof.
  intros Hf. pose proof (fo_size _ _ Hf) as Hs. change (MAXFILE * BSIZE) with 274432 in Hs. destruct (lo_size _ _ _ Hlay) as [Hs1 Hs2].
  split; [apply Hf|apply Hf| |]; intros bn H0 Hbn; pose proof (fo_alloc _ _ Hf bn ltac:(unfold NDIRECT in *; lia) Hbn) as Ho;
    (assert (0 ≤ bn < MAXFILE) as Hb by (change MAXFILE with 268; unfold BSIZE, NDIRECT in *; lia)).
  - rewrite own_faddr by done. destruct (fo_used _ _ Hf bn) as [? _]; [lia|done|]. split; [lia|done].
  - change (nth (Z.to_nat NDIRECT) (i_addrs ip) 0) with (indirect ip). assert (indirect ip ≠ 0) as Hi.
    { intros E. apply Ho. unfold own. rewrite (proj2 (Z.ltb_ge bn NDIRECT)), (proj2 (Z.eqb_neq bn MAXFILE)) by lia. by rewrite E. }
    destruct (fo_used _ _ Hf MAXFILE) as [Hr _]; [by vm_compute|done|]. rewrite own_indirect in Hr. split; [lia|done].
Qed.

(** After [writei] has written [bs] at [off], at a cost of at most [d] blocks in the log. *)
Record written (i : nat) (d : nat) bl V ip s (off : Z) (bs : list Z) bl' V' ip' s' : Prop := {
  wn_state : fstate i bl' V' ip' s';
  wn_step : fstep i s s';
  wn_inode : ∃ a, ip' = set_i_size (Z.max (i_size ip) (off + Z.of_nat (length bs))) (set_i_addrs a ip);
  wn_bytes : ∀ o, 0 ≤ o < i_size ip' → fbyte V' ip' o =
    if decide (off ≤ o < off + Z.of_nat (length bs)) then nth (Z.to_nat (o - off)) bs 0 else fbyte V ip o;
  wn_disk : get_dinode (V' (IBLOCK (i_inum ip) sb)) (di_off (i_inum ip)) ip' = ip';
  wn_others : ∀ c, nmeta ≤ c < sb_size sb → used sb V c = true → (∀ k, 0 ≤ k ≤ MAXFILE → own V ip k ≠ c) →
    used sb V' c = true ∧ V' c = V c;
  wn_log : (length bl' ≤ length bl + d)%nat;
}.

Lemma sized_ok V ip sz :
  file_ok V ip → 0 ≤ sz ≤ MAXFILE * BSIZE → (∀ k, 0 ≤ k → k * BSIZE < sz → own V ip k ≠ 0) → file_ok V (set_i_size sz ip).
Proof. intros [Hd Hl Hs Hu Hi Ha] Hsz Hall. by split. Qed.
Lemma sized_state i bl V ip s sz :
  fstate i bl V ip s → file_ok V (set_i_size sz ip) →
  fstate i bl V (set_i_size sz ip) (set_k_itable (alter (set_i_size sz) i (k_itable s)) s).
Proof.
  intros [T Es Hm Hi Hf] Hok. split; [by apply txn_itable|done|done| |done]. kcbn. by rewrite list_lookup_alter_eq, Hi.
Qed.
Lemma own_u32 V ip : file_ok V ip → Forall (λ a, 0 ≤ a < 2 ^ 32) (i_addrs ip).
Proof.
  intros Hf. destruct (lo_size _ _ _ Hlay) as [Hs1 Hs2]. apply Forall_lookup. intros k a Hk.
  pose proof (lookup_lt_Some _ _ _ Hk) as Hlt. rewrite (fo_len _ _ Hf) in Hlt.
  assert (∃ j, 0 ≤ j ≤ MAXFILE ∧ own V ip j = a) as (j & Hj & E).
  { change MAXFILE with 268. destruct (decide (k = 12)%nat) as [->|].
    - exists 268. split; [lia|]. change (own V ip 268) with (indirect ip). unfold indirect. by rewrite nth_lookup, Hk.
    - exists (Z.of_nat k). split; [lia|]. unfold own. rewrite (proj2 (Z.ltb_lt _ _)) by (unfold NDIRECT; lia).
      by rewrite Nat2Z.id, nth_lookup, Hk. }
  destruct (decide (a = 0)); [lia|]. subst a. destruct (fo_used _ _ Hf j Hj) as [? _]; [done|]. lia.
Qed.

(** Storing the inode, with its new size, after the loop. *)
Lemma wrote_written i d bl V ip s off bs bl1 V1 ip1 s1 ip2 s2 s3 :
  wrote i d bl V ip s off bs bl1 V1 ip1 s1 → 0 ≤ off ≤ i_size ip → off + Z.of_nat (length bs) ≤ MAXFILE * BSIZE →
  dinode_ok ip → iblock_ok (i_inum ip) → file_ok V ip →
  ip2 = set_i_size (Z.max (i_size ip) (off + Z.of_nat (length bs))) ip1 → fstep i s1 s2 →
  fstate i (absorb bl1 (IBLOCK (i_inum ip) sb)) (stored V1 ip2) ip2 s3 → tstep me s2 s3 →
  written i (d + 3) bl V ip s off bs (absorb bl1 (IBLOCK (i_inum ip) sb)) (stored V1 ip2) ip2 s3.
Proof.
  intros [F1 S1 G1 C1 O1 K1] Hoff Hmax Hdk [Hir Hil Hib] Hf E2 S2 F3 S3. destruct (gr_ip _ _ _ _ G1) as [a Ea].
  assert (i_inum ip2 = i_inum ip) as En by (by rewrite E2, Ea). pose proof (fs_file _ _ _ _ _ F1) as Hf1. pose proof (fs_file _ _ _ _ _ F3) as Hf3.
  pose proof (fo_size _ _ Hf) as Hs. change (MAXFILE * BSIZE) with 274432 in *.
  assert (∀ k, own (stored V1 ip2) ip2 k = own V1 ip1 k) as Eown.
  { intros k. unfold stored. rewrite En.
    assert (own V1 ip1 k = own V1 ip2 k) as -> by (by rewrite E2). apply meta_own; [|lia].
    rewrite E2. apply sized_ok; [done|change (MAXFILE * BSIZE) with 274432; lia|].
    intros j Hj. pose proof (fo_alloc _ _ Hf1 j Hj) as Hal. rewrite Ea in Hal at 1. cbn [i_size set_i_addrs] in Hal.
    intros Hjs. destruct (decide (j * BSIZE < i_size ip)) as [|Hge]; [by apply Hal|].
    unfold BSIZE in *. replace j with (j * 1024 / 1024) by dlia. apply O1. lia. }
  split; try done.
  - eapply fstep_trans; [exact S1|]. eapply fstep_trans; [exact S2|]. by apply tstep_fstep.
  - exists a. by rewrite E2, Ea.
  - intros o Ho. assert (i_size ip2 = Z.max (i_size ip) (off + Z.of_nat (length bs))) as Esz by (by rewrite E2).
    rewrite fbyte_content by done. pose proof (C1 o) as Hc. change (MAXFILE * BSIZE) with 274432 in Hc. rewrite Esz in Ho.
    assert (content (stored V1 ip2) ip2 o = content V1 ip1 o) as ->.
    { unfold content. rewrite Eown. destruct (Z.eqb_spec (own V1 ip1 (o / BSIZE)) 0) as [|E0]; [done|].
      unfold stored. rewrite En. destruct (fo_used _ _ Hf1 (o / BSIZE)) as [Hr _]; [|done|by rewrite put_ne by lia].
      change MAXFILE with 268. unfold BSIZE. dlia. }
    rewrite Hc by lia. case_decide; [done|]. symmetry. apply fbyte_content; [done|lia].
  - unfold stored. rewrite En, put_eq. apply get_put_dinode.
    + destruct Hdk. rewrite E2, Ea. by split.
    + pose proof (fo_size _ _ Hf3) as H3. change (MAXFILE * BSIZE) with 274432 in H3. lia.
    + apply Hf3.
    + by eapply own_u32.
    + rewrite (fstate_len _ _ _ _ _ F1). unfold di_off. change IPB with 16. dlia.
  - intros c Hc Hu Hno. unfold stored. rewrite En. destruct (lo_size _ _ _ Hlay) as [Hs1 Hs2]. rewrite meta_used, put_ne by (try done; lia).
    split; [|by apply (gr_data _ _ _ _ G1)]. apply (gr_used _ _ _ _ G1); [lia|by left].
  - pose proof (absorb_len bl1 (IBLOCK (i_inum ip) sb)). assert (pot bl ip ≤ 2)%nat by (unfold pot; repeat case_decide; lia). lia.
Qed.

Lemma wpt_writei i bl V ip s off data (Q : Z → kstate → Prop) :
  fstate i bl V ip s → iblock_ok (i_inum ip) → dinode_ok ip → 0 ≤ off ≤ i_size ip →
  off + Z.of_nat (length data) ≤ MAXFILE * BSIZE → (length bl + write_cost off (Z.of_nat (length data)) ≤ NBUF)%nat →
  (∀ k bl' V' ip' s', (k ≤ length data)%nat →
     (k = length data ∨ ∀ b, 0 ≤ b < sb_size sb → used sb V' b = true) →
     written i (write_cost off (Z.of_nat (length data))) bl V ip s off (take k data) bl' V' ip' s' → Q (Z.of_nat k) s') →
  wp (sync resume (writei i (SLocal data) off (Z.of_nat (length data)))) Q s.
Proof.
  intros Hf Hib Hdk Hoff Hmax Hl HQ. set (n := Z.of_nat (length data)) in *. unfold write_cost in *.
  pose proof (fs_file _ _ _ _ _ Hf) as Hfile. destruct (fo_size _ _ Hfile) as [Hs0 Hs1]. change (MAXFILE * BSIZE) with 274432 in *.
  unfold writei. apply wps_bind. eapply wps_eq; [apply geti_run, Hf|]. rewrite !u32_small by lia.
  rewrite (proj2 (Z.ltb_ge (i_size ip) off)), (proj2 (Z.ltb_ge (off + n) off)) by lia. cbn [orb].
  rewrite (proj2 (Z.ltb_ge _ (off + n))) by (change (MAXFILE * BSIZE) with 274432; lia). apply wps_bind.
  assert (pot bl ip ≤ 2)%nat as Hpot by (unfold pot; repeat case_decide; lia).
  apply (wpt_writei_loop _ i bl V ip s data 0 off n); rewrite ?Z.sub_0_r;
    [done|lia|done|lia|change (MAXFILE * BSIZE) with 274432; lia| | |lia|].
  - intros _. unfold BSIZE. assert (0 ≤ n) by lia. dlia.
  - intros Hun _. apply (fo_alloc _ _ Hfile); unfold BSIZE in *; dlia.
  - intros k bl1 V1 ip1 s1 Hk W Hend. cbn [fst snd]. pose proof (wr_state _ _ _ _ _ _ _ _ _ _ _ _ W) as F1.
    pose proof (wr_cost _ _ _ _ _ _ _ _ _ _ _ _ W) as K1. destruct (gr_ip _ _ _ _ (wr_grows _ _ _ _ _ _ _ _ _ _ _ _ W)) as [a Ea].
    assert (length (take k data) = k) as Etk by (rewrite length_take; lia).
    set (sz := Z.max (i_size ip) (off + Z.of_nat k)). set (ip2 := set_i_size sz ip1).
    assert (i_size ip1 = i_size ip) as Esz by (by rewrite Ea). assert (i_inum ip1 = i_inum ip) as En by (by rewrite Ea).
    assert (∀ s2, fstate i bl1 V1 ip2 s2 → fstep i s1 s2 → wp (sync resume (iupdate i ;; ret (i32 (Z.of_nat k)))) Q s2) as Hrest.
    { intros s2 F2 S2. apply wps_bind, (wpt_iupdate i bl1 V1 ip2); [done|by unfold ip2; cbn; rewrite En|lia|].
      intros s3 F3 S3. assert (i_inum ip2 = i_inum ip) as En2 by (unfold ip2; by cbn). rewrite En2 in F3.
      rewrite i32_small by lia. apply wps_of_wp, wp_ret, (HQ k (absorb bl1 (IBLOCK (i_inum ip) sb)) (stored V1 ip2) ip2); [done| |].
      2:{ eapply wrote_written; try done; [rewrite Etk; change (MAXFILE * BSIZE) with 274432; lia|]. by rewrite Etk. }
      destruct Hend as [?|Hall]; [by left|right]. intros b Hb. unfold stored. rewrite En2. destruct Hib. rewrite meta_used by (try done; lia).
      by apply Hall. }
    apply wps_bind. eapply wps_eq; [apply geti_run, F1|]. rewrite Esz. apply wps_bind.
    destruct (Z.ltb_spec (i_size ip) (off + Z.of_nat k)) as [Hlt|Hge]; unfold whenM.
    + apply wps_of_wp, wp_modify. assert (off + Z.of_nat k = sz) as -> by (unfold sz; lia). apply Hrest; [|apply fstep_modi].
      apply sized_state; [done|]. apply sized_ok; [apply F1|change (MAXFILE * BSIZE) with 274432; unfold sz; lia|].
      intros j Hj Hjs. destruct (decide (j * BSIZE < i_size ip)) as [Hjs'|Hge].
      * apply (fo_alloc _ _ (fs_file _ _ _ _ _ F1)); [done|by rewrite Esz].
      * unfold BSIZE in *. replace j with (j * 1024 / 1024) by dlia. apply (wr_own _ _ _ _ _ _ _ _ _ _ _ _ W). rewrite Etk. unfold sz in Hjs. lia.
    + apply wps_of_wp, wp_ret. apply Hrest; [|apply tstep_fstep, tstep_refl].
      assert (ip2 = ip1) as -> by (unfold ip2, sz; rewrite Z.max_l, <- Esz by lia; by destruct ip1). done.
Qed.


Lemma written_read i d bl V ip s off bs bl' V' ip' s' :
  written i d bl V ip s off bs bl' V' ip' s' → 0 ≤ off → fbytes V' ip' off (length bs) = bs.
Proof.
  intros W H0. destruct (wn_inode _ _ _ _ _ _ _ _ _ _ _ _ W) as [a Ea]. apply list_eq. intros j. unfold fbytes.
  rewrite list_lookup_fmap. destruct (decide (j < length bs)%nat) as [Hj|Hj].
  - rewrite lookup_seq_lt by done. cbn [fmap option_fmap option_map]. rewrite (wn_bytes _ _ _ _ _ _ _ _ _ _ _ _ W).
    + rewrite decide_True by lia. rewrite nth_lookup. replace (Z.to_nat (off + Z.of_nat (0 + j) - off)) with j by lia.
      destruct (lookup_lt_is_Some_2 bs j Hj) as [x Hx]. by rewrite Hx.
    + rewrite Ea. cbn [i_size set_i_size]. lia.
  - rewrite lookup_seq_ge by lia. symmetry. apply lookup_ge_None. lia.
Qed.

End write.

(** ** Instance *)

(** An empty file, inode 1 of a disk of 1000 blocks, in a transaction. *)
Definition empty_ip : inode := mkInode 1 1 1 sleeplock0 true T_FILE 0 0 1 0 (replicate 13 0).
Definition empty_view : Z → list Z := put (block_data ∅) 34 bitmap40.

Lemma empty_ok : file_ok sb34 40 empty_view empty_ip.
Proof.
  assert (∀ k, own empty_view empty_ip k = 0) as H0.
  { intros k. unfold own. change (indirect empty_ip) with 0. cbn [Z.eqb]. destruct (k <? NDIRECT); [|by destruct (k =? MAXFILE)].
    rewrite nth_lookup. cbn [i_addrs empty_ip]. destruct (replicate 13 0 !! _) eqn:E; [|done]. by apply lookup_replicate in E as [-> _]. }
  split; try done.
  - intros k _ H. by rewrite H0 in H.
  - intros j k _ _ H. by rewrite H0 in H.
  - intros k Hk Hlt. cbn in Hlt. unfold BSIZE in Hlt. lia.
Qed.
Lemma empty_state : ∃ s, fstate 2 2 sb34 40 0 [34] empty_view empty_ip s.
Proof.
  destruct txn_bitmap as (s & Htx & Esb). exists (set_k_itable (empty_ip :: replicate 49 inode0) s).
  split; [by apply txn_itable|done| |done|apply empty_ok]. intros b Hb.
  assert (Forall (λ b, used sb34 empty_view b = true) (seqZ 0 40)) as Hall by (repeat constructor).
  rewrite Forall_forall in Hall. apply Hall, elem_of_seqZ. lia.
Qed.
Lemma empty_iblock : iblock_ok 2 sb34 40 1.
Proof.
  split; [by vm_compute|by vm_compute; intros [? ?]|]. intros b Hb. cbn [sb_size sb34] in Hb.
  change (IBLOCK 1 sb34) with 33. rewrite (BBLOCK_eq 2 sb34 40 layout34) by done. cbn [sb_bmapstart sb34]. unfold BPB, BSIZE. dlia.
Qed.
Lemma empty_dinode : dinode_ok empty_ip.
Proof. by split. Qed.

