(* ===== verification/File.v ===== *)
(** * kernel/file.c and kernel/pipe.c

    Open files and pipes.  A [struct file] is its slot in [ftable.file[]], a pipe
    is named by the page that holds it. *)
From Stdlib Require Import ZArith Lia.
From stdpp Require Import base list gmap numbers strings.
From S2P Require Import Prelude Machine KString Bytes State Printk Kalloc Sched Vm Console Virtio Bio Log Fs.
Local Open Scope Z_scope.
Local Open Scope kernel_scope.

Section file.
Context {L : Layout} {F : Fuel}.

(** ** pipe.c *)

Definition PIPESIZE : Z := 512.

Definition getpipe (pi : Z) : K pipe :=
  o ← gets (λ s, k_pipes s !! pi); unwrap "pipe" o.
Definition modpipe (pi : Z) (f : pipe → pipe) : K unit :=
  modify (λ s, set_k_pipes (alter f pi (k_pipes s)) s).

Definition pipeclose (pi : Z) (writable : bool) : K unit :=
  acquire (LPipe pi) ;;
  (if writable then modpipe pi (set_pi_writeopen false) ;; wakeup (ChPipeR pi)
   else modpipe pi (set_pi_readopen false) ;; wakeup (ChPipeW pi)) ;;
  p ← getpipe pi;
  if negb (pi_readopen p) && negb (pi_writeopen p) then
    release (LPipe pi) ;;
    modify (λ s, set_k_pipes (delete pi (k_pipes s)) s) ;;
    kfree pi
  else release (LPipe pi).

(** The loop of [pipewrite], which goes round once for a byte and once for every
    wait: the number of bytes written, or [None] after [return -1]. *)
Fixpoint pipewrite_loop (fuel : nat) (pi : Z) (me : nat) (addr i n : Z) : K (option Z) :=
  if i <? n then
    match fuel with
    | O => nofuel
    | S f =>
        p ← getpipe pi;
        stop ← (if negb (pi_readopen p) then ret true
                else k ← killed me; ret (negb (k =? 0)));
        if (stop : bool) then release (LPipe pi) ;; ret None else
        if pi_nwrite p =? u32 (pi_nread p + PIPESIZE) then
          wakeup (ChPipeR pi) ;;
          sleep (ChPipeW pi) (LPipe pi) ;;
          pipewrite_loop f pi me addr i n
        else
          pr ← getp me;
          r ← copyin (p_pagetable pr) (u64 (addr + i)) 1;
          if r.1 =? -1 then ret (Some i) else
          modpipe pi (λ p, set_pi_nwrite (u32 (pi_nwrite p + 1))
            (set_pi_data (<[Z.to_nat (pi_nwrite p mod PIPESIZE) := nth 0 r.2 0]> (pi_data p)) p)) ;;
          pipewrite_loop f pi me addr (i + 1) n
    end
  else ret (Some i).
Definition pipewrite (pi addr n : Z) : K Z :=
  me ← myproc;
  acquire (LPipe pi) ;;
  r ← pipewrite_loop (Z.to_nat n + wakeups) pi me addr 0 n;
  match r with
  | None => ret (-1)
  | Some i => wakeup (ChPipeR pi) ;; release (LPipe pi) ;; ret i
  end.

(** The [for] loop of [piperead]: the value of [i] at its end. *)
Fixpoint piperead_loop (n : nat) (pi : Z) (me : nat) (addr i : Z) : K Z :=
  match n with
  | O => ret i
  | S n' =>
      p ← getpipe pi;
      if pi_nread p =? pi_nwrite p then ret i else
      let ch := nth (Z.to_nat (pi_nread p mod PIPESIZE)) (pi_data p) 0 in
      pr ← getp me;
      r ← copyout (p_pagetable pr) (u64 (addr + i)) [ch];
      if r =? -1 then ret (if i =? 0 then -1 else i) else
      modpipe pi (λ p, set_pi_nread (u32 (pi_nread p + 1)) p) ;;
      piperead_loop n' pi me addr (i + 1)
  end.
Definition piperead (pi addr n : Z) : K Z :=
  me ← myproc;
  acquire (LPipe pi) ;;
  go ← sleep_loop
    (p ← getpipe pi;
     if (pi_nread p =? pi_nwrite p) && pi_writeopen p then
       k ← killed me;
       if negb (k =? 0) then release (LPipe pi) ;; ret (Some false)
       else sleep (ChPipeR pi) (LPipe pi) ;; ret None
     else ret (Some true));
  if negb go then ret (-1) else
  i ← piperead_loop (Z.to_nat n) pi me addr 0;
  wakeup (ChPipeW pi) ;;
  release (LPipe pi) ;;
  ret i.

(** ** file.c *)

Definition getf (i : nat) : K file :=
  o ← gets (λ s, k_ftable s !! i); unwrap "file" o.
Definition modf (i : nat) (f : file → file) : K unit :=
  modify (λ s, set_k_ftable (alter f i (k_ftable s)) s).

Definition fileinit : K unit := ret tt.

Definition filealloc : K (option nat) :=
  acquire LFtable ;;
  r ← for_list (seq 0 NFILE) (λ i,
        f ← getf i;
        if f_ref f =? 0 then
          modf i (set_f_ref 1) ;; release LFtable ;; ret (Some i)
        else ret None);
  match r with
  | Some i => ret (Some i)
  | None => release LFtable ;; ret None
  end.

Definition filedup (i : nat) : K nat :=
  acquire LFtable ;;
  f ← getf i;
  if f_ref f <? 1 then panic "filedup" else
  modf i (λ f, set_f_ref (f_ref f + 1) f) ;;
  release LFtable ;;
  ret i.

Definition fileclose (i : nat) : K unit :=
  acquire LFtable ;;
  f ← getf i;
  if f_ref f <? 1 then panic "fileclose" else
  modf i (λ f, set_f_ref (f_ref f - 1) f) ;;
  ff ← getf i;
  if 0 <? f_ref ff then release LFtable else
  modf i (set_f_ref 0) ;;
  modf i (set_f_type FD_NONE) ;;
  release LFtable ;;
  match f_type ff with
  | FD_PIPE => pipeclose (f_pipe ff) (f_writable ff)
  | FD_INODE | FD_DEVICE =>
      begin_op ;;
      ip ← unwrap "ff.ip" (f_ip ff);
      iput ip ;;
      end_op
  | FD_NONE => ret tt
  end.

(** [pad]: the padding bytes of the [struct stat] on the stack. *)
Definition filestat (pad : list Z) (i : nat) (addr : Z) : K Z :=
  me ← myproc;
  f ← getf i;
  match f_type f with
  | FD_INODE | FD_DEVICE =>
      ip ← unwrap "f->ip" (f_ip f);
      ilock ip ;;
      n ← geti ip;
      let st := stati pad n in
      iunlock ip ;;
      p ← getp me;
      r ← copyout (p_pagetable p) addr st;
      if r <? 0 then ret (-1) else ret 0
  | _ => ret (-1)
  end.

(** [devsw[f->major]], where [f->major] is in range. *)
Definition devsw_of (major : Z) : K (option devops) :=
  t ← gets k_devsw; ret (mjoin (t !! Z.to_nat major)).

Definition fileread (i : nat) (addr n : Z) : K Z :=
  f ← getf i;
  if negb (f_readable f) then ret (-1) else
  match f_type f with
  | FD_PIPE => piperead (f_pipe f) addr n
  | FD_DEVICE =>
      d ← devsw_of (f_major f);
      if (f_major f <? 0) || (NDEV <=? f_major f) || bool_decide (d = None) then ret (-1) else
      r ← consoleread (DUser addr) n; ret r.1
  | FD_INODE =>
      ip ← unwrap "f->ip" (f_ip f);
      ilock ip ;;
      r ← readi ip (DUser addr) (f_off f) (u32 n);
      whenM (0 <? r.1) (modf i (λ f, set_f_off (u32 (f_off f + r.1)) f)) ;;
      iunlock ip ;;
      ret r.1
  | FD_NONE => panic "fileread"
  end.

(** The loop of [filewrite] for an inode; every iteration but the last writes
    [max] bytes. *)
Definition filewrite_max : Z := ((MAXOPBLOCKS - 1 - 1 - 2) / 2) * BSIZE.
Fixpoint filewrite_loop (fuel : nat) (fi ip : nat) (addr i n : Z) : K Z :=
  if i <? n then
    match fuel with
    | O => nofuel
    | S fu =>
        let n1 := Z.min (n - i) filewrite_max in
        begin_op ;;
        ilock ip ;;
        f ← getf fi;
        r ← writei ip (SUser (u64 (addr + i))) (f_off f) n1;
        whenM (0 <? r) (modf fi (λ f, set_f_off (u32 (f_off f + r)) f)) ;;
        iunlock ip ;;
        end_op ;;
        if negb (r =? n1) then ret i else filewrite_loop fu fi ip addr (i + r) n
    end
  else ret i.
Definition filewrite (i : nat) (addr n : Z) : K Z :=
  f ← getf i;
  if negb (f_writable f) then ret (-1) else
  match f_type f with
  | FD_PIPE => pipewrite (f_pipe f) addr n
  | FD_DEVICE =>
      d ← devsw_of (f_major f);
      if (f_major f <? 0) || (NDEV <=? f_major f) || bool_decide (d = None) then ret (-1) else
      consolewrite (SUser addr) n
  | FD_INODE =>
      ip ← unwrap "f->ip" (f_ip f);
      k ← filewrite_loop (Z.to_nat n) i ip addr 0 n;
      ret (if k =? n then n else -1)
  | FD_NONE => panic "filewrite"
  end.

(** pipe.c: the [struct pipe] keeps the bytes it had in the page where the code
    does not set them; the data is never read before it is written. *)
Definition pipealloc_bad (pi : Z) (f0 f1 : option nat) : K (option (nat * nat)) :=
  whenM (negb (pi =? 0)) (kfree pi) ;;
  (match f0 with Some i => fileclose i | None => ret tt end) ;;
  (match f1 with Some i => fileclose i | None => ret tt end) ;;
  ret None.
Definition pipealloc : K (option (nat * nat)) :=
  f0 ← filealloc;
  match f0 with
  | None => pipealloc_bad 0 None None
  | Some i0 =>
      f1 ← filealloc;
      match f1 with
      | None => pipealloc_bad 0 (Some i0) None
      | Some i1 =>
          pi ← kalloc;
          if pi =? 0 then pipealloc_bad 0 (Some i0) (Some i1) else
          modify (λ s, set_k_pipes
            (<[pi := mkPipe (replicate (Z.to_nat PIPESIZE) 0) 0 0 true true]> (k_pipes s)) s) ;;
          modf i0 (λ f, set_f_pipe pi (set_f_writable false (set_f_readable true (set_f_type FD_PIPE f)))) ;;
          modf i1 (λ f, set_f_pipe pi (set_f_writable true (set_f_readable false (set_f_type FD_PIPE f)))) ;;
          ret (Some (i0, i1))
      end
  end.
End file.
