(* ===== verification/Proc.v ===== *)
(** * kernel/proc.c: the life of a process

    Allocation and freeing of process slots, [fork], [exit], [wait] and growing a
    process.  A trapframe is 288 bytes of the page [p->trapframe]. *)
From Stdlib Require Import ZArith Lia.
From stdpp Require Import base list gmap numbers strings.
From S2P Require Import Prelude Machine KString Bytes State Printk Kalloc Sched Vm Console Virtio Bio Log Fs File.
Local Open Scope Z_scope.
Local Open Scope kernel_scope.

(** ** [struct trapframe]: the offsets of the fields the kernel uses *)

Definition TF_SIZE : Z := 288.
Definition tf_kernel_satp : Z := 0.
Definition tf_kernel_sp : Z := 8.
Definition tf_kernel_trap : Z := 16.
Definition tf_epc : Z := 24.
Definition tf_kernel_hartid : Z := 32.
Definition tf_sp : Z := 48.
Definition tf_a (n : Z) : Z := 112 + 8 * n.

Section proc.
Context {L : Layout} {F : Fuel}.

(** ** Code *)

Definition proc_freepagetable (pagetable sz : Z) : K unit :=
  uvmunmap pagetable TRAMPOLINE 1 false ;;
  uvmunmap pagetable TRAPFRAME 1 false ;;
  uvmfree pagetable sz.

Definition proc_pagetable (i : nat) : K Z :=
  pagetable ← uvmcreate;
  if pagetable =? 0 then ret 0 else
  r ← mappages pagetable TRAMPOLINE PGSIZE trampoline (Z.lor PTE_R PTE_X);
  if r <? 0 then uvmfree pagetable 0 ;; ret 0 else
  p ← getp i;
  r ← mappages pagetable TRAPFRAME PGSIZE (p_trapframe p) (Z.lor PTE_R PTE_W);
  if r <? 0 then
    uvmunmap pagetable TRAMPOLINE 1 false ;;
    uvmfree pagetable 0 ;;
    ret 0
  else ret pagetable.

Definition freeproc (i : nat) : K unit :=
  p ← getp i;
  whenM (negb (p_trapframe p =? 0)) (kfree (p_trapframe p)) ;;
  modp i (set_p_trapframe 0) ;;
  p ← getp i;
  whenM (negb (p_pagetable p =? 0)) (proc_freepagetable (p_pagetable p) (p_sz p)) ;;
  modp i (set_p_pagetable 0) ;;
  modp i (set_p_sz 0) ;;
  modp i (set_p_pid 0) ;;
  modp i (set_p_parent None) ;;
  modp i (λ p, set_p_name (<[0%nat := 0]> (p_name p)) p) ;;
  modp i (set_p_chan ChNull) ;;
  modp i (set_p_killed 0) ;;
  modp i (set_p_xstate 0) ;;
  modp i (set_p_state UNUSED).

(** The search of [allocproc]: an UNUSED slot, with its lock held. *)
Definition find_unused : K (option nat) :=
  for_list slots (λ i,
    acquire (LProc i) ;;
    p ← getp i;
    if bool_decide (p_state p = UNUSED) then ret (Some i)
    else release (LProc i) ;; ret None).

(** [None] is a null pointer. *)
Definition allocproc : K (option nat) :=
  o ← find_unused;
  match o with
  | None => ret None
  | Some i =>
      pid ← allocpid;
      modp i (set_p_pid pid) ;;
      modp i (set_p_state USED) ;;
      modp i (set_p_priority 0) ;;
      modp i (set_p_ticks_used 0) ;;
      tf ← kalloc;
      modp i (set_p_trapframe tf) ;;
      if tf =? 0 then freeproc i ;; release (LProc i) ;; ret None else
      pt ← proc_pagetable i;
      modp i (set_p_pagetable pt) ;;
      if pt =? 0 then freeproc i ;; release (LProc i) ;; ret None else
      modp i (set_p_context context0) ;;
      modp i (λ p, set_p_context (set_cx_ra a_forkret (p_context p)) p) ;;
      modp i (λ p, set_p_context (set_cx_sp (u64 (p_kstack p + PGSIZE)) (p_context p)) p) ;;
      ret (Some i)
  end.

Definition userinit : K unit :=
  o ← allocproc;
  modify (set_k_initproc o) ;;
  i ← unwrap "userinit" o;
  cwd ← namei [SLASH];
  modp i (set_p_cwd cwd) ;;
  modp i (set_p_state RUNNABLE) ;;
  release (LProc i).

Definition growproc (n : Z) : K Z :=
  i ← myproc;
  p ← getp i;
  let sz := p_sz p in
  if 0 <? n then
    if TRAPFRAME <? u64 (sz + n) then ret (-1) else
    sz ← uvmalloc (p_pagetable p) sz (u64 (sz + n)) PTE_W;
    if sz =? 0 then ret (-1) else
    modp i (set_p_sz sz) ;; ret 0
  else if n <? 0 then
    sz ← uvmdealloc (p_pagetable p) sz (u64 (sz + n));
    modp i (set_p_sz sz) ;; ret 0
  else
    modp i (set_p_sz sz) ;; ret 0.

Definition kfork : K Z :=
  me ← myproc;
  o ← allocproc;
  match o with
  | None => ret (-1)
  | Some i =>
      p ← getp me;
      np ← getp i;
      r ← uvmcopy (p_pagetable p) (p_pagetable np) (p_sz p);
      if r <? 0 then
        freeproc i ;; release (LProc i) ;; ret (-1)
      else
      p ← getp me;
      modp i (set_p_sz (p_sz p)) ;;
      np ← getp i;
      modmem (λ m, memmove m (p_trapframe np) (p_trapframe p) TF_SIZE) ;;
      modmem (λ m, st64 m (p_trapframe np + tf_a 0) 0) ;;
      for_each (seq 0 NOFILE) (λ fd,
        p ← getp me;
        match mjoin (p_ofile p !! fd) with
        | None => ret tt
        | Some f =>
            f' ← filedup f;
            modp i (λ np, set_p_ofile (<[fd := Some f']> (p_ofile np)) np)
        end) ;;
      p ← getp me;
      c ← unwrap "cwd" (p_cwd p);
      c ← idup c;
      modp i (set_p_cwd (Some c)) ;;
      modp i (λ np, set_p_name (safestrcpy (p_name np) (bytes_of (p_name p)) 16) np) ;;
      np ← getp i;
      let pid := p_pid np in
      release (LProc i) ;;
      acquire LWait ;;
      modp i (set_p_parent (Some me)) ;;
      release LWait ;;
      acquire (LProc i) ;;
      modp i (set_p_state RUNNABLE) ;;
      release (LProc i) ;;
      ret pid
  end.

Definition kexit (status : Z) : K unit :=
  me ← myproc;
  init ← gets k_initproc;
  if bool_decide (init = Some me) then panic "init exiting" else
  for_each (seq 0 NOFILE) (λ fd,
    p ← getp me;
    match mjoin (p_ofile p !! fd) with
    | None => ret tt
    | Some f =>
        fileclose f ;;
        modp me (λ p, set_p_ofile (<[fd := None]> (p_ofile p)) p)
    end) ;;
  begin_op ;;
  p ← getp me;
  c ← unwrap "cwd" (p_cwd p);
  iput c ;;
  end_op ;;
  modp me (set_p_cwd None) ;;
  acquire LWait ;;
  reparent me ;;
  p ← getp me;
  wakeup (match p_parent p with Some j => ChProc j | None => ChNull end) ;;
  acquire (LProc me) ;;
  modp me (set_p_xstate status) ;;
  modp me (set_p_state ZOMBIE) ;;
  release LWait ;;
  sched ;;
  panic "zombie exit".

(** The scan of [kwait] for an exited child: [inl r] if it returns [r], [inr
    havekids] at the end of the table. *)
Fixpoint kwait_scan (l : list nat) (me : nat) (addr : Z) (havekids : bool) : K (Z + bool) :=
  match l with
  | [] => ret (inr havekids)
  | j :: l' =>
      pp ← getp j;
      if bool_decide (p_parent pp = Some me) then
        acquire (LProc j) ;;
        pp ← getp j;
        if bool_decide (p_state pp = ZOMBIE) then
          let pid := p_pid pp in
          bad ← (if addr =? 0 then ret false else
                 p ← getp me;
                 r ← copyout (p_pagetable p) addr (le_bytes 4 (p_xstate pp));
                 ret (r <? 0));
          if (bad : bool) then
            release (LProc j) ;; release LWait ;; ret (inl (-1))
          else
            freeproc j ;; release (LProc j) ;; release LWait ;; ret (inl pid)
        else
          release (LProc j) ;;
          kwait_scan l' me addr true
      else kwait_scan l' me addr havekids
  end.
Definition kwait (addr : Z) : K Z :=
  me ← myproc;
  acquire LWait ;;
  sleep_loop
    (r ← kwait_scan slots me addr false;
     match r with
     | inl r => ret (Some r)
     | inr havekids =>
         stop ← (if negb havekids then ret true else k ← killed me; ret (negb (k =? 0)));
         if (stop : bool) then release LWait ;; ret (Some (-1))
         else sleep (ChProc me) LWait ;; ret None
     end).
End proc.
