(* ===== verification/Exec.v ===== *)
(** * kernel/exec.c

    Loading a program: the ELF file, the new address space with its stack and
    arguments, and the switch of the process to it. *)
From Stdlib Require Import ZArith Lia.
From stdpp Require Import base list gmap numbers strings.
From S2P Require Import Prelude Machine KString Bytes State Printk Kalloc Sched Vm Console Virtio Bio Log Fs File Proc.
Local Open Scope Z_scope.
Local Open Scope kernel_scope.

(** ** elf.h *)

Definition ELF_MAGIC : Z := 0x464C457F.
Definition ELF_PROG_LOAD : Z := 1.
Definition ELFHDR_SIZE : Z := 64.
Definition PROGHDR_SIZE : Z := 56.
Definition elf_magic (h : list Z) : Z := ldl 4 h 0.
Definition elf_entry (h : list Z) : Z := ldl 8 h 24.
Definition elf_phoff (h : list Z) : Z := ldl 8 h 32.
Definition elf_phnum (h : list Z) : Z := ldl 2 h 56.
Definition ph_type (h : list Z) : Z := ldl 4 h 0.
Definition ph_flags (h : list Z) : Z := ldl 4 h 4.
Definition ph_off (h : list Z) : Z := ldl 8 h 8.
Definition ph_vaddr (h : list Z) : Z := ldl 8 h 16.
Definition ph_filesz (h : list Z) : Z := ldl 8 h 32.
Definition ph_memsz (h : list Z) : Z := ldl 8 h 40.

Section exec.
Context {L : Layout} {F : Fuel}.

(** ** Code *)

Definition flags2perm (flags : Z) : Z :=
  let perm := if negb (Z.land flags 0x1 =? 0) then PTE_X else 0 in
  if negb (Z.land flags 0x2 =? 0) then Z.lor perm PTE_W else perm.

Fixpoint loadseg_loop (fuel : nat) (pagetable va : Z) (ip : nat) (offset sz i : Z) : K Z :=
  if i <? sz then
    match fuel with
    | O => nofuel
    | S f =>
        pa ← walkaddr pagetable (u64 (va + i));
        if pa =? 0 then panic "loadseg: address should exist" else
        let n := if sz - i <? PGSIZE then sz - i else PGSIZE in
        r ← readi ip (DPhys pa) (u32 (offset + i)) n;
        if negb (u32 r.1 =? n) then ret (-1)
        else loadseg_loop f pagetable va ip offset sz (u32 (i + PGSIZE))
    end
  else ret 0.
Definition loadseg (pagetable va : Z) (ip : nat) (offset sz : Z) : K Z :=
  loadseg_loop (Z.to_nat (sz / PGSIZE + 1)) pagetable va ip offset sz 0.

(** [bad:] for the page table [pagetable] of size [sz] (0 if there is none) and
    the inode, if it is still locked. *)
Definition exec_bad (pagetable sz : Z) (ip : option nat) : K Z :=
  whenM (negb (pagetable =? 0)) (proc_freepagetable pagetable sz) ;;
  (match ip with
   | Some i => iunlockput i ;; end_op
   | None => ret tt
   end) ;;
  ret (-1).

(** The loop over the program headers: [inl sz] when it goes to [bad] with [sz],
    [inr sz] when all the segments are loaded. *)
Fixpoint load_segments (n : nat) (pagetable : Z) (ip : nat) (off sz : Z) : K (Z + Z) :=
  match n with
  | O => ret (inr sz)
  | S n' =>
      r ← readi ip DLocal (u32 off) PROGHDR_SIZE;
      if negb (r.1 =? PROGHDR_SIZE) then ret (inl sz) else
      let ph := r.2 in
      let next := load_segments n' pagetable ip (i32 (off + PROGHDR_SIZE)) in
      if negb (ph_type ph =? ELF_PROG_LOAD) then next sz else
      if ph_memsz ph <? ph_filesz ph then ret (inl sz) else
      if u64 (ph_vaddr ph + ph_memsz ph) <? ph_vaddr ph then ret (inl sz) else
      if negb (ph_vaddr ph mod PGSIZE =? 0) then ret (inl sz) else
      sz1 ← uvmalloc pagetable sz (u64 (ph_vaddr ph + ph_memsz ph)) (flags2perm (i32 (ph_flags ph)));
      if sz1 =? 0 then ret (inl sz) else
      r ← loadseg pagetable (ph_vaddr ph) ip (u32 (ph_off ph)) (u32 (ph_filesz ph));
      if r <? 0 then ret (inl sz1) else
      next sz1
  end.

(** The loop that copies the argument strings to the stack: the stack pointer and
    the addresses of the strings, or [None] for [goto bad]. *)
Fixpoint push_args (argv : list (list Z)) (argc : nat) (pagetable sp stackbase : Z)
    (ustack : list Z) : K (option (Z * list Z)) :=
  match argv with
  | [] => ret (Some (sp, ustack))
  | a :: argv' =>
      if (MAXARG <=? argc)%nat then ret None else
      let sp := u64 (sp - (Z.of_nat (length a) + 1)) in
      let sp := sp - sp mod 16 in
      if sp <? stackbase then ret None else
      r ← copyout pagetable sp (a ++ [0]);
      if r <? 0 then ret None else
      push_args argv' (S argc) pagetable sp stackbase (ustack ++ [sp])
  end.

(** [for (last = s = path; *s; s++) if ( *s == '/') last = s + 1;] *)
Fixpoint last_elem (path last : list Z) : list Z :=
  match path with
  | [] => last
  | c :: path' => last_elem path' (if c =? SLASH then path' else last)
  end.

(** From [p->trapframe->a1 = sp] on: the process gets the new image. *)
Definition exec_commit (me : nat) (path : list Z) (pagetable sz sp entry : Z) (argc : nat)
    (oldsz : Z) : K Z :=
  p ← getp me;
  modmem (λ m, st64 m (p_trapframe p + tf_a 1) sp) ;;
  modp me (λ p, set_p_name (safestrcpy (p_name p) (bytes_of (last_elem path path)) 16) p) ;;
  p ← getp me;
  let oldpagetable := p_pagetable p in
  modp me (set_p_pagetable pagetable) ;;
  modp me (set_p_sz sz) ;;
  modmem (λ m, st64 m (p_trapframe p + tf_epc) entry) ;;
  modmem (λ m, st64 m (p_trapframe p + tf_sp) sp) ;;
  proc_freepagetable oldpagetable oldsz ;;
  ret (Z.of_nat argc).

(** The stack and the arguments, once the program is loaded. *)
Definition exec_stack (me : nat) (path : list Z) (argv : list (list Z)) (pagetable sz entry : Z) : K Z :=
  p ← getp me;
  let oldsz := p_sz p in
  let sz := PGROUNDUP sz in
  sz1 ← uvmalloc pagetable sz (u64 (sz + (USERSTACK + 1) * PGSIZE)) PTE_W;
  if sz1 =? 0 then exec_bad pagetable sz None else
  let sz := sz1 in
  uvmclear pagetable (u64 (sz - (USERSTACK + 1) * PGSIZE)) ;;
  let stackbase := u64 (sz - USERSTACK * PGSIZE) in
  o ← push_args argv 0 pagetable sz stackbase [];
  match o with
  | None => exec_bad pagetable sz None
  | Some (sp, ustack) =>
      let argc := length ustack in
      let sp := u64 (sp - (Z.of_nat argc + 1) * 8) in
      let sp := sp - sp mod 16 in
      if sp <? stackbase then exec_bad pagetable sz None else
      r ← copyout pagetable sp (concat (le_bytes 8 <$> (ustack ++ [0])));
      if r <? 0 then exec_bad pagetable sz None else
      exec_commit me path pagetable sz sp entry argc oldsz
  end.

(** [argv] is the strings before the null pointer. *)
Definition kexec (path : list Z) (argv : list (list Z)) : K Z :=
  me ← myproc;
  begin_op ;;
  o ← namei path;
  match o with
  | None => end_op ;; ret (-1)
  | Some ip =>
      ilock ip ;;
      r ← readi ip DLocal 0 ELFHDR_SIZE;
      if negb (r.1 =? ELFHDR_SIZE) then exec_bad 0 0 (Some ip) else
      let elf := r.2 in
      if negb (elf_magic elf =? ELF_MAGIC) then exec_bad 0 0 (Some ip) else
      pagetable ← proc_pagetable me;
      if pagetable =? 0 then exec_bad 0 0 (Some ip) else
      r ← load_segments (Z.to_nat (elf_phnum elf)) pagetable ip (i32 (elf_phoff elf)) 0;
      match r with
      | inl sz => exec_bad pagetable sz (Some ip)
      | inr sz =>
          iunlockput ip ;;
          end_op ;;
          exec_stack me path argv pagetable sz (elf_entry elf)
      end
  end.
End exec.
