(* ===== verification/Syscall.v ===== *)
(** * kernel/syscall.c, kernel/sysproc.c and kernel/sysfile.c

    System calls: their arguments from the trapframe and user memory, the calls
    themselves, and the dispatch on the number in [a7]. *)
From Stdlib Require Import ZArith Lia.
From stdpp Require Import base list gmap numbers strings.
From S2P Require Import Prelude Machine KString Bytes State Printk Kalloc Sched Vm Console Virtio Bio Log Fs File Proc Exec.
Local Open Scope Z_scope.
Local Open Scope kernel_scope.

(** vm.h, fcntl.h *)
Definition SBRK_EAGER : Z := 1.
Definition SBRK_LAZY : Z := 2.
Definition O_RDONLY : Z := 0x000.
Definition O_WRONLY : Z := 0x001.
Definition O_RDWR : Z := 0x002.
Definition O_CREATE : Z := 0x200.
Definition O_TRUNC : Z := 0x400.

(** What the code leaves uninitialised on the kernel stack and then copies to the
    user: the padding of [struct stat], the bytes of [struct uproc]. *)
Class Stack := {
  st_pad : list Z;
  up_junk : list Z;
  st_pad_length : length st_pad = 4%nat;
  up_junk_length : length up_junk = 28%nat;
}.

Section syscall.
Context {L : Layout} {F : Fuel} {J : Stack}.

(** ** Arguments (syscall.c) *)

(** [None] is -1. *)
Definition fetchaddr (addr : Z) : K (option Z) :=
  i ← myproc;
  p ← getp i;
  if (p_sz p <=? addr) || (p_sz p <? u64 (addr + 8)) then ret None else
  r ← copyin (p_pagetable p) addr 8;
  if negb (r.1 =? 0) then ret None else ret (Some (le_val r.2)).

(** The string, without its NUL. *)
Definition fetchstr (addr max : Z) : K (option (list Z)) :=
  i ← myproc;
  p ← getp i;
  copyinstr (p_pagetable p) addr max.

Definition argraw (n : Z) : K Z :=
  i ← myproc;
  p ← getp i;
  if (0 <=? n) && (n <=? 5)
  then gets (λ s, ld64 (k_mem s) (p_trapframe p + tf_a n))
  else panic "argraw".
Definition argint (n : Z) : K Z := v ← argraw n; ret (i32 v).
Definition argaddr (n : Z) : K Z := argraw n.
Definition argstr (n max : Z) : K (option (list Z)) :=
  addr ← argaddr n; fetchstr addr max.

(** ** Processes (sysproc.c); the result is the [uint64] that is stored in [a0] *)

Definition sys_exit : K Z := n ← argint 0; kexit n ;; ret 0.
Definition sys_getpid : K Z := i ← myproc; p ← getp i; ret (u64 (p_pid p)).
Definition sys_fork : K Z := r ← kfork; ret (u64 r).
Definition sys_wait : K Z := p ← argaddr 0; r ← kwait p; ret (u64 r).

Definition sys_sbrk : K Z :=
  n ← argint 0;
  t ← argint 1;
  i ← myproc;
  p ← getp i;
  let addr := p_sz p in
  if (t =? SBRK_EAGER) || (n <? 0) then
    r ← growproc n;
    if r <? 0 then ret (u64 (-1)) else ret addr
  else
    if u64 (addr + n) <? addr then ret (u64 (-1)) else
    if TRAPFRAME <? u64 (addr + n) then ret (u64 (-1)) else
    modp i (λ p, set_p_sz (u64 (p_sz p + n)) p) ;;
    ret addr.

(** [while (ticks - ticks0 < n)]: [ticks] is unsigned, so that [n] is converted to
    unsigned. *)
Definition tick_wait (ticks0 n : Z) : K Z :=
  sleep_loop
    (t ← gets k_ticks;
     if u32 (t - ticks0) <? u32 n then
       i ← myproc;
       k ← killed i;
       if negb (k =? 0) then release LTicks ;; ret (Some (u64 (-1)))
       else sleep ChTicks LTicks ;; ret None
     else release LTicks ;; ret (Some 0)).

Definition sys_pause : K Z :=
  n ← argint 0;
  let n := if n <? 0 then 0 else n in
  acquire LTicks ;;
  ticks0 ← gets k_ticks;
  tick_wait ticks0 n.

Definition sys_kill : K Z := pid ← argint 0; r ← kkill pid; ret (u64 r).

Definition sys_uptime : K Z :=
  acquire LTicks ;;
  xticks ← gets k_ticks;
  release LTicks ;;
  ret (u64 xticks).

Definition sys_sleep : K Z :=
  n ← argint 0;
  acquire LTicks ;;
  ticks0 ← gets k_ticks;
  tick_wait ticks0 n.

(** [struct uproc]: [pid], [priority], [total_ticks] and the 16 bytes of [name],
    which start as [junk]. *)
Definition uproc_of (p : proc) (junk : list Z) : list Z :=
  le_bytes 4 (p_pid p) ++ le_bytes 4 (p_priority p) ++ le_bytes 4 (p_ticks_used p) ++
  safestrcpy (drop 12 junk) (bytes_of (p_name p)) 16.
(** The loop of [sys_getprocinfo]: [inl] after [return -1].  [up] is the local
    [struct uproc]. *)
Fixpoint procinfo_loop (l : list nat) (uaddr idx : Z) (up : list Z) : K (Z + Z) :=
  match l with
  | [] => ret (inr idx)
  | j :: l' =>
      acquire (LProc j) ;;
      p ← getp j;
      if negb (bool_decide (p_state p = UNUSED)) then
        let up := uproc_of p up in
        me ← myproc;
        q ← getp me;
        r ← copyout (p_pagetable q) (u64 (uaddr + idx * 28)) up;
        if r <? 0 then release (LProc j) ;; ret (inl (-1)) else
        release (LProc j) ;;
        procinfo_loop l' uaddr (idx + 1) up
      else
        release (LProc j) ;;
        procinfo_loop l' uaddr idx up
  end.
Definition sys_getprocinfo : K Z :=
  uaddr ← argaddr 0;
  r ← procinfo_loop slots uaddr 0 up_junk;
  ret (u64 (match r with inl v => v | inr idx => idx end)).

(** ** Files (sysfile.c) *)

(** The descriptor and the file; [None] is -1. *)
Definition argfd (n : Z) : K (option (Z * nat)) :=
  fd ← argint n;
  if (fd <? 0) || (Z.of_nat NOFILE <=? fd) then ret None else
  i ← myproc;
  p ← getp i;
  match mjoin (p_ofile p !! Z.to_nat fd) with
  | None => ret None
  | Some f => ret (Some (fd, f))
  end.

Definition fdalloc (f : nat) : K Z :=
  i ← myproc;
  r ← for_list (seq 0 NOFILE) (λ fd,
        p ← getp i;
        match p_ofile p !! fd with
        | Some None =>
            modp i (λ p, set_p_ofile (<[fd := Some f]> (p_ofile p)) p) ;;
            ret (Some (Z.of_nat fd))
        | _ => ret None
        end);
  ret (default (-1) r).
Definition set_ofile (fd : Z) (o : option nat) : K unit :=
  i ← myproc; modp i (λ p, set_p_ofile (<[Z.to_nat fd := o]> (p_ofile p)) p).

Definition minus1 : Z := u64 (-1).

Definition sys_dup : K Z :=
  o ← argfd 0;
  match o with
  | None => ret minus1
  | Some (_, f) =>
      fd ← fdalloc f;
      if fd <? 0 then ret minus1 else
      filedup f ;; ret fd
  end.

Definition sys_read : K Z :=
  p ← argaddr 1;
  n ← argint 2;
  o ← argfd 0;
  match o with
  | None => ret minus1
  | Some (_, f) => r ← fileread f p n; ret (u64 r)
  end.

Definition sys_write : K Z :=
  p ← argaddr 1;
  n ← argint 2;
  o ← argfd 0;
  match o with
  | None => ret minus1
  | Some (_, f) => r ← filewrite f p n; ret (u64 r)
  end.

Definition sys_close : K Z :=
  o ← argfd 0;
  match o with
  | None => ret minus1
  | Some (fd, f) => set_ofile fd None ;; fileclose f ;; ret 0
  end.

Definition sys_fstat : K Z :=
  st ← argaddr 1;
  o ← argfd 0;
  match o with
  | None => ret minus1
  | Some (_, f) => r ← filestat st_pad f st; ret (u64 r)
  end.

(** [bad:] of [sys_link] *)
Definition link_bad (ip : nat) : K Z :=
  ilock ip ;;
  modi ip (λ n, set_i_nlink (i16 (i_nlink n - 1)) n) ;;
  iupdate ip ;;
  iunlockput ip ;;
  end_op ;;
  ret minus1.
Definition sys_link : K Z :=
  old ← argstr 0 MAXPATH;
  match old with None => ret minus1 | Some old =>
  new ← argstr 1 MAXPATH;
  match new with None => ret minus1 | Some new =>
  begin_op ;;
  o ← namei old;
  match o with
  | None => end_op ;; ret minus1
  | Some ip =>
      ilock ip ;;
      n ← geti ip;
      if i_type n =? T_DIR then iunlockput ip ;; end_op ;; ret minus1 else
      modi ip (λ n, set_i_nlink (i16 (i_nlink n + 1)) n) ;;
      iupdate ip ;;
      iunlock ip ;;
      o ← nameiparent new;
      match o with
      | None => link_bad ip
      | Some (dp, name) =>
          ilock dp ;;
          d ← geti dp;
          n ← geti ip;
          r ← (if negb (i_dev d =? i_dev n) then ret (-1) else dirlink dp name (i_inum n));
          if r <? 0 then iunlockput dp ;; link_bad ip else
          iunlockput dp ;;
          iput ip ;;
          end_op ;;
          ret 0
      end
  end end end.

Definition isdirempty (dp : nat) : K bool :=
  d ← geti dp;
  r ← for_list (drop 2 (de_offs (i_size d))) (λ off,
        r ← readi dp DLocal off 16;
        if negb (r.1 =? 16) then panic "isdirempty: readi" else
        if negb (de_inum r.2 =? 0) then ret (Some false) else ret None);
  ret (default true r).

Definition unlink_bad (dp : nat) : K Z := iunlockput dp ;; end_op ;; ret minus1.
Definition sys_unlink : K Z :=
  path ← argstr 0 MAXPATH;
  match path with None => ret minus1 | Some path =>
  begin_op ;;
  o ← nameiparent path;
  match o with
  | None => end_op ;; ret minus1
  | Some (dp, name) =>
      ilock dp ;;
      if (namecmp name (str ".") =? 0) || (namecmp name (str "..") =? 0) then unlink_bad dp else
      o ← dirlookup dp name;
      match o with
      | None => unlink_bad dp
      | Some (ip, off) =>
          ilock ip ;;
          n ← geti ip;
          if i_nlink n <? 1 then panic "unlink: nlink < 1" else
          e ← (if i_type n =? T_DIR then isdirempty ip else ret true);
          if negb e then iunlockput ip ;; unlink_bad dp else
          w ← writei dp (SLocal (replicate 16 0)) off 16;
          if negb (w =? 16) then panic "unlink: writei" else
          n ← geti ip;
          whenM (i_type n =? T_DIR)
            (modi dp (λ d, set_i_nlink (i16 (i_nlink d - 1)) d) ;; iupdate dp) ;;
          iunlockput dp ;;
          modi ip (λ n, set_i_nlink (i16 (i_nlink n - 1)) n) ;;
          iupdate ip ;;
          iunlockput ip ;;
          end_op ;;
          ret 0
      end
  end end.

(** [fail:] of [create] *)
Definition create_fail (ip dp : nat) : K (option nat) :=
  modi ip (set_i_nlink 0) ;;
  iupdate ip ;;
  iunlockput ip ;;
  iunlockput dp ;;
  ret None.
Definition create (path : list Z) (type major minor : Z) : K (option nat) :=
  o ← nameiparent path;
  match o with
  | None => ret None
  | Some (dp, name) =>
      ilock dp ;;
      o ← dirlookup dp name;
      match o with
      | Some (ip, _) =>
          iunlockput dp ;;
          ilock ip ;;
          n ← geti ip;
          if (type =? T_FILE) && ((i_type n =? T_FILE) || (i_type n =? T_DEVICE)) then ret (Some ip)
          else iunlockput ip ;; ret None
      | None =>
          d ← geti dp;
          o ← ialloc (i_dev d) type;
          match o with
          | None => iunlockput dp ;; ret None
          | Some ip =>
              ilock ip ;;
              modi ip (set_i_major major) ;;
              modi ip (set_i_minor minor) ;;
              modi ip (set_i_nlink 1) ;;
              iupdate ip ;;
              n ← geti ip;
              d ← geti dp;
              r ← (if type =? T_DIR then
                     r ← dirlink ip (str ".") (i_inum n);
                     if r <? 0 then ret (-1) else dirlink ip (str "..") (i_inum d)
                   else ret 0);
              if r <? 0 then create_fail ip dp else
              r ← dirlink dp name (i_inum n);
              if r <? 0 then create_fail ip dp else
              whenM (type =? T_DIR)
                (modi dp (λ d, set_i_nlink (i16 (i_nlink d + 1)) d) ;; iupdate dp) ;;
              iunlockput dp ;;
              ret (Some ip)
          end
      end
  end.

(** [sys_open] once the inode is locked. *)
Definition open_inode (ip : nat) (omode : Z) : K Z :=
  n ← geti ip;
  if (i_type n =? T_DEVICE) && ((i_major n <? 0) || (NDEV <=? i_major n)) then
    iunlockput ip ;; end_op ;; ret minus1 else
  f ← filealloc;
  match f with
  | None => iunlockput ip ;; end_op ;; ret minus1
  | Some f =>
      fd ← fdalloc f;
      if fd <? 0 then fileclose f ;; iunlockput ip ;; end_op ;; ret minus1 else
      (if i_type n =? T_DEVICE then
         modf f (set_f_type FD_DEVICE) ;; modf f (set_f_major (i_major n))
       else
         modf f (set_f_type FD_INODE) ;; modf f (set_f_off 0)) ;;
      modf f (set_f_ip (Some ip)) ;;
      modf f (set_f_readable (Z.land omode O_WRONLY =? 0)) ;;
      modf f (set_f_writable (negb (Z.land omode O_WRONLY =? 0) || negb (Z.land omode O_RDWR =? 0))) ;;
      whenM (negb (Z.land omode O_TRUNC =? 0) && (i_type n =? T_FILE)) (itrunc ip) ;;
      iunlock ip ;;
      end_op ;;
      ret fd
  end.
Definition sys_open : K Z :=
  omode ← argint 1;
  path ← argstr 0 MAXPATH;
  match path with None => ret minus1 | Some path =>
  begin_op ;;
  if negb (Z.land omode O_CREATE =? 0) then
    o ← create path T_FILE 0 0;
    match o with
    | None => end_op ;; ret minus1
    | Some ip => open_inode ip omode
    end
  else
    o ← namei path;
    match o with
    | None => end_op ;; ret minus1
    | Some ip =>
        ilock ip ;;
        n ← geti ip;
        if (i_type n =? T_DIR) && negb (omode =? O_RDONLY) then
          iunlockput ip ;; end_op ;; ret minus1
        else open_inode ip omode
    end
  end.

Definition sys_mkdir : K Z :=
  begin_op ;;
  path ← argstr 0 MAXPATH;
  o ← (match path with None => ret None | Some path => create path T_DIR 0 0 end);
  match o with
  | None => end_op ;; ret minus1
  | Some ip => iunlockput ip ;; end_op ;; ret 0
  end.

Definition sys_mknod : K Z :=
  begin_op ;;
  major ← argint 1;
  minor ← argint 2;
  path ← argstr 0 MAXPATH;
  o ← (match path with
       | None => ret None
       | Some path => create path T_DEVICE (i16 major) (i16 minor)
       end);
  match o with
  | None => end_op ;; ret minus1
  | Some ip => iunlockput ip ;; end_op ;; ret 0
  end.

Definition sys_chdir : K Z :=
  i ← myproc;
  begin_op ;;
  path ← argstr 0 MAXPATH;
  o ← (match path with None => ret None | Some path => namei path end);
  match o with
  | None => end_op ;; ret minus1
  | Some ip =>
      ilock ip ;;
      n ← geti ip;
      if negb (i_type n =? T_DIR) then iunlockput ip ;; end_op ;; ret minus1 else
      iunlock ip ;;
      p ← getp i;
      c ← unwrap "cwd" (p_cwd p);
      iput c ;;
      end_op ;;
      modp i (set_p_cwd (Some ip)) ;;
      ret 0
  end.

(** The loop of [sys_exec]: the pages that hold the strings and the strings; the
    flag is false for [goto bad]. *)
Fixpoint exec_args (n : nat) (uarg : Z) (pages : list Z) (argv : list (list Z)) :
    K (bool * list Z * list (list Z)) :=
  match n with
  | O => ret (false, pages, argv)
  | S n' =>
      o ← fetchaddr uarg;
      match o with
      | None => ret (false, pages, argv)
      | Some a =>
          if a =? 0 then ret (true, pages, argv) else
          pg ← kalloc;
          if pg =? 0 then ret (false, pages, argv) else
          o ← fetchstr a PGSIZE;
          match o with
          | None => ret (false, pages ++ [pg], argv)
          | Some arg =>
              modmem (λ m, st_bytes m pg (arg ++ [0])) ;;
              exec_args n' (u64 (uarg + 8)) (pages ++ [pg]) (argv ++ [arg])
          end
      end
  end.
Definition sys_exec : K Z :=
  uargv ← argaddr 1;
  path ← argstr 0 MAXPATH;
  match path with None => ret minus1 | Some path =>
  r ← exec_args MAXARG uargv [] [];
  let '(ok, pages, argv) := r in
  if (ok : bool) then
    v ← kexec path argv;
    for_each pages kfree ;;
    ret (u64 v)
  else for_each pages kfree ;; ret minus1
  end.

Definition sys_pipe : K Z :=
  i ← myproc;
  fdarray ← argaddr 0;
  o ← pipealloc;
  match o with
  | None => ret minus1
  | Some (rf, wf) =>
      fd0 ← fdalloc rf;
      if fd0 <? 0 then fileclose rf ;; fileclose wf ;; ret minus1 else
      fd1 ← fdalloc wf;
      if fd1 <? 0 then set_ofile fd0 None ;; fileclose rf ;; fileclose wf ;; ret minus1 else
      p ← getp i;
      r ← copyout (p_pagetable p) fdarray (le_bytes 4 fd0);
      r ← (if r <? 0 then ret (-1)
           else copyout (p_pagetable p) (u64 (fdarray + 4)) (le_bytes 4 fd1));
      if r <? 0 then
        set_ofile fd0 None ;; set_ofile fd1 None ;;
        fileclose rf ;; fileclose wf ;;
        ret minus1
      else ret 0
  end.

(** ** Dispatch *)

Definition syscalls (num : Z) : option (K Z) :=
  match num with
  | 1 => Some sys_fork | 2 => Some sys_exit | 3 => Some sys_wait | 4 => Some sys_pipe
  | 5 => Some sys_read | 6 => Some sys_kill | 7 => Some sys_exec | 8 => Some sys_fstat
  | 9 => Some sys_chdir | 10 => Some sys_dup | 11 => Some sys_getpid | 12 => Some sys_sbrk
  | 13 => Some sys_pause | 14 => Some sys_uptime | 15 => Some sys_open | 16 => Some sys_write
  | 17 => Some sys_mknod | 18 => Some sys_unlink | 19 => Some sys_link | 20 => Some sys_mkdir
  | 21 => Some sys_close | 22 => Some sys_sleep | 23 => Some sys_getprocinfo
  | _ => None
  end.

Definition syscall : K unit :=
  i ← myproc;
  p ← getp i;
  a7 ← gets (λ s, ld64 (k_mem s) (p_trapframe p + tf_a 7));
  let num := i32 a7 in
  r ← (match syscalls num with
       | Some f => f
       | None =>
           printk (str "%d %s: unknown sys call %d" ++ [10])
             [KInt (p_pid p); KStr (Some (cstr (bytes_of (p_name p)) 16)); KInt num] ;;
           ret minus1
       end);
  p ← getp i;
  modmem (λ m, st64 m (p_trapframe p + tf_a 0) r).
End syscall.
