(* ===== verification/Trap.v ===== *)
(** * kernel/trap.c, kernel/plic.c, [forkret] of kernel/proc.c

    Traps from user space and from the kernel, device and timer interrupts, and
    the way back to user space. *)
From Stdlib Require Import ZArith Lia.
From stdpp Require Import base list gmap numbers strings.
From S2P Require Import Prelude Machine KString Bytes State Printk Kalloc Sched Vm Console Virtio Bio Log Fs File Proc Exec Syscall.
Local Open Scope Z_scope.
Local Open Scope kernel_scope.

(** riscv.h, memlayout.h *)
Definition SSTATUS_SPP : Z := Z.shiftl 1 8.
Definition SSTATUS_SPIE : Z := Z.shiftl 1 5.
Definition UART0_IRQ : Z := 10.
Definition PLIC : Z := 0x0c000000.
Definition VIRTIO0_IRQ : Z := 1.
Definition MAKE_SATP (pagetable : Z) : Z := Z.lor (Z.shiftl 8 60) (Z.shiftr pagetable 12).

Section trap.
Context {L : Layout} {F : Fuel} {J : Stack}.

(** ** Code *)

Definition modcsr (f : csrs → csrs) : K unit := modify (λ s, set_k_csr (f (k_csr s)) s).
Definition csr (f : csrs → Z) : K Z := gets (λ s, f (k_csr s)).

Definition trapinithart : K unit := modcsr (set_r_stvec a_kernelvec).

(** The interrupt controller: the priority of a source, whether a hart's S-mode takes it,
    and the sources that wait to be claimed: those pending, of a priority above 0, that are
    not being served already. Of several the controller hands out the one of the highest
    priority, and of those the one of the lowest number. *)
Definition PLIC_SENABLE (hart : nat) : Z := PLIC + 0x2080 + Z.of_nat hart * 0x100.
Definition PLIC_SPRIORITY (hart : nat) : Z := PLIC + 0x201000 + Z.of_nat hart * 0x2000.
Definition plic_reg (p : plicstate) (a : Z) : Z := default 0 (pl_regs p !! a).
Definition plic_prio (p : plicstate) (irq : Z) : Z := plic_reg p (PLIC + irq * 4).
Definition plic_enabled (p : plicstate) (hart : nat) (irq : Z) : bool :=
  Z.testbit (plic_reg p (PLIC_SENABLE hart + 4 * (irq / 32))) (irq mod 32).
Definition plic_ready (p : plicstate) (hart : nat) (irq : Z) : bool :=
  (0 <? plic_prio p irq) && plic_enabled p hart irq && bool_decide (irq ∉ pl_served p).
Definition plic_before (p : plicstate) (i j : Z) : bool :=
  (plic_prio p j <? plic_prio p i) || ((plic_prio p j =? plic_prio p i) && (i <? j)).
Definition plic_next (p : plicstate) (hart : nat) (pending : list Z) : Z :=
  foldr (λ i best, if (best =? 0) || plic_before p i best then i else best) 0
    (filter (λ i, plic_ready p hart i = true) pending).

Definition plic_write (a v : Z) : K unit :=
  modify (λ s, set_k_plic (mkPlic (<[a := u32 v]> (pl_regs (k_plic s))) (pl_served (k_plic s))) s).

Definition plicinit : K unit :=
  plic_write (PLIC + UART0_IRQ * 4) 1 ;;
  plic_write (PLIC + VIRTIO0_IRQ * 4) 1.

Definition plicinithart : K unit :=
  hart ← gets k_hart;
  plic_write (PLIC_SENABLE hart) (Z.lor (Z.shiftl 1 UART0_IRQ) (Z.shiftl 1 VIRTIO0_IRQ)) ;;
  plic_write (PLIC_SPRIORITY hart) 0.

(** A read of the claim register takes the next interrupt out of the pending ones and
    marks it as being served; it reads 0 when there is none. *)
Definition plic_claim : K Z :=
  hart ← gets k_hart;
  p ← gets k_plic;
  q ← gets k_irqs;
  let irq := plic_next p hart q in
  whenM (negb (irq =? 0))
    (modify (set_k_irqs (filter (.≠ irq) q)) ;;
     modify (set_k_plic (mkPlic (pl_regs p) (irq :: pl_served p)))) ;;
  ret irq.

(** A write to it ends the service, of an interrupt the hart takes. *)
Definition plic_complete (irq : Z) : K unit :=
  hart ← gets k_hart;
  p ← gets k_plic;
  whenM (plic_enabled p hart irq)
    (modify (set_k_plic (mkPlic (pl_regs p) (filter (.≠ irq) (pl_served p))))).

Definition clockintr : K unit :=
  h ← gets k_hart;
  whenM (h =? 0)%nat
    (acquire LTicks ;;
     modify (λ s, set_k_ticks (u32 (k_ticks s + 1)) s) ;;
     wakeup ChTicks ;;
     release LTicks) ;;
  t ← csr r_time;
  modcsr (set_r_stimecmp (u64 (t + 1000000))).

Definition devintr : K Z :=
  scause ← csr r_scause;
  if scause =? 0x8000000000000009 then
    irq ← plic_claim;
    (if irq =? UART0_IRQ then uartintr
     else if irq =? VIRTIO0_IRQ then virtio_disk_intr
     else whenM (negb (irq =? 0))
            (printk (str "unexpected interrupt irq=%d" ++ [10]) [KInt irq])) ;;
    whenM (negb (irq =? 0)) (plic_complete irq) ;;
    ret 1
  else if scause =? 0x8000000000000005 then clockintr ;; ret 2
  else ret 0.

Definition prepare_return : K unit :=
  i ← myproc;
  p ← getp i;
  intr_off ;;
  modcsr (set_r_stvec (u64 (TRAMPOLINE + (a_uservec - trampoline)))) ;;
  satp ← csr r_satp;
  modmem (λ m, st64 m (p_trapframe p + tf_kernel_satp) satp) ;;
  modmem (λ m, st64 m (p_trapframe p + tf_kernel_sp) (u64 (p_kstack p + PGSIZE))) ;;
  modmem (λ m, st64 m (p_trapframe p + tf_kernel_trap) a_usertrap) ;;
  h ← gets k_hart;
  modmem (λ m, st64 m (p_trapframe p + tf_kernel_hartid) (Z.of_nat h)) ;;
  x ← csr r_sstatus;
  modcsr (set_r_sstatus (Z.lor (Z.land x (Z.lnot SSTATUS_SPP)) SSTATUS_SPIE)) ;;
  epc ← gets (λ s, ld64 (k_mem s) (p_trapframe p + tf_epc));
  modcsr (set_r_sepc epc).

(** The result is the value of [satp] for trampoline.S. *)
Definition usertrap : K Z :=
  st ← csr r_sstatus;
  if negb (Z.land st SSTATUS_SPP =? 0) then panic "usertrap: not from user mode" else
  modcsr (set_r_stvec a_kernelvec) ;;
  i ← myproc;
  p ← getp i;
  epc ← csr r_sepc;
  modmem (λ m, st64 m (p_trapframe p + tf_epc) epc) ;;
  scause ← csr r_scause;
  which_dev ←
    (if scause =? 8 then
       k ← killed i;
       whenM (negb (k =? 0)) (kexit (-1)) ;;
       modmem (λ m, st64 m (p_trapframe p + tf_epc) (u64 (ld64 m (p_trapframe p + tf_epc) + 4))) ;;
       intr_on ;;
       syscall ;;
       ret 0
     else
       d ← devintr;
       if negb (d =? 0) then ret d else
       stval ← csr r_stval;
       ok ← (if (scause =? 15) || (scause =? 13) then
               p ← getp i;
               r ← vmfault (p_pagetable p) stval;
               ret (negb (r =? 0))
             else ret false);
       if (ok : bool) then ret 0 else
       printk (str "usertrap(): unexpected scause 0x%lx pid=%d" ++ [10])
         [KInt scause; KInt (p_pid p)] ;;
       printk (str "            sepc=0x%lx stval=0x%lx" ++ [10]) [KInt epc; KInt stval] ;;
       setkilled i ;;
       ret 0);
  k ← killed i;
  whenM (negb (k =? 0)) (kexit (-1)) ;;
  whenM (which_dev =? 2) timer_tick ;;
  prepare_return ;;
  p ← getp i;
  ret (MAKE_SATP (p_pagetable p)).

Definition kerneltrap : K unit :=
  sepc ← csr r_sepc;
  sstatus ← csr r_sstatus;
  scause ← csr r_scause;
  if Z.land sstatus SSTATUS_SPP =? 0 then panic "kerneltrap: not from supervisor mode" else
  on ← gets intr_get;
  if (on : bool) then panic "kerneltrap: interrupts enabled" else
  which_dev ← devintr;
  if which_dev =? 0 then
    stval ← csr r_stval;
    printk (str "scause=0x%lx sepc=0x%lx stval=0x%lx" ++ [10]) [KInt scause; KInt sepc; KInt stval] ;;
    panic "kerneltrap"
  else
  me ← gets cur;
  whenM ((which_dev =? 2) && negb (bool_decide (me = None))) yield ;;
  modcsr (set_r_sepc sepc) ;;
  modcsr (set_r_sstatus sstatus).

(** proc.c.  The result is the value of [satp] for [userret]. *)
Definition forkret : K Z :=
  i ← myproc;
  release (LProc i) ;;
  first ← gets k_first;
  whenM first
    (fsinit ROOTDEV ;;
     modify (set_k_first false) ;;
     r ← kexec (str "/init") [str "/init"];
     p ← getp i;
     modmem (λ m, st64 m (p_trapframe p + tf_a 0) (u64 r)) ;;
     if r =? -1 then panic "exec" else ret tt) ;;
  prepare_return ;;
  p ← getp i;
  ret (MAKE_SATP (p_pagetable p)).
End trap.
