(* ===== verification/Boot.v ===== *)
(** * kernel/main.c and the kernel page table of kernel/vm.c

    Booting hart 0: [kvmmake] and the initialisation of every component in the
    order of [main]. *)
From Stdlib Require Import ZArith Lia.
From stdpp Require Import base list gmap numbers strings.
From S2P Require Import Prelude Machine KString Bytes State Printk Kalloc Sched Vm Console Virtio Bio Log Fs File Proc Exec Syscall Trap.
Local Open Scope Z_scope.
Local Open Scope kernel_scope.

(** memlayout.h *)
Definition UART0 : Z := 0x10000000.
Definition VIRTIO0 : Z := 0x10001000.

Section boot.
Context {L : Layout} {F : Fuel} {J : Stack}.

(** proc.c *)
Definition proc_mapstacks (kpgtbl : Z) : K unit :=
  for_each slots (λ i,
    pa ← kalloc;
    if pa =? 0 then panic "kalloc" else
    kvmmap kpgtbl (KSTACK (Z.of_nat i)) pa PGSIZE (Z.lor PTE_R PTE_W)).

(** vm.c: the result of the first [kalloc] is not tested. *)
Definition kvmmake : K Z :=
  kpgtbl ← kalloc;
  if kpgtbl =? 0 then undef "kvmmake: memset(0)" else
  modmem (λ m, memset m kpgtbl 0 PGSIZE) ;;
  kvmmap kpgtbl UART0 UART0 PGSIZE (Z.lor PTE_R PTE_W) ;;
  kvmmap kpgtbl VIRTIO0 VIRTIO0 PGSIZE (Z.lor PTE_R PTE_W) ;;
  kvmmap kpgtbl PLIC PLIC 0x4000000 (Z.lor PTE_R PTE_W) ;;
  kvmmap kpgtbl KERNBASE KERNBASE (etext - KERNBASE) (Z.lor PTE_R PTE_X) ;;
  kvmmap kpgtbl etext etext (PHYSTOP - etext) (Z.lor PTE_R PTE_W) ;;
  kvmmap kpgtbl TRAMPOLINE trampoline PGSIZE (Z.lor PTE_R PTE_X) ;;
  proc_mapstacks kpgtbl ;;
  ret kpgtbl.

Definition kvminit : K unit := t ← kvmmake; modify (set_k_kpgtbl t).
Definition kvminithart : K unit :=
  t ← gets k_kpgtbl; modcsr (set_r_satp (MAKE_SATP t)).

(** [main] on hart 0, up to the call of [scheduler]; [reg] is the registers of the
    disk device. *)
Definition main (reg : Z → Z) : K unit :=
  consoleinit ;;
  printk [10] [] ;;
  printk (str "xv6 kernel is booting" ++ [10]) [] ;;
  printk [10] [] ;;
  kinit ;;
  kvminit ;;
  kvminithart ;;
  procinit ;;
  trapinithart ;;
  plicinit ;;
  plicinithart ;;
  binit ;;
  iinit ;;
  fileinit ;;
  virtio_disk_init reg ;;
  userinit ;;
  modify (set_k_started true).

(** [main] on the other harts, which wait for [started]. *)
Definition main_secondary : K unit :=
  started ← gets k_started;
  if negb started then nofuel else
  h ← gets k_hart;
  printk (str "hart %d starting" ++ [10]) [KInt (Z.of_nat h)] ;;
  kvminithart ;;
  trapinithart ;;
  plicinithart.
End boot.
