(* ===== verification/Typed.v ===== *)
(** * Well-formed kernel states

    The invariant [typed] of the kernel state: every table has its length, every
    index kept in a table (an open file, the inode of a file, a parent, the links of
    the buffer list, the next descriptor) is an index of the table it points into, and
    every process is in one of the three lanes with a stopwatch within its quantum.
    [has m Q] says that kernel code [m] keeps the invariant: whatever the switches in
    between do to the state, as long as they keep it too, [m] keeps it, returns only
    values satisfying [Q], and never accesses a table outside its bounds.  This file
    has the rules of [has] and the code of the lower half of the kernel, up to the
    log. *)
From Stdlib Require Import ZArith Lia.
From stdpp Require Import base list gmap numbers strings.
From S2P Require Import Prelude Machine KString Bytes State Printk Kalloc Sched Vm Console Virtio Bio Log.
Local Open Scope Z_scope.
Local Open Scope kernel_scope.

Create HintDb typing discriminated.

(** ** The invariant *)

Definition below (n : nat) (o : option nat) : Prop :=
  match o with Some i => (i < n)%nat | None => True end.

(** The lanes: less than 5 ticks in lane 0, less than 10 in lane 1, any [int] in lane 2. *)
Definition in_lane (priority ticks : Z) : Prop :=
  priority = 0 ∧ 0 ≤ ticks < 5 ∨ priority = 1 ∧ 0 ≤ ticks < 10 ∨
  priority = 2 ∧ - 2 ^ 31 ≤ ticks < 2 ^ 31.

Record proc_ok (p : proc) : Prop := {
  ok_lane : in_lane (p_priority p) (p_ticks_used p);
  ok_ofile_len : length (p_ofile p) = NOFILE;
  ok_ofile : Forall (below NFILE) (p_ofile p);
  ok_cwd : below NINODE (p_cwd p);
  ok_parent : below NPROC (p_parent p);
  ok_name : length (p_name p) = 16%nat;
}.

Record buf_ok (b : buf) : Prop := {
  ok_data : length (b_data b) = Z.to_nat BSIZE;
  ok_prev : (b_prev b ≤ NBUF)%nat;
  ok_next : (b_next b ≤ NBUF)%nat;
}.

Definition inode_ok (ip : inode) : Prop := length (i_addrs ip) = 13%nat.
Definition file_ok (f : file) : Prop := below NINODE (f_ip f).
Definition pipe_ok (p : pipe) : Prop := length (pi_data p) = 512%nat.
Definition is_desc (i : Z) : Prop := 0 ≤ i < Z.of_nat NUM.

Record vdisk_ok (v : vdisk) : Prop := {
  ok_desc_len : length (v_desc v) = NUM;
  ok_desc : Forall (λ d, is_desc (d_next d)) (v_desc v);
  ok_avail_len : length (v_avail v) = NUM;
  ok_avail : Forall is_desc (v_avail v);
  ok_used_len : length (v_used v) = NUM;
  ok_used : Forall is_desc (v_used v);
  ok_free : length (v_free v) = NUM;
  ok_info_len : length (v_info_b v) = NUM;
  ok_info : Forall (below NBUF) (v_info_b v);
  ok_status : length (v_status v) = NUM;
  ok_ops : length (v_ops v) = NUM;
}.

Record typed (s : kstate) : Prop := {
  ok_cpus_len : length (k_cpus s) = NCPU;
  ok_cpus : Forall (below NPROC) (k_cpus s);
  ok_procs_len : length (k_procs s) = NPROC;
  ok_procs : Forall proc_ok (k_procs s);
  ok_initproc : below NPROC (k_initproc s);
  ok_bufs_len : length (k_bufs s) = S NBUF;
  ok_bufs : Forall buf_ok (k_bufs s);
  ok_log : length (l_block (k_log s)) = Z.to_nat LOGBLOCKS;
  ok_itable_len : length (k_itable s) = NINODE;
  ok_itable : Forall inode_ok (k_itable s);
  ok_ftable_len : length (k_ftable s) = NFILE;
  ok_ftable : Forall file_ok (k_ftable s);
  ok_pipes : map_Forall (λ _, pipe_ok) (k_pipes s);
  ok_cons : length (c_buf (k_cons s)) = Z.to_nat INPUT_BUF_SIZE;
  ok_vd : vdisk_ok (k_vd s);
  ok_disk : map_Forall (λ _ l, length l = Z.to_nat BSIZE) (k_disk s);
  ok_devsw : length (k_devsw s) = Z.to_nat NDEV;
  ok_ticks : 0 ≤ k_ticks s < 2 ^ 32;
}.

(** ** The judgement *)

(** The undefined behaviours that are accesses outside a table. *)
Definition out_of_bounds (msg : string) : bool :=
  bool_decide (msg ∈ ["proc"; "buf"; "inode"; "file"; "info"; "free_chain"]%string).

Fixpoint ok {A} (r : res kstate A) (Q : A → Prop) : Prop :=
  match r with
  | Ret a s => typed s ∧ Q a
  | Panic _ _ => True
  | Undef msg _ => out_of_bounds msg = false
  | Swtch s k => typed s ∧ ∀ s', typed s' → ok (k s') Q
  | NoFuel => True
  end.
Definition has {A} (m : K A) (Q : A → Prop) : Prop := ∀ s, typed s → ok (m s) Q.
Definition any {A} (_ : A) : Prop := True.

Lemma ok_mono {A} (r : res kstate A) (P Q : A → Prop) : ok r P → (∀ a, P a → Q a) → ok r Q.
Proof.
  intros H HPQ. induction r as [a s|e s|e s|s k IH|]; cbn in *; [|done|done| |done].
  - destruct H. eauto.
  - destruct H as [Hs Hk]. split; [done|]. intros s' Hs'. apply IH. by apply Hk.
Qed.
Lemma has_mono {A} (m : K A) (P Q : A → Prop) : has m P → (∀ a, P a → Q a) → has m Q.
Proof. intros H HPQ s Hs. by eapply ok_mono; [apply H|]. Qed.
Lemma has_any {A} (m : K A) (P : A → Prop) : has m P → has m any.
Proof. intros H. by eapply has_mono. Qed.

Lemma has_ret {A} (a : A) (Q : A → Prop) : Q a → has (ret a) Q.
Proof. by intros Ha s Hs. Qed.
Lemma ok_bind {A B} (r : res kstate A) (f : A → K B) (P : A → Prop) (Q : B → Prop) :
  ok r P → (∀ a, P a → has (f a) Q) → ok (res_bind r f) Q.
Proof.
  intros H Hf. induction r as [a s|e s|e s|s k IH|]; cbn in *; [|done|done| |done].
  - destruct H as [Hs Ha]. by apply Hf.
  - destruct H as [Hs Hk]. split; [done|]. intros s' Hs'. apply IH. by apply Hk.
Qed.
Lemma has_bind {A B} (m : K A) (f : A → K B) (P : A → Prop) (Q : B → Prop) :
  has m P → (∀ a, P a → has (f a) Q) → has (bind m f) Q.
Proof. intros Hm Hf s Hs. unfold bind. eapply ok_bind; [by apply Hm|done]. Qed.
Lemma has_assoc {A B C} (m : K A) (f : A → K B) (g : B → K C) (Q : C → Prop) :
  has (bind m (λ a, bind (f a) g)) Q → has (bind (bind m f) g) Q.
Proof.
  intros H s Hs. specialize (H s Hs). unfold bind in *.
  induction (m s) as [a s1|e s1|e s1|s1 k IH|]; cbn in *; try done.
  destruct H as [H1 H2]. split; [done|]. intros s' Hs'. apply IH. by apply H2.
Qed.
Lemma has_bind_ret {A B} (a : A) (f : A → K B) (Q : B → Prop) : has (f a) Q → has (bind (ret a) f) Q.
Proof. done. Qed.
Lemma has_panic {A} msg (Q : A → Prop) : has (panic msg) Q.
Proof. by intros s Hs. Qed.
Lemma has_nofuel {A} (Q : A → Prop) : has nofuel Q.
Proof. by intros s Hs. Qed.
Lemma has_undef {A} msg (Q : A → Prop) : out_of_bounds msg = false → has (undef msg) Q.
Proof. by intros H s Hs. Qed.
Lemma has_unwrap {A} msg (o : option A) (Q : A → Prop) :
  (o = None → out_of_bounds msg = false) → (∀ a, o = Some a → Q a) → has (unwrap msg o) Q.
Proof. destruct o; cbn; [|by intros; apply has_undef; auto]. intros _ HQ. apply has_ret. by apply HQ. Qed.
Lemma has_gets {A} (f : kstate → A) (Q : A → Prop) : (∀ s, typed s → Q (f s)) → has (gets f) Q.
Proof. intros Hf s Hs. by split; [|apply Hf]. Qed.
Lemma has_gets_any {A} (f : kstate → A) : has (gets f) any.
Proof. by apply has_gets. Qed.
Lemma has_modify f : (∀ s, typed s → typed (f s)) → has (modify f) any.
Proof. intros Hf s Hs. by split; [apply Hf|]. Qed.
Lemma has_swtch : has swtch any.
Proof. intros s Hs. split; [done|]. by intros. Qed.
Lemma has_whenM b (m : K unit) : (b = true → has m any) → has (whenM b m) any.
Proof. destruct b; cbn; [by auto|]. intros _. by apply has_ret. Qed.
Lemma has_for_each {X} (l : list X) (body : X → K unit) :
  (∀ x, x ∈ l → has (body x) any) → has (for_each l body) any.
Proof.
  induction l as [|x l IH]; cbn [for_each]; intros Hb; [by apply has_ret|].
  eapply has_bind; [apply Hb, elem_of_cons; by left|]. intros _ _. apply IH. intros y Hy. apply Hb, elem_of_cons. by right.
Qed.
Lemma has_for_list {X A} (l : list X) (body : X → K (option A)) (Q : A → Prop) :
  (∀ x, x ∈ l → has (body x) (from_option Q True)) → has (for_list l body) (from_option Q True).
Proof.
  induction l as [|x l IH]; cbn [for_list]; intros Hb; [by apply has_ret|].
  eapply has_bind; [apply Hb, elem_of_cons; by left|]. intros [a|] Ha; [by apply has_ret|].
  apply IH. intros y Hy. apply Hb, elem_of_cons. by right.
Qed.
Lemma has_for_list_any {X A} (l : list X) (body : X → K (option A)) :
  (∀ x, x ∈ l → has (body x) any) → has (for_list l body) any.
Proof.
  intros Hb. eapply has_any, (has_for_list _ _ any). intros x Hx. eapply has_mono; [by apply Hb|]. by intros [a|].
Qed.
Lemma has_loop {A} n (body : K (option A)) (Q : A → Prop) :
  has body (from_option Q True) → has (loop n body) Q.
Proof.
  intros Hb. induction n as [|n IH]; cbn [loop]; [apply has_nofuel|].
  eapply has_bind; [apply Hb|]. intros [a|] Ha; [by apply has_ret|done].
Qed.
Lemma has_sleep_loop `{F : Fuel} {A} (body : K (option A)) (Q : A → Prop) :
  has body (from_option Q True) → has (sleep_loop body) Q.
Proof. apply has_loop. Qed.

(** [ty] goes through a function: the rules of the monad, case distinctions of the
    code, and the lemmas of the database [typing] at calls. [ty_side] is for the side
    conditions. *)
#[export] Hint Extern 1 (out_of_bounds _ = false) => reflexivity : typing.
#[export] Hint Extern 3 (_ < _)%nat => lia : typing.
#[export] Hint Extern 3 (_ ≤ _)%nat => lia : typing.
#[export] Hint Extern 3 (any _) => exact I : typing.
#[export] Hint Extern 3 (from_option _ True _) => exact I : typing.

Ltac ty_side := cbn beta in *; try solve [done | lia | eauto with typing].
Ltac ty_call := eauto 6 with typing.
Ltac ty_step :=
  match goal with
  | |- has (let _ := _ in _) _ => cbv zeta
  | |- has (ret _) _ => apply has_ret
  | |- has (panic _) _ => apply has_panic
  | |- has nofuel _ => apply has_nofuel
  | |- has (undef _) _ => apply has_undef; reflexivity
  | |- has (bind (if ?b then _ else _) _) _ => destruct b eqn:?
  | |- has (bind (match ?x with _ => _ end) _) _ => destruct x eqn:?
  | |- has (bind (bind _ _) _) _ => apply has_assoc
  | |- has (bind (ret ?a) _) _ => apply has_bind_ret
  | |- has (bind _ _) _ => eapply has_bind; [solve [ty_call]|intros ? ?]
  | |- has (bind (whenM _ _) _) _ => eapply has_bind; [apply has_whenM; intros ?|intros ? ?]
  | |- has (bind (for_each _ _) _) _ => eapply has_bind; [apply has_for_each; intros ? ?|intros ? ?]
  | |- has (bind (sleep_loop _) _) _ => apply (has_bind _ _ any); [apply has_sleep_loop|intros ? ?]
  | |- has (bind (for_list _ _) _) _ => eapply has_bind; [apply has_for_list_any; intros ? ?|intros ? ?]
  | |- has (for_list _ _) any => apply has_for_list_any; intros ? ?
  | |- has (if ?b then _ else _) _ => destruct b eqn:?
  | |- has (match ?x with _ => _ end) _ => destruct x eqn:?
  | |- has (whenM _ _) _ => apply has_whenM; intros ?
  | |- has (for_each _ _) _ => apply has_for_each; intros ? ?
  | |- has (sleep_loop _) _ => apply has_sleep_loop
  | |- has _ any => solve [ty_call | eapply has_any; ty_call]
  | |- has _ _ => solve [ty_call | eapply has_mono; [solve [ty_call]|intros; ty_side]]
  end.
Ltac ty := intros; repeat (ty_step; cbn [from_option below] in * ); ty_side.

(** ** Reads and writes of the tables *)

Lemma Forall_alter_fn {A} (P : A → Prop) (f : A → A) i l :
  Forall P l → (∀ x, P x → P (f x)) → Forall P (alter f i l).
Proof.
  intros Hl Hf. rewrite Forall_lookup in *. intros j x. destruct (decide (i = j)) as [->|Hne].
  - rewrite list_lookup_alter_eq. destruct (l !! j) eqn:E; cbn; [|done]. intros [= <-]. eauto.
  - rewrite list_lookup_alter_ne by done. eauto.
Qed.
Lemma lookup_inside {A} (l : list A) n i : length l = n → (i < n)%nat → l !! i ≠ None.
Proof. intros <- Hi. by apply lookup_lt_is_Some_2, not_eq_None_Some in Hi. Qed.
Lemma Forall_nth {A} (P : A → Prop) (l : list A) i d : Forall P l → P d → P (nth i l d).
Proof.
  intros Hl Hd. rewrite nth_lookup. destruct (l !! i) eqn:E; cbn; [|done]. by eapply Forall_lookup_1.
Qed.
#[export] Hint Resolve Forall_insert_ok : typing.

(** Updates of one field that leave the invariant alone. *)
Ltac keep :=
  let H := fresh in
  intros ? H; destruct H; constructor; kcbn; cbn; rewrite ?length_insert, ?length_alter; eauto with typing.

Lemma has_modp i f : (i < NPROC)%nat → (∀ p, proc_ok p → proc_ok (f p)) → has (modp i f) any.
Proof.
  intros _ Hf. apply has_modify. keep. by apply Forall_alter_fn.
Qed.
Lemma has_getp i : (i < NPROC)%nat → has (getp i) proc_ok.
Proof.
  intros Hi s Hs. unfold getp. rewrite bind_gets. pose proof (lookup_inside _ _ i (ok_procs_len s Hs) Hi).
  destruct (k_procs s !! i) as [p|] eqn:E; [|done]. split; [done|].
  by eapply Forall_lookup_1; [apply ok_procs|].
Qed.
Lemma cur_ok s : typed s → below NPROC (cur s).
Proof.
  intros Hs. unfold cur. destruct (k_cpus s !! k_hart s) as [o|] eqn:E; cbn; [|done].
  by apply (Forall_lookup_1 _ _ _ _ (ok_cpus s Hs) E).
Qed.
Lemma has_cur : has (gets cur) (below NPROC).
Proof. apply has_gets, cur_ok. Qed.
Lemma has_myproc : has myproc (λ i, (i < NPROC)%nat).
Proof.
  unfold myproc. eapply has_bind; [apply has_cur|]. intros o Ho. apply has_unwrap; [done|]. by intros i ->.
Qed.
Lemma has_initproc : has (gets k_initproc) (below NPROC).
Proof. apply has_gets, ok_initproc. Qed.
Lemma has_modmem f : has (modmem f) any.
Proof. apply has_modify. keep. Qed.
Lemma has_acquire lk : has (acquire lk) any.
Proof. unfold acquire. eapply has_bind; [apply has_gets_any|]. intros [] _; [apply has_panic|]. apply has_modify. keep. Qed.
Lemma has_release lk : has (release lk) any.
Proof. unfold release. eapply has_bind; [apply has_gets_any|]. intros [] _; [|apply has_panic]. apply has_modify. keep. Qed.

Lemma has_modb i f : (i ≤ NBUF)%nat → (∀ b, buf_ok b → buf_ok (f b)) → has (modb i f) any.
Proof. intros _ Hf. apply has_modify. keep. by apply Forall_alter_fn. Qed.
Lemma has_getb i : (i ≤ NBUF)%nat → has (getb i) buf_ok.
Proof.
  intros Hi s Hs. unfold getb. rewrite bind_gets. pose proof (lookup_inside _ _ i (ok_bufs_len s Hs) ltac:(lia)).
  destruct (k_bufs s !! i) as [p|] eqn:E; [|done]. split; [done|].
  by eapply Forall_lookup_1; [apply ok_bufs|].
Qed.
Lemma has_modi i f : (i < NINODE)%nat → (∀ b, inode_ok b → inode_ok (f b)) → has (modi i f) any.
Proof. intros _ Hf. apply has_modify. keep. by apply Forall_alter_fn. Qed.
Lemma has_geti i : (i < NINODE)%nat → has (geti i) inode_ok.
Proof.
  intros Hi s Hs. unfold geti. rewrite bind_gets. pose proof (lookup_inside _ _ i (ok_itable_len s Hs) Hi).
  destruct (k_itable s !! i) as [p|] eqn:E; [|done]. split; [done|].
  by eapply Forall_lookup_1; [apply ok_itable|].
Qed.
Lemma has_modlog f : (∀ l, length (l_block (f l)) = length (l_block l)) → has (modlog f) any.
Proof. intros Hf. apply has_modify. keep. by rewrite Hf. Qed.
Lemma has_modvd f : (∀ v, vdisk_ok v → vdisk_ok (f v)) → has (modvd f) any.
Proof. intros Hf. apply has_modify. keep. Qed.
Lemma has_modcons f : (∀ c, length (c_buf (f c)) = length (c_buf c)) → has (modcons f) any.
Proof. intros Hf. apply has_modify. keep. by rewrite Hf. Qed.
Lemma has_moduart f : has (moduart f) any.
Proof. apply has_modify. keep. Qed.

#[export] Hint Extern 4 (∀ x, proc_ok x → proc_ok _) => keep : typing.
#[export] Hint Extern 4 (∀ x, buf_ok x → buf_ok _) => keep : typing.
#[export] Hint Extern 4 (∀ x, inode_ok x → inode_ok _) => unfold inode_ok; intros ? ?; cbn; by rewrite ?length_insert : typing.
#[export] Hint Extern 4 (∀ x, vdisk_ok x → vdisk_ok _) => keep : typing.
#[export] Hint Extern 4 (∀ x, typed x → typed _) => keep : typing.
#[export] Hint Extern 4 (∀ x, length (c_buf _) = length (c_buf x)) => intros; cbn; by rewrite ?length_insert : typing.
#[export] Hint Extern 4 (∀ x, length (l_block _) = length (l_block x)) => intros; cbn; by rewrite ?length_insert : typing.
#[export] Hint Resolve has_getp has_cur has_myproc has_initproc has_modmem has_acquire has_release
  has_getb has_geti has_moduart has_swtch | 1 : typing.
#[export] Hint Resolve has_modp has_modb has_modi has_modlog has_modvd has_modcons | 2 : typing.
#[export] Hint Resolve has_modify | 5 : typing.
#[export] Hint Resolve has_gets_any | 6 : typing.

(** ** Scheduling and locks *)

Lemma slots_elem i : i ∈ slots → (i < NPROC)%nat.
Proof. unfold slots. rewrite elem_of_seq. lia. Qed.
#[export] Hint Resolve slots_elem : typing.

Lemma has_procinit : has procinit any.
Proof. unfold procinit. ty. Qed.
Lemma has_allocpid : has allocpid any.
Proof. unfold allocpid. ty. Qed.
Lemma has_setcpu o : below NPROC o → has (setcpu o) any.
Proof. intros Ho. apply has_modify. keep. Qed.
#[export] Hint Resolve has_procinit has_allocpid has_setcpu : typing.
Lemma has_sched_try pr i : (i < NPROC)%nat → has (sched_try pr i) any.
Proof. intros Hi. unfold sched_try. ty. Qed.
#[export] Hint Resolve has_sched_try : typing.
Lemma has_scheduler_iter : has scheduler_iter any.
Proof. unfold scheduler_iter, intr_on, intr_off. ty. Qed.
Lemma has_sched : has sched any.
Proof. unfold sched. ty. Qed.
#[export] Hint Resolve has_sched : typing.
Lemma has_yield : has yield any.
Proof. unfold yield. ty. Qed.
Lemma has_sleep ch lk : has (sleep ch lk) any.
Proof. unfold sleep. ty. Qed.
Lemma has_wakeup ch : has (wakeup ch) any.
Proof. unfold wakeup. ty. Qed.
Lemma has_kkill pid : has (kkill pid) any.
Proof. unfold kkill. ty. Qed.
Lemma has_setkilled i : (i < NPROC)%nat → has (setkilled i) any.
Proof. intros Hi. unfold setkilled. ty. Qed.
Lemma has_killed i : (i < NPROC)%nat → has (killed i) any.
Proof. intros Hi. unfold killed. ty. Qed.
#[export] Hint Resolve has_scheduler_iter has_yield has_sleep has_wakeup has_kkill has_setkilled has_killed : typing.
Lemma has_reparent i : has (reparent i) any.
Proof. unfold reparent. ty. Qed.
#[export] Hint Resolve has_reparent : typing.

(** Between the updates of the demotion rule the stopwatch is out of its lane. *)
Lemma tick_proc_ok p : proc_ok p → proc_ok (tick_proc p).
Proof.
  intros []. unfold tick_proc. cbn [set_p_ticks_used p_priority p_ticks_used].
  assert (Hi : - 2 ^ 31 ≤ i32 (p_ticks_used p + 1) < 2 ^ 31) by (unfold i32; dlia).
  assert (Hs : 0 ≤ p_ticks_used p < 10 → i32 (p_ticks_used p + 1) = p_ticks_used p + 1) by (unfold i32; intros; dlia).
  destruct (p_priority p =? 0) eqn:E0, (5 <=? i32 (p_ticks_used p + 1)) eqn:E5; cbn [andb].
  1: constructor; cbn; [|done..]. 1: right; left; lia.
  all: destruct (p_priority p =? 1) eqn:E1, (10 <=? i32 (p_ticks_used p + 1)) eqn:E10; cbn [andb];
    (constructor; cbn; [|done..]); unfold in_lane in *; lia.
Qed.
Lemma typed_proc_set i p s : typed s → proc_ok p → typed (proc_set i p s).
Proof. intros Hs Hp. revert s Hs. unfold proc_set. keep. Qed.
Lemma has_timer_account : has timer_account any.
Proof.
  intros s Hs. pose proof (cur_ok s Hs) as Hc. destruct (cur s) as [i|] eqn:Ec.
  2: { by rewrite timer_account_idle. }
  pose proof (lookup_inside _ _ i (ok_procs_len s Hs) Hc).
  destruct (k_procs s !! i) as [p|] eqn:Ep; [|done].
  pose proof (Forall_lookup_1 _ _ _ _ (ok_procs s Hs) Ep) as Hp.
  destruct (decide (p_state p = RUNNING)) as [Hr|Hr].
  - rewrite (timer_account_run i p s) by done. split; [|done]. by apply typed_proc_set, tick_proc_ok.
  - unfold timer_account. rewrite bind_gets, Ec, (bind_run _ _ _ _ _ (getp_run _ _ _ Ep)).
    by rewrite bool_decide_eq_false_2 by done.
Qed.
#[export] Hint Resolve has_timer_account : typing.
Lemma has_timer_tick : has timer_tick any.
Proof. unfold timer_tick. ty. Qed.
#[export] Hint Resolve has_timer_tick : typing.

(** ** Memory *)

Section memory.
Context {L : Layout}.

Lemma has_kfree pa : has (kfree pa) any.
Proof. unfold kfree. ty. Qed.
Lemma has_kalloc : has kalloc any.
Proof. unfold kalloc. ty. Qed.
#[local] Hint Resolve has_kfree has_kalloc : typing.
Lemma has_freerange_loop fuel p e : has (freerange_loop fuel p e) any.
Proof. revert p. induction fuel as [|f IH]; intros p; cbn [freerange_loop]; ty. Qed.
#[local] Hint Resolve has_freerange_loop : typing.
Lemma has_kinit : has kinit any.
Proof. unfold kinit, freerange. ty. Qed.

Lemma has_load64 a : has (load64 a) any.
Proof. apply has_gets_any. Qed.
Lemma has_store64 a v : has (store64 a v) any.
Proof. apply has_modmem. Qed.
#[local] Hint Resolve has_load64 has_store64 : typing.
Lemma has_walk_levels ls pt va alloc : has (walk_levels ls pt va alloc) any.
Proof. revert pt. induction ls as [|l ls IH]; intros pt; cbn [walk_levels]; ty. Qed.
#[local] Hint Resolve has_walk_levels : typing.
Lemma has_walk pt va alloc : has (walk pt va alloc) any.
Proof. unfold walk. ty. Qed.
#[local] Hint Resolve has_walk : typing.
Lemma has_walkaddr pt va : has (walkaddr pt va) any.
Proof. unfold walkaddr. ty. Qed.
Lemma has_mappages_loop f pt a l pa perm : has (mappages_loop f pt a l pa perm) any.
Proof. revert a pa. induction f as [|f IH]; intros a pa; cbn [mappages_loop]; ty. Qed.
#[local] Hint Resolve has_walkaddr has_mappages_loop : typing.
Lemma has_mappages pt va sz pa perm : has (mappages pt va sz pa perm) any.
Proof. unfold mappages. ty. Qed.
#[local] Hint Resolve has_mappages : typing.
Lemma has_kvmmap pt va pa sz perm : has (kvmmap pt va pa sz perm) any.
Proof. unfold kvmmap. ty. Qed.
Lemma has_uvmcreate : has uvmcreate any.
Proof. unfold uvmcreate. ty. Qed.
Lemma has_uvmunmap_loop f pt a e fr : has (uvmunmap_loop f pt a e fr) any.
Proof. revert a. induction f as [|f IH]; intros a; cbn [uvmunmap_loop]; ty. Qed.
#[local] Hint Resolve has_uvmunmap_loop : typing.
Lemma has_uvmunmap pt va n fr : has (uvmunmap pt va n fr) any.
Proof. unfold uvmunmap. ty. Qed.
#[local] Hint Resolve has_uvmunmap : typing.
Lemma has_uvmdealloc pt o n : has (uvmdealloc pt o n) any.
Proof. unfold uvmdealloc. ty. Qed.
#[local] Hint Resolve has_uvmdealloc : typing.
Lemma has_uvmalloc_loop f pt a o n x : has (uvmalloc_loop f pt a o n x) any.
Proof. revert a. induction f as [|f IH]; intros a; cbn [uvmalloc_loop]; ty. Qed.
#[local] Hint Resolve has_uvmalloc_loop : typing.
Lemma has_uvmalloc pt o n x : has (uvmalloc pt o n x) any.
Proof. unfold uvmalloc. ty. Qed.
Lemma has_freewalk f pt : has (freewalk f pt) any.
Proof. revert pt. induction f as [|f IH]; intros pt; cbn [freewalk]; ty. Qed.
#[local] Hint Resolve has_freewalk : typing.
Lemma has_uvmfree pt sz : has (uvmfree pt sz) any.
Proof. unfold uvmfree. ty. Qed.
Lemma has_uvmcopy_loop f o n i sz : has (uvmcopy_loop f o n i sz) any.
Proof. revert i. induction f as [|f IH]; intros i; cbn [uvmcopy_loop]; ty. Qed.
#[local] Hint Resolve has_uvmcopy_loop : typing.
Lemma has_uvmcopy o n sz : has (uvmcopy o n sz) any.
Proof. unfold uvmcopy. ty. Qed.
Lemma has_uvmclear pt va : has (uvmclear pt va) any.
Proof. unfold uvmclear. ty. Qed.
Lemma has_ismapped pt va : has (ismapped pt va) any.
Proof. unfold ismapped. ty. Qed.
#[local] Hint Resolve has_ismapped : typing.
Lemma has_vmfault pt va : has (vmfault pt va) any.
Proof. unfold vmfault. ty. Qed.
#[local] Hint Resolve has_vmfault : typing.
Lemma has_copyout_loop f pt va src : has (copyout_loop f pt va src) any.
Proof. revert va src. induction f as [|f IH]; intros va [|c src]; cbn [copyout_loop]; ty. Qed.
Lemma has_copyout pt va src : has (copyout pt va src) any.
Proof. apply has_copyout_loop. Qed.
Lemma has_copyin_loop f pt va len acc : has (copyin_loop f pt va len acc) any.
Proof. revert va len acc. induction f as [|f IH]; intros va len acc; cbn [copyin_loop]; ty. Qed.
Lemma has_copyin pt va len : has (copyin pt va len) any.
Proof. apply has_copyin_loop. Qed.
Lemma has_copyinstr_loop f pt va len acc : has (copyinstr_loop f pt va len acc) any.
Proof. revert va len acc. induction f as [|f IH]; intros va len acc; cbn [copyinstr_loop]; ty. Qed.
Lemma has_copyinstr pt va len : has (copyinstr pt va len) any.
Proof. apply has_copyinstr_loop. Qed.
#[local] Hint Resolve has_copyout has_copyin has_copyinstr : typing.
Lemma has_either_copyout dst src : has (either_copyout dst src) any.
Proof. unfold either_copyout. ty. Qed.
Lemma has_either_copyin src len : has (either_copyin src len) any.
Proof. unfold either_copyin. ty. Qed.
End memory.
#[export] Hint Resolve has_kfree has_kalloc has_kinit has_load64 has_store64 has_walk has_walkaddr has_mappages
  has_kvmmap has_uvmcreate has_uvmunmap has_uvmdealloc has_uvmalloc has_freewalk has_uvmfree has_uvmcopy
  has_uvmclear has_ismapped has_vmfault has_copyout has_copyin has_copyinstr has_either_copyout
  has_either_copyin : typing.

(** ** Console *)

Lemma has_thr_write c : has (thr_write c) any.
Proof. apply has_modify. keep. Qed.
Lemma has_uartputc_sync c : has (uartputc_sync c) any.
Proof. unfold uartputc_sync, wait_tx_idle, thr_write. ty. Qed.
#[export] Hint Resolve has_thr_write has_uartputc_sync : typing.
Lemma has_consputc c : has (consputc c) any.
Proof. unfold consputc. ty. Qed.
#[export] Hint Resolve has_consputc : typing.
Lemma has_printint x b sg : has (printint x b sg) any.
Proof. unfold printint. ty. Qed.
Lemma has_printptr_loop n x : has (printptr_loop n x) any.
Proof. revert x. induction n as [|n IH]; intros x; cbn [printptr_loop]; ty. Qed.
#[export] Hint Resolve has_printint has_printptr_loop : typing.
Lemma has_printptr x : has (printptr x) any.
Proof. unfold printptr. ty. Qed.
#[export] Hint Resolve has_printptr : typing.
Lemma has_va_int conv ap k : (∀ x ap, has (k x ap) any) → has (va_int conv ap k) any.
Proof. intros Hk. unfold va_int. ty. Qed.
Lemma has_va_str ap k : (∀ x ap, has (k x ap) any) → has (va_str ap k) any.
Proof. intros Hk. unfold va_str. ty. Qed.
Lemma has_printk_loop fmt skip ap : has (printk_loop fmt skip ap) any.
Proof.
  revert skip ap. induction fmt as [|c fmt IH]; intros skip ap; cbn [printk_loop]; [by apply has_ret|].
  destruct skip; [|done].
  repeat match goal with |- has (if ?b then _ else _) _ => destruct b | |- has (let _ := _ in _) _ => cbv zeta end;
    first [apply has_va_int; intros|apply has_va_str; intros|idtac]; ty.
Qed.
#[export] Hint Resolve has_printk_loop : typing.
Lemma has_printk fmt ap : has (printk fmt ap) any.
Proof. unfold printk. ty. Qed.
#[export] Hint Resolve has_printk : typing.
Lemma has_procdump : has procdump any.
Proof.
  unfold procdump. cbv zeta. eapply has_bind; [ty|]. intros _ _. apply has_for_each. intros i Hi%slots_elem.
  eapply (has_bind _ _ (λ o, o ≠ None)).
  - apply has_gets. intros s Hs. by apply (lookup_inside _ NPROC); [apply ok_procs_len|].
  - intros [p|] Hp; [|done]. ty.
Qed.
#[export] Hint Resolve has_procdump : typing.

Section console.
Context {L : Layout} {F : Fuel}.
Lemma has_uartwrite_loop buf : has (uartwrite_loop buf) any.
Proof.
  induction buf as [|c buf IH]; cbn [uartwrite_loop]; [by apply has_ret|].
  ty.
Qed.
#[local] Hint Resolve has_uartwrite_loop : typing.
Lemma has_uartwrite buf : has (uartwrite buf) any.
Proof. unfold uartwrite. ty. Qed.
Lemma has_uartgetc : has uartgetc any.
Proof. unfold uartgetc. ty. Qed.
#[local] Hint Resolve has_uartwrite has_uartgetc : typing.
Lemma has_consolewrite_loop f src i n : has (consolewrite_loop f src i n) any.
Proof. revert i. induction f as [|f IH]; intros i; cbn [consolewrite_loop]; ty. Qed.
Lemma has_consolewrite src n : has (consolewrite src n) any.
Proof. apply has_consolewrite_loop. Qed.
Lemma has_console_wait : has console_wait any.
Proof. unfold console_wait. ty. Qed.
#[local] Hint Resolve has_console_wait : typing.
Lemma has_consoleread_loop n t dst acc : has (consoleread_loop n t dst acc) any.
Proof. revert dst acc. induction n as [|n IH]; intros dst acc; cbn [consoleread_loop]; ty. Qed.
#[local] Hint Resolve has_consoleread_loop : typing.
Lemma has_consoleread dst n : has (consoleread dst n) any.
Proof. unfold consoleread. ty. Qed.
Lemma has_kill_line f : has (kill_line f) any.
Proof. induction f as [|f IH]; cbn [kill_line]; ty. Qed.
#[local] Hint Resolve has_kill_line : typing.
Lemma has_consoleintr c : has (consoleintr c) any.
Proof. unfold consoleintr. ty. Qed.
#[local] Hint Resolve has_consoleintr : typing.
Lemma has_uartintr_loop f : has (uartintr_loop f) any.
Proof. induction f as [|f IH]; cbn [uartintr_loop]; ty. Qed.
#[local] Hint Resolve has_uartintr_loop : typing.
Lemma has_uartintr : has uartintr any.
Proof. unfold uartintr. ty. Qed.
Lemma has_WriteReg reg v : has (WriteReg reg v) any.
Proof. unfold WriteReg. ty. Qed.
#[local] Hint Resolve has_WriteReg : typing.
Lemma has_consoleinit : has consoleinit any.
Proof. unfold consoleinit, uartinit. ty. Qed.
End console.
#[export] Hint Resolve has_uartwrite has_consolewrite has_consoleread has_consoleintr has_uartintr has_consoleinit : typing.

(** ** Disk driver *)

Lemma has_alloc_desc : has alloc_desc (λ i, i = -1 ∨ is_desc i).
Proof.
  unfold alloc_desc. eapply has_bind; [apply (has_for_list _ _ is_desc)|].
  - intros i Hi%elem_of_seq. ty; cbn; unfold is_desc; lia.
  - intros [i|] Hi; cbn; apply has_ret; [by right|by left].
Qed.
Lemma has_moddesc i f : (∀ d, is_desc (d_next d) → is_desc (d_next (f d))) → has (moddesc i f) any.
Proof. intros Hf. apply has_modvd. keep. by apply Forall_alter_fn. Qed.
#[export] Hint Extern 4 (∀ d, is_desc (d_next d) → is_desc (d_next _)) => intros; cbn; done : typing.
#[export] Hint Resolve has_alloc_desc has_moddesc : typing.
Lemma has_free_desc i : has (free_desc i) any.
Proof. unfold free_desc. ty. Qed.
#[export] Hint Resolve has_free_desc : typing.
Lemma has_free_chain f i : is_desc i → has (free_chain f i) any.
Proof.
  revert i. induction f as [|f IH]; intros i Hi; cbn [free_chain]; [apply has_nofuel|].
  eapply (has_bind _ _ (λ o, ∃ d, o = Some d ∧ is_desc (d_next d))).
  - apply has_gets. intros s Hs. destruct (ok_vd s Hs) as [Hl Hd].
    destruct (lookup_lt_is_Some_2 (v_desc (k_vd s)) (Z.to_nat i)) as [d Ed]; [unfold is_desc in Hi; lia|].
    exists d. split; [done|]. by apply (Forall_lookup_1 _ _ _ _ Hd Ed).
  - intros o (d & -> & Hd). cbn [unwrap]. eapply has_bind; [by apply (has_ret d (λ x, x = d))|]. intros ? ->. ty.
Qed.
#[export] Hint Resolve has_free_chain : typing.
Lemma has_alloc3_loop n idx :
  Forall is_desc idx → has (alloc3_loop n idx) (from_option (λ l, length l = (length idx + n)%nat ∧ Forall is_desc l) True).
Proof.
  revert idx. induction n as [|n IH]; intros idx Hidx; cbn [alloc3_loop].
  - apply has_ret. cbn. split; [lia|done].
  - eapply has_bind; [apply has_alloc_desc|]. intros i Hi. destruct (i <? 0) eqn:E; [ty|].
    eapply has_mono; [apply IH|].
    + apply Forall_app. split; [done|]. apply Forall_singleton. destruct Hi; [lia|done].
    + intros [l|]; cbn; [|done]. rewrite length_app. cbn. intros [-> ?]. split; [lia|done].
Qed.
Lemma has_alloc3_desc : has alloc3_desc (from_option (Forall is_desc) True).
Proof. eapply has_mono; [apply (has_alloc3_loop 3 []); constructor|]. intros [l|]; [|done]. by intros [_ ?]. Qed.
#[export] Hint Resolve has_alloc3_desc : typing.

Section driver.
Context {F : Fuel}.
Lemma has_virtio_disk_rw i w : (i < NBUF)%nat → has (virtio_disk_rw i w) any.
Proof.
  intros Hi. unfold virtio_disk_rw. eapply has_bind; [apply has_getb; lia|]. intros b Hb. cbv zeta.
  eapply has_bind; [ty|]. intros _ _.
  eapply (has_bind _ _ (Forall is_desc)); [apply has_sleep_loop; ty|]. intros idx Hidx.
  assert (∀ k, is_desc (nth k idx 0)) as Hn by (intros k; by apply Forall_nth).
  pose proof (Hn 0%nat). pose proof (Hn 1%nat). pose proof (Hn 2%nat).
  ty.
Qed.
#[local] Hint Resolve has_virtio_disk_rw : typing.
Lemma vdisk0_ok : vdisk_ok vdisk0.
Proof. constructor; try done; apply Forall_replicate; done. Qed.
Lemma has_virtio_intr_loop f : has (virtio_intr_loop f) any.
Proof.
  induction f as [|f IH]; cbn [virtio_intr_loop];
    (eapply (has_bind _ _ vdisk_ok); [apply has_gets, ok_vd|]; intros v Hv); [ty|].
  destruct (v_used_idx v =? v_used_ridx v); [ty|]. cbv zeta.
  set (id := nth _ (v_used v) 0).
  assert (is_desc id) as Hid by (apply Forall_nth; [apply Hv|done]).
  assert (Z.to_nat id < NUM)%nat as Hlt by (unfold is_desc in Hid; lia).
  eapply (has_bind _ _ any).
  { apply has_unwrap; [|done]. intros E. by destruct (lookup_inside _ _ _ (ok_status v Hv) Hlt). }
  intros st _. destruct (negb (st =? 0)); [ty|].
  eapply (has_bind _ _ (below NBUF)).
  { apply has_unwrap; [|intros o Ho; by apply (Forall_lookup_1 _ _ _ _ (ok_info v Hv) Ho)].
    intros E. by destruct (lookup_inside _ _ _ (ok_info_len v Hv) Hlt). }
  intros o Ho. eapply (has_bind _ _ (λ b, (b < NBUF)%nat)).
  { apply has_unwrap; [done|]. by intros b ->. }
  ty.
Qed.
#[local] Hint Resolve has_virtio_intr_loop : typing.
Lemma has_virtio_disk_intr : has virtio_disk_intr any.
Proof. unfold virtio_disk_intr. ty. Qed.
Lemma has_virtio_disk_init {L : Layout} reg : has (virtio_disk_init reg) any.
Proof.
  unfold virtio_disk_init. ty. eapply has_bind; [apply has_modvd|intros _ _; ty].
  pose proof vdisk0_ok as []. intros v []. by constructor.
Qed.
End driver.
#[export] Hint Resolve has_virtio_disk_rw has_virtio_disk_intr has_virtio_disk_init : typing.

(** ** Sleep-locks and the buffer cache *)

(** The sleep-locks that exist. *)
Definition sleeplock_ok (lk : sleepid) : Prop :=
  match lk with SlBuf i => (i < NBUF)%nat | SlInode i => (i < NINODE)%nat end.
Lemma sleeplock_buf i : (i < NBUF)%nat → sleeplock_ok (SlBuf i).
Proof. done. Qed.
Lemma sleeplock_inode i : (i < NINODE)%nat → sleeplock_ok (SlInode i).
Proof. done. Qed.
#[export] Hint Resolve sleeplock_buf sleeplock_inode : typing.

Lemma has_getsl lk : sleeplock_ok lk → has (getsl lk) any.
Proof. destruct lk; cbn; ty. Qed.
Lemma has_modsl lk f : sleeplock_ok lk → has (modsl lk f) any.
Proof. destruct lk; cbn; ty. Qed.
#[export] Hint Resolve has_getsl has_modsl : typing.
Lemma has_initsleeplock lk : sleeplock_ok lk → has (initsleeplock lk) any.
Proof. unfold initsleeplock. ty. Qed.
Lemma has_releasesleep lk : sleeplock_ok lk → has (releasesleep lk) any.
Proof. unfold releasesleep. ty. Qed.
Lemma has_holdingsleep lk : sleeplock_ok lk → has (holdingsleep lk) any.
Proof. unfold holdingsleep. ty. Qed.
#[export] Hint Resolve has_initsleeplock has_releasesleep has_holdingsleep : typing.

Section cache.
Context {F : Fuel}.
Lemma has_acquiresleep lk : sleeplock_ok lk → has (acquiresleep lk) any.
Proof. unfold acquiresleep. ty. Qed.
#[local] Hint Resolve has_acquiresleep : typing.
Lemma bhead_ok : (bhead ≤ NBUF)%nat.
Proof. done. Qed.
#[local] Hint Resolve bhead_ok ok_next ok_prev : typing.
Lemma has_list_push i : (i ≤ NBUF)%nat → has (list_push i) any.
Proof. unfold list_push. ty. Qed.
Lemma has_list_link i : (i ≤ NBUF)%nat → has (list_link i) any.
Proof. unfold list_link. ty. Qed.
#[local] Hint Resolve has_list_push has_list_link : typing.
Lemma has_binit : has binit any.
Proof.
  unfold binit. eapply has_bind; [ty|]. intros _ _. eapply has_bind; [ty|]. intros _ _.
  apply has_for_each. intros i Hi%elem_of_seq. ty.
Qed.
Lemma has_scan_next n f i : (i ≤ NBUF)%nat → has (scan_next n f i) (from_option (λ j, (j < NBUF)%nat) True).
Proof.
  revert i. induction n as [|n IH]; intros i Hi; cbn [scan_next]; [apply has_nofuel|].
  destruct (Nat.eqb_spec i bhead); [ty|]. eapply has_bind; [ty|]. intros b Hb.
  destruct (f b); [apply has_ret; cbn; unfold bhead in *; lia|]. apply IH. by apply ok_next.
Qed.
Lemma has_scan_prev n f i : (i ≤ NBUF)%nat → has (scan_prev n f i) (from_option (λ j, (j < NBUF)%nat) True).
Proof.
  revert i. induction n as [|n IH]; intros i Hi; cbn [scan_prev]; [apply has_nofuel|].
  destruct (Nat.eqb_spec i bhead); [ty|]. eapply has_bind; [ty|]. intros b Hb.
  destruct (f b); [apply has_ret; cbn; unfold bhead in *; lia|]. apply IH. by apply ok_prev.
Qed.
#[local] Hint Resolve has_scan_next has_scan_prev : typing.
Lemma has_bget dev n : has (bget dev n) (λ i, (i < NBUF)%nat).
Proof. unfold bget. ty. Qed.
#[local] Hint Resolve has_bget : typing.
Lemma has_bread dev n : has (bread dev n) (λ i, (i < NBUF)%nat).
Proof. unfold bread. ty. Qed.
Lemma has_bwrite i : (i < NBUF)%nat → has (bwrite i) any.
Proof. unfold bwrite. ty. Qed.
Lemma has_brelse i : (i < NBUF)%nat → has (brelse i) any.
Proof. unfold brelse. ty. Qed.
Lemma has_bpin i : (i < NBUF)%nat → has (bpin i) any.
Proof. unfold bpin. ty. Qed.
Lemma has_bunpin i : (i < NBUF)%nat → has (bunpin i) any.
Proof. unfold bunpin. ty. Qed.
End cache.
#[export] Hint Resolve has_acquiresleep has_binit has_bread has_bwrite has_brelse has_bpin has_bunpin : typing.

(** ** Log *)

Section log.
Context {F : Fuel}.
Lemma has_data l i : (i < NBUF)%nat → length l = Z.to_nat BSIZE → has (modb i (set_b_data l)) any.
Proof. intros Hi Hl. apply has_modb; [lia|]. intros b []. by constructor. Qed.
Lemma has_data_with (f : list Z → list Z) i :
  (i < NBUF)%nat → (∀ l, length (f l) = length l) → has (modb i (λ b, set_b_data (f (b_data b)) b)) any.
Proof. intros Hi Hf. apply has_modb; [lia|]. intros b []. constructor; cbn; [by rewrite Hf|done..]. Qed.
Lemma has_stl i n off v : (i < NBUF)%nat → has (modb i (λ b, set_b_data (stl n (b_data b) off v) b)) any.
Proof. intros Hi. apply (has_data_with (λ l, stl n l off v)); [done|]. intros l. apply length_stl. Qed.
#[local] Hint Resolve has_data has_stl ok_data : typing.
Lemma has_lh_block i : has (lh_block i) any.
Proof. unfold lh_block. eapply has_bind; [apply has_gets_any|]. intros l _. by apply has_unwrap. Qed.
Lemma has_set_lh_block i v : has (set_lh_block i v) any.
Proof.
  unfold set_lh_block. eapply (has_bind _ _ (λ l, length (l_block l) = Z.to_nat LOGBLOCKS)).
  { apply has_gets, ok_log. }
  intros l Hl. ty.
Qed.
#[local] Hint Resolve has_lh_block has_set_lh_block : typing.
Lemma has_install_trans r : has (install_trans r) any.
Proof. unfold install_trans. ty. Qed.
Lemma has_read_head : has read_head any.
Proof. unfold read_head. ty. Qed.
Lemma has_write_head : has write_head any.
Proof. unfold write_head. ty. Qed.
#[local] Hint Resolve has_install_trans has_read_head has_write_head : typing.
Lemma has_recover_from_log : has recover_from_log any.
Proof. unfold recover_from_log. ty. Qed.
#[local] Hint Resolve has_recover_from_log : typing.
Lemma has_initlog dev sb : has (initlog dev sb) any.
Proof. unfold initlog. ty. Qed.
Lemma has_begin_op : has begin_op any.
Proof. unfold begin_op. ty. Qed.
Lemma has_write_log : has write_log any.
Proof. unfold write_log. ty. Qed.
#[local] Hint Resolve has_write_log : typing.
Lemma has_commit : has commit any.
Proof. unfold commit. ty. Qed.
#[local] Hint Resolve has_commit : typing.
Lemma has_end_op : has end_op any.
Proof. unfold end_op. ty. Qed.
Lemma has_log_write i : (i < NBUF)%nat → has (log_write i) any.
Proof. unfold log_write. ty. Qed.
End log.
#[export] Hint Resolve has_data has_stl ok_data has_initlog has_begin_op has_end_op has_log_write : typing.
