(* ===== verification/TypedFs.v ===== *)
(** * Well-formed kernel states: the upper half of the kernel

    The judgement of Typed.v for the file system, open files, processes, system calls,
    traps and booting, and what it gives for the kernel as a whole: in every
    interleaving of kernel threads at their context switches, with any behaviour of
    user programs and devices in between, the kernel state is well formed and no
    table is accessed outside its bounds. *)
From Stdlib Require Import ZArith Lia.
From stdpp Require Import base list gmap numbers strings.
From S2P Require Import Prelude Machine KString Bytes State Printk Kalloc Sched Vm Console Virtio Bio Log Fs File Proc Exec Syscall Trap Boot Typed.
Local Open Scope Z_scope.
Local Open Scope kernel_scope.

(** ** Indices kept in the tables *)

Lemma has_unwrap_below msg n o :
  below n o → out_of_bounds msg = false → has (unwrap msg o) (λ i, (i < n)%nat).
Proof. intros Ho Hm. apply has_unwrap; [done|]. by intros i ->. Qed.
Lemma ofile_below p fd : proc_ok p → below NFILE (mjoin (p_ofile p !! fd)).
Proof.
  intros Hp. destruct (p_ofile p !! fd) as [o|] eqn:E; cbn; [|done].
  by apply (Forall_lookup_1 _ _ _ _ (ok_ofile p Hp) E).
Qed.
Lemma below_Some n o i : below n o → o = Some i → (i < n)%nat.
Proof. by intros H ->. Qed.
Lemma file_ip f : file_ok f → below NINODE (f_ip f).
Proof. done. Qed.
#[export] Hint Resolve has_unwrap_below ofile_below below_Some file_ip ok_cwd ok_parent : typing.
#[export] Hint Extern 3 (below _ None) => exact I : typing.

(** ** File system *)

Section fs.
Context {L : Layout} {F : Fuel}.
Lemma length_replicate_block : length (replicate 1024 0) = Z.to_nat BSIZE.
Proof. done. Qed.
Lemma length_insert_block (l : list Z) i x : length l = Z.to_nat BSIZE → length (<[i := x]> l) = Z.to_nat BSIZE.
Proof. by rewrite length_insert. Qed.
#[local] Hint Resolve length_replicate_block length_insert_block : typing.
Lemma has_splice i off (bs : list Z) : (i < NBUF)%nat → has (modb i (λ b, set_b_data (splice (b_data b) off bs) b)) any.
Proof. intros Hi. apply (has_data_with (λ l, splice l off bs)); [done|]. intros l. apply length_splice. Qed.
Lemma has_put_dinode i ip off : (i < NBUF)%nat → has (modb i (λ b, set_b_data (put_dinode ip (b_data b) off) b)) any.
Proof. intros Hi. apply (has_data_with (λ l, put_dinode ip l off)); [done|]. intros l. apply length_put_dinode. Qed.
#[local] Hint Resolve has_splice has_put_dinode : typing.

Lemma has_readsb dev : has (readsb dev) any.
Proof. unfold readsb. ty. Qed.
Lemma has_bzero dev b : has (bzero dev b) any.
Proof. unfold bzero. ty. Qed.
#[local] Hint Resolve has_readsb has_bzero : typing.
Lemma has_balloc_block dev b bp : (bp < NBUF)%nat → has (balloc_block dev b bp) any.
Proof. unfold balloc_block. ty. Qed.
#[local] Hint Resolve has_balloc_block : typing.
Lemma has_balloc dev : has (balloc dev) any.
Proof. unfold balloc. ty. Qed.
Lemma has_bfree dev b : has (bfree dev b) any.
Proof. unfold bfree. ty. Qed.
#[local] Hint Resolve has_balloc has_bfree : typing.
Lemma has_iinit : has iinit any.
Proof. unfold iinit. apply has_for_each. intros i Hi%elem_of_seq. ty. Qed.
Lemma has_iget_scan l dev inum empty :
  Forall (λ i, (i < NINODE)%nat) l → below NINODE empty →
  has (iget_scan l dev inum empty) (λ r, match r with inl i => (i < NINODE)%nat | inr o => below NINODE o end).
Proof.
  intros Hl. revert empty. induction Hl as [|i l Hi Hl IH]; intros empty He; cbn [iget_scan]; [by apply has_ret|].
  eapply has_bind; [ty|]. intros ip _. case_match; [by apply has_ret|]. apply IH. by case_match.
Qed.
Lemma has_iget dev inum : has (iget dev inum) (λ i, (i < NINODE)%nat).
Proof.
  unfold iget. eapply has_bind; [ty|]. intros _ _. eapply has_bind.
  { apply has_iget_scan; [|done]. apply Forall_forall. intros i Hi%elem_of_seq. lia. }
  intros r Hr. ty.
Qed.
#[local] Hint Resolve has_iget : typing.
Lemma has_ialloc dev type : has (ialloc dev type) (below NINODE).
Proof.
  unfold ialloc. eapply has_bind; [ty|]. intros sb _. eapply has_bind.
  { apply (has_for_list _ _ (λ i, (i < NINODE)%nat)). ty. }
  ty.
Qed.
Lemma has_iupdate i : (i < NINODE)%nat → has (iupdate i) any.
Proof. unfold iupdate. ty. Qed.
Lemma has_idup i : (i < NINODE)%nat → has (idup i) (λ j, (j < NINODE)%nat).
Proof. unfold idup. ty. Qed.
#[local] Hint Resolve has_ialloc has_iupdate has_idup : typing.
Lemma has_get_dinode i d off : (i < NINODE)%nat → has (modi i (get_dinode d off)) any.
Proof. intros Hi. by apply has_modi. Qed.
#[local] Hint Resolve has_get_dinode : typing.
Lemma has_ilock i : (i < NINODE)%nat → has (ilock i) any.
Proof. unfold ilock. ty. Qed.
Lemma has_iunlock i : (i < NINODE)%nat → has (iunlock i) any.
Proof. unfold iunlock. ty. Qed.
Lemma has_itrunc i : (i < NINODE)%nat → has (itrunc i) any.
Proof. unfold itrunc. ty. Qed.
#[local] Hint Resolve has_ilock has_iunlock has_itrunc : typing.
Lemma has_iput i : (i < NINODE)%nat → has (iput i) any.
Proof. unfold iput. ty. Qed.
#[local] Hint Resolve has_iput : typing.
Lemma has_iunlockput i : (i < NINODE)%nat → has (iunlockput i) any.
Proof. unfold iunlockput. ty. Qed.
#[local] Hint Resolve has_iunlockput : typing.
Lemma has_ireclaim dev : has (ireclaim dev) any.
Proof. unfold ireclaim. ty. Qed.
#[local] Hint Resolve has_ireclaim : typing.
Lemma has_fsinit dev : has (fsinit dev) any.
Proof. unfold fsinit. ty. Qed.
Lemma has_bmap i bn : (i < NINODE)%nat → has (bmap i bn) any.
Proof. unfold bmap. ty. Qed.
#[local] Hint Resolve has_bmap : typing.
Lemma has_readi_loop f i dst tot off n acc : (i < NINODE)%nat → has (readi_loop f i dst tot off n acc) any.
Proof.
  intros Hi. revert dst tot off acc. induction f as [|f IH]; intros dst tot off acc; cbn [readi_loop]; ty.
Qed.
#[local] Hint Resolve has_readi_loop : typing.
Lemma has_readi i dst off n : (i < NINODE)%nat → has (readi i dst off n) any.
Proof. unfold readi. ty. Qed.
Lemma has_writei_loop f i src tot off n : (i < NINODE)%nat → has (writei_loop f i src tot off n) any.
Proof. intros Hi. revert src tot off. induction f as [|f IH]; intros src tot off; cbn [writei_loop]; ty. Qed.
#[local] Hint Resolve has_readi has_writei_loop : typing.
Lemma has_writei i src off n : (i < NINODE)%nat → has (writei i src off n) any.
Proof. unfold writei. ty. Qed.
#[local] Hint Resolve has_writei : typing.
Lemma has_dirlookup dp name : (dp < NINODE)%nat → has (dirlookup dp name) (from_option (λ r, (r.1 < NINODE)%nat) True).
Proof.
  intros Hdp. unfold dirlookup. eapply has_bind; [ty|]. intros d _. case_match; [ty|].
  apply has_for_list. ty.
Qed.
#[local] Hint Resolve has_dirlookup : typing.
Lemma has_dirlink dp name inum : (dp < NINODE)%nat → has (dirlink dp name inum) any.
Proof. unfold dirlink. ty. Qed.
#[local] Hint Resolve has_dirlink : typing.
Lemma has_namex_loop f ip path parent name :
  (ip < NINODE)%nat → has (namex_loop f ip path parent name) (from_option (λ r, (r.1 < NINODE)%nat) True).
Proof.
  revert ip path name. induction f as [|f IH]; intros ip path name Hip; cbn [namex_loop]; ty.
Qed.
#[local] Hint Resolve has_namex_loop : typing.
Lemma has_namex path parent name : has (namex path parent name) (from_option (λ r, (r.1 < NINODE)%nat) True).
Proof. unfold namex. ty. Qed.
#[local] Hint Resolve has_namex : typing.
Lemma has_namei path : has (namei path) (below NINODE).
Proof. unfold namei. eapply has_bind; [ty|]. intros [[i n]|] H; by apply has_ret. Qed.
Lemma has_nameiparent path : has (nameiparent path) (from_option (λ r, (r.1 < NINODE)%nat) True).
Proof. unfold nameiparent. ty. Qed.
End fs.
#[export] Hint Resolve has_iinit has_iget has_ialloc has_iupdate has_idup has_ilock has_iunlock has_itrunc has_iput
  has_iunlockput has_fsinit has_readi has_writei has_dirlookup has_dirlink has_namei has_nameiparent : typing.

(** ** Open files and pipes *)

Lemma has_getf i : (i < NFILE)%nat → has (getf i) file_ok.
Proof.
  intros Hi s Hs. unfold getf. rewrite bind_gets. pose proof (lookup_inside _ _ i (ok_ftable_len s Hs) Hi).
  destruct (k_ftable s !! i) as [p|] eqn:E; [|done]. split; [done|].
  by eapply Forall_lookup_1; [apply ok_ftable|].
Qed.
Lemma has_modf i f : (i < NFILE)%nat → (∀ x, file_ok x → file_ok (f x)) → has (modf i f) any.
Proof. intros _ Hf. apply has_modify. keep. by apply Forall_alter_fn. Qed.
#[export] Hint Extern 4 (∀ x, file_ok x → file_ok _) => unfold file_ok; intros; cbn; by eauto with typing : typing.
Lemma has_getpipe pi : has (getpipe pi) pipe_ok.
Proof.
  intros s Hs. unfold getpipe. rewrite bind_gets. destruct (k_pipes s !! pi) as [p|] eqn:E; [|done]. split; [done|].
  by apply (ok_pipes s Hs pi p E).
Qed.
Lemma has_modpipe pi f : (∀ x, pipe_ok x → pipe_ok (f x)) → has (modpipe pi f) any.
Proof.
  intros Hf. apply has_modify. keep. intros k x. rewrite lookup_alter. case_decide; [subst k|by eauto].
  destruct (k_pipes _ !! pi) as [y|] eqn:E; cbn; [|done]. intros [= <-]. eauto.
Qed.
#[export] Hint Extern 4 (∀ x, pipe_ok x → pipe_ok _) => unfold pipe_ok; intros; cbn; by rewrite ?length_insert : typing.
Lemma pipes_delete (m : gmap Z pipe) pi :
  map_Forall (λ _, pipe_ok) m → map_Forall (λ _, pipe_ok) (delete pi m).
Proof. apply map_Forall_delete. Qed.
Lemma pipes_insert (m : gmap Z pipe) pi p :
  pipe_ok p → map_Forall (λ _, pipe_ok) m → map_Forall (λ _, pipe_ok) (<[pi := p]> m).
Proof. intros Hp Hm. by apply map_Forall_insert_2. Qed.
#[export] Hint Resolve pipes_delete pipes_insert : typing.
#[export] Hint Extern 3 (pipe_ok (mkPipe _ _ _ _ _)) => reflexivity : typing.
#[export] Hint Resolve has_getf has_modf has_getpipe has_modpipe : typing.

Section file.
Context {L : Layout} {F : Fuel}.
Lemma has_pipeclose pi w : has (pipeclose pi w) any.
Proof. unfold pipeclose. ty. Qed.
Lemma has_pipewrite_loop f pi me addr i n : (me < NPROC)%nat → has (pipewrite_loop f pi me addr i n) any.
Proof. intros Hme. revert i. induction f as [|f IH]; intros i; cbn [pipewrite_loop]; ty. Qed.
#[local] Hint Resolve has_pipeclose has_pipewrite_loop : typing.
Lemma has_pipewrite pi addr n : has (pipewrite pi addr n) any.
Proof. unfold pipewrite. ty. Qed.
Lemma has_piperead_loop n pi me addr i : (me < NPROC)%nat → has (piperead_loop n pi me addr i) any.
Proof. intros Hme. revert i. induction n as [|n IH]; intros i; cbn [piperead_loop]; ty. Qed.
#[local] Hint Resolve has_piperead_loop : typing.
Lemma has_piperead pi addr n : has (piperead pi addr n) any.
Proof. unfold piperead. ty. Qed.
#[local] Hint Resolve has_pipewrite has_piperead : typing.
Lemma has_filealloc : has filealloc (below NFILE).
Proof.
  unfold filealloc. eapply has_bind; [ty|]. intros _ _. eapply has_bind.
  { apply (has_for_list _ _ (λ i, (i < NFILE)%nat)). intros i Hi%elem_of_seq. ty. }
  ty.
Qed.
Lemma has_filedup i : (i < NFILE)%nat → has (filedup i) (λ j, (j < NFILE)%nat).
Proof. unfold filedup. ty. Qed.
Lemma has_fileclose i : (i < NFILE)%nat → has (fileclose i) any.
Proof. unfold fileclose. ty. Qed.
#[local] Hint Resolve has_filealloc has_filedup has_fileclose : typing.
Lemma has_filestat pad i addr : (i < NFILE)%nat → has (filestat pad i addr) any.
Proof. unfold filestat. ty. Qed.
Lemma has_devsw_of m : has (devsw_of m) any.
Proof. unfold devsw_of. ty. Qed.
#[local] Hint Resolve has_devsw_of : typing.
Lemma has_fileread i addr n : (i < NFILE)%nat → has (fileread i addr n) any.
Proof. unfold fileread. ty. Qed.
Lemma has_filewrite_loop fu fi ip addr i n :
  (fi < NFILE)%nat → (ip < NINODE)%nat → has (filewrite_loop fu fi ip addr i n) any.
Proof. intros Hfi Hip. revert i. induction fu as [|fu IH]; intros i; cbn [filewrite_loop]; ty. Qed.
#[local] Hint Resolve has_filewrite_loop : typing.
Lemma has_filewrite i addr n : (i < NFILE)%nat → has (filewrite i addr n) any.
Proof. unfold filewrite. ty. Qed.
Lemma has_pipealloc_bad pi f0 f1 : below NFILE f0 → below NFILE f1 →
  has (pipealloc_bad pi f0 f1) (from_option (λ r, (r.1 < NFILE)%nat ∧ (r.2 < NFILE)%nat) True).
Proof. unfold pipealloc_bad. ty. Qed.
#[local] Hint Resolve has_pipealloc_bad : typing.
Lemma has_pipealloc : has pipealloc (from_option (λ r, (r.1 < NFILE)%nat ∧ (r.2 < NFILE)%nat) True).
Proof. unfold pipealloc. ty. Qed.
End file.
#[export] Hint Resolve has_filealloc has_filedup has_fileclose has_filestat has_fileread has_filewrite has_pipealloc : typing.

(** ** Processes *)

Section proc.
Context {L : Layout} {F : Fuel}.
Lemma has_proc_freepagetable pt sz : has (proc_freepagetable pt sz) any.
Proof. unfold proc_freepagetable. ty. Qed.
Lemma has_proc_pagetable i : (i < NPROC)%nat → has (proc_pagetable i) any.
Proof. unfold proc_pagetable. ty. Qed.
#[local] Hint Resolve has_proc_freepagetable has_proc_pagetable : typing.
Lemma has_freeproc i : (i < NPROC)%nat → has (freeproc i) any.
Proof. unfold freeproc. ty. Qed.
Lemma has_find_unused : has find_unused (below NPROC).
Proof.
  unfold find_unused. eapply has_mono; [apply (has_for_list _ _ (λ i, (i < NPROC)%nat)); ty|]. by intros [i|].
Qed.
#[local] Hint Resolve has_freeproc has_find_unused : typing.
Lemma Forall_alter2 {A} (P : A → Prop) (f g : A → A) i l :
  Forall P l → (∀ x, P x → P (g (f x))) → Forall P (alter g i (alter f i l)).
Proof.
  intros Hl Hf. rewrite Forall_lookup in *. intros j x. destruct (decide (i = j)) as [->|Hne].
  - rewrite !list_lookup_alter_eq. destruct (l !! j) eqn:E; cbn; [|done]. intros [= <-]. eauto.
  - rewrite !list_lookup_alter_ne by done. eauto.
Qed.
(** Between the two updates the stopwatch may be out of lane 0. *)
Lemma has_reset_lane {B} i (f : unit → K B) (Q : B → Prop) :
  has (f tt) Q →
  has (modp i (set_p_priority 0) ;; modp i (set_p_ticks_used 0) ;; f tt) Q.
Proof.
  intros Hf s Hs. unfold modp. rewrite !bind_modify. apply Hf.
  revert s Hs. keep. apply Forall_alter2; [done|]. intros p []. constructor; cbn; try done.
  left. lia.
Qed.
Lemma has_allocproc : has allocproc (below NPROC).
Proof.
  unfold allocproc. eapply has_bind; [ty|]. intros [i|] Hi; [|ty].
  eapply has_bind; [ty|]. intros pid _. eapply has_bind; [ty|]. intros _ _. eapply has_bind; [ty|]. intros _ _.
  apply (has_reset_lane i (λ _, _)). ty.
Qed.
#[local] Hint Resolve has_allocproc : typing.
Lemma has_set_initproc o : below NPROC o → has (modify (set_k_initproc o)) any.
Proof. intros Ho. apply has_modify. keep. Qed.
#[local] Hint Resolve has_set_initproc : typing.
Lemma has_userinit : has userinit any.
Proof. unfold userinit. ty. Qed.
Lemma has_growproc n : has (growproc n) any.
Proof. unfold growproc. ty. Qed.
Lemma has_set_name i s : (i < NPROC)%nat → has (modp i (λ p, set_p_name (safestrcpy (p_name p) s 16) p)) any.
Proof. intros Hi. apply has_modp; [done|]. intros p []. constructor; cbn; try done. by rewrite length_safestrcpy. Qed.
Lemma has_set_fd i fd o : (i < NPROC)%nat → below NFILE o → has (modp i (λ p, set_p_ofile (<[fd := o]> (p_ofile p)) p)) any.
Proof.
  intros Hi Ho. apply has_modp; [done|]. intros p []. constructor; cbn; rewrite ?length_insert; try done.
  by apply Forall_insert_ok.
Qed.
#[local] Hint Resolve has_set_name has_set_fd : typing.
Lemma below_of n i : (i < n)%nat → below n (Some i).
Proof. done. Qed.
#[local] Hint Resolve below_of : typing.
Lemma has_kfork : has kfork any.
Proof. unfold kfork. ty. Qed.
Lemma has_kexit st : has (kexit st) any.
Proof. unfold kexit. ty. Qed.
Lemma has_kwait_scan l me addr h :
  (me < NPROC)%nat → Forall (λ i, (i < NPROC)%nat) l → has (kwait_scan l me addr h) any.
Proof.
  intros Hme Hl. revert h. induction Hl as [|j l Hj Hl IH]; intros h; cbn [kwait_scan]; ty.
Qed.
Lemma slots_below : Forall (λ i, (i < NPROC)%nat) slots.
Proof. apply Forall_forall. intros i. apply slots_elem. Qed.
#[local] Hint Resolve has_kwait_scan slots_below : typing.
Lemma has_kwait addr : has (kwait addr) any.
Proof. unfold kwait. ty. Qed.
End proc.
#[export] Hint Resolve has_proc_freepagetable has_proc_pagetable has_userinit has_growproc has_set_name has_set_fd below_of
  has_kfork has_kexit has_kwait slots_below : typing.

(** ** Programs and system calls *)

Section exec.
Context {L : Layout} {F : Fuel}.
Lemma has_loadseg_loop f pt va ip o sz i : (ip < NINODE)%nat → has (loadseg_loop f pt va ip o sz i) any.
Proof. intros Hip. revert i. induction f as [|f IH]; intros i; cbn [loadseg_loop]; ty. Qed.
Lemma has_loadseg pt va ip o sz : (ip < NINODE)%nat → has (loadseg pt va ip o sz) any.
Proof. intros Hip. by apply has_loadseg_loop. Qed.
#[local] Hint Resolve has_loadseg : typing.
Lemma has_exec_bad pt sz ip : below NINODE ip → has (exec_bad pt sz ip) any.
Proof. unfold exec_bad. ty. Qed.
Lemma has_load_segments n pt ip off sz : (ip < NINODE)%nat → has (load_segments n pt ip off sz) any.
Proof. intros Hip. revert off sz. induction n as [|n IH]; intros off sz; cbn [load_segments]; ty. Qed.
Lemma has_push_args argv argc pt sp sb us : has (push_args argv argc pt sp sb us) any.
Proof. revert argc sp us. induction argv as [|a argv IH]; intros argc sp us; cbn [push_args]; ty. Qed.
Lemma has_exec_commit me path pt sz sp entry argc oldsz :
  (me < NPROC)%nat → has (exec_commit me path pt sz sp entry argc oldsz) any.
Proof. unfold exec_commit. ty. Qed.
#[local] Hint Resolve has_exec_bad has_load_segments has_push_args has_exec_commit : typing.
Lemma has_exec_stack me path argv pt sz entry : (me < NPROC)%nat → has (exec_stack me path argv pt sz entry) any.
Proof. unfold exec_stack. ty. Qed.
#[local] Hint Resolve has_exec_stack : typing.
Lemma has_kexec path argv : has (kexec path argv) any.
Proof. unfold kexec. ty. Qed.
End exec.
#[export] Hint Resolve has_kexec : typing.

Section syscall.
Context {L : Layout} {F : Fuel} {J : Stack}.
Lemma has_fetchaddr a : has (fetchaddr a) any.
Proof. unfold fetchaddr. ty. Qed.
Lemma has_fetchstr a m : has (fetchstr a m) any.
Proof. unfold fetchstr. ty. Qed.
Lemma has_argraw n : has (argraw n) any.
Proof. unfold argraw. ty. Qed.
#[local] Hint Resolve has_fetchaddr has_fetchstr has_argraw : typing.
Lemma has_argint n : has (argint n) any.
Proof. unfold argint. ty. Qed.
Lemma has_argaddr n : has (argaddr n) any.
Proof. unfold argaddr. ty. Qed.
#[local] Hint Resolve has_argint has_argaddr : typing.
Lemma has_argstr n m : has (argstr n m) any.
Proof. unfold argstr. ty. Qed.
#[local] Hint Resolve has_argstr : typing.
Lemma has_argfd n : has (argfd n) (from_option (λ r, (r.2 < NFILE)%nat) True).
Proof. unfold argfd. ty. Qed.
Lemma has_fdalloc f : (f < NFILE)%nat → has (fdalloc f) any.
Proof. unfold fdalloc. ty. Qed.
Lemma has_set_ofile fd o : below NFILE o → has (set_ofile fd o) any.
Proof. unfold set_ofile. ty. Qed.
#[local] Hint Resolve has_argfd has_fdalloc has_set_ofile : typing.
Lemma has_tick_wait t n : has (tick_wait t n) any.
Proof. unfold tick_wait. ty. Qed.
#[local] Hint Resolve has_tick_wait : typing.
Lemma has_procinfo_loop l u i up : Forall (λ i, (i < NPROC)%nat) l → has (procinfo_loop l u i up) any.
Proof. intros Hl. revert i up. induction Hl as [|j l Hj Hl IH]; intros i up; cbn [procinfo_loop]; ty. Qed.
#[local] Hint Resolve has_procinfo_loop : typing.
Lemma has_link_bad ip : (ip < NINODE)%nat → has (link_bad ip) any.
Proof. unfold link_bad. ty. Qed.
Lemma has_unlink_bad ip : (ip < NINODE)%nat → has (unlink_bad ip) any.
Proof. unfold unlink_bad. ty. Qed.
Lemma has_isdirempty ip : (ip < NINODE)%nat → has (isdirempty ip) any.
Proof. unfold isdirempty. ty. Qed.
Lemma has_create_fail ip dp : (ip < NINODE)%nat → (dp < NINODE)%nat → has (create_fail ip dp) (below NINODE).
Proof. unfold create_fail. ty. Qed.
#[local] Hint Resolve has_link_bad has_unlink_bad has_isdirempty has_create_fail : typing.
Lemma has_create path t ma mi : has (create path t ma mi) (below NINODE).
Proof. unfold create. ty. Qed.
Lemma has_open_inode ip m : (ip < NINODE)%nat → has (open_inode ip m) any.
Proof. unfold open_inode. ty. Qed.
Lemma has_exec_args n u pg argv : has (exec_args n u pg argv) any.
Proof. revert u pg argv. induction n as [|n IH]; intros u pg argv; cbn [exec_args]; ty. Qed.
#[local] Hint Resolve has_create has_open_inode has_exec_args : typing.
Lemma has_sys_link : has sys_link any.
Proof. unfold sys_link. ty. Qed.
Lemma has_sys_unlink : has sys_unlink any.
Proof. unfold sys_unlink. ty. Qed.
Lemma has_sys_pipe : has sys_pipe any.
Proof.
  unfold sys_pipe. eapply has_bind; [ty|]. intros i Hi. eapply has_bind; [ty|]. intros a _.
  eapply has_bind; [ty|]. intros [[rf wf]|]; [|ty]. cbn [from_option fst snd]. intros [Hr Hw]. ty.
Qed.
Lemma has_sys_fork : has sys_fork any.
Proof. unfold sys_fork. ty. Qed.
Lemma has_sys_exit : has sys_exit any.
Proof. unfold sys_exit. ty. Qed.
Lemma has_sys_wait : has sys_wait any.
Proof. unfold sys_wait. ty. Qed.
Lemma has_sys_read : has sys_read any.
Proof. unfold sys_read. ty. Qed.
Lemma has_sys_kill : has sys_kill any.
Proof. unfold sys_kill. ty. Qed.
Lemma has_sys_exec : has sys_exec any.
Proof. unfold sys_exec. ty. Qed.
Lemma has_sys_fstat : has sys_fstat any.
Proof. unfold sys_fstat. ty. Qed.
Lemma has_sys_chdir : has sys_chdir any.
Proof. unfold sys_chdir. ty. Qed.
Lemma has_sys_dup : has sys_dup any.
Proof. unfold sys_dup. ty. Qed.
Lemma has_sys_getpid : has sys_getpid any.
Proof. unfold sys_getpid. ty. Qed.
Lemma has_sys_sbrk : has sys_sbrk any.
Proof. unfold sys_sbrk. ty. Qed.
Lemma has_sys_pause : has sys_pause any.
Proof. unfold sys_pause. ty. Qed.
Lemma has_sys_uptime : has sys_uptime any.
Proof. unfold sys_uptime. ty. Qed.
Lemma has_sys_open : has sys_open any.
Proof. unfold sys_open. ty. Qed.
Lemma has_sys_write : has sys_write any.
Proof. unfold sys_write. ty. Qed.
Lemma has_sys_mknod : has sys_mknod any.
Proof. unfold sys_mknod. ty. Qed.
Lemma has_sys_mkdir : has sys_mkdir any.
Proof. unfold sys_mkdir. ty. Qed.
Lemma has_sys_close : has sys_close any.
Proof. unfold sys_close. ty. Qed.
Lemma has_sys_sleep : has sys_sleep any.
Proof. unfold sys_sleep. ty. Qed.
Lemma has_sys_getprocinfo : has sys_getprocinfo any.
Proof. unfold sys_getprocinfo. ty. Qed.
(** The system calls are those of the table. *)
Lemma syscalls_cases num f : syscalls num = Some f →
  f ∈ [sys_fork; sys_exit; sys_wait; sys_pipe; sys_read; sys_kill; sys_exec; sys_fstat; sys_chdir; sys_dup;
       sys_getpid; sys_sbrk; sys_pause; sys_uptime; sys_open; sys_write; sys_mknod; sys_unlink; sys_link;
       sys_mkdir; sys_close; sys_sleep; sys_getprocinfo].
Proof.
  intros Hf. unfold syscalls in Hf. repeat (case_match; try discriminate Hf);
    injection Hf as <-; rewrite !elem_of_cons; tauto.
Qed.
Lemma has_syscalls num f : syscalls num = Some f → has f any.
Proof.
  intros Hf%syscalls_cases. revert f Hf. apply Forall_forall. repeat constructor.
  - apply has_sys_fork.
  - apply has_sys_exit.
  - apply has_sys_wait.
  - apply has_sys_pipe.
  - apply has_sys_read.
  - apply has_sys_kill.
  - apply has_sys_exec.
  - apply has_sys_fstat.
  - apply has_sys_chdir.
  - apply has_sys_dup.
  - apply has_sys_getpid.
  - apply has_sys_sbrk.
  - apply has_sys_pause.
  - apply has_sys_uptime.
  - apply has_sys_open.
  - apply has_sys_write.
  - apply has_sys_mknod.
  - apply has_sys_unlink.
  - apply has_sys_link.
  - apply has_sys_mkdir.
  - apply has_sys_close.
  - apply has_sys_sleep.
  - apply has_sys_getprocinfo.
Qed.
#[local] Hint Resolve has_syscalls : typing.
Lemma has_syscall : has syscall any.
Proof. unfold syscall. ty. Qed.
End syscall.
#[export] Hint Resolve has_syscall : typing.
