(* ===== verification/Trampoline.v ===== *)
(** * trampoline.S: into the kernel and back

    The hart's translation through a page table of vm.c, and the runs of [uservec] and
    [userret] on it: from a trap in a user program to [usertrap], and from [usertrap]'s
    return to the user program, across the switch of page tables. *)
From Stdlib Require Import ZArith Lia.
From stdpp Require Import base list gmap numbers functions strings.
From S2P Require Import Prelude Machine KString State Kalloc Sched Vm PageTable UserMem Hart Asm Switch Proc Trap.
Local Open Scope Z_scope.
Local Open Scope kernel_scope.

Section trampoline.
Context {L : Layout} {W : Hw} {X : Text}.
Implicit Types (rs : reg → Z) (cs : Hart.csr → Z) (me : mem) (t : ptree).

(** ** The hart and the tables of vm.c *)

(** The page-table entry for a page and its permissions. *)
Definition pte_of (pa perm : Z) : Z := Z.lor (Z.lor (PA2PTE pa) perm) PTE_V.

Lemma testbit_low pa f i : pte_addr pa → 0 ≤ i < 10 → Z.testbit (Z.lor (PA2PTE pa) f) i = Z.testbit f i.
Proof.
  intros Hpa Hi. rewrite PA2PTE_shift, Z.lor_spec, Z.shiftl_spec_low by (done || lia). done.
Qed.
Lemma PTE_PPN_small v : 0 ≤ v < 2 ^ 54 → Z.shiftl (PTE_PPN v) 12 = PTE2PA v.
Proof.
  intros Hv. unfold PTE_PPN, PTE2PA. rewrite Z.land_ones by lia.
  rewrite Z.mod_small by (rewrite Z.shiftr_div_pow2 by lia; dlia).
  rewrite u64_small; [done|]. rewrite Z.shiftl_mul_pow2, Z.shiftr_div_pow2 by lia. dlia.
Qed.
Lemma shiftr_54 v : 0 ≤ v < 2 ^ 54 → Z.shiftr v 54 = 0.
Proof. intros Hv. rewrite Z.shiftr_div_pow2 by lia. by apply Z.div_small. Qed.

(** One level of the hart's walk, through a table and to a leaf. *)
Lemma sv39_down h level levels table va c :
  pmp_open (h_csr h) → 0 ≤ table → table + 4096 ≤ 2 ^ 55 → page_ok c →
  ld64 (h_mem h) (table + 8 * PX level va) = Z.lor (PA2PTE c) PTE_V →
  sv39_walk h (level :: levels) table va = sv39_walk h levels c va.
Proof.
  intros Hp H0 H1 Hc E. pose proof (PX_range level va). pose proof (page_ok_pte c Hc) as Hca.
  cbn [sv39_walk]. rewrite E, (pmp_all_memory h Load) by (done || lia).
  rewrite !testbit_low by (done || lia).
  rewrite shiftr_54, PTE_PPN_small by (by apply PA2PTE_range). rewrite PTE2PA_page by done. done.
Qed.
Lemma sv39_leaf h level levels table va pa perm :
  pmp_open (h_csr h) → 0 ≤ table → table + 4096 ≤ 2 ^ 55 → pte_addr pa →
  0 ≤ perm < 1024 → Z.testbit perm 1 = true →
  ld64 (h_mem h) (table + 8 * PX level va) = pte_of pa perm →
  sv39_walk h (level :: levels) table va = Some (pte_of pa perm, level).
Proof.
  intros Hp H0 H1 Hpa Hperm Hr E. pose proof (PX_range level va).
  cbn [sv39_walk]. rewrite E, (pmp_all_memory h Load) by (done || lia). unfold pte_of. rewrite <- Z.lor_assoc.
  assert (0 ≤ Z.lor perm PTE_V < 1024) by (apply (lor_range _ _ 10); lia || done).
  rewrite !testbit_low, !Z.lor_spec, Hr by (done || lia).
  change (Z.testbit PTE_V 0) with true. rewrite orb_true_r.
  by rewrite shiftr_54 by (by apply PA2PTE_range).
Qed.

(** The hart finds the leaf entry of the tree. *)
Lemma sv39_tree h t root va pa perm :
  pt_repr (h_mem h) t root → 0 ≤ va < MAXVA → pmp_open (h_csr h) → pte_addr pa →
  0 ≤ perm < 1024 → Z.testbit perm 1 = true → pte_at (h_mem h) t va = pte_of pa perm →
  sv39_walk h [2; 1; 0] root va = Some (pte_of pa perm, 0).
Proof.
  intros Hr Hva Hp Hpa Hperm Hr1 E.
  assert (pte_of pa perm ≠ 0) as Hnz.
  { intros Ez. apply (f_equal (λ z, Z.testbit z 0)) in Ez. unfold pte_of in Ez.
    rewrite Z.lor_spec, Z.bits_0, orb_true_r in Ez. done. }
  unfold pte_at in E. destruct (t !! vpath va) as [lf|] eqn:Elf; [|congruence].
  unfold vpath in Elf. change [PX 2 va; PX 1 va] with ([PX 2 va] ++ [PX 1 va]) in Elf.
  destruct (pt_parent _ _ _ Hr _ _ _ Elf) as [_ [mid Emid]].
  assert (∀ p pg, t !! p = Some pg → 0 ≤ pg ∧ pg + 4096 ≤ 2 ^ 55 ∧ page_ok pg) as Hpg.
  { intros p pg Hpg. pose proof (pt_page _ _ _ Hr _ _ Hpg) as Hok. pose proof (page_ok_pos _ Hok).
    pose proof Hok as [_ ?]. unfold PHYSTOP, KERNBASE in *. split; [lia|]. split; [lia|done]. }
  destruct (Hpg _ _ (pt_root _ _ _ Hr)) as (? & ? & _). destruct (Hpg _ _ Emid) as (? & ? & ?).
  destruct (Hpg _ _ Elf) as (? & ? & ?).
  rewrite (sv39_down h 2 _ root va mid); [|done..|].
  2:{ rewrite (pt_entry _ _ _ Hr [] root (PX 2 va)); [cbn [app]; by rewrite Emid|apply Hr|cbn; lia|apply PX_range]. }
  rewrite (sv39_down h 1 _ mid va lf); [|done..|].
  2:{ rewrite (pt_entry _ _ _ Hr [PX 2 va] mid (PX 1 va)); [by rewrite Elf|done|cbn; lia|apply PX_range]. }
  by apply sv39_leaf.
Qed.

(** The value of [satp] for a root page. *)
Lemma satp_mode root : page_ok root → Z.shiftr (MAKE_SATP root) 60 = 8.
Proof.
  intros Hr. pose proof (page_ok_pos _ Hr). destruct Hr as [_ Hr]. unfold PHYSTOP, KERNBASE in Hr.
  unfold MAKE_SATP. rewrite Z.shiftr_lor, Z.shiftr_shiftr by lia.
  rewrite (Z.shiftr_div_pow2 root), (Z.div_small root) by lia. done.
Qed.
Lemma satp_root root : page_ok root → Z.shiftl (Z.land (MAKE_SATP root) (Z.ones 44)) 12 = root.
Proof.
  intros Hr. pose proof (page_ok_pos _ Hr). destruct Hr as [Hm Hr]. unfold PHYSTOP, KERNBASE, PGSIZE in *.
  unfold MAKE_SATP. rewrite Z.land_lor_distr_l, !Z.land_ones by lia.
  change ((Z.shiftl 8 60) mod 2 ^ 44) with 0. rewrite Z.lor_0_l, Z.shiftl_mul_pow2, Z.shiftr_div_pow2 by lia. dlia.
Qed.
Lemma satp_range root : page_ok root → 0 ≤ MAKE_SATP root < 2 ^ 64.
Proof.
  intros Hr. pose proof (page_ok_pos _ Hr). destruct Hr as [_ Hr]. unfold PHYSTOP, KERNBASE in Hr.
  apply lor_range; [lia|done|]. rewrite Z.shiftr_div_pow2 by lia. dlia.
Qed.

Lemma translate_tree h t root acc va pa perm :
  pt_repr (h_mem h) t root → 0 ≤ va < MAXVA → pmp_open (h_csr h) → pte_addr pa →
  0 ≤ perm < 1024 → Z.testbit perm 1 = true → pte_at (h_mem h) t va = pte_of pa perm →
  h_mode h ≠ Machine →
  translate_with h (MAKE_SATP root) acc va =
  if pte_allows h acc (pte_of pa perm) then Some (pa + va mod PGSIZE) else None.
Proof.
  intros Hr Hva Hp Hpa Hperm Hr1 E Hm. pose proof (pt_page _ _ _ Hr _ _ (pt_root _ _ _ Hr)) as Hroot.
  assert (PTE_PPN (pte_of pa perm) ≪ 12 = pa) as Eppn.
  { assert (0 ≤ Z.lor perm PTE_V < 1024) by (apply (lor_range _ _ 10); lia || done).
    unfold pte_of. rewrite <- Z.lor_assoc, PTE_PPN_small by (by apply PA2PTE_range).
    by apply PTE2PA_PA2PTE. }
  unfold translate_with. rewrite (satp_mode root Hroot), (satp_root root Hroot).
  rewrite (sv39_tree h t root va pa perm) by done. rewrite Eppn. change (PGSIZE * 512 ^ 0) with PGSIZE.
  destruct Hpa as [Hpm _]. rewrite Hpm, Z.eqb_refl, andb_true_r. rewrite MAXVA_val in Hva.
  assert (canonical va = true) as ->.
  { unfold canonical. rewrite (proj2 (Z.leb_le 0 va)), (proj2 (Z.ltb_lt va _)) by lia. done. }
  by destruct (h_mode h), (pte_allows _ _ _).
Qed.

(** ** Address spaces with a trampoline *)

Definition TRAMP_PERM : Z := Z.lor PTE_R PTE_X.
Definition TF_PERM : Z := Z.lor PTE_R PTE_W.

(** The trampoline page is mapped where every address space has it. *)
Record has_trampoline me (root : Z) t : Prop := {
  tr_repr : pt_repr me t root;
  tr_page : pte_at me t TRAMPOLINE = pte_of trampoline TRAMP_PERM;
}.
(** A user page table, as [proc_pagetable] sets it up: the trapframe page is mapped below the
    trampoline, and is not part of the table itself. *)
Record user_space me (root : Z) t (tf : Z) : Prop := {
  us_tramp : has_trampoline me root t;
  us_tf : pte_at me t TRAPFRAME = pte_of tf TF_PERM;
  us_page : page_ok tf;
  us_sep : ∀ p, t !! p ≠ Some tf;
}.

Lemma trampoline_pte : pte_addr trampoline.
Proof.
  pose proof trampoline_range. pose proof etext_range. pose proof kend_range.
  split; [apply trampoline_aligned|]. unfold PHYSTOP, KERNBASE in *. lia.
Qed.

(** Stores into the trapframe page leave the tables alone. *)
Lemma has_trampoline_st64 me root t tf i v :
  has_trampoline me root t → page_ok tf → (∀ p, t !! p ≠ Some tf) → 0 ≤ i < 512 →
  has_trampoline (st64 me (tf + 8 * i) v) root t.
Proof.
  intros [Hr Ht] [Ha _] Hs Hi.
  assert (∀ p pg, t !! p = Some pg → agree me (st64 me (tf + 8 * i) v) pg) as Hag.
  { intros p pg Hp. pose proof (pt_page _ _ _ Hr _ _ Hp) as [? _]. apply agree_st64; [done..| |done].
    intros ->. by eapply Hs. }
  split; [eapply pt_repr_agree; eauto|]. rewrite (pte_at_agree me); [done|]. eauto.
Qed.
Lemma user_space_st64 me root t tf i v :
  user_space me root t tf → 0 ≤ i < 512 → user_space (st64 me (tf + 8 * i) v) root t tf.
Proof.
  intros [Ht Htf Hp Hs] Hi. split; [by apply has_trampoline_st64| |done|done].
  rewrite (pte_at_agree me); [done|]. intros p pg Hpg _.
  pose proof (pt_page _ _ _ (tr_repr _ _ _ Ht) _ _ Hpg) as [? _]. destruct Hp. apply agree_st64; [done..| |done].
  intros ->. by eapply Hs.
Qed.

(** Supervisor mode reaches both pages, user mode neither. *)
Lemma trampoline_fetch cs st me pc rs :
  pmp_open cs → (∀ satp, satp ∈ cs Satp :: st → ∃ root t, satp = MAKE_SATP root ∧ has_trampoline me root t) →
  TRAMPOLINE ≤ pc < MAXVA → pc mod 2 = 0 →
  fetch (Hart Supervisor pc rs cs st me) = Ret tt (Hart Supervisor pc rs cs st me).
Proof.
  intros Hp Hall Hpc He. set (h := Hart Supervisor pc rs cs st me).
  assert (∀ satp, satp ∈ cs Satp :: st → translate_with h satp Fetch pc = Some (trampoline + pc mod PGSIZE)) as Htr.
  { intros satp Hin. destruct (Hall satp Hin) as (root & t & -> & Hr & Ht).
    rewrite (translate_tree h t root Fetch pc trampoline TRAMP_PERM); try done.
    - unfold pte_allows, pte_of. cbn [h_mode h]. rewrite <- !Z.lor_assoc.
      by rewrite !testbit_low by (lia || apply trampoline_pte).
    - rewrite MAXVA_val in *. unfold TRAMPOLINE in Hpc. rewrite MAXVA_val in Hpc. unfold PGSIZE in *. lia.
    - apply trampoline_pte.
    - rewrite <- Ht. apply pte_at_page. unfold TRAMPOLINE in *. rewrite MAXVA_val in *. unfold PGSIZE in *. dlia. }
  unfold fetch. rewrite bind_gets. cbn [h_pc].
  assert (translate h Fetch pc = Some (trampoline + pc mod PGSIZE)) as Ht.
  { unfold translate. cbn [h_csr h_stale h]. rewrite (Htr (cs Satp)) by (by left).
    rewrite (proj2 (forallb_forall _ _)); [done|]. intros x Hx. apply bool_decide_eq_true, Htr.
    right. by apply list_elem_of_In. }
  assert (0 ≤ pc mod PGSIZE < PGSIZE) by (apply Z.mod_pos_bound; done).
  pose proof trampoline_range. pose proof etext_range. pose proof kend_range. unfold PHYSTOP, KERNBASE, PGSIZE in *.
  erewrite bind_run; [done|]. apply reach_run; [exact Ht| |done].
  apply pmp_all_memory; [done|lia|lia].
Qed.

Lemma trapframe_reach cs me pc rs root t tf acc o :
  pmp_open cs → cs Satp = MAKE_SATP root → user_space me root t tf → acc ≠ Fetch →
  0 ≤ o → o + 8 ≤ PGSIZE → o mod 8 = 0 →
  reach acc (TRAPFRAME + o) 8 (Hart Supervisor pc rs cs [] me) = Ret (tf + o) (Hart Supervisor pc rs cs [] me).
Proof.
  intros Hp Hsatp [Ht Htf Hpg Hs] Hacc Ho Ho8 Hm.
  assert ((TRAPFRAME + o) mod PGSIZE = o) as Emod.
  { change TRAPFRAME with (67108862 * PGSIZE). rewrite Z.add_comm, Z.mod_add by done. apply Z.mod_small. lia. }
  apply reach_run.
  - rewrite translate_fresh by done. cbn [h_csr]. rewrite Hsatp.
    replace (tf + o) with (tf + (TRAPFRAME + o) mod PGSIZE) by (by rewrite Emod).
    rewrite (translate_tree _ t root acc (TRAPFRAME + o) tf TF_PERM); try done.
    + unfold pte_allows, pte_of. cbn [h_mode]. rewrite <- !Z.lor_assoc.
      destruct acc; [| |done]; by rewrite !testbit_low by (lia || by apply page_ok_pte).
    + apply Ht.
    + unfold TRAPFRAME, TRAMPOLINE, PGSIZE in *. rewrite MAXVA_val. lia.
    + by apply page_ok_pte.
    + rewrite <- Htf. apply pte_at_page. change TRAPFRAME with (67108862 * PGSIZE).
      unfold PGSIZE in *. dlia.
  - apply pmp_all_memory; [done| |]; pose proof (page_ok_pos _ Hpg); destruct Hpg;
      unfold PHYSTOP, KERNBASE, PGSIZE in *; lia.
  - change TRAPFRAME with (8 * 34359737344). rewrite Z.add_comm, Z.mul_comm, Z.mod_add by done. done.
Qed.

(** ** [uservec] and [userret] as blocks *)

(** The user registers in [struct trapframe] but [a0]. *)
Definition user_slots : list slot :=
  [ (Ra, 40); (Sp, 48); (Gp, 56); (Tp, 64); (T0, 72); (T1, 80); (T2, 88); (S0, 96); (S1, 104);
    (A1, 120); (A2, 128); (A3, 136); (A4, 144); (A5, 152); (A6, 160); (A7, 168); (S2, 176);
    (S3, 184); (S4, 192); (S5, 200); (S6, 208); (S7, 216); (S8, 224); (S9, 232); (S10, 240);
    (S11, 248); (T3, 256); (T4, 264); (T5, 272); (T6, 280) ].
Definition tf_slots : list slot := (A0, 112) :: user_slots.
Definition kernel_slots : list slot := [ (Sp, 8); (Tp, 32); (T0, 16); (T1, 0) ].

Lemma uservec_eq :
  uservec = [ICsrw Sscratch A0; ILi A0 TRAPFRAME] ++ saves A0 user_slots ++
    [ICsrr T0 Sscratch] ++ saves A0 [(T0, 112)] ++ loads A0 kernel_slots ++
    [ISfence; ICsrw Satp T1; ISfence; IJalr T0].
Proof. done. Qed.
Lemma userret_eq :
  userret = [ISfence; ICsrw Satp A0; ISfence; ILi A0 TRAPFRAME] ++ loads A0 user_slots ++
    [ILd A0 112 A0; ISret].
Proof. done. Qed.

Lemma size_le l : size l ≤ 32 * Z.of_nat (length l).
Proof. induction l as [|i l IH]; cbn [size length]; [lia|]. pose proof (isize_range i). lia. Qed.

(** The addresses of the two listings: the trampoline page starts with [uservec], and [userret]
    follows it. *)
Definition a_userret_va : Z := TRAMPOLINE + size uservec.

Lemma tramp_fits : TRAMPOLINE + size uservec + size userret ≤ MAXVA.
Proof.
  pose proof (size_le uservec) as H1. pose proof (size_le userret) as H2.
  change (length uservec) with 42%nat in H1. change (length userret) with 36%nat in H2.
  unfold TRAMPOLINE. rewrite MAXVA_val. unfold PGSIZE. lia.
Qed.

(** Both page tables and the trapframe. *)
Record both_spaces me (root : Z) t (tf kroot : Z) (tk : ptree) : Prop := {
  bs_user : user_space me root t tf;
  bs_kern : has_trampoline me kroot tk;
  bs_sep : ∀ p, tk !! p ≠ Some tf;
}.

Lemma both_spaces_st64 me root t tf kroot tk o v :
  both_spaces me root t tf kroot tk → 0 ≤ o → o + 8 ≤ PGSIZE → o mod 8 = 0 →
  both_spaces (st64 me (tf + o) v) root t tf kroot tk.
Proof.
  intros [Hu Hk Hs] Ho H8 Hm. replace o with (8 * (o / 8)) by dlia. unfold PGSIZE in *.
  split; [apply user_space_st64; [done|dlia]| |done].
  apply has_trampoline_st64; [done|apply Hu|done|dlia].
Qed.

Lemma user_window cs root t tf kroot tk :
  pmp_open cs → cs Satp = MAKE_SATP root →
  window Supervisor cs [] (λ me, both_spaces me root t tf kroot tk) TRAMPOLINE MAXVA TRAPFRAME tf PGSIZE.
Proof.
  intros Hp Hsatp. split.
  - intros me pc rs Hb Hpc He. apply trampoline_fetch; [done| |done|done].
    intros satp [->|Hn]%elem_of_cons; [|by apply elem_of_nil in Hn]. rewrite Hsatp.
    exists root, t. split; [done|apply Hb].
  - intros acc me pc rs o Hacc Hb Ho H8 Hm. by apply (trapframe_reach _ _ _ _ root t); try apply Hb.
  - intros me o v Hb Ho H8 Hm. by apply both_spaces_st64.
  - unfold TRAPFRAME, TRAMPOLINE, PGSIZE. rewrite MAXVA_val. lia.
Qed.

(** A step on the trampoline whatever page tables are in use, both or one. *)
Lemma tramp_step i l cs st pc rs me root t tf kroot tk h' :
  pmp_open cs → both_spaces me root t tf kroot tk →
  (∀ x, x ∈ cs Satp :: st → x = MAKE_SATP root ∨ x = MAKE_SATP kroot) →
  TRAMPOLINE ≤ pc < MAXVA → pc mod 2 = 0 →
  exec i (Hart Supervisor pc rs cs st me) = Ret tt h' →
  exec_all (i :: l) (Hart Supervisor pc rs cs st me) = exec_all l h'.
Proof.
  intros Hp Hb Hall Hpc He Hx. apply exec_step; [|done]. apply trampoline_fetch; [done| |done|done].
  intros x [-> | ->]%Hall; [exists root, t|exists kroot, tk]; (split; [done|]); apply Hb.
Qed.

Lemma exec_csrw_sscratch pc rs cs st me r :
  exec (ICsrw Sscratch r) (Hart Supervisor pc rs cs st me) =
  Ret tt (Hart Supervisor (u64 (pc + isize (ICsrw Sscratch r))) rs (<[Sscratch := rget rs r]> cs) st me).
Proof. done. Qed.
Lemma exec_csrw_satp pc rs cs st me r root :
  page_ok root → rget rs r = MAKE_SATP root →
  exec (ICsrw Satp r) (Hart Supervisor pc rs cs st me) =
  Ret tt (Hart Supervisor (u64 (pc + isize (ICsrw Satp r))) rs (<[Satp := MAKE_SATP root]> cs) (cs Satp :: st) me).
Proof.
  intros Hr E. rewrite exec_csrw by done. unfold put_csr. rewrite E.
  by rewrite bool_decide_true by (right; by apply satp_mode).
Qed.

Lemma u64_tramp pc i : TRAMPOLINE ≤ pc → pc + isize i ≤ MAXVA → u64 (pc + isize i) = pc + isize i.
Proof.
  intros H1 H2. pose proof (isize_range i). apply u64_small. unfold TRAMPOLINE in *.
  rewrite MAXVA_val in *. unfold PGSIZE in *. lia.
Qed.

Lemma pmp_open_insert cs c v : c ≠ Pmpcfg0 → c ≠ Pmpaddr0 → pmp_open cs → pmp_open (<[c := v]> cs).
Proof. intros H1 H2 [Hc Ha]. split; by rewrite fn_lookup_insert_ne. Qed.

Lemma wide_upd rs r v : wide rs → 0 ≤ v < 2 ^ 64 → wide (upd r v rs).
Proof.
  intros Hw Hv r'. destruct (decide (r = r')) as [<-|Hne]; [|by rewrite rget_upd_ne].
  destruct (decide (r = Zero)) as [->|Hz]; [unfold rget; by rewrite decide_True|by rewrite rget_upd].
Qed.

Lemma wide_loaded pa me tbl rs : wide rs → wide (loaded pa me tbl rs).
Proof.
  revert rs. induction tbl as [|[r o] tbl IH]; intros rs Hw; [done|]. apply IH, wide_upd; [done|apply ld64_range].
Qed.

Lemma TRAPFRAME_range : 0 ≤ TRAPFRAME < 2 ^ 64.
Proof. unfold TRAPFRAME, TRAMPOLINE. rewrite MAXVA_val. unfold PGSIZE. lia. Qed.

(** The registers and memory that [uservec] leaves: the user registers are in the trapframe,
    and the kernel's stack pointer, hart number, trap handler and page table are loaded. *)
Section uservec.
Context (rs : reg → Z) (cs : Hart.csr → Z) (me : mem) (root tf kroot : Z) (t tk : ptree).
Context (Hp : pmp_open cs) (Hsatp : cs Satp = MAKE_SATP root) (Hb : both_spaces me root t tf kroot tk).
Context (Hw : wide rs) (Hk : ld64 me tf = MAKE_SATP kroot).

Definition uv_cs : Hart.csr → Z := <[Sscratch := rget rs A0]> cs.
Definition uv_rs1 : reg → Z := upd A0 TRAPFRAME rs.
Definition uv_me1 : mem := stored tf uv_rs1 user_slots me.
Definition uv_rs2 : reg → Z := upd T0 (rget rs A0) uv_rs1.
Definition uv_me2 : mem := stored tf uv_rs2 [(T0, 112)] uv_me1.
Definition uv_rs3 : reg → Z := loaded tf uv_me2 kernel_slots uv_rs2.

Lemma user_slots_ok : table_ok 0 PGSIZE user_slots = true.
Proof. done. Qed.
Lemma uv_window : window Supervisor uv_cs [] (λ me, both_spaces me root t tf kroot tk) TRAMPOLINE MAXVA TRAPFRAME tf PGSIZE.
Proof. apply user_window; [by apply pmp_open_insert|]. unfold uv_cs. by rewrite fn_lookup_insert_ne. Qed.
Lemma uv_both1 : both_spaces uv_me1 root t tf kroot tk.
Proof. exact (stored_keep _ _ _ _ _ _ _ _ _ uv_window uv_rs1 user_slots me Hb user_slots_ok). Qed.
Lemma uv_both2 : both_spaces uv_me2 root t tf kroot tk.
Proof. exact (stored_keep _ _ _ _ _ _ _ _ _ uv_window uv_rs2 [(T0, 112)] uv_me1 uv_both1 eq_refl). Qed.

(** Up to the last load, under the user page table. *)
Lemma uservec_saves rest :
  exec_all ([ICsrw Sscratch A0; ILi A0 TRAPFRAME] ++ saves A0 user_slots ++
    [ICsrr T0 Sscratch] ++ saves A0 [(T0, 112)] ++ loads A0 kernel_slots ++ rest)
    (Hart Supervisor TRAMPOLINE rs cs [] me) =
  exec_all rest (Hart Supervisor (TRAMPOLINE + size ([ICsrw Sscratch A0; ILi A0 TRAPFRAME] ++
      saves A0 user_slots ++ [ICsrr T0 Sscratch] ++ saves A0 [(T0, 112)] ++ loads A0 kernel_slots))
    uv_rs3 uv_cs [] uv_me2).
Proof.
  pose proof tramp_fits as Hfit. pose proof (size_pos userret). rewrite uservec_eq in Hfit.
  rewrite !size_app in Hfit. rewrite !size_app. cbn [size] in *.
  pose proof (isize_range (ICsrw Sscratch A0)). pose proof (isize_even (ICsrw Sscratch A0)).
  pose proof (isize_range (ILi A0 TRAPFRAME)). pose proof (isize_even (ILi A0 TRAPFRAME)).
  pose proof (isize_range (ICsrr T0 Sscratch)). pose proof (isize_even (ICsrr T0 Sscratch)).
  pose proof (size_pos (saves A0 user_slots)). pose proof (size_even (saves A0 user_slots)).
  pose proof (size_pos (saves A0 [(T0, 112)])). pose proof (size_even (saves A0 [(T0, 112)])).
  pose proof (size_pos (loads A0 kernel_slots)). pose proof (size_even (loads A0 kernel_slots)).
  pose proof (isize_range ISfence). pose proof (isize_range (ICsrw Satp T1)). pose proof (isize_range (IJalr T0)).
  assert (TRAMPOLINE mod 2 = 0) as He by done. cbn [app].
  erewrite (tramp_step _ _ _ _ _ _ _ root t tf kroot tk);
    [|done|done|intros x [->|Hn]%elem_of_cons; [by left|by apply elem_of_nil in Hn]|lia|done|apply exec_csrw_sscratch].
  fold uv_cs. rewrite u64_tramp by lia.
  erewrite window_step; [|exact uv_window|done|lia|dlia|apply exec_li].
  rewrite u64_tramp, (u64_small TRAPFRAME) by (lia || apply TRAPFRAME_range). fold uv_rs1.
  rewrite (exec_saves _ _ _ _ _ _ _ _ _ uv_window);
    [|done|apply user_slots_ok|unfold uv_rs1; by autorewrite with regs|lia|lia|dlia]. fold uv_me1.
  erewrite window_step; [|exact uv_window|apply uv_both1|lia|dlia|by apply exec_csrr].
  rewrite u64_tramp by lia. cbn [get_csr h_csr]. unfold uv_cs at 1. rewrite fn_lookup_insert, (u64_small (rget rs A0)) by apply Hw.
  fold uv_rs2.
  rewrite (exec_saves _ _ _ _ _ _ _ _ _ uv_window);
    [|apply uv_both1|done|unfold uv_rs2, uv_rs1; by autorewrite with regs|lia|lia|dlia]. fold uv_me2.
  rewrite (exec_loads _ _ _ _ _ _ _ _ _ uv_window);
    [|apply uv_both2|done|vm_compute; set_solver|unfold uv_rs2, uv_rs1; by autorewrite with regs|lia|lia|dlia].
  fold uv_rs3. do 2 f_equal. lia.
Qed.

Lemma user_slots_112 : 112 ∉ user_slots.*2.
Proof. apply (bool_decide_unpack _). vm_compute. exact I. Qed.
Lemma user_slots_a0 : A0 ∉ user_slots.*1.
Proof. apply (bool_decide_unpack _). vm_compute. exact I. Qed.

(** What is in the trapframe afterwards. *)
Lemma uv_wide1 : wide uv_rs1.
Proof. apply wide_upd; [done|apply TRAPFRAME_range]. Qed.
Lemma uv_slot r o : (r, o) ∈ tf_slots → ld64 uv_me2 (tf + o) = rget rs r.
Proof.
  unfold uv_me2, tf_slots. intros [[= -> ->]|Hin]%elem_of_cons.
  - rewrite (stored_at tf uv_rs2 [(T0, 112)] uv_me1 0 PGSIZE T0 112); [|done| |by left].
    + unfold uv_rs2. by autorewrite with regs.
    + apply wide_upd; [apply uv_wide1|apply Hw].
  - pose proof (proj1 (table_ok_spec _ _ _ user_slots_ok) r o Hin) as (_ & _ & Ho & _).
    assert (o ≠ 112 ∧ r ≠ A0) as [Ho' Hr'].
    { split; intros ->; [apply user_slots_112, (list_elem_of_fmap_2 snd _ (r, 112) Hin)|apply user_slots_a0, (list_elem_of_fmap_2 fst _ (A0, o) Hin)]. }
    rewrite (stored_other tf uv_rs2 [(T0, 112)] uv_me1 0 PGSIZE) by (done || set_solver).
    unfold uv_me1. rewrite (stored_at tf uv_rs1 user_slots me 0 PGSIZE r o user_slots_ok uv_wide1 Hin).
    unfold uv_rs1. by rewrite rget_upd_ne.
Qed.
Lemma uv_frame a : ¬ (tf + 40 ≤ a < tf + 288) → ld8 uv_me2 a = ld8 me a.
Proof.
  intros Ha. unfold uv_me2. rewrite (stored_frame tf uv_rs2 [(T0, 112)] uv_me1 40 288) by done.
  unfold uv_me1. by rewrite (stored_frame tf uv_rs1 user_slots me 40 288).
Qed.
Lemma uv_kernel_word o : 0 ≤ o ≤ 32 → ld64 uv_me2 (tf + o) = ld64 me (tf + o).
Proof. intros Ho. apply ld64_ext. intros b Hb'. apply uv_frame. lia. Qed.
Lemma uv_loaded r o : (r, o) ∈ kernel_slots → rget uv_rs3 r = ld64 me (tf + o).
Proof.
  intros Hin. unfold uv_rs3. rewrite (loaded_at tf uv_me2 kernel_slots uv_rs2 0 PGSIZE r o eq_refl Hin).
  apply uv_kernel_word. unfold kernel_slots in Hin. rewrite !elem_of_cons, elem_of_nil in Hin. naive_solver lia.
Qed.

(** The whole of [uservec]. *)
Lemma uservec_run :
  exec_all uservec (Hart Supervisor TRAMPOLINE rs cs [] me) =
  Ret tt (Hart Supervisor (Z.ldiff (ld64 me (tf + 16)) 1) (upd Ra a_userret_va uv_rs3)
    (<[Satp := MAKE_SATP kroot]> uv_cs) [] uv_me2).
Proof.
  pose proof tramp_fits as Hfit. pose proof (size_pos userret). unfold a_userret_va.
  pose proof (isize_range (ICsrw Sscratch A0)).
  pose proof (size_pos (saves A0 user_slots)). pose proof (isize_range (ILi A0 TRAPFRAME)).
  pose proof (isize_range (ICsrr T0 Sscratch)). pose proof (size_pos (saves A0 [(T0, 112)])).
  pose proof (size_pos (loads A0 kernel_slots)).
  pose proof (isize_range ISfence). pose proof (isize_even ISfence).
  pose proof (isize_range (ICsrw Satp T1)). pose proof (isize_even (ICsrw Satp T1)).
  pose proof (isize_range (IJalr T0)).
  assert (page_ok kroot) as Hkr by (eapply pt_page; [apply (tr_repr _ _ _ (bs_kern _ _ _ _ _ _ Hb))|apply (tr_repr _ _ _ (bs_kern _ _ _ _ _ _ Hb))]).
  assert (TRAMPOLINE mod 2 = 0) as He by done.
  rewrite uservec_eq in *. rewrite (uservec_saves [ISfence; ICsrw Satp T1; ISfence; IJalr T0]).
  match goal with |- context [Hart _ (TRAMPOLINE + size ?l)] => set (l0 := l); pose proof (size_even l0) as Hl0 end.
  assert (size ([ICsrw Sscratch A0; ILi A0 TRAPFRAME] ++ saves A0 user_slots ++ [ICsrr T0 Sscratch] ++
    saves A0 [(T0, 112)] ++ loads A0 kernel_slots ++ [ISfence; ICsrw Satp T1; ISfence; IJalr T0])
    = size l0 + (isize ISfence + (isize (ICsrw Satp T1) + (isize ISfence + isize (IJalr T0))))) as Hsz.
  { unfold l0. rewrite !size_app. cbn [size]. lia. }
  rewrite Hsz in *. pose proof (size_pos l0). clearbody l0.
  assert (rget uv_rs3 T1 = MAKE_SATP kroot) as ET1.
  { rewrite (uv_loaded T1 0), Z.add_0_r by (unfold kernel_slots; set_solver). done. }
  assert (rget uv_rs3 T0 = ld64 me (tf + 16)) as ET0 by (apply uv_loaded; unfold kernel_slots; set_solver).
  erewrite window_step; [|exact uv_window|apply uv_both2|lia|dlia|by apply exec_sfence].
  rewrite u64_tramp by lia.
  erewrite window_step; [|exact uv_window|apply uv_both2|lia|dlia|by apply (exec_csrw_satp _ _ _ _ _ _ kroot)].
  rewrite u64_tramp by lia.
  assert (pmp_open (<[Satp := MAKE_SATP kroot]> uv_cs)) as Hp2.
  { apply pmp_open_insert; [done|done|]. by apply pmp_open_insert. }
  erewrite (tramp_step _ _ _ _ _ _ _ root t tf kroot tk); [|done|apply uv_both2| |lia|dlia|by apply exec_sfence].
  2:{ rewrite fn_lookup_insert. unfold uv_cs. rewrite fn_lookup_insert_ne by done.
      intros x. rewrite !elem_of_cons, elem_of_nil. naive_solver. }
  rewrite u64_tramp by lia.
  erewrite (tramp_step _ _ _ _ _ _ _ root t tf kroot tk); [|done|apply uv_both2| |lia|dlia|apply exec_jalr].
  2:{ rewrite fn_lookup_insert. intros x. rewrite !elem_of_cons, elem_of_nil. naive_solver. }
  rewrite u64_tramp by lia. rewrite ET0. change (exec_all [] ?x) with (Ret tt x). do 3 f_equal.
  rewrite u64_small; [lia|]. unfold TRAMPOLINE in *. rewrite MAXVA_val in *. unfold PGSIZE in *. lia.
Qed.
End uservec.

(** The registers that [userret] leaves are those of the trapframe. *)
Section userret.
Context (rs : reg → Z) (cs : Hart.csr → Z) (me : mem) (root tf kroot : Z) (t tk : ptree).
Context (Hp : pmp_open cs) (Hsatp : cs Satp = MAKE_SATP kroot) (Hb : both_spaces me root t tf kroot tk).
Context (Ha0 : rget rs A0 = MAKE_SATP root).

Definition ur_cs : Hart.csr → Z := <[Satp := MAKE_SATP root]> cs.
Definition ur_rs : reg → Z := loaded tf me user_slots (upd A0 TRAPFRAME rs).

Lemma ur_window : window Supervisor ur_cs [] (λ me, both_spaces me root t tf kroot tk) TRAMPOLINE MAXVA TRAPFRAME tf PGSIZE.
Proof. apply user_window; [by apply pmp_open_insert|]. unfold ur_cs. by rewrite fn_lookup_insert. Qed.

Lemma userret_run :
  exec_all userret (Hart Supervisor a_userret_va rs cs [] me) =
  Ret tt (Hart (if Z.testbit (cs Mstatus) SPP_BIT then Supervisor else User) (cs Sepc)
    (upd A0 (ld64 me (tf + 112)) ur_rs)
    (<[Mstatus := Z.clearbit (Z.setbit (setbit_to (cs Mstatus) SIE_BIT
        (Z.testbit (cs Mstatus) SPIE_BIT)) SPIE_BIT) SPP_BIT]> ur_cs) [] me).
Proof.
  pose proof tramp_fits as Hfit. unfold a_userret_va. pose proof (size_pos uservec). pose proof (size_even uservec).
  pose proof (isize_range ISfence). pose proof (isize_even ISfence).
  pose proof (isize_range (ICsrw Satp A0)). pose proof (isize_even (ICsrw Satp A0)).
  pose proof (isize_range (ILi A0 TRAPFRAME)). pose proof (isize_even (ILi A0 TRAPFRAME)).
  pose proof (size_pos (loads A0 user_slots)). pose proof (size_even (loads A0 user_slots)).
  pose proof (isize_range (ILd A0 112 A0)). pose proof (isize_even (ILd A0 112 A0)). pose proof (isize_range ISret).
  assert (TRAMPOLINE mod 2 = 0) as He by done.
  assert (page_ok root) as Hr by (pose proof (tr_repr _ _ _ (us_tramp _ _ _ _ (bs_user _ _ _ _ _ _ Hb))) as Hr;
    eapply pt_page; [exact Hr|apply Hr]).
  rewrite userret_eq, !size_app in *. cbn [size] in Hfit. cbn [app].
  set (pc0 := TRAMPOLINE + size uservec) in *. assert (pc0 mod 2 = 0) by (unfold pc0; dlia).
  assert (TRAMPOLINE ≤ pc0) by (unfold pc0; lia). clearbody pc0.
  erewrite (tramp_step _ _ _ _ _ _ _ root t tf kroot tk); [|done|done| |lia|dlia|by apply exec_sfence].
  2:{ intros x. rewrite !elem_of_cons, elem_of_nil, Hsatp. naive_solver. }
  rewrite u64_tramp by lia.
  erewrite (tramp_step _ _ _ _ _ _ _ root t tf kroot tk);
    [|done|done| |lia|dlia|by apply (exec_csrw_satp _ _ _ _ _ _ root)].
  2:{ intros x. rewrite !elem_of_cons, elem_of_nil, Hsatp. naive_solver. }
  rewrite u64_tramp by lia. fold ur_cs.
  erewrite (tramp_step _ _ _ _ _ _ _ root t tf kroot tk);
    [|by apply pmp_open_insert|done| |lia|dlia|by apply exec_sfence].
  2:{ intros x. unfold ur_cs. rewrite fn_lookup_insert, !elem_of_cons, elem_of_nil, Hsatp. naive_solver. }
  rewrite u64_tramp by lia.
  erewrite window_step; [|exact ur_window|done|lia|dlia|apply exec_li].
  rewrite u64_tramp, (u64_small TRAPFRAME) by (lia || apply TRAPFRAME_range).
  rewrite (exec_loads _ _ _ _ _ _ _ _ _ ur_window);
    [|done|apply user_slots_ok|apply user_slots_a0|by autorewrite with regs|lia|lia|dlia]. fold ur_rs.
  erewrite window_step; [|exact ur_window|done|lia|dlia|].
  2:{ apply (exec_ld _ _ _ _ _ _ _ _ _ (tf + 112)). unfold ur_rs. rewrite loaded_other by apply user_slots_a0.
      rewrite rget_upd, u64_small by (done || (pose proof TRAPFRAME_range; vm_compute; split; congruence)).
      by apply (wi_reach _ _ _ _ _ _ _ _ _ ur_window). }
  rewrite u64_tramp, (u64_small (ld64 _ _)) by (lia || apply ld64_range).
  erewrite window_step; [|exact ur_window|done|lia|dlia|by apply exec_sret].
  change (exec_all [] ?x) with (Ret tt x). unfold ur_cs. rewrite !fn_lookup_insert_ne by done. done.
Qed.

Lemma ur_slot r o : (r, o) ∈ tf_slots → rget (upd A0 (ld64 me (tf + 112)) ur_rs) r = ld64 me (tf + o).
Proof.
  unfold tf_slots. intros [[= -> ->]|Hin]%elem_of_cons; [by autorewrite with regs|].
  rewrite rget_upd_ne.
  - exact (loaded_at tf me user_slots (upd A0 TRAPFRAME rs) 0 PGSIZE r o user_slots_ok Hin).
  - intros <-. apply user_slots_a0, (list_elem_of_fmap_2 fst _ (A0, o) Hin).
Qed.
End userret.

(** ** The kernel's side of it *)

(** [h] is the hart that runs the kernel in state [s]. *)
Record on_hart (s : kstate) (h : hart) : Prop := {
  oh_mode : h_mode h = Supervisor;
  oh_mem : h_mem h = k_mem s;
  oh_satp : h_csr h Satp = State.r_satp (k_csr s);
  oh_stvec : h_csr h Stvec = State.r_stvec (k_csr s);
  oh_sepc : h_csr h Sepc = Z.ldiff (State.r_sepc (k_csr s)) 1;
  oh_sstatus : get_csr h Sstatus = State.r_sstatus (k_csr s);
  oh_stale : h_stale h = [];
  oh_pmp : pmp_open (h_csr h);
}.

(** [prepare_return] on the trapframe and the registers. *)
Definition return_mem (s : kstate) (p : proc) : mem :=
  let tf := p_trapframe p in
  st64 (st64 (st64 (st64 (k_mem s) (tf + tf_kernel_satp) (State.r_satp (k_csr s)))
    (tf + tf_kernel_sp) (u64 (p_kstack p + PGSIZE))) (tf + tf_kernel_trap) a_usertrap)
    (tf + tf_kernel_hartid) (Z.of_nat (k_hart s)).

Lemma prepare_return_run s i p :
  cur s = Some i → k_procs s !! i = Some p →
  ∃ s', prepare_return s = Ret tt s' ∧ k_mem s' = return_mem s p ∧
    State.r_satp (k_csr s') = State.r_satp (k_csr s) ∧
    State.r_stvec (k_csr s') = u64 (TRAMPOLINE + (a_uservec - trampoline)) ∧
    State.r_sepc (k_csr s') = ld64 (return_mem s p) (p_trapframe p + tf_epc) ∧
    State.r_sstatus (k_csr s') = Z.lor (Z.land (State.r_sstatus (k_csr s)) (Z.lnot SSTATUS_SPP)) SSTATUS_SPIE.
Proof.
  intros Hc Hp.
  assert (wp prepare_return (λ _ s', k_mem s' = return_mem s p ∧
    State.r_satp (k_csr s') = State.r_satp (k_csr s) ∧
    State.r_stvec (k_csr s') = u64 (TRAMPOLINE + (a_uservec - trampoline)) ∧
    State.r_sepc (k_csr s') = ld64 (return_mem s p) (p_trapframe p + tf_epc) ∧
    State.r_sstatus (k_csr s') = Z.lor (Z.land (State.r_sstatus (k_csr s)) (Z.lnot SSTATUS_SPP)) SSTATUS_SPIE) s)
    as ([] & s' & E & H)%wp_run; [|eauto].
  unfold prepare_return, modcsr, csr.
  apply wp_bind. eapply wp_eq; [by apply myproc_run|].
  apply wp_bind. eapply wp_eq; [by apply getp_run|]. unfold intr_off.
  wp_go. split_and!; reflexivity.
Qed.

Lemma return_mem_spaces s p root t kroot tk :
  both_spaces (k_mem s) root t (p_trapframe p) kroot tk → both_spaces (return_mem s p) root t (p_trapframe p) kroot tk.
Proof. intros Hb. unfold return_mem. by repeat apply both_spaces_st64. Qed.

Ltac word_out := rewrite ld64_st64_ne by (unfold tf_kernel_satp, tf_kernel_sp, tf_kernel_trap, tf_kernel_hartid in *; lia).
Lemma return_mem_word s p o :
  24 ≤ o < 32 ∨ 40 ≤ o → o mod 8 = 0 → ld64 (return_mem s p) (p_trapframe p + o) = ld64 (k_mem s) (p_trapframe p + o).
Proof.
  intros Ho Hm. unfold return_mem.
  assert (o = 24 ∨ 40 ≤ o) by (destruct Ho; [left; dlia|by right]). by do 4 word_out.
Qed.
Lemma return_mem_kernel s p :
  0 ≤ State.r_satp (k_csr s) < 2 ^ 64 → 0 ≤ p_kstack p + PGSIZE < 2 ^ 64 → 0 ≤ a_usertrap < 2 ^ 64 →
  (k_hart s < NCPU)%nat →
  let w o := ld64 (return_mem s p) (p_trapframe p + o) in
  w 0 = State.r_satp (k_csr s) ∧ w 8 = p_kstack p + PGSIZE ∧ w 16 = a_usertrap ∧ w 32 = Z.of_nat (k_hart s).
Proof.
  intros H1 H2 H3 H4 w. unfold w, return_mem, NCPU in *. split_and!.
  - do 3 word_out. by apply ld64_st64_same.
  - do 2 word_out. rewrite u64_small by done. by apply ld64_st64_same.
  - word_out. by apply ld64_st64_same.
  - apply ld64_st64_same. lia.
Qed.

(** User code reaches neither the trapframe nor the trampoline. *)
Lemma user_denied h root t tf acc va :
  h_mode h = User → pmp_open (h_csr h) → h_stale h = [] → h_csr h Satp = MAKE_SATP root →
  user_space (h_mem h) root t tf → TRAPFRAME ≤ va < MAXVA → translate h acc va = None.
Proof.
  intros Hm Hp Hs Hsatp [[Hr Ht] Htf Hpg _] Hva. rewrite translate_fresh, Hsatp by done.
  assert (0 ≤ va < MAXVA) by (pose proof TRAPFRAME_range; lia).
  assert (∃ pa perm, pte_addr pa ∧ 0 ≤ perm < 1024 ∧ Z.testbit perm 1 = true ∧ Z.testbit perm 4 = false ∧
    pte_at (h_mem h) t va = pte_of pa perm) as (pa & perm & Hpa & Hperm & H1 & H4 & E).
  { unfold TRAPFRAME, TRAMPOLINE, PGSIZE in *. rewrite MAXVA_val in *.
    destruct (Z_lt_ge_dec va (274877906944 - 4096)).
    - exists tf, TF_PERM. split_and!; try done; [by apply page_ok_pte|]. rewrite <- Htf. apply pte_at_page.
      unfold PGSIZE. dlia.
    - exists trampoline, TRAMP_PERM. split_and!; try done; [apply trampoline_pte|]. rewrite <- Ht. apply pte_at_page.
      unfold PGSIZE. dlia. }
  rewrite (translate_tree h t root acc va pa perm); try done; [|by rewrite Hm].
  unfold pte_allows, pte_of. rewrite Hm, <- Z.lor_assoc, testbit_low, Z.lor_spec, H4 by (done || lia). done.
Qed.

(** ** From the kernel to the user program and back *)

(** A user program [h] about to run: its registers and program counter are those of the
    trapframe in [me], and the pages of the kernel are out of its reach. *)
Record resumed me (root tf : Z) (h : hart) : Prop := {
  re_mode : h_mode h = User;
  re_pc : h_pc h = Z.ldiff (ld64 me (tf + tf_epc)) 1;
  re_regs : ∀ r o, (r, o) ∈ tf_slots → get_reg h r = ld64 me (tf + o);
  re_satp : h_csr h Satp = MAKE_SATP root;
  re_denied : ∀ acc va, TRAPFRAME ≤ va < MAXVA → translate h acc va = None;
}.

(** The kernel [h] entered by a trap of the user program [u]: it is about to run [usertrap] on
    the process's kernel stack, under the kernel's page table, the registers of [u] are in the
    trapframe, and no other memory has changed. *)
Record entered (u : hart) (tf ksatp ksp hartid cause tval : Z) (h : hart) : Prop := {
  en_mode : h_mode h = Supervisor;
  en_pc : h_pc h = a_usertrap;
  en_satp : h_csr h Satp = ksatp ∧ h_stale h = [];
  en_sp : get_reg h Sp = ksp;
  en_tp : get_reg h Tp = hartid;
  en_ra : get_reg h Ra = a_userret_va;
  en_sepc : h_csr h Sepc = h_pc u;
  en_cause : h_csr h Scause = cause ∧ h_csr h Stval = tval;
  en_spp : Z.land (get_csr h Sstatus) SSTATUS_SPP = 0;
  en_regs : ∀ r o, (r, o) ∈ tf_slots → ld64 (h_mem h) (tf + o) = get_reg u r;
  en_frame : ∀ a, ¬ (tf + 40 ≤ a < tf + 288) → ld8 (h_mem h) a = ld8 (h_mem u) a;
}.

Lemma spp_clear z : Z.testbit z SPP_BIT = false → Z.land z SSTATUS_SPP = 0.
Proof.
  intros Hz. apply Z.bits_inj'. intros n Hn. rewrite Z.land_spec, Z.bits_0.
  unfold SSTATUS_SPP. rewrite Z.shiftl_spec by done.
  destruct (decide (n = 8)) as [->|Hne]; [unfold SPP_BIT in Hz; by rewrite Hz|].
  destruct (Z_lt_ge_dec n 8).
  - rewrite (Z.testbit_neg_r 1) by lia. by rewrite andb_false_r.
  - rewrite (Z.bits_above_log2 1 (n - 8)) by (cbn; lia). by rewrite andb_false_r.
Qed.

(** [uservec] after a trap. *)
Lemma trap_entered u root t tf kroot tk ksp hartid cause tval :
  h_mode u = User → h_stale u = [] → pmp_open (h_csr u) → h_csr u Satp = MAKE_SATP root →
  h_csr u Stvec = TRAMPOLINE → wide (h_reg u) → both_spaces (h_mem u) root t tf kroot tk →
  ld64 (h_mem u) tf = MAKE_SATP kroot → ld64 (h_mem u) (tf + 8) = ksp →
  ld64 (h_mem u) (tf + 16) = a_usertrap → ld64 (h_mem u) (tf + 32) = hartid → a_usertrap mod 2 = 0 →
  ∃ h, exec_all uservec (trap cause tval u) = Ret tt h ∧ entered u tf (MAKE_SATP kroot) ksp hartid cause tval h.
Proof.
  intros Hm Hs Hp Hsatp Htv Hw Hb Hk0 Hk8 Hk16 Hk32 Hut.
  destruct u as [m pc rs cs st me]. cbn [h_mode h_pc h_reg h_csr h_stale h_mem] in *. subst m st.
  set (cs1 := h_csr (trap cause tval (Hart User pc rs cs [] me))).
  assert (trap cause tval (Hart User pc rs cs [] me) = Hart Supervisor TRAMPOLINE rs cs1 [] me) as ->.
  { unfold trap. cbn [h_csr h_mode]. rewrite Htv. reflexivity. }
  assert (pmp_open cs1) as Hp1 by (repeat apply pmp_open_insert; done).
  assert (cs1 Satp = MAKE_SATP root) as Hsatp1.
  { unfold cs1, trap. cbn [h_csr set_h_csr set_h_mode set_h_pc]. by rewrite !fn_lookup_insert_ne. }
  eexists. split; [by apply (uservec_run rs cs1 me root tf kroot t tk)|].
  pose proof (uv_loaded rs me tf) as Hl.
  assert (∀ c, c ≠ Satp → c ≠ Sscratch → (<[Satp := MAKE_SATP kroot]> (uv_cs rs cs1)) c = cs1 c) as Hcs.
  { intros c H1 H2. unfold uv_cs. by rewrite !fn_lookup_insert_ne. }
  split; cbn [h_mode h_pc h_reg h_csr h_stale h_mem]; unfold get_reg; cbn [h_reg]; autorewrite with regs; try done.
  - rewrite Hk16. by apply ldiff_even.
  - rewrite (Hl Sp 8); [done|]. unfold kernel_slots. set_solver.
  - rewrite (Hl Tp 32); [done|]. unfold kernel_slots. set_solver.
  - apply spp_clear. cbn [get_csr h_csr]. rewrite Z.land_spec, Hcs by done. unfold cs1, trap.
    cbn [h_csr set_h_csr set_h_mode set_h_pc h_mode]. rewrite fn_lookup_insert.
    rewrite Z.clearbit_neq by done. unfold setbit_to. destruct (Z.testbit (cs Mstatus) SIE_BIT).
    + rewrite Z.setbit_neq by done. by rewrite bool_decide_false, Z.clearbit_eq by done.
    + rewrite Z.clearbit_neq by done. by rewrite bool_decide_false, Z.clearbit_eq by done.
  - intros r o. by apply (uv_slot rs cs1 me root tf kroot t tk).
  - intros a. by apply uv_frame.
Qed.

(** C4: A process goes from the kernel to user space and back without losing anything.
    [prepare_return] followed by [userret] under either page table puts the hart in user mode at
    the trapframe's program counter with every register as the trapframe has it, and neither the
    trapframe nor the trampoline page can be reached from there.  At the next trap, whatever it
    is, [uservec] stores all the registers of the program in the trapframe and arrives in
    [usertrap] on the process's kernel stack, under the kernel's page table, with the number of
    the hart that called [prepare_return]; between the switch of page tables and the fence that
    follows it every access goes to the same place under both. *)
Theorem user_round_trip (s : kstate) (i : nat) (p : proc) (kroot : Z) (t tk : ptree)
    (Hcur : cur s = Some i) (Hproc : k_procs s !! i = Some p)
    (Hsp : both_spaces (k_mem s) (p_pagetable p) t (p_trapframe p) kroot tk)
    (Hsatp : State.r_satp (k_csr s) = MAKE_SATP kroot) (Hhart : (k_hart s < NCPU)%nat)
    (Hks : 0 ≤ p_kstack p + PGSIZE < 2 ^ 64) (Hut : 0 ≤ a_usertrap < 2 ^ 64 ∧ a_usertrap mod 2 = 0)
    (Huv : a_uservec = trampoline) :
  ∃ s', prepare_return s = Ret tt s' ∧
    ∀ h, on_hart s' h → get_reg h A0 = MAKE_SATP (p_pagetable p) → h_pc h = a_userret_va →
    ∃ h1, exec_all userret h = Ret tt h1 ∧ resumed (k_mem s) (p_pagetable p) (p_trapframe p) h1 ∧
      ∀ u cause tval, h_mode u = User → h_csr u = h_csr h1 → h_stale u = [] → wide (h_reg u) →
      both_spaces (h_mem u) (p_pagetable p) t (p_trapframe p) kroot tk →
      (∀ a, p_trapframe p ≤ a < p_trapframe p + 40 → ld8 (h_mem u) a = ld8 (h_mem h1) a) →
      ∃ h2, exec_all uservec (trap cause tval u) = Ret tt h2 ∧
        entered u (p_trapframe p) (MAKE_SATP kroot) (p_kstack p + PGSIZE) (Z.of_nat (k_hart s)) cause tval h2.
Proof.
  set (tf := p_trapframe p) in *. set (root := p_pagetable p) in *.
  destruct (prepare_return_run s i p Hcur Hproc) as (s' & E & Em & Es & Ev & Ee & Est). fold tf in Ee.
  exists s'. split; [exact E|]. intros h [Om Ome Osa Otv Oep Oss Ost Opm] Ha0 Hpc.
  assert (both_spaces (return_mem s p) root t tf kroot tk) as Hb by (by apply return_mem_spaces).
  destruct h as [m pc rs cs st me]. unfold get_reg in Ha0. cbn [h_mode h_pc h_reg h_csr h_stale h_mem] in *.
  subst m pc st. rewrite Es, Hsatp in Osa. rewrite Em in Ome. subst me.
  assert (u64 (TRAMPOLINE + (a_uservec - trampoline)) = TRAMPOLINE) as Etv.
  { rewrite Huv, Z.sub_diag, Z.add_0_r. apply u64_small. vm_compute. split; congruence. }
  rewrite Ev, Etv in Otv. rewrite Ee in Oep. unfold tf in Oep. rewrite return_mem_word in Oep by (done || (left; vm_compute; split; congruence)).
  assert (Z.testbit (cs Mstatus) SPP_BIT = false) as Hspp.
  { transitivity (Z.testbit (Z.land (cs Mstatus) SSTATUS_VIEW) SPP_BIT); [by rewrite Z.land_spec, andb_true_r|].
    cbn [get_csr h_csr] in Oss. rewrite Oss, Est, Z.lor_spec, Z.land_spec. by rewrite andb_false_r. }
  eexists. split; [exact (userret_run rs cs (return_mem s p) root tf kroot t tk Opm Osa Hb Ha0)|].
  rewrite Hspp. set (h1 := Hart User _ _ _ _ _).
  assert (h_csr h1 Satp = MAKE_SATP root) as Hs1.
  { cbn [h1 h_csr]. unfold ur_cs. by rewrite fn_lookup_insert_ne, fn_lookup_insert by done. }
  assert (h_csr h1 Stvec = TRAMPOLINE) as Hv1.
  { cbn [h1 h_csr]. unfold ur_cs. by rewrite !fn_lookup_insert_ne by done. }
  assert (pmp_open (h_csr h1)) as Hp1 by (cbn [h1 h_csr]; unfold ur_cs; by repeat apply pmp_open_insert).
  split.
  { split; [done|done| |done|].
    - intros r o Hin. unfold get_reg. cbn [h1 h_reg]. erewrite ur_slot by exact Hin.
      destruct (proj1 (table_ok_spec 40 288 tf_slots eq_refl) r o Hin) as (? & _ & ? & _).
      apply (return_mem_word s p o); [by right|done].
    - intros acc va Hva. by apply (user_denied h1 root t tf); [..|apply Hb|]. }
  intros u cause tval Hum Huc Hus Huw Hub Hut5.
  destruct (return_mem_kernel s p) as (W0 & W8 & W16 & W32); [|done|apply Hut|done|].
  { pose proof (tr_repr _ _ _ (bs_kern _ _ _ _ _ _ Hb)) as Hkr. rewrite Hsatp.
    eapply satp_range, pt_page; [exact Hkr|apply Hkr]. }
  assert (∀ o, 0 ≤ o ≤ 32 → ld64 (h_mem u) (tf + o) = ld64 (return_mem s p) (tf + o)) as Hword.
  { intros o Ho. apply ld64_ext. intros b Hbb. apply Hut5. lia. }
  apply (trap_entered u root t tf kroot tk); rewrite ?Huc; try done; try (rewrite Hword by lia; done).
  - rewrite <- (Z.add_0_r tf), Hword by lia. unfold tf. by rewrite W0.
  - apply Hut.
Qed.
End trampoline.
