(* ===== verification/UserTable.v ===== *)
(** * The page table of a new process

    [proc_pagetable] (proc.c): the empty user address space with the trampoline and the
    trapframe, which is where the theorems of Trampoline.v start. *)
From Stdlib Require Import ZArith Lia.
From stdpp Require Import base list gmap numbers functions strings.
From S2P Require Import Prelude Machine KString State Kalloc Sched Vm PageTable UserMem UserFree Hart Asm Start Switch Proc Trap Trampoline.
Local Open Scope Z_scope.
Local Open Scope kernel_scope.

Section usertable.
Context {L : Layout}.
Implicit Types (t : ptree) (s : kstate) (l : list Z).

(** An address space without user pages. *)
Record bare_space (root : Z) s l t : Prop := {
  ba_kmem : kmem_inv s l;
  ba_lock : LKmem ∉ k_held s;
  ba_repr : pt_repr (k_mem s) t root;
  ba_sep : pt_sep t l;
  ba_user : ∀ va, uva va → pte_at (k_mem s) t va = 0;
}.

Lemma bare_asp root s l t :
  bare_space root s l t → (∀ va, TRAPFRAME ≤ va < MAXVA → Z.land (pte_at (k_mem s) t va) PTE_U = 0) →
  asp root s l t.
Proof.
  intros [Hk Hl Hr Hs Hu] Hkern.
  assert (∀ va, uva va → ¬ valid (pte_at (k_mem s) t va)) as Hnv.
  { intros va Hva. rewrite Hu by done. apply valid_0. }
  split; try done; intros; exfalso; by eapply Hnv.
Qed.

Lemma bare_owned root s l t x : bare_space root s l t → owned s l t x ↔ x ∈ l ∨ ∃ p, t !! p = Some x.
Proof.
  intros H. unfold owned. split; [|tauto]. intros [?|[?|(va & Hva & Hv & _)]]; [tauto..|].
  rewrite (ba_user _ _ _ _ H) in Hv by done. by apply valid_0 in Hv.
Qed.

(** The pages of the table and the free ones are the pages that were free before. *)
Definition pages_from (l0 : list Z) l t : Prop := ∀ x, (x ∈ l ∨ ∃ p, t !! p = Some x) ↔ x ∈ l0.

(** One page mapped above the user addresses. *)
Lemma wp_map_high root s l t va pa perm l0 Q :
  bare_space root s l t → pages_from l0 l t →
  va mod PGSIZE = 0 → TRAPFRAME ≤ va → va + PGSIZE ≤ MAXVA → pte_addr pa → 0 ≤ perm < 1024 →
  Z.land (pte_at (k_mem s) t va) PTE_V = 0 →
  (∀ s' l' t', s' = withmem (k_mem s') (k_freelist s') s → bare_space root s' l' t' → pages_from l0 l' t' →
     (∀ x, 0 ≤ x < MAXVA → pte_at (k_mem s') t' x = pte_at (k_mem s) t x) →
     (∀ pg, page_ok pg → pg ∉ l0 → agree (k_mem s) (k_mem s') pg) → Q (-1) s') →
  (∀ s' l' t', s' = withmem (k_mem s') (k_freelist s') s → bare_space root s' l' t' → pages_from l0 l' t' →
     (∀ x, 0 ≤ x < MAXVA → pte_at (k_mem s') t' x =
        if decide (x / PGSIZE = va / PGSIZE) then pte_of pa perm else pte_at (k_mem s) t x) →
     (∀ pg, page_ok pg → pg ∉ l0 → agree (k_mem s) (k_mem s') pg) → Q 0 s') →
  wp (mappages root va PGSIZE pa perm) Q s.
Proof.
  intros [Hk Hl Hr Hs Hu] Hpg Hva Htf Hmax Hpa Hperm Hfree Hno Hyes.
  pose proof TRAPFRAME_val. pose proof MAXVA_val. change PGSIZE with (Z.of_nat 1 * PGSIZE) at 1.
  apply (wp_mappages 1 s t root l); try done; try (destruct Hpa; unfold PGSIZE in *; lia || done).
  { destruct Hpa. unfold PGSIZE in *. dlia. }
  { intros k Hk0. replace k with 0 by lia. by rewrite Z.add_0_r. }
  intros k m' f' t' new l' r -> Hr' Hst Hk'.
  assert (pages_from l0 l' t') as Hpg'.
  { intros x. transitivity (x ∈ new ++ l' ∨ ∃ p, t !! p = Some x); [|apply Hpg]. destruct Hst as [_ Hsub Hnew Hused _ _]. split.
    - intros [Hx|[p Hp]]; [left; set_solver|]. destruct (Hnew _ _ Hp); [eauto|left; set_solver].
    - rewrite elem_of_app. intros [[Hx|Hx]|[p Hp]]; [destruct (Hused _ Hx); eauto|by left|eauto]. }
  assert (∀ pg, page_ok pg → pg ∉ l0 → agree (k_mem s) m' pg) as Hag.
  { intros pg Hok Hn. apply (gr_frame _ _ _ _ _ _ _ Hst); [done| |].
    - intros Hin. apply Hn, Hpg. left. set_solver.
    - intros p Hp. apply Hn, Hpg. eauto. }
  assert (∀ x, 0 ≤ x < MAXVA → pte_at m' t' x =
    if decide (0 ≤ x / PGSIZE - va / PGSIZE < Z.of_nat k) then pte_of (pa + (x / PGSIZE - va / PGSIZE) * PGSIZE) perm
    else pte_at (k_mem s) t x) as Hv.
  { intros x Hx. by rewrite (gr_pte _ _ _ _ _ _ _ Hst). }
  assert (bare_space root (withmem m' f' s) l' t') as Hb.
  { split; [done|done|apply Hst|eapply pt_step_sep; [exact Hst|done|apply Hk]|].
    intros x Hx. rewrite k_mem_withmem, Hv by (by apply uva_max). rewrite decide_False; [by apply Hu|].
    destruct Hr' as [[_ ->]|(_ & ? & _)]; [|lia]. unfold uva, PGSIZE in *. dlia. }
  destruct Hr' as [[-> ->]|(-> & Hk1 & _)].
  - apply (Hyes _ l' t'); [done|done|done| |done]. intros x Hx. rewrite k_mem_withmem, Hv by done.
    case_decide as E1; case_decide as E2; try lia. replace (x / PGSIZE - va / PGSIZE) with 0 by lia.
    by rewrite Z.add_0_r.
  - apply (Hno _ l' t'); [done|done|done| |done]. intros x Hx. rewrite k_mem_withmem, Hv by done.
    by rewrite decide_False by lia.
Qed.

Lemma walk_leaf s t root va lf :
  pt_repr (k_mem s) t root → va < MAXVA → t !! vpath va = Some lf →
  walk root va false s = Ret (lf + 8 * PX 0 va) s ∧ lf + 8 * PX 0 va ≠ 0.
Proof.
  intros Hr Hva Hl. rewrite (walk_run s t root va) by done. rewrite Hl. split; [done|].
  pose proof (leaf_addr_pos _ _ _ _ _ Hr Hl). lia.
Qed.

(** The entry of the trampoline removed again. *)
Lemma wp_unmap_high root s l t va l0 Q :
  bare_space root s l t → pages_from l0 l t →
  va mod PGSIZE = 0 → TRAPFRAME ≤ va → va + PGSIZE ≤ MAXVA → valid (pte_at (k_mem s) t va) →
  (∀ s', s' = withmem (k_mem s') (k_freelist s') s → bare_space root s' l t →
     (∀ x, 0 ≤ x < MAXVA → pte_at (k_mem s') t x =
        if decide (x / PGSIZE = va / PGSIZE) then 0 else pte_at (k_mem s) t x) →
     (∀ pg, page_ok pg → pg ∉ l0 → agree (k_mem s) (k_mem s') pg) → Q tt s') →
  wp (uvmunmap root va 1 false) Q s.
Proof.
  intros [Hk Hlk Hr Hs Hu] Hpg Hva Htf Hmax Hv HQ. pose proof TRAPFRAME_val. pose proof MAXVA_val.
  unfold uvmunmap. rewrite Hva. cbn [Z.eqb negb]. rewrite u64_small by (unfold PGSIZE in *; lia).
  change (Z.to_nat 1) with 1%nat. cbn [uvmunmap_loop].
  rewrite (proj2 (Z.ltb_lt va (va + 1 * PGSIZE))) by (unfold PGSIZE; lia).
  destruct (t !! vpath va) as [lf|] eqn:El; [|unfold pte_at in Hv; rewrite El in Hv; by apply valid_0 in Hv].
  destruct (walk_leaf s t root va lf) as [Ew Hnz]; [done|unfold PGSIZE in *; lia|done|].
  apply wp_bind. eapply wp_eq; [exact Ew|]. cbn beta. rewrite (proj2 (Z.eqb_neq _ 0) Hnz).
  apply wp_bind, wp_bind, wp_load64. rewrite <- (pte_at_leaf _ _ _ _ El). unfold valid in Hv.
  rewrite (proj2 (Z.eqb_neq _ 0) Hv). cbn [whenM]. apply wp_bind, wp_ret, wp_store64.
  rewrite u64_small by (unfold PGSIZE in *; lia).
  rewrite (proj2 (Z.ltb_ge (va + PGSIZE) (va + 1 * PGSIZE))) by (unfold PGSIZE; lia). apply wp_ret.
  pose proof (st_leaf root (k_mem s) t va lf 0 Hr El ltac:(lia) ltac:(unfold PGSIZE in *; lia)) as Hst.
  assert (∀ x, 0 ≤ x < MAXVA → pte_at (st64 (k_mem s) (lf + 8 * PX 0 va) 0) t x =
    if decide (x / PGSIZE = va / PGSIZE) then 0 else pte_at (k_mem s) t x) as Hv2 by (apply (gr_pte _ _ _ _ _ _ _ Hst)).
  assert (lf ∈ l0) as Hlf by (apply Hpg; eauto).
  apply HQ; [done| |done|].
  - split; [|done|apply Hst|done|].
    + eapply kmem_inv_agree; [by rewrite withmem_id|]. intros q Hq.
      apply (gr_frame _ _ _ _ _ _ _ Hst); [by eapply kmem_page|set_solver|]. intros p Hp. by eapply Hs.
    + intros x Hx. rewrite k_mem_withmem, Hv2 by (by apply uva_max). rewrite decide_False; [by apply Hu|].
      unfold uva, PGSIZE in *. dlia.
  - intros pg Hok Hn. rewrite k_mem_withmem. apply (gr_frame _ _ _ _ _ _ _ Hst); [done|set_solver|].
    intros p Hp. apply Hn, Hpg. eauto.
Qed.

(** Giving the table back. *)
Lemma wp_free_bare root s l t l0 (Q : unit → kstate → Prop) :
  bare_space root s l t → pages_from l0 l t → (∀ x, 0 ≤ x < MAXVA → pte_at (k_mem s) t x = 0) →
  (∀ s' l', s' = withmem (k_mem s') (k_freelist s') s → kmem_inv s' l' → (∀ x, x ∈ l' ↔ x ∈ l0) →
     (∀ pg, page_ok pg → pg ∉ l0 → agree (k_mem s) (k_mem s') pg) → Q tt s') →
  wp (uvmfree root 0) Q s.
Proof.
  intros Hb Hpg Hz HQ. pose proof TRAPFRAME_val. pose proof MAXVA_val.
  assert (∀ x, owned s l t x ↔ x ∈ l0) as Ho.
  { intros x. rewrite (bare_owned root) by done. apply Hpg. }
  apply (wp_uvmfree root s l t).
  - apply bare_asp; [done|]. intros va Hva. rewrite Hz; [done|lia].
  - lia.
  - intros x Hx. rewrite Hz; [apply valid_0|]. change (PGROUNDUP 0) with 0 in Hx. lia.
  - intros s' l' Es Hk Hl Hag. apply (HQ s' l'); [done|done| |].
    + intros x. by rewrite Hl.
    + intros pg Hok Hn. apply Hag; [done|]. by rewrite Ho.
Qed.

(** What [proc_pagetable] does with the free pages [l]. *)
Definition table_made (s : kstate) (l : list Z) (tf r : Z) (s' : kstate) : Prop :=
  (r = 0 ∧ ∃ l', kmem_inv s' l' ∧ ∀ x, x ∈ l' ↔ x ∈ l) ∨
  (∃ l' t, asp r s' l' t ∧ user_space (k_mem s') r t tf ∧ (∀ va, uva va → pte_at (k_mem s') t va = 0) ∧
     ∀ x, (x ∈ l' ∨ ∃ p, t !! p = Some x) ↔ x ∈ l).

Lemma TRAMPOLINE_val : TRAMPOLINE = 274877902848.
Proof. reflexivity. Qed.

Lemma kernel_page_bits pa perm :
  pte_addr pa → perm = TRAMP_PERM ∨ perm = TF_PERM →
  valid (pte_of pa perm) ∧ Z.land (pte_of pa perm) PTE_U = 0.
Proof.
  intros Hpa Hp. unfold valid, pte_of. rewrite <- Z.lor_assoc, !PA2PTE_land by done.
  destruct Hp as [-> | ->]; done.
Qed.

(** The state differs in memory and free list only, and only in pages of [l0]. *)
Definition within (l0 : list Z) (s s' : kstate) : Prop :=
  s' = withmem (k_mem s') (k_freelist s') s ∧ ∀ pg, page_ok pg → pg ∉ l0 → agree (k_mem s) (k_mem s') pg.
Lemma within_trans l0 s1 s2 s3 : within l0 s1 s2 → within l0 s2 s3 → within l0 s1 s3.
Proof.
  intros [E1 A1] [E2 A2]. split.
  - rewrite E2 at 1. rewrite E1. by rewrite withmem_withmem.
  - intros pg Hok Hn. eapply agree_trans; eauto.
Qed.
Lemma within_procs l0 s s' : within l0 s s' → k_procs s' = k_procs s.
Proof. intros [E _]. by rewrite E. Qed.

(** The two mappings, from an empty table. *)
Lemma wp_fill_table i p c s l t l0 Q :
  bare_space c s l t → pages_from l0 l t → (∀ x, 0 ≤ x < MAXVA → pte_at (k_mem s) t x = 0) →
  k_procs s !! i = Some p → page_ok (p_trapframe p) → p_trapframe p ∉ l0 →
  (∀ r s', within l0 s s' → table_made s l0 (p_trapframe p) r s' → Q r s') →
  wp (r ← mappages c TRAMPOLINE PGSIZE trampoline (Z.lor PTE_R PTE_X);
      if r <? 0 then uvmfree c 0 ;; ret 0 else
      p ← getp i;
      r ← mappages c TRAPFRAME PGSIZE (p_trapframe p) (Z.lor PTE_R PTE_W);
      if r <? 0 then uvmunmap c TRAMPOLINE 1 false ;; uvmfree c 0 ;; ret 0 else ret c) Q s.
Proof.
  intros Hb Hpg Hz Hp Htf Htfl HQ.
  pose proof TRAPFRAME_val. pose proof TRAMPOLINE_val. pose proof MAXVA_val.
  apply wp_bind, (wp_map_high c s l t TRAMPOLINE trampoline _ l0); try done; try (unfold PGSIZE; lia).
  { apply trampoline_pte. }
  { by rewrite Hz by lia. }
  - intros s1 l1 t1 E1 Hb1 Hpg1 Hv1 Hf1. cbn [Z.ltb Z.compare].
    apply wp_bind, (wp_free_bare c s1 l1 t1 l0); [done|done|intros x Hx; by rewrite Hv1, Hz|].
    intros s2 l2 E2 Hk2 Hl2 Hf2. apply wp_ret, HQ.
    + by apply (within_trans _ _ s1).
    + left. split; [done|]. by exists l2.
  - intros s1 l1 t1 E1 Hb1 Hpg1 Hv1 Hf1. cbn [Z.ltb Z.compare].
    assert (within l0 s s1) as Hw1 by done. rewrite <- (within_procs _ _ _ Hw1) in Hp.
    apply wp_bind. eapply wp_eq; [by apply getp_run|]. cbn beta.
    apply wp_bind, (wp_map_high c s1 l1 t1 TRAPFRAME (p_trapframe p) _ l0); try done; try (unfold PGSIZE; lia).
    { by apply page_ok_pte. }
    { rewrite Hv1, decide_False, Hz by (lia || (vm_compute; congruence)). done. }
    + intros s2 l2 t2 E2 Hb2 Hpg2 Hv2 Hf2. cbn [Z.ltb Z.compare].
      apply wp_bind, (wp_unmap_high c s2 l2 t2 TRAMPOLINE l0); try done; try (unfold PGSIZE; lia).
      { rewrite Hv2, Hv1, decide_True by (lia || done). apply kernel_page_bits; [apply trampoline_pte|by left]. }
      intros s3 E3 Hb3 Hv3 Hf3.
      apply wp_bind, (wp_free_bare c s3 l2 t2 l0); [done|done| |].
      { intros x Hx. rewrite Hv3 by done. case_decide as E; [done|]. by rewrite Hv2, Hv1, decide_False, Hz. }
      intros s4 l4 E4 Hk4 Hl4 Hf4. apply wp_ret, HQ.
      * apply (within_trans _ _ s1); [done|]. apply (within_trans _ _ s2); [done|]. by apply (within_trans _ _ s3).
      * left. split; [done|]. by exists l4.
    + intros s2 l2 t2 E2 Hb2 Hpg2 Hv2 Hf2. cbn [Z.ltb Z.compare]. apply wp_ret, HQ; [by apply (within_trans _ _ s1)|].
      right. exists l2, t2. split; [|split; [|split]].
      * apply bare_asp; [done|]. intros va Hva. rewrite Hv2 by lia.
        case_decide; [apply kernel_page_bits; [by apply page_ok_pte|by right]|].
        rewrite Hv1 by lia. case_decide; [apply kernel_page_bits; [apply trampoline_pte|by left]|]. by rewrite Hz by lia.
      * split; [split|..].
        -- apply Hb2.
        -- rewrite Hv2, decide_False, Hv1, decide_True by (lia || (vm_compute; congruence)). done.
        -- by rewrite Hv2, decide_True by (lia || done).
        -- done.
        -- intros q Hq. apply Htfl, Hpg2. eauto.
      * apply Hb2.
      * apply Hpg2.
Qed.

Lemma proc_pagetable_run (i : nat) (p : proc) (s : kstate) (l : list Z)
    (Hk : kmem_inv s l) (Hlk : LKmem ∉ k_held s) (Hp : k_procs s !! i = Some p)
    (Htf : page_ok (p_trapframe p)) (Hn : p_trapframe p ∉ l) :
  ∃ r s', proc_pagetable i s = Ret r s' ∧ within l s s' ∧ table_made s l (p_trapframe p) r s'.
Proof.
  assert (wp (proc_pagetable i) (λ r s', within l s s' ∧ table_made s l (p_trapframe p) r s') s)
    as (r & s' & E & H)%wp_run; [|eauto]. unfold proc_pagetable.
  apply wp_bind, (wp_uvmcreate s l); [done|done| |].
  { intros ->. apply wp_ret. split; [split; [by rewrite withmem_id|done]|]. left. split; [done|]. by exists []. }
  intros c s1 l1 -> Es1 Ha1 Hf1. assert (page_ok c) as Hc by (eapply pt_page; apply Ha1).
  pose proof (page_ok_pos _ Hc). rewrite (proj2 (Z.eqb_neq c 0)) by lia.
  assert (within (c :: l1) s s1) as Hw1 by (split; [done|]; intros pg Hok Hnl; apply Hf1; set_solver).
  apply (wp_fill_table i p c s1 l1 {[ [] := c ]} (c :: l1)).
  - destruct Ha1 as [A B C D _ _ _ _ _]. split; try done. intros va _. apply pte_at_root.
  - intros x. rewrite elem_of_cons. split; [intros [?|[q Hq]]|intros [->|?]]; [tauto| | |tauto].
    + apply lookup_singleton_Some in Hq as [_ <-]. by left.
    + right. exists []. apply lookup_singleton_eq.
  - intros x _. apply pte_at_root.
  - by rewrite (within_procs _ _ _ Hw1).
  - done.
  - done.
  - intros r s2 Hw2 Hm. split; [by apply (within_trans _ _ s1)|exact Hm].
Qed.

(** C9: [proc_pagetable] makes an empty user address space: the trampoline and the process's
    trapframe are mapped at the top, without access for user code, and nothing else is.  The
    pages of the table were free and are no longer; if there are too few the result is 0 and
    every page is free again.  No other page is written. *)
Theorem proc_pagetable_correct (i : nat) (p : proc) (s : kstate) (l : list Z)
    (Hk : kmem_inv s l) (Hlk : LKmem ∉ k_held s) (Hp : k_procs s !! i = Some p)
    (Htf : page_ok (p_trapframe p)) (Hn : p_trapframe p ∉ l) :
  ∃ r s', proc_pagetable i s = Ret r s' ∧ within l s s' ∧ table_made s l (p_trapframe p) r s'.
Proof. by apply proc_pagetable_run. Qed.
End usertable.

(** ** Witnesses *)

#[local] Existing Instance layout_small.
#[local] Existing Instance hw_full.
#[local] Existing Instance text_four.

(** Process 0 has the trapframe page 1, and the pages 2 to 8 are free. *)
Definition proc_tf : proc := set_p_trapframe (small_page 1) proc0.
Definition kstate_tf : kstate :=
  set_k_cpus (<[0 := Some 0]> (k_cpus kstate0))%nat
    (set_k_procs (<[0 := proc_tf]> (k_procs kstate0))%nat kstate_table).

Lemma kmem_inv_tf : kmem_inv kstate_tf (small_page <$> [2; 3; 4; 5; 6; 7; 8]).
Proof. by destruct kmem_inv_table as [A B C]. Qed.
Lemma tf_not_free : small_page 1 ∉ small_page <$> [2; 3; 4; 5; 6; 7; 8].
Proof. apply (bool_decide_unpack _). vm_compute. exact I. Qed.

Lemma proc_pagetable_correct_witness :
  ∃ r s', proc_pagetable 0 kstate_tf = Ret r s' ∧
    table_made kstate_tf (small_page <$> [2; 3; 4; 5; 6; 7; 8]) (small_page 1) r s'.
Proof.
  destruct (proc_pagetable_correct 0 proc_tf kstate_tf _ kmem_inv_tf) as (r & s' & E & _ & H).
  - apply not_elem_of_nil.
  - reflexivity.
  - by apply small_pages.
  - apply tf_not_free.
  - exists r, s'. split; [exact E|exact H].
Defined.

(** Two tables for the same trapframe: the first stands for the kernel's. *)
Definition outcome_of (r : res kstate Z) : Z := match r with Ret a _ => a | _ => 0 end.
Definition two_tables : K Z :=
  k ← proc_pagetable 0; u ← proc_pagetable 0; ret (if (k =? 0) || (u =? 0) then 0 else 1).
Lemma two_tables_fit : outcome_of (two_tables kstate_tf) = 1.
Proof. vm_compute. reflexivity. Qed.

(** A table that stays where it is keeps its trampoline. *)
Lemma has_trampoline_within l s s' root t :
  has_trampoline (k_mem s) root t → within l s s' → pt_sep t l → has_trampoline (k_mem s') root t.
Proof.
  intros [Hr Ht] [_ Hag] Hs.
  assert (∀ p pg, t !! p = Some pg → agree (k_mem s) (k_mem s') pg) as Ha.
  { intros p pg Hp. apply Hag; [by eapply pt_page|by eapply Hs]. }
  split; [eapply pt_repr_agree; eauto|]. rewrite (pte_at_agree (k_mem s)); eauto.
Qed.

Lemma two_spaces s l p :
  kmem_inv s l → LKmem ∉ k_held s → k_procs s !! 0%nat = Some p → page_ok (p_trapframe p) → p_trapframe p ∉ l →
  outcome_of (two_tables s) = 1 →
  ∃ s2 kroot root t tk, within l s s2 ∧ both_spaces (k_mem s2) root t (p_trapframe p) kroot tk.
Proof.
  intros Hk Hlk Hp Htf Hn Hfit. unfold two_tables, outcome_of in Hfit.
  destruct (proc_pagetable_run 0 p s l Hk Hlk Hp Htf Hn) as (k & s1 & E1 & W1 & T1).
  rewrite (bind_run _ _ _ _ _ E1) in Hfit.
  assert (k_held s1 = k_held s) as Hh by (by rewrite (proj1 W1)).
  rewrite <- Hh in Hlk. rewrite <- (within_procs _ _ _ W1) in Hp.
  destruct T1 as [(-> & l1 & Hk1 & Hl1)|(l1 & tk & Ha1 & Hu1 & _ & Hl1)].
  { exfalso. destruct (proc_pagetable_run 0 p s1 l1 Hk1 Hlk Hp Htf) as (u & s2 & E2 & _); [by rewrite Hl1|].
    by rewrite (bind_run _ _ _ _ _ E2) in Hfit. }
  assert (∀ x, x ∈ l1 → x ∈ l) as Hsub by (intros x Hx; apply Hl1; by left).
  destruct (proc_pagetable_run 0 p s1 l1 (as_kmem _ _ _ _ Ha1) Hlk Hp Htf) as (u & s2 & E2 & W2 & T2); [auto|].
  rewrite (bind_run _ _ _ _ _ E2) in Hfit.
  destruct T2 as [(-> & _)|(l2 & t & Ha2 & Hu2 & _)].
  { by rewrite orb_true_r in Hfit. }
  exists s2, k, u, t, tk. split.
  - apply (within_trans _ _ s1); [done|]. destruct W2 as [Hw Hag]. split; [done|]. intros pg Hok Hng. apply Hag; [done|auto].
  - split; [done| |apply Hu1]. eapply has_trampoline_within; [apply Hu1|done|apply Ha1].
Qed.

(** A hart in the kernel's state, and the user program it resumes, which makes a system call. *)
Definition csrs_of (c : csrs) : Hart.csr → Z := λ r,
  match r with
  | Hart.Satp => State.r_satp c | Stvec => State.r_stvec c | Sepc => Z.ldiff (State.r_sepc c) 1
  | Mstatus => State.r_sstatus c | Pmpcfg0 => 0xf | Pmpaddr0 => 0x3fffffffffffff | _ => 0
  end.
Definition hart_of (s : kstate) (satp : Z) : hart :=
  Hart Supervisor a_userret_va (λ r, if decide (r = A0) then satp else 0) (csrs_of (k_csr s)) [] (k_mem s).

Lemma user_round_trip_witness : ∃ s s' root h1 h2,
  prepare_return s = Ret tt s' ∧
  exec_all userret (hart_of s' (MAKE_SATP root)) = Ret tt h1 ∧ h_mode h1 = User ∧
  exec_all uservec (trap 8 0 h1) = Ret tt h2 ∧ h_mode h2 = Supervisor ∧ h_pc h2 = a_usertrap.
Proof.
  destruct (two_spaces kstate_tf _ proc_tf kmem_inv_tf) as (s2 & kroot & root & t & tk & Hw & Hb);
    [apply not_elem_of_nil|reflexivity|by apply small_pages|apply tf_not_free|apply two_tables_fit|].
  pose (s := set_k_csr (mkCsrs 0 0 0 0 0 (MAKE_SATP kroot) 0 0)
    (set_k_procs (<[0%nat := set_p_pagetable root proc_tf]> (k_procs s2)) s2)).
  assert (cur s = Some 0%nat) as Hcur.
  { destruct Hw as [Hw _]. unfold s, cur. cbn [k_cpus k_hart set_k_csr set_k_procs]. by rewrite Hw. }
  assert (k_procs s !! 0%nat = Some (set_p_pagetable root proc_tf)) as Hp.
  { unfold s. cbn [k_procs set_k_csr set_k_procs]. rewrite (within_procs _ _ _ Hw). reflexivity. }
  assert (k_hart s = 0%nat) as Hh.
  { destruct Hw as [Hw _]. unfold s. cbn [k_hart set_k_csr set_k_procs]. by rewrite Hw. }
  destruct (user_round_trip s 0 (set_p_pagetable root proc_tf) kroot t tk Hcur Hp Hb) as (s' & E & Hret).
  - reflexivity.
  - rewrite Hh. unfold NCPU. lia.
  - vm_compute. split; congruence.
  - vm_compute. repeat split; congruence.
  - reflexivity.
  - destruct (prepare_return_run s 0 _ Hcur Hp) as (s'' & E' & _ & Hsa & _ & _ & Hst).
    assert (s'' = s') as -> by congruence.
    destruct (Hret (hart_of s' (MAKE_SATP root))) as (h1 & E1 & [Hm1 _ _ _ _] & Hback).
    + split; try reflexivity; [|by split]. unfold get_csr, hart_of. cbn [h_csr csrs_of]. by rewrite Hst.
    + reflexivity.
    + reflexivity.
    + exists s, s', root, h1.
      assert (both_spaces (h_mem h1) root t (small_page 1) kroot tk ∧ wide (h_reg h1) ∧ h_stale h1 = []) as (Hb1 & Hw1 & Hs1).
      { destruct (prepare_return_run s 0 _ Hcur Hp) as (s3 & E3 & Hm3 & _). assert (s3 = s') as -> by congruence.
        assert (both_spaces (k_mem s') root t (small_page 1) kroot tk) as Hb3.
        { rewrite Hm3. by apply (return_mem_spaces s (set_p_pagetable root proc_tf)). }
        pose proof (userret_run _ (csrs_of (k_csr s')) (k_mem s') root (small_page 1) kroot t tk ltac:(by split) Hsa Hb3
          (eq_refl : rget (h_reg (hart_of s' (MAKE_SATP root))) A0 = MAKE_SATP root)) as Hr.
        unfold hart_of in E1. cbn [h_reg hart_of] in Hr. rewrite Hr in E1. injection E1 as <-.
        split; [exact Hb3|]. split; [|reflexivity]. cbn [h_reg]. apply wide_upd; [|apply ld64_range].
        apply wide_loaded, wide_upd; [|apply TRAPFRAME_range]. intros r. unfold rget.
        pose proof (tr_repr _ _ _ (us_tramp _ _ _ _ (bs_user _ _ _ _ _ _ Hb3))) as Hpr.
        pose proof (satp_range root (pt_page _ _ _ Hpr _ _ (pt_root _ _ _ Hpr))). repeat case_decide; lia. }
      destruct (Hback h1 8 0 Hm1 eq_refl Hs1 Hw1 Hb1) as (h2 & E2 & [Hm2 Hp2 _ _ _ _ _ _ _ _ _]); [done|].
      exists h2. split_and!; assumption.
Defined.
