(* ===== verification/Stub.v ===== *)
(** * The way of a system call from its stub to its handler

    A stub of usys.pl in a user program, the trap it makes, and the handler that
    [syscall] (syscall.c) chooses from the registers that [uservec] saved. *)
From Stdlib Require Import ZArith Lia.
From stdpp Require Import base list gmap numbers functions strings.
From S2P Require Import Prelude Machine KString Bytes State Printk Kalloc Sched Vm PageTable UserMem Console Virtio Bio Log Fs File Hart Asm Start Switch Proc Exec Syscall Trap Trampoline.
Local Open Scope Z_scope.
Local Open Scope kernel_scope.

Section stub.
Context {L : Layout} {F : Fuel} {J : Stack} {W : Hw} {X : Text}.

(** The handler a user program means by the name of a call. *)
Definition handlers : list (string * K Z) :=
  [ ("fork"%string, sys_fork); ("exit"%string, sys_exit); ("wait"%string, sys_wait);
    ("pipe"%string, sys_pipe); ("read"%string, sys_read); ("write"%string, sys_write);
    ("close"%string, sys_close); ("kill"%string, sys_kill); ("exec"%string, sys_exec);
    ("open"%string, sys_open); ("mknod"%string, sys_mknod); ("unlink"%string, sys_unlink);
    ("fstat"%string, sys_fstat); ("link"%string, sys_link); ("mkdir"%string, sys_mkdir);
    ("chdir"%string, sys_chdir); ("dup"%string, sys_dup); ("getpid"%string, sys_getpid);
    ("sbrk"%string, sys_sbrk); ("pause"%string, sys_pause); ("uptime"%string, sys_uptime);
    ("sleep"%string, sys_sleep); ("getprocinfo"%string, sys_getprocinfo) ].

(** The numbers of syscall.h lead from each stub to the handler of its name. *)
Lemma usys_handlers k name code :
  usys !! k = Some (name, code) →
  ∃ n f, code = stub n ∧ 0 < n < 2 ^ 31 ∧ handlers !! k = Some (name, f) ∧ syscalls n = Some f.
Proof.
  intros Hk. do 23 (destruct k as [|k]; [injection Hk as <- <-; eexists _, _; split; [reflexivity|];
    split; [vm_compute; split; congruence|]; split; reflexivity|]).
  done.
Qed.

(** What [syscall] does with the number in the trapframe. *)
Lemma syscall_dispatch s i p n f :
  cur s = Some i → k_procs s !! i = Some p → 0 < n < 2 ^ 31 → syscalls n = Some f →
  ld64 (k_mem s) (p_trapframe p + tf_a 7) = n →
  syscall s = (r ← f; p ← getp i; modmem (λ m, st64 m (p_trapframe p + tf_a 0) r)) s.
Proof.
  intros Hc Hp Hn Hf Ha. unfold syscall. rewrite (bind_run _ _ _ _ _ (myproc_run _ _ Hc)).
  rewrite (bind_run _ _ _ _ _ (getp_run _ _ _ Hp)). rewrite bind_gets, Ha. cbv zeta.
  by rewrite i32_small, Hf by lia.
Qed.

(** The user program stopped at the [ecall] of a stub for call [n]. *)
Definition at_ecall (h : hart) (n : Z) : hart :=
  Hart User (h_pc h + isize (ILi A7 n)) (upd A7 n (h_reg h)) (h_csr h) (h_stale h) (h_mem h).

Lemma stub_traps h n :
  h_mode h = User → 0 < n < 2 ^ 31 → 0 ≤ h_pc h < 2 ^ 38 → h_pc h mod 2 = 0 →
  Z.testbit (h_csr h Medeleg) 8 = true →
  (∀ pc rs, h_pc h ≤ pc < h_pc h + size (stub n) → pc mod 2 = 0 →
     let h' := Hart User pc rs (h_csr h) (h_stale h) (h_mem h) in fetch h' = Ret tt h') →
  exec_all (take 2 (stub n)) h = Ret tt (trap 8 0 (at_ecall h n)).
Proof.
  intros Hm Hn Hpc He Hd Hf. destruct h as [m pc rs cs st me]. cbn [h_mode h_pc h_reg h_csr h_stale h_mem] in *.
  subst m. cbn [stub take]. pose proof (isize_range (ILi A7 n)). pose proof (isize_even (ILi A7 n)).
  cbn [stub size] in Hf. pose proof (isize_range IEcall). pose proof (isize_range IRet).
  erewrite exec_step; [|apply Hf; [lia|done]|apply exec_li].
  rewrite (u64_small n), u64_small by lia.
  erewrite exec_step; [reflexivity|apply Hf; [lia|dlia]|].
  unfold exec, bind, gets. cbn [res_bind h_mode h_csr]. rewrite Hd. reflexivity.
Qed.

End stub.

(** ** Witness *)

#[local] Existing Instance layout_small.
#[local] Existing Instance hw_full.
#[local] Existing Instance text_four.

Definition stack_zero : Stack :=
  {| st_pad := replicate 4 0; up_junk := replicate 28 0; st_pad_length := eq_refl; up_junk_length := eq_refl |}.
Definition one_wakeup : Fuel := {| wakeups := 1; wakeups_pos := Nat.lt_0_1 |}.
Definition hart_user : hart :=
  Hart User 0x1000 (λ _, 0)
    (λ c, match c with Medeleg => 0xb3ff | Pmpcfg0 => 0xf | Pmpaddr0 => 0x3fffffffffffff | _ => 0 end) [] ∅.
Definition kstate_proc0 : kstate := set_k_cpus (<[0 := Some 0]> (k_cpus kstate0))%nat kstate0.

