(* ===== verification/Kernel.v ===== *)
(** * The kernel as a whole

    The entry points of the kernel (traps, the scheduler loop of a hart, the first
    run of a process, booting) as threads that interleave at their context switches,
    with user programs and devices doing anything in between: the judgement of
    Typed.v for traps and booting, and the invariants of every reachable state. *)
From Stdlib Require Import ZArith Lia.
From stdpp Require Import base list gmap numbers strings relations.
From S2P Require Import Prelude Machine KString Bytes State Printk Kalloc Sched Mlfq Vm Console Virtio DiskIo Bio Log Fs File Proc Exec Syscall Trap Boot Typed TypedFs.
Local Open Scope Z_scope.
Local Open Scope kernel_scope.

Section kernel.
Context {L : Layout} {F : Fuel} {J : Stack}.

(** ** Traps and booting *)

Lemma has_modcsr f : has (modcsr f) any.
Proof. apply has_modify. keep. Qed.
Lemma has_csr f : has (csr f) any.
Proof. apply has_gets_any. Qed.
#[local] Hint Resolve has_modcsr has_csr : typing.
Lemma has_intr_on : has intr_on any.
Proof. apply has_modify. keep. Qed.
Lemma has_intr_off : has intr_off any.
Proof. apply has_modify. keep. Qed.
#[local] Hint Resolve has_intr_on has_intr_off : typing.
Lemma has_plic_claim : has plic_claim any.
Proof. unfold plic_claim. ty. Qed.
Lemma has_plic_complete irq : has (plic_complete irq) any.
Proof. unfold plic_complete. ty. Qed.
Lemma has_plicinit : has plicinit any.
Proof. unfold plicinit, plic_write. ty. Qed.
Lemma has_plicinithart : has plicinithart any.
Proof. unfold plicinithart, plic_write. ty. Qed.
Lemma has_clockintr : has clockintr any.
Proof.
  assert (has (modify (λ s, set_k_ticks (u32 (k_ticks s + 1)) s)) any) as Ht.
  { apply has_modify. keep. unfold u32. dlia. }
  unfold clockintr. ty.
Qed.
#[local] Hint Resolve has_plic_claim has_plic_complete has_plicinit has_plicinithart has_clockintr : typing.
Lemma has_devintr : has devintr any.
Proof. unfold devintr. ty. Qed.
Lemma has_prepare_return : has prepare_return any.
Proof. unfold prepare_return. ty. Qed.
#[local] Hint Resolve has_devintr has_prepare_return : typing.
Lemma has_usertrap : has usertrap any.
Proof. unfold usertrap. ty. Qed.
Lemma has_kerneltrap : has kerneltrap any.
Proof. unfold kerneltrap. ty. Qed.
Lemma has_forkret : has forkret any.
Proof. unfold forkret. ty. Qed.
Lemma has_proc_mapstacks t : has (proc_mapstacks t) any.
Proof. unfold proc_mapstacks. ty. Qed.
#[local] Hint Resolve has_proc_mapstacks : typing.
Lemma has_kvmmake : has kvmmake any.
Proof. unfold kvmmake. ty. Qed.
#[local] Hint Resolve has_kvmmake : typing.
Lemma has_kvminit : has kvminit any.
Proof. unfold kvminit. ty. Qed.
Lemma has_kvminithart : has kvminithart any.
Proof. unfold kvminithart. ty. Qed.
Lemma has_trapinithart : has trapinithart any.
Proof. unfold trapinithart. ty. Qed.
#[local] Hint Resolve has_kvminit has_kvminithart has_trapinithart : typing.
Lemma has_main reg : has (main reg) any.
Proof. unfold main, fileinit. ty. Qed.
Lemma has_main_secondary : has main_secondary any.
Proof. unfold main_secondary. ty. Qed.

(** ** The system *)

(** What makes a hart run kernel code: a trap from user space or from the kernel,
    the scheduler loop, a new process running for the first time, and the two ways
    of booting. *)
Inductive entry := EUsertrap | EKerneltrap | EScheduler | EForkret | EMain (reg : Z → Z) | ESecondary.
Definition entry_code (e : entry) : K unit :=
  match e with
  | EUsertrap => usertrap ;; ret tt
  | EKerneltrap => kerneltrap
  | EScheduler => scheduler_iter
  | EForkret => forkret ;; ret tt
  | EMain reg => main reg
  | ESecondary => main_secondary
  end.

(** A suspended thread. *)
Definition thread : Type := kstate → res kstate unit.

(** Between two runs of kernel code, control moves to another hart, with its
    registers, its locks and its interrupt flag; user programs and devices change
    memory, waiting input and pending interrupts at will; the disk serves a request. *)
Inductive world (s : kstate) : kstate → Prop :=
  | world_machine hart held intr csr mem uart irqs :
      world s (set_k_hart hart (set_k_held held (set_k_intr intr (set_k_csr csr
        (set_k_mem mem (set_k_uart uart (set_k_irqs irqs s)))))))
  | world_disk : world s (device_serve s).

(** Kernel code that runs until it returns or switches away; a panic stops the machine. *)
Inductive runs : res kstate unit → kstate → list thread → Prop :=
  | runs_ret s : runs (Ret tt s) s []
  | runs_swtch s k : runs (Swtch s k) s [k].

Inductive sys_step : kstate * list thread → kstate * list thread → Prop :=
  | step_enter e s ts s' new :
      runs (entry_code e s) s' new → sys_step (s, ts) (s', new ++ ts)
  | step_resume k s ts1 ts2 s' new :
      runs (k s) s' new → sys_step (s, ts1 ++ k :: ts2) (s', ts1 ++ new ++ ts2)
  | step_world s s' ts : world s s' → sys_step (s, ts) (s', ts).

Definition reachable (s0 s : kstate) (ts : list thread) : Prop := rtc sys_step (s0, []) (s, ts).
(** The zeroed globals and the contents [disk] of the disk. *)
Definition power_on (disk : gmap Z (list Z)) : kstate := set_k_disk disk kstate0.

(** ** Invariant *)

Lemma has_entry e : has (entry_code e) any.
Proof.
  destruct e; cbn [entry_code].
  - eapply has_bind; [apply has_usertrap|]. ty.
  - apply has_kerneltrap.
  - apply has_scheduler_iter.
  - eapply has_bind; [apply has_forkret|]. ty.
  - apply has_main.
  - apply has_main_secondary.
Qed.

Definition disk_blocks (disk : gmap Z (list Z)) : Prop := map_Forall (λ _ l, length l = Z.to_nat BSIZE) disk.
Lemma typed0 disk : disk_blocks disk → typed (power_on disk).
Proof.
  intros Hd. unfold power_on. constructor; kcbn; unfold kstate0; cbn [k_cpus k_procs k_initproc k_bufs k_log k_itable k_ftable k_pipes k_cons k_vd k_devsw k_ticks]; try done.
  - by apply Forall_replicate.
  - apply Forall_replicate. constructor; cbn; try done; [left; lia|]. by repeat constructor.
  - apply Forall_replicate. constructor; cbn; try done; unfold NBUF; lia.
  - by apply Forall_replicate.
  - by apply Forall_replicate.
  - apply vdisk0_ok.
Qed.

Lemma served_ok v head st :
  vdisk_ok v → is_desc head →
  vdisk_ok (set_v_seen (u16 (v_seen v + 1))
    (set_v_used (<[Z.to_nat (v_used_ridx v mod Z.of_nat NUM) := head]> (v_used v))
      (set_v_used_ridx (u16 (v_used_ridx v + 1)) (set_v_status (<[st := 0]> (v_status v)) v)))).
Proof.
  intros [] Hh. constructor; cbn; rewrite ?length_insert; try done. by apply Forall_insert_ok.
Qed.
Lemma typed_set_vd v s : vdisk_ok v → typed s → typed (set_k_vd v s).
Proof. intros Hv []. by constructor. Qed.
Lemma typed_disk_write b l s :
  length l = Z.to_nat BSIZE → typed s →
  typed (set_k_disk (<[b := l]> (k_disk s)) (set_k_dwrites ((b, l) :: k_dwrites s) s)).
Proof. intros Hl []. constructor; kcbn; try done. by apply map_Forall_insert_2. Qed.
Lemma typed_disk_read i bf s l :
  buf_ok bf → length l = Z.to_nat BSIZE → typed s →
  typed (set_k_bufs (<[i := set_b_data l bf]> (k_bufs s)) s).
Proof.
  intros [] Hl []. constructor; kcbn; rewrite ?length_insert; try done. apply Forall_insert_ok; [done|].
  by constructor.
Qed.
Lemma typed_device s : typed s → typed (device_serve s).
Proof.
  intros Hs. unfold device_serve. set (v := k_vd s). cbv zeta.
  set (head := nth _ (v_avail v) 0).
  assert (vdisk_ok v) as Hv by apply Hs.
  assert (is_desc head) as Hhead by (apply Forall_nth; [apply Hv|done]).
  repeat (case_match; try done).
  - apply typed_set_vd; [by apply served_ok|]. apply typed_disk_write; [|done].
    apply ok_data. by eapply Forall_lookup_1; [apply Hs|].
  - apply typed_set_vd; [by apply served_ok|]. apply typed_disk_read; [|  |done].
    + by eapply Forall_lookup_1; [apply Hs|].
    + destruct (k_disk s !! _) as [l|] eqn:E; cbn; [|done]. by apply (ok_disk s Hs _ l E).
Qed.
Lemma typed_world s s' : world s s' → typed s → typed s'.
Proof. intros [] Hs; [|by apply typed_device]. destruct Hs. by constructor. Qed.

Definition safe_thread (k : thread) : Prop := ∀ s, typed s → ok (k s) any.
Lemma runs_ok r s new : runs r s new → ok r any → typed s ∧ Forall safe_thread new.
Proof.
  intros [s1|s1 k] H; cbn in H.
  - by destruct H.
  - destruct H as [Hs Hk]. split; [done|]. by apply Forall_singleton.
Qed.
Lemma reachable_ok s0 s ts : typed s0 → reachable s0 s ts → typed s ∧ Forall safe_thread ts.
Proof.
  intros Hd Hr. unfold reachable in Hr.
  cut (∀ x y, rtc sys_step x y → typed x.1 ∧ Forall safe_thread x.2 → typed y.1 ∧ Forall safe_thread y.2).
  { intros H. apply (H _ _ Hr). split; [done|constructor]. }
  clear. induction 1 as [x|x y z Hstep _ IH]; [done|]. intros [Hs Hts]. apply IH.
  destruct Hstep as [e s ts s' new H|k s ts1 ts2 s' new H|s s' ts H]; cbn in *.
  - destruct (runs_ok _ _ _ H (has_entry e s Hs)). split; [done|]. by apply Forall_app.
  - apply Forall_app in Hts as [H1 [Hk H2]%Forall_cons]. destruct (runs_ok _ _ _ H (Hk s Hs)).
    split; [done|]. by rewrite !Forall_app.
  - split; [by eapply typed_world|done].
Qed.

(** An access to a table of the kernel outside its bounds. *)
Definition bad_access (r : res kstate unit) : Prop := ∃ msg s, r = Undef msg s ∧ out_of_bounds msg = true.


(** C16: in every state reachable from a well-formed one, a hart that holds no lock and enters the scheduler
    loop switches to a process if any is RUNNABLE, and to one of the best lane: the
    passes over the lanes 0 to 2 miss nobody, because no process ever leaves these
    lanes. *)
Theorem scheduler_misses_nobody (s0 s : kstate) (ts : list thread) (i : nat) (p : proc)
    (Hinit : typed s0) (Hreach : reachable s0 s ts) (Hheld : k_held s = [])
    (Hp : k_procs s !! i = Some p) (Hrun : p_state p = RUNNABLE) :
  ∃ j q k, k_procs s !! j = Some q ∧ p_state q = RUNNABLE ∧ p_priority q ≤ p_priority p ∧
    entry_code EScheduler s = Swtch (dispatched j q (set_k_intr false s)) k.
Proof.
  destruct (reachable_ok s0 s ts Hinit Hreach) as [Hs _].
  assert (Forall lane_ok (k_procs s)) as Hlanes.
  { eapply Forall_impl; [apply (ok_procs s Hs)|]. intros q [Hq]. unfold in_lane in Hq. unfold lane_ok. lia. }
  assert (procs_free s) as Hf by (intros j; rewrite Hheld; apply not_elem_of_nil).
  destruct (pick (k_procs s)) as [j|] eqn:E; [|by destruct (pick_None _ Hlanes E i p Hp)].
  destruct (pick_Some _ _ E) as (q & Hq & Hqr & _ & Hmin).
  destruct (scheduler_iter_swtch j q s (ok_procs_len s Hs) Hf E Hq) as (k & Hk & _).
  exists j, q, k. split_and!; try done.
  assert (lane_ok p) as Hlp by (by eapply Forall_lookup_1 in Hlanes).
  destruct (Hmin i p Hp Hrun Hlp); lia.
Qed.
End kernel.

(** ** Instances *)

Definition stack0 : Stack := {| st_pad := replicate 4 0; up_junk := replicate 28 0;
  st_pad_length := eq_refl; up_junk_length := eq_refl |}.

(** A timer interrupt on the first hart of the machine that has just been powered on. *)
Definition timer_csrs : csrs := mkCsrs 0x8000000000000005 0 0 0 SSTATUS_SPP 0 0 0.
Definition interrupted : kstate :=
  set_k_hart 0 (set_k_held [] (set_k_intr false (set_k_csr timer_csrs
    (set_k_mem ∅ (set_k_uart (mkUart [] true false 3 3 1 3 0) (set_k_irqs [] (power_on ∅))))))).
Definition ticked : kstate :=
  match @entry_code layout_small fuel1 stack0 EKerneltrap interrupted with Ret _ s => s | _ => interrupted end.
Lemma ticked_reachable : @reachable layout_small fuel1 stack0 (power_on ∅) ticked [].
Proof.
  eapply rtc_l; [apply step_world, world_machine|]. eapply rtc_l; [|apply rtc_refl].
  apply (step_enter EKerneltrap interrupted [] ticked []).
  replace (entry_code EKerneltrap interrupted) with (Ret tt ticked : res kstate unit) by (vm_compute; reflexivity).
  constructor.
Qed.

Lemma two_runnable_typed : typed two_runnable.
Proof.
  pose proof (typed0 ∅ (map_Forall_empty _)) as [].
  constructor; try done. unfold two_runnable. kcbn.
  apply Forall_insert_ok; [apply Forall_insert_ok|]; [done| |];
    (constructor; cbn; try done; [unfold in_lane; lia|by repeat constructor]).
Qed.
Lemma scheduler_misses_nobody_witness :
  ∃ j q k, k_procs two_runnable !! j = Some q ∧ p_state q = RUNNABLE ∧ p_priority q ≤ 1 ∧
    @entry_code layout_small fuel1 stack0 EScheduler two_runnable =
      Swtch (dispatched j q (set_k_intr false two_runnable)) k.
Proof.
  apply (@scheduler_misses_nobody layout_small fuel1 stack0 two_runnable two_runnable [] 3
    (set_p_priority 1 (set_p_state RUNNABLE proc0)) two_runnable_typed (rtc_refl _ _));
    reflexivity.
Defined.
