(* ===== verification/Procinfo.v ===== *)
(** * [sys_getprocinfo]

    The system call behind the monitor program (sysproc.c, uproc.h): one [struct uproc]
    for every slot of the process table in use, copied to the caller's memory in the
    order of the slots. *)
From Stdlib Require Import ZArith Lia.
From stdpp Require Import base list gmap numbers strings.
From S2P Require Import Prelude Machine KString Bytes State Kalloc Sched Vm PageTable UserMem UserCopy DiskIo Proc Syscall Kernel.
Local Open Scope Z_scope.
Local Open Scope kernel_scope.

Section procinfo.
Context {L : Layout} {J : Stack}.
Implicit Types (t : ptree) (s : kstate) (l : list Z).

(** ** Rows *)

Definition active (p : proc) : bool := negb (bool_decide (p_state p = UNUSED)).

(** What a row says about a process: its pid, priority and stopwatch as the 32-bit
    fields of the struct, and its name as a C string. *)
Record row_of (p : proc) (row : list Z) : Prop := {
  row_length : length row = 28%nat;
  row_pid : ldl 4 row 0 = u32 (p_pid p);
  row_priority : ldl 4 row 4 = u32 (p_priority p);
  row_ticks : ldl 4 row 8 = u32 (p_ticks_used p);
  row_name : cstr (bytes_of (drop 12 row)) 16 = cstr (bytes_of (p_name p)) 15;
}.

(** The rows the loop makes; each starts from the bytes of the row before. *)
Fixpoint rows (ps : list proc) (up : list Z) : list (list Z) :=
  match ps with
  | [] => []
  | p :: ps =>
      if active p then let up' := uproc_of p up in up' :: rows ps up' else rows ps up
  end.

Lemma slice_app_l (l1 l2 : list Z) off n : off = length l1 → slice (l1 ++ l2) off n = take n l2.
Proof. intros ->. unfold slice. by rewrite drop_app_length. Qed.
Lemma uproc_of_row p up : length up = 28%nat → row_of p (uproc_of p up).
Proof.
  intros Hup. unfold uproc_of.
  set (a := le_bytes 4 (p_pid p)). set (b := le_bytes 4 (p_priority p)). set (c := le_bytes 4 (p_ticks_used p)).
  set (d := safestrcpy (drop 12 up) (bytes_of (p_name p)) 16).
  assert (length a = 4%nat ∧ length b = 4%nat ∧ length c = 4%nat) as (Ha & Hb & Hc) by (split_and!; apply length_le_bytes).
  assert (length d = 16%nat) as Hd by (unfold d; rewrite length_safestrcpy, length_drop; lia).
  assert (∀ v, le_val (le_bytes 4 v) = u32 v) as Hval by (intros v; apply (le_val_bytes 4 v)).
  split.
  - rewrite !length_app. lia.
  - unfold ldl, slice. rewrite drop_0. rewrite take_app_length' by done. apply Hval.
  - unfold ldl. rewrite slice_app_l by lia. rewrite take_app_length' by done. apply Hval.
  - unfold ldl. rewrite app_assoc, slice_app_l by (rewrite length_app; lia). rewrite take_app_length' by done. apply Hval.
  - rewrite !app_assoc, drop_app_length' by (rewrite !length_app; lia).
    apply safestrcpy_cstr. rewrite length_drop. lia.
Qed.
Lemma rows_ok ps up : length up = 28%nat → Forall2 row_of (filter active ps) (rows ps up).
Proof.
  revert up. induction ps as [|p ps IH]; intros up Hup; [constructor|]. cbn [rows filter list_filter].
  destruct (active p) eqn:E.
  - rewrite decide_True by done. pose proof (uproc_of_row p up Hup) as Hr. constructor; [done|].
    apply IH. apply Hr.
  - rewrite decide_False by (by intros []). by apply IH.
Qed.

(** ** The state while a lock is held *)

Lemma asp_held root s l t lks : asp root s l t → LKmem ∉ lks → asp root (set_k_held lks s) l t.
Proof. intros [[]]. by split. Qed.
Lemma asp_procs root s l t ps : asp root s l t → asp root (set_k_procs ps s) l t.
Proof. intros [[]]. by split. Qed.
Lemma ustep_locked s l t s' l' t' h lks :
  ustep (set_k_held lks s) l t s' l' t' h → ustep s l t (set_k_held (k_held s) s') l' t' h.
Proof.
  intros [S O F P V]. split; try done. rewrite S. unfold withmem. kstate_eq.
Qed.

(** ** The loop *)

Context (root sz uaddr : Z) (me : nat).

(** The caller: process [me] with its address space, no process lock held. *)
Record caller (s : kstate) l t : Prop := {
  ca_asp : asp root s l t;
  ca_free : procs_free s;
  ca_cur : cur s = Some me;
  ca_proc : ∃ p, k_procs s !! me = Some p ∧ p_pagetable p = root ∧ p_sz p = sz;
  ca_sz : 0 ≤ sz ≤ TRAPFRAME;
}.
Lemma caller_ustep s l t s' l' t' h : caller s l t → asp root s' l' t' → ustep s l t s' l' t' h → caller s' l' t'.
Proof. intros [? Hf Hc Hp ?] Ha [S _ _ _ _]. split; [done|..]; try rewrite S; done. Qed.

(** What the loop leaves: all the rows, or a part of them and -1. *)
Definition info_post s l t (a : Z) (bs : list Z) (n : Z) (Q : Z + Z → kstate → Prop) : Prop :=
  (∀ k s' l' t', (k < length bs)%nat → asp root s' l' t' →
     ustep s l t s' l' t' (upd_view a (take k bs) (uview (k_mem s) t)) → Q (inl (-1)) s') ∧
  (∀ s' l' t', asp root s' l' t' →
     ustep s l t s' l' t' (upd_view a bs (uview (k_mem s) t)) → Q (inr n) s').

(** After the bytes [b1], the rest. *)
Lemma info_post_app s l t s1 l1 t1 a b1 b2 n Q :
  ustep s l t s1 l1 t1 (upd_view a b1 (uview (k_mem s) t)) →
  info_post s l t a (b1 ++ b2) n Q → info_post s1 l1 t1 (a + Z.of_nat (length b1)) b2 n Q.
Proof.
  intros Hs [Hfail Hok]. assert (∀ s' l' t' b, ustep s1 l1 t1 s' l' t'
      (upd_view (a + Z.of_nat (length b1)) b (uview (k_mem s1) t1)) →
    ustep s l t s' l' t' (upd_view a (b1 ++ b) (uview (k_mem s) t))) as Hcomp.
  { intros s' l' t' b H. eapply ustep_view; [by eapply ustep_trans|]. intros x Hx. cbv beta.
    rewrite <- upd_view_app. apply upd_view_ext. by apply Hs. }
  split.
  - intros k s' l' t' Hk Ha H. apply (Hfail (length b1 + k)%nat s' l' t'); [rewrite length_app; lia|done|].
    rewrite take_app_add. by apply Hcomp.
  - intros s' l' t' Ha H. apply (Hok s' l' t'); [done|]. by apply Hcomp.
Qed.

Lemma wp_procinfo_loop js s l t idx up Q ps :
  caller s l t → 0 ≤ uaddr → 0 ≤ idx → uaddr + 28 * (idx + Z.of_nat (length js)) ≤ 2 ^ 64 →
  length up = 28%nat → mapM (λ j, k_procs s !! j) js = Some ps →
  info_post s l t (uaddr + 28 * idx) (concat (rows ps up)) (idx + Z.of_nat (length (rows ps up))) Q →
  wp (procinfo_loop js uaddr idx up) Q s.
Proof.
  revert s l t idx up ps. induction js as [|j js IH]; intros s l t idx up ps Hc Hu Hi Hmax Hup Hps HQ.
  { cbn in Hps. injection Hps as <-. cbn. apply wp_ret. rewrite Z.add_0_r in HQ. apply (proj2 HQ s l t); [apply Hc|].
    eapply ustep_view; [apply ustep_refl|]. intros x _. by rewrite upd_view_out by (cbn; lia). }
  apply bind_Some in Hps as (p & Hp & Hps). apply bind_Some in Hps as (ps' & Hps & [= <-]).
  destruct (ca_proc _ _ _ Hc) as (q & Hq & Hroot & Hsz).
  cbn [procinfo_loop]. apply wp_bind, wp_acquire; [by apply Hc|].
  apply wp_bind. eapply wp_eq; [by apply getp_run|]. fold (active p). cbn [rows] in HQ.
  destruct (active p) eqn:Eact.
  2: { apply wp_bind, (wp_release (LProc j) (k_held s)); [done|].
    replace (set_k_held (k_held s) (upd_held (cons (LProc j)) s)) with s by kstate_eq.
    cbn in Hmax. eapply (IH s l t); try done; lia. }
  cbv zeta in HQ |- *. set (up' := uproc_of p up) in *.
  assert (length up' = 28%nat) as Hup' by (by apply (row_length p), uproc_of_row).
  set (s1 := upd_held (cons (LProc j)) s) in *.
  apply wp_bind. eapply wp_eq; [apply myproc_run, Hc|]. apply wp_bind. eapply wp_eq; [by apply getp_run|].
  cbn [length] in Hmax.
  assert (u64 (uaddr + idx * 28) = uaddr + 28 * idx) as -> by (rewrite u64_small by lia; lia).
  assert (asp root s1 l t) as Ha1.
  { apply asp_held; [apply Hc|]. apply not_elem_of_cons. split; [done|]. apply (as_lock _ _ _ _ (ca_asp _ _ _ Hc)). }
  apply wp_bind. rewrite Hroot. apply (wp_copyout_loop _ root sz s1 l t); [done| |lia|done|].
  { exists me, q. split_and!; try done; apply Hc. }
  split.
  - intros k s' l' t' Hk Ha Hs. cbn. apply wp_bind, (wp_release (LProc j) (k_held s)).
    { rewrite (us_state _ _ _ _ _ _ _ Hs). done. }
    apply wp_ret. apply (proj1 HQ k _ l' t').
    + cbn [concat]. rewrite length_app. lia.
    + apply asp_held; [done|]. apply (as_lock _ _ _ _ (ca_asp _ _ _ Hc)).
    + cbn [concat]. rewrite take_app_le by lia. by apply (ustep_locked s l t s' l' t' _ (LProc j :: k_held s)).
  - intros s' l' t' Ha Hs _. cbn. apply wp_bind, (wp_release (LProc j) (k_held s)).
    { rewrite (us_state _ _ _ _ _ _ _ Hs). done. }
    pose proof (ustep_locked s l t s' l' t' _ (LProc j :: k_held s) Hs) as Hs2.
    assert (asp root (set_k_held (k_held s) s') l' t') as Ha2.
    { apply asp_held; [done|]. apply (as_lock _ _ _ _ (ca_asp _ _ _ Hc)). }
    eapply (IH _ l' t' (idx + 1) up' ps'); [by eapply caller_ustep|done|lia|lia|done| |].
    + rewrite (us_state _ _ _ _ _ _ _ Hs2). exact Hps.
    + replace (uaddr + 28 * (idx + 1)) with (uaddr + 28 * idx + Z.of_nat (length up')) by lia.
      replace (idx + 1 + Z.of_nat (length (rows ps' up'))) with (idx + Z.of_nat (length (up' :: rows ps' up'))) by (cbn; lia).
      eapply (info_post_app s l t); [exact Hs2|exact HQ].
Qed.

Lemma mapM_slots s : length (k_procs s) = NPROC → mapM (λ j, k_procs s !! j) slots = Some (k_procs s).
Proof.
  intros Hl. apply mapM_Some. unfold slots. rewrite <- Hl. apply Forall2_same_length_lookup_2.
  - by rewrite length_seq.
  - intros i j p Hj Hp. apply lookup_seq in Hj as [-> _]. done.
Qed.

(** C39: [sys_getprocinfo] reports the process table: it always returns; with the
    number of slots in use, one row for each of them in the order of the slots is at
    the address the caller gave, with the pid, the priority, the stopwatch and the
    name of the process; with -1, a part of these bytes has been written.  No other byte
    of the caller's memory changes, nor any page of anybody else. *)
Theorem getprocinfo_correct s l t p (Hcaller : caller s l t) (Htable : length (k_procs s) = NPROC)
    (Hp : k_procs s !! me = Some p) (Haddr : uaddr = ld64 (k_mem s) (p_trapframe p + tf_a 0))
    (Hfits : uaddr + 28 * Z.of_nat NPROC ≤ 2 ^ 64) :
  ∃ r s' l' t' rs, sys_getprocinfo s = Ret r s' ∧ asp root s' l' t' ∧
    Forall2 row_of (filter active (k_procs s)) rs ∧
    ((r = Z.of_nat (length (filter active (k_procs s))) ∧
      ustep s l t s' l' t' (upd_view uaddr (concat rs) (uview (k_mem s) t))) ∨
     (r = u64 (-1) ∧ ∃ k, (k < length (concat rs))%nat ∧
      ustep s l t s' l' t' (upd_view uaddr (take k (concat rs)) (uview (k_mem s) t)))).
Proof.
  pose proof (rows_ok (k_procs s) up_junk up_junk_length) as Hrows. set (rs := rows (k_procs s) up_junk) in *.
  pose proof (Forall2_length _ _ _ Hrows) as Hn.
  assert (length rs ≤ NPROC)%nat as Hle by (rewrite <- Hn, <- Htable; apply length_filter).
  cut (wp sys_getprocinfo (λ r s', ∃ l' t', asp root s' l' t' ∧
    ((r = Z.of_nat (length (filter active (k_procs s))) ∧
      ustep s l t s' l' t' (upd_view uaddr (concat rs) (uview (k_mem s) t))) ∨
     (r = u64 (-1) ∧ ∃ k, (k < length (concat rs))%nat ∧
      ustep s l t s' l' t' (upd_view uaddr (take k (concat rs)) (uview (k_mem s) t))))) s).
  { intros (r & s' & Hrun & l' & t' & H1 & H2)%wp_run. by exists r, s', l', t', rs. }
  unfold sys_getprocinfo, argaddr, argraw.
  apply wp_bind, wp_bind. eapply wp_eq; [apply myproc_run, Hcaller|]. apply wp_bind. eapply wp_eq; [by apply getp_run|].
  cbn [Z.leb Z.compare andb]. apply wp_gets. rewrite <- Haddr. apply wp_bind.
  assert (0 ≤ uaddr) as Hu0 by (rewrite Haddr; apply ld64_range).
  apply (wp_procinfo_loop slots s l t 0 up_junk _ (k_procs s)); try done.
  - apply up_junk_length.
  - by apply mapM_slots.
  - fold rs. rewrite Z.mul_0_r, Z.add_0_r. split.
    + intros k s' l' t' Hk Ha Hs. apply wp_ret. exists l', t'. split; [done|]. right. split; [done|]. by exists k.
    + intros s' l' t' Ha Hs. apply wp_ret. exists l', t'. split; [done|]. left. split; [|done].
      rewrite u64_small; unfold NPROC in *; lia.
Qed.
End procinfo.

(** ** Instance *)

(** The running process has 10000 bytes of memory and a zeroed trapframe, so that the
    table goes to address 0. *)
Definition kstate_info : kstate :=
  set_k_procs (<[0 := set_p_state RUNNING (set_p_sz 10000 (set_p_pagetable (small_page 1) proc0))]> (k_procs kstate0))%nat
    kstate_user.
Lemma kstate_info_caller :
  @caller layout_small (small_page 1) 10000 0 kstate_info (small_page <$> [2; 3; 4; 5; 6; 7; 8]) small_table.
Proof.
  split; [apply asp_procs, asp_user|by intros i ?%elem_of_nil|reflexivity| |vm_compute; split; congruence].
  eexists. split; [reflexivity|]. by split.
Qed.
Lemma getprocinfo_correct_witness :
  ∃ r s', @sys_getprocinfo layout_small stack0 kstate_info = Ret r s' ∧ (r = 1 ∨ r = 2 ^ 64 - 1).
Proof.
  destruct (@getprocinfo_correct layout_small stack0 (small_page 1) 10000 0 0 kstate_info _ small_table _
    kstate_info_caller eq_refl eq_refl) as (r & s' & l' & t' & rs & H1 & _ & _ & H); [vm_compute; reflexivity|vm_compute; congruence|].
  exists r, s'. split; [exact H1|]. destruct H as [[-> _]|[-> _]]; [left|right]; vm_compute; reflexivity.
Defined.
