(* ===== verification/Ticks.v ===== *)
(** * Sleeping for a number of ticks

    [sys_sleep] and [sys_pause] (sysproc.c) in every interleaving: what is known about
    the clock when they return.  [sys_sleep] lacks the test for a negative argument that
    [sys_pause] has, and the comparison with the clock is unsigned. *)
From Stdlib Require Import ZArith Lia.
From stdpp Require Import base list gmap numbers strings.
From S2P Require Import Prelude Machine KString Bytes State Sched Vm DiskIo Kalloc Proc Syscall Kernel.
Local Open Scope Z_scope.
Local Open Scope kernel_scope.

(** Every return, whatever the states are in which the computation is resumed after
    its switches, satisfies [Q]. *)
Fixpoint returns {A} (r : res kstate A) (Q : A → kstate → Prop) : Prop :=
  match r with
  | Ret a s => Q a s
  | Swtch _ k => ∀ s', returns (k s') Q
  | _ => True
  end.

Lemma returns_mono {A} (r : res kstate A) (P Q : A → kstate → Prop) :
  returns r P → (∀ a s, P a s → Q a s) → returns r Q.
Proof. intros H HPQ. induction r as [a s|e s|e s|s k IH|]; cbn in *; eauto. Qed.
Lemma returns_bind {A B} (m : K A) (f : A → K B) Q s :
  returns (m s) (λ a s', returns (f a s') Q) → returns (bind m f s) Q.
Proof. unfold bind. intros H. induction (m s) as [a s1|e s1|e s1|s1 k IH|]; cbn in *; eauto. Qed.
Lemma returns_any {A} (r : res kstate A) : returns r (λ _ _, True).
Proof. induction r as [a s|e s|e s|s k IH|]; cbn; done. Qed.
(** A step of which nothing needs to be known. *)
Lemma returns_then {A B} (m : K A) (f : A → K B) Q s :
  (∀ a s', returns (f a s') Q) → returns (bind m f s) Q.
Proof. intros H. apply returns_bind. eapply returns_mono; [apply returns_any|]. intros a s' _. apply H. Qed.
Lemma returns_loop {A} n (body : K (option A)) Q s :
  (∀ s', returns (body s') (λ r s'', match r with Some a => Q a s'' | None => True end)) →
  returns (loop n body s) Q.
Proof.
  intros Hb. revert s. induction n as [|n IH]; intros s; [done|]. cbn [loop]. apply returns_bind.
  eapply returns_mono; [apply Hb|]. intros [a|] s' H; [done|apply IH].
Qed.

Lemma release_ticks lk s : returns (release lk s) (λ _ s', k_ticks s' = k_ticks s).
Proof. unfold release. rewrite bind_gets. by destruct (holding lk s). Qed.
Lemma acquire_ticks lk s : returns (acquire lk s) (λ _ s', k_ticks s' = k_ticks s).
Proof. unfold acquire. rewrite bind_gets. by destruct (holding lk s). Qed.

Section ticks.
Context {L : Layout} {F : Fuel} {J : Stack}.

(** [tick_wait] returns 0 only when the clock has advanced enough since [ticks0]. *)
Lemma returns_tick_wait ticks0 n s :
  returns (tick_wait ticks0 n s) (λ r s', r = 0 → u32 n ≤ u32 (k_ticks s' - ticks0)).
Proof.
  unfold tick_wait, sleep_loop. apply returns_loop. intros s1. rewrite bind_gets.
  destruct (u32 (k_ticks s1 - ticks0) <? u32 n) eqn:E.
  - apply returns_then. intros i s2. apply returns_then. intros k s3. destruct (negb (k =? 0)).
    + apply returns_then. intros [] s4. cbn. intros H. vm_compute in H. discriminate.
    + apply returns_then. intros [] s4. done.
  - apply returns_bind. eapply returns_mono; [apply release_ticks|]. intros [] s2 Ht. cbn. intros _. rewrite Ht. lia.
Qed.

Lemma argint_run i p s n :
  cur s = Some i → k_procs s !! i = Some p → 0 ≤ n ≤ 5 →
  argint n s = Ret (i32 (ld64 (k_mem s) (p_trapframe p + tf_a n))) s.
Proof.
  intros Hi Hp Hn. unfold argint, argraw.
  assert ((0 <=? n) && (n <=? 5) = true) as E by lia.
  rewrite (bind_run _ _ s (ld64 (k_mem s) (p_trapframe p + tf_a n)) s); [done|].
  rewrite (bind_run _ _ s i s) by (by apply myproc_run). rewrite (bind_run _ _ s p s) by (by apply getp_run).
  by rewrite E.
Qed.

(** C40: [sys_sleep] never returns early: in every interleaving it returns 0 only when the
    clock has advanced by its argument, as an unsigned number, since the call.  So a
    negative argument makes it sleep for at least 2^31 ticks, where [sys_pause] returns
    0 at once. *)
Theorem sleep_never_early (s : kstate) (i : nat) (p : proc) (n : Z)
    (Hcur : cur s = Some i) (Hp : k_procs s !! i = Some p)
    (Hn : n = i32 (ld64 (k_mem s) (p_trapframe p + tf_a 0))) :
  returns (sys_sleep s) (λ r s', r = 0 → u32 n ≤ u32 (k_ticks s' - k_ticks s)) ∧
  (n < 0 → 2 ^ 31 ≤ u32 n) ∧
  (n < 0 → LTicks ∉ k_held s → sys_pause s = Ret 0 s).
Proof.
  split_and!.
  - unfold sys_sleep. rewrite (bind_run _ _ s n s) by (rewrite Hn; by apply (argint_run i)).
    apply returns_bind. eapply returns_mono; [apply acquire_ticks|]. intros [] s1 Ht. rewrite bind_gets.
    eapply returns_mono; [apply returns_tick_wait|]. cbn. intros r s2 H Hr. rewrite <- Ht. by apply H.
  - intros Hneg. pose proof (i32_range (ld64 (k_mem s) (p_trapframe p + tf_a 0))). unfold u32. dlia.
  - intros Hneg Hl. unfold sys_pause. rewrite (bind_run _ _ s n s) by (rewrite Hn; by apply (argint_run i)).
    rewrite (proj2 (Z.ltb_lt n 0) Hneg). cbv zeta.
    rewrite (bind_run _ _ s tt (upd_held (cons LTicks) s)) by (by apply acquire_run). rewrite bind_gets.
    unfold tick_wait, sleep_loop. cbn [loop].
    assert (∀ s1, u32 (k_ticks s1 - k_ticks s1) <? u32 0 = false) as E.
    { intros s1. rewrite Z.sub_diag. done. }
    unfold bind at 1. rewrite bind_gets, E.
    rewrite (bind_run _ _ (upd_held (cons LTicks) s) tt s); [done|].
    rewrite (release_run LTicks (k_held s)) by done. f_equal. kstate_eq.
Qed.
End ticks.

(** A process that calls [sys_sleep(-1)]. *)
Definition kstate_sleep : kstate :=
  set_k_mem (st64 ∅ (tf_a 0) (2 ^ 64 - 1)) (set_k_cpus (<[0 := Some 0]> (k_cpus kstate0))%nat kstate0).
Lemma sleep_never_early_witness : @sys_pause fuel1 kstate_sleep = Ret 0 kstate_sleep ∧ 2 ^ 31 ≤ u32 (-1).
Proof.
  destruct (@sleep_never_early fuel1 kstate_sleep 0 proc0 (-1) eq_refl eq_refl ltac:(vm_compute; reflexivity))
    as (_ & H1 & H2).
  split; [apply H2|apply H1]; [lia|by intros ?%elem_of_nil|lia].
Defined.
