(* ===== verification/Grep.v ===== *)
(** * user/grep.c

    The regular-expression matcher of grep.  A C string is the
    list of its bytes before the NUL.  [match] is shown to decide the language of the
    pattern, read as a regular expression with the usual meaning of [^ . * $].  The
    program itself, with its line buffer, is in GrepTool.v. *)
From Stdlib Require Import ZArith Lia.
From stdpp Require Import base list numbers strings.
From S2P Require Import Prelude Machine Bytes.
Local Open Scope Z_scope.

Implicit Types (re text : list Z).

(** ** Code *)

Definition CARET : Z := 94.
Definition DOT : Z := 46.
Definition STAR : Z := 42.
Definition DOLLAR : Z := 36.
Definition NL : Z := 10.

(** A [do] loop: try [matchhere(re, text)], then go on as long as the next byte is [c], or
    any byte if [c] is a dot; [here] is [matchhere re]. *)
Fixpoint matchstar (c : Z) (here : list Z → bool) text : bool :=
  if here text then true else
  match text with
  | [] => false
  | t :: text' => if (t =? c) || (c =? DOT) then matchstar c here text' else false
  end.

Fixpoint matchhere re text : bool :=
  match re with
  | [] => true
  | r0 :: re1 =>
      let next :=
        if (r0 =? DOLLAR) && match re1 with [] => true | _ => false end then
          match text with [] => true | _ => false end
        else
          match text with
          | t :: text' => if (r0 =? DOT) || (r0 =? t) then matchhere re1 text' else false
          | [] => false
          end in
      match re1 with
      | r1 :: re2 => if r1 =? STAR then matchstar r0 (matchhere re2) text else next
      | [] => next
      end
  end.

(** The loop of [match], which also looks at the empty string at the end. *)
Fixpoint match_any re text : bool :=
  if matchhere re text then true else
  match text with [] => false | _ :: text' => match_any re text' end.

Definition match_ re text : bool :=
  match re with
  | r0 :: re1 => if r0 =? CARET then matchhere re1 text else match_any re text
  | [] => match_any re text
  end.

(** [strchr(p, '\n')] on the bytes of a buffer: the bytes before the newline and those
    after it; the search ends at a NUL. *)
Fixpoint strchr_nl (l : list Z) : option (list Z * list Z) :=
  match l with
  | [] => None
  | c :: l' =>
      if c =? 0 then None
      else if c =? NL then Some ([], l')
      else match strchr_nl l' with Some (a, b) => Some (c :: a, b) | None => None end
  end.

(** ** Regular expressions *)

Inductive regex :=
  | Eps
  | Chr (c : Z)
  | Any
  | Cat (r1 r2 : regex)
  | Star (r : regex).

Inductive rmatch : regex → list Z → Prop :=
  | rm_eps : rmatch Eps []
  | rm_chr c : rmatch (Chr c) [c]
  | rm_any c : rmatch Any [c]
  | rm_cat r1 r2 s1 s2 : rmatch r1 s1 → rmatch r2 s2 → rmatch (Cat r1 r2) (s1 ++ s2)
  | rm_star_nil r : rmatch (Star r) []
  | rm_star r s1 s2 : rmatch r s1 → rmatch (Star r) s2 → rmatch (Star r) (s1 ++ s2).

Definition atom (c : Z) : regex := if c =? DOT then Any else Chr c.

(** The regular expression a pattern denotes after an optional [^], and whether it is
    anchored at the end. *)
Fixpoint parse re : regex * bool :=
  match re with
  | [] => (Eps, false)
  | r0 :: re1 =>
      let next :=
        if (r0 =? DOLLAR) && match re1 with [] => true | _ => false end then (Eps, true)
        else let '(r, e) := parse re1 in (Cat (atom r0) r, e) in
      match re1 with
      | r1 :: re2 =>
          if r1 =? STAR then let '(r, e) := parse re2 in (Cat (Star (atom r0)) r, e) else next
      | [] => next
      end
  end.

(** [text] has a match of [re]: a substring in the language of the pattern, at the
    beginning if the pattern starts with [^] and at the end if it ends with [$]. *)
Definition has_match re text : Prop :=
  let '(anchored, body) := match re with
    | r0 :: re1 => if r0 =? CARET then (true, re1) else (false, re)
    | [] => (false, re) end in
  let '(r, ended) := parse body in
  ∃ pre mid post, text = pre ++ mid ++ post ∧ rmatch r mid ∧
    ((anchored : bool) = true → pre = []) ∧ ((ended : bool) = true → post = []).

Lemma atom_match c s : rmatch (atom c) s ↔ ∃ t, s = [t] ∧ (t = c ∨ c = DOT).
Proof.
  unfold atom. destruct (Z.eqb_spec c DOT) as [->|Hc].
  - split; [inversion 1; eauto|]. intros (t & -> & _). constructor.
  - split; [inversion 1; eauto|]. intros (t & -> & [-> | ->]); [constructor|done].
Qed.

(** Matching at the beginning of the text. *)
Definition prefix_match (p : regex * bool) text : Prop :=
  ∃ mid post, text = mid ++ post ∧ rmatch p.1 mid ∧ (p.2 = true → post = []).

Lemma matchstar_spec c here p text :
  (∀ t, here t = true ↔ prefix_match p t) →
  matchstar c here text = true ↔ prefix_match (Cat (Star (atom c)) p.1, p.2) text.
Proof.
  intros Hh. induction text as [|t text IH]; cbn [matchstar].
  - destruct (here []) eqn:E.
    + split; [|done]. intros _. apply Hh in E as (mid & post & E & Hm & He).
      exists mid, post. split; [done|]. split; [|done].
      change mid with ([] ++ mid). constructor; [constructor|done].
    + split; [done|]. intros (mid & post & Em & Hm & He). exfalso.
      assert (here [] = true); [|congruence]. apply Hh.
      symmetry in Em. apply app_nil in Em as [-> ->].
      inversion Hm as [| | |r1 r2 s1 s2 H1 H2 Er Es| |]; subst.
      apply app_nil in Es as [-> ->]. exists [], []. done.
  - destruct (here (t :: text)) eqn:E.
    + split; [|done]. intros _. apply Hh in E as (mid & post & E & Hm & He).
      exists mid, post. split; [done|]. split; [|done].
      change mid with ([] ++ mid). constructor; [constructor|done].
    + assert ((t =? c) || (c =? DOT) = true ↔ t = c ∨ c = DOT) as Hc
        by (rewrite orb_true_iff, !Z.eqb_eq; done).
      destruct ((t =? c) || (c =? DOT)).
      * rewrite IH. split.
        -- intros (mid & post & -> & Hm & He). inversion Hm as [| | |r1 r2 s1 s2 H1 H2 Er Es| |]; subst.
           exists (t :: s1 ++ s2), post. split; [done|]. split; [|done].
           rewrite app_comm_cons. constructor; [|done]. change (t :: s1) with ([t] ++ s1).
           constructor; [|done]. apply atom_match. exists t. split; [done|]. by apply Hc.
        -- intros (mid & post & Em & Hm & He). inversion Hm as [| | |r1 r2 s1 s2 H1 H2 Er Es| |]; subst.
           inversion H1 as [| | | |r Er Es'|r u1 u2 Hu1 Hu2 Er Es']; subst.
           ++ exfalso. assert (here (t :: text) = true); [|congruence]. apply Hh.
              exists s2, post. by rewrite Em.
           ++ apply atom_match in Hu1 as (x & -> & _). cbn in Em. injection Em as -> Em.
              exists (u2 ++ s2), post. split; [done|]. split; [by constructor|done].
      * split; [done|]. intros (mid & post & Em & Hm & He).
        inversion Hm as [| | |r1 r2 s1 s2 H1 H2 Er Es| |]; subst.
        inversion H1 as [| | | |r Er Es'|r u1 u2 Hu1 Hu2 Er Es']; subst.
        -- assert (here (t :: text) = true); [|congruence]. apply Hh. exists s2, post. by rewrite Em.
        -- apply atom_match in Hu1 as (x & -> & Hx). cbn in Em. injection Em as -> Em.
           apply Hc in Hx. done.
Qed.

(** One step of [matchhere] that is not a star. *)
Lemma cat_atom_match r0 r e text :
  prefix_match (Cat (atom r0) r, e) text ↔
  ∃ t text', text = t :: text' ∧ (r0 = DOT ∨ r0 = t) ∧ prefix_match (r, e) text'.
Proof.
  split.
  - intros (mid & post & -> & Hm & He). inversion Hm as [| | |r1 r2 s1 s2 H1 H2 Er Es| |]; subst.
    apply atom_match in H1 as (t & -> & Ht). exists t, (s2 ++ post). split; [done|].
    split; [naive_solver|]. by exists s2, post.
  - intros (t & text' & -> & Ht & (mid & post & -> & Hm & He)). exists (t :: mid), post.
    split; [done|]. split; [|done]. change (t :: mid) with ([t] ++ mid). constructor; [|done].
    apply atom_match. exists t. naive_solver.
Qed.

(** [matchhere], one step unfolded. *)
Definition here_next (r0 : Z) re1 text : bool :=
  if (r0 =? DOLLAR) && match re1 with [] => true | _ => false end then
    match text with [] => true | _ => false end
  else
    match text with
    | t :: text' => if (r0 =? DOT) || (r0 =? t) then matchhere re1 text' else false
    | [] => false
    end.
Lemma matchhere_cons r0 re1 text :
  matchhere (r0 :: re1) text =
  match re1 with
  | r1 :: re2 => if r1 =? STAR then matchstar r0 (matchhere re2) text else here_next r0 re1 text
  | [] => here_next r0 re1 text
  end.
Proof. done. Qed.

Definition parse_next (r0 : Z) re1 : regex * bool :=
  if (r0 =? DOLLAR) && match re1 with [] => true | _ => false end then (Eps, true)
  else (Cat (atom r0) (parse re1).1, (parse re1).2).
Lemma parse_cons r0 re1 :
  parse (r0 :: re1) =
  match re1 with
  | r1 :: re2 =>
      if r1 =? STAR then (Cat (Star (atom r0)) (parse re2).1, (parse re2).2) else parse_next r0 re1
  | [] => parse_next r0 re1
  end.
Proof.
  unfold parse_next. destruct re1 as [|r1 re2]; [cbn; by destruct (r0 =? DOLLAR)|].
  change (parse (r0 :: r1 :: re2)) with
    (if r1 =? STAR then let '(r, e) := parse re2 in (Cat (Star (atom r0)) r, e)
     else if (r0 =? DOLLAR) && false then (Eps, true)
     else let '(r, e) := parse (r1 :: re2) in (Cat (atom r0) r, e)).
  destruct (r1 =? STAR); [by destruct (parse re2)|].
  rewrite andb_false_r. by destruct (parse (r1 :: re2)).
Qed.

Lemma here_next_spec r0 re1 text :
  (∀ t, matchhere re1 t = true ↔ prefix_match (parse re1) t) →
  here_next r0 re1 text = true ↔ prefix_match (parse_next r0 re1) text.
Proof.
  intros IH. unfold here_next, parse_next.
  destruct ((r0 =? DOLLAR) && match re1 with [] => true | _ => false end).
  - split.
    + destruct text; [|done]. intros _. exists [], []. split_and!; [done|constructor|done].
    + intros (mid & post & -> & Hm & He). rewrite (He eq_refl). inversion Hm. done.
  - rewrite cat_atom_match. destruct text as [|t text].
    { split; [done|]. by intros (t & text' & ? & _). }
    assert ((r0 =? DOT) || (r0 =? t) = true ↔ r0 = DOT ∨ r0 = t) as Hc
      by (rewrite orb_true_iff, !Z.eqb_eq; done).
    destruct ((r0 =? DOT) || (r0 =? t)).
    + rewrite IH. destruct (parse re1) as [r e]. split.
      * intros Hp. exists t, text. split; [done|]. split; [by apply Hc|done].
      * by intros (t' & text' & [= <- <-] & _ & Hp).
    + split; [done|]. intros (t' & text' & [= <- <-] & Ht & _). by apply Hc in Ht.
Qed.

Lemma matchhere_spec re text : matchhere re text = true ↔ prefix_match (parse re) text.
Proof.
  remember (length re) as n eqn:Hn. assert (length re ≤ n)%nat as Hle by lia. clear Hn.
  revert re text Hle. induction n as [|n IH]; intros re text Hle.
  - destruct re; [|cbn in Hle; lia]. cbn. split; [|done]. intros _. exists [], text.
    split_and!; [done|constructor|done].
  - destruct re as [|r0 re1].
    { cbn. split; [|done]. intros _. exists [], text. split_and!; [done|constructor|done]. }
    cbn [length] in Hle. rewrite matchhere_cons, parse_cons.
    assert (∀ t, matchhere re1 t = true ↔ prefix_match (parse re1) t) as IH1 by (intros; apply IH; lia).
    destruct re1 as [|r1 re2]; [by apply here_next_spec|].
    destruct (r1 =? STAR); [|by apply here_next_spec]. cbn [length] in Hle.
    apply matchstar_spec. intros t. apply IH. lia.
Qed.

Lemma match_any_spec re text :
  match_any re text = true ↔ ∃ pre rest, text = pre ++ rest ∧ prefix_match (parse re) rest.
Proof.
  induction text as [|t text IH]; cbn [match_any].
  - destruct (matchhere re []) eqn:E.
    + split; [|done]. intros _. exists [], []. split; [done|]. by apply matchhere_spec.
    + split; [done|]. intros (pre & rest & Er & Hp). symmetry in Er. apply app_nil in Er as [-> ->].
      apply matchhere_spec in Hp. congruence.
  - destruct (matchhere re (t :: text)) eqn:E.
    + split; [|done]. intros _. exists [], (t :: text). split; [done|]. by apply matchhere_spec.
    + rewrite IH. split.
      * intros (pre & rest & -> & Hp). by exists (t :: pre), rest.
      * intros (pre & rest & Er & Hp). destruct pre as [|x pre].
        { cbn in Er. subst. apply matchhere_spec in Hp. congruence. }
        injection Er as -> ->. by exists pre, rest.
Qed.

(** C32: [match] decides whether the text has a match of the pattern: a substring in the
    language of the regular expression the pattern denotes, anchored as [^] and [$] say.
    The matcher always answers: it is a total function. *)
Theorem match_decides (re text : list Z) : match_ re text = true ↔ has_match re text.
Proof.
  unfold match_, has_match. destruct re as [|r0 re1].
  - rewrite match_any_spec. cbn [parse]. split.
    + intros (pre & rest & -> & mid & post & -> & Hm & He). by exists pre, mid, post.
    + intros (pre & mid & post & -> & Hm & _ & He). exists pre, (mid ++ post). split; [done|].
      by exists mid, post.
  - destruct (r0 =? CARET).
    + rewrite matchhere_spec. destruct (parse re1) as [r e]. split.
      * intros (mid & post & -> & Hm & He). by exists [], mid, post.
      * intros (pre & mid & post & -> & Hm & Ha & He). rewrite (Ha eq_refl). by exists mid, post.
    + rewrite match_any_spec. destruct (parse (r0 :: re1)) as [r e]. split.
      * intros (pre & rest & -> & mid & post & -> & Hm & He). by exists pre, mid, post.
      * intros (pre & mid & post & -> & Hm & _ & He). exists pre, (mid ++ post). split; [done|].
        by exists mid, post.
Qed.

(** ** The line buffer *)

(** The lines of [cur ++ input] that end in a newline and match, [cur] being the
    beginning of the first. *)
Fixpoint matching_lines (pattern cur input : list Z) : list Z :=
  match input with
  | [] => []
  | c :: input' =>
      if c =? NL then
        (if match_ pattern cur then cur ++ [NL] else []) ++ matching_lines pattern [] input'
      else matching_lines pattern (cur ++ [c]) input'
  end.

(** No line is longer than [buf] can hold, [n] bytes of the first being there. *)
Fixpoint short_lines (n : nat) (input : list Z) : bool :=
  match input with
  | [] => true
  | c :: input' => if c =? NL then short_lines 0 input' else (n <? 1022)%nat && short_lines (S n) input'
  end.

Definition plain (l : list Z) : Prop := Forall (λ c, c ≠ 0) l.
Definition no_nl (l : list Z) : Prop := Forall (λ c, c ≠ NL) l.

Lemma matching_lines_app pattern cur l tl :
  no_nl l → matching_lines pattern cur (l ++ tl) = matching_lines pattern (cur ++ l) tl.
Proof.
  intros H. revert cur. induction H as [|c l Hc Hl IH]; intros cur; cbn; [by rewrite app_nil_r|].
  rewrite (proj2 (Z.eqb_neq _ _) Hc), IH. by rewrite <- app_assoc.
Qed.
Lemma short_lines_app n l tl :
  no_nl l → (n ≤ 1022)%nat →
  short_lines n (l ++ tl) = true ↔ (n + length l ≤ 1022)%nat ∧ short_lines (n + length l) tl = true.
Proof.
  intros H. revert n. induction H as [|c l Hc Hl IH]; intros n Hn; cbn [app length short_lines].
  - rewrite Nat.add_0_r. tauto.
  - rewrite (proj2 (Z.eqb_neq _ _) Hc), andb_true_iff, Nat.ltb_lt, Nat.add_succ_r. split.
    + intros [Hlt Hs]. apply IH in Hs; [|lia]. cbn in Hs. split; [lia|apply Hs].
    + intros [Hle Hs]. split; [lia|]. apply IH; [lia|]. done.
Qed.

Lemma strchr_nl_spec p :
  plain p →
  match strchr_nl p with
  | None => no_nl p
  | Some (a, b) => p = a ++ NL :: b ∧ no_nl a
  end.
Proof.
  induction 1 as [|c p Hc Hp IH]; cbn; [constructor|].
  rewrite (proj2 (Z.eqb_neq _ _) Hc). destruct (Z.eqb_spec c NL) as [->|Hn]; [by split; [|constructor]|].
  destruct (strchr_nl p) as [[a b]|]; [|by constructor].
  destruct IH as [-> Ha]. split; [done|]. by constructor.
Qed.
