(* ===== verification/Sh.v ===== *)
(** * user/sh.c: the parser

    The tokenizer and the recursive-descent parser of the shell on the bytes of a
    command line.  A [char *] into the line is the list of the bytes from it on; the
    pointers that the tree keeps ([argv], [eargv], [file], [efile]) are offsets into
    the line.  Parsing ends on every line, and what [nulterminate] leaves in memory
    are the words of the command. *)
From Stdlib Require Import ZArith Lia.
From stdpp Require Import base list numbers strings.
From S2P Require Import Prelude Machine Bytes.
Local Open Scope Z_scope.

Implicit Types (s : list Z) (n : nat).

(** ** Code *)

Definition MAXARGS : nat := 10.

(** [struct cmd]: a word is the pair of the offsets of its first byte and of the byte
    after its last. *)
Definition word : Type := nat * nat.
Inductive cmd :=
  | EXEC (argv : list word)
  | REDIR (c : cmd) (file : word) (mode fd : Z)
  | PIPE (left right : cmd)
  | LIST (left right : cmd)
  | BACK (c : cmd).

(** The outcome of a parsing function: a result and the rest of the line, a [panic],
    or an exhausted bound on the calls. *)
Inductive pres (A : Type) :=
  | POk (a : A) (s : list Z)
  | PPanic (msg : string)
  | PFuel.
Arguments POk {A} a s.
Arguments PPanic {A} msg.
Arguments PFuel {A}.

Definition pbind {A B} (r : pres A) (f : A → list Z → pres B) : pres B :=
  match r with POk a s => f a s | PPanic m => PPanic m | PFuel => PFuel end.

Definition whitespace (c : Z) : bool := bool_decide (c ∈ [32; 9; 13; 10; 11]).
Definition symbols (c : Z) : bool := bool_decide (c ∈ str "<|>&;()").

(** [while (s < es && strchr(whitespace, *s)) s++;] *)
Fixpoint skip_ws s : list Z :=
  match s with
  | c :: s' => if whitespace c then skip_ws s' else s
  | [] => []
  end.
(** [while (s < es && !strchr(whitespace, *s) && !strchr(symbols, *s)) s++;] *)
Fixpoint skip_word s : list Z :=
  match s with
  | c :: s' => if whitespace c || symbols c then s else skip_word s'
  | [] => []
  end.

(** [gettoken]: the token, [*q], [*eq] and the new [*ps].  The token of a word is 'a',
    that of [>>] is '+', and 0 stands for the end of the line. *)
Definition gettoken s : Z * list Z * list Z * list Z :=
  let q := skip_ws s in
  let '(ret, eq) :=
    match q with
    | [] => (0, [])
    | c :: s1 =>
        if bool_decide (c ∈ str "|();&<") then (c, s1)
        else if c =? 62 then
          match s1 with
          | c1 :: s2 => if c1 =? 62 then (43, s2) else (62, s1)
          | [] => (62, s1)
          end
        else (97, skip_word q)
    end in
  (ret, q, eq, skip_ws eq).

(** [peek]: whether the next byte is one of [toks], and the new [*ps]. *)
Definition peek s (toks : string) : bool * list Z :=
  let s1 := skip_ws s in
  (match s1 with c :: _ => bool_decide (c ∈ str toks) | [] => false end, s1).

Section parser.
(** The number of bytes of the line: the offset of a pointer is this number less the
    number of bytes from the pointer on. *)
Context (n : nat).
Definition off s : nat := n - length s.
Definition span (q eq : list Z) : word := (off q, off eq).

Definition O_RDONLY : Z := 0x000.
Definition O_WRONLY : Z := 0x001.
Definition O_CREATE : Z := 0x200.
Definition O_TRUNC : Z := 0x400.

(** The redirections of [parseredirs], in the order it wraps them around the command. *)
Definition redir : Type := word * Z * Z.
Definition redircmd (c : cmd) (r : redir) : cmd := REDIR c r.1.1 r.1.2 r.2.

Fixpoint parseredirs (fuel : nat) s : pres (list redir) :=
  match fuel with
  | O => PFuel
  | S f =>
      let '(more, s) := peek s "<>" in
      if (more : bool) then
        let '(tok, _, _, s) := gettoken s in
        let '(t, q, eq, s) := gettoken s in
        if negb (t =? 97) then PPanic "missing file for redirection" else
        let r : list redir :=
          if tok =? 60 then [(span q eq, O_RDONLY, 0)]
          else if tok =? 62 then [(span q eq, Z.lor (Z.lor O_WRONLY O_CREATE) O_TRUNC, 1)]
          else if tok =? 43 then [(span q eq, Z.lor O_WRONLY O_CREATE, 1)]
          else [] in
        pbind (parseredirs f s) (λ rs s, POk (r ++ rs) s)
      else POk [] s
  end.

(** The loop of [parseexec]: [argv] so far and the redirections so far. *)
Fixpoint parseargs (fuel : nat) (argv : list word) (rs : list redir) s : pres (list word * list redir) :=
  match fuel with
  | O => PFuel
  | S f =>
      let '(stop, s) := peek s "|)&;" in
      if (stop : bool) then POk (argv, rs) s else
      let '(tok, q, eq, s) := gettoken s in
      if tok =? 0 then POk (argv, rs) s
      else if negb (tok =? 97) then PPanic "syntax"
      else
        let argv := argv ++ [span q eq] in
        if (MAXARGS <=? length argv)%nat then PPanic "too many args" else
        pbind (parseredirs f s) (λ rs' s, parseargs f argv (rs ++ rs') s)
  end.

(** [while (peek(ps, es, "&")) { gettoken; cmd = backcmd(cmd); }] *)
Fixpoint parseback (fuel : nat) (c : cmd) s : pres cmd :=
  match fuel with
  | O => PFuel
  | S f =>
      let '(more, s) := peek s "&" in
      if (more : bool) then let '(_, _, _, s) := gettoken s in parseback f (BACK c) s
      else POk c s
  end.

(** The mutually recursive functions of the grammar; [fuel] bounds the depth of the calls. *)
Fixpoint parseline (fuel : nat) s : pres cmd :=
  match fuel with
  | O => PFuel
  | S f =>
      pbind (parsepipe f s) (λ c s,
      pbind (parseback f c s) (λ c s,
        let '(more, s) := peek s ";" in
        if (more : bool) then
          let '(_, _, _, s) := gettoken s in
          pbind (parseline f s) (λ c2 s, POk (LIST c c2) s)
        else POk c s))
  end
with parsepipe (fuel : nat) s : pres cmd :=
  match fuel with
  | O => PFuel
  | S f =>
      pbind (parseexec f s) (λ c s,
        let '(more, s) := peek s "|" in
        if (more : bool) then
          let '(_, _, _, s) := gettoken s in
          pbind (parsepipe f s) (λ c2 s, POk (PIPE c c2) s)
        else POk c s)
  end
with parseexec (fuel : nat) s : pres cmd :=
  match fuel with
  | O => PFuel
  | S f =>
      let '(block, s) := peek s "(" in
      if (block : bool) then parseblock f s else
      pbind (parseredirs f s) (λ rs s,
      pbind (parseargs f [] rs s) (λ '(argv, rs) s,
        POk (fold_left redircmd rs (EXEC argv)) s))
  end
with parseblock (fuel : nat) s : pres cmd :=
  match fuel with
  | O => PFuel
  | S f =>
      let '(open, s) := peek s "(" in
      if negb open then PPanic "parseblock" else
      let '(_, _, _, s) := gettoken s in
      pbind (parseline f s) (λ c s,
        let '(close, s) := peek s ")" in
        if negb close then PPanic "syntax - missing )" else
        let '(_, _, _, s) := gettoken s in
        pbind (parseredirs f s) (λ rs s, POk (fold_left redircmd rs c) s))
  end.
End parser.

(** [nulterminate]: the line with a NUL after every word of the command. *)
Fixpoint nulterminate (c : cmd) (line : list Z) : list Z :=
  match c with
  | EXEC argv => fold_left (λ l w, <[w.2 := 0]> l) argv line
  | REDIR c f _ _ => <[f.2 := 0]> (nulterminate c line)
  | PIPE a b => nulterminate b (nulterminate a line)
  | LIST a b => nulterminate b (nulterminate a line)
  | BACK c => nulterminate c line
  end.

(** [parsecmd] on a line of [n] bytes: the tree and the memory of the line, with the NUL
    at its end, as [nulterminate] leaves it. *)
Definition parsecmd (fuel : nat) s : pres (cmd * list Z) :=
  pbind (parseline (length s) fuel s) (λ c r,
    let '(_, r) := peek r "" in
    match r with
    | [] => POk (c, nulterminate c (s ++ [0])) []
    | _ => PPanic "syntax"
    end).

(** ** Termination *)

Lemma skip_ws_len s : (length (skip_ws s) ≤ length s)%nat.
Proof. induction s as [|c s IH]; cbn; [lia|]. case_match; cbn; lia. Qed.
Lemma skip_word_len s : (length (skip_word s) ≤ length s)%nat.
Proof. induction s as [|c s IH]; cbn; [lia|]. case_match; cbn; lia. Qed.

Lemma skip_ws_head s c s' : skip_ws s = c :: s' → whitespace c = false.
Proof.
  induction s as [|x s IH]; cbn; [done|]. destruct (whitespace x) eqn:E; [done|]. by intros [= <- <-].
Qed.

(** A token other than the end of the line takes at least one byte. *)
Lemma symbols_spec c : symbols c = bool_decide (c ∈ str "|();&<") || (c =? 62).
Proof.
  unfold symbols. apply eq_true_iff_eq. rewrite orb_true_iff, !bool_decide_eq_true, Z.eqb_eq.
  cbn. rewrite !elem_of_cons, !elem_of_nil. tauto.
Qed.
Lemma gettoken_len s tok q eq s' :
  gettoken s = (tok, q, eq, s') →
  q = skip_ws s ∧ (length s' ≤ length eq ≤ length q)%nat ∧ (length q ≤ length s)%nat ∧
  s' = skip_ws eq ∧ (q ≠ [] → tok ≠ 0 ∧ (length eq < length q)%nat) ∧ (q = [] → tok = 0).
Proof.
  unfold gettoken. set (q0 := skip_ws s).
  pose proof (skip_ws_len s) as Hq. fold q0 in Hq.
  destruct q0 as [|c s1] eqn:Eq.
  { intros [= <- <- <- <-]. split_and!; try done; cbn; lia. }
  assert (whitespace c = false) as Hw by (by eapply skip_ws_head).
  pose proof (symbols_spec c) as Hsym.
  destruct (bool_decide (c ∈ str "|();&<")) eqn:Eb.
  { intros [= <- <- <- <-]. pose proof (skip_ws_len s1). split_and!; try done; cbn in *; try lia.
    intros _. split; [|lia]. intros ->. done. }
  destruct (c =? 62) eqn:E62; cbn in Hsym.
  { destruct s1 as [|c1 s2].
    - intros [= <- <- <- <-]. by split_and!; try done; cbn in *; try lia.
    - destruct (c1 =? 62); intros [= <- <- <- <-];
        [pose proof (skip_ws_len s2)|pose proof (skip_ws_len (c1 :: s2))];
        (split_and!; [done|cbn in *; lia|cbn in *; lia|cbn in *; lia|done| |done]);
        intros _; (split; [done|cbn in *; lia]). }
  intros [= <- <- <- <-]. cbn [skip_word]. rewrite Hw, Hsym. cbn [orb].
  pose proof (skip_word_len s1). pose proof (skip_ws_len (skip_word s1)).
  by split_and!; try done; cbn in *; try lia.
Qed.

Lemma peek_len s toks b s' : peek s toks = (b, s') → (length s' ≤ length s)%nat ∧ s' = skip_ws s.
Proof. unfold peek. intros [= _ <-]. split; [apply skip_ws_len|done]. Qed.
Lemma skip_ws_idem s : skip_ws (skip_ws s) = skip_ws s.
Proof.
  induction s as [|c s IH]; cbn; [done|]. destruct (whitespace c) eqn:E; [done|]. cbn. by rewrite E.
Qed.
Lemma peek_next s toks s' : peek s toks = (true, s') → s' ≠ [] ∧ skip_ws s' = s'.
Proof.
  unfold peek. destruct (skip_ws s) as [|c r] eqn:E; [done|]. intros [= _ <-]. split; [done|].
  rewrite <- E. apply skip_ws_idem.
Qed.
(** A token after a successful [peek]. *)
Lemma peek_gettoken s toks s1 tok q eq s' :
  peek s toks = (true, s1) → gettoken s1 = (tok, q, eq, s') → (length s' < length s)%nat.
Proof.
  intros Hp Hg. destruct (peek_next _ _ _ Hp) as [Hne Hid]. apply peek_len in Hp as [Hl _].
  destruct (gettoken_len _ _ _ _ _ Hg) as (Eq & H1 & H2 & _ & H4 & _). rewrite Hid in Eq. subst q.
  destruct (H4 Hne). lia.
Qed.

(** The parser did not run out of fuel and left at most [m] bytes. *)
Definition ended {A} (r : pres A) (m : nat) : Prop :=
  match r with PFuel => False | PPanic _ => True | POk _ s => (length s ≤ m)%nat end.
Lemma ended_bind {A B} (r : pres A) (f : A → list Z → pres B) m1 m2 :
  ended r m1 → (∀ a s, (length s ≤ m1)%nat → ended (f a s) m2) → ended (pbind r f) m2.
Proof. destruct r; cbn; auto. Qed.

Section termination.
Context (n : nat).

Lemma parseredirs_ends fuel s : (length s < fuel)%nat → ended (parseredirs n fuel s) (length s).
Proof.
  revert s. induction fuel as [|f IH]; intros s Hf; [lia|]. cbn [parseredirs].
  destruct (peek s "<>") as [more s1] eqn:Hp. destruct more; [|by apply peek_len in Hp as [? _]].
  destruct (gettoken s1) as [[[tok q1] eq1] s2] eqn:Hg1.
  destruct (gettoken s2) as [[[t q] eq] s3] eqn:Hg2.
  pose proof (peek_gettoken _ _ _ _ _ _ _ Hp Hg1).
  destruct (gettoken_len _ _ _ _ _ Hg2) as (_ & H1 & H2 & _).
  destruct (negb (t =? 97)); [done|]. eapply ended_bind; [apply IH; lia|]. cbn. intros; lia.
Qed.

Lemma parseargs_ends fuel argv rs s : (length s < fuel)%nat → ended (parseargs n fuel argv rs s) (length s).
Proof.
  revert argv rs s. induction fuel as [|f IH]; intros argv rs s Hf; [lia|]. cbn [parseargs].
  destruct (peek s "|)&;") as [stop s1] eqn:Hp. apply peek_len in Hp as [Hl _].
  destruct stop; [done|]. destruct (gettoken s1) as [[[tok q] eq] s2] eqn:Hg.
  destruct (gettoken_len _ _ _ _ _ Hg) as (_ & H1 & H2 & _ & H4 & H5).
  destruct (tok =? 0) eqn:E0; [cbn; lia|]. destruct (negb (tok =? 97)); [done|]. case_match; [done|].
  assert (q ≠ []) as Hq by (intros ->; rewrite (H5 eq_refl) in E0; done). destruct (H4 Hq) as [_ Hlt].
  eapply ended_bind; [apply parseredirs_ends; lia|]. intros rs' s3 Hs3.
  pose proof (IH (argv ++ [span n q eq]) (rs ++ rs') s3 ltac:(lia)) as Hend.
  unfold ended in *. destruct (parseargs n f _ _ s3); try done. lia.
Qed.

Lemma parseback_ends fuel c s : (length s < fuel)%nat → ended (parseback fuel c s) (length s).
Proof.
  revert c s. induction fuel as [|f IH]; intros c s Hf; [lia|]. cbn [parseback].
  destruct (peek s "&") as [more s1] eqn:Hp. destruct more; [|by apply peek_len in Hp as [? _]].
  destruct (gettoken s1) as [[[tok q] eq] s2] eqn:Hg. pose proof (peek_gettoken _ _ _ _ _ _ _ Hp Hg).
  pose proof (IH (BACK c) s2 ltac:(lia)) as Hend. unfold ended in *.
  destruct (parseback f (BACK c) s2); try done. lia.
Qed.

Lemma ended_mono {A} (r : pres A) m1 m2 : ended r m1 → (m1 ≤ m2)%nat → ended r m2.
Proof. destruct r; cbn; try done. lia. Qed.

Lemma grammar_ends fuel :
  (∀ s, (4 * length s + 4 ≤ fuel)%nat → ended (parseline n fuel s) (length s)) ∧
  (∀ s, (4 * length s + 3 ≤ fuel)%nat → ended (parsepipe n fuel s) (length s)) ∧
  (∀ s, (4 * length s + 2 ≤ fuel)%nat → ended (parseexec n fuel s) (length s)) ∧
  (∀ s, (4 * length s + 1 ≤ fuel)%nat → ended (parseblock n fuel s) (length s)).
Proof.
  induction fuel as [|f (IHl & IHp & IHe & IHb)]; [split_and!; intros; lia|].
  split_and!; intros s Hf.
  - cbn [parseline]. eapply ended_bind; [apply IHp; lia|]. intros c s1 H1.
    eapply ended_bind; [apply parseback_ends; lia|]. intros c2 s2 H2.
    destruct (peek s2 ";") as [more s3] eqn:Hp. destruct more; [|apply peek_len in Hp; cbn; lia].
    destruct (gettoken s3) as [[[tok q] eq] s4] eqn:Hg. pose proof (peek_gettoken _ _ _ _ _ _ _ Hp Hg).
    eapply ended_bind; [apply IHl; lia|]. cbn. intros; lia.
  - cbn [parsepipe]. eapply ended_bind; [apply IHe; lia|]. intros c s1 H1.
    destruct (peek s1 "|") as [more s3] eqn:Hp. destruct more; [|apply peek_len in Hp; cbn; lia].
    destruct (gettoken s3) as [[[tok q] eq] s4] eqn:Hg. pose proof (peek_gettoken _ _ _ _ _ _ _ Hp Hg).
    eapply ended_bind; [apply IHp; lia|]. cbn. intros; lia.
  - cbn [parseexec]. destruct (peek s "(") as [block s1] eqn:Hp.
    pose proof (peek_len _ _ _ _ Hp) as [Hl _]. destruct block.
    { eapply ended_mono; [apply IHb; lia|done]. }
    eapply ended_bind; [apply parseredirs_ends; lia|]. intros rs s2 H2.
    eapply ended_bind; [apply parseargs_ends; lia|]. intros [argv rs'] s3 H3. cbn. lia.
  - cbn [parseblock]. destruct (peek s "(") as [open s1] eqn:Hp. destruct open; [|done]. cbn [negb].
    destruct (gettoken s1) as [[[tok q] eq] s2] eqn:Hg. pose proof (peek_gettoken _ _ _ _ _ _ _ Hp Hg).
    eapply ended_bind; [apply IHl; lia|]. intros c s3 H3.
    destruct (peek s3 ")") as [close s4] eqn:Hp2. destruct close; [|done]. cbn [negb].
    destruct (gettoken s4) as [[[tok2 q2] eq2] s5] eqn:Hg2. pose proof (peek_gettoken _ _ _ _ _ _ _ Hp2 Hg2).
    eapply ended_bind; [apply parseredirs_ends; lia|]. cbn. intros; lia.
Qed.
End termination.

(** ** Commands and their text *)

(** A command with its words as strings. *)
Inductive acmd :=
  | AExec (args : list (list Z))
  | ARedir (c : acmd) (file : list Z) (mode fd : Z)
  | APipe (l r : acmd)
  | AList (l r : acmd)
  | ABack (c : acmd).

(** The command in memory: a word is the bytes from its first up to a NUL. *)
Fixpoint cstring (l : list Z) : list Z :=
  match l with c :: l' => if c =? 0 then [] else c :: cstring l' | [] => [] end.
Definition word_at (mem : list Z) (w : word) : list Z := cstring (drop w.1 mem).
Fixpoint in_memory (mem : list Z) (c : cmd) : acmd :=
  match c with
  | EXEC argv => AExec (word_at mem <$> argv)
  | REDIR c f m d => ARedir (in_memory mem c) (word_at mem f) m d
  | PIPE a b => APipe (in_memory mem a) (in_memory mem b)
  | LIST a b => AList (in_memory mem a) (in_memory mem b)
  | BACK c => ABack (in_memory mem c)
  end.

(** Words have no white space, no symbol and no NUL; a command has at most [MAXARGS - 1]
    arguments and the redirections of the syntax. *)
Definition good_word (w : list Z) : Prop :=
  w ≠ [] ∧ Forall (λ c, whitespace c = false ∧ symbols c = false ∧ c ≠ 0) w.

Inductive rkind := RIn | ROut | RAppend.
Definition rmode (k : rkind) : Z * Z :=
  match k with
  | RIn => (O_RDONLY, 0)
  | ROut => (Z.lor (Z.lor O_WRONLY O_CREATE) O_TRUNC, 1)
  | RAppend => (Z.lor O_WRONLY O_CREATE, 1)
  end.
Definition rkind_of (mode fd : Z) : option rkind :=
  if (mode =? O_RDONLY) && (fd =? 0) then Some RIn
  else if (mode =? Z.lor (Z.lor O_WRONLY O_CREATE) O_TRUNC) && (fd =? 1) then Some ROut
  else if (mode =? Z.lor O_WRONLY O_CREATE) && (fd =? 1) then Some RAppend
  else None.

Fixpoint good (c : acmd) : Prop :=
  match c with
  | AExec args => Forall good_word args ∧ (length args < MAXARGS)%nat
  | ARedir c f m d => good c ∧ good_word f ∧ is_Some (rkind_of m d)
  | APipe l r => good l ∧ good r
  | AList l r => good l ∧ good r
  | ABack c => good c
  end.

(** The text of a command: its tokens with spaces between them and a newline.  A command in the
    place of a simpler one is put in parentheses. *)
Inductive token := TWord (w : list Z) | TSym (c : Z) | TAppend.
Definition text (t : token) : list Z :=
  match t with TWord w => w | TSym c => [c] | TAppend => [62; 62] end.
Definition enc (ts : list token) : list Z := mjoin ((λ t, 32 :: text t) <$> ts) ++ [10].

Definition rtok (m d : Z) : token :=
  match rkind_of m d with Some RIn => TSym 60 | Some ROut => TSym 62 | _ => TAppend end.

Fixpoint show_line (c : acmd) : list token :=
  match c with
  | AList l r => show_back l ++ TSym 59 :: show_line r
  | ABack c => show_back c ++ [TSym 38]
  | APipe l r => show_exec l ++ TSym 124 :: show_pipe r
  | AExec args => TWord <$> args
  | ARedir c f m d => show_exec c ++ [rtok m d; TWord f]
  end
with show_back (c : acmd) : list token :=
  match c with
  | AList l r => TSym 40 :: (show_back l ++ TSym 59 :: show_line r) ++ [TSym 41]
  | ABack c => show_back c ++ [TSym 38]
  | APipe l r => show_exec l ++ TSym 124 :: show_pipe r
  | AExec args => TWord <$> args
  | ARedir c f m d => show_exec c ++ [rtok m d; TWord f]
  end
with show_pipe (c : acmd) : list token :=
  match c with
  | AList l r => TSym 40 :: (show_back l ++ TSym 59 :: show_line r) ++ [TSym 41]
  | ABack c => TSym 40 :: (show_back c ++ [TSym 38]) ++ [TSym 41]
  | APipe l r => show_exec l ++ TSym 124 :: show_pipe r
  | AExec args => TWord <$> args
  | ARedir c f m d => show_exec c ++ [rtok m d; TWord f]
  end
with show_exec (c : acmd) : list token :=
  match c with
  | AList l r => TSym 40 :: (show_back l ++ TSym 59 :: show_line r) ++ [TSym 41]
  | ABack c => TSym 40 :: (show_back c ++ [TSym 38]) ++ [TSym 41]
  | APipe l r => TSym 40 :: (show_exec l ++ TSym 124 :: show_pipe r) ++ [TSym 41]
  | AExec args => TWord <$> args
  | ARedir c f m d => show_exec c ++ [rtok m d; TWord f]
  end.
Definition show (c : acmd) : list Z :=
  match show_line c with [] => [10] | ts => List.tl (enc ts) end.

(** ** Parsing the text of a command *)

Definition good_token (t : token) : Prop :=
  match t with TWord w => good_word w | TSym c => c ∈ str "<|>&;()" | TAppend => True end.
Definition code (t : token) : Z := match t with TWord _ => 97 | TSym c => c | TAppend => 43 end.
Definition first (t : token) : Z := match t with TWord w => List.hd 0 w | TSym c => c | TAppend => 62 end.

(** The text of [ts] without its first space, where the tokenizer stands. *)
Definition E (ts : list token) : list Z := skip_ws (enc ts).

Lemma enc_cons t ts : enc (t :: ts) = 32 :: text t ++ enc ts.
Proof. unfold enc. cbn. by rewrite <- app_assoc. Qed.
Lemma show_enc c : 32 :: show c = match show_line c with [] => [32] ++ enc [] | ts => enc ts end.
Proof. unfold show. destruct (show_line c); [done|]. by rewrite enc_cons. Qed.
Lemma symbols_ws c : c ∈ str "<|>&;()" → whitespace c = false ∧ symbols c = true.
Proof.
  intros Hc. split; [|unfold symbols; by apply bool_decide_eq_true_2].
  unfold whitespace. apply bool_decide_eq_false_2. cbn in *. rewrite !elem_of_cons, !elem_of_nil in *. lia.
Qed.
Lemma text_cons t : good_token t → ∃ r, text t = first t :: r ∧ whitespace (first t) = false.
Proof.
  destruct t as [w|c|]; cbn.
  - intros [Hne Hw]. destruct w as [|c w]; [done|]. exists w. apply Forall_cons in Hw as [[Hc _] _]. done.
  - intros Hc. exists []. split; [done|]. by apply symbols_ws.
  - intros _. by exists [62].
Qed.
Lemma E_cons t ts : good_token t → E (t :: ts) = text t ++ enc ts.
Proof.
  intros Ht. unfold E. rewrite enc_cons. cbn [skip_ws]. change (whitespace 32) with true. cbv iota.
  destruct (text_cons t Ht) as (r & -> & Hw). cbn. by rewrite Hw.
Qed.
Lemma skip_E ts : skip_ws (E ts) = E ts.
Proof. apply skip_ws_idem. Qed.

Lemma skip_word_enc w ts :
  Forall (λ c, whitespace c = false ∧ symbols c = false ∧ c ≠ 0) w → skip_word (w ++ enc ts) = enc ts.
Proof.
  induction 1 as [|c w (H1 & H2 & _) Hw IH]; cbn [app skip_word].
  - destruct ts as [|t ts]; [done|]. by rewrite enc_cons.
  - by rewrite H1, H2.
Qed.

Lemma gettoken_E t ts :
  good_token t → gettoken (E (t :: ts)) = (code t, text t ++ enc ts, enc ts, E ts).
Proof.
  intros Ht. unfold gettoken. rewrite skip_E, E_cons by done. destruct t as [w|c|]; cbn [text code].
  - pose proof Ht as [Hne Hw]. destruct w as [|c w]; [done|]. cbn [app].
    pose proof Hw as [(H1 & H2 & _) _]%Forall_cons. rewrite symbols_spec in H2.
    apply orb_false_iff in H2 as [-> ->]. change (c :: w ++ enc ts) with ((c :: w) ++ enc ts).
    rewrite (skip_word_enc (c :: w)) by done. done.
  - cbn [app]. destruct (bool_decide (c ∈ str "|();&<")) eqn:Eb; [done|].
    assert (c = 62) as ->.
    { cbn in Ht. pose proof (proj2 (symbols_ws c Ht)) as Hs. rewrite symbols_spec, Eb in Hs. lia. }
    destruct ts as [|t ts]; [done|]. unfold E. by rewrite enc_cons.
  - done.
Qed.
Lemma gettoken_nil : gettoken (E []) = (0, [], [], E []).
Proof. done. Qed.

(** What [peek] sees. *)
Definition next_in (ts : list token) (toks : string) : bool :=
  match ts with [] => false | t :: _ => bool_decide (first t ∈ str toks) end.
Lemma peek_E ts toks : Forall good_token ts → peek (E ts) toks = (next_in ts toks, E ts).
Proof.
  intros Hts. unfold peek. rewrite skip_E. destruct ts as [|t ts]; [done|].
  apply Forall_cons in Hts as [Ht _]. rewrite E_cons by done. destruct (text_cons t Ht) as (r & -> & _). done.
Qed.
Lemma next_word w ts toks :
  good_word w → (∀ c, c ∈ str toks → c ∈ str "<|>&;()") → next_in (TWord w :: ts) toks = false.
Proof.
  intros [Hne Hw] Htoks. destruct w as [|c w]; [done|]. apply Forall_cons in Hw as [(_ & Hs & _) _].
  cbn. apply bool_decide_eq_false_2. intros Hc%Htoks. unfold symbols in Hs.
  by apply bool_decide_eq_false in Hs.
Qed.

Lemma length_E ts : (length (E ts) ≤ length (enc ts))%nat.
Proof. apply skip_ws_len. Qed.
Lemma length_E_cons t ts : good_token t → (length (E ts) < length (E (t :: ts)))%nat.
Proof.
  intros Ht. rewrite E_cons by done. pose proof (length_E ts). destruct (text_cons t Ht) as (r & -> & _).
  rewrite length_app. cbn. lia.
Qed.
Lemma length_E_app ts1 ts2 : Forall good_token ts1 → (length (E ts2) ≤ length (E (ts1 ++ ts2)))%nat.
Proof.
  induction 1 as [|t ts1 Ht _ IH]; cbn [app]; [lia|]. pose proof (length_E_cons t (ts1 ++ ts2) Ht). lia.
Qed.

(** White space before a phrase does not matter. *)
Lemma peek_skip s toks : peek (skip_ws s) toks = peek s toks.
Proof. unfold peek. by rewrite skip_ws_idem. Qed.
Lemma parseexec_skip n f s : parseexec n f (skip_ws s) = parseexec n f s.
Proof. destruct f; [done|]. cbn [parseexec]. by rewrite peek_skip. Qed.
Lemma parsepipe_skip n f s : parsepipe n f (skip_ws s) = parsepipe n f s.
Proof. destruct f; [done|]. cbn [parsepipe]. by rewrite parseexec_skip. Qed.
Lemma parseline_skip n f s : parseline n f (skip_ws s) = parseline n f s.
Proof. destruct f; [done|]. cbn [parseline]. by rewrite parsepipe_skip. Qed.

(** The words of a tree in the line [line], before [nulterminate]. *)
Definition is_word (mem : list Z) (w : word) (l : list Z) : Prop :=
  good_word l ∧ w.2 = (w.1 + length l)%nat ∧ (∀ i c, l !! i = Some c → mem !! (w.1 + i)%nat = Some c) ∧
  (mem !! w.2 = Some 32 ∨ mem !! w.2 = Some 10).
Fixpoint repr (mem : list Z) (t : cmd) (c : acmd) : Prop :=
  match t, c with
  | EXEC argv, AExec args => Forall2 (is_word mem) argv args
  | REDIR t w m d, ARedir c f m' d' => repr mem t c ∧ is_word mem w f ∧ m = m' ∧ d = d'
  | PIPE a b, APipe a' b' => repr mem a a' ∧ repr mem b b'
  | LIST a b, AList a' b' => repr mem a a' ∧ repr mem b b'
  | BACK t, ABack c => repr mem t c
  | _, _ => False
  end.

Section text.
Context (line : list Z).
Let n := length line.
Let mem := line ++ [0].

(** The tokenizer is somewhere in the line. *)
Definition here (ts : list token) : Prop := Forall good_token ts ∧ ∃ pre, 32 :: line = pre ++ enc ts.
Lemma here_cons t ts : here (t :: ts) → here ts.
Proof.
  intros [Hg (pre & El)]. apply Forall_cons in Hg as [_ Hg]. split; [done|].
  exists (pre ++ 32 :: text t). rewrite El, enc_cons. by rewrite <- app_assoc.
Qed.
Lemma here_app ts1 ts2 : here (ts1 ++ ts2) → here ts2.
Proof. induction ts1 as [|t ts1 IH]; cbn; [done|]. intros ?%here_cons. by apply IH. Qed.
Lemma here_good t ts : here (t :: ts) → good_token t.
Proof. intros [Hg _]. by apply Forall_cons in Hg as [? _]. Qed.

Lemma here_word w ts :
  here (TWord w :: ts) → is_word mem (span n (w ++ enc ts) (enc ts)) w.
Proof.
  intros [Hg (pre & El)]. apply Forall_cons in Hg as [Hw _]. rewrite enc_cons in El. cbn [text] in El.
  assert (n = (length pre + (length w + length (enc ts)))%nat) as Hn.
  { apply (f_equal length) in El. rewrite length_app in El. cbn in El. rewrite length_app in El. unfold n. lia. }
  unfold span, off. cbn [fst snd]. rewrite length_app.
  replace (n - (length w + length (enc ts)))%nat with (length pre) by lia.
  replace (n - length (enc ts))%nat with (length pre + length w)%nat by lia.
  assert (∀ i, mem !! (length pre + i)%nat = (w ++ enc ts ++ [0]) !! i) as Hm.
  { intros i. change (mem !! (length pre + i)%nat) with ((32 :: mem) !! S (length pre + i)).
    unfold mem. rewrite app_comm_cons, El, <- app_assoc, lookup_app_r by lia.
    replace (S (length pre + i) - length pre)%nat with (S i) by lia. cbn. by rewrite <- app_assoc. }
  split_and!; [done|done| |]; cbn [fst snd].
  - intros i c Hi. rewrite Hm. by rewrite lookup_app_l by eauto using lookup_lt_Some.
  - rewrite Hm, lookup_app_r, Nat.sub_diag by lia. destruct ts as [|t ts]; [by right|left]. by rewrite enc_cons.
Qed.

(** Redirections. *)
Definition aredir : Type := list Z * Z * Z.
Definition awrap (c : acmd) (r : aredir) : acmd := ARedir c r.1.1 r.1.2 r.2.
Definition rtoks (rs : list aredir) : list token := mjoin ((λ r, [rtok r.1.2 r.2; TWord r.1.1]) <$> rs).
Definition good_redir (r : aredir) : Prop := good_word r.1.1 ∧ is_Some (rkind_of r.1.2 r.2).
Definition redir_of (r : redir) (a : aredir) : Prop :=
  is_word mem r.1.1 a.1.1 ∧ r.1.2 = a.1.2 ∧ r.2 = a.2.

Lemma rkind_of_rmode m d k : rkind_of m d = Some k → (m, d) = rmode k.
Proof.
  unfold rkind_of. repeat case_match; intros [= <-]; cbn;
    repeat match goal with H : _ && _ = true |- _ => apply andb_true_iff in H as [?%Z.eqb_eq ?%Z.eqb_eq] end;
    by subst.
Qed.
Lemma repr_wraps t c rs rs' :
  repr mem t c → Forall2 redir_of rs' rs → repr mem (fold_left redircmd rs' t) (fold_left awrap rs c).
Proof.
  intros Ht Hrs. revert t c Ht. induction Hrs as [|r a rs' rs (H1 & H2 & H3) _ IH]; intros t c Ht; [done|].
  cbn. apply IH. cbn. done.
Qed.

Lemma redirs_ok fuel rs ts :
  Forall good_redir rs → here (rtoks rs ++ ts) → next_in ts "<>" = false →
  (length (E (rtoks rs ++ ts)) < fuel)%nat →
  ∃ rs', parseredirs n fuel (E (rtoks rs ++ ts)) = POk rs' (E ts) ∧ Forall2 redir_of rs' rs.
Proof.
  intros Hg. revert fuel. induction Hg as [|r rs [Hw [k Hk]] _ IH]; intros fuel Hh Hn Hf.
  - destruct fuel; [lia|]. cbn [parseredirs rtoks mjoin list_join fmap list_fmap app].
    rewrite peek_E by apply Hh. rewrite Hn. by exists [].
  - destruct r as [[w m] d]. change (rtoks ((w, m, d) :: rs) ++ ts) with
      (rtok m d :: TWord w :: rtoks rs ++ ts) in *. cbn [fst snd] in *.
    destruct fuel as [|fuel]; [lia|]. cbn [parseredirs]. rewrite peek_E by apply Hh.
    pose proof (here_good _ _ Hh) as Hg1. pose proof (here_cons _ _ Hh) as Hh1.
    pose proof (here_good _ _ Hh1) as Hg2. pose proof (here_cons _ _ Hh1) as Hh2.
    pose proof (length_E_cons _ (TWord w :: rtoks rs ++ ts) Hg1). pose proof (length_E_cons _ (rtoks rs ++ ts) Hg2).
    destruct (IH fuel Hh2 Hn) as (rs' & E1 & Hrs'); [lia|].
    rewrite gettoken_E by done. rewrite gettoken_E by done. cbn [code text]. rewrite E1.
    unfold rtok in *. rewrite Hk in *. apply rkind_of_rmode in Hk.
    exists ((span n (w ++ enc (rtoks rs ++ ts)) (enc (rtoks rs ++ ts)), m, d) :: rs').
    destruct k; injection Hk as -> ->; (split; [done|]); constructor; try done;
      (split; [|done]); by apply here_word.
Qed.

(** Arguments, the last of them followed by the redirections. *)
Definition stop (ts : list token) : Prop := ts = [] ∨ next_in ts "|)&;" = true.
Lemma stop_redir ts : Forall good_token ts → stop ts → next_in ts "<>" = false.
Proof.
  intros Hg [->|Hs]; [done|]. destruct ts as [|t ts]; [done|]. cbn in *.
  apply bool_decide_eq_true in Hs. apply bool_decide_eq_false_2. cbn in *.
  rewrite !elem_of_cons, !elem_of_nil in *. lia.
Qed.
Lemma args_stop fuel argv rs ts :
  here ts → stop ts → (0 < fuel)%nat → parseargs n fuel argv rs (E ts) = POk (argv, rs) (E ts).
Proof.
  intros Hh Hs Hf. destruct fuel; [lia|]. cbn [parseargs]. rewrite peek_E by apply Hh.
  destruct Hs as [->|Hs]; [|by rewrite Hs]. done.
Qed.
Lemma args_ok fuel args argv rs0 rs ts :
  args ≠ [] → (length argv + length args < MAXARGS)%nat →
  Forall good_redir rs → here ((TWord <$> args) ++ rtoks rs ++ ts) → stop ts →
  (length (E ((TWord <$> args) ++ rtoks rs ++ ts)) < fuel)%nat →
  ∃ argv' rs', parseargs n fuel argv rs0 (E ((TWord <$> args) ++ rtoks rs ++ ts)) =
      POk (argv ++ argv', rs0 ++ rs') (E ts) ∧
    Forall2 (is_word mem) argv' args ∧ Forall2 redir_of rs' rs.
Proof.
  intros Hne. revert fuel argv rs0. induction args as [|w args IH]; [done|].
  intros fuel argv rs0 Hlen Hg Hh Hs Hf. cbn [fmap list_fmap app] in *.
  pose proof (here_good _ _ Hh) as Hw. pose proof (here_cons _ _ Hh) as Hh1.
  destruct fuel as [|fuel]; [lia|]. cbn [parseargs].
  rewrite peek_E by apply Hh. rewrite (next_word w _ "|)&;"); [|done|].
  2:{ intros c. cbn. rewrite !elem_of_cons, !elem_of_nil. tauto. }
  rewrite gettoken_E by done. cbn [code text]. change (97 =? 0) with false. change (negb (97 =? 97)) with false.
  cbv iota zeta. pose proof (length_E_cons _ ((TWord <$> args) ++ rtoks rs ++ ts) Hw).
  cbn [length] in Hlen. destruct (Nat.leb_spec MAXARGS (length (argv ++ [span n (w ++ enc ((TWord <$> args) ++ rtoks rs ++ ts)) (enc ((TWord <$> args) ++ rtoks rs ++ ts))])));
    [rewrite length_app in *; cbn in *; lia|].
  set (sp := span n _ _) in *.
  assert (is_word mem sp w) as Hsp by (by apply here_word).
  destruct args as [|w2 args].
  - cbn [fmap list_fmap app] in *.
    destruct (redirs_ok fuel rs ts Hg Hh1) as (rs' & -> & Hrs'); [|lia|].
    { apply stop_redir; [|done]. by apply (here_app (rtoks rs)). }
    cbn [pbind]. rewrite args_stop; [|by apply (here_app (rtoks rs))|done|lia].
    exists [sp], rs'. split; [done|]. split; [by constructor|done].
  - destruct (redirs_ok fuel [] ((TWord <$> w2 :: args) ++ rtoks rs ++ ts)) as (rs' & E1 & Hrs');
      [constructor|done| |cbn [rtoks mjoin list_join fmap list_fmap app] in *; lia|].
    { cbn [fmap list_fmap app]. apply next_word; [by apply (here_good _ _ Hh1)|].
      intros c. cbn. rewrite !elem_of_cons, !elem_of_nil. tauto. }
    inversion Hrs'; subst. cbn [rtoks mjoin list_join fmap list_fmap app] in E1 |- *.
    rewrite E1. cbn [pbind]. rewrite app_nil_r.
    destruct (IH ltac:(done) fuel (argv ++ [sp]) rs0) as (argv' & rs'' & E2 & H2 & H3); try done.
    { rewrite length_app. cbn in *. lia. }
    { cbn in *. lia. }
    cbn [rtoks mjoin list_join fmap list_fmap app] in E2. rewrite E2.
    exists (sp :: argv'), rs''. split; [by rewrite <- app_assoc|]. split; [by constructor|done].
Qed.

(** The four levels of the grammar: each parses the text of [c] and stops before [ts]. *)
Definition EX (c : acmd) : Prop := ∀ rs ts fuel,
  Forall good_redir rs → here (show_exec c ++ rtoks rs ++ ts) → stop ts →
  (4 * length (E (show_exec c ++ rtoks rs ++ ts)) + 2 ≤ fuel)%nat →
  ∃ t, parseexec n fuel (E (show_exec c ++ rtoks rs ++ ts)) = POk t (E ts) ∧
    repr mem t (fold_left awrap rs c).
Definition PI (c : acmd) : Prop := ∀ ts fuel,
  here (show_pipe c ++ ts) → stop ts → next_in ts "|" = false →
  (4 * length (E (show_pipe c ++ ts)) + 3 ≤ fuel)%nat →
  ∃ t, parsepipe n fuel (E (show_pipe c ++ ts)) = POk t (E ts) ∧ repr mem t c.
Definition BA (c : acmd) : Prop := ∀ k ts fuel,
  here (show_back c ++ replicate k (TSym 38) ++ ts) → stop ts → next_in ts "|" = false → next_in ts "&" = false →
  (4 * length (E (show_back c ++ replicate k (TSym 38) ++ ts)) + 3 ≤ fuel)%nat →
  ∃ t, pbind (parsepipe n fuel (E (show_back c ++ replicate k (TSym 38) ++ ts))) (parseback fuel) = POk t (E ts) ∧
    repr mem t (Nat.iter k ABack c).
Definition LI (c : acmd) : Prop := ∀ ts fuel,
  here (show_line c ++ ts) → (ts = [] ∨ next_in ts ")" = true) →
  (4 * length (E (show_line c ++ ts)) + 4 ≤ fuel)%nat →
  ∃ t, parseline n fuel (E (show_line c ++ ts)) = POk t (E ts) ∧ repr mem t c.

Lemma next_other ts a b :
  next_in ts a = true → (∀ c, c ∈ str a → c ∉ str b) → next_in ts b = false.
Proof.
  destruct ts as [|t ts]; [done|]. cbn. intros Ha%bool_decide_eq_true Hab.
  apply bool_decide_eq_false_2. by apply Hab.
Qed.
Ltac chars := intros ?; cbn; rewrite ?elem_of_cons, ?elem_of_nil; lia.

Lemma EX_exec args : good (AExec args) → EX (AExec args).
Proof.
  intros [Hw Hlen] rs ts fuel Hrs Hh Hs Hf. cbn [show_exec] in *. destruct fuel as [|fuel]; [lia|].
  cbn [parseexec]. rewrite peek_E by apply Hh.
  assert (next_in ((TWord <$> args) ++ rtoks rs ++ ts) "(" = false) as ->.
  { destruct args as [|w args]; [|apply next_word; [by apply Forall_cons in Hw as [? _]|chars]].
    destruct rs as [|[[f m] d] rs].
    - destruct Hs as [->|Hs]; [done|]. apply (next_other _ "|)&;"); [done|chars].
    - apply Forall_cons in Hrs as [[_ [k Hk]] _]. cbn [fst snd] in Hk.
      cbn [rtoks mjoin list_join fmap list_fmap app fst snd]. unfold rtok. rewrite Hk. by destruct k. }
  destruct args as [|w args].
  - cbn [fmap list_fmap app] in *. destruct (redirs_ok fuel rs ts Hrs Hh) as (rs' & -> & Hrs'); [|lia|].
    { apply stop_redir; [|done]. by apply (here_app (rtoks rs)). }
    cbn [pbind]. rewrite args_stop; [|by apply (here_app (rtoks rs))|done|lia]. cbn [pbind].
    eexists. split; [done|]. apply repr_wraps; [by constructor|done].
  - destruct (redirs_ok fuel [] ((TWord <$> w :: args) ++ rtoks rs ++ ts)) as (rs0 & E1 & Hrs0);
      [constructor|done| |cbn [rtoks mjoin list_join fmap list_fmap app] in *; lia|].
    { apply next_word; [by apply Forall_cons in Hw as [? _]|chars]. }
    inversion Hrs0; subst. cbn [rtoks mjoin list_join fmap list_fmap app] in E1 |- *. rewrite E1. cbn [pbind].
    destruct (args_ok fuel (w :: args) [] [] rs ts) as (argv' & rs' & E2 & H2 & H3); try done; [lia|].
    cbn [rtoks mjoin list_join fmap list_fmap app] in E2. rewrite E2. cbn [pbind app].
    eexists. split; [done|]. by apply repr_wraps.
Qed.

Lemma EX_redir c f m d : good_word f → is_Some (rkind_of m d) → EX c → EX (ARedir c f m d).
Proof.
  intros Hf Hk HEX rs ts fuel Hrs Hh Hs Hfu.
  assert (show_exec (ARedir c f m d) ++ rtoks rs ++ ts = show_exec c ++ rtoks ((f, m, d) :: rs) ++ ts) as Eq
    by (cbn [show_exec]; by rewrite <- app_assoc).
  rewrite Eq in *. by apply (HEX ((f, m, d) :: rs)); [constructor|..].
Qed.

Lemma EX_block c :
  show_exec c = TSym 40 :: show_line c ++ [TSym 41] → LI c → EX c.
Proof.
  intros Eq HLI rs ts fuel Hrs Hh Hs Hf. rewrite Eq in *. rewrite <- app_comm_cons, <- app_assoc in *.
  cbn [app] in *. set (ts1 := TSym 41 :: rtoks rs ++ ts) in *.
  pose proof (here_good _ _ Hh) as Hg. pose proof (here_cons _ _ Hh) as Hh1.
  pose proof (here_app _ _ Hh1) as Hh2. pose proof (here_good _ _ Hh2) as Hg2. pose proof (here_cons _ _ Hh2) as Hh3.
  pose proof (length_E_cons _ (show_line c ++ ts1) Hg). pose proof (length_E_cons _ (rtoks rs ++ ts) Hg2 : (_ < length (E ts1))%nat).
  pose proof (length_E_app (show_line c) ts1 (proj1 (proj1 (Forall_app _ _ _) (proj1 Hh1)))).
  destruct fuel as [|[|fuel]]; [lia|lia|]. cbn [parseexec]. rewrite peek_E by apply Hh. cbn [next_in first].
  change (bool_decide (40 ∈ str "(")) with true. cbv iota. cbn [parseblock].
  rewrite peek_E by apply Hh. cbn [next_in first]. change (bool_decide (40 ∈ str "(")) with true. cbn [negb].
  rewrite gettoken_E by done.
  destruct (HLI ts1 fuel Hh1) as (t & -> & Ht); [by right|lia|]. cbn [pbind].
  rewrite peek_E by apply Hh2. change (next_in ts1 ")") with true. cbn [negb].
  unfold ts1. rewrite gettoken_E by done.
  destruct (redirs_ok fuel rs ts Hrs Hh3) as (rs' & -> & Hrs'); [|lia|].
  { apply stop_redir; [|done]. by apply (here_app (rtoks rs)). }
  cbn [pbind]. eexists. split; [done|]. by apply repr_wraps.
Qed.

Lemma PI_of_EX c : show_pipe c = show_exec c → EX c → PI c.
Proof.
  intros Eq HEX ts fuel Hh Hs Hn Hf. rewrite Eq in *. destruct fuel as [|fuel]; [lia|]. cbn [parsepipe].
  destruct (HEX [] ts fuel) as (t & Et & Ht); [constructor|done|done|cbn [rtoks mjoin list_join fmap list_fmap app]; lia|].
  cbn [rtoks mjoin list_join fmap list_fmap app] in Et. rewrite Et. cbn [pbind].
  rewrite peek_E by (by apply (here_app (show_exec c))). rewrite Hn. by exists t.
Qed.
Lemma PI_pipe l r : EX l → PI r → PI (APipe l r).
Proof.
  intros HEX HPI ts fuel Hh Hs Hn Hf. cbn [show_pipe] in *. rewrite <- app_assoc in *. cbn [app] in *.
  set (ts1 := TSym 124 :: show_pipe r ++ ts) in *.
  pose proof (here_app _ _ Hh) as Hh1. pose proof (here_good _ _ Hh1) as Hg. pose proof (here_cons _ _ Hh1) as Hh2.
  pose proof (length_E_app (show_exec l) ts1 (proj1 (proj1 (Forall_app _ _ _) (proj1 Hh)))).
  pose proof (length_E_cons _ (show_pipe r ++ ts) Hg : (_ < length (E ts1))%nat).
  destruct fuel as [|fuel]; [lia|]. cbn [parsepipe].
  destruct (HEX [] ts1 fuel) as (t & Et & Ht); [constructor|done|by right|cbn [rtoks mjoin list_join fmap list_fmap app]; lia|].
  cbn [rtoks mjoin list_join fmap list_fmap app] in Et. rewrite Et. cbn [pbind].
  rewrite peek_E by apply Hh1. change (next_in ts1 "|") with true. cbv iota.
  unfold ts1. rewrite gettoken_E by done.
  destruct (HPI ts fuel Hh2 Hs Hn) as (t2 & -> & Ht2); [lia|]. by exists (PIPE t t2).
Qed.

Lemma backs_ok k ts t fuel :
  here (replicate k (TSym 38) ++ ts) → next_in ts "&" = false →
  (length (E (replicate k (TSym 38) ++ ts)) < fuel)%nat →
  parseback fuel t (E (replicate k (TSym 38) ++ ts)) = POk (Nat.iter k BACK t) (E ts).
Proof.
  revert t fuel. induction k as [|k IH]; intros t fuel Hh Hn Hf; destruct fuel as [|fuel]; try lia;
    cbn [parseback replicate app] in *; rewrite peek_E by apply Hh.
  - by rewrite Hn.
  - cbn [next_in first]. change (bool_decide (38 ∈ str "&")) with true. cbv iota.
    pose proof (here_good _ _ Hh) as Hg. rewrite gettoken_E by done.
    pose proof (length_E_cons _ (replicate k (TSym 38) ++ ts) Hg).
    rewrite IH; [by rewrite Nat.iter_succ_r|by apply here_cons in Hh|done|lia].
Qed.
Lemma repr_backs k t c : repr mem t c → repr mem (Nat.iter k BACK t) (Nat.iter k ABack c).
Proof. intros H. induction k; cbn; done. Qed.

Lemma BA_of_PI c : show_back c = show_pipe c → PI c → BA c.
Proof.
  intros Eq HPI k ts fuel Hh Hs Hn1 Hn2 Hf. rewrite Eq in *.
  destruct (HPI (replicate k (TSym 38) ++ ts) fuel Hh) as (t & -> & Ht); [|by destruct k|done|].
  { destruct k; [done|]. by right. }
  pose proof (length_E_app (show_pipe c) (replicate k (TSym 38) ++ ts) (proj1 (proj1 (Forall_app _ _ _) (proj1 Hh)))).
  cbn [pbind]. rewrite backs_ok; [|by apply here_app in Hh|done|lia].
  eexists. split; [done|]. by apply repr_backs.
Qed.
Lemma BA_back c : BA c → BA (ABack c).
Proof.
  intros HBA k ts fuel Hh Hs Hn1 Hn2 Hf.
  assert (show_back (ABack c) ++ replicate k (TSym 38) ++ ts = show_back c ++ replicate (S k) (TSym 38) ++ ts) as Eq
    by (cbn [show_back]; by rewrite <- app_assoc).
  rewrite Eq in *. destruct (HBA (S k) ts fuel Hh Hs Hn1 Hn2 Hf) as (t & -> & Ht).
  exists t. split; [done|]. by rewrite Nat.iter_succ_r in Ht.
Qed.

Lemma pbind_assoc {A B C} (r : pres A) (f : A → list Z → pres B) (g : B → list Z → pres C) :
  pbind r (λ a s, pbind (f a s) g) = pbind (pbind r f) g.
Proof. by destruct r. Qed.

Lemma LI_of_BA c : show_line c = show_back c → BA c → LI c.
Proof.
  intros Eq HBA ts fuel Hh Hs Hf. rewrite Eq in *. destruct fuel as [|fuel]; [lia|]. cbn [parseline].
  rewrite pbind_assoc.
  assert (next_in ts "|" = false ∧ next_in ts "&" = false ∧ next_in ts ";" = false ∧ stop ts) as (H1 & H2 & H3 & H4).
  { destruct Hs as [->|Hs]; [by split_and!; try left|].
    split_and!; try (apply (next_other _ ")"); [done|chars]). right.
    destruct ts; [done|]. cbn in *. apply bool_decide_eq_true in Hs. apply bool_decide_eq_true_2.
    cbn in *. rewrite !elem_of_cons, !elem_of_nil in *. tauto. }
  destruct (HBA 0%nat ts fuel) as (t & Et & Ht); try done; [cbn; lia|]. cbn [replicate app] in Et.
  rewrite Et. cbn [pbind]. rewrite peek_E by (by apply (here_app (show_back c))). rewrite H3. by exists t.
Qed.
Lemma LI_list l r : BA l → LI r → LI (AList l r).
Proof.
  intros HBA HLI ts fuel Hh Hs Hf. cbn [show_line] in *. rewrite <- app_assoc in *. cbn [app] in *.
  set (ts1 := TSym 59 :: show_line r ++ ts) in *.
  pose proof (here_app _ _ Hh) as Hh1. pose proof (here_good _ _ Hh1) as Hg. pose proof (here_cons _ _ Hh1) as Hh2.
  pose proof (length_E_app (show_back l) ts1 (proj1 (proj1 (Forall_app _ _ _) (proj1 Hh)))).
  pose proof (length_E_cons _ (show_line r ++ ts) Hg : (_ < length (E ts1))%nat).
  destruct fuel as [|fuel]; [lia|]. cbn [parseline]. rewrite pbind_assoc.
  destruct (HBA 0%nat ts1 fuel) as (t & Et & Ht); [done|by right|done|done|cbn [replicate app]; lia|].
  cbn [replicate app] in Et. rewrite Et. cbn [pbind]. rewrite peek_E by apply Hh1. change (next_in ts1 ";") with true. cbv iota. unfold ts1. rewrite gettoken_E by done.
  destruct (HLI ts fuel Hh2 Hs) as (t2 & -> & Ht2); [lia|]. by exists (LIST t t2).
Qed.

Lemma levels c : good c → EX c ∧ PI c ∧ BA c ∧ LI c.
Proof.
  induction c as [args|c IH f m d|l IHl r IHr|l IHl r IHr|c IH]; cbn [good]; intros Hg.
  - assert (EX (AExec args)) as H1 by (by apply EX_exec).
    assert (PI (AExec args)) as H2 by (by apply PI_of_EX).
    assert (BA (AExec args)) as H3 by (by apply BA_of_PI). split_and!; try done. by apply LI_of_BA.
  - destruct Hg as (Hc & Hf & Hk). destruct (IH Hc) as (H0 & _).
    assert (EX (ARedir c f m d)) as H1 by (by apply EX_redir).
    assert (PI (ARedir c f m d)) as H2 by (by apply PI_of_EX).
    assert (BA (ARedir c f m d)) as H3 by (by apply BA_of_PI). split_and!; try done. by apply LI_of_BA.
  - destruct Hg as [Hl Hr]. destruct (IHl Hl) as (H0 & _), (IHr Hr) as (_ & H1 & _).
    assert (PI (APipe l r)) as H2 by (by apply PI_pipe).
    assert (BA (APipe l r)) as H3 by (by apply BA_of_PI).
    assert (LI (APipe l r)) as H4 by (by apply LI_of_BA). split_and!; try done. by apply EX_block.
  - destruct Hg as [Hl Hr]. destruct (IHl Hl) as (_ & _ & H0 & _), (IHr Hr) as (_ & _ & _ & H1).
    assert (LI (AList l r)) as H2 by (by apply LI_list).
    assert (EX (AList l r)) as H3 by (by apply EX_block).
    assert (PI (AList l r)) as H4 by (by apply PI_of_EX). split_and!; try done. by apply BA_of_PI.
  - destruct (IH Hg) as (_ & _ & H0 & _). assert (BA (ABack c)) as H1 by (by apply BA_back).
    assert (LI (ABack c)) as H2 by (by apply LI_of_BA).
    assert (EX (ABack c)) as H3 by (by apply EX_block). split_and!; try done. by apply PI_of_EX.
Qed.
End text.

Lemma rtok_good m d : good_token (rtok m d).
Proof. unfold rtok. destruct (rkind_of m d) as [[]|]; cbn; rewrite ?elem_of_cons; tauto. Qed.
Lemma sym_good c : c ∈ str "<|>&;()" → good_token (TSym c).
Proof. done. Qed.
Lemma show_good c : good c →
  Forall good_token (show_line c) ∧ Forall good_token (show_back c) ∧
  Forall good_token (show_pipe c) ∧ Forall good_token (show_exec c).
Proof.
  assert (∀ x, x ∈ [40; 41; 38; 59; 124] → good_token (TSym x)) as Hsym.
  { intros x. cbn. rewrite !elem_of_cons, !elem_of_nil. lia. }
  assert (∀ args, Forall good_word args → Forall good_token (TWord <$> args)) as Hwords.
  { intros args Ha. apply Forall_fmap. done. }
  induction c as [args|c IH f m d|l IHl r IHr|l IHl r IHr|c IH]; cbn [good show_line show_back show_pipe show_exec]; intros Hg.
  - split_and!; by apply Hwords, Hg.
  - destruct Hg as (Hc & Hf & _). destruct (IH Hc) as (_ & _ & _ & H4).
    split_and!; (apply Forall_app; split; [done|]); (constructor; [apply rtok_good|]); by apply Forall_singleton.
  - destruct Hg as [Hl Hr]. destruct (IHl Hl) as (_ & _ & _ & H4), (IHr Hr) as (_ & _ & H3 & _).
    assert (Forall good_token (show_exec l ++ TSym 124 :: show_pipe r)) as H.
    { apply Forall_app. split; [done|]. constructor; [apply Hsym; rewrite !elem_of_cons; tauto|done]. }
    split_and!; try done. constructor; [apply Hsym; rewrite !elem_of_cons; tauto|].
    apply Forall_app. split; [done|]. apply Forall_singleton, Hsym. rewrite !elem_of_cons. tauto.
  - destruct Hg as [Hl Hr]. destruct (IHl Hl) as (_ & H2 & _ & _), (IHr Hr) as (H1 & _ & _ & _).
    assert (Forall good_token (show_back l ++ TSym 59 :: show_line r)) as H.
    { apply Forall_app. split; [done|]. constructor; [apply Hsym; rewrite !elem_of_cons; tauto|done]. }
    assert (Forall good_token (TSym 40 :: (show_back l ++ TSym 59 :: show_line r) ++ [TSym 41])) as H'.
    { constructor; [apply Hsym; rewrite !elem_of_cons; tauto|]. apply Forall_app. split; [done|].
      apply Forall_singleton, Hsym. rewrite !elem_of_cons. tauto. }
    by split_and!.
  - destruct (IH Hg) as (_ & H2 & _ & _).
    assert (Forall good_token (show_back c ++ [TSym 38])) as H.
    { apply Forall_app. split; [done|]. apply Forall_singleton, Hsym. rewrite !elem_of_cons. tauto. }
    assert (Forall good_token (TSym 40 :: (show_back c ++ [TSym 38]) ++ [TSym 41])) as H'.
    { constructor; [apply Hsym; rewrite !elem_of_cons; tauto|]. apply Forall_app. split; [done|].
      apply Forall_singleton, Hsym. rewrite !elem_of_cons. tauto. }
    by split_and!.
Qed.

(** ** [nulterminate] *)

(** The offsets that get a NUL. *)
Fixpoint ends (t : cmd) : list nat :=
  match t with
  | EXEC argv => snd <$> argv
  | REDIR t w _ _ => w.2 :: ends t
  | PIPE a b => ends a ++ ends b
  | LIST a b => ends a ++ ends b
  | BACK t => ends t
  end.

Lemma length_nulterminate t m : length (nulterminate t m) = length m.
Proof.
  revert m. induction t as [argv|t IH w mo d|a IHa b IHb|a IHa b IHb|t IH]; intros m; cbn [nulterminate].
  - revert m. induction argv as [|w argv IH]; intros m; [done|]. cbn. by rewrite IH, length_insert.
  - by rewrite length_insert, IH.
  - by rewrite IHb, IHa.
  - by rewrite IHb, IHa.
  - apply IH.
Qed.
Lemma nulterminate_out t m i : i ∉ ends t → nulterminate t m !! i = m !! i.
Proof.
  revert m. induction t as [argv|t IH w mo d|a IHa b IHb|a IHa b IHb|t IH]; intros m; cbn [nulterminate ends].
  - revert m. induction argv as [|w argv IH]; intros m; [done|]. cbn. rewrite not_elem_of_cons. intros [Hi Hn].
    rewrite IH by done. by rewrite list_lookup_insert_ne.
  - rewrite not_elem_of_cons. intros [Hi Hn]. rewrite list_lookup_insert_ne by done. by apply IH.
  - rewrite not_elem_of_app. intros [H1 H2]. rewrite IHb by done. by apply IHa.
  - rewrite not_elem_of_app. intros [H1 H2]. rewrite IHb by done. by apply IHa.
  - apply IH.
Qed.
Lemma nulterminate_in t m i : i ∈ ends t → (i < length m)%nat → nulterminate t m !! i = Some 0.
Proof.
  assert (∀ t' m', i ∉ ends t' → m' !! i = Some 0 → nulterminate t' m' !! i = Some 0) as Hout
    by (intros; by rewrite nulterminate_out).
  revert m. induction t as [argv|t IH w mo d|a IHa b IHb|a IHa b IHb|t IH]; intros m; cbn [nulterminate ends].
  - revert m. induction argv as [|w argv IH]; intros m; [by intros ?%elem_of_nil|]. intros Hi Hl. cbn in *.
    destruct (decide (i ∈ snd <$> argv)) as [Hin|Hn]; [apply IH; [done|by rewrite length_insert]|].
    apply elem_of_cons in Hi as [->|Hi]; [|done].
    apply (Hout (EXEC argv)); [done|]. by apply list_lookup_insert_eq.
  - intros Hi Hl. destruct (decide (i = w.2)) as [->|Hne].
    { apply list_lookup_insert_eq. by rewrite length_nulterminate. }
    rewrite list_lookup_insert_ne by done. apply elem_of_cons in Hi as [->|Hi]; [done|]. by apply IH.
  - intros Hi Hl. destruct (decide (i ∈ ends b)) as [Hin|Hn].
    { apply IHb; [done|]. by rewrite length_nulterminate. }
    apply elem_of_app in Hi as [Hi|Hi]; [|done]. apply Hout; [done|]. by apply IHa.
  - intros Hi Hl. destruct (decide (i ∈ ends b)) as [Hin|Hn].
    { apply IHb; [done|]. by rewrite length_nulterminate. }
    apply elem_of_app in Hi as [Hi|Hi]; [|done]. apply Hout; [done|]. by apply IHa.
  - apply IH.
Qed.

Lemma cstring_word (m l : list Z) o :
  (∀ i c, l !! i = Some c → m !! (o + i)%nat = Some c ∧ c ≠ 0) → m !! (o + length l)%nat = Some 0 →
  cstring (drop o m) = l.
Proof.
  revert o. induction l as [|c l IH]; intros o Hl He.
  - cbn in He. rewrite Nat.add_0_r in He. by rewrite (drop_S _ 0 o He).
  - destruct (Hl 0%nat c eq_refl) as [Hc Hne]. rewrite Nat.add_0_r in Hc. rewrite (drop_S _ c o Hc). cbn.
    rewrite (proj2 (Z.eqb_neq _ _) Hne). f_equal. apply IH.
    + intros i x Hi. specialize (Hl (S i) x Hi). by rewrite Nat.add_succ_r in Hl.
    + cbn in He. by rewrite Nat.add_succ_r in He.
Qed.

Lemma is_word_end mem w l : is_word mem w l → mem !! w.2 = Some 32 ∨ mem !! w.2 = Some 10.
Proof. by intros (_ & _ & _ & ?). Qed.
Lemma ends_char mem t c i : repr mem t c → i ∈ ends t → mem !! i = Some 32 ∨ mem !! i = Some 10.
Proof.
  revert c. induction t as [argv|t IH w mo d|a IHa b IHb|a IHa b IHb|t IH]; intros [args|c f m' d'|c1 c2|c1 c2|c];
    cbn; try done.
  - intros Hf (w & -> & Hw)%list_elem_of_fmap. apply list_elem_of_lookup in Hw as [j Hj].
    destruct (Forall2_lookup_l _ _ _ _ _ Hf Hj) as (l & _ & Hw). by eapply is_word_end.
  - intros (Ht & Hw & _ & _) [->|Hi]%elem_of_cons; [by eapply is_word_end|by eapply IH].
  - intros [H1 H2] [Hi|Hi]%elem_of_app; eauto.
  - intros [H1 H2] [Hi|Hi]%elem_of_app; eauto.
  - apply IH.
Qed.

Lemma good_word_char l i c : good_word l → l !! i = Some c → c ≠ 10 ∧ c ≠ 32 ∧ c ≠ 0.
Proof.
  intros [_ Hl] Hi. rewrite Forall_lookup in Hl. destruct (Hl i c Hi) as (Hw & _ & Hz). split_and!; [| |done];
    by intros ->.
Qed.
Lemma word_in_memory mem m' w l :
  is_word mem w l → (∀ i c, mem !! i = Some c → c ≠ 10 → c ≠ 32 → m' !! i = Some c) →
  m' !! w.2 = Some 0 → word_at m' w = l.
Proof.
  intros (Hg & He & Hl & _) Hsame Hend. unfold word_at. apply cstring_word; [|by rewrite <- He].
  intros i c Hi. destruct (good_word_char l i c Hg Hi) as (? & ? & ?). split; [|done]. apply Hsame; [by apply Hl|done|done].
Qed.
Lemma in_memory_ok mem m' t c :
  repr mem t c → (∀ i x, mem !! i = Some x → x ≠ 10 → x ≠ 32 → m' !! i = Some x) →
  (∀ i, i ∈ ends t → m' !! i = Some 0) → in_memory m' t = c.
Proof.
  intros Hr Hs. revert c Hr. induction t as [argv|t IH w mo d|a IHa b IHb|a IHa b IHb|t IH];
    intros [args|c f m2 d'|c1 c2|c1 c2|c]; cbn; try done.
  - intros Hf He. f_equal. apply list_eq. intros j. rewrite list_lookup_fmap.
    destruct (argv !! j) as [w|] eqn:Hj; cbn.
    + destruct (Forall2_lookup_l _ _ _ _ _ Hf Hj) as (l & -> & Hw). f_equal.
      apply (word_in_memory mem); [done|done|]. apply He, list_elem_of_fmap. exists w. split; [done|].
      by eapply list_elem_of_lookup_2.
    + apply lookup_ge_None in Hj. apply Forall2_length in Hf. symmetry. apply lookup_ge_None. lia.
  - intros (Ht & Hw & -> & ->) He. f_equal.
    + apply IH; [done|]. intros i Hi. apply He, elem_of_cons. by right.
    + apply (word_in_memory mem); [done|done|]. apply He, elem_of_cons. by left.
  - intros [H1 H2] He. f_equal; [apply IHa|apply IHb]; try done; intros i Hi; apply He, elem_of_app; tauto.
  - intros [H1 H2] He. f_equal; [apply IHa|apply IHb]; try done; intros i Hi; apply He, elem_of_app; tauto.
  - intros Ht He. f_equal. by apply IH.
Qed.

(** The whole parser on the text of a command. *)
Lemma parse_shown c :
  good c →
  ∃ t mem, parsecmd (4 * length (show c) + 4) (show c) = POk (t, mem) [] ∧ in_memory mem t = c.
Proof.
  intros Hgood. unfold parsecmd. set (line := show c).
  destruct (levels line c Hgood) as (_ & _ & _ & HLI).
  assert (here line (show_line c ++ [])) as Hh.
  { rewrite app_nil_r. split; [by apply show_good|]. pose proof (show_enc c) as Es. fold line in Es.
    destruct (show_line c); [by exists [32]|by exists []]. }
  assert (skip_ws line = E (show_line c)) as Eskip.
  { change (skip_ws (32 :: line) = E (show_line c)). unfold line. rewrite show_enc. by destruct (show_line c). }
  destruct (HLI [] (4 * length line + 4)%nat Hh) as (t & Et & Ht); [by left| |].
  { rewrite app_nil_r, <- Eskip. pose proof (skip_ws_len line). lia. }
  rewrite app_nil_r, <- Eskip, parseline_skip in Et. rewrite Et.
  cbn. exists t, (nulterminate t (line ++ [0])). split; [done|]. apply (in_memory_ok (line ++ [0])); [done| |].
  - intros i x Hi Hx0 Hx32. rewrite nulterminate_out; [done|]. intros He.
    destruct (ends_char _ _ _ _ Ht He); congruence.
  - intros i Hi. apply nulterminate_in; [done|].
    destruct (ends_char _ _ _ _ Ht Hi); by eapply lookup_lt_Some.
Qed.

(** C36: the parser of the shell ends on every command line, with a tree or a panic. *)
Theorem parsecmd_ends (s : list Z) : parsecmd (4 * length s + 4) s ≠ PFuel.
Proof.
  unfold parsecmd. pose proof (proj1 (grammar_ends (length s) (4 * length s + 4)) s ltac:(lia)) as H.
  destruct (parseline _ _ s) as [c r| |]; cbn in *; try done. destruct (skip_ws r); done.
Qed.

(** C37: the text of every command, however its pipes, lists, background commands and
    redirections are nested, is parsed back: the tree [parsecmd] returns, with the
    strings [nulterminate] leaves in memory, is the command. *)
Theorem parse_show (c : acmd) (Hgood : good c) :
  ∃ t mem, parsecmd (4 * length (show c) + 4) (show c) = POk (t, mem) [] ∧ in_memory mem t = c.
Proof. by apply parse_shown. Qed.
Lemma parse_show_witness :
  ∃ t mem, parsecmd (4 * length (show (APipe (AExec [str "ls"]) (ARedir (AExec [str "wc"]) (str "f") O_RDONLY 0))) + 4)
      (show (APipe (AExec [str "ls"]) (ARedir (AExec [str "wc"]) (str "f") O_RDONLY 0))) = POk (t, mem) [] ∧
    in_memory mem t = APipe (AExec [str "ls"]) (ARedir (AExec [str "wc"]) (str "f") O_RDONLY 0).
Proof.
  apply (parse_show (APipe (AExec [str "ls"]) (ARedir (AExec [str "wc"]) (str "f") O_RDONLY 0))).
  cbn [good]. unfold good_word, MAXARGS. split_and!; try done; try (cbn; lia); repeat constructor; try done; eauto.
Defined.
