(* ===== verification/ShRun.v ===== *)
(** * user/sh.c: running a command

    [runcmd] as the sequence of system calls it makes, and what these calls do to the
    file descriptors of the processes it creates.  Every program a command runs gets
    exactly its standard input, output and error: the ends of the pipes are connected
    as the command says, and no other copy of them is left open. *)
From Stdlib Require Import ZArith Lia.
From stdpp Require Import base list numbers strings.
From S2P Require Import Prelude Machine Bytes Sh.
Local Open Scope Z_scope.

(** ** Code *)

(** A process between two system calls. [Fork] has the child, the parent and what
    the parent does when [fork] fails. *)
Inductive prog :=
  | Exec (path : list Z) (argv : list (list Z)) (k : prog)
  | Close (fd : Z) (k : prog)
  | Open (file : list Z) (mode : Z) (k : Z → prog)
  | Dup (fd : Z) (k : Z → prog)
  | Pipe (k : option (Z * Z) → prog)
  | Fork (child parent fail : prog)
  | Wait (k : prog)
  | Print (fd : Z) (msg : list Z) (k : prog)
  | Exit (status : Z).

Definition panic (msg : list Z) : prog := Print 2 (msg ++ [10]) (Exit 1).
Definition fork1 (child parent : prog) : prog := Fork child parent (panic (str "fork")).

Fixpoint runcmd (c : acmd) : prog :=
  match c with
  | AExec [] => Exit 1
  | AExec (a :: args) =>
      Exec a (a :: args) (Print 2 (str "exec " ++ a ++ str " failed" ++ [10]) (Exit 0))
  | ARedir c file mode fd =>
      Close fd (Open file mode (λ r,
        if r <? 0 then Print 2 (str "open " ++ file ++ str " failed" ++ [10]) (Exit 1)
        else runcmd c))
  | AList l r => fork1 (runcmd l) (Wait (runcmd r))
  | APipe l r =>
      Pipe (λ p,
        match p with
        | None => panic (str "pipe")
        | Some (p0, p1) =>
            fork1 (Close 1 (Dup p1 (λ _, Close p0 (Close p1 (runcmd l)))))
              (fork1 (Close 0 (Dup p0 (λ _, Close p0 (Close p1 (runcmd r)))))
                 (Close p0 (Close p1 (Wait (Wait (Exit 0))))))
        end)
  | ABack c => fork1 (runcmd c) (Exit 0)
  end.

(** ** File descriptors *)

(** What a descriptor refers to: whatever the shell got from its parent, an opened
    file, or an end of the [n]-th pipe. *)
Inductive object := Std (n : nat) | File (name : list Z) (mode : Z) | ReadEnd (n : nat) | WriteEnd (n : nat).
Definition fdtab : Type := list (option object).

(** The lowest free descriptor, as [fdalloc] of the kernel finds it. *)
Definition fdalloc (f : object) (t : fdtab) : option (nat * fdtab) :=
  match find_index (λ o, match o with None => true | _ => false end) t with
  | Some i => Some (i, <[i := Some f]> t)
  | None => None
  end.
Definition fdclose (fd : Z) (t : fdtab) : fdtab := <[Z.to_nat fd := None]> t.

(** The programs that are executed, each with its arguments and its descriptors, when
    the files can be opened and created; [n] pipes have been made before. *)
Definition event : Type := list (list Z) * fdtab.
Fixpoint run (p : prog) (t : fdtab) (n : nat) : list event * nat :=
  match p with
  | Exec _ argv _ => ([(argv, t)], n)
  | Close fd k => run k (fdclose fd t) n
  | Open f m k =>
      match fdalloc (File f m) t with
      | Some (i, t') => run (k (Z.of_nat i)) t' n
      | None => run (k (-1)) t n
      end
  | Dup fd k =>
      match t !! Z.to_nat fd with
      | Some (Some o) =>
          match fdalloc o t with
          | Some (i, t') => run (k (Z.of_nat i)) t' n
          | None => run (k (-1)) t n
          end
      | _ => run (k (-1)) t n
      end
  | Pipe k =>
      match fdalloc (ReadEnd n) t with
      | Some (i, t1) =>
          match fdalloc (WriteEnd n) t1 with
          | Some (j, t2) => run (k (Some (Z.of_nat i, Z.of_nat j))) t2 (S n)
          | None => run (k None) t n
          end
      | None => run (k None) t n
      end
  | Fork child parent _ =>
      let '(e1, n1) := run child t n in
      let '(e2, n2) := run parent t n1 in
      (e1 ++ e2, n2)
  | Wait k => run k t n
  | Print _ _ k => run k t n
  | Exit _ => ([], n)
  end.

(** ** What a command means *)

(** Descriptors 0, 1 and 2 and nothing else, out of [NOFILE]. *)
Definition std (i o e : object) : fdtab := [Some i; Some o; Some e] ++ replicate (NOFILE - 3) None.

(** The programs of a command that reads from [i] and writes to [o]: a redirection
    replaces one of them by a file, and a pipe connects the output of its left side to
    the input of its right side. *)
Fixpoint meaning (c : acmd) (i o e : object) (n : nat) : list event * nat :=
  match c with
  | AExec [] => ([], n)
  | AExec args => ([(args, std i o e)], n)
  | ARedir c f m d =>
      if d =? 0 then meaning c (File f m) o e n else meaning c i (File f m) e n
  | AList l r =>
      let '(e1, n1) := meaning l i o e n in
      let '(e2, n2) := meaning r i o e n1 in
      (e1 ++ e2, n2)
  | APipe l r =>
      let '(e1, n1) := meaning l i (WriteEnd n) e (S n) in
      let '(e2, n2) := meaning r (ReadEnd n) o e n1 in
      (e1 ++ e2, n2)
  | ABack c => meaning c i o e n
  end.

Fixpoint meanings (cs : list acmd) (i o e : object) (n : nat) : list event * nat :=
  match cs with
  | [] => ([], n)
  | c :: cs =>
      let '(e1, n1) := meaning c i o e n in
      let '(e2, n2) := meanings cs i o e n1 in
      (e1 ++ e2, n2)
  end.

Lemma rkind_fd m d : is_Some (rkind_of m d) → d = 0 ∨ d = 1.
Proof.
  intros [k Hk]. unfold rkind_of in Hk. repeat case_match; try done;
    repeat match goal with H : _ && _ = true |- _ => apply andb_true_iff in H as [_ ?%Z.eqb_eq] end; lia.
Qed.

Lemma runcmd_run c i o e n : good c → run (runcmd c) (std i o e) n = meaning c i o e n.
Proof.
  revert i o e n. induction c as [args|c IH f m d|l IHl r IHr|l IHl r IHr|c IH]; intros i o e n; cbn [good].
  - intros _. by destruct args.
  - intros (Hc & _ & Hk). cbn [runcmd run meaning]. destruct (rkind_fd m d Hk) as [-> | ->].
    + change (fdalloc (File f m) (fdclose 0 (std i o e))) with (Some (0%nat, std (File f m) o e)).
      cbv iota. cbn [Z.of_nat Z.ltb Z.compare]. change (0 =? 0) with true. cbv iota. by apply IH.
    + change (fdalloc (File f m) (fdclose 1 (std i o e))) with (Some (1%nat, std i (File f m) e)).
      cbv iota. cbn [Z.of_nat Z.ltb Z.compare]. change (1 =? 0) with false. cbv iota. by apply IH.
  - intros [Hl Hr]. cbn [runcmd run meaning].
    set (t1 := [Some i; Some o; Some e; Some (ReadEnd n)] ++ replicate (NOFILE - 4) None).
    change (fdalloc (ReadEnd n) (std i o e)) with (Some (3%nat, t1)). cbv iota.
    set (t2 := [Some i; Some o; Some e; Some (ReadEnd n); Some (WriteEnd n)] ++ replicate (NOFILE - 5) None).
    change (fdalloc (WriteEnd n) t1) with (Some (4%nat, t2)). cbv iota. unfold fork1. cbn [run].
    change (fdclose 1 t2 !! Z.to_nat (Z.of_nat 4)) with (Some (Some (WriteEnd n))). cbv iota.
    set (t3 := [Some i; Some (WriteEnd n); Some e; Some (ReadEnd n); Some (WriteEnd n)] ++ replicate (NOFILE - 5) None).
    change (fdalloc (WriteEnd n) (fdclose 1 t2)) with (Some (1%nat, t3)). cbv iota.
    change (fdclose (Z.of_nat 4) (fdclose (Z.of_nat 3) t3)) with (std i (WriteEnd n) e).
    rewrite IHl by done. destruct (meaning l i (WriteEnd n) e (S n)) as [e1 n1].
    change (fdclose 0 t2 !! Z.to_nat (Z.of_nat 3)) with (Some (Some (ReadEnd n))). cbv iota.
    set (t4 := [Some (ReadEnd n); Some o; Some e; Some (ReadEnd n); Some (WriteEnd n)] ++ replicate (NOFILE - 5) None).
    change (fdalloc (ReadEnd n) (fdclose 0 t2)) with (Some (0%nat, t4)). cbv iota.
    change (fdclose (Z.of_nat 4) (fdclose (Z.of_nat 3) t4)) with (std (ReadEnd n) o e).
    rewrite IHr by done. destruct (meaning r (ReadEnd n) o e n1) as [e2 n2]. by rewrite app_nil_r.
  - intros [Hl Hr]. cbn [runcmd run meaning fork1]. unfold fork1. cbn [run]. rewrite IHl by done.
    destruct (meaning l i o e n) as [e1 n1]. by rewrite IHr by done.
  - intros Hc. cbn [runcmd meaning]. unfold fork1. cbn [run]. rewrite IH by done.
    destruct (meaning c i o e n). by rewrite app_nil_r.
Qed.

(** ** The main loop *)

(** [gets] of the user library: bytes up to the end of a line, at most [max - 1]; the
    line and what is left of the input. *)
Fixpoint gets (max : nat) (input : list Z) : list Z * list Z :=
  match max, input with
  | S (S m as max'), c :: rest =>
      if (c =? 10) || (c =? 13) then ([c], rest)
      else let '(l, r) := gets max' rest in (c :: l, r)
  | _, _ => ([], input)
  end.

Fixpoint skip_blank (s : list Z) : list Z :=
  match s with
  | c :: r => if (c =? 32) || (c =? 9) then skip_blank r else s
  | [] => []
  end.

(** What the loop does with a line: change the directory, or run a child. *)
Inductive action := Chdir (path : list Z) | Child (p : prog).

Definition nbuf : nat := 100.

(** The child: [runcmd(parsecmd(cmd))]; a syntax error panics. *)
Definition child (cmd : list Z) : option prog :=
  match parsecmd (4 * length cmd + 4) cmd with
  | POk (t, mem) _ => Some (runcmd (in_memory mem t))
  | PPanic msg => Some (panic (str msg))
  | PFuel => None
  end.

(** [getcmd]: the prompt apart, the string in the buffer and the rest of the input, or
    [None] at the end of the input. *)
Definition getcmd (input : list Z) : option (list Z * list Z) :=
  let '(line, rest) := gets nbuf input in
  let buf := cstring line in
  if List.hd 0 buf =? 0 then None else Some (buf, rest).

(** The loop of [main] on the bytes that arrive on the standard input, until the end
    of the input or a line that starts with a NUL. *)
Fixpoint main (fuel : nat) (input : list Z) : option (list action) :=
  match fuel with
  | O => None
  | S f =>
      match getcmd input with
      | None => Some []
      | Some (buf, rest) =>
          let cmd := skip_blank buf in
          if List.hd 0 cmd =? 10 then main f rest else
          if bool_decide (take 3 cmd = str "cd ") then
            let path := drop 3 (take (length cmd - 1) cmd) in
            acts ← main f rest; Some (Chdir path :: acts)
          else
            p ← child cmd;
            acts ← main f rest; Some (Child p :: acts)
      end
  end.

(** The programs that run when every child runs to its end. *)
Fixpoint programs (acts : list action) (t : fdtab) (n : nat) : list event * nat :=
  match acts with
  | [] => ([], n)
  | Chdir _ :: acts => programs acts t n
  | Child p :: acts =>
      let '(e1, n1) := run p t n in
      let '(e2, n2) := programs acts t n1 in
      (e1 ++ e2, n2)
  end.

(** *** Lines of input *)

Definition plain (c : Z) : Prop := c ≠ 10 ∧ c ≠ 13 ∧ c ≠ 0.
Lemma text_plain tk : good_token tk → Forall plain (text tk).
Proof.
  destruct tk as [w|c|]; cbn.
  - intros [_ Hw]. apply (Forall_impl _ _ _ Hw). intros c (Hc & _ & Hz). unfold plain. split_and!; [| |done]; by intros ->.
  - rewrite !elem_of_cons, elem_of_nil. intros Hc. apply Forall_singleton. unfold plain. lia.
  - intros _. repeat constructor; done.
Qed.
Lemma enc_plain ts : Forall good_token ts → ∃ b, enc ts = b ++ [10] ∧ Forall plain b.
Proof.
  induction 1 as [|tk ts Htk _ (b & Eb & Hb)]; [by exists []|]. exists (32 :: text tk ++ b).
  rewrite enc_cons, Eb. split; [cbn; by rewrite <- app_assoc|]. constructor; [done|].
  apply Forall_app. split; [by apply text_plain|done].
Qed.
Lemma show_plain c : good c → ∃ b, show c = b ++ [10] ∧ Forall plain b.
Proof.
  intros Hg. destruct (show_good c Hg) as (Hts & _). destruct (enc_plain _ Hts) as (b & Eb & Hb).
  unfold show. destruct (show_line c) as [|tk ts] eqn:E; [by exists []|]. rewrite Eb.
  destruct b as [|x b]; [by rewrite enc_cons in Eb|]. apply Forall_cons in Hb as [_ Hb]. by exists b.
Qed.

Lemma gets_line b rest max : Forall plain b → (length b + 1 < max)%nat → gets max (b ++ [10] ++ rest) = (b ++ [10], rest).
Proof.
  intros Hb. revert max. induction Hb as [|c b (H1 & H2 & _) _ IH]; intros [|[|m]] Hm; cbn in Hm; try lia; [done|].
  change (gets (S (S m)) ((c :: b) ++ [10] ++ rest)) with
    (if (c =? 10) || (c =? 13) then ([c], b ++ [10] ++ rest)
     else let '(l, r) := gets (S m) (b ++ [10] ++ rest) in (c :: l, r)).
  rewrite (proj2 (Z.eqb_neq _ _) H1), (proj2 (Z.eqb_neq _ _) H2). cbn [orb]. by rewrite IH by lia.
Qed.
Lemma cstring_plain b : Forall plain b → cstring (b ++ [10]) = b ++ [10].
Proof. induction 1 as [|c b (_ & _ & H) _ IH]; [done|]. cbn. by rewrite (proj2 (Z.eqb_neq _ _) H), IH. Qed.

Lemma show_first c : good c → show_line c ≠ [] → ∃ x r, show c = x :: r ∧ whitespace x = false.
Proof.
  intros Hg. destruct (show_good c Hg) as (Hts & _). unfold show. destruct (show_line c) as [|tk ts]; [done|].
  intros _. apply Forall_cons in Hts as [Htk _]. rewrite enc_cons. cbn [List.tl].
  destruct (text_cons tk Htk) as (r & -> & Hw). by exists (first tk), (r ++ enc ts).
Qed.
Lemma show_empty c : show_line c = [] → c = AExec [].
Proof.
  destruct c as [[|a args]|c f m d|l r|l r|c]; cbn; try done; intros [_ H]%app_nil; done.
Qed.

(** One line of a script. *)
Lemma main_line c rest f :
  good c → (length (show c) < nbuf)%nat → take 3 (show c) ≠ str "cd " →
  main (S f) (show c ++ rest) =
    (acts ← main f rest; Some (if decide (show_line c = []) then acts else Child (runcmd c) :: acts)).
Proof.
  intros Hg Hlen Hcd. destruct (show_plain c Hg) as (b & Eb & Hb). cbn [main].
  assert (getcmd (show c ++ rest) = Some (show c, rest)) as ->.
  { unfold getcmd. rewrite Eb, <- app_assoc. rewrite gets_line; [|done|].
    - rewrite cstring_plain by done. destruct Hb as [|x b (_ & _ & Hx) _]; [done|]. cbn.
      by rewrite (proj2 (Z.eqb_neq _ _) Hx).
    - rewrite Eb, length_app in Hlen. cbn in Hlen. lia. }
  destruct (decide (show_line c = [])) as [E|E].
  - unfold show. rewrite E. cbn. by destruct (main f rest).
  - destruct (show_first c Hg E) as (x & r & Ex & Hx).
    assert (skip_blank (show c) = show c) as ->.
    { rewrite Ex. cbn. destruct (x =? 32) eqn:E1; [apply Z.eqb_eq in E1 as ->; done|].
      destruct (x =? 9) eqn:E2; [apply Z.eqb_eq in E2 as ->; done|]. done. }
    assert ((List.hd 0 (show c) =? 10) = false) as ->.
    { rewrite Ex. cbn. apply Z.eqb_neq. by intros ->. }
    rewrite bool_decide_eq_false_2 by done.
    destruct (parse_shown c Hg) as (t & mem & Et & Em). unfold child. rewrite Et, Em. done.
Qed.


