(* ===== verification/Umalloc.v ===== *)
(** * The user-level memory allocator

    user/umalloc.c: [malloc] and [free] of Kernighan and Ritchie on the bytes of a
    process's memory.  Every block starts with a header of 16 bytes, the address of the
    next free block and the size in units of 16 bytes; the free blocks form a circular
    list in address order, which [free] keeps coalesced and [malloc] searches from where
    it last stopped. *)
From Stdlib Require Import ZArith Lia.
From stdpp Require Import base list gmap numbers strings.
From S2P Require Import Prelude Machine.
Local Open Scope Z_scope.
Local Open Scope kernel_scope.

(** ** The code *)

(** The memory of the process, [freep], and the size of the address space, up to which
    memory can be accessed. *)
Record heap := mkHeap { h_mem : mem; h_freep : Z; h_brk : Z }.
Definition set_h_mem (m : mem) (h : heap) : heap := mkHeap m (h_freep h) (h_brk h).
Definition set_h_freep (p : Z) (h : heap) : heap := mkHeap (h_mem h) p (h_brk h).
Definition set_h_brk (b : Z) (h : heap) : heap := mkHeap (h_mem h) (h_freep h) b.

(** The address of the static header [base], and whether the kernel can grow the
    process. *)
Class Process := { base : Z; can_grow : heap → Z → bool }.

Section umalloc.
Context {Pr : Process}.
Implicit Types (p bp : Z).

(** The fields of the header at [p]; an access outside the process is a fault. *)
Definition header {A} p (k : M heap A) : M heap A :=
  b ← gets h_brk;
  if (0 <? p) && (p + 16 <=? b) then k else undef "segmentation fault".
Definition ptr p : M heap Z := header p (gets (λ h, ld64 (h_mem h) p)).
Definition size p : M heap Z := header p (gets (λ h, ld32 (h_mem h) (p + 8))).
Definition set_ptr p (v : Z) : M heap unit := header p (modify (λ h, set_h_mem (st64 (h_mem h) p v) h)).
Definition set_size p (v : Z) : M heap unit := header p (modify (λ h, set_h_mem (st32 (h_mem h) (p + 8) v) h)).

(** Pointer arithmetic on headers. *)
Definition unit_add p (n : Z) : Z := u64 (p + 16 * n).

(** [SBRK_ERROR] is [(char * )-1]. *)
Definition SBRK_ERROR : Z := u64 (-1).
Definition sbrk (n : Z) : M heap Z :=
  h ← gets id;
  if can_grow h n then modify (set_h_brk (h_brk h + n)) ;; ret (h_brk h) else ret SBRK_ERROR.

(** There are not more blocks than units in the address space; a search goes at most
    twice round the list. *)
Definition rounds (h : heap) : nat := Z.to_nat (2 * (h_brk h / 16) + 8).

(** The block of the free list that comes before [bp]. *)
Fixpoint free_scan (fuel : nat) bp p : M heap Z :=
  match fuel with
  | O => nofuel
  | S f =>
      n ← ptr p;
      if (p <? bp) && (bp <? n) then ret p
      else if (n <=? p) && ((p <? bp) || (bp <? n)) then ret p
      else free_scan f bp n
  end.

Definition free (ap : Z) : M heap unit :=
  let bp := unit_add ap (-1) in
  p ← gets h_freep;
  fuel ← gets rounds;
  p ← free_scan fuel bp p;
  sz ← size bp;
  n ← ptr p;
  (if unit_add bp sz =? n then
     nsz ← size n;
     set_size bp (u32 (sz + nsz)) ;;
     nn ← ptr n;
     set_ptr bp nn
   else set_ptr bp n) ;;
  psz ← size p;
  (if unit_add p psz =? bp then
     sz ← size bp;
     set_size p (u32 (psz + sz)) ;;
     n ← ptr bp;
     set_ptr p n
   else set_ptr p bp) ;;
  modify (set_h_freep p).

Definition morecore (nu : Z) : M heap Z :=
  let nu := if nu <? 4096 then 4096 else nu in
  p ← sbrk (i32 (u64 (nu * 16)));
  if p =? SBRK_ERROR then ret 0 else
  set_size p nu ;;
  free (unit_add p 1) ;;
  gets h_freep.

Fixpoint malloc_loop (fuel : nat) (nunits prevp p : Z) : M heap Z :=
  match fuel with
  | O => nofuel
  | S f =>
      sz ← size p;
      if nunits <=? sz then
        p ← (if sz =? nunits then
               n ← ptr p;
               set_ptr prevp n ;; ret p
             else
               set_size p (u32 (sz - nunits)) ;;
               sz ← size p;
               let p := unit_add p sz in
               set_size p nunits ;; ret p);
        modify (set_h_freep prevp) ;;
        ret (unit_add p 1)
      else
        fp ← gets h_freep;
        p ← (if p =? fp then morecore nunits else ret p);
        if p =? 0 then ret 0 else
        n ← ptr p;
        malloc_loop f nunits p n
  end.

Definition malloc (nbytes : Z) : M heap Z :=
  let nunits := u32 (u64 (nbytes + 16 - 1) / 16 + 1) in
  fp ← gets h_freep;
  prevp ← (if fp =? 0 then
             set_ptr base base ;;
             modify (set_h_freep base) ;;
             set_size base 0 ;;
             ret base
           else ret fp);
  n ← ptr prevp;
  fuel ← gets rounds;
  malloc_loop fuel nunits prevp n.
End umalloc.

(** ** Blocks *)

(** A block: the address of its header and its units. *)
Abbreviation block := (Z * Z)%type.
Implicit Types (x y : block) (L T A : list block) (m : mem).

(** [y] is after [x], with a gap: adjacent free blocks are coalesced.  The header of
    [base] takes 16 bytes, although its size is 0. *)
Definition before x y : Prop := x.1 + 16 * x.2 < y.1 ∧ x.1 + 16 ≤ y.1.
Fixpoint ascending L : Prop :=
  match L with [] => True | x :: L' => Forall (before x) L' ∧ ascending L' end.
Definition disj x y : Prop := x.1 + 16 * x.2 ≤ y.1 ∨ y.1 + 16 * y.2 ≤ x.1.
Fixpoint apart A : Prop :=
  match A with [] => True | x :: A' => Forall (disj x) A' ∧ apart A' end.
Definition units A : Z := foldr (λ x n, x.2 + n) 0 A.

Lemma ascending_app L1 L2 :
  ascending (L1 ++ L2) ↔ ascending L1 ∧ ascending L2 ∧ Forall (λ x, Forall (before x) L2) L1.
Proof.
  induction L1 as [|x L1 IH]; cbn [app ascending].
  - split; [intros ?|intros (_ & ? & _)]; [by split_and!; [| |constructor]|done].
  - rewrite IH, Forall_app, Forall_cons. tauto.
Qed.
Lemma apart_app A1 A2 : apart (A1 ++ A2) ↔ apart A1 ∧ apart A2 ∧ Forall (λ x, Forall (disj x) A2) A1.
Proof.
  induction A1 as [|x A1 IH]; cbn [app apart].
  - split; [intros ?|intros (_ & ? & _)]; [by split_and!; [| |constructor]|done].
  - rewrite IH, Forall_app, Forall_cons. tauto.
Qed.
Lemma disj_sym x y : disj x y → disj y x.
Proof. unfold disj. lia. Qed.
Lemma units_app A1 A2 : units (A1 ++ A2) = units A1 + units A2.
Proof. unfold units. induction A1 as [|x A1 IH]; cbn; lia. Qed.

(** ** The free list in memory *)

Definition first L (stop : Z) : Z := match L with [] => stop | x :: _ => x.1 end.
Fixpoint chain m L (stop : Z) : Prop :=
  match L with
  | [] => True
  | x :: L' => ld32 m (x.1 + 8) = x.2 ∧ ld64 m x.1 = first L' stop ∧ chain m L' stop
  end.

Lemma chain_app m L1 L2 stop : chain m (L1 ++ L2) stop ↔ chain m L1 (first L2 stop) ∧ chain m L2 stop.
Proof.
  induction L1 as [|x L1 IH]; cbn [app chain first]; [tauto|]. rewrite IH.
  assert (first (L1 ++ L2) stop = first L1 (first L2 stop)) as -> by (by destruct L1). tauto.
Qed.
(** Only headers matter. *)
Definition same_header m m' x : Prop := ld32 m' (x.1 + 8) = ld32 m (x.1 + 8) ∧ ld64 m' x.1 = ld64 m x.1.
Lemma chain_ext m m' L stop : Forall (same_header m m') L → chain m L stop → chain m' L stop.
Proof.
  induction 1 as [|x L [H1 H2] _ IH]; cbn [chain]; [done|]. intros (E1 & E2 & Hc).
  rewrite H1, H2. split_and!; [done|done|by apply IH].
Qed.

(** What a store into a header changes. *)
Lemma ld32_range m a : 0 ≤ ld32 m a < 2 ^ 32.
Proof. apply (ldn_range 4). Qed.
Lemma ld32_st32 m a v : 0 ≤ v < 2 ^ 32 → ld32 (st32 m a v) a = v.
Proof. intros. unfold ld32, st32. rewrite ldn_stn_same. by apply Z.mod_small. Qed.
Lemma ld32_st32_ne m a b v : a + 4 ≤ b ∨ b + 4 ≤ a → ld32 (st32 m b v) a = ld32 m a.
Proof. intros. apply ldn_stn_ne. lia. Qed.
Lemma ld32_st64 m a b v : a + 4 ≤ b ∨ b + 8 ≤ a → ld32 (st64 m b v) a = ld32 m a.
Proof. intros. apply ldn_stn_ne. lia. Qed.
Lemma ld64_st32 m a b v : a + 8 ≤ b ∨ b + 4 ≤ a → ld64 (st32 m b v) a = ld64 m a.
Proof. intros. apply ldn_stn_ne. lia. Qed.
(** Only the header at [p] changes. *)
Definition only m m' p : Prop := ∀ a, ¬ (p ≤ a < p + 16) → ld8 m' a = ld8 m a.
Lemma only_trans m1 m2 m3 p : only m1 m2 p → only m2 m3 p → only m1 m3 p.
Proof. intros H1 H2 a Ha. by rewrite H2, H1. Qed.
Lemma only_st64 m p v : only m (st64 m p v) p.
Proof. intros a Ha. apply ld8_stn_ne. lia. Qed.
Lemma only_st32 m p v : only m (st32 m (p + 8) v) p.
Proof. intros a Ha. apply ld8_stn_ne. lia. Qed.
Lemma only_header m m' p x : only m m' p → x.1 + 16 ≤ p ∨ p + 16 ≤ x.1 → same_header m m' x.
Proof. intros Ho Hd. split; apply ldn_ext; intros b Hb; apply Ho; lia. Qed.
Lemma only_headers m m' p L : only m m' p → Forall (λ x, x.1 + 16 ≤ p ∨ p + 16 ≤ x.1) L → Forall (same_header m m') L.
Proof. intros Ho Hl. eapply Forall_impl; [exact Hl|]. intros x. by apply only_header. Qed.

(** The bytes of the blocks [A] are untouched. *)
Definition untouched m m' A : Prop := ∀ x a, x ∈ A → x.1 ≤ a < x.1 + 16 * x.2 → ld8 m' a = ld8 m a.
Lemma untouched_refl m A : untouched m m A.
Proof. done. Qed.
Lemma untouched_trans m1 m2 m3 A : untouched m1 m2 A → untouched m2 m3 A → untouched m1 m3 A.
Proof. intros H1 H2 x a Hx Ha. by rewrite (H2 x), (H1 x). Qed.
Lemma untouched_only m m' p A : only m m' p → Forall (disj (p, 1)) A → untouched m m' A.
Proof. rewrite Forall_forall. intros Ho Hd x a Hx Ha. apply Ho. specialize (Hd x Hx). unfold disj in Hd. cbn in *. lia. Qed.
Lemma untouched_size m m' A x : untouched m m' A → x ∈ A → 1 ≤ x.2 → ld32 m' (x.1 + 8) = ld32 m (x.1 + 8).
Proof. intros Hu Hx Hn. apply ldn_ext. intros b Hb. apply (Hu x); [done|lia]. Qed.

(** ** The invariant *)

Section inv.
Context {Pr : Process} (h0 : Z).
Implicit Types (h : heap).

Definition reach h p : Prop := 0 < p ∧ p + 16 ≤ h_brk h.
Lemma header_run {X} h p (k : M heap X) : reach h p → header p k h = k h.
Proof. intros [H1 H2]. unfold header. rewrite bind_gets. by rewrite (proj2 (Z.ltb_lt _ _)), (proj2 (Z.leb_le _ _)). Qed.
Lemma ptr_run h p : reach h p → ptr p h = Ret (ld64 (h_mem h) p) h.
Proof. intros. unfold ptr. by rewrite header_run. Qed.
Lemma size_run h p : reach h p → size p h = Ret (ld32 (h_mem h) (p + 8)) h.
Proof. intros. unfold size. by rewrite header_run. Qed.
Lemma set_ptr_run h p v : reach h p → set_ptr p v h = Ret tt (set_h_mem (st64 (h_mem h) p v) h).
Proof. intros. unfold set_ptr. by rewrite header_run. Qed.
Lemma set_size_run h p v : reach h p → set_size p v h = Ret tt (set_h_mem (st32 (h_mem h) (p + 8) v) h).
Proof. intros. unfold set_size. by rewrite header_run. Qed.

(** A block lies in the heap, which starts at [h0]. *)
Definition block_ok h x : Prop := h0 ≤ x.1 ∧ 1 ≤ x.2 ∧ x.1 + 16 * x.2 ≤ h_brk h ∧ x.1 mod 16 = 0.
Abbreviation free_list T := ((base, 0) :: T).

(** [T] are the free blocks, in address order, and [A] the allocated ones: together they
    are the heap. *)
Record heap_ok T A h : Prop := {
  ho_base : 0 < base ∧ base + 16 ≤ h0;
  ho_brk : h0 ≤ h_brk h ≤ 2 ^ 36 ∧ h_brk h mod 16 = 0;
  ho_freep : h_freep h ∈ (free_list T).*1;
  ho_chain : chain (h_mem h) (free_list T) base;
  ho_asc : ascending (free_list T);
  ho_free : Forall (block_ok h) T;
  ho_live : Forall (block_ok h) A;
  ho_size : Forall (λ x, ld32 (h_mem h) (x.1 + 8) = x.2) A;
  ho_apart : apart (A ++ free_list T);
  ho_units : 16 * (units T + units A) = h_brk h - h0;
}.

Lemma free_reach T A h x : heap_ok T A h → x ∈ free_list T → reach h x.1.
Proof.
  intros [Hb Hk _ _ _ Hf _ _ _ _] [->|Hx]%elem_of_cons; unfold reach; [cbn; lia|].
  rewrite Forall_forall in Hf. destruct (Hf x Hx) as (? & ? & ? & ?). lia.
Qed.
Lemma live_reach T A h x : heap_ok T A h → x ∈ A → reach h x.1.
Proof.
  intros [Hb Hk _ _ _ _ Hf _ _ _] Hx. rewrite Forall_forall in Hf. destruct (Hf x Hx) as (? & ? & ? & ?). unfold reach. lia.
Qed.
Lemma chain_at m K1 x K2 stop : chain m (K1 ++ x :: K2) stop → ld32 m (x.1 + 8) = x.2 ∧ ld64 m x.1 = first K2 stop.
Proof. rewrite chain_app. cbn [chain]. tauto. Qed.

(** Steps from index [i] to index [j] of a circular list. *)
Definition dist (len i j : nat) : nat := if decide (i ≤ j)%nat then j - i else len - i + j.

Lemma ascending_lt K1 x K2 z : ascending (K1 ++ x :: K2) → z ∈ K2 → before x z.
Proof. rewrite ascending_app. cbn [ascending]. rewrite !Forall_forall. intros (_ & [H _] & _). apply H. Qed.
(** [bp] falls between [P1] with [y], and [P2]. *)
Lemma split_lt (P1 P2 : list block) y bp j z :
  Forall (λ z, z.1 < bp) (P1 ++ [y]) → Forall (λ z, bp < z.1) P2 → (P1 ++ y :: P2) !! j = Some z →
  if decide (j ≤ length P1)%nat then z.1 < bp else bp < z.1.
Proof.
  intros Hlo Hhi Hj. replace (P1 ++ y :: P2) with ((P1 ++ [y]) ++ P2) in Hj by (by rewrite <- app_assoc).
  rewrite Forall_lookup in Hlo, Hhi. case_decide.
  - rewrite lookup_app_l in Hj by (rewrite length_app; cbn; lia). by eapply Hlo.
  - rewrite lookup_app_r in Hj by (rewrite length_app; cbn; lia). by eapply Hhi.
Qed.

Lemma free_scan_run fuel T A h bp K1 x K2 P1 y P2 :
  heap_ok T A h → free_list T = K1 ++ x :: K2 → free_list T = P1 ++ y :: P2 →
  Forall (λ z, z.1 < bp) (P1 ++ [y]) → Forall (λ z, bp < z.1) P2 →
  (dist (S (length T)) (length K1) (length P1) < fuel)%nat →
  free_scan fuel bp x.1 h = Ret y.1 h.
Proof.
  intros Hok EK EP Hlo Hhi. revert K1 x K2 EK. induction fuel as [|f IH]; intros K1 x K2 EK Hd; [lia|]. cbn [free_scan].
  assert (length K1 + S (length K2) = S (length T) ∧ length P1 + S (length P2) = S (length T))%nat as [HlK HlP].
  { split; change (S (length T)) with (length (free_list T)); [rewrite EK|rewrite EP]; by rewrite length_app. }
  assert (x ∈ free_list T) as Hx by (rewrite EK; set_solver).
  rewrite (bind_run _ _ _ _ _ (ptr_run h x.1 (free_reach _ _ _ _ Hok Hx))).
  pose proof (ho_chain _ _ _ Hok) as Hc. rewrite EK in Hc. apply chain_at in Hc as [_ ->].
  pose proof (ho_asc _ _ _ Hok) as Ha.
  assert (∀ j z, free_list T !! j = Some z → if decide (j ≤ length P1)%nat then z.1 < bp else bp < z.1) as Hsp.
  { intros j z. rewrite EP. by apply split_lt. }
  pose proof (Hsp (length K1) x) as Hxs. rewrite EK, list_lookup_middle in Hxs by done. specialize (Hxs eq_refl).
  pose proof (Hsp O (base, 0) eq_refl) as Hbs. rewrite decide_True in Hbs by lia. cbn in Hbs.
  unfold dist in *. destruct K2 as [|z K2]; cbn [first length] in *.
  - assert (base ≤ x.1) as Hbx.
    { apply elem_of_cons in Hx as [->|Hx]; [done|]. destruct Ha as [Ha _]. rewrite Forall_forall in Ha.
      destruct (Ha x Hx) as [_ ?]. cbn in *. lia. }
    rewrite (proj2 (Z.ltb_ge bp base)), andb_false_r, orb_false_r, (proj2 (Z.leb_le base x.1)) by lia. cbn [andb].
    destruct (decide (length K1 ≤ length P1)%nat) as [Hle|Hgt].
    + rewrite (proj2 (Z.ltb_lt _ _)) by done. assert (length P1 = length K1) as El by lia.
      rewrite EP in EK. apply app_inj_1 in EK as [_ EK]; [|done]. by injection EK as -> _.
    + rewrite (proj2 (Z.ltb_ge _ _)) by lia. apply (IH [] (base, 0) T eq_refl). cbn [length]. rewrite decide_True by lia. lia.
  - pose proof (Hsp (S (length K1)) z) as Hzs. rewrite EK in Hzs.
    rewrite lookup_app_r in Hzs by lia. replace (S (length K1) - length K1)%nat with 1%nat in Hzs by lia. specialize (Hzs eq_refl).
    rewrite EK in Ha. pose proof (ascending_lt K1 x (z :: K2) z Ha ltac:(set_solver)) as [_ Hxz].
    destruct (decide (length K1 = length P1)) as [El|Hne].
    + rewrite (decide_True (P := (length K1 ≤ length P1)%nat)) in Hxs by lia. rewrite decide_False in Hzs by lia.
      rewrite (proj2 (Z.ltb_lt _ _)), (proj2 (Z.ltb_lt _ _)) by done. cbn [andb].
      rewrite EP in EK. apply app_inj_1 in EK as [_ EK]; [|done]. by injection EK as -> _.
    + assert ((x.1 <? bp) && (bp <? z.1) = false) as ->.
      { destruct (decide (length K1 ≤ length P1)%nat); [rewrite decide_True in Hzs by lia|]; lia. }
      rewrite (proj2 (Z.leb_gt _ _)) by lia. cbn [andb].
      apply (IH (K1 ++ [x]) z K2); [by rewrite EK, <- app_assoc|]. rewrite length_app. cbn [length].
      repeat case_decide; lia.
Qed.

(** ** [free] *)

(** A block put before the blocks [L], coalesced with the first of them. *)
Definition join x L : list block :=
  match L with
  | z :: L' => if decide (x.1 + 16 * x.2 = z.1) then (x.1, x.2 + z.2) :: L' else x :: L
  | [] => [x]
  end.
Lemma first_join x L stop : first (join x L) stop = x.1.
Proof. unfold join. destruct L; [done|]. by case_decide. Qed.
Lemma join_len x L : (length (join x L) ≤ S (length L))%nat.
Proof. unfold join. destruct L; [done|]. case_decide; cbn; lia. Qed.
Lemma Forall_disj_perm x A A' : A ≡ₚ A' → Forall (disj x) A → Forall (disj x) A'.
Proof. by intros <-. Qed.
Lemma apart_perm A A' : A ≡ₚ A' → apart A → apart A'.
Proof.
  induction 1 as [|x l l' Hp IH|x y l|]; cbn [apart]; auto.
  - intros [H1 H2]. split; [by eapply Forall_disj_perm|auto].
  - rewrite !Forall_cons. intros ((H1 & H2) & H3 & H4). split_and!; try done; by apply disj_sym.
Qed.
(** Two adjacent blocks as one. *)
Lemma apart_merge A x z L :
  0 ≤ x.2 → 1 ≤ z.2 → x.1 + 16 * x.2 = z.1 → Forall (λ w, 1 ≤ w.2 ∨ w.1 < z.1 ∧ w.2 = 0) (A ++ L) →
  apart (A ++ x :: z :: L) → apart (A ++ (x.1, x.2 + z.2) :: L).
Proof.
  intros Hx Hz E [HA HL]%Forall_app. rewrite !apart_app. cbn [apart].
  intros (H1 & ([H2 H3]%Forall_cons & H4 & H5) & H6). rewrite !Forall_forall in *. split_and!; try done.
  - intros w Hw. specialize (H3 w Hw). specialize (H4 w Hw). specialize (HL w Hw). unfold disj in *. cbn. lia.
  - intros w Hw. specialize (HA w Hw). destruct (proj1 (Forall_cons _ _ _) (H6 w Hw)) as [Hw1 [Hw2 Hw3]%Forall_cons].
    constructor; [|done]. unfold disj in *. cbn. lia.
Qed.

(** An allocated block between [y] and [P2] joins the free list. *)
Section insert.
Context (P1 P2 : list block) (y x : block).
Hypothesis (Hasc : ascending (P1 ++ y :: P2)) (Hy : y.1 + 16 * y.2 ≤ x.1) (Hy1 : y.1 + 16 ≤ x.1) (Hyn : 0 ≤ y.2) (Hx : 1 ≤ x.2)
  (HP2 : Forall (λ z, x.1 + 16 * x.2 ≤ z.1 ∧ 1 ≤ z.2) P2).

Lemma join_shape : ∃ n L, join x P2 = (x.1, n) :: L ∧ x.2 ≤ n ∧ (∀ z, z ∈ L → z ∈ P2).
Proof using Hx HP2.
  clear Hasc Hy Hy1 Hyn. unfold join. destruct P2 as [|z L]; [exists x.2, []; by destruct x|]. case_decide.
  - exists (x.2 + z.2), L. apply Forall_cons in HP2 as [[_ ?] _]. split_and!; [done|lia|set_solver].
  - exists x.2, (z :: L). by destruct x.
Qed.
Lemma join_asc1 : ascending (join x P2).
Proof.
  apply ascending_app in Hasc as (_ & [_ Ha] & _). rewrite Forall_forall in HP2. unfold join.
  destruct P2 as [|z L]; cbn in *; [done|]. destruct Ha as [Hz Ha]. destruct (HP2 z ltac:(set_solver)) as [Hz1 Hz2]. rewrite Forall_forall in Hz.
  case_decide; cbn [ascending]; rewrite !Forall_forall.
  - split; [|done]. intros w Hw. destruct (Hz w Hw). unfold before. cbn. lia.
  - split; [|by split]. intros w [->|Hw]%elem_of_cons; unfold before; [lia|]. destruct (Hz w Hw). lia.
Qed.
Lemma join_asc : ascending (P1 ++ join y (join x P2)).
Proof.
  pose proof join_asc1 as Har. destruct join_shape as (n & L & E & Hn & HL). rewrite E in *. cbn [ascending] in Har.
  destruct Har as [Hb Har]. apply ascending_app in Hasc as (H1 & [H2 H3] & H4). rewrite Forall_forall in H2, H4, Hb.
  unfold join. apply ascending_app. split; [done|]. cbn [fst snd]. case_decide as Ed; cbn [ascending]; rewrite !Forall_forall.
  - split; [split; [|done]|].
    + intros w Hw. destruct (Hb w Hw). unfold before in *. cbn in *. lia.
    + intros u Hu. specialize (H4 u Hu). apply Forall_cons in H4 as [Huy Hu2]. rewrite Forall_forall in Hu2.
      constructor; [done|]. apply Forall_forall. intros w Hw. by apply Hu2, HL.
  - split; [split_and!|].
    + intros w [->|Hw]%elem_of_cons; [unfold before; cbn; lia|]. by apply H2, HL.
    + done.
    + done.
    + intros u Hu. specialize (H4 u Hu). apply Forall_cons in H4 as [Huy Hu2]. rewrite Forall_forall in Hu2.
      constructor; [done|]. constructor; [unfold before in *; cbn; lia|]. apply Forall_forall. intros w Hw. by apply Hu2, HL.
Qed.

Lemma right_run h m :
  h_mem h = m → chain m P2 base → ld32 m (x.1 + 8) = x.2 → base < x.1 → x.1 + 16 * x.2 ≤ h_brk h ≤ 2 ^ 36 → 0 < x.1 →
  Forall (λ z, z.1 + 16 * z.2 ≤ h_brk h) P2 → 0 < base →
  ∃ m', (if unit_add x.1 x.2 =? first P2 base then
           nsz ← size (first P2 base);
           set_size x.1 (u32 (x.2 + nsz)) ;;
           nn ← ptr (first P2 base);
           set_ptr x.1 nn
         else set_ptr x.1 (first P2 base)) h = Ret tt (set_h_mem m' h) ∧
    chain m' (join x P2) base ∧ only m m' x.1.
Proof.
  intros Em Hc Hs Hb Hk H0 Hr Hb0. unfold unit_add. rewrite u64_small by lia.
  assert (reach h x.1) as Hrx by (unfold reach; lia).
  assert (Forall (λ z, z.1 + 16 ≤ x.1 ∨ x.1 + 16 ≤ z.1) P2) as Hsep.
  { eapply Forall_impl; [exact HP2|]. cbn. intros z [? ?]. lia. }
  assert (∀ m', only m m' x.1 → chain m' P2 base) as Hkeep.
  { intros m' Ho. eapply chain_ext; [|exact Hc]. by eapply only_headers. }
  destruct P2 as [|z L] eqn:EP; cbn [first join].
  - rewrite (proj2 (Z.eqb_neq _ _)) by lia. rewrite set_ptr_run by done. exists (st64 m x.1 base). rewrite Em.
    split_and!; [done| |apply only_st64]. cbn [chain first]. rewrite ld32_st64, ld64_st64_same by lia. done.
  - apply Forall_cons in HP2 as [[Hz1 Hz2] _]. apply Forall_cons in Hr as [Hrz _]. apply Forall_cons in Hsep as [_ Hsep].
    destruct (Z.eqb_spec (x.1 + 16 * x.2) z.1) as [E|E].
    + assert (reach h z.1) as Hrz' by (unfold reach; lia). destruct Hc as (Ez1 & Ez2 & Hc).
      rewrite (bind_run _ _ _ _ _ (size_run h z.1 Hrz')), Em, Ez1, u32_small by lia.
      rewrite (bind_run _ _ _ _ _ (set_size_run h x.1 _ Hrx)), Em.
      set (m1 := st32 m (x.1 + 8) (x.2 + z.2)). set (h1 := set_h_mem m1 h).
      rewrite (bind_run _ _ _ _ _ (ptr_run h1 z.1 Hrz')). rewrite set_ptr_run by done. change (h_mem h1) with m1.
      assert (only m m1 x.1) as O1 by apply only_st32.
      assert (ld64 m1 z.1 = first L base) as -> by (rewrite <- Ez2; apply ldn_ext; intros b Hb'; apply O1; lia).
      exists (st64 m1 x.1 (first L base)). assert (only m (st64 m1 x.1 (first L base)) x.1) as O2 by (eapply only_trans; [exact O1|apply only_st64]).
      rewrite decide_True by done. split_and!; [done| |done]. cbn [chain fst snd]. split_and!.
      * rewrite ld32_st64 by lia. unfold m1. rewrite ld32_st32 by lia. done.
      * rewrite ld64_st64_same; [done|]. destruct L as [|w L]; cbn [first]; [lia|].
        apply Forall_cons in Hsep as [Hw _]. destruct Hc as (_ & _ & _). pose proof (ld64_range m z.1). cbn [first] in Ez2. lia.
      * eapply chain_ext; [|exact Hc]. by eapply only_headers.
    + rewrite decide_False by done. rewrite set_ptr_run by done. rewrite Em. exists (st64 m x.1 z.1).
      split_and!; [done| |apply only_st64]. cbn [chain first]. rewrite ld32_st64, ld64_st64_same by lia.
      do 2 (split; [done|]). apply (Hkeep (st64 m x.1 z.1)), only_st64.
Qed.
End insert.

Lemma left_run h m y b n L :
  h_mem h = m → chain m ((b, n) :: L) base → ld32 m (y.1 + 8) = y.2 → 0 < y.1 → 0 ≤ y.2 → 1 ≤ n →
  y.1 + 16 * y.2 ≤ b → y.1 + 16 ≤ b → b + 16 * n ≤ h_brk h ≤ 2 ^ 36 → Forall (λ z, b + 16 ≤ z.1) L →
  ∃ m', (if unit_add y.1 y.2 =? b then
           sz ← size b;
           set_size y.1 (u32 (y.2 + sz)) ;;
           nn ← ptr b;
           set_ptr y.1 nn
         else set_ptr y.1 b) h = Ret tt (set_h_mem m' h) ∧
    chain m' (join y ((b, n) :: L)) base ∧ only m m' y.1.
Proof.
  intros Em (E1 & E2 & Hc) Hs Hy0 Hy Hn Hyb Hyb1 Hk HL. cbn [fst snd] in E1, E2. unfold unit_add. rewrite u64_small by lia.
  assert (reach h y.1 ∧ reach h b) as [Hry Hrb] by (unfold reach; lia).
  assert (∀ m', only m m' y.1 → chain m' L base) as Hkeep.
  { intros m' Ho. eapply chain_ext; [|exact Hc]. eapply only_headers; [exact Ho|]. eapply Forall_impl; [exact HL|]. cbn. lia. }
  cbn [join fst snd]. destruct (Z.eqb_spec (y.1 + 16 * y.2) b) as [E|E].
  - rewrite (bind_run _ _ _ _ _ (size_run h b Hrb)), Em, E1, u32_small by lia.
    rewrite (bind_run _ _ _ _ _ (set_size_run h y.1 _ Hry)), Em.
    set (m1 := st32 m (y.1 + 8) (y.2 + n)). set (h1 := set_h_mem m1 h).
    rewrite (bind_run _ _ _ _ _ (ptr_run h1 b Hrb)). rewrite set_ptr_run by done. change (h_mem h1) with m1.
    assert (only m m1 y.1) as O1 by apply only_st32.
    assert (ld64 m1 b = first L base) as -> by (rewrite <- E2; apply ldn_ext; intros c Hc'; apply O1; lia).
    exists (st64 m1 y.1 (first L base)). assert (only m (st64 m1 y.1 (first L base)) y.1) as O2 by (eapply only_trans; [exact O1|apply only_st64]).
    rewrite decide_True by done. split_and!; [done| |done]. cbn [chain fst snd]. split_and!; [| |by apply Hkeep].
    + rewrite ld32_st64 by lia. unfold m1. by rewrite ld32_st32 by lia.
    + rewrite ld64_st64_same; [done|]. rewrite <- E2. apply ld64_range.
  - rewrite set_ptr_run, Em, decide_False by done. exists (st64 m y.1 b). split_and!; [done| |apply only_st64].
    assert (only m (st64 m y.1 b) y.1) as O by apply only_st64.
    cbn [chain first fst snd]. rewrite ld32_st64, ld64_st64_same by lia. do 2 (split; [done|]).
    destruct (only_header _ _ _ (b, n) O) as [Eh1 Eh2]; [cbn; lia|]. cbn [fst] in Eh1, Eh2. rewrite Eh1, Eh2. do 2 (split; [done|]). by apply Hkeep.
Qed.

Lemma split_at L b :
  ascending L → (∀ z, z ∈ L → z.1 ≠ b) → ∃ P P2, L = P ++ P2 ∧ Forall (λ z, z.1 < b) P ∧ Forall (λ z, b < z.1) P2.
Proof.
  induction L as [|z L IH]; cbn [ascending].
  - intros _ _. by exists [], [].
  - intros [Hz Ha] Hne. destruct (decide (b < z.1)) as [Hlt|Hge].
    + exists [], (z :: L). split_and!; [done|done|]. constructor; [done|]. eapply Forall_impl; [exact Hz|]. intros w [_ ?]. lia.
    + destruct IH as (P & P2 & -> & H1 & H2); [done|set_solver|]. exists (z :: P), P2. split_and!; [done| |done].
      constructor; [|done]. specialize (Hne z ltac:(set_solver)). lia.
Qed.

(** Free and allocated blocks do not overlap. *)
Lemma live_free T A h x z : heap_ok T A h → x ∈ A → z ∈ T → disj x z.
Proof.
  intros Hok Hx Hz. pose proof (ho_apart _ _ _ Hok) as Ha. apply apart_app in Ha as (_ & _ & Ha).
  rewrite Forall_forall in Ha. specialize (Ha x Hx). rewrite Forall_forall in Ha. apply Ha. set_solver.
Qed.
(** Where a live block belongs in the free list. *)
Lemma place T A h x : heap_ok T A h → x ∈ A → ∃ P1 y P2,
  free_list T = P1 ++ y :: P2 ∧ Forall (λ z, z.1 < x.1) (P1 ++ [y]) ∧ Forall (λ z, x.1 < z.1) P2 ∧
  y.1 + 16 * y.2 ≤ x.1 ∧ y.1 + 16 ≤ x.1 ∧ (P1 = [] ∧ y = (base, 0) ∨ ∃ P, P1 = (base, 0) :: P ∧ 1 ≤ y.2) ∧
  Forall (λ z, x.1 + 16 * x.2 ≤ z.1 ∧ 1 ≤ z.2) P2.
Proof.
  intros Hok Hx. pose proof Hok as [Hb Hk _ _ Hasc Hf Hl _ _ _]. rewrite Forall_forall in Hf, Hl.
  destruct (Hl x Hx) as (Hx0 & Hx1 & Hx2 & _).
  assert (∀ z, z ∈ T → disj x z ∧ block_ok h z) as HT by (intros z Hz; split; [by eapply live_free|by apply Hf]).
  assert (∀ z, z ∈ free_list T → z.1 ≠ x.1) as Hne.
  { intros z [->|Hz]%elem_of_cons; [cbn; lia|]. destruct (HT z Hz) as [Hd (? & ? & ? & ?)]. unfold disj in Hd. lia. }
  destruct (split_at (free_list T) x.1 Hasc Hne) as (P & P2 & E & Hlo & Hhi).
  destruct P as [|z P].
  { exfalso. destruct P2 as [|z P2]; [done|]. injection E as <- _. apply Forall_cons in Hhi as [Hhi _]. cbn in Hhi. lia. }
  injection E as <- ->.
  assert (Forall (λ z, x.1 + 16 * x.2 ≤ z.1 ∧ 1 ≤ z.2) P2) as HP2.
  { rewrite Forall_forall in Hhi |- *. intros z Hz. specialize (Hhi z Hz).
    destruct (HT z ltac:(set_solver)) as [Hd (? & ? & ? & ?)]. unfold disj in Hd. lia. }
  destruct P as [|y P _] using rev_ind.
  - exists [], (base, 0), P2. cbn. split_and!; try done; try lia. by left.
  - exists ((base, 0) :: P), y, P2. rewrite <- app_assoc. split; [done|]. split; [done|]. split; [done|].
    destruct (HT y ltac:(set_solver)) as [Hd (? & ? & ? & ?)]. apply Forall_cons in Hlo as [_ Hlo]. apply Forall_app in Hlo as [_ Hlo].
    apply Forall_cons in Hlo as [Hlo _]. unfold disj in Hd. split; [lia|]. split; [lia|]. split; [|done]. right. by exists P.
Qed.

Lemma units_join x L : units (join x L) = x.2 + units L.
Proof. unfold join, units. destruct L; cbn; [lia|]. case_decide; cbn; lia. Qed.
Lemma apart_join A x L :
  0 ≤ x.2 → Forall (λ z, 1 ≤ z.2) L → Forall (λ w, 1 ≤ w.2 ∨ w.1 < x.1 ∧ w.2 = 0) A → apart (A ++ x :: L) → apart (A ++ join x L).
Proof.
  intros Hx HL HA Ha. unfold join. destruct L as [|z L]; [done|]. case_decide; [|done].
  apply Forall_cons in HL as [Hz HL]. apply apart_merge; try done.
  apply Forall_app. split; [eapply Forall_impl; [exact HA|]; cbn; lia|eapply Forall_impl; [exact HL|]; cbn; lia].
Qed.

Lemma join_ok h x L : block_ok h x → Forall (block_ok h) L → Forall (block_ok h) (join x L).
Proof.
  intros Hx HL. unfold join. destruct L as [|z L]; [by constructor|]. case_decide; [|by constructor].
  apply Forall_cons in HL as [Hz HL]. constructor; [|done]. unfold block_ok in *. cbn. lia.
Qed.
Lemma join_has n x L : (∃ z, z ∈ x :: L ∧ n ≤ z.2) → Forall (λ z, 0 ≤ z.2) (x :: L) → ∃ z, z ∈ join x L ∧ n ≤ z.2.
Proof.
  intros (z & Hz & Hn) [Hx HL]%Forall_cons. unfold join. destruct L as [|w L]; [by exists z|]. case_decide; [|by exists z].
  apply Forall_cons in HL as [Hw _]. apply elem_of_cons in Hz as [->|[->|Hz]%elem_of_cons]; [eexists; split; [by left|cbn; lia]..|].
  exists z. split; [by right|done].
Qed.

(** The heap after [free] of [x]. *)
Lemma freed_ok T A1 x A2 h P1 y P2 m' :
  heap_ok T (A1 ++ x :: A2) h → free_list T = P1 ++ y :: P2 →
  y.1 + 16 * y.2 ≤ x.1 → y.1 + 16 ≤ x.1 → (P1 = [] ∧ y = (base, 0) ∨ ∃ P, P1 = (base, 0) :: P ∧ 1 ≤ y.2) →
  Forall (λ z, x.1 + 16 * x.2 ≤ z.1 ∧ 1 ≤ z.2) P2 →
  chain m' (P1 ++ join y (join x P2)) base → untouched (h_mem h) m' (A1 ++ A2) →
  ∃ T', heap_ok T' (A1 ++ A2) (mkHeap m' y.1 (h_brk h)) ∧ (∃ z, z ∈ T' ∧ x.2 ≤ z.2) ∧ (length T' ≤ S (length T))%nat.
Proof.
  intros Hok E Hyx Hyx1 Hy HP2 Hc Hu. pose proof Hok as [Hb Hk _ _ Hasc Hf Hl Hs Ha Hun].
  pose proof Hl as [Hl1 [Hx Hl2]%Forall_cons]%Forall_app. pose proof Hx as (Hx0 & Hx1 & Hx2 & Hx3).
  assert (0 ≤ y.2) as Hy2 by (destruct Hy as [[_ ->]|(P & _ & ?)]; [done|lia]).
  assert (Forall (block_ok h) P2 ∧ Forall (block_ok h) (tail P1)) as [Hf2 Hf1].
  { destruct Hy as [[-> ->]|(P & -> & _)]; injection E as ->; [done|]. apply Forall_app in Hf as [? [_ ?]%Forall_cons]. done. }
  destruct (join_shape P2 x Hx1 HP2) as (n & L & Ej & Hn & HL).
  assert (∃ T', free_list T' = P1 ++ join y (join x P2) ∧ Forall (block_ok h) T' ∧ ∃ z, z ∈ T' ∧ x.2 ≤ z.2) as (T' & ET & HT & Hbig).
  { pose proof (join_ok h x P2 Hx Hf2) as Hj. destruct Hy as [[-> ->]|(P & -> & Hy1)].
    - exists (join x P2). split; [|split; [done|]]; rewrite Ej; [unfold join; cbn in *; by rewrite decide_False by lia|].
      exists (x.1, n). split; [by left|done].
    - exists (P ++ join y (join x P2)). split; [done|].
      assert (block_ok h y) as Hyo by (injection E as ->; by apply Forall_app in Hf as [_ [? _]%Forall_cons]).
      split; [apply Forall_app; split; [done|by apply join_ok]|].
      destruct (join_has x.2 y (join x P2)) as (z & Hz & Hzn).
      + exists (x.1, n). rewrite Ej. split; [right; by left|done].
      + constructor; [lia|]. eapply Forall_impl; [exact Hj|]. intros w (? & ? & ? & ?). lia.
      + exists z. split; [apply elem_of_app; by right|done]. }
  assert (length T' ≤ S (length T))%nat as Hlen.
  { pose proof (join_len y (join x P2)). pose proof (join_len x P2). apply (f_equal length) in ET, E. rewrite !length_app in *. cbn [length] in *. lia. }
  exists T'. split; [split; try done|done].
  - rewrite ET. cbn [h_freep]. unfold join at 1. rewrite fmap_app. apply elem_of_app. right. rewrite Ej. case_decide; by left.
  - by rewrite ET.
  - rewrite ET. rewrite E in Hasc. by apply join_asc.
  - by apply Forall_app.
  - apply Forall_app in Hs as [Hs1 [_ Hs2]%Forall_cons].
    assert (Forall (λ z, ld32 (h_mem h) (z.1 + 8) = z.2) (A1 ++ A2)) as Hs' by (by apply Forall_app).
    rewrite Forall_forall in *. intros z Hz. cbn [h_mem]. rewrite (untouched_size _ _ _ z Hu Hz); [by apply Hs'|].
    apply elem_of_app in Hz as [Hz|Hz]; [destruct (Hl1 z Hz) as (? & ? & _)|destruct (Hl2 z Hz) as (? & ? & _)]; lia.
  - rewrite ET, app_assoc. rewrite E in Ha. set (B := (A1 ++ A2) ++ P1).
    apply (apart_perm _ ((B ++ [y]) ++ x :: P2)) in Ha; [|unfold B; solve_Permutation].
    assert (Forall (λ w, 1 ≤ w.2 ∨ w.1 < y.1 ∧ w.2 = 0) B) as HB.
    { unfold B. rewrite !Forall_app. split; [split; [eapply Forall_impl; [exact Hl1|]|eapply Forall_impl; [exact Hl2|]]; intros w (? & ? & _); by left|].
      destruct Hy as [[-> _]|(P & -> & _)]; [done|]. constructor.
      - right. split; [|done]. rewrite E in Hasc. cbn [app ascending] in Hasc. destruct Hasc as [Hasc _].
        rewrite Forall_forall in Hasc. destruct (Hasc y) as [_ ?]; [set_solver|]. cbn in *. lia.
      - eapply Forall_impl; [exact Hf1|]. intros w (? & ? & _). by left. }
    assert (Forall (λ z, 1 ≤ z.2) (join x P2)) as Hj1.
    { eapply Forall_impl; [by apply (join_ok h)|]. intros w (? & ? & _). lia. }
    apply apart_join; [done|done|done|]. apply (apart_perm ((B ++ [y]) ++ join x P2)); [solve_Permutation|].
    apply apart_join; [lia|eapply Forall_impl; [exact Hf2|]; intros w (? & ? & _); lia| |done].
    apply Forall_app. split; [eapply Forall_impl; [exact HB|]; cbn; lia|]. constructor; [|done].
    destruct Hy as [[_ ->]|(P & _ & ?)]; [right; cbn in *; lia|by left].
  - cbn [h_brk]. rewrite <- Hun, !units_app. apply (f_equal units) in ET, E. rewrite units_app, !units_join in ET. rewrite units_app in E.
    unfold units in *. cbn [foldr fst snd] in *. lia.
Qed.

Lemma len_units A : Forall (λ x, 1 ≤ x.2) A → Z.of_nat (length A) ≤ units A.
Proof. induction 1 as [|x A Hx _ IH]; unfold units in *; cbn [length foldr] in *; lia. Qed.
Lemma rounds_enough T A h : heap_ok T A h → (2 * S (length T) + 4 ≤ rounds h)%nat.
Proof.
  intros [Hb Hk _ _ _ Hf Hl _ _ Hun].
  assert (Z.of_nat (length T) ≤ units T) by (apply len_units; eapply Forall_impl; [exact Hf|]; intros w (? & ? & _); lia).
  assert (Z.of_nat (length A) ≤ units A) by (apply len_units; eapply Forall_impl; [exact Hl|]; intros w (? & ? & _); lia).
  unfold rounds. dlia.
Qed.
Lemma freep_at T A h : heap_ok T A h → ∃ K1 w K2, free_list T = K1 ++ w :: K2 ∧ h_freep h = w.1.
Proof.
  intros Hok. pose proof (ho_freep _ _ _ Hok) as Hp. apply list_elem_of_fmap in Hp as (w & E & Hw).
  apply list_elem_of_split in Hw as (K1 & K2 & EK). by exists K1, w, K2.
Qed.

Lemma in_mid (A1 A2 : list block) x z : z ∈ A1 ++ A2 → z ∈ A1 ++ x :: A2.
Proof. set_solver. Qed.
Lemma free_run T A1 x A2 h :
  heap_ok T (A1 ++ x :: A2) h →
  ∃ T' h', free (x.1 + 16) h = Ret tt h' ∧ heap_ok T' (A1 ++ A2) h' ∧
    untouched (h_mem h) (h_mem h') (A1 ++ A2) ∧ h_brk h' = h_brk h ∧
    (∃ z, z ∈ T' ∧ x.2 ≤ z.2) ∧ (length T' ≤ S (length T))%nat.
Proof.
  intros Hok. assert (x ∈ A1 ++ x :: A2) as Hx by set_solver.
  destruct (place _ _ _ x Hok Hx) as (P1 & y & P2 & E & Hlo & Hhi & Hyx & Hyx1 & Hy & HP2).
  destruct (freep_at _ _ _ Hok) as (K1 & w & K2 & EK & Ew). pose proof (rounds_enough _ _ _ Hok) as Hr.
  pose proof Hok as [Hb Hk _ Hc Hasc Hf Hl Hs Ha _]. pose proof (live_reach _ _ _ _ Hok Hx) as Hrx.
  pose proof Hl as [_ [(Hx0 & Hx1 & Hx2 & _) _]%Forall_cons]%Forall_app. pose proof Hs as [_ [Hxs _]%Forall_cons]%Forall_app.
  assert (y ∈ free_list T) as Hyin by (rewrite E; set_solver). pose proof (free_reach _ _ _ _ Hok Hyin) as Hry.
  rewrite E in Hc, Hasc. pose proof Hc as [Hc1 (Ey1 & Ey2 & Hc2)]%chain_app.
  unfold free. assert (unit_add (x.1 + 16) (-1) = x.1) as -> by (unfold unit_add; rewrite u64_small; lia). cbv zeta.
  rewrite bind_gets, bind_gets, Ew.
  rewrite (bind_run _ _ _ _ _ (free_scan_run (rounds h) T (A1 ++ x :: A2) h x.1 K1 w K2 P1 y P2 Hok EK E Hlo Hhi
    ltac:(apply (f_equal length) in EK, E; rewrite length_app in EK, E; cbn [length] in EK, E; unfold dist; case_decide; lia))).
  rewrite (bind_run _ _ _ _ _ (size_run h x.1 Hrx)), (bind_run _ _ _ _ _ (ptr_run h y.1 Hry)), Hxs, Ey2.
  assert (0 ≤ y.2) as Hy2 by (destruct Hy as [[_ ->]|(P & _ & ?)]; [done|lia]).
  assert (Forall (block_ok h) P2) as Hf2.
  { destruct Hy as [[-> ->]|(P & -> & _)]; injection E as ->; [done|]. by apply Forall_app in Hf as [_ [_ ?]%Forall_cons]. }
  assert (Forall (λ z, z.1 + 16 * z.2 ≤ h_brk h) P2) as HP2k.
  { eapply Forall_impl; [exact Hf2|]. intros z (? & ? & ? & _). done. }
  destruct (right_run P1 P2 y x Hasc Hx1 HP2 h _ eq_refl Hc2 Hxs ltac:(lia) ltac:(lia) ltac:(lia) HP2k ltac:(lia)) as (m1 & R1 & C1 & O1).
  rewrite (bind_run _ _ _ _ _ R1). set (h1 := set_h_mem m1 h). destruct (join_shape P2 x Hx1 HP2) as (n & L & Ej & Hn & HL).
  assert (same_header (h_mem h) m1 y) as [Hys _] by (eapply only_header; [exact O1|lia]).
  rewrite (bind_run _ _ _ _ _ (size_run h1 y.1 Hry)). change (h_mem h1) with m1. rewrite Hys, Ey1. rewrite Ej in C1.
  assert (x.1 + 16 * n ≤ h_brk h) as Hnk.
  { assert (Forall (block_ok h) (join x P2)) as Hj by (apply join_ok; [|done]; by apply Forall_app in Hl as [_ [? _]%Forall_cons]).
    rewrite Ej in Hj. by apply Forall_cons in Hj as [(_ & _ & ? & _) _]. }
  destruct (left_run h1 m1 y x.1 n L eq_refl C1 ltac:(congruence) ltac:(unfold reach in Hry; lia) Hy2 ltac:(lia) Hyx Hyx1 ltac:(cbn; lia)) as (m2 & R2 & C2 & O2).
  { rewrite Forall_forall in HP2 |- *. intros z Hz. destruct (HP2 z (HL z Hz)). lia. }
  rewrite (bind_run _ _ _ _ _ R2). cbn [modify].
  assert (untouched (h_mem h) m2 (A1 ++ A2)) as Hu.
  { apply (untouched_trans _ m1); eapply untouched_only; try done; apply Forall_forall; intros z Hz.
    - apply (apart_perm _ (x :: A1 ++ A2 ++ free_list T)) in Ha; [|solve_Permutation]. destruct Ha as [Ha _].
      rewrite Forall_forall in Ha. specialize (Ha z ltac:(clear -Hz; set_solver)). unfold disj in *. cbn. lia.
    - rewrite Forall_forall in Hl. destruct (Hl z (in_mid _ _ _ _ Hz)) as (Hz0 & Hz1 & _).
      destruct Hy as [[_ ->]|(P & -> & Hy1)]; [unfold disj; cbn; lia|].
      assert (disj z y) as Hd by (eapply live_free; [exact Hok|by apply in_mid|injection E as ->; clear; set_solver]). unfold disj in *. cbn. lia. }
  assert (chain m2 (P1 ++ join y (join x P2)) base) as C3.
  { apply chain_app. rewrite Ej, first_join. split; [|done].
    assert (Forall (λ z, z.1 + 16 ≤ y.1) P1) as HP1.
    { apply ascending_app in Hasc as (_ & _ & Hp). eapply Forall_impl; [exact Hp|]. intros z [[_ ?] _]%Forall_cons. done. }
    apply (chain_ext m1); [|apply (chain_ext (h_mem h)); [|exact Hc1]]; eapply only_headers; try done;
      (eapply Forall_impl; [exact HP1|]; cbn; lia). }
  destruct (freed_ok T A1 x A2 h P1 y P2 m2 Hok E Hyx Hyx1 Hy HP2 C3 Hu) as (T' & Hok' & Hbig & Hlen).
  exists T', (mkHeap m2 y.1 (h_brk h)). split_and!; done.
Qed.

(** ** [malloc] *)

(** What is left of a free block after [n] units have been taken from its end, and where
    the taken block starts. *)
Definition rest y (n : Z) : list block := if decide (y.2 = n) then [] else [(y.1, y.2 - n)].
Definition taken y (n : Z) : Z := y.1 + 16 * (y.2 - n).

Lemma rest_asc K1 x y K2 n :
  ascending (K1 ++ x :: y :: K2) → 1 ≤ n ≤ y.2 → ascending (K1 ++ x :: rest y n ++ K2).
Proof.
  intros Ha Hn. apply ascending_app in Ha as (H1 & ([Hxy Hx]%Forall_cons & Hy & H2) & H3). rewrite Forall_forall in Hy, H3.
  unfold rest. apply ascending_app. case_decide; cbn [app ascending]; (split; [done|split]).
  - done.
  - apply Forall_forall. intros z Hz. destruct (proj1 (Forall_cons _ _ _) (H3 z Hz)) as [? [_ ?]%Forall_cons]. by constructor.
  - split; [by constructor|]. split; [|done]. apply Forall_forall. intros z Hz. destruct (Hy z Hz). unfold before. cbn. lia.
  - apply Forall_forall. intros z Hz. destruct (proj1 (Forall_cons _ _ _) (H3 z Hz)) as [? [? ?]%Forall_cons]. do 2 (constructor; [done|]); done.
Qed.
Lemma rest_apart y n R :
  1 ≤ n ≤ y.2 → Forall (disj y) R → apart R → apart ((taken y n, n) :: rest y n ++ R).
Proof.
  intros Hn Hy HR. rewrite Forall_forall in Hy. unfold rest, taken. case_decide as E; cbn [app apart].
  - split; [|done]. apply Forall_forall. intros z Hz. specialize (Hy z Hz). unfold disj in *. cbn. lia.
  - split; [constructor; [unfold disj; cbn; lia|]|split; [|done]]; apply Forall_forall; intros z Hz; specialize (Hy z Hz); unfold disj in *; cbn; lia.
Qed.
Lemma rest_units y n : units (rest y n) = y.2 - n.
Proof. unfold rest, units. case_decide; cbn; lia. Qed.
Lemma rest_ok h y n : block_ok h y → 1 ≤ n ≤ y.2 → Forall (block_ok h) (rest y n) ∧ block_ok h (taken y n, n).
Proof.
  intros (H1 & H2 & H3 & H4) Hn. unfold rest, taken. split.
  - case_decide; [done|]. constructor; [|done]. unfold block_ok. cbn. lia.
  - unfold block_ok. cbn. split_and!; try lia. rewrite Z.add_mod, Z.mul_comm, Z.mod_mul, H4 by lia. done.
Qed.

(** The heap after [n] units of [y] have been taken. *)
Lemma taken_ok T A h K1 x y K2 n m' :
  heap_ok T A h → free_list T = K1 ++ x :: y :: K2 → 1 ≤ n ≤ y.2 →
  chain m' (K1 ++ x :: rest y n ++ K2) base → untouched (h_mem h) m' A → ld32 m' (taken y n + 8) = n →
  ∃ T', heap_ok T' ((taken y n, n) :: A) (mkHeap m' x.1 (h_brk h)).
Proof.
  intros Hok E Hn Hc Hu Hs'. pose proof Hok as [Hb Hk _ _ Hasc Hf Hl Hs Ha Hun].
  assert (∃ K, (K1 ++ [x] = (base, 0) :: K) ∧ T = K ++ y :: K2) as (K & EK & ET).
  { replace (K1 ++ x :: y :: K2) with ((K1 ++ [x]) ++ y :: K2) in E by (by rewrite <- app_assoc).
    destruct (K1 ++ [x]) as [|z K] eqn:Ez; [by destruct K1|]. injection E as <- ->. by exists K. }
  assert (∀ R, K1 ++ x :: R = (base, 0) :: K ++ R) as EL by (intros R; replace (K1 ++ x :: R) with ((K1 ++ [x]) ++ R) by (by rewrite <- app_assoc); by rewrite EK).
  subst T. apply Forall_app in Hf as [Hf1 [Hy Hf2]%Forall_cons]. destruct (rest_ok h y n Hy Hn) as [Hr Ht].
  exists (K ++ rest y n ++ K2). rewrite EL in Hc. split; try done.
  - cbn [h_freep]. rewrite app_comm_cons, <- EK. rewrite !fmap_app. set_solver.
  - rewrite E in Hasc. rewrite <- EL. by apply rest_asc.
  - rewrite !Forall_app. done.
  - by constructor.
  - constructor; [done|]. rewrite Forall_forall in *. intros z Hz. cbn [h_mem]. rewrite (untouched_size _ _ _ z Hu Hz); [by apply Hs|].
    destruct (Hl z Hz) as (? & ? & _). lia.
  - apply (apart_perm _ (y :: A ++ (base, 0) :: K ++ K2)) in Ha; [|solve_Permutation]. destruct Ha as [Hyd Ha].
    apply (apart_perm ((taken y n, n) :: rest y n ++ (A ++ (base, 0) :: K ++ K2))); [solve_Permutation|]. by apply rest_apart.
  - cbn [h_brk]. rewrite <- Hun, !units_app, rest_units. change (units ((taken y n, n) :: A)) with (n + units A).
    change (units (y :: K2)) with (y.2 + units K2). lia.
Qed.

(** Writing inside a free block, or into [base], does not touch allocated blocks. *)
Lemma inside_untouched T A h z p m m' :
  heap_ok T A h → z ∈ T → z.1 ≤ p → p + 16 ≤ z.1 + 16 * z.2 → only m m' p → untouched m m' A.
Proof.
  intros Hok Hz H1 H2 Ho. eapply untouched_only; [exact Ho|]. apply Forall_forall. intros w Hw.
  pose proof (live_free _ _ _ w z Hok Hw Hz) as Hd. unfold disj in *. cbn. lia.
Qed.
Lemma header_untouched T A h x m m' : heap_ok T A h → x ∈ free_list T → only m m' x.1 → untouched m m' A.
Proof.
  intros Hok Hx Ho. pose proof (ho_free _ _ _ Hok) as Hf. pose proof (ho_live _ _ _ Hok) as Hl. rewrite Forall_forall in Hf, Hl.
  apply elem_of_cons in Hx as [->|Hx].
  - eapply untouched_only; [exact Ho|]. apply Forall_forall. intros w Hw. destruct (Hl w Hw) as (? & _).
    pose proof (ho_base _ _ _ Hok). unfold disj. cbn. lia.
  - destruct (Hf x Hx) as (? & ? & _). apply (inside_untouched T A h x x.1); [done|done|lia|lia|done].
Qed.

Lemma take_run T A h K1 x y K2 n :
  heap_ok T A h → free_list T = K1 ++ x :: y :: K2 → 1 ≤ n ≤ y.2 →
  ∃ T' h', (p ← (if y.2 =? n then
                   q ← ptr y.1;
                   set_ptr x.1 q ;; ret y.1
                 else
                   set_size y.1 (u32 (y.2 - n)) ;;
                   sz ← size y.1;
                   let p := unit_add y.1 sz in
                   set_size p n ;; ret p);
            modify (set_h_freep x.1) ;;
            ret (unit_add p 1)) h = Ret (taken y n + 16) h' ∧
    heap_ok T' ((taken y n, n) :: A) h' ∧ untouched (h_mem h) (h_mem h') A ∧ h_brk h' = h_brk h.
Proof.
  intros Hok E Hn. pose proof Hok as [Hb Hk _ Hc Hasc Hf _ _ _ _]. rewrite E in Hc, Hasc.
  assert (x ∈ free_list T ∧ y ∈ free_list T) as [Hx Hy] by (rewrite E; clear; set_solver).
  pose proof (free_reach _ _ _ _ Hok Hx) as Hrx. pose proof (free_reach _ _ _ _ Hok Hy) as Hry.
  assert (y ∈ T) as HyT by (apply elem_of_cons in Hy as [->|?]; [cbn in Hn; lia|done]). rewrite Forall_forall in Hf.
  destruct (Hf y HyT) as (Hy0 & Hy1 & Hy2 & _).
  apply chain_app in Hc as (Hc1 & Ex1 & Ex2 & Ey1 & Ey2 & Hc2). cbn [first] in Hc1.
  apply ascending_app in Hasc as (_ & ([[_ Hxy] Hx2]%Forall_cons & Hy3 & _) & HK1).
  assert (Forall (λ z, z.1 + 16 ≤ x.1 ∧ z.1 + 16 ≤ y.1) K1) as HK1'.
  { eapply Forall_impl; [exact HK1|]. intros z [[_ ?] [[_ ?] _]%Forall_cons]%Forall_cons. done. }
  assert (Forall (λ z, x.1 + 16 ≤ z.1 ∧ y.1 + 16 * y.2 ≤ z.1) K2) as HK2.
  { rewrite Forall_forall in Hx2, Hy3 |- *. intros z Hz. destruct (Hx2 z Hz), (Hy3 z Hz). lia. }
  assert (∀ p m m', only m m' p → x.1 ≤ p → p + 16 ≤ x.1 + 16 ∨ y.1 ≤ p ∧ p + 16 ≤ y.1 + 16 * y.2 →
    chain m K1 x.1 → chain m K2 base → chain m' K1 x.1 ∧ chain m' K2 base) as Hkeep.
  { intros p m m' Ho Hp1 Hp2 C1 C2. split; (eapply chain_ext; [|eassumption]); (eapply only_headers; [exact Ho|]);
      [eapply Forall_impl; [exact HK1'|]|eapply Forall_impl; [exact HK2|]]; cbn; lia. }
  assert (∃ m', (if y.2 =? n then
                   q ← ptr y.1;
                   set_ptr x.1 q ;; ret y.1
                 else
                   set_size y.1 (u32 (y.2 - n)) ;;
                   sz ← size y.1;
                   let p := unit_add y.1 sz in
                   set_size p n ;; ret p) h = Ret (taken y n) (set_h_mem m' h) ∧
    chain m' (K1 ++ x :: rest y n ++ K2) base ∧ untouched (h_mem h) m' A ∧ ld32 m' (taken y n + 8) = n) as (m' & R & C & U & S).
  { unfold rest, taken. destruct (Z.eqb_spec y.2 n) as [En|En].
    - rewrite (bind_run _ _ _ _ _ (ptr_run h y.1 Hry)), Ey2. rewrite (bind_run _ _ _ _ _ (set_ptr_run h x.1 _ Hrx)).
      assert (only (h_mem h) (st64 (h_mem h) x.1 (first K2 base)) x.1) as O by apply only_st64.
      exists (st64 (h_mem h) x.1 (first K2 base)). rewrite decide_True by done. replace (y.1 + 16 * (y.2 - n)) with y.1 by lia. split; [done|].
      destruct (Hkeep x.1 _ _ O ltac:(lia) ltac:(lia) Hc1 Hc2) as [C1 C2]. cbn [app]. split; [|split].
      + apply chain_app. split; [done|]. cbn [chain]. rewrite ld32_st64 by lia. split; [done|]. split; [|done].
        rewrite ld64_st64_same; [done|]. rewrite <- Ey2. apply ld64_range.
      + exact (header_untouched T A h x _ _ Hok Hx O).
      + rewrite ld32_st64 by lia. lia.
    - rewrite u32_small by lia. rewrite (bind_run _ _ _ _ _ (set_size_run h y.1 _ Hry)).
      set (m1 := st32 (h_mem h) (y.1 + 8) (y.2 - n)). set (h1 := set_h_mem m1 h).
      rewrite (bind_run _ _ _ _ _ (size_run h1 y.1 Hry)). change (h_mem h1) with m1.
      assert (ld32 m1 (y.1 + 8) = y.2 - n) as Es by (unfold m1; rewrite ld32_st32 by lia; done). rewrite Es. cbv zeta. unfold unit_add. rewrite u64_small by lia.
      set (q := y.1 + 16 * (y.2 - n)). assert (reach h1 q) as Hrq by (unfold reach, q; cbn; lia).
      rewrite (bind_run _ _ _ _ _ (set_size_run h1 q _ Hrq)). change (h_mem h1) with m1.
      assert (only (h_mem h) m1 y.1) as O1 by apply only_st32. assert (only m1 (st32 m1 (q + 8) n) q) as O2 by apply only_st32.
      exists (st32 m1 (q + 8) n). rewrite decide_False by done. split; [done|].
      destruct (Hkeep y.1 _ _ O1 ltac:(lia) ltac:(lia) Hc1 Hc2) as [C1 C2]. destruct (Hkeep q _ _ O2 ltac:(unfold q; lia) ltac:(unfold q; lia) C1 C2) as [C1' C2'].
      assert (same_header (h_mem h) (st32 m1 (q + 8) n) x) as [X1 X2].
      { destruct (only_header _ _ _ x O1 ltac:(lia)) as [? ?], (only_header _ _ _ x O2 ltac:(unfold q; lia)) as [? ?]. split; congruence. }
      split; [|split].
      + apply chain_app. split; [done|]. cbn [app chain first fst snd]. rewrite X1, X2. do 2 (split; [done|]).
        destruct (only_header _ _ _ y O2 ltac:(unfold q; lia)) as [-> ->]. split; [done|]. split; [|done].
        unfold m1. rewrite ld64_st32 by lia. done.
      + apply (untouched_trans _ m1); [exact (header_untouched T A h y _ _ Hok Hy O1)|]. apply (inside_untouched T A h y q); [done|done|unfold q; lia|unfold q; lia|done].
      + rewrite ld32_st32 by lia. done. }
  rewrite (bind_run _ _ _ _ _ R), bind_modify. destruct (taken_ok T A h K1 x y K2 n m' Hok E Hn C U S) as [T' Hok'].
  exists T', (mkHeap m' x.1 (h_brk h)). split_and!; [|done|done|done]. unfold unit_add, taken. rewrite u64_small by lia. done.
Qed.

(** ** [morecore] *)

Section grow.
(** The kernel does not let a process grow beyond 64 GiB: there are 128 MiB of memory. *)
Hypothesis Hlimit : ∀ h n, can_grow h n = true → h_brk h + n ≤ 2 ^ 36.

(** Memory from the kernel is an allocated block, which [morecore] frees. *)
Lemma grown_ok T A h nu :
  heap_ok T A h → 1 ≤ nu → h_brk h + 16 * nu ≤ 2 ^ 36 →
  heap_ok T ((h_brk h, nu) :: A) (mkHeap (st32 (h_mem h) (h_brk h + 8) nu) (h_freep h) (h_brk h + 16 * nu)).
Proof.
  intros Hok Hnu Hmax. pose proof Hok as [Hb Hk Hp Hc Hasc Hf Hl Hs Ha Hun].
  assert (only (h_mem h) (st32 (h_mem h) (h_brk h + 8) nu) (h_brk h)) as Ho by apply only_st32.
  assert (∀ z, block_ok h z → block_ok (mkHeap (st32 (h_mem h) (h_brk h + 8) nu) (h_freep h) (h_brk h + 16 * nu)) z) as Hbk.
  { intros z (? & ? & ? & ?). unfold block_ok. cbn. lia. }
  assert (Forall (λ z, z.1 + 16 ≤ h_brk h) (free_list T)) as Hlow.
  { apply Forall_forall. intros z Hz. by destruct (free_reach _ _ _ _ Hok Hz). }
  split; cbn [h_mem h_freep h_brk]; try done.
  - split; [lia|]. replace (16 * nu) with (nu * 16) by lia. rewrite Z.mod_add by lia. apply Hk.
  - eapply chain_ext; [|exact Hc]. eapply only_headers; [exact Ho|]. eapply Forall_impl; [exact Hlow|]. cbn. lia.
  - eapply Forall_impl; [exact Hf|exact Hbk].
  - constructor; [|eapply Forall_impl; [exact Hl|exact Hbk]]. unfold block_ok. cbn. lia.
  - constructor; [cbn; rewrite ld32_st32 by lia; done|]. rewrite Forall_forall in *. intros z Hz. rewrite <- (Hs z Hz). apply ldn_ext.
    intros a Ha'. apply Ho. destruct (Hl z Hz) as (? & ? & ? & _). lia.
  - cbn [app apart]. split; [|done]. apply Forall_app. split; apply Forall_forall; intros z Hz; unfold disj; cbn.
    + rewrite Forall_forall in Hl. destruct (Hl z Hz) as (? & ? & ? & _). lia.
    + apply elem_of_cons in Hz as [->|Hz]; [cbn; lia|]. rewrite Forall_forall in Hf. destruct (Hf z Hz) as (? & ? & ? & _). lia.
  - change (units ((h_brk h, nu) :: A)) with (nu + units A). lia.
Qed.

Lemma morecore_run T A h nu :
  heap_ok T A h → 1 ≤ nu → 16 * nu < 2 ^ 31 →
  morecore nu h = Ret 0 h ∨
  ∃ T' h', morecore nu h = Ret (h_freep h') h' ∧ heap_ok T' A h' ∧ untouched (h_mem h) (h_mem h') A ∧
    (∃ z, z ∈ T' ∧ nu ≤ z.2) ∧ (length T' ≤ S (length T))%nat.
Proof.
  intros Hok Hnu Hmax. unfold morecore. cbv zeta. set (n := if nu <? 4096 then 4096 else nu).
  assert (nu ≤ n ∧ 16 * n < 2 ^ 31) as [Hn1 Hn2] by (unfold n; destruct (Z.ltb_spec nu 4096); lia).
  rewrite u64_small, i32_small by lia. unfold sbrk. rewrite Z.mul_comm.
  destruct (can_grow h (16 * n)) eqn:Eg; [right|left].
  2:{ rewrite (bind_run _ _ h SBRK_ERROR h); [done|]. rewrite bind_gets. unfold id. by rewrite Eg. }
  pose proof (Hlimit _ _ Eg) as Hlim. pose proof (ho_brk _ _ _ Hok) as [Hk _]. pose proof (ho_base _ _ _ Hok) as Hb.
  rewrite (bind_run _ _ h (h_brk h) (set_h_brk (h_brk h + 16 * n) h)); [|rewrite bind_gets; unfold id; by rewrite Eg].
  rewrite (proj2 (Z.eqb_neq _ _)) by (change SBRK_ERROR with (2 ^ 64 - 1); lia).
  set (h1 := set_h_brk (h_brk h + 16 * n) h). assert (reach h1 (h_brk h)) as Hr by (unfold reach, h1; cbn; lia).
  rewrite (bind_run _ _ _ _ _ (set_size_run h1 (h_brk h) n Hr)).
  pose proof (grown_ok T A h n Hok ltac:(lia) ltac:(lia)) as Hg.
  destruct (free_run T [] (h_brk h, n) A _ Hg) as (T' & h' & R & Hok' & Hu & _ & (z & Hz & Hzn) & Hlen). cbn [app fst snd] in *.
  assert (unit_add (h_brk h) 1 = h_brk h + 16) as Eu by (unfold unit_add; rewrite u64_small by lia; lia).
  rewrite Eu. unfold h1, set_h_mem, set_h_brk. cbn [h_mem h_freep h_brk]. rewrite (bind_run _ _ _ _ _ R).
  exists T', h'. split_and!; [done|done| |exists z; split; [done|lia]|done].
  apply (untouched_trans _ (st32 (h_mem h) (h_brk h + 8) n)); [|done]. eapply untouched_only; [apply only_st32|].
  pose proof (ho_live _ _ _ Hok) as Hl. eapply Forall_impl; [exact Hl|]. intros w (? & ? & ? & _). unfold disj. cbn. lia.
Qed.

(** ** The search *)

(** The index of the block after position [K1], [K2] of the circular list. *)
Definition next_at (K1 K2 : list block) : nat := match K2 with [] => 0 | _ => S (length K1) end.

Lemma same_addr T A h i j z w :
  heap_ok T A h → free_list T !! i = Some z → free_list T !! j = Some w → z.1 = w.1 → i = j.
Proof.
  intros Hok Hi Hj E. pose proof (ho_asc _ _ _ Hok) as Ha. revert i j Hi Hj. generalize dependent (free_list T). clear Hok T.
  intros L. induction L as [|u L IH]; [done|]. intros [Hu Ha]. rewrite Forall_lookup in Hu.
  intros [|i] [|j] Hi Hj; cbn in Hi, Hj; try done.
  - injection Hi as ->. destruct (Hu j w Hj) as [_ ?]. lia.
  - injection Hj as ->. destruct (Hu i z Hi) as [_ ?]. lia.
  - f_equal. by apply IH.
Qed.
Lemma next_lookup T K1 x K2 : free_list T = K1 ++ x :: K2 →
  ∃ z, free_list T !! next_at K1 K2 = Some z ∧ first K2 base = z.1 ∧ (next_at K1 K2 < S (length T))%nat.
Proof.
  intros E. pose proof (f_equal length E) as El. rewrite length_app in El. cbn [length] in El. destruct K2 as [|z K2]; cbn [next_at first] in *.
  - exists (base, 0). split_and!; [done|done|lia].
  - exists z. rewrite E, lookup_app_r by lia. replace (S (length K1) - length K1)%nat with 1%nat by lia. cbn [length] in *. split_and!; [done|done|lia].
Qed.
(** The position of the block the search goes on with. *)
Lemma next_step T K1 x K2 : free_list T = K1 ++ x :: K2 →
  ∃ K1' z K2', free_list T = K1' ++ z :: K2' ∧ z.1 = first K2 base ∧ length K1' = next_at K1 K2 ∧
    next_at K1' K2' = if decide (S (next_at K1 K2) = S (length T)) then 0%nat else S (next_at K1 K2).
Proof.
  intros E. pose proof (f_equal length E) as El. rewrite length_app in El. cbn [length] in El. destruct K2 as [|z K2]; cbn [next_at first].
  - exists [], (base, 0), T. split_and!; [done|done|done|]. destruct T; [by rewrite decide_True|]. cbn [next_at length]. rewrite decide_False by lia. done.
  - exists (K1 ++ [x]), z, K2. rewrite <- app_assoc, length_app. cbn [length] in *. split_and!; [done|done|lia|].
    destruct K2; cbn [next_at length] in *; [by rewrite decide_True by lia|]. rewrite decide_False, length_app by lia. cbn [length]. lia.
Qed.
Lemma dist_next len j e : (j < len)%nat → (e < len)%nat → j ≠ e →
  dist len j e = S (dist len (if decide (S j = len) then 0 else S j) e).
Proof. intros. unfold dist. repeat case_decide; lia. Qed.

Lemma free_size T A h y : heap_ok T A h → y ∈ free_list T → ld32 (h_mem h) (y.1 + 8) = y.2.
Proof.
  intros Hok Hy. pose proof (ho_chain _ _ _ Hok) as Hc. apply list_elem_of_split in Hy as (L1 & L2 & EL). rewrite EL in Hc.
  by apply chain_at in Hc as [? _].
Qed.
(** The block after a position is large enough. *)
Lemma fit_run T A h K1 x K2 y n :
  heap_ok T A h → free_list T = K1 ++ x :: K2 → free_list T !! next_at K1 K2 = Some y → 1 ≤ n ≤ y.2 →
  ∃ T' h', (p ← (if y.2 =? n then
                   q ← ptr y.1;
                   set_ptr x.1 q ;; ret y.1
                 else
                   set_size y.1 (u32 (y.2 - n)) ;;
                   sz ← size y.1;
                   let p := unit_add y.1 sz in
                   set_size p n ;; ret p);
            modify (set_h_freep x.1) ;;
            ret (unit_add p 1)) h = Ret (taken y n + 16) h' ∧
    heap_ok T' ((taken y n, n) :: A) h' ∧ untouched (h_mem h) (h_mem h') A.
Proof.
  intros Hok E Hy Hn. destruct K2 as [|y' K2].
  { exfalso. assert (y = (base, 0)) as -> by (cbn in Hy; congruence). cbn in Hn. lia. }
  assert (y' = y) as ->.
  { rewrite E, lookup_app_r in Hy by (cbn; lia). cbn [next_at] in Hy. replace (S (length K1) - length K1)%nat with 1%nat in Hy by lia. by injection Hy. }
  destruct (take_run T A h K1 x y K2 n Hok E Hn) as (T' & h' & R & Hok' & Hu & _). by exists T', h'.
Qed.

(** From a position the search comes to a block that is large enough before it is back
    at [freep]. *)
Lemma find_run fuel T A h n K1 x K2 f e z :
  heap_ok T A h → free_list T = K1 ++ x :: K2 → 1 ≤ n →
  (∃ w, free_list T !! f = Some w ∧ h_freep h = w.1) → free_list T !! e = Some z → n ≤ z.2 →
  (dist (S (length T)) (next_at K1 K2) e ≤ dist (S (length T)) (next_at K1 K2) f)%nat →
  (dist (S (length T)) (next_at K1 K2) e < fuel)%nat →
  ∃ T' b h', malloc_loop fuel n x.1 (first K2 base) h = Ret (b + 16) h' ∧
    heap_ok T' ((b, n) :: A) h' ∧ untouched (h_mem h) (h_mem h') A.
Proof.
  intros Hok E Hn (w & Hf & Ef) He Hz. pose proof (lookup_lt_Some _ _ _ Hf) as Hfl. pose proof (lookup_lt_Some _ _ _ He) as Hel. cbn [length] in Hfl, Hel.
  revert K1 x K2 E. induction fuel as [|fuel IH]; intros K1 x K2 E Hd Hfu; [lia|]. cbn [malloc_loop].
  destruct (next_lookup _ _ _ _ E) as (y & Hy & Ey & Hyl). rewrite Ey.
  assert (y ∈ free_list T) as Hyin by (by eapply list_elem_of_lookup_2). pose proof (free_reach _ _ _ _ Hok Hyin) as Hry.
  pose proof (free_size _ _ _ _ Hok Hyin) as Es.
  rewrite (bind_run _ _ _ _ _ (size_run h y.1 Hry)), Es. destruct (Z.leb_spec n y.2) as [Hfit|Hno].
  - destruct (fit_run T A h K1 x K2 y n Hok E Hy) as (T' & h' & R & Hok' & Hu); [lia|]. by exists T', (taken y n), h'.
  - assert (next_at K1 K2 ≠ e) as Hne by (intros <-; rewrite Hy in He; injection He as ->; lia).
    assert (next_at K1 K2 ≠ f) as Hnf.
    { intros <-. unfold dist in Hd. rewrite (decide_True (P := (next_at K1 K2 ≤ next_at K1 K2)%nat)) in Hd by lia. case_decide; lia. }
    rewrite bind_gets. assert (y.1 =? h_freep h = false) as ->.
    { apply Z.eqb_neq. rewrite Ef. intros Ea. apply Hnf. by eapply same_addr. }
    rewrite bind_ret_l. rewrite (proj2 (Z.eqb_neq _ 0)) by (destruct Hry; lia).
    destruct (next_step _ _ _ _ E) as (K1' & y' & K2' & E' & Ey' & Hl' & Hn'). rewrite Ey in Ey'.
    rewrite (bind_run _ _ _ _ _ (ptr_run h y.1 Hry)). pose proof (ho_chain _ _ _ Hok) as Hc. rewrite E' in Hc. apply chain_at in Hc as [_ Hc].
    rewrite <- Ey', Hc. apply (IH K1' y' K2' E'); rewrite Hn'.
    + rewrite (dist_next _ _ e), (dist_next _ _ f) in Hd by done. lia.
    + rewrite (dist_next _ _ e) in Hfu by done. lia.
Qed.

(** What [malloc] answers: 0, and nothing has changed, or the address of [n] new units. *)
Definition answer A h (n r : Z) h' : Prop :=
  r = 0 ∧ h' = h ∨
  ∃ T' b, r = b + 16 ∧ heap_ok T' ((b, n) :: A) h' ∧ untouched (h_mem h) (h_mem h') A.

(** After [morecore] the search goes once round the list. *)
Lemma grown_run fuel T A h n :
  heap_ok T A h → 1 ≤ n → (∃ z, z ∈ T ∧ n ≤ z.2) → (S (length T) < fuel)%nat →
  ∃ T' b h', (q ← ptr (h_freep h); malloc_loop fuel n (h_freep h) q) h = Ret (b + 16) h' ∧
    heap_ok T' ((b, n) :: A) h' ∧ untouched (h_mem h) (h_mem h') A.
Proof.
  intros Hok Hn (z & Hz & Hzn) Hfu. destruct (freep_at _ _ _ Hok) as (K1 & w & K2 & E & Ew). rewrite Ew.
  assert (w ∈ free_list T) as Hw by (rewrite E; clear; set_solver).
  rewrite (bind_run _ _ _ _ _ (ptr_run h w.1 (free_reach _ _ _ _ Hok Hw))). pose proof (ho_chain _ _ _ Hok) as Hc. rewrite E in Hc.
  apply chain_at in Hc as [_ ->]. assert (z ∈ free_list T) as Hz' by (by right). apply list_elem_of_lookup in Hz' as [e He].
  pose proof (lookup_lt_Some _ _ _ He) as Hel. cbn [length] in Hel. pose proof (f_equal length E) as El. rewrite length_app in El. cbn [length] in El.
  destruct (find_run fuel T A h n K1 w K2 (length K1) e z Hok E Hn) as (T' & b & h' & R & Hok' & Hu); try done.
  - exists w. by rewrite E, list_lookup_middle.
  - unfold dist. destruct K2; cbn [next_at length] in *; repeat case_decide; lia.
  - unfold dist. destruct K2; cbn [next_at length] in *; repeat case_decide; lia.
  - by exists T', b, h'.
Qed.

Lemma loop_run fuel T A h n K1 x K2 f :
  heap_ok T A h → free_list T = K1 ++ x :: K2 → 1 ≤ n → 16 * n < 2 ^ 31 →
  (∃ w, free_list T !! f = Some w ∧ h_freep h = w.1) →
  (dist (S (length T)) (next_at K1 K2) f + length T + 3 < fuel)%nat →
  ∃ r h', malloc_loop fuel n x.1 (first K2 base) h = Ret r h' ∧ answer A h n r h'.
Proof.
  intros Hok E Hn Hmax (w & Hf & Ef). pose proof (lookup_lt_Some _ _ _ Hf) as Hfl. cbn [length] in Hfl.
  revert K1 x K2 E. induction fuel as [|fuel IH]; intros K1 x K2 E Hfu; [lia|]. cbn [malloc_loop].
  destruct (next_lookup _ _ _ _ E) as (y & Hy & Ey & Hyl). rewrite Ey.
  assert (y ∈ free_list T) as Hyin by (by eapply list_elem_of_lookup_2). pose proof (free_reach _ _ _ _ Hok Hyin) as Hry.
  rewrite (bind_run _ _ _ _ _ (size_run h y.1 Hry)), (free_size _ _ _ _ Hok Hyin). destruct (Z.leb_spec n y.2) as [Hfit|Hno].
  { destruct (fit_run T A h K1 x K2 y n Hok E Hy) as (T' & h' & R & Hok' & Hu); [lia|]. exists (taken y n + 16), h'. split; [done|].
    right. by exists T', (taken y n). }
  rewrite bind_gets. destruct (decide (next_at K1 K2 = f)) as [<-|Hnf].
  - assert (y.1 = h_freep h) as -> by (rewrite Ef; congruence). rewrite Z.eqb_refl.
    destruct (morecore_run T A h n Hok Hn Hmax) as [R|(T' & h' & R & Hok' & Hu & Hbig & Hlen)]; rewrite (bind_run _ _ _ _ _ R).
    { exists 0, h. split; [done|by left]. }
    destruct (freep_at _ _ _ Hok') as (L1 & u & L2 & EL & Eu). rewrite (proj2 (Z.eqb_neq _ 0)).
    2:{ rewrite Eu. destruct (free_reach _ _ _ u Hok'); [rewrite EL; clear; set_solver|lia]. }
    destruct (grown_run fuel T' A h' n Hok' Hn Hbig) as (T2 & b & h2 & R2 & Hok2 & Hu2); [lia|].
    exists (b + 16), h2. split; [done|]. right. exists T2, b. split_and!; [done|done|]. by eapply untouched_trans.
  - assert (y.1 =? h_freep h = false) as ->.
    { apply Z.eqb_neq. rewrite Ef. intros Ea. apply Hnf. by eapply same_addr. }
    rewrite bind_ret_l. rewrite (proj2 (Z.eqb_neq _ 0)) by (destruct Hry; lia).
    destruct (next_step _ _ _ _ E) as (K1' & y' & K2' & E' & Ey' & Hl' & Hn'). rewrite Ey in Ey'.
    rewrite (bind_run _ _ _ _ _ (ptr_run h y.1 Hry)). pose proof (ho_chain _ _ _ Hok) as Hc. rewrite E' in Hc. apply chain_at in Hc as [_ Hc].
    rewrite <- Ey', Hc. apply (IH K1' y' K2' E'). rewrite Hn'. rewrite (dist_next _ _ f) in Hfu by done. lia.
Qed.

(** ** [malloc] and [free] *)

Definition nunits (nbytes : Z) : Z := (nbytes + 15) / 16 + 1.

(** Before the first call [freep] is null; [malloc] then makes the free list. *)
Record heap_new h : Prop := {
  hn_base : 0 < base ∧ base + 16 ≤ h0;
  hn_brk : h_brk h = h0 ∧ h0 ≤ 2 ^ 36 ∧ h0 mod 16 = 0;
  hn_freep : h_freep h = 0;
}.

Lemma init_ok h : heap_new h →
  heap_ok [] [] (mkHeap (st32 (st64 (h_mem h) base base) (base + 8) 0) base (h_brk h)).
Proof.
  intros [Hb (Hk & Hk2 & Hk3) Hf]. split; cbn [h_mem h_freep h_brk]; try done.
  - rewrite Hk. split; [lia|done].
  - by left.
  - cbn [chain first fst snd]. rewrite ld32_st32, ld64_st32, ld64_st64_same by lia. done.
  - cbn. lia.
Qed.

Lemma malloc_run T A h nbytes :
  heap_ok T A h → 0 ≤ nbytes → nbytes < 2 ^ 31 - 32 →
  ∃ r h', malloc nbytes h = Ret r h' ∧ answer A h (nunits nbytes) r h'.
Proof.
  intros Hok H0 Hmax. unfold malloc. cbv zeta.
  assert (1 ≤ nunits nbytes ∧ 16 * nunits nbytes < 2 ^ 31) as [Hn1 Hn2] by (unfold nunits; dlia).
  assert (u32 (u64 (nbytes + 16 - 1) / 16 + 1) = nunits nbytes) as ->.
  { rewrite (u64_small (nbytes + 16 - 1)) by lia. replace (nbytes + 16 - 1) with (nbytes + 15) by lia. apply u32_small. unfold nunits in *. lia. }
  destruct (freep_at _ _ _ Hok) as (K1 & w & K2 & E & Ew). assert (w ∈ free_list T) as Hw by (rewrite E; clear; set_solver).
  pose proof (free_reach _ _ _ _ Hok Hw) as Hr. rewrite bind_gets, (proj2 (Z.eqb_neq _ 0)) by (rewrite Ew; destruct Hr; lia).
  rewrite bind_ret_l, Ew, (bind_run _ _ _ _ _ (ptr_run h w.1 Hr)), bind_gets. pose proof (ho_chain _ _ _ Hok) as Hc. rewrite E in Hc.
  apply chain_at in Hc as [_ ->]. apply (loop_run (rounds h) T A h _ K1 w K2 (length K1)); try done.
  - exists w. by rewrite E, list_lookup_middle.
  - pose proof (rounds_enough _ _ _ Hok). pose proof (f_equal length E) as El. rewrite length_app in El. cbn [length] in El.
    unfold dist. destruct K2; cbn [next_at length] in *; repeat case_decide; lia.
Qed.
Lemma malloc_new h nbytes : heap_new h →
  malloc nbytes h = malloc nbytes (mkHeap (st32 (st64 (h_mem h) base base) (base + 8) 0) base (h_brk h)).
Proof.
  intros [Hb (Hk & _) Hf]. unfold malloc. rewrite !bind_gets, Hf. cbn [h_freep Z.eqb]. rewrite (proj2 (Z.eqb_neq base 0)) by lia.
  rewrite bind_ret_l. assert (reach h base) as Hr by (unfold reach; lia).
  rewrite (bind_run _ _ h base (mkHeap (st32 (st64 (h_mem h) base base) (base + 8) 0) base (h_brk h))); [done|].
  rewrite (bind_run _ _ _ _ _ (set_ptr_run h base base Hr)), bind_modify.
  rewrite (bind_run _ _ _ tt (mkHeap (st32 (st64 (h_mem h) base base) (base + 8) 0) base (h_brk h))); [done|].
  rewrite set_size_run; [done|]. exact Hr.
Qed.

(** A program with the blocks [A] calls the allocator and writes into its blocks. *)
Inductive client : list block * heap → list block * heap → Prop :=
  | client_malloc A h nbytes b h' :
      0 ≤ nbytes < 2 ^ 31 - 32 → malloc nbytes h = Ret (b + 16) h' → b + 16 ≠ 0 → client (A, h) ((b, nunits nbytes) :: A, h')
  | client_null A h nbytes h' : 0 ≤ nbytes < 2 ^ 31 - 32 → malloc nbytes h = Ret 0 h' → client (A, h) (A, h')
  | client_free A1 x A2 h h' : free (x.1 + 16) h = Ret tt h' → client (A1 ++ x :: A2, h) (A1 ++ A2, h')
  | client_write A h x a v :
      x ∈ A → x.1 + 16 ≤ a < x.1 + 16 * x.2 → client (A, h) (A, set_h_mem (st8 (h_mem h) a v) h).

Definition in_use A h : Prop := A = [] ∧ heap_new h ∨ ∃ T, heap_ok T A h.

Lemma write_ok T A h x a v :
  heap_ok T A h → x ∈ A → x.1 + 16 ≤ a < x.1 + 16 * x.2 → heap_ok T A (set_h_mem (st8 (h_mem h) a v) h).
Proof.
  intros Hok Hx Ha. pose proof Hok as [Hb Hk Hp Hc Hasc Hf Hl Hs Hap Hun]. rewrite Forall_forall in Hl, Hf.
  assert (∀ p, p + 16 ≤ a ∨ a < p → same_header (h_mem h) (st8 (h_mem h) a v) (p, 0)) as Hsame.
  { intros p Hpa. split; apply ldn_ext; intros b Hb'; cbn in Hb'; rewrite ld8_st8, decide_False by lia; done. }
  split; cbn [h_mem h_freep h_brk set_h_mem]; try done.
  - eapply chain_ext; [|exact Hc]. apply Forall_forall. intros z Hz. apply (Hsame z.1).
    apply elem_of_cons in Hz as [->|Hz]; [destruct (Hl x Hx); cbn; lia|]. pose proof (live_free _ _ _ _ _ Hok Hx Hz) as Hd.
    destruct (Hf z Hz) as (? & ? & _). unfold disj in Hd. lia.
  - by apply Forall_forall.
  - by apply Forall_forall.
  - rewrite Forall_forall in Hs |- *. intros z Hz. rewrite <- (Hs z Hz). apply (Hsame z.1).
    apply apart_app in Hap as (HapA & _ & _). destruct (decide (z = x)) as [->|Hne]; [lia|].
    assert (disj x z) as Hd.
    { apply list_elem_of_split in Hx as (L1 & L2 & ->). apply (apart_perm _ (x :: L1 ++ L2)) in HapA; [|solve_Permutation].
      destruct HapA as [HapA _]. rewrite Forall_forall in HapA. apply HapA. clear -Hz Hne. set_solver. }
    destruct (Hl z Hz) as (? & ? & _). unfold disj in Hd. lia.
Qed.

Lemma malloc_in_use A h nbytes :
  in_use A h → 0 ≤ nbytes < 2 ^ 31 - 32 →
  ∃ r h', malloc nbytes h = Ret r h' ∧ untouched (h_mem h) (h_mem h') A ∧
    (r = 0 ∧ in_use A h' ∨ ∃ T b, r = b + 16 ∧ heap_ok T ((b, nunits nbytes) :: A) h').
Proof.
  intros [[-> Hnew]|[T Hok]] Hn.
  - pose proof (init_ok h Hnew) as Hok. rewrite malloc_new by done. destruct (malloc_run _ _ _ nbytes Hok) as (r & h' & R & Ha); [lia..|].
    exists r, h'. split; [done|]. split; [intros x a Hx; set_solver|].
    destruct Ha as [[-> ->]|(T' & b & -> & Hok' & _)]; [left; split; [done|]; right; by eexists|right; by exists T', b].
  - destruct (malloc_run _ _ _ nbytes Hok) as (r & h' & R & Ha); [lia..|]. exists r, h'. split; [done|].
    destruct Ha as [[-> ->]|(T' & b & -> & Hok' & Hu)]; [|split; [done|right; by exists T', b]].
    split; [apply untouched_refl|]. left. split; [done|]. right. by exists T.
Qed.
Lemma client_ok A h A' h' : client (A, h) (A', h') → in_use A h → in_use A' h'.
Proof.
  intros Hc Hin. inversion Hc as [? ? nbytes b ? Hn R Hb|? ? nbytes ? Hn R|A1 x A2 ? ? R|? ? x a v Hx Ha]; subst.
  - destruct (malloc_in_use A h nbytes Hin Hn) as (r & h2 & R2 & _ & [[-> _]|(T & b' & -> & Hok)]); rewrite R in R2; [by injection R2 as ? _|].
    injection R2 as E ->. assert (b' = b) as -> by lia. right. by exists T.
  - destruct (malloc_in_use A' h nbytes Hin Hn) as (r & h2 & R2 & _ & [[-> Hin']|(T & b' & -> & Hok)]); rewrite R in R2; injection R2.
    + by intros ->.
    + intros _ E. exfalso. destruct (live_reach _ _ _ (b', nunits nbytes) Hok) as [Hpos _]; [by left|]. cbn in Hpos. lia.
  - destruct Hin as [[E _]|[T Hok]]; [by destruct A1|]. destruct (free_run T A1 x A2 h Hok) as (T' & h2 & R2 & Hok' & _).
    rewrite R in R2. injection R2 as ->. right. by exists T'.
  - destruct Hin as [[-> _]|[T Hok]]; [set_solver|]. right. exists T. by eapply write_ok.
Qed.
Lemma reachable_in_use A h A' h' : rtc client (A, h) (A', h') → in_use A h → in_use A' h'.
Proof.
  intros Hr. remember (A, h) as s eqn:Es. remember (A', h') as s' eqn:Es'. revert A h Es. induction Hr as [s|s [A1 h1] s' Hs _ IH]; intros A h ->.
  - by injection Es' as -> ->.
  - intros Hin. eapply (IH Es' A1 h1 eq_refl). by eapply client_ok.
Qed.
End grow.
End inv.


(** 64 pages of memory, the heap starting at 0x4000. *)
Definition small_process : Process := {| base := 0x3ff0; can_grow := λ h n, bool_decide (h_brk h + n ≤ 2 ^ 18) |}.
Definition small_heap : heap := mkHeap ∅ 0 0x4000.
Lemma small_new : heap_new (Pr := small_process) 0x4000 small_heap.
Proof. by split. Qed.


(** The size [morecore] asks for is an [int]: for a request of nearly 4 GiB it wraps
    round to 16 bytes, and [malloc] returns a block that ends outside the process. *)
Example malloc_huge :
  match malloc (Pr := small_process) (2 ^ 32 - 1) small_heap with
  | Ret r h' => r ≠ 0 ∧ h_brk h' = h_brk small_heap + 16
  | _ => False
  end.
Proof. vm_compute. done. Qed.
