(* ===== verification/User.v ===== *)
(** * The world a user program runs in

    A user program is a tree of system calls: each node is a call of user/user.h with its
    arguments, and a subtree for each reply of the kernel.  [run] takes such a program
    through a world of files, descriptors and recorded calls.  The library, [printf] and the
    command-line tools (Ulib.v, Uprintf.v, Tools.v) are programs of this kind. *)
From Stdlib Require Import ZArith Lia.
From stdpp Require Import base list gmap numbers strings.
From S2P Require Import Prelude Machine Bytes.
Local Open Scope Z_scope.

(** ** Programs *)

(** The system calls of user/user.h; [exit] is [Quit] below.  The last four are not calls of
    the library: a system call with the given contents of the argument registers, for
    programs that pass wild pointers, a load and a store of bytes at an address, and a turn
    of an empty loop. *)
Inductive call :=
  | SFork | SWait | SPipe | SGetpid | SUptime | SGetprocinfo
  | SWrite (fd : Z) (bytes : list Z)
  | SRead (fd n : Z)
  | SClose (fd : Z)
  | SKill (pid : Z)
  | SExec (path : list Z) (argv : list (list Z))
  | SOpen (path : list Z) (omode : Z)
  | SMknod (path : list Z) (major minor : Z)
  | SUnlink (path : list Z)
  | SFstat (fd : Z)
  | SLink (old new : list Z)
  | SMkdir (path : list Z)
  | SChdir (path : list Z)
  | SDup (fd : Z)
  | SSbrk (n how : Z)
  | SPause (ticks : Z)
  | SSleep (ticks : Z)
  | SRaw (num : Z) (args : list Z)
  | SPeek (addr n : Z)
  | SPoke (addr : Z) (bytes : list Z)
  | SSpin.

(** The value a call returns, and the bytes it stores at the address it was given. *)
Record reply := Reply { rv : Z; rbuf : list Z }.

Inductive U (A : Type) :=
  | Done (a : A)
  | Call (c : call) (k : reply → U A)
  | Quit (status : Z)
  | Bad (why : string)      (* an access outside an array, or to a missing argument *)
  | OutOfFuel.
Arguments Done {A} _.
Arguments Call {A} _ _.
Arguments Quit {A} _.
Arguments Bad {A} _.
Arguments OutOfFuel {A}.

#[export] Instance U_ret : MRet U := λ A a, Done a.
#[export] Instance U_bind : MBind U := λ A B f,
  fix go m :=
    match m with
    | Done a => f a
    | Call c k => Call c (λ r, go (k r))
    | Quit n => Quit n
    | Bad w => Bad w
    | OutOfFuel => OutOfFuel
    end.

Definition sys (c : call) : U reply := Call c Done.
Definition sysv (c : call) : U Z := Call c (λ r, Done (rv r)).
Definition uexit {A} (n : Z) : U A := Quit n.

Definition uwhen (b : bool) (m : U unit) : U unit := if b then m else mret tt.

Fixpoint ueach {A} (l : list A) (f : A → U unit) : U unit :=
  match l with
  | [] => mret tt
  | x :: l' => f x ;; ueach l' f
  end.

(** [buf[i] = c] and [buf[i]] on an array. *)
Definition ustore (buf : list Z) (i : nat) (c : Z) : U (list Z) :=
  if decide (i < length buf)%nat then mret (<[i := u8 c]> buf) else Bad "store".
Definition uload (buf : list Z) (i : nat) : U Z :=
  match buf !! i with Some c => mret c | None => Bad "load" end.

(** ** Worlds *)

(** What is still to be read from a descriptor.  A read returns at most one more than the
    next number of [s_chunks] (as many bytes as were asked for once they are used up); at
    the end of the data it returns 0, or -1 if [s_fails]. *)
Record stream := Stream { s_data : list Z; s_chunks : list nat; s_fails : bool }.

(** The calls recorded in [w_log] are in the order they were made, with their arguments.
    The replies of the other calls are those of [w_other], which can depend on all the
    calls made before. *)
Record world := World {
  w_files : gmap (list Z) stream;
  w_fds : gmap Z stream;
  w_sink : gset Z;
  w_other : list call → call → reply;
  w_log : list call }.

Definition log (c : call) (w : world) : world :=
  World (w_files w) (w_fds w) (w_sink w) (w_other w) (w_log w ++ [c]).
Definition set_fds (f : gmap Z stream) (w : world) : world :=
  World (w_files w) f (w_sink w) (w_other w) (w_log w).

Definition piece (s : stream) (n : nat) : nat :=
  Nat.min n match s_chunks s with [] => n | c :: _ => S c end.
Definition read_stream (s : stream) (n : nat) : reply * stream :=
  match s_data s with
  | [] => (Reply (if s_fails s then -1 else 0) [], s)
  | d =>
      let got := take (piece s n) d in
      (Reply (Z.of_nat (length got)) got,
       Stream (drop (piece s n) d) (tail (s_chunks s)) (s_fails s))
  end.

Definition NOFILE : nat := 16.
(** The lowest descriptor that is not in use. *)
Definition fd_free (w : world) : option Z :=
  head (filter (λ fd, w_fds w !! fd = None ∧ fd ∉ w_sink w) (Z.of_nat <$> seq 0 NOFILE)).

Definition os (c : call) (w : world) : reply * world :=
  let w := log c w in
  match c with
  | SRead fd n =>
      match w_fds w !! fd with
      | None => (Reply (-1) [], w)
      | Some s =>
          let '(r, s') := read_stream s (Z.to_nat n) in (r, set_fds (<[fd := s']> (w_fds w)) w)
      end
  | SWrite fd bs => (Reply (if decide (fd ∈ w_sink w) then Z.of_nat (length bs) else -1) [], w)
  | SOpen path omode =>
      match w_files w !! path, fd_free w with
      | Some s, Some fd => (Reply fd [], set_fds (<[fd := s]> (w_fds w)) w)
      | _, _ => (Reply (-1) [], w)
      end
  | SClose fd =>
      match w_fds w !! fd with
      | None => (Reply (-1) [], w)
      | Some _ => (Reply 0 [], set_fds (delete fd (w_fds w)) w)
      end
  | _ => (w_other w (w_log w) c, w)
  end.

(** How a program ends: [Becomes] is an [exec] that succeeds. *)
Inductive outcome A :=
  | Returns (a : A) | Exits (status : Z) | Becomes (path : list Z) (argv : list (list Z))
  | Goes_bad (why : string) | Runs_on.
Arguments Returns {A} _.
Arguments Exits {A} _.
Arguments Becomes {A} _ _.
Arguments Goes_bad {A} _.
Arguments Runs_on {A}.

Fixpoint run {A} (m : U A) (w : world) : outcome A * world :=
  match m with
  | Done a => (Returns a, w)
  | Call c k =>
      let '(r, w') := os c w in
      match c with
      | SExec path argv => if rv r <? 0 then run (k r) w' else (Becomes path argv, w')
      | _ => run (k r) w'
      end
  | Quit n => (Exits n, w)
  | Bad why => (Goes_bad why, w)
  | OutOfFuel => (Runs_on, w)
  end.

(** What was written to a descriptor. *)
Definition sent (fd : Z) (c : call) : list Z :=
  match c with SWrite fd' bs => if decide (fd' = fd) then bs else [] | _ => [] end.
Definition output (fd : Z) (cs : list call) : list Z := mjoin (sent fd <$> cs).

(** [w'] is [w] after the calls [cs] that change no descriptor. *)
Definition logs (cs : list call) (w : world) : world :=
  World (w_files w) (w_fds w) (w_sink w) (w_other w) (w_log w ++ cs).

(** ** Running *)

Lemma run_bind {A B} (m : U A) (f : A → U B) w :
  run (m ≫= f) w =
  match run m w with
  | (Returns a, w') => run (f a) w'
  | (Exits n, w') => (Exits n, w')
  | (Becomes p a, w') => (Becomes p a, w')
  | (Goes_bad why, w') => (Goes_bad why, w')
  | (Runs_on, w') => (Runs_on, w')
  end.
Proof.
  revert w. induction m as [a|c k IH| | |]; intros w; [done| |done|done|done].
  cbn [mbind U_bind run]. destruct (os c w) as [r w'].
  destruct c; try apply IH. destruct (rv r <? 0); [apply IH|done].
Qed.
Lemma run_bind_returns {A B} (m : U A) (f : A → U B) w a w' :
  run m w = (Returns a, w') → run (m ≫= f) w = run (f a) w'.
Proof. intros H. by rewrite run_bind, H. Qed.
Lemma run_bind_exits {A B} (m : U A) (f : A → U B) w n w' :
  run m w = (Exits n, w') → run (m ≫= f) w = (Exits n, w').
Proof. intros H. by rewrite run_bind, H. Qed.

Lemma logs_nil w : logs [] w = w.
Proof. destruct w. unfold logs. cbn. by rewrite app_nil_r. Qed.
Lemma logs_logs cs ds w : logs ds (logs cs w) = logs (cs ++ ds) w.
Proof. unfold logs. cbn. by rewrite app_assoc. Qed.
Lemma output_app fd cs ds : output fd (cs ++ ds) = output fd cs ++ output fd ds.
Proof. unfold output. by rewrite fmap_app, join_app. Qed.
Lemma output_nil fd : output fd [] = [].
Proof. done. Qed.
Lemma output_write fd bs : output fd [SWrite fd bs] = bs.
Proof. unfold output. cbn. rewrite decide_True by done. apply app_nil_r. Qed.
Lemma output_write_ne fd fd' bs : fd ≠ fd' → output fd [SWrite fd' bs] = [].
Proof. intros. unfold output. cbn. by rewrite decide_False by done. Qed.

Lemma run_write fd bs w :
  run (sysv (SWrite fd bs)) w =
  (Returns (if decide (fd ∈ w_sink w) then Z.of_nat (length bs) else -1), logs [SWrite fd bs] w).
Proof. done. Qed.

Lemma run_ueach {A} (l : list A) f (g : A → list call) w :
  (∀ x w, x ∈ l → run (f x) w = (Returns tt, logs (g x) w)) →
  run (ueach l f) w = (Returns tt, logs (l ≫= g) w).
Proof.
  revert w. induction l as [|x l IH]; intros w H; [by rewrite logs_nil|].
  cbn [ueach]. erewrite run_bind_returns by (apply H; by left).
  rewrite IH by (intros; apply H; by right). by rewrite logs_logs.
Qed.
