(* ===== verification/Ulib.v ===== *)
(** * user/ulib.c

    The user library.  A [char *] to a string is the list of the bytes from the pointer on:
    the string ends at its first NUL, or with the list.  Arrays that are written are lists
    with bounds; the block operations, whose regions can overlap, work on memory. *)
From Stdlib Require Import ZArith Lia.
From stdpp Require Import base list gmap numbers strings.
From S2P Require Import Prelude Machine KString Bytes User.
Local Open Scope Z_scope.

(** ** Definitions *)

Definition start {A} (main : U Z) : U A := r ← main; uexit r.

(** Copies up to and with the NUL. *)
Fixpoint strcpy_loop (s : list Z) (i : nat) (t : list Z) : U (list Z) :=
  match t with
  | [] => ustore s i 0
  | c :: t' => s' ← ustore s i c; if c =? 0 then mret s' else strcpy_loop s' (S i) t'
  end.
Definition strcpy (s t : list Z) : U (list Z) := strcpy_loop s 0 t.

Fixpoint strcmp (p q : list Z) : Z :=
  match p with
  | [] => 0 - List.hd 0 q
  | c :: p' =>
      if negb (c =? 0) && (c =? List.hd 0 q) then strcmp p' (List.tl q) else c - List.hd 0 q
  end.

Fixpoint strlen_loop (s : list Z) (n : Z) : Z :=
  match s with
  | [] => n
  | c :: s' => if c =? 0 then n else strlen_loop s' (n + 1)
  end.
Definition strlen (s : list Z) : Z := strlen_loop s 0.

(** [int i] is compared with [uint n] as an unsigned number. *)
Fixpoint memset_loop (m : mem) (cdst c : Z) (i : Z) (n : nat) : mem :=
  match n with
  | O => m
  | S n' => memset_loop (st8 m (cdst + i) c) cdst c (i + 1) n'
  end.
Definition memset (m : mem) (dst c n : Z) : mem := memset_loop m dst c 0 (Z.to_nat n).

(** The pointer returned: the rest of the string from the byte found. *)
Fixpoint strchr (s : list Z) (c : Z) : option (list Z) :=
  match s with
  | [] => None
  | d :: s' => if d =? 0 then None else if d =? c then Some s else strchr s' c
  end.

(** The loop makes at most [max] turns. *)
Fixpoint gets_loop (fuel : nat) (buf : list Z) (i max : Z) : U (list Z * Z) :=
  match fuel with
  | O => OutOfFuel
  | S f =>
      if i + 1 <? max then
        r ← sys (SRead 0 1);
        if rv r <? 1 then mret (buf, i)
        else
          c ← uload (rbuf r) 0;
          buf ← ustore buf (Z.to_nat i) c;
          if (c =? 10) || (c =? 13) then mret (buf, i + 1) else gets_loop f buf (i + 1) max
      else mret (buf, i)
  end.
Definition gets (buf : list Z) (max : Z) : U (list Z) :=
  '(buf, i) ← gets_loop (S (Z.to_nat max)) buf 0 max;
  ustore buf (Z.to_nat i) 0.

Definition O_RDONLY : Z := 0.
(** With the bytes of [*st]. *)
Definition stat (n : list Z) : U (Z * list Z) :=
  fd ← sysv (SOpen n O_RDONLY);
  if fd <? 0 then mret (-1, [])
  else
    r ← sys (SFstat fd);
    sys (SClose fd) ;;
    mret (rv r, rbuf r).

Fixpoint atoi_loop (n : Z) (s : list Z) : Z :=
  match s with
  | [] => n
  | c :: s' => if (48 <=? c) && (c <=? 57) then atoi_loop (i32 (n * 10 + c - 48)) s' else n
  end.
Definition atoi (s : list Z) : Z := atoi_loop 0 s.

(** [while (n-- > 0) *dst++ = *src++;] and [while (n-- > 0) *--dst = *--src;], where [n]
    is an [int]: a negative one copies nothing. *)
Fixpoint copy_up (m : mem) (dst src : Z) (n : nat) : mem :=
  match n with
  | O => m
  | S n' => copy_up (st8 m dst (ld8 m src)) (dst + 1) (src + 1) n'
  end.
Fixpoint copy_down (m : mem) (dst src : Z) (n : nat) : mem :=
  match n with
  | O => m
  | S n' => copy_down (st8 m (dst - 1) (ld8 m (src - 1))) (dst - 1) (src - 1) n'
  end.
Definition memmove (m : mem) (vdst vsrc n : Z) : mem :=
  if vsrc >? vdst then copy_up m vdst vsrc (Z.to_nat n)
  else copy_down m (vdst + n) (vsrc + n) (Z.to_nat n).

Fixpoint memcmp (p1 p2 : nat → Z) (n : nat) : Z :=
  match n with
  | O => 0
  | S n' => if negb (p1 O =? p2 O) then p1 O - p2 O else memcmp (advance p1 1) (advance p2 1) n'
  end.

(** The [uint n] becomes the [int n] of [memmove]. *)
Definition memcpy (m : mem) (dst src n : Z) : mem := memmove m dst src (i32 n).

Definition SBRK_EAGER : Z := 1.
Definition SBRK_LAZY : Z := 2.
Definition sbrk (n : Z) : U Z := sysv (SSbrk n SBRK_EAGER).
Definition sbrklazy (n : Z) : U Z := sysv (SSbrk n SBRK_LAZY).

(** ** Strings *)

(** The bytes before the NUL. *)
Fixpoint cstring (s : list Z) : list Z :=
  match s with [] => [] | c :: s' => if c =? 0 then [] else c :: cstring s' end.

Lemma strlen_loop_spec s n : strlen_loop s n = n + Z.of_nat (length (cstring s)).
Proof.
  revert n. induction s as [|c s IH]; intros n; cbn; [lia|].
  destruct (c =? 0); cbn; [lia|]. rewrite IH. lia.
Qed.
Lemma strlen_spec s : strlen s = Z.of_nat (length (cstring s)).
Proof. apply strlen_loop_spec. Qed.

Lemma strchr_spec s c :
  strchr s c = None ↔ c = 0 ∨ c ∉ cstring s.
Proof.
  induction s as [|d s IH]; cbn; [set_solver|].
  destruct (Z.eqb_spec d 0) as [->|Hd]; [set_solver|].
  destruct (Z.eqb_spec d c) as [->|Hc]; [set_solver|]. rewrite IH. set_solver.
Qed.

(** [strcmp] is 0 on equal strings only, and its sign is their lexicographic order. *)
Fixpoint lex (p q : list Z) : comparison :=
  match p, q with
  | [], [] => Eq
  | [], _ :: _ => Lt
  | _ :: _, [] => Gt
  | c :: p', d :: q' => match c ?= d with Eq => lex p' q' | r => r end
  end.
Lemma strcmp_spec p q : Forall byte p → Forall byte q →
  (strcmp p q ?= 0) = lex (cstring p) (cstring q).
Proof.
  intros Hp. revert q. induction Hp as [|c p Hc Hp IH]; intros q Hq; cbn [strcmp cstring].
  - destruct Hq as [|d q Hd Hq]; [done|]. cbn. unfold byte in Hd.
    destruct (Z.eqb_spec d 0) as [->|]; [done|]. apply Z.compare_lt_iff. lia.
  - unfold byte in Hc. destruct (Z.eqb_spec c 0) as [->|Hc0]; cbn [negb andb].
    { destruct Hq as [|d q Hd Hq]; [done|]. cbn [List.hd cstring]. unfold byte in Hd.
      destruct (Z.eqb_spec d 0) as [->|]; [done|]. apply Z.compare_lt_iff. lia. }
    destruct Hq as [|d q Hd Hq]; cbn [List.hd List.tl cstring].
    { rewrite (proj2 (Z.eqb_neq _ _)) by done. apply Z.compare_gt_iff. lia. }
    unfold byte in Hd. destruct (Z.eqb_spec c d) as [->|Hcd].
    { rewrite (proj2 (Z.eqb_neq d 0)) by done. cbn [lex]. rewrite Z.compare_refl. by apply IH. }
    destruct (Z.eqb_spec d 0) as [->|Hd0]; [apply Z.compare_gt_iff; lia|]. cbn [lex].
    destruct (Z.compare_spec c d); [done|apply Z.compare_lt_iff|apply Z.compare_gt_iff]; lia.
Qed.

(** ** Block copies *)

(** [memmove] of the user library and of the kernel, which choose the direction of the copy
    by different tests, have the same effect on every byte. *)
Lemma copy_up_move_up m d s n : copy_up m d s n = move_up m d s n.
Proof. revert m d s. induction n; intros; cbn; auto. Qed.
Lemma copy_down_move_down m d s n : copy_down m d s n = move_down m d s n.
Proof. revert m d s. induction n; intros; cbn; auto. Qed.
Lemma memmove_spec m dst src n a : 0 ≤ n →
  ld8 (memmove m dst src n) a =
  if decide (dst ≤ a < dst + n) then ld8 m (src + (a - dst)) else ld8 m a.
Proof.
  intros Hn. unfold memmove. rewrite copy_up_move_up, copy_down_move_down.
  destruct (Z.gtb_spec src dst).
  - rewrite move_up_ld8 by lia. rewrite Z2Nat.id by lia. done.
  - rewrite move_down_ld8 by lia. rewrite Z2Nat.id by lia.
    repeat case_decide; try lia; f_equal; lia.
Qed.
Lemma memset_spec m dst c n a : 0 ≤ n →
  ld8 (memset m dst c n) a = if decide (dst ≤ a < dst + n) then u8 c else ld8 m a.
Proof. exact (memset_ld8 m dst c n a). Qed.
