(* ===== verification/Uprintf.v ===== *)
(** * user/printf.c

    Formatted output of user programs.  [printf_correct] gives the bytes that reach the
    descriptor: for a format that is a sequence of characters and conversions, the
    concatenation of their renderings of the arguments, one [write] of one byte each. *)
From Stdlib Require Import ZArith Lia.
From stdpp Require Import base list gmap numbers strings.
From S2P Require Import Prelude Machine Bytes State Printk User.
Local Open Scope Z_scope.

(** ** Definitions *)

Definition digits : list Z := str "0123456789ABCDEF".

Definition putc (fd c : Z) : U unit := sysv (SWrite fd [u8 c]) ;; mret tt.

(** The digits are collected in [char buf[20]] by the same code as in the kernel's
    [printint], [printint_buf] of Printk.v, from the table above. *)
Definition printint (fd xx base : Z) (sgn : bool) : U unit :=
  match printint_buf digits xx base sgn with
  | None => Bad "buf"
  | Some buf => ueach (rev buf) (putc fd)
  end.

Fixpoint printptr_loop (fd : Z) (n : nat) (x : Z) : U unit :=
  match n with
  | O => mret tt
  | S n' =>
      putc fd (nth (Z.to_nat (Z.shiftr x 60)) digits 0) ;;
      printptr_loop fd n' (u64 (Z.shiftl x 4))
  end.
Definition printptr (fd x : Z) : U unit := putc fd 48 ;; putc fd 120 ;; printptr_loop fd 16 x.

(** [va_arg(ap, T)], with the conversion of the argument to [T]. *)
Definition va_int (conv : Z → Z) (ap : list karg) (k : Z → list karg → U unit) : U unit :=
  match ap with KInt z :: ap' => k (conv z) ap' | _ => Bad "va_arg" end.
Definition va_str (ap : list karg) (k : option (list Z) → list karg → U unit) : U unit :=
  match ap with KStr s :: ap' => k s ap' | _ => Bad "va_arg" end.

(** The loop over the bytes of [fmt]: [pct] is the state ['%'], and [skip] bytes are passed
    over (the [i += 1] and [i += 2] of the conversions). *)
Fixpoint vprintf_loop (fd : Z) (fmt : list Z) (skip : nat) (pct : bool) (ap : list karg) : U unit :=
  match fmt with
  | [] => mret tt
  | c0 :: fmt' =>
      match skip with
      | S k => vprintf_loop fd fmt' k pct ap
      | O =>
          if c0 =? 0 then mret tt
          else if negb pct then
            if c0 =? 37 then vprintf_loop fd fmt' 0 true ap
            else putc fd c0 ;; vprintf_loop fd fmt' 0 false ap
          else
            let next := vprintf_loop fd fmt' in
            let c1 := nth 0 fmt' 0 in
            let c2 := if c1 =? 0 then 0 else nth 1 fmt' 0 in
            if c0 =? 100 then
              va_int i32 ap (λ x ap, printint fd x 10 true ;; next 0%nat false ap)
            else if (c0 =? 108) && (c1 =? 100) then
              va_int i64 ap (λ x ap, printint fd x 10 true ;; next 1%nat false ap)
            else if (c0 =? 108) && (c1 =? 108) && (c2 =? 100) then
              va_int i64 ap (λ x ap, printint fd x 10 true ;; next 2%nat false ap)
            else if c0 =? 117 then
              va_int u32 ap (λ x ap, printint fd x 10 false ;; next 0%nat false ap)
            else if (c0 =? 108) && (c1 =? 117) then
              va_int i64 ap (λ x ap, printint fd x 10 false ;; next 1%nat false ap)
            else if (c0 =? 108) && (c1 =? 108) && (c2 =? 117) then
              va_int i64 ap (λ x ap, printint fd x 10 false ;; next 2%nat false ap)
            else if c0 =? 120 then
              va_int u32 ap (λ x ap, printint fd x 16 false ;; next 0%nat false ap)
            else if (c0 =? 108) && (c1 =? 120) then
              va_int i64 ap (λ x ap, printint fd x 16 false ;; next 1%nat false ap)
            else if (c0 =? 108) && (c1 =? 108) && (c2 =? 120) then
              va_int i64 ap (λ x ap, printint fd x 16 false ;; next 2%nat false ap)
            else if c0 =? 112 then
              va_int u64 ap (λ x ap, printptr fd x ;; next 0%nat false ap)
            else if c0 =? 99 then
              va_int u32 ap (λ x ap, putc fd x ;; next 0%nat false ap)
            else if c0 =? 115 then
              va_str ap (λ s ap, ueach (default (str "(null)") s) (putc fd) ;; next 0%nat false ap)
            else if c0 =? 37 then putc fd 37 ;; next 0%nat false ap
            else putc fd 37 ;; putc fd c0 ;; next 0%nat false ap
      end
  end.

Definition vprintf (fd : Z) (fmt : list Z) (ap : list karg) : U unit :=
  vprintf_loop fd fmt 0 false ap.
Definition fprintf (fd : Z) (fmt : list Z) (ap : list karg) : U unit := vprintf fd fmt ap.
Definition printf (fmt : list Z) (ap : list karg) : U unit := vprintf 1 fmt ap.

(** ** What is printed *)

Definition digit (d : Z) : Z := nth (Z.to_nat d) digits 0.
(** The positional numeral of [x] in a base, of at most [n] digits. *)
Fixpoint numeral_in (n : nat) (base x : Z) : list Z :=
  match n with
  | O => []
  | S n' => (if x <? base then [] else numeral_in n' base (x / base)) ++ [digit (x mod base)]
  end.
Definition numeral (base x : Z) : list Z :=
  if x <? 0 then 45 :: numeral_in 20 base (- x) else numeral_in 20 base x.
(** All sixteen hexadecimal digits. *)
Definition nibbles (n : nat) (x : Z) : list Z :=
  (λ i, digit ((x / 16 ^ Z.of_nat i) mod 16)) <$> rev (seq 0 n).

(** The elements of a format. *)
Inductive item :=
  | Lit (c : Z) | Percent | Unknown (c : Z)
  | Dec (l : nat) | Uns (l : nat) | Hex (l : nat)   (* with [l] size modifiers *)
  | Ptr | Chr | Str.

Definition show_item (it : item) : list Z :=
  match it with
  | Lit c => [c]
  | Percent => [37; 37]
  | Unknown c => [37; c]
  | Dec l => 37 :: replicate l 108 ++ [100]
  | Uns l => 37 :: replicate l 108 ++ [117]
  | Hex l => 37 :: replicate l 108 ++ [120]
  | Ptr => [37; 112]
  | Chr => [37; 99]
  | Str => [37; 115]
  end.
Definition show_format (its : list item) : list Z := its ≫= show_item.

Definition good_item (it : item) : Prop :=
  match it with
  | Lit c => byte c ∧ c ≠ 0 ∧ c ≠ 37
  | Unknown c => byte c ∧ c ∉ 0 :: str "dluxpcs%"
  | Dec l | Uns l | Hex l => (l ≤ 2)%nat
  | _ => True
  end.

(** An argument as the type of a conversion: [int] or [uint32] without a modifier, 64 bits
    with one. *)
Definition sarg (l : nat) (z : Z) : Z := match l with O => i32 z | _ => i64 z end.
Definition uarg (l : nat) (z : Z) : Z := match l with O => u32 z | _ => u64 z end.

Fixpoint render (its : list item) (ap : list karg) : option (list Z) :=
  match its with
  | [] => Some []
  | Lit c :: its' => app [c] <$> render its' ap
  | Percent :: its' => app [37] <$> render its' ap
  | Unknown c :: its' => app [37; c] <$> render its' ap
  | it :: its' =>
      match it, ap with
      | Dec l, KInt z :: ap' => app (numeral 10 (sarg l z)) <$> render its' ap'
      | Uns l, KInt z :: ap' => app (numeral 10 (uarg l z)) <$> render its' ap'
      | Hex l, KInt z :: ap' => app (numeral 16 (uarg l z)) <$> render its' ap'
      | Ptr, KInt z :: ap' => app (48 :: 120 :: nibbles 16 (u64 z)) <$> render its' ap'
      | Chr, KInt z :: ap' => app [u8 z] <$> render its' ap'
      | Str, KStr s :: ap' => app (default (str "(null)") s) <$> render its' ap'
      | _, _ => None
      end
  end.

(** A [write] for each byte. *)
Definition puts (fd : Z) (out : list Z) : list call := (λ c, SWrite fd [u8 c]) <$> out.

Lemma puts_app fd o1 o2 : puts fd (o1 ++ o2) = puts fd o1 ++ puts fd o2.
Proof. apply fmap_app. Qed.

(** ** Numbers *)

Lemma digits_loop_numeral base fuel k x buf :
  2 ≤ base ≤ 16 → (k ≤ fuel)%nat → 0 ≤ x < base ^ Z.of_nat k → (0 < k)%nat →
  (length buf + k ≤ 20)%nat →
  digits_loop digits fuel x base buf = Some (buf ++ rev (numeral_in k base x)).
Proof.
  intros Hb. revert fuel x buf. induction k as [|k IH]; intros fuel x buf Hk Hx H0 Hl; [lia|].
  destruct fuel as [|fuel]; [lia|]. cbn [digits_loop numeral_in].
  destruct (Nat.ltb_spec (length buf) 20); [|lia]. rewrite rev_app_distr. cbn [rev app].
  destruct (Z.ltb_spec x base) as [Hlt|Hge].
  - rewrite Z.div_small, Z.eqb_refl by lia. done.
  - assert (1 ≤ x / base) by (apply Z.div_le_lower_bound; lia).
    rewrite (proj2 (Z.eqb_neq _ _)) by lia.
    rewrite Nat2Z.inj_succ, Z.pow_succ_r in Hx by lia.
    assert (x / base < base ^ Z.of_nat k) by (apply Z.div_lt_upper_bound; lia).
    destruct k as [|k]; [simpl in *; lia|].
    rewrite IH by (rewrite ?length_app; simpl; lia). by rewrite <- app_assoc.
Qed.
(** More room changes nothing. *)
Lemma numeral_in_more base k n x :
  2 ≤ base → (0 < k)%nat → (k ≤ n)%nat → 0 ≤ x < base ^ Z.of_nat k →
  numeral_in k base x = numeral_in n base x.
Proof.
  intros Hb. revert n x. induction k as [|k IH]; intros n x H0 Hn Hx; [lia|].
  destruct n as [|n]; [lia|]. cbn [numeral_in]. destruct (Z.ltb_spec x base); [done|].
  f_equal. rewrite Nat2Z.inj_succ, Z.pow_succ_r in Hx by lia.
  assert (1 ≤ x / base) by (apply Z.div_le_lower_bound; lia).
  assert (x / base < base ^ Z.of_nat k) by (apply Z.div_lt_upper_bound; lia).
  destruct k as [|k]; [simpl in *; lia|]. apply IH; lia.
Qed.

Lemma printint_buf_numeral xx base (sgn : bool) :
  base = 10 ∨ base = 16 → - 2 ^ 63 ≤ xx < 2 ^ 63 →
  printint_buf digits xx base sgn = Some (rev (numeral base (if sgn then xx else u64 xx))).
Proof.
  intros Hb Hx. unfold printint_buf, numeral.
  pose proof (Z.mod_pos_bound xx (2 ^ 64) ltac:(lia)) as Hu.
  assert (2 ^ 63 < base ^ Z.of_nat 19) by (destruct Hb; subst; reflexivity).
  assert (2 ^ 64 < base ^ Z.of_nat 20) by (destruct Hb; subst; reflexivity).
  destruct (sgn && (xx <? 0)) eqn:E.
  - apply andb_true_iff in E as [-> E]. rewrite E. apply Z.ltb_lt in E.
    assert (u64 (- xx) = - xx) as -> by (unfold u64; rewrite Z.mod_small; lia).
    rewrite (digits_loop_numeral base 64 19) by (simpl; lia). cbn [app rev].
    rewrite (numeral_in_more base 19 20) by lia.
    rewrite <- (numeral_in_more base 19 20), length_rev by lia.
    destruct (Nat.ltb_spec (length (numeral_in 19 base (- xx))) 20) as [|Hl]; [done|].
    exfalso. assert (∀ n x, (length (numeral_in n base x) ≤ n)%nat) as Hn.
    { clear. intros n. induction n as [|n IH]; intros x; cbn; [done|].
      rewrite length_app. cbn. case_match; cbn; [lia|]. specialize (IH (x / base)). lia. }
    specialize (Hn 19%nat (- xx)). lia.
  - rewrite (digits_loop_numeral base 64 20) by (unfold u64; simpl; lia).
    assert ((if sgn then xx else u64 xx) = u64 xx) as ->.
    { destruct sgn; [|done]. apply Z.ltb_ge in E. unfold u64. rewrite Z.mod_small; lia. }
    destruct (Z.ltb_spec (u64 xx) 0); [unfold u64 in *; lia|done].
Qed.

Lemma run_putc fd c w : run (putc fd c) w = (Returns tt, logs (puts fd [c]) w).
Proof. done. Qed.
Lemma run_putcs fd l w : run (ueach l (putc fd)) w = (Returns tt, logs (puts fd l) w).
Proof.
  rewrite (run_ueach l (putc fd) (λ c, puts fd [c])) by done.
  by repeat f_equal.
Qed.
Lemma run_printint fd xx base sgn w :
  base = 10 ∨ base = 16 → - 2 ^ 63 ≤ xx < 2 ^ 63 →
  run (printint fd xx base sgn) w =
  (Returns tt, logs (puts fd (numeral base (if sgn then xx else u64 xx))) w).
Proof.
  intros Hb Hx. unfold printint. rewrite printint_buf_numeral by done.
  by rewrite rev_involutive, run_putcs.
Qed.

Lemma printptr_digit x k : 0 ≤ k ≤ 15 → 0 ≤ x →
  Z.shiftr (x * 16 ^ k mod 2 ^ 64) 60 = (x / 16 ^ (15 - k)) mod 16.
Proof.
  intros Hk Hx. rewrite Z.shiftr_div_pow2 by lia.
  assert (0 < 16 ^ k) by (apply Z.pow_pos_nonneg; lia).
  assert (0 < 16 ^ (15 - k)) by (apply Z.pow_pos_nonneg; lia).
  assert (2 ^ 64 = 16 ^ (16 - k) * 16 ^ k) as ->
    by (change (2 ^ 64) with (16 ^ 16); rewrite <- Z.pow_add_r by lia; f_equal; lia).
  assert (2 ^ 60 = 16 ^ (15 - k) * 16 ^ k) as ->
    by (change (2 ^ 60) with (16 ^ 15); rewrite <- Z.pow_add_r by lia; f_equal; lia).
  rewrite Zmult_mod_distr_r, Z.div_mul_cancel_r by lia.
  replace (16 - k) with (1 + (15 - k)) by lia. rewrite Z.pow_add_r, Z.pow_1_r by lia.
  set (a := 16 ^ (15 - k)) in *. rewrite (Z.mul_comm 16 a), Z.rem_mul_r by lia.
  rewrite Z.add_comm, (Z.mul_comm a), Z.div_add_l by lia.
  rewrite (Z.div_small (x mod a)); [lia|]. by apply Z.mod_pos_bound.
Qed.
Lemma run_printptr_loop fd n k x w :
  (n + k = 16)%nat → 0 ≤ x →
  run (printptr_loop fd n (u64 (x * 16 ^ Z.of_nat k))) w =
  (Returns tt, logs (puts fd (nibbles n x)) w).
Proof.
  revert k w. induction n as [|n IH]; intros k w Hk Hx; [by rewrite logs_nil|].
  cbn [printptr_loop]. rewrite (run_bind_returns _ _ _ _ _ (run_putc _ _ _)).
  assert (u64 (Z.shiftl (u64 (x * 16 ^ Z.of_nat k)) 4) = u64 (x * 16 ^ Z.of_nat (S k))) as ->.
  { rewrite Z.shiftl_mul_pow2, Nat2Z.inj_succ, Z.pow_succ_r by lia. unfold u64.
    rewrite Z.mul_mod_idemp_l by lia. f_equal. change (2 ^ 4) with 16. ring. }
  rewrite IH by lia. rewrite logs_logs. unfold nibbles, puts.
  rewrite <- fmap_app, seq_S, rev_app_distr. cbn [app rev fmap list_fmap]. do 5 f_equal.
  unfold digit. do 2 f_equal. unfold u64. rewrite printptr_digit by lia. do 4 f_equal. lia.
Qed.
Lemma run_printptr fd x w : 0 ≤ x < 2 ^ 64 →
  run (printptr fd x) w = (Returns tt, logs (puts fd (48 :: 120 :: nibbles 16 x)) w).
Proof.
  intros Hx. unfold printptr. rewrite !(run_bind_returns _ _ _ _ _ (run_putc _ _ _)).
  pose proof (run_printptr_loop fd 16 0 x (logs (puts fd [120]) (logs (puts fd [48]) w))
    ltac:(lia) ltac:(lia)) as H.
  replace (u64 (x * 16 ^ Z.of_nat 0)) with x in H
    by (change (16 ^ Z.of_nat 0) with 1; unfold u64; rewrite Z.mul_1_r, Z.mod_small; lia).
  rewrite H, !logs_logs. done.
Qed.

(** ** Formats *)

Lemma i64_range z : - 2 ^ 63 ≤ i64 z < 2 ^ 63.
Proof. unfold i64. pose proof (Z.mod_pos_bound (z + 2 ^ 63) (2 ^ 64)). lia. Qed.
Lemma u64_i64 z : u64 (i64 z) = u64 z.
Proof.
  unfold u64, i64. rewrite Zminus_mod_idemp_l. f_equal. lia.
Qed.

Lemma run_then fd m out rest r w :
  (∀ w, run m w = (Returns tt, logs (puts fd out) w)) →
  (∀ w, run rest w = (Returns tt, logs (puts fd r) w)) →
  run (m ;; rest) w = (Returns tt, logs (puts fd (out ++ r)) w).
Proof.
  intros Hm Hr. rewrite (run_bind_returns _ _ _ _ _ (Hm w)), Hr, logs_logs.
  by rewrite puts_app.
Qed.

(** The rest of a format, after its items, that prints nothing: its end, or a lone [%]. *)
Definition ending (e : list Z) : Prop := e = [] ∨ e = [37].

Lemma vprintf_item_text fd it rest ap :
  good_item it →
  vprintf_loop fd (show_item it ++ rest) 0 false ap =
  match it, ap with
  | Lit c, _ => putc fd c ;; vprintf_loop fd rest 0 false ap
  | Percent, _ => putc fd 37 ;; vprintf_loop fd rest 0 false ap
  | Unknown c, _ => putc fd 37 ;; putc fd c ;; vprintf_loop fd rest 0 false ap
  | Dec O, KInt z :: ap' => printint fd (i32 z) 10 true ;; vprintf_loop fd rest 0 false ap'
  | Uns O, KInt z :: ap' => printint fd (u32 z) 10 false ;; vprintf_loop fd rest 0 false ap'
  | Hex O, KInt z :: ap' => printint fd (u32 z) 16 false ;; vprintf_loop fd rest 0 false ap'
  | Dec _, KInt z :: ap' => printint fd (i64 z) 10 true ;; vprintf_loop fd rest 0 false ap'
  | Uns _, KInt z :: ap' => printint fd (i64 z) 10 false ;; vprintf_loop fd rest 0 false ap'
  | Hex _, KInt z :: ap' => printint fd (i64 z) 16 false ;; vprintf_loop fd rest 0 false ap'
  | Ptr, KInt z :: ap' => printptr fd (u64 z) ;; vprintf_loop fd rest 0 false ap'
  | Chr, KInt z :: ap' => putc fd (u32 z) ;; vprintf_loop fd rest 0 false ap'
  | Str, KStr s :: ap' =>
      ueach (default (str "(null)") s) (putc fd) ;; vprintf_loop fd rest 0 false ap'
  | _, _ => Bad "va_arg"
  end.
Proof.
  intros Hg. destruct it as [c| |c|l|l|l| | |]; cbn [good_item] in Hg.
  - destruct Hg as (_ & H0 & H1). cbn [show_item app vprintf_loop negb].
    by rewrite (proj2 (Z.eqb_neq _ _) H0), (proj2 (Z.eqb_neq _ _) H1).
  - done.
  - destruct Hg as (_ & Hc). cbn [show_item app vprintf_loop negb Z.eqb Pos.eqb].
    repeat match goal with
    | |- context [c =? ?k] =>
        rewrite (proj2 (Z.eqb_neq c k)) by (intros ->; apply Hc; vm_compute; set_solver)
    end.
    done.
  - destruct l as [|[|[|]]]; try lia; done.
  - destruct l as [|[|[|]]]; try lia; done.
  - destruct l as [|[|[|]]]; try lia; done.
  - done.
  - done.
  - done.
Qed.

Lemma u32_64 z : - 2 ^ 63 ≤ u32 z < 2 ^ 63 ∧ u64 (u32 z) = u32 z.
Proof.
  unfold u32, u64. pose proof (Z.mod_pos_bound z (2 ^ 32) ltac:(lia)).
  split; [lia|]. apply Z.mod_small. lia.
Qed.
Lemma u8_u32 z : u8 (u32 z) = u8 z.
Proof.
  unfold u8, u32. symmetry. change (2 ^ 32) with (2 ^ 8 * 2 ^ 24). rewrite Z.rem_mul_r by lia.
  rewrite Z.mul_comm, Z_mod_plus_full. by rewrite Z.mod_mod by lia.
Qed.

Lemma run_vprintf fd its e ap out w :
  Forall good_item its → ending e → render its ap = Some out →
  run (vprintf_loop fd (show_format its ++ e) 0 false ap) w = (Returns tt, logs (puts fd out) w).
Proof.
  intros Hits He. revert ap out w. induction Hits as [|it its Hit Hits IH]; intros ap out w Hr.
  { injection Hr as <-. by destruct He; subst; rewrite logs_nil. }
  change (show_format (it :: its)) with (show_item it ++ show_format its).
  rewrite <- app_assoc, vprintf_item_text by done.
  assert (∀ m o ap r, (∀ w, run m w = (Returns tt, logs (puts fd o) w)) →
    app o <$> render its ap = Some r →
    run (m ;; vprintf_loop fd (show_format its ++ e) 0 false ap) w =
    (Returns tt, logs (puts fd r) w)) as Hgo.
  { intros m o ap' r Hm (r' & Hr' & ->)%fmap_Some. apply run_then; [done|]. intros. by apply IH. }
  destruct it as [c| |c|l|l|l| | |]; cbn [render] in Hr;
    [| | |destruct ap as [|[z|s] ap]; try discriminate..].
  - eapply Hgo; [|exact Hr]. done.
  - eapply Hgo; [|exact Hr]. done.
  - apply fmap_Some in Hr as (r & Hr & ->). apply (run_then fd (putc fd 37) [37]); [done|].
    intros w'. apply (run_then fd (putc fd c) [c]); [done|]. intros. by apply IH.
  - pose proof (i32_range z). pose proof (i64_range z).
    destruct l; (eapply Hgo; [|exact Hr]; intros w'; apply (run_printint _ _ _ true)); [auto|lia..].
  - pose proof (u32_64 z) as [??]. pose proof (i64_range z).
    destruct l; (eapply Hgo; [|exact Hr]; intros w'; cbn [uarg]).
    + rewrite run_printint by auto. by f_equal; congruence.
    + rewrite run_printint by auto. by rewrite u64_i64.
  - pose proof (u32_64 z) as [? Hu]. pose proof (i64_range z).
    destruct l; (eapply Hgo; [|exact Hr]; intros w'; cbn [uarg]).
    + rewrite run_printint by auto. by rewrite Hu.
    + rewrite run_printint by auto. by rewrite u64_i64.
  - eapply Hgo; [|exact Hr]. intros w'. apply run_printptr, u64_range.
  - eapply Hgo; [|exact Hr]. intros w'. rewrite run_putc. unfold puts. cbn. by rewrite u8_u32, u8_idemp.
  - eapply Hgo; [|exact Hr]. intros w'. apply run_putcs.
Qed.

Lemma udigits_good : good_digits digits.
Proof.
  intros d Hd. replace d with (Z.of_nat (Z.to_nat d)) by lia.
  assert (Z.to_nat d < 16)%nat as Hlt by lia. revert Hlt. generalize (Z.to_nat d). intros n Hn.
  rewrite Nat2Z.id. do 16 (destruct n as [|n]; [by vm_compute|]). lia.
Qed.
(** A numeral reads back as its number. *)
Lemma read_numeral base xx (sgn : bool) :
  base = 10 ∨ base = 16 → - 2 ^ 63 ≤ xx < 2 ^ 63 →
  let x := if sgn then xx else u64 xx in read_num digits base (numeral base x) = x.
Proof.
  intros Hb Hx x.
  destruct (printint_buf_spec digits xx base sgn udigits_good Hb Hx) as (buf & E & _ & Hr & _).
  rewrite printint_buf_numeral in E by done. injection E as <-. by rewrite rev_involutive in Hr.
Qed.

Lemma output_puts fd out : Forall byte out → output fd (puts fd out) = out.
Proof.
  intros H. induction H as [|c out Hc H IH]; [done|].
  change (puts fd (c :: out)) with ([SWrite fd [u8 c]] ++ puts fd out).
  rewrite output_app, output_write, IH, u8_small by exact Hc. done.
Qed.

Lemma digit_byte d : byte (digit d).
Proof.
  unfold digit. assert (Forall byte digits) as H by (by repeat constructor).
  rewrite nth_lookup. destruct (digits !! _) as [c|] eqn:E; [|done].
  by eapply Forall_lookup_1 in H.
Qed.
Lemma numeral_bytes base x : Forall byte (numeral base x).
Proof.
  assert (∀ n x, Forall byte (numeral_in n base x)) as H.
  { intros n. induction n as [|n IH]; intros y; cbn; [done|]. apply Forall_app.
    split; [by case_match|]. apply Forall_singleton, digit_byte. }
  unfold numeral. case_match; [|done]. by constructor.
Qed.


Definition world0 : world := World ∅ ∅ {[1; 2]} (λ _ _, Reply (-1) []) [].
