(* ===== verification/Tools.v ===== *)
(** * The command-line tools

    The programs of user/ that are small: cat, wc, echo, kill, ln, mkdir, rm, ls, init,
    monitor, the [main] of grep, and the programs that exercise the scheduler and the file
    system.  Arguments are the list [argv] with the name of the program first.  Loops that
    end only with their input, or not at all, have fuel. *)
From Stdlib Require Import ZArith Lia.
From stdpp Require Import base list gmap numbers strings.
From S2P Require Import Prelude Machine Bytes State Printk User Ulib Uprintf.
Local Open Scope Z_scope.

(** Text with a newline at its end. *)
Definition line (s : string) : list Z := str s ++ [10].
Definition arg (argv : list (list Z)) (i : nat) : list Z := default [] (argv !! i).

(** [read] into the start of an array. *)
Definition ufill (buf : list Z) (r : reply) : U (list Z) :=
  if decide (length (rbuf r) ≤ length buf)%nat
  then mret (rbuf r ++ drop (length (rbuf r)) buf) else Bad "read".

(** ** cat.c *)

Module Cat.
Fixpoint cat_loop (fuel : nat) (fd : Z) (buf : list Z) : U Z :=
  match fuel with
  | O => OutOfFuel
  | S f =>
      r ← sys (SRead fd 512);
      buf ← ufill buf r;
      let n := rv r in
      if n >? 0 then
        m ← sysv (SWrite 1 (take (Z.to_nat n) buf));
        if negb (m =? n) then fprintf 2 (line "cat: write error") [] ;; uexit 1
        else cat_loop f fd buf
      else mret n
  end.
Definition cat (fuel : nat) (fd : Z) : U unit :=
  n ← cat_loop fuel fd (replicate 512 0);
  if n <? 0 then fprintf 2 (line "cat: read error") [] ;; uexit 1 else mret tt.
Definition main (fuel : nat) (argv : list (list Z)) : U Z :=
  if (length argv <=? 1)%nat then cat fuel 0 ;; uexit 0
  else
    ueach (tail argv) (λ a,
      fd ← sysv (SOpen a O_RDONLY);
      if fd <? 0 then fprintf 2 (line "cat: cannot open %s") [KStr (Some a)] ;; uexit 1
      else cat fuel fd ;; sysv (SClose fd) ;; mret tt) ;;
    uexit 0.
End Cat.

(** ** wc.c *)

Module Wc.
Record counts := Counts { l : Z; w : Z; c : Z; inword : bool }.

(** The body of the loop over [buf]. *)
Definition count (b : Z) (k : counts) : counts :=
  let c := i32 (c k + 1) in
  let l := if b =? 10 then i32 (l k + 1) else l k in
  match strchr [32; 13; 9; 10; 11] b with
  | Some _ => Counts l (w k) c false
  | None => if negb (inword k) then Counts l (i32 (w k + 1)) c true else Counts l (w k) c (inword k)
  end.
Fixpoint wc_loop (fuel : nat) (fd : Z) (buf : list Z) (k : counts) : U (Z * counts) :=
  match fuel with
  | O => OutOfFuel
  | S f =>
      r ← sys (SRead fd 512);
      buf ← ufill buf r;
      let n := rv r in
      if n >? 0 then wc_loop f fd buf (foldl (λ k b, count b k) k (take (Z.to_nat n) buf))
      else mret (n, k)
  end.
Definition wc (fuel : nat) (fd : Z) (name : list Z) : U unit :=
  '(n, k) ← wc_loop fuel fd (replicate 512 0) (Counts 0 0 0 false);
  if n <? 0 then printf (line "wc: read error") [] ;; uexit 1
  else printf (line "%d %d %d %s") [KInt (l k); KInt (w k); KInt (c k); KStr (Some name)].
Definition main (fuel : nat) (argv : list (list Z)) : U Z :=
  if (length argv <=? 1)%nat then wc fuel 0 [] ;; uexit 0
  else
    ueach (tail argv) (λ a,
      fd ← sysv (SOpen a O_RDONLY);
      if fd <? 0 then printf (line "wc: cannot open %s") [KStr (Some a)] ;; uexit 1
      else wc fuel fd a ;; sysv (SClose fd) ;; mret tt) ;;
    uexit 0.
End Wc.

(** ** echo.c, kill.c, ln.c, mkdir.c, rm.c *)

Module Echo.
Fixpoint args (l : list (list Z)) : U unit :=
  match l with
  | [] => mret tt
  | a :: l' =>
      sysv (SWrite 1 (take (Z.to_nat (strlen a)) a)) ;;
      sysv (SWrite 1 (if negb (length l' =? 0)%nat then [32] else [10])) ;;
      args l'
  end.
Definition main (argv : list (list Z)) : U Z := args (tail argv) ;; uexit 0.
End Echo.

Module Kill.
Definition main (argv : list (list Z)) : U Z :=
  uwhen (length argv <? 2)%nat (fprintf 2 (line "usage: kill pid...") [] ;; uexit 1) ;;
  ueach (tail argv) (λ a, sysv (SKill (atoi a)) ;; mret tt) ;;
  uexit 0.
End Kill.

Module Ln.
Definition main (argv : list (list Z)) : U Z :=
  uwhen (negb (length argv =? 3)%nat) (fprintf 2 (line "Usage: ln old new") [] ;; uexit 1) ;;
  r ← sysv (SLink (arg argv 1) (arg argv 2));
  uwhen (r <? 0)
    (fprintf 2 (line "link %s %s: failed") [KStr (Some (arg argv 1)); KStr (Some (arg argv 2))]) ;;
  uexit 0.
End Ln.

(** [mkdir] and [rm] stop at the first argument that fails. *)
Module Mkdir.
Fixpoint args (l : list (list Z)) : U unit :=
  match l with
  | [] => mret tt
  | a :: l' =>
      r ← sysv (SMkdir a);
      if r <? 0 then fprintf 2 (line "mkdir: %s failed to create") [KStr (Some a)] else args l'
  end.
Definition main (argv : list (list Z)) : U Z :=
  uwhen (length argv <? 2)%nat (fprintf 2 (line "Usage: mkdir files...") [] ;; uexit 1) ;;
  args (tail argv) ;; uexit 0.
End Mkdir.

Module Rm.
Fixpoint args (l : list (list Z)) : U unit :=
  match l with
  | [] => mret tt
  | a :: l' =>
      r ← sysv (SUnlink a);
      if r <? 0 then fprintf 2 (line "rm: %s failed to delete") [KStr (Some a)] else args l'
  end.
Definition main (argv : list (list Z)) : U Z :=
  uwhen (length argv <? 2)%nat (fprintf 2 (line "Usage: rm files...") [] ;; uexit 1) ;;
  args (tail argv) ;; uexit 0.
End Rm.

(** ** ls.c *)

(** [memmove(dst + off, src, n)] of another array, and [memset(dst + off, c, n)]. *)
Definition ublit (dst : list Z) (off : nat) (src : list Z) (n : nat) : U (list Z) :=
  if decide (off + n ≤ length dst ∧ n ≤ length src)%nat
  then mret (take off dst ++ take n src ++ drop (off + n) dst) else Bad "memmove".
Definition umemset (dst : list Z) (off : nat) (c : Z) (n : nat) : U (list Z) :=
  if decide (off + n ≤ length dst)%nat
  then mret (take off dst ++ replicate n (u8 c) ++ drop (off + n) dst) else Bad "memset".

Module Ls.
Definition DIRSIZ : nat := 14.
Definition T_DIR : Z := 1.
Definition T_FILE : Z := 2.
Definition T_DEVICE : Z := 3.

(** [for (p = path + n; p >= path && *p != '/'; p--); p++;]: the index of [p]. *)
Fixpoint name_start (path : list Z) (n : nat) : nat :=
  if nth n path 0 =? 47 then S n
  else match n with O => O | S m => name_start path m end.

Definition fmtname (path : list Z) : U (list Z) :=
  let p := drop (name_start path (Z.to_nat (strlen path))) path in
  let n := Z.to_nat (strlen p) in
  if (DIRSIZ <=? n)%nat then mret p
  else
    buf ← ublit (replicate (DIRSIZ + 1) 0) 0 p n;
    buf ← umemset buf n 32 (DIRSIZ - n);
    ustore buf DIRSIZ 0.

(** The fields of [struct stat]. *)
Definition st_type (st : list Z) : Z := i16 (ldl 2 st 8).
Definition st_ino (st : list Z) : Z := ldl 4 st 4.
Definition st_size (st : list Z) : Z := ldl 8 st 16.

Definition row (name st : list Z) : U unit :=
  name ← fmtname name;
  printf (line "%s %d %d %d")
    [KStr (Some (cstring name)); KInt (st_type st); KInt (st_ino st); KInt (i32 (st_size st))].

(** The entries of the directory, with [p] at index [p] of [buf]. *)
Fixpoint entries (fuel : nat) (fd : Z) (buf : list Z) (p : nat) : U unit :=
  match fuel with
  | O => OutOfFuel
  | S f =>
      r ← sys (SRead fd 16);
      if rv r =? 16 then
        let de := rbuf r in
        if ldl 2 de 0 =? 0 then entries f fd buf p
        else
          buf ← ublit buf p (drop 2 de) DIRSIZ;
          buf ← ustore buf (p + DIRSIZ) 0;
          '(e, st) ← stat (cstring buf);
          (if e <? 0 then printf (line "ls: cannot stat %s") [KStr (Some (cstring buf))]
           else row buf st) ;;
          entries f fd buf p
      else mret tt
  end.

Definition ls (fuel : nat) (path : list Z) : U unit :=
  fd ← sysv (SOpen path O_RDONLY);
  if fd <? 0 then fprintf 2 (line "ls: cannot open %s") [KStr (Some path)]
  else
    r ← sys (SFstat fd);
    if rv r <? 0 then
      fprintf 2 (line "ls: cannot stat %s") [KStr (Some path)] ;; sysv (SClose fd) ;; mret tt
    else
      let st := rbuf r in
      (if (st_type st =? T_DEVICE) || (st_type st =? T_FILE) then row path st
       else if st_type st =? T_DIR then
         if strlen path + 1 + 14 + 1 >? 512 then printf (line "ls: path too long") []
         else
           buf ← strcpy (replicate 512 0) path;
           let p := Z.to_nat (strlen buf) in
           buf ← ustore buf p 47;
           entries fuel fd buf (S p)
       else mret tt) ;;
      sysv (SClose fd) ;; mret tt.

Definition main (fuel : nat) (argv : list (list Z)) : U Z :=
  if (length argv <? 2)%nat then ls fuel (str ".") ;; uexit 0
  else ueach (tail argv) (ls fuel) ;; uexit 0.
End Ls.

(** ** init.c *)

Module Init.
Definition O_RDWR : Z := 2.
Definition CONSOLE : Z := 1.

(** The inner loop: until the shell, [pid], is the child that has exited. *)
Fixpoint reap (fuel : nat) (pid : Z) : U unit :=
  match fuel with
  | O => OutOfFuel
  | S f =>
      wpid ← sysv SWait;
      if wpid =? pid then mret tt
      else if wpid <? 0 then printf (line "init: wait returned an error") [] ;; uexit 1
      else reap f pid
  end.
Fixpoint shells (fuel : nat) : U Z :=
  match fuel with
  | O => OutOfFuel
  | S f =>
      printf (line "init: starting sh") [] ;;
      pid ← sysv SFork;
      if pid <? 0 then printf (line "init: fork failed") [] ;; uexit 1
      else if pid =? 0 then
        sysv (SExec (str "sh") [str "sh"]) ;;
        printf (line "init: exec sh failed") [] ;;
        uexit 1
      else reap f pid ;; shells f
  end.
Definition main (fuel : nat) : U Z :=
  fd ← sysv (SOpen (str "console") O_RDWR);
  uwhen (fd <? 0)
    (sysv (SMknod (str "console") CONSOLE 0) ;; sysv (SOpen (str "console") O_RDWR) ;; mret tt) ;;
  sysv (SDup 0) ;;
  sysv (SDup 0) ;;
  shells fuel.
End Init.

(** ** monitor.c *)

Module Monitor.
(** The row [i] of the table: a [struct uproc] is 28 bytes. *)
Definition uproc (table : list Z) (i : nat) : list Z := take 28 (drop (28 * i) table).
Definition heading : U unit :=
  printf (27 :: str "[2J" ++ 27 :: str "[H") [] ;;
  printf (line "=== XV6 MLFQ TELEMETRY DASHBOARD ===") [] ;;
  printf (str "PID" ++ [9] ++ str "NAME" ++ [9; 9] ++ str "PRIORITY" ++ [9] ++ line "TOTAL TICKS") [] ;;
  printf (line "-------------------------------------------------") [].
Definition print_row (u : list Z) : U unit :=
  printf (str "%d" ++ [9] ++ str "%s" ++ [9; 9] ++ str "%d" ++ [9; 9] ++ line "%d")
    [KInt (ldl 4 u 0); KStr (Some (cstring (drop 12 u))); KInt (ldl 4 u 4); KInt (ldl 4 u 8)].
Fixpoint main (fuel : nat) : U Z :=
  match fuel with
  | O => OutOfFuel
  | S f =>
      heading ;;
      r ← sys SGetprocinfo;
      if rv r <? 0 then printf (line "Error fetching process info.") [] ;; uexit 1
      else
        ueach (seq 0 (Z.to_nat (rv r))) (λ i,
          if (64 <=? i)%nat then Bad "uproc_table" else print_row (uproc (rbuf r) i)) ;;
        sysv (SSleep 50) ;;
        main f
  end.
End Monitor.

(** ** Programs that exercise the scheduler *)

Module Hog.
(** The loop works on a local variable that nothing reads. *)
Definition main : U Z :=
  let dummy := N.iter 500000000 (λ d, i32 (d + 1)) 0 in
  printf (line "Hog finally finished!") [] ;; uexit 0.
End Hog.

Module Task.
Definition main : U Z :=
  printf (line "Task starting (Quick task)...") [] ;; printf (line "Task finished!") [] ;; uexit 0.
End Task.

Module Race.
Definition main : U Z :=
  printf (line "--- RACE STARTING ---") [] ;;
  pid ← sysv SFork;
  (if pid =? 0 then sysv (SExec (str "hog") [str "hog"]) ;; mret tt
   else
     sysv (SSleep 20) ;;
     pid2 ← sysv SFork;
     uwhen (pid2 =? 0) (sysv (SExec (str "task") [str "task"]) ;; mret tt) ;;
     sysv SWait ;;
     sysv SWait ;;
     printf (line "--- RACE FINISHED ---") []) ;;
  uexit 0.
End Race.

Module Testmlfq.
(** [n] rounds from index [i]. *)
Fixpoint rounds (n : nat) (i : Z) : U unit :=
  match n with
  | O => mret tt
  | S n' =>
      uwhen (i mod 10000000 =? 0)
        (printf (line "Still working... (loop index: %ld)") [KInt i]) ;;
      rounds n' (i + 1)
  end.
Definition main : U Z :=
  printf (line "Starting CPU Hog Test...") [] ;;
  rounds (Z.to_nat 100000000) 0 ;;
  printf (line "Test finished!") [] ;;
  uexit 0.
End Testmlfq.

Module Zombie.
Definition main : U Z :=
  pid ← sysv SFork; uwhen (pid >? 0) (sysv (SPause 5) ;; mret tt) ;; uexit 0.
End Zombie.

(** ** Programs that exercise the file system *)

(** [for (;;) pause(1000);] *)
Fixpoint sit_around {A} (fuel : nat) : U A :=
  match fuel with
  | O => OutOfFuel
  | S f => sysv (SPause 1000) ;; sit_around f
  end.

Module Forphan.
Definition O_WRONLY : Z := 0x001.
Definition O_CREATE : Z := 0x200.
Definition main (fuel : nat) (argv : list (list Z)) : U Z :=
  let s := arg argv 0 in
  let ff := str "file0" in
  fd ← sysv (SOpen ff (Z.lor O_CREATE O_WRONLY));
  uwhen (fd <? 0) (printf (line "%s: open failed") [KStr (Some s)] ;; uexit 1) ;;
  r ← sys (SFstat fd);
  uwhen (rv r <? 0)
    (fprintf 2 (line "%s: cannot stat %s") [KStr (Some s); KStr (Some (str "ff"))] ;; uexit 1) ;;
  e ← sysv (SUnlink ff);
  uwhen (e <? 0) (printf (line "%s: unlink failed") [KStr (Some s)] ;; uexit 1) ;;
  e ← sysv (SOpen ff O_RDONLY);
  uwhen (negb (e =? -1)) (printf (line "%s: open successed") [KStr (Some s)] ;; uexit 1) ;;
  printf (line "wait for kill and reclaim %d") [KInt (Ls.st_ino (rbuf r))] ;;
  sit_around fuel.
End Forphan.

Module Dorphan.
Definition main (fuel : nat) (argv : list (list Z)) : U Z :=
  let s := arg argv 0 in
  e ← sysv (SMkdir (str "dd"));
  uwhen (negb (e =? 0)) (printf (line "%s: mkdir dd failed") [KStr (Some s)] ;; uexit 1) ;;
  e ← sysv (SChdir (str "dd"));
  uwhen (negb (e =? 0)) (printf (line "%s: chdir dd failed") [KStr (Some s)] ;; uexit 1) ;;
  e ← sysv (SUnlink (str "../dd"));
  uwhen (e <? 0) (printf (line "%s: unlink failed") [KStr (Some s)] ;; uexit 1) ;;
  printf (line "wait for kill and reclaim") [] ;;
  sit_around fuel.
End Dorphan.

Module Logstress.
Definition BUFSZ : nat := 500.
Definition SZ : nat := 2000.
Definition O_CREATE_RDWR : Z := Z.lor 0x200 0x002.
(** [write(fd, buf, n)] of an array: it reads [n] bytes of it. *)
Definition uwrite (fd : Z) (buf : list Z) (n : nat) : U Z :=
  if decide (n ≤ length buf)%nat then sysv (SWrite fd (take n buf)) else Bad "write".
Fixpoint writes (n : nat) (fd : Z) (buf : list Z) : U unit :=
  match n with
  | O => mret tt
  | S n' =>
      m ← uwrite fd buf SZ;
      uwhen (negb (m =? Z.of_nat SZ)) (printf (line "write failed %d") [KInt m] ;; uexit 1) ;;
      writes n' fd buf
  end.
Definition child (argv : list (list Z)) (i : nat) : U unit :=
  fd ← sysv (SOpen (arg argv i) O_CREATE_RDWR);
  uwhen (fd <? 0)
    (printf (line "%s: create %s failed") [KStr (Some (arg argv 0)); KStr (Some (arg argv i))] ;;
     uexit 1) ;;
  buf ← umemset (replicate BUFSZ 0) 0 (48 + Z.of_nat i) SZ;
  writes 250 fd buf ;;
  uexit 0.
(** [xstatus] of [wait]: the 4 bytes stored. *)
Definition main (argv : list (list Z)) : U Z :=
  let kids := seq 1 (length argv - 1) in
  ueach kids (λ i,
    pid1 ← sysv SFork;
    uwhen (pid1 <? 0) (printf (line "%s: fork failed") [KStr (Some (arg argv 0))] ;; uexit 1) ;;
    uwhen (pid1 =? 0) (child argv i)) ;;
  ueach kids (λ _,
    r ← sys SWait;
    let xstatus := i32 (ldl 4 (rbuf r) 0) in
    uwhen (negb (xstatus =? 0)) (uexit xstatus)) ;;
  mret 0.
End Logstress.

Module Stressfs.
Fixpoint forks (n : nat) (i : Z) : U Z :=
  match n with
  | O => mret i
  | S n' => pid ← sysv SFork; if pid >? 0 then mret i else forks n' (i + 1)
  end.
Definition main : U Z :=
  let path := str "stressfs0" in
  printf (line "stressfs starting") [] ;;
  data ← umemset (replicate 512 0) 0 97 512;
  i ← forks 4 0;
  printf (line "write %d") [KInt i] ;;
  path ← ustore path 8 (48 + i);
  fd ← sysv (SOpen path (Z.lor 0x200 0x002));
  ueach (seq 0 20) (λ _, sysv (SWrite fd data) ;; mret tt) ;;
  sysv (SClose fd) ;;
  printf (line "read") [] ;;
  fd ← sysv (SOpen path O_RDONLY);
  ueach (seq 0 20) (λ _, r ← sys (SRead fd 512); ufill data r ;; mret tt) ;;
  sysv (SClose fd) ;;
  sysv SWait ;;
  uexit 0.
End Stressfs.

Module Forktest.
Definition print (s : list Z) : U unit := sysv (SWrite 1 (take (Z.to_nat (strlen s)) s)) ;; mret tt.
(** [n] forks are still allowed; the number made. *)
Fixpoint forks (n : nat) (made : nat) : U nat :=
  match n with
  | O => mret made
  | S n' =>
      pid ← sysv SFork;
      if pid <? 0 then mret made
      else uwhen (pid =? 0) (uexit 0) ;; forks n' (S made)
  end.
Fixpoint waits (n : nat) : U unit :=
  match n with
  | O => mret tt
  | S n' =>
      r ← sysv SWait;
      uwhen (r <? 0) (print (line "wait stopped early") ;; uexit 1) ;;
      waits n'
  end.
Definition forktest : U unit :=
  print (line "fork test") ;;
  n ← forks 1000 0;
  uwhen (n =? 1000)%nat (print (line "fork claimed to work N times!") ;; uexit 1) ;;
  waits n ;;
  r ← sysv SWait;
  uwhen (negb (r =? -1)) (print (line "wait got too many") ;; uexit 1) ;;
  print (line "fork test OK").
Definition main : U Z := forktest ;; uexit 0.
End Forktest.
