(* ===== verification/ToolsSpec.v ===== *)
(** * What the command-line tools do

    The complete behaviour of cat and wc on any files, however the bytes of a file arrive:
    the output, the exit status and the error branches; and the output of echo, ls's
    file names, and the shells that init starts. *)
From Stdlib Require Import ZArith Lia.
From stdpp Require Import base list gmap numbers strings.
From S2P Require Import Prelude Machine Bytes State Printk User Ulib Uprintf Tools.
Local Open Scope Z_scope.

#[local] Opaque numeral.

(** ** Reading a stream *)

(** [w] after the calls [cs], with [s] left to be read from [fd]. *)
Definition left_at (fd : Z) (s : stream) (cs : list call) (w : world) : world :=
  set_fds (<[fd := s]> (w_fds w)) (logs cs w).
Definition silent (cs : list call) : Prop := ∀ fd, output fd cs = [].

Lemma left_left fd s s' cs cs' w : left_at fd s' cs' (left_at fd s cs w) = left_at fd s' (cs ++ cs') w.
Proof.
  unfold left_at, set_fds, logs. cbn. by rewrite insert_insert_eq, app_assoc.
Qed.
Lemma left_fds fd s cs w : w_fds (left_at fd s cs w) !! fd = Some s.
Proof. apply lookup_insert_eq. Qed.

(** A [read] of up to [n] bytes, before the end and at it. *)
Lemma run_read fd n s w :
  w_fds w !! fd = Some s → s_data s ≠ [] → 0 < n →
  ∃ k s', (0 < k ≤ Z.to_nat n)%nat ∧ (k ≤ length (s_data s))%nat ∧
    s_data s' = drop k (s_data s) ∧ s_fails s' = s_fails s ∧
    run (sys (SRead fd n)) w =
      (Returns (Reply (Z.of_nat k) (take k (s_data s))), left_at fd s' [SRead fd n] w).
Proof.
  intros Hs Hd Hn. set (p := piece s (Z.to_nat n)).
  assert (0 < p ≤ Z.to_nat n)%nat as Hp by (unfold p, piece; destruct (s_chunks s); lia).
  exists (length (take p (s_data s))), (Stream (drop p (s_data s)) (tail (s_chunks s)) (s_fails s)).
  cbn [s_data s_fails]. rewrite length_take. destruct (s_data s) as [|b d] eqn:E; [done|].
  split; [cbn [length]; lia|]. split; [lia|]. split.
  { destruct (Nat.min_spec p (length (b :: d))) as [[? ->]|[? ->]]; [done|].
    by rewrite !drop_ge by lia. }
  split; [done|]. cbn [run sys os log w_fds]. rewrite Hs. unfold read_stream. rewrite E. cbn [rv].
  fold p. rewrite length_take.
  assert (take (p `min` length (b :: d)) (b :: d) = take p (b :: d)) as ->; [|done].
  destruct (Nat.min_spec p (length (b :: d))) as [[? ->]|[? ->]]; [done|].
  by rewrite !take_ge by lia.
Qed.
Lemma run_read_end fd n s w :
  w_fds w !! fd = Some s → s_data s = [] →
  run (sys (SRead fd n)) w =
    (Returns (Reply (if s_fails s then -1 else 0) []), left_at fd s [SRead fd n] w).
Proof.
  intros Hs Hd. cbn [run sys os log w_fds]. rewrite Hs. unfold read_stream. by rewrite Hd.
Qed.

Lemma run_ufill buf r w :
  (length (rbuf r) ≤ length buf)%nat →
  run (ufill buf r) w = (Returns (rbuf r ++ drop (length (rbuf r)) buf), w).
Proof. intros. unfold ufill. by rewrite decide_True. Qed.

(** Printing a format given by its items. *)
Definition text_byte (c : Z) : Prop := byte c ∧ c ≠ 0 ∧ c ≠ 37.
Lemma run_format fd its ap out fmt w :
  show_format its = fmt → Forall good_item its → render its ap = Some out →
  run (vprintf fd fmt ap) w = (Returns tt, logs (puts fd out) w).
Proof.
  intros <- Hits Hr. rewrite <- (app_nil_r (show_format its)).
  apply run_vprintf; [done|by left|done].
Qed.
Lemma show_lits l : show_format (Lit <$> l) = l.
Proof. induction l as [|c l IH]; [done|]. cbn. by rewrite <- IH at 2. Qed.
Lemma show_app its1 its2 : show_format (its1 ++ its2) = show_format its1 ++ show_format its2.
Proof. apply bind_app. Qed.
Lemma good_lits l : Forall text_byte l → Forall good_item (Lit <$> l).
Proof. intros H. by apply Forall_fmap. Qed.
Lemma render_lits l its ap : render ((Lit <$> l) ++ its) ap = app l <$> render its ap.
Proof.
  induction l as [|c l IH]; cbn; [by destruct (render its ap)|].
  rewrite IH. by destruct (render its ap).
Qed.

Lemma run_text fd l w :
  Forall text_byte l → run (vprintf fd l []) w = (Returns tt, logs (puts fd l) w).
Proof.
  intros Hl. apply (run_format fd (Lit <$> l)); [apply show_lits|by apply good_lits|].
  rewrite <- (app_nil_r (Lit <$> l)), render_lits. cbn. by rewrite app_nil_r.
Qed.
Lemma run_text_s fd l1 l2 a w :
  Forall text_byte l1 → Forall text_byte l2 →
  run (vprintf fd (l1 ++ [37; 115] ++ l2) [KStr (Some a)]) w =
  (Returns tt, logs (puts fd (l1 ++ a ++ l2)) w).
Proof.
  intros H1 H2. apply (run_format fd ((Lit <$> l1) ++ [Str] ++ (Lit <$> l2))).
  - by rewrite !show_app, !show_lits.
  - rewrite !Forall_app. split_and!; [by apply good_lits|by constructor|by apply good_lits].
  - rewrite render_lits. cbn [app render]. rewrite <- (app_nil_r (Lit <$> l2)), render_lits. cbn.
    by rewrite app_nil_r.
Qed.
Lemma text_byte_byte l : Forall text_byte l → Forall byte l.
Proof. intros H. eapply Forall_impl; [exact H|]. by intros c []. Qed.
Lemma output_puts_ne fd fd' out : fd' ≠ fd → output fd' (puts fd out) = [].
Proof.
  intros Hne. induction out as [|c out IH]; [done|].
  change (puts fd (c :: out)) with ([SWrite fd [u8 c]] ++ puts fd out).
  by rewrite output_app, output_write_ne, IH.
Qed.
Lemma logs_left fd s cs cs' w : logs cs' (left_at fd s cs w) = left_at fd s (cs ++ cs') w.
Proof.
  unfold left_at, set_fds, logs. cbn [w_files w_fds w_sink w_other w_log]. by rewrite app_assoc.
Qed.
Lemma text_bytes l : bool_decide (Forall text_byte l) = true → Forall text_byte l.
Proof. apply bool_decide_eq_true_1. Qed.
#[export] Instance text_byte_dec c : Decision (text_byte c).
Proof. unfold text_byte, byte. apply _. Defined.

Ltac text_ok := apply text_bytes; vm_compute; exact eq_refl.

(** A message about a name. *)
Lemma run_complain fd pre a w :
  Forall text_byte pre → Forall byte a → ∃ cs,
  run (vprintf fd (pre ++ [37; 115] ++ [10]) [KStr (Some a)]) w = (Returns tt, logs cs w) ∧
  ∀ f, output f cs = if f =? fd then pre ++ a ++ [10] else [].
Proof.
  intros Hpre Ha. exists (puts fd (pre ++ a ++ [10])). split; [by apply run_text_s; [|text_ok]|].
  intros f. destruct (Z.eqb_spec f fd) as [->|]; [|by apply output_puts_ne].
  apply output_puts. rewrite !Forall_app. split_and!; [by apply text_byte_byte|done|].
  by apply Forall_singleton.
Qed.

(** ** A program that works through its files *)

(** What such a program writes to each descriptor: [bad] for a name it cannot open, which
    ends it, [good] for a file, after which it ends if the file could not be read. *)
Section over.
Context (bad : list Z → Z → list Z) (good : stream → list Z → Z → list Z).
Fixpoint over (files : gmap (list Z) stream) (args : list (list Z)) (fd : Z) : list Z :=
  match args with
  | [] => []
  | a :: args' =>
      match files !! a with
      | None => bad a fd
      | Some s => good s a fd ++ if s_fails s then [] else over files args' fd
      end
  end.
End over.
(** Its exit status. *)
Fixpoint status (files : gmap (list Z) stream) (args : list (list Z)) : Z :=
  match args with
  | [] => 0
  | a :: args' =>
      match files !! a with
      | None => 1
      | Some s => if s_fails s then 1 else status files args'
      end
  end.

Lemma fd_free_some w fd : fd_free w = Some fd → 0 ≤ fd ∧ w_fds w !! fd = None.
Proof.
  unfold fd_free. intros H%head_Some_elem_of.
  apply list_elem_of_filter in H as [[H _] (n & -> & _)%list_elem_of_fmap]. split; [lia|done].
Qed.
Lemma run_open a s fd m w :
  w_files w !! a = Some s → fd_free w = Some fd →
  run (sysv (SOpen a m)) w = (Returns fd, left_at fd s [SOpen a m] w).
Proof.
  intros Hs Hfd. cbn [run sysv os]. change (fd_free (log (SOpen a m) w)) with (fd_free w).
  cbn [log w_files]. by rewrite Hs, Hfd.
Qed.
Lemma run_open_none a m w :
  w_files w !! a = None → run (sysv (SOpen a m)) w = (Returns (-1), logs [SOpen a m] w).
Proof. intros Hs. cbn [run sysv os]. cbn [log w_files]. by rewrite Hs. Qed.
Lemma run_close fd s cs w :
  w_fds w !! fd = None →
  run (sysv (SClose fd)) (left_at fd s cs w) = (Returns 0, logs (cs ++ [SClose fd]) w).
Proof.
  intros Hfd. cbn [run sysv os]. cbn [log left_at set_fds w_fds]. rewrite lookup_insert_eq.
  unfold set_fds, logs. cbn [w_files w_fds w_sink w_other w_log rv].
  by rewrite delete_insert_id, app_assoc.
Qed.

Section over_files.
Context (tool : Z → list Z → U unit) (complain : list Z → U unit).
Context (bad : list Z → Z → list Z) (good : stream → list Z → Z → list Z).
Context (okname : list Z → Prop) (okfile : stream → Prop) (sink : gset Z).
Hypothesis complain_run : ∀ a w, okname a → ∃ cs,
  run (complain a) w = (Returns tt, logs cs w) ∧ ∀ f, output f cs = bad a f.
Hypothesis tool_run : ∀ fd a s w, okname a → okfile s → w_sink w = sink → w_fds w !! fd = Some s →
  ∃ cs s', (∀ f, output f cs = good s a f) ∧
    run (tool fd a) w = (if s_fails s then Exits 1 else Returns tt, left_at fd s' cs w).

Definition each_file (args : list (list Z)) : U unit :=
  ueach args (λ a,
    fd ← sysv (SOpen a O_RDONLY);
    if fd <? 0 then complain a ;; uexit 1
    else tool fd a ;; sysv (SClose fd) ;; mret tt).

Lemma each_file_run args w :
  Forall okname args → is_Some (fd_free w) → w_sink w = sink →
  (∀ a s, w_files w !! a = Some s → okfile s) →
  ∃ cs w', run (each_file args ;; uexit (A := Z) 0) w = (Exits (status (w_files w) args), w') ∧
    w_log w' = w_log w ++ cs ∧ ∀ f, output f cs = over bad good (w_files w) args f.
Proof using complain_run tool_run.
  intros Hargs [fd Hfd]. revert w Hfd. induction Hargs as [|a args Ha Hargs IH]; intros w Hfd Hk Hw.
  { exists [], w. by rewrite app_nil_r. }
  unfold each_file. cbn [ueach status over]. rewrite !run_bind.
  destruct (w_files w !! a) as [s|] eqn:Es.
  - rewrite (run_open a s fd _ w Es Hfd). destruct (fd_free_some w fd Hfd) as [H0 Hn].
    destruct (Z.ltb_spec fd 0); [lia|].
    destruct (tool_run fd a s (left_at fd s [SOpen a O_RDONLY] w)) as (cs & s' & Ho & E);
      [done|by eapply Hw|done|apply left_fds|]. rewrite run_bind, E, left_left. destruct (s_fails s).
    + exists ([SOpen a O_RDONLY] ++ cs). eexists. split; [done|]. split; [done|].
      intros f. rewrite output_app, Ho. by rewrite app_nil_r.
    + rewrite run_bind, run_close by done. set (cs' := (_ ++ cs) ++ _). cbn [run mret U_ret].
      destruct (IH (logs cs' w) Hfd Hk Hw) as (cs2 & w2 & E2 & El & Ho2).
      unfold each_file in E2. rewrite run_bind in E2. cbn [logs w_files] in E2, Ho2. rewrite E2.
      exists (cs' ++ cs2), w2. split; [done|]. split; [rewrite El; cbn [logs w_log]; by rewrite app_assoc|].
      intros f. unfold cs'. rewrite !output_app, Ho2, Ho. cbn [output]. by rewrite app_nil_r.
  - rewrite (run_open_none a _ w Es).
    destruct (complain_run a (logs [SOpen a O_RDONLY] w) Ha) as (cs & E & Ho).
    cbn [Z.ltb Z.compare]. rewrite run_bind, E, logs_logs.
    exists ([SOpen a O_RDONLY] ++ cs). eexists. split; [done|]. split; [done|].
    intros f. by rewrite output_app, Ho.
Qed.
End over_files.

(** ** wc *)

Module WcSpec.
Import Wc.

(** The bytes that end a word, and the start of a word at index [i]. *)
Definition space (b : Z) : Prop := b ∈ [32; 13; 9; 10; 11].
#[export] Instance space_dec b : Decision (space b).
Proof. unfold space. apply _. Defined.
Definition in_word (d : list Z) (i : nat) : Prop :=
  match d !! i with Some b => ¬ space b | None => False end.
#[export] Instance in_word_dec d i : Decision (in_word d i).
Proof. unfold in_word. destruct (d !! i); apply _. Defined.
Definition word_at (d : list Z) (i : nat) : Prop :=
  in_word d i ∧ match i with O => True | S j => ¬ in_word d j end.
#[export] Instance word_at_dec d i : Decision (word_at d i).
Proof. unfold word_at. destruct i; apply _. Defined.

Definition nlines (d : list Z) : nat := length (filter (λ b, b = 10) d).
Definition nwords (d : list Z) : nat := length (filter (word_at d) (seq 0 (length d))).
Definition ends_in_word (d : list Z) : bool := bool_decide (in_word d (length d - 1)).

Lemma filter_in_iff {A} (P Q : A → Prop) `{!∀ x, Decision (P x), !∀ x, Decision (Q x)} (l : list A) :
  (∀ x, x ∈ l → P x ↔ Q x) → filter P l = filter Q l.
Proof.
  induction l as [|x l IH]; intros Hx; [done|]. rewrite !filter_cons, IH by (intros; apply Hx; by right).
  pose proof (Hx x ltac:(by left)). repeat case_decide; tauto.
Qed.
Lemma in_word_app d b i : (i < length d)%nat → in_word (d ++ [b]) i ↔ in_word d i.
Proof. intros Hi. unfold in_word. by rewrite lookup_app_l by done. Qed.
Lemma in_word_last d b : in_word (d ++ [b]) (length d) ↔ ¬ space b.
Proof. unfold in_word. by rewrite list_lookup_middle by done. Qed.
Lemma nwords_app d b :
  nwords (d ++ [b]) =
  (nwords d + if decide (¬ space b ∧ ends_in_word d = false) then 1 else 0)%nat.
Proof.
  unfold nwords. rewrite length_app. cbn [length]. rewrite Nat.add_1_r, seq_S, filter_app, length_app.
  f_equal.
  - f_equal. apply filter_in_iff. intros i [_ Hi]%elem_of_seq. unfold word_at.
    rewrite in_word_app by lia. destruct i; [done|]. by rewrite in_word_app by lia.
  - cbn [Nat.add]. assert (word_at (d ++ [b]) (length d) ↔ ¬ space b ∧ ends_in_word d = false) as Hw.
    { unfold word_at, ends_in_word. rewrite in_word_last.
      destruct (length d) as [|n] eqn:E; [apply nil_length_inv in E as ->; rewrite bool_decide_eq_false; cbn; tauto|].
      rewrite in_word_app by lia. cbn [Nat.sub]. rewrite Nat.sub_0_r, bool_decide_eq_false. done. }
    unfold filter. cbn. repeat case_decide; tauto.
Qed.

Lemma strchr_space b : byte b → strchr [32; 13; 9; 10; 11] b = None ↔ ¬ space b.
Proof.
  intros Hb. rewrite strchr_spec. change (cstring [32; 13; 9; 10; 11]) with [32; 13; 9; 10; 11].
  unfold space. split; [|auto]. intros [->|H]; [set_solver|done].
Qed.
Lemma count_all d :
  Forall byte d → Z.of_nat (length d) < 2 ^ 31 →
  foldl (λ k b, count b k) (Counts 0 0 0 false) d =
  Counts (Z.of_nat (nlines d)) (Z.of_nat (nwords d)) (Z.of_nat (length d)) (ends_in_word d).
Proof.
  induction d as [|b d IH] using rev_ind; intros Hb Hl; [done|].
  apply Forall_app in Hb as [Hd Hb]. rewrite Forall_singleton in Hb. rewrite length_app in Hl. cbn in Hl.
  rewrite foldl_app, IH by (done || lia). cbn [foldl]. unfold count. cbn [l w c inword].
  assert (nlines d ≤ length d)%nat by apply length_filter.
  assert (nwords d ≤ length d)%nat by (etrans; [apply length_filter|by rewrite length_seq]).
  assert (ends_in_word (d ++ [b]) = bool_decide (¬ space b)) as ->.
  { unfold ends_in_word. rewrite length_app. cbn. rewrite Nat.add_sub.
    apply bool_decide_ext, in_word_last. }
  rewrite length_app, nwords_app. unfold nlines in *. rewrite filter_app, filter_cons, filter_nil, length_app.
  rewrite !i32_small by lia. cbn [length].
  destruct (strchr [32; 13; 9; 10; 11] b) eqn:E.
  - assert (space b) as Hs.
    { destruct (decide (space b)) as [|Hs]; [done|]. apply strchr_space in Hs; congruence. }
    rewrite (decide_False (P := ¬ space b ∧ _)) by tauto. rewrite bool_decide_false by tauto.
    destruct (Z.eqb_spec b 10); case_decide; try done; f_equal; cbn; lia.
  - assert (¬ space b) as Hs by (by apply strchr_space).
    assert (b ≠ 10) by (intros ->; apply Hs; unfold space; set_solver).
    rewrite bool_decide_true by done. rewrite (proj2 (Z.eqb_neq _ _)), decide_False by done.
    destruct (ends_in_word d); cbn [negb]; case_decide; try tauto; try (destruct_and?; done);
      f_equal; cbn; lia.
Qed.

Lemma wc_loop_run fd fuel s w k buf :
  length buf = 512%nat → w_fds w !! fd = Some s → (length (s_data s) < fuel)%nat →
  ∃ cs s', silent cs ∧
    run (wc_loop fuel fd buf k) w =
      (Returns (if s_fails s then -1 else 0, foldl (λ k b, count b k) k (s_data s)),
       left_at fd s' cs w).
Proof.
  revert s w k buf. induction fuel as [|fuel IH]; intros s w k buf Hb Hs Hf; [lia|].
  cbn [wc_loop]. destruct (decide (s_data s = [])) as [Hd|Hd].
  - rewrite (run_bind_returns _ _ _ _ _ (run_read_end fd 512 s w Hs Hd)).
    rewrite (run_bind_returns _ _ _ _ _ (run_ufill buf (Reply _ []) _ (Nat.le_0_l _))).
    cbn [rv]. exists [SRead fd 512], s. split; [done|]. rewrite Hd. by destruct (s_fails s).
  - destruct (run_read fd 512 s w Hs Hd ltac:(lia)) as (n & s' & Hn & Hl & Hd' & Hf' & Hr).
    rewrite (run_bind_returns _ _ _ _ _ Hr).
    assert (length (take n (s_data s)) = n) as Hlen by (rewrite length_take; lia).
    rewrite (run_bind_returns _ _ _ _ _
      (run_ufill buf (Reply (Z.of_nat n) (take n (s_data s))) _
         ltac:(cbn [rbuf]; rewrite Hlen; lia))).
    cbn [rv rbuf]. rewrite Z.gtb_ltb, (proj2 (Z.ltb_lt 0 _)) by lia.
    rewrite Nat2Z.id, take_app_length' by done.
    destruct (IH s' (left_at fd s' [SRead fd 512] w)
      (foldl (λ k b, count b k) k (take n (s_data s)))
      (take n (s_data s) ++ drop (length (take n (s_data s))) buf)) as (cs & s2 & Hcs & E).
    { rewrite length_app, length_drop, Hlen. lia. }
    { apply left_fds. }
    { rewrite Hd', length_drop. lia. }
    exists ([SRead fd 512] ++ cs), s2. split; [intros f; by rewrite output_app, Hcs|].
    rewrite E, left_left, Hf', Hd', <- foldl_app, take_drop. done.
Qed.

(** What [wc] prints for a file, and what the program does with its arguments. *)
Definition num (n : nat) : list Z := numeral 10 (Z.of_nat n).
Definition report (d name : list Z) : list Z :=
  num (nlines d) ++ [32] ++ num (nwords d) ++ [32] ++ num (length d) ++ [32] ++ name ++ [10].
Definition wc_bad (a : list Z) (fd : Z) : list Z :=
  if fd =? 1 then str "wc: cannot open " ++ a ++ [10] else [].
Definition wc_good (s : stream) (a : list Z) (fd : Z) : list Z :=
  if fd =? 1 then if s_fails s then line "wc: read error" else report (s_data s) a else [].

(** Contents that fit the [int] counters, and fuel for one more round than there are bytes. *)
Definition countable (fuel : nat) (s : stream) : Prop :=
  Forall byte (s_data s) ∧ Z.of_nat (length (s_data s)) < 2 ^ 31 ∧ (length (s_data s) < fuel)%nat.

Lemma report_bytes d name : Forall byte name → Forall byte (report d name).
Proof.
  intros Hn. unfold report. rewrite !Forall_app. split_and!; try apply numeral_bytes; try done;
    by apply Forall_singleton.
Qed.

Lemma wc_run fuel fd name s w :
  Forall byte name → countable fuel s → w_fds w !! fd = Some s →
  ∃ cs s', (∀ f, output f cs = wc_good s name f) ∧
    run (wc fuel fd name) w = (if s_fails s then Exits 1 else Returns tt, left_at fd s' cs w).
Proof.
  intros Hname (Hb & Hl & Hf) Hs.
  destruct (wc_loop_run fd fuel s w (Counts 0 0 0 false) (replicate 512 0)) as (cs & s' & Hcs & E);
    [done|done|done|].
  assert (∀ out, Forall byte out → ∀ f, output f (cs ++ puts 1 out) = if f =? 1 then out else []) as Ho.
  { intros out Hout f. rewrite output_app, Hcs. cbn [app]. destruct (Z.eqb_spec f 1) as [->|].
    - by apply output_puts.
    - by apply output_puts_ne. }
  unfold wc. rewrite (run_bind_returns _ _ _ _ _ E). rewrite count_all by done. unfold wc_good.
  destruct (s_fails s).
  - exists (cs ++ puts 1 (line "wc: read error")), s'. split; [apply Ho, text_byte_byte; text_ok|].
    cbn [Z.ltb Z.compare]. unfold printf. erewrite run_bind_returns by (apply (run_text 1); text_ok).
    by rewrite logs_left.
  - exists (cs ++ puts 1 (report (s_data s) name)), s'. split; [by apply Ho, report_bytes|].
    cbn [Z.ltb Z.compare l Wc.w c]. unfold printf.
    assert (nlines (s_data s) ≤ length (s_data s))%nat by apply length_filter.
    assert (nwords (s_data s) ≤ length (s_data s))%nat
      by (etrans; [apply length_filter|by rewrite length_seq]).
    rewrite (run_format 1 [Dec 0; Lit 32; Dec 0; Lit 32; Dec 0; Lit 32; Str; Lit 10] _
      (report (s_data s) name)).
    + by rewrite logs_left.
    + done.
    + rewrite !Forall_cons, Forall_nil. cbn [good_item]. unfold byte. lia.
    + cbn [render fmap option_fmap option_map default]. unfold sarg, report, num, id.
      rewrite !i32_small by lia. change ([10] ++ []) with [10]. exact eq_refl.
Qed.

(** Wc with file arguments works through them in order and prints for each the number
    of its newlines, of its words and of its bytes and its name, however the reads cut the
    file up; it ends with status 0, or with 1 after the message for the first file that
    cannot be opened or read.  Without arguments it does this for its standard input. *)
Theorem wc_correct fuel prog args w :
  Forall (Forall byte) args → is_Some (fd_free w) →
  (∀ a s, w_files w !! a = Some s → countable fuel s) →
  (∀ s, w_fds w !! 0 = Some s → countable fuel s) →
  (args ≠ [] → ∃ cs w',
     run (main fuel (prog :: args)) w = (Exits (status (w_files w) args), w') ∧
     w_log w' = w_log w ++ cs ∧ ∀ f, output f cs = over wc_bad wc_good (w_files w) args f) ∧
  (∀ s, w_fds w !! 0 = Some s → ∃ cs w',
     run (main fuel [prog]) w = (Exits (if s_fails s then 1 else 0), w') ∧
     w_log w' = w_log w ++ cs ∧ ∀ f, output f cs = wc_good s [] f).
Proof.
  intros Hargs Hfd Hok Hok0. split.
  - intros Hne.
    destruct (each_file_run (wc fuel) (λ a, printf (line "wc: cannot open %s") [KStr (Some a)])
      wc_bad wc_good (Forall byte) (countable fuel) (w_sink w)) with (args := args) (w := w)
      as (cs & w' & E & Hl & Ho); try done.
    { intros a w' Ha. apply (run_complain 1 (str "wc: cannot open ")); [text_ok|done]. }
    { intros fd a s w' Ha Hs _. by apply wc_run. }
    exists cs, w'. split; [|done]. unfold main. by destruct args.
  - intros s Hs. destruct (wc_run fuel 0 [] s w) as (cs & s' & Ho & E); [done|by apply Hok0|done|].
    exists cs, (left_at 0 s' cs w). split; [|done]. cbn [main length Nat.leb]. rewrite run_bind, E.
    by destruct (s_fails s).
Qed.
End WcSpec.

(** A world with a file that arrives in pieces and one that cannot be read. *)
Definition world1 : world :=
  World {[ str "a" := Stream (str "one two" ++ [10; 32] ++ str "three") [2%nat; 0%nat; 4%nat] false;
           str "b" := Stream (str "x") [] true ]}
    {[ 0 := Stream [10; 10] [] false ]} {[1; 2]} (λ _ _, Reply (-1) []) [].
Lemma wc_correct_witness :
  ∃ cs w',
    run (Wc.main 20 [str "wc"; str "a"; str "b"; str "c"]) world1 = (Exits 1, w') ∧
    w_log w' = w_log world1 ++ cs ∧
    output 1 cs = line "1 3 14 a" ++ line "wc: read error".
Proof.
  assert (∀ a s, w_files world1 !! a = Some s → WcSpec.countable 20 s) as Hok.
  { intros a s H. unfold world1, w_files in H. apply lookup_insert_Some in H as [[<- <-]|[_ [<- <-]%lookup_singleton_Some]];
      (split; [apply (bool_decide_unpack _); vm_compute; exact I|split; cbn; lia]). }
  assert (∀ s, w_fds world1 !! 0 = Some s → WcSpec.countable 20 s) as Hok0.
  { intros s H. unfold world1, w_fds in H. apply lookup_singleton_Some in H as [_ <-].
    split; [apply (bool_decide_unpack _); vm_compute; exact I|split; cbn; lia]. }
  destruct (proj1 (WcSpec.wc_correct 20 (str "wc") [str "a"; str "b"; str "c"] world1
    ltac:(apply (bool_decide_unpack _); vm_compute; exact I) ltac:(eexists; vm_compute; reflexivity)
    Hok Hok0) ltac:(done)) as (cs & w' & E & Hl & Ho).
  exists cs, w'. split; [|split; [exact Hl|]].
  - rewrite E. vm_compute. reflexivity.
  - rewrite (Ho 1). vm_compute. reflexivity.
Defined.

(** ** cat *)

Module CatSpec.
Import Cat.

Definition cat_bad (a : list Z) (fd : Z) : list Z :=
  if fd =? 2 then str "cat: cannot open " ++ a ++ [10] else [].
Definition cat_good (s : stream) (a : list Z) (fd : Z) : list Z :=
  if fd =? 1 then s_data s
  else if (fd =? 2) && s_fails s then line "cat: read error" else [].

Lemma cat_loop_run fd fuel s w buf :
  length buf = 512%nat → w_fds w !! fd = Some s → 1 ∈ w_sink w → (length (s_data s) < fuel)%nat →
  ∃ cs s', output 1 cs = s_data s ∧ (∀ f, f ≠ 1 → output f cs = []) ∧
    run (cat_loop fuel fd buf) w = (Returns (if s_fails s then -1 else 0), left_at fd s' cs w).
Proof.
  revert s w buf. induction fuel as [|fuel IH]; intros s w buf Hb Hs H1 Hf; [lia|].
  cbn [cat_loop]. destruct (decide (s_data s = [])) as [Hd|Hd].
  - rewrite (run_bind_returns _ _ _ _ _ (run_read_end fd 512 s w Hs Hd)).
    rewrite (run_bind_returns _ _ _ _ _ (run_ufill buf (Reply _ []) _ (Nat.le_0_l _))).
    cbn [rv]. exists [SRead fd 512], s. split; [done|]. split; [done|]. by destruct (s_fails s).
  - destruct (run_read fd 512 s w Hs Hd ltac:(lia)) as (n & s' & Hn & Hl & Hd' & Hf' & Hr).
    rewrite (run_bind_returns _ _ _ _ _ Hr).
    assert (length (take n (s_data s)) = n) as Hlen by (rewrite length_take; lia).
    rewrite (run_bind_returns _ _ _ _ _
      (run_ufill buf (Reply (Z.of_nat n) (take n (s_data s))) _
         ltac:(cbn [rbuf]; rewrite Hlen; lia))).
    cbn [rv rbuf]. rewrite Z.gtb_ltb, (proj2 (Z.ltb_lt 0 _)) by lia.
    rewrite Nat2Z.id, take_app_length' by done.
    rewrite (run_bind_returns _ _ _ _ _ (run_write _ _ _)), decide_True, Hlen, Z.eqb_refl by done.
    cbn [negb]. rewrite logs_left.
    destruct (IH s' (left_at fd s' ([SRead fd 512] ++ [SWrite 1 (take n (s_data s))]) w)
      (take n (s_data s) ++ drop n buf)) as (cs & s2 & Ho & Hno & E).
    { rewrite length_app, length_drop, Hlen. lia. }
    { apply left_fds. }
    { done. }
    { rewrite Hd', length_drop. lia. }
    exists (([SRead fd 512] ++ [SWrite 1 (take n (s_data s))]) ++ cs), s2.
    rewrite E, left_left, Hf'. split; [|split; [|done]].
    + rewrite !output_app, output_write, Ho, Hd'. cbn [output app]. apply take_drop.
    + intros f Hne. by rewrite !output_app, output_write_ne, Hno.
Qed.

Lemma cat_run fuel fd a s w :
  (length (s_data s) < fuel)%nat → 1 ∈ w_sink w → w_fds w !! fd = Some s →
  ∃ cs s', (∀ f, output f cs = cat_good s a f) ∧
    run (cat fuel fd) w = (if s_fails s then Exits 1 else Returns tt, left_at fd s' cs w).
Proof.
  intros Hf H1 Hs.
  destruct (cat_loop_run fd fuel s w (replicate 512 0)) as (cs & s' & Ho & Hno & E); try done.
  unfold cat. rewrite (run_bind_returns _ _ _ _ _ E). unfold cat_good. destruct (s_fails s).
  - exists (cs ++ puts 2 (line "cat: read error")), s'. split.
    + intros f. rewrite output_app. destruct (Z.eqb_spec f 1) as [->|].
      { rewrite Ho, output_puts_ne by done. apply app_nil_r. }
      rewrite Hno by done. destruct (Z.eqb_spec f 2) as [->|]; [|by apply output_puts_ne].
      apply output_puts, text_byte_byte. text_ok.
    + cbn [Z.ltb Z.compare]. unfold fprintf. erewrite run_bind_returns by (apply (run_text 2); text_ok).
      by rewrite logs_left.
  - exists cs, s'. split; [|done]. intros f. destruct (Z.eqb_spec f 1) as [->|]; [done|].
    rewrite Hno by done. by destruct (f =? 2).
Qed.
(** cat writes the contents of its files, in order, to its standard output. *)
Theorem cat_correct fuel prog args w :
  Forall (Forall byte) args → is_Some (fd_free w) → 1 ∈ w_sink w →
  (∀ a s, w_files w !! a = Some s → (length (s_data s) < fuel)%nat) → args ≠ [] →
  ∃ cs w',
    run (main fuel (prog :: args)) w = (Exits (status (w_files w) args), w') ∧
    w_log w' = w_log w ++ cs ∧ ∀ f, output f cs = over cat_bad cat_good (w_files w) args f.
Proof.
  intros Hargs Hfd H1 Hok Hne.
  destruct (each_file_run (λ fd _, cat fuel fd)
    (λ a, fprintf 2 (line "cat: cannot open %s") [KStr (Some a)])
    cat_bad cat_good (Forall byte) (λ s, (length (s_data s) < fuel)%nat) (w_sink w))
    with (args := args) (w := w) as (cs & w' & E & Hl & Ho); try done.
  { intros a w' Ha. apply (run_complain 2 (str "cat: cannot open ")); [text_ok|done]. }
  { intros fd a s w' Ha Hs Hk. apply cat_run; [done|]. by rewrite Hk. }
  exists cs, w'. split; [|done]. unfold main. by destruct args.
Qed.
End CatSpec.

(** ** echo *)

Module EchoSpec.
Import Echo.
Fixpoint joined (args : list (list Z)) : list Z :=
  match args with
  | [] => []
  | [a] => a ++ [10]
  | a :: args' => a ++ [32] ++ joined args'
  end.
Lemma take_strlen a : Forall (λ c, c ≠ 0) a → take (Z.to_nat (strlen a)) a = a.
Proof.
  intros Ha. rewrite strlen_spec. assert (cstring a = a) as ->.
  { induction Ha as [|c a Hc Ha IH]; [done|]. cbn. by rewrite (proj2 (Z.eqb_neq _ _) Hc), IH. }
  apply take_ge. lia.
Qed.
(** echo writes its arguments, separated by blanks and ended by a newline. *)
Theorem echo_correct prog args w :
  Forall (Forall (λ c, c ≠ 0)) args →
  ∃ cs, run (main (prog :: args)) w = (Exits 0, logs cs w) ∧ output 1 cs = joined args.
Proof.
  intros Hargs. unfold main. cbn [tail].
  assert (∃ cs, run (Echo.args args) w = (Returns tt, logs cs w) ∧ output 1 cs = joined args)
    as (cs & E & Ho).
  { revert w. induction Hargs as [|a args Ha Hargs IH]; intros w; [exists []; by rewrite logs_nil|].
    cbn [Echo.args]. rewrite take_strlen by done.
    rewrite !(run_bind_returns _ _ _ _ _ (run_write _ _ _)), logs_logs.
    destruct (IH (logs ([SWrite 1 a] ++
      [SWrite 1 (if negb (length args =? 0)%nat then [32] else [10])]) w)) as (cs & E & Ho).
    rewrite E, logs_logs. eexists. split; [done|].
    rewrite !output_app, !output_write, Ho. destruct args as [|a' args]; cbn [length Nat.eqb negb].
    - by rewrite app_nil_r.
    - by rewrite <- app_assoc. }
  exists cs. by rewrite (run_bind_returns _ _ _ _ _ E).
Qed.
End EchoSpec.

(** ** Numbers as arguments *)

(** [atoi] reads the decimal numeral of an [int], which is how kill gets back the process
    numbers that monitor shows. *)
Module AtoiSpec.
Lemma atoi_digit n d s : 0 ≤ d < 10 → atoi_loop n (digit d :: s) = atoi_loop (i32 (n * 10 + d)) s.
Proof.
  intros Hd. assert (digit d = 48 + d) as ->.
  { assert (d = 0 ∨ d = 1 ∨ d = 2 ∨ d = 3 ∨ d = 4 ∨ d = 5 ∨ d = 6 ∨ d = 7 ∨ d = 8 ∨ d = 9) as H by lia.
    by destruct_or! H; subst. }
  cbn [atoi_loop]. rewrite !(proj2 (Z.leb_le _ _)) by lia. cbn [andb]. f_equal. f_equal. lia.
Qed.
Lemma atoi_numeral_in k z s :
  0 ≤ z < 10 ^ Z.of_nat k → z < 2 ^ 31 → (0 < k)%nat →
  atoi_loop 0 (numeral_in k 10 z ++ s) = atoi_loop z s.
Proof.
  revert z s. induction k as [|k IH]; intros z s Hz Hm Hk; [lia|]. cbn [numeral_in].
  pose proof (Z.mod_pos_bound z 10 ltac:(lia)).
  pose proof (Z.div_mod z 10 ltac:(lia)). rewrite <- app_assoc.
  destruct (Z.ltb_spec z 10).
  - cbn [app]. rewrite atoi_digit by done. rewrite i32_small by lia. f_equal. lia.
  - rewrite Nat2Z.inj_succ, Z.pow_succ_r in Hz by lia.
    destruct k as [|k]; [cbn in Hz; lia|].
    rewrite IH by lia. cbn [app]. rewrite atoi_digit by done. f_equal. rewrite i32_small; lia.
Qed.
Theorem atoi_numeral z : 0 ≤ z < 2 ^ 31 → atoi (numeral 10 z) = z.
Proof.
  intros Hz. Transparent numeral. unfold numeral. destruct (Z.ltb_spec z 0); [lia|].
  unfold atoi. rewrite <- (app_nil_r (numeral_in 20 10 z)).
  rewrite atoi_numeral_in; [done| |lia|lia].
  change (10 ^ Z.of_nat 20) with 100000000000000000000. lia.
Qed.
End AtoiSpec.

(** ** init *)

Module InitSpec.
Import Init.

Lemma os_other c w : w_other (os c w).2 = w_other w.
Proof.
  destruct c; try done; cbn [os].
  - destruct (w_fds _ !! _); [|done]. by destruct (read_stream _ _).
  - by destruct (w_fds _ !! _).
  - destruct (w_files _ !! _); [|done]. by destruct (fd_free _).
Qed.
Lemma run_other {A} (m : U A) w : w_other (run m w).2 = w_other w.
Proof.
  revert w. induction m as [a|c k IH| | |]; intros w; try done. cbn [run].
  pose proof (os_other c w) as Ho. destruct (os c w) as [r w']. cbn [snd] in Ho. rewrite <- Ho.
  destruct c; try apply IH. destruct (rv r <? 0); [apply IH|done].
Qed.

(** The kernel can make processes, and [wait] finds a child. *)
Definition healthy (w : world) : Prop :=
  ∀ cs, 0 < rv (w_other w cs SFork) ∧ 0 ≤ rv (w_other w cs SWait).
(** A program that does not end. *)
Definition stays {A} (m : U A) : Prop :=
  ∀ w, healthy w → match (run m w).1 with Returns _ | Runs_on => True | _ => False end.

Lemma stays_bind {A B} (m : U A) (f : A → U B) : stays m → (∀ a, stays (f a)) → stays (m ≫= f).
Proof.
  intros Hm Hf w Hw. rewrite run_bind. specialize (Hm w Hw).
  assert (healthy (run m w).2) as Hw' by (unfold healthy; by rewrite run_other).
  destruct (run m w) as [[a| | | |] w']; try done. by apply Hf.
Qed.
Lemma stays_sysv c : (∀ p a, c ≠ SExec p a) → stays (sysv c).
Proof.
  intros Hc w _. unfold sysv. cbn [run]. destruct (os c w) as [r w']. destruct c; try done.
  by destruct (Hc path argv).
Qed.
Lemma stays_text l : Forall text_byte l → stays (printf l []).
Proof. intros Hl w _. unfold printf. by rewrite run_text. Qed.

Lemma run_wait w :
  run (sysv SWait) w = (Returns (rv (w_other w (w_log w ++ [SWait]) SWait)), logs [SWait] w).
Proof. done. Qed.
Lemma run_fork w :
  run (sysv SFork) w = (Returns (rv (w_other w (w_log w ++ [SFork]) SFork)), logs [SFork] w).
Proof. done. Qed.

Lemma stays_reap fuel pid : 0 < pid → stays (reap fuel pid).
Proof.
  intros Hp. induction fuel as [|fuel IH]; intros w Hw; [done|]. cbn [reap].
  rewrite (run_bind_returns _ _ _ _ _ (run_wait w)).
  destruct (Hw (w_log w ++ [SWait])) as [_ H0]. set (wpid := rv _) in *.
  destruct (wpid =? pid); [done|]. destruct (Z.ltb_spec wpid 0); [lia|]. by apply IH.
Qed.
Lemma stays_shells fuel : stays (shells fuel).
Proof.
  induction fuel as [|fuel IH]; [by intros w|]. cbn [shells].
  apply stays_bind; [apply stays_text; text_ok|]. intros _ w Hw.
  rewrite (run_bind_returns _ _ _ _ _ (run_fork w)).
  destruct (Hw (w_log w ++ [SFork])) as [H0 _]. set (pid := rv _) in *.
  destruct (Z.ltb_spec pid 0); [lia|]. destruct (Z.eqb_spec pid 0); [lia|].
  by apply stays_bind; [apply stays_reap; lia| |].
Qed.

(** A program without a last statement. *)
Definition no_return {A} (m : U A) : Prop :=
  ∀ w, match (run m w).1 with Returns _ => False | _ => True end.
Lemma no_return_bind {A B} (m : U A) (f : A → U B) : (∀ a, no_return (f a)) → no_return (m ≫= f).
Proof. intros Hf w. rewrite run_bind. destruct (run m w) as [[a| | | |] w']; try done. apply Hf. Qed.
Lemma no_return_shells fuel : no_return (shells fuel).
Proof.
  induction fuel as [|fuel IH]; [by intros w|]. cbn [shells].
  apply no_return_bind. intros _. apply no_return_bind. intros pid.
  destruct (pid <? 0); [apply no_return_bind; by intros ? ?|].
  destruct (pid =? 0); [|by apply no_return_bind].
  do 2 (apply no_return_bind; intros ?). by intros ?.
Qed.

(** init, whose exit is a panic of the kernel, never exits while [fork] makes a process and
    [wait] finds a child: it goes on after any number of shells. *)
Theorem init_never_exits fuel w : healthy w → (run (Init.main fuel) w).1 = Runs_on.
Proof.
  intros Hw. assert (stays (Init.main fuel)) as Hs.
  { unfold Init.main. apply stays_bind; [by apply stays_sysv|]. intros fd.
    apply stays_bind.
    { destruct (fd <? 0); [|by intros ?]. cbn [uwhen].
      repeat (apply stays_bind; [by apply stays_sysv|intros _]). by intros ?. }
    intros _. repeat (apply stays_bind; [by apply stays_sysv|intros _]). apply stays_shells. }
  assert (no_return (Init.main fuel)) as Hn.
  { unfold Init.main. repeat (apply no_return_bind; intros ?). apply no_return_shells. }
  specialize (Hs w Hw). specialize (Hn w). by destruct (run (Init.main fuel) w) as [[| | | |] ?].
Qed.
End InitSpec.

(** ** ls *)

Module LsSpec.
Import Ls.

Lemma name_start_slash dir name k :
  47 ∉ name → (k ≤ length name)%nat →
  name_start (dir ++ [47] ++ name) (S (length dir) + k) = S (length dir).
Proof.
  intros Hn. induction k as [|k IH]; intros Hk.
  - rewrite Nat.add_0_r. cbn [name_start].
    assert (nth (S (length dir)) (dir ++ [47] ++ name) 0 ≠ 47) as H.
    { rewrite app_nth2 by lia. replace (S (length dir) - length dir)%nat with 1%nat by lia.
      destruct name as [|c name]; [done|]. set_solver. }
    rewrite (proj2 (Z.eqb_neq _ _) H).
    assert (nth (length dir) (dir ++ [47] ++ name) 0 = 47) as E by apply (nth_middle dir name 47 0).
    destruct (length dir); cbn [name_start]; by rewrite E.
  - rewrite Nat.add_succ_r. cbn [name_start].
    assert (nth (S (S (length dir) + k)) (dir ++ [47] ++ name) 0 ≠ 47) as H.
    { rewrite app_nth2 by lia.
      replace (S (S (length dir) + k) - length dir)%nat with (S (S k)) by lia. cbn [app nth].
      rewrite nth_lookup. destruct (name !! S k) as [c|] eqn:E; [|done].
      cbn. intros ->. apply Hn. by apply list_elem_of_lookup_2 in E. }
    rewrite (proj2 (Z.eqb_neq _ _) H). apply IH. lia.
Qed.
Lemma name_start_plain name k :
  47 ∉ name → name_start name k = 0%nat.
Proof.
  intros Hn. assert (∀ i, nth i name 0 ≠ 47) as H.
  { intros i. rewrite nth_lookup. destruct (name !! i) as [c|] eqn:E; [|done].
    cbn. intros ->. apply Hn. by apply list_elem_of_lookup_2 in E. }
  induction k as [|k IH]; cbn [name_start]; by rewrite (proj2 (Z.eqb_neq _ _) (H _)).
Qed.
Lemma cstring_id a : Forall (λ c, c ≠ 0) a → cstring a = a.
Proof.
  intros Ha. induction Ha as [|c a Hc Ha IH]; [done|]. cbn. by rewrite (proj2 (Z.eqb_neq _ _) Hc), IH.
Qed.

(** The name after the last slash, padded to 14 columns. *)
Definition padded (name : list Z) : list Z := name ++ replicate (DIRSIZ - length name) 32.
Theorem fmtname_correct dir name path w :
  path = dir ++ [47] ++ name ∨ path = name →
  Forall (λ c, c ≠ 0) path → 47 ∉ name →
  ∃ r, run (fmtname path) w = (Returns r, w) ∧ cstring r = padded name.
Proof.
  intros Hp Hz Hn. assert (drop (name_start path (Z.to_nat (strlen path))) path = name) as E.
  { rewrite strlen_spec, cstring_id, Nat2Z.id by done. destruct Hp as [->| ->].
    - rewrite !length_app. cbn [length]. replace (length dir + (1 + length name))%nat
        with (S (length dir) + length name)%nat by lia.
      rewrite name_start_slash by (done || lia).
      rewrite app_assoc. apply drop_app_length'. rewrite length_app. cbn. lia.
    - by rewrite name_start_plain. }
  assert (Forall (λ c, c ≠ 0) name) as Hnz.
  { destruct Hp as [->| ->]; [|done]. by rewrite !Forall_app in Hz; destruct_and! Hz. }
  unfold fmtname. rewrite E, strlen_spec, (cstring_id name), Nat2Z.id by done.
  unfold padded, DIRSIZ.
  destruct (Nat.leb_spec 14 (length name)) as [Hl|Hl].
  { exists name. split; [done|]. rewrite cstring_id by done.
    replace (14 - length name)%nat with 0%nat by lia. by rewrite app_nil_r. }
  unfold ublit. rewrite decide_True by (rewrite length_replicate; lia).
  rewrite (take_ge name), take_0 by lia. cbn [app Nat.add mbind U_bind mret U_ret].
  set (buf := name ++ drop _ _). assert (length buf = (14 + 1)%nat) as Hb.
  { unfold buf. rewrite length_app, length_drop, length_replicate. lia. }
  unfold umemset. rewrite decide_True by lia. cbn [mbind U_bind mret U_ret].
  unfold buf at 1. rewrite take_app_length' by done.
  set (pad := replicate (14 - length name) (u8 32)).
  assert (length (name ++ pad) = 14%nat) as Hlen by (unfold pad; rewrite length_app, length_replicate; lia).
  assert (∃ x, drop (length name + (14 - length name)) buf = [x]) as [x ->].
  { destruct (drop _ buf) as [|x [|y l]] eqn:Ed; [..|];
      apply (f_equal length) in Ed; rewrite length_drop in Ed; cbn in Ed; try lia. by exists x. }
  unfold ustore. rewrite decide_True by (rewrite app_assoc, length_app, Hlen; cbn; lia).
  rewrite app_assoc, insert_app_r_alt, Hlen, Nat.sub_diag by lia.
  eexists. split; [done|]. cbn [list_insert insert u8].
  assert (∀ a b, Forall (λ c, c ≠ 0) a → cstring (a ++ 0 :: b) = a) as Hc.
  { clear. intros a b Ha. induction Ha as [|c a Hc Ha IH]; [done|]. cbn.
    by rewrite (proj2 (Z.eqb_neq _ _) Hc), IH. }
  apply Hc, Forall_app. split; [done|]. by apply Forall_replicate.
Qed.
End LsSpec.

(** ** logstress *)

(** The array of 500 bytes is filled with 2000: the child of logstress leaves its bounds as
    soon as its file is open. *)
Example logstress_overruns :
  (run (Logstress.child [str "logstress"; str "a"] 1) world1).1 = Goes_bad "memset".
Proof. vm_compute. reflexivity. Qed.
