(* ===== verification/Dashboard.v ===== *)
(** * The dashboard: user/monitor.c on the rows of [sys_getprocinfo]

    The rows that the system call makes for the process table (Procinfo.v) are printed by
    the monitor program (Tools.v) as one line for each process. *)
From Stdlib Require Import ZArith Lia.
From stdpp Require Import base list gmap numbers strings.
From S2P Require Import Prelude Machine KString Bytes State Printk Procinfo User Ulib Uprintf Tools ToolsSpec.
Local Open Scope Z_scope.

#[local] Opaque numeral.

Definition TAB : Z := 9.

(** The line of a process: the stopwatch, an unsigned field, is printed as an [int]. *)
Definition line_of (p : proc) : list Z :=
  numeral 10 (i32 (p_pid p)) ++ [TAB] ++ cstr (bytes_of (p_name p)) 15 ++ [TAB; TAB] ++
  numeral 10 (i32 (p_priority p)) ++ [TAB; TAB] ++ numeral 10 (i32 (p_ticks_used p)) ++ [10].
Definition heading_text : list Z :=
  (27 :: str "[2J" ++ 27 :: str "[H") ++ line "=== XV6 MLFQ TELEMETRY DASHBOARD ===" ++
  (str "PID" ++ [9] ++ str "NAME" ++ [9; 9] ++ str "PRIORITY" ++ [9] ++ line "TOTAL TICKS") ++
  line "-------------------------------------------------".

Lemma cstr_cstring (l : list Z) : cstr (bytes_of l) (length l) = cstring l.
Proof.
  induction l as [|c l IH]; [done|]. cbn [length cstr cstring].
  change (cstr (bytes_of (c :: l)) (S (length l)))
    with (if c =? 0 then [] else c :: cstr (advance (bytes_of (c :: l)) 1) (length l)).
  destruct (c =? 0); [done|]. by rewrite <- IH.
Qed.
Lemma i32_u32 z : i32 (u32 z) = i32 z.
Proof. unfold i32, u32. by rewrite Zplus_mod_idemp_l. Qed.

Lemma print_row_run p row w :
  row_of p row → run (Monitor.print_row row) w = (Returns tt, logs (puts 1 (line_of p)) w).
Proof.
  intros [Hl Hpid Hprio Hticks Hname]. unfold Monitor.print_row, printf.
  rewrite Hpid, Hprio, Hticks.
  replace (cstring (drop 12 row)) with (cstr (bytes_of (p_name p)) 15)
    by (rewrite <- Hname, <- cstr_cstring, length_drop, Hl; done).
  apply (run_format 1 [Dec 0; Lit 9; Str; Lit 9; Lit 9; Dec 0; Lit 9; Lit 9; Dec 0; Lit 10]); [done| |].
  - rewrite !Forall_cons, Forall_nil. cbn [good_item]. unfold byte. lia.
  - cbn [render fmap option_fmap option_map default]. unfold sarg, line_of, TAB, id.
    rewrite !i32_u32. change ([10] ++ []) with [10]. exact eq_refl.
Qed.

Lemma line_bytes p : Forall byte (p_name p) → Forall byte (line_of p).
Proof.
  intros Hp. unfold line_of. rewrite !Forall_app. split_and!; try apply numeral_bytes;
    try (apply (bool_decide_unpack _); vm_compute; exact I).
  generalize 15%nat. intros n. revert Hp. generalize (p_name p). induction n as [|n IH]; intros l Hl; [done|].
  destruct Hl as [|c l Hc Hl]; [done|]. 
  change (cstr (bytes_of (c :: l)) (S n)) with (if c =? 0 then [] else c :: cstr (bytes_of l) n).
  destruct (c =? 0); [done|]. constructor; [done|by apply IH].
Qed.

Lemma heading_run w : run Monitor.heading w = (Returns tt, logs (puts 1 heading_text) w).
Proof.
  unfold Monitor.heading, printf.
  do 3 (erewrite run_bind_returns by (apply run_text; text_ok)). rewrite run_text by text_ok.
  by rewrite !logs_logs.
Qed.

Lemma uproc_concat (rs : list (list Z)) i row :
  Forall (λ r, length r = 28%nat) rs → rs !! i = Some row → Monitor.uproc (concat rs) i = row.
Proof. apply (slice_concat 28). Qed.

Lemma bind_ext_in {A B} (f g : A → list B) (l : list A) :
  (∀ x, x ∈ l → f x = g x) → l ≫= f = l ≫= g.
Proof.
  induction l as [|x l IH]; intros H; [done|]. rewrite !bind_cons. f_equal; [apply H; by left|].
  apply IH. intros y Hy. apply H. by right.
Qed.
Lemma rows_run ps rs w :
  Forall2 row_of ps rs → (length ps ≤ 64)%nat →
  run (ueach (seq 0 (length ps)) (λ i,
    if (64 <=? i)%nat then Bad "uproc_table" else Monitor.print_row (Monitor.uproc (concat rs) i))) w =
  (Returns tt, logs (puts 1 (ps ≫= line_of)) w).
Proof.
  intros Hrs Hle.
  assert (Forall (λ r, length r = 28%nat) rs) as Hlen.
  { apply Forall_lookup. intros i row Hi. eapply Forall2_lookup_r in Hi as (p & _ & Hr); [|done].
    apply Hr. }
  rewrite (run_ueach _ _ (λ i, match ps !! i with Some p => puts 1 (line_of p) | None => [] end)).
  - do 2 f_equal. clear. assert (∀ n, (seq n (length ps) ≫= λ i, match ps !! (i - n)%nat with
      | Some p => puts 1 (line_of p) | None => [] end) = puts 1 (ps ≫= line_of)) as H.
    { induction ps as [|p ps IH]; intros n; [done|]. cbn [length seq]. rewrite !bind_cons.
      rewrite Nat.sub_diag, puts_app. f_equal. rewrite <- (IH (S n)).
      apply bind_ext_in. intros i [Hi _]%elem_of_seq.
      replace (i - n)%nat with (S (i - S n)) by lia. done. }
    rewrite <- (H 0%nat). apply bind_ext_in. intros i _. by rewrite Nat.sub_0_r.
  - intros i w' [_ Hi]%elem_of_seq. destruct (Nat.leb_spec 64 i); [lia|].
    destruct (lookup_lt_is_Some_2 ps i ltac:(lia)) as [p Hp]. rewrite Hp.
    destruct (Forall2_lookup_l _ _ _ _ _ Hrs Hp) as (row & Hrow & Hr).
    rewrite (uproc_concat rs i row) by done. by apply print_row_run.
Qed.

(** C33: a refresh of the monitor on the rows that [sys_getprocinfo] makes for the slots in
    use of the process table shows, under its heading, one line for each of these
    processes in their order, with its pid, name, priority and stopwatch, pauses for 50
    ticks and goes on with the next refresh. *)
Theorem monitor_shows_processes fuel ps rs w :
  Forall2 row_of (filter active ps) rs → length ps = NPROC →
  Forall (λ p, Forall byte (p_name p)) ps →
  (∀ cs, w_other w cs SGetprocinfo = Reply (Z.of_nat (length (filter active ps))) (concat rs)) →
  ∃ cs, run (Monitor.main (S fuel)) w = run (Monitor.main fuel) (logs cs w) ∧
    last cs = Some (SSleep 50) ∧
    output 1 cs = heading_text ++ (filter active ps ≫= line_of).
Proof.
  intros Hrs Hn Hb Hk. set (qs := filter active ps) in *.
  assert (length qs ≤ 64)%nat by (change 64%nat with NPROC; rewrite <- Hn; apply length_filter).
  exists (((puts 1 heading_text ++ [SGetprocinfo]) ++ puts 1 (qs ≫= line_of)) ++ [SSleep 50]).
  split; [|split; [apply last_snoc|]].
  - cbn [Monitor.main]. rewrite (run_bind_returns _ _ _ _ _ (heading_run w)).
    set (w1 := logs (puts 1 heading_text) w).
    assert (run (sys SGetprocinfo) w1 =
      (Returns (w_other w (w_log w1 ++ [SGetprocinfo]) SGetprocinfo), logs [SGetprocinfo] w1)) as E
      by done.
    rewrite Hk in E. rewrite (run_bind_returns _ _ _ _ _ E). cbn [rv rbuf].
    destruct (Z.ltb_spec (Z.of_nat (length qs)) 0); [lia|]. rewrite Nat2Z.id.
    rewrite (run_bind_returns _ _ _ _ _ (rows_run qs rs _ Hrs ltac:(done))).
    unfold w1. rewrite !logs_logs. set (w2 := logs _ w).
    assert (run (sysv (SSleep 50)) w2 =
      (Returns (rv (w_other w (w_log w2 ++ [SSleep 50]) (SSleep 50))), logs [SSleep 50] w2)) as E2
      by done.
    rewrite (run_bind_returns _ _ _ _ _ E2). unfold w2. by rewrite logs_logs.
  - rewrite !output_app. change (output 1 [SGetprocinfo]) with (@nil Z).
    change (output 1 [SSleep 50]) with (@nil Z). rewrite !app_nil_r, !output_puts; [done| |].
    + apply Forall_bind, Forall_forall. intros p [_ Hp]%list_elem_of_filter.
      by apply line_bytes, (proj1 (Forall_forall _ _) Hb).
    + apply text_byte_byte. text_ok.
Qed.

(** Two processes, one of them named by a string shorter than its field. *)
Definition proc_named (name : string) (pid prio ticks : Z) (p : proc) : proc :=
  set_p_name (str name ++ replicate (16 - String.length name) 0)
    (set_p_pid pid (set_p_priority prio (set_p_ticks_used ticks (set_p_state RUNNABLE p)))).
Definition table : list proc :=
  [proc_named "init" 1 0 3 proc0; proc_named "sh" 2 1 250 proc0] ++ replicate 62 proc0.
Definition table_rows : list (list Z) := rows table (replicate 28 0).
Definition world2 : world :=
  World ∅ ∅ {[1; 2]}
    (λ _ c, match c with SGetprocinfo => Reply 2 (concat table_rows) | _ => Reply 0 [] end) [].
Lemma monitor_shows_processes_witness :
  ∃ cs, run (Monitor.main 1) world2 = run (Monitor.main 0) (logs cs world2) ∧
    last cs = Some (SSleep 50) ∧
    output 1 cs = heading_text ++
      str "1" ++ [TAB] ++ str "init" ++ [TAB; TAB] ++ str "0" ++ [TAB; TAB] ++ line "3" ++
      str "2" ++ [TAB] ++ str "sh" ++ [TAB; TAB] ++ str "1" ++ [TAB; TAB] ++ line "250".
Proof.
  destruct (monitor_shows_processes 0 table table_rows world2) as (cs & E & Hl & Ho).
  - apply rows_ok. reflexivity.
  - reflexivity.
  - assert (bool_decide (Forall (λ p, Forall (λ c, 0 ≤ c < 256) (p_name p)) table) = true) as H
      by (vm_compute; exact eq_refl).
    exact (bool_decide_eq_true_1 _ H).
  - intros cs. vm_compute. reflexivity.
  - exists cs. split; [exact E|]. split; [exact Hl|]. rewrite Ho. vm_compute. reflexivity.
Defined.
