(* ===== verification/GrepTool.v ===== *)
(** * user/grep.c: the program

    The line buffer of grep and its [main], as a program of system calls.  The bytes of
    [buf] before index [m] are a list; the NUL after them ends the searches. *)
From Stdlib Require Import ZArith Lia.
From stdpp Require Import base list gmap numbers strings.
From S2P Require Import Prelude Machine Bytes State Printk Grep User Ulib Uprintf Tools ToolsSpec.
Local Open Scope Z_scope.

(** ** Definitions *)

(** The inner loop, from [p] to [buf + m]: what is left after the last newline.  Every round
    takes at least one byte, so that one round more than there are bytes is enough. *)
Fixpoint grep_lines (fuel : nat) (pattern p : list Z) : U (list Z) :=
  match fuel with
  | O => OutOfFuel
  | S f =>
      match strchr_nl p with
      | None => mret p
      | Some (l, p') =>
          uwhen (match_ pattern l) (sysv (SWrite 1 (l ++ [NL])) ;; mret tt) ;;
          grep_lines f pattern p'
      end
  end.

(** [buf[m] = 0] needs [m < sizeof(buf)]. *)
Fixpoint grep_loop (fuel : nat) (pattern : list Z) (fd : Z) (m : list Z) : U unit :=
  match fuel with
  | O => OutOfFuel
  | S f =>
      r ← sys (SRead fd (1024 - Z.of_nat (length m) - 1));
      if rv r >? 0 then
        let m := m ++ rbuf r in
        if (length m <? 1024)%nat then
          m ← grep_lines (S (length m)) pattern m;
          grep_loop f pattern fd m
        else Bad "buf"
      else mret tt
  end.
Definition grep (fuel : nat) (pattern : list Z) (fd : Z) : U unit := grep_loop fuel pattern fd [].

Definition main (fuel : nat) (argv : list (list Z)) : U Z :=
  if (length argv <=? 1)%nat then
    fprintf 2 (line "usage: grep pattern [file ...]") [] ;; uexit 1
  else
    let pattern := arg argv 1 in
    if (length argv <=? 2)%nat then grep fuel pattern 0 ;; uexit 0
    else
      ueach (drop 2 argv) (λ a,
        fd ← sysv (SOpen a O_RDONLY);
        if fd <? 0 then printf (line "grep: cannot open %s") [KStr (Some a)] ;; uexit 1
        else grep fuel pattern fd ;; sysv (SClose fd) ;; mret tt) ;;
      uexit 0.

(** ** Lines *)

Definition only1 (out : list Z) (cs : list call) : Prop :=
  ∀ f, output f cs = if f =? 1 then out else [].
Lemma only1_nil : only1 [] [].
Proof. intros f. by destruct (f =? 1). Qed.
Lemma only1_app o1 o2 cs1 cs2 : only1 o1 cs1 → only1 o2 cs2 → only1 (o1 ++ o2) (cs1 ++ cs2).
Proof. intros H1 H2 f. rewrite output_app, H1, H2. by destruct (f =? 1). Qed.
Lemma only1_write bs : only1 bs [SWrite 1 bs].
Proof.
  intros f. destruct (Z.eqb_spec f 1) as [->|]; [apply output_write|by apply output_write_ne].
Qed.
Lemma only1_read fd n : only1 [] [SRead fd n].
Proof. intros f. by destruct (f =? 1). Qed.

Lemma grep_lines_run fuel pattern p tl w :
  plain p → (length p < fuel)%nat → short_lines 0 (p ++ tl) = true →
  ∃ rest out cs, run (grep_lines fuel pattern p) w = (Returns rest, logs cs w) ∧ only1 out cs ∧
    plain rest ∧ no_nl rest ∧
    (length rest ≤ 1022)%nat ∧ short_lines (length rest) tl = true ∧
    matching_lines pattern [] (p ++ tl) = out ++ matching_lines pattern rest tl.
Proof.
  revert p w. induction fuel as [|fuel IH]; intros p w Hp Hf Hs; [lia|]. cbn [grep_lines].
  pose proof (strchr_nl_spec p Hp) as Hsp. destruct (strchr_nl p) as [[a b]|].
  - destruct Hsp as [-> Ha]. rewrite length_app in Hf. cbn in Hf.
    apply Forall_app in Hp as [_ Hp]. apply Forall_cons in Hp as [_ Hb].
    rewrite <- app_assoc in Hs. apply short_lines_app in Hs as [_ Hs]; [|done|lia]. cbn in Hs.
    set (out1 := if match_ pattern a then a ++ [NL] else []).
    assert (∃ cs1, run (uwhen (match_ pattern a) (sysv (SWrite 1 (a ++ [NL])) ;; mret tt)) w =
      (Returns tt, logs cs1 w) ∧ only1 out1 cs1) as (cs1 & E1 & Ho1).
    { unfold out1. destruct (match_ pattern a); [|exists []; by rewrite logs_nil; split; [|apply only1_nil]].
      exists [SWrite 1 (a ++ [NL])]. by split; [|apply only1_write]. }
    destruct (IH b (logs cs1 w) Hb ltac:(lia) Hs) as (rest & out & cs & E & Ho & H1 & H2 & H3 & H4 & H5).
    exists rest, (out1 ++ out), (cs1 ++ cs).
    rewrite (run_bind_returns _ _ _ _ _ E1), E, logs_logs. split_and!; try done; [by apply only1_app|].
    rewrite <- app_assoc, matching_lines_app by done. cbn. by rewrite H5, app_assoc.
  - apply short_lines_app in Hs as [Hl Hs]; [|done|lia]. exists p, [], [].
    rewrite logs_nil. split_and!; try done; [apply only1_nil|]. by rewrite matching_lines_app.
Qed.

(** A file whose lines fit the buffer, without NUL bytes. *)
Definition searchable (fuel : nat) (s : stream) : Prop :=
  plain (s_data s) ∧ short_lines 0 (s_data s) = true ∧ (length (s_data s) < fuel)%nat ∧
  s_fails s = false.

Lemma grep_loop_run fuel pattern fd m s w :
  plain m → no_nl m → (length m ≤ 1022)%nat → w_fds w !! fd = Some s → plain (s_data s) →
  short_lines (length m) (s_data s) = true → (length (s_data s) < fuel)%nat → s_fails s = false →
  ∃ cs s', only1 (matching_lines pattern m (s_data s)) cs ∧
    run (grep_loop fuel pattern fd m) w = (Returns tt, left_at fd s' cs w).
Proof.
  revert m s w. induction fuel as [|fuel IH]; intros m s w Hm Hn Hlen Hs Hp Hsh Hf Hok; [lia|].
  cbn [grep_loop]. set (n := 1024 - Z.of_nat (length m) - 1).
  destruct (decide (s_data s = [])) as [Hd|Hd].
  { rewrite (run_bind_returns _ _ _ _ _ (run_read_end fd n s w Hs Hd)), Hok, Hd. cbn [rv].
    exists [SRead fd n], s. split; [apply only1_read|done]. }
  destruct (run_read fd n s w Hs Hd ltac:(lia)) as (k & s' & Hk & Hl & Hd' & Hf' & Hr).
  rewrite (run_bind_returns _ _ _ _ _ Hr). cbn [rv rbuf].
  rewrite Z.gtb_ltb, (proj2 (Z.ltb_lt 0 _)) by lia. set (r := take k (s_data s)).
  assert (length r = k) as Hrl by (unfold r; rewrite length_take; lia).
  assert (r ++ s_data s' = s_data s) as Er by (rewrite Hd'; apply take_drop).
  rewrite (proj2 (Nat.ltb_lt _ _)) by (rewrite length_app, Hrl; lia).
  destruct (grep_lines_run (S (length (m ++ r))) pattern (m ++ r) (s_data s')
    (left_at fd s' [SRead fd n] w)) as (rest & out & cs & E & Ho & H1 & H2 & H3 & H4 & H5).
  { apply Forall_app. split; [done|]. by apply Forall_take. } { lia. }
  { rewrite <- app_assoc, Er. apply short_lines_app; [done|lia|]. done. }
  rewrite (run_bind_returns _ _ _ _ _ E), logs_left.
  destruct (IH rest s' (left_at fd s' ([SRead fd n] ++ cs) w)) as (cs2 & s2 & Ho2 & E2); try done.
  { apply left_fds. }
  { rewrite Hd'. by apply Forall_drop. }
  { rewrite Hd', length_drop. lia. }
  { by rewrite Hf'. }
  exists (([SRead fd n] ++ cs) ++ cs2), s2. rewrite E2, left_left. split; [|done].
  rewrite <- Er, <- (matching_lines_app pattern [] m) by done. cbn [app]. rewrite app_assoc, H5.
  apply only1_app; [|done]. exact (only1_app [] out _ _ (only1_read fd n) Ho).
Qed.

Definition grep_bad (a : list Z) (fd : Z) : list Z :=
  if fd =? 1 then str "grep: cannot open " ++ a ++ [10] else [].
Definition grep_good (pattern : list Z) (s : stream) (a : list Z) (fd : Z) : list Z :=
  if fd =? 1 then matching_lines pattern [] (s_data s) else [].

Lemma grep_run fuel pattern fd s w :
  searchable fuel s → w_fds w !! fd = Some s →
  ∃ cs s', (∀ f, output f cs = grep_good pattern s [] f) ∧
    run (grep fuel pattern fd) w = (Returns tt, left_at fd s' cs w).
Proof.
  intros (Hp & Hsh & Hf & Hok) Hs.
  by apply grep_loop_run; [constructor|constructor|cbn; lia|..].
Qed.
(** C35: grep works through its files in order and writes exactly the lines that match the
    pattern, however the reads cut a file up, provided its lines fit the buffer and have no
    NUL byte; at a file that cannot be opened it says so and exits with status 1, otherwise
    its status is 0.  Without files it does this for its standard input. *)
Theorem grep_correct fuel prog pattern args w :
  Forall (Forall byte) args → is_Some (fd_free w) →
  (∀ a s, w_files w !! a = Some s → searchable fuel s) →
  (∀ s, w_fds w !! 0 = Some s → searchable fuel s) →
  (args ≠ [] → ∃ cs w',
     run (main fuel (prog :: pattern :: args)) w = (Exits (status (w_files w) args), w') ∧
     w_log w' = w_log w ++ cs ∧
     ∀ f, output f cs = over grep_bad (grep_good pattern) (w_files w) args f) ∧
  (∀ s, w_fds w !! 0 = Some s → ∃ cs w',
     run (main fuel [prog; pattern]) w = (Exits 0, w') ∧
     w_log w' = w_log w ++ cs ∧ ∀ f, output f cs = grep_good pattern s [] f).
Proof.
  intros Hargs Hfd Hok Hok0. split.
  - intros Hne.
    destruct (each_file_run (λ fd _, grep fuel pattern fd)
      (λ a, printf (line "grep: cannot open %s") [KStr (Some a)])
      grep_bad (grep_good pattern) (Forall byte) (searchable fuel) (w_sink w))
      with (args := args) (w := w) as (cs & w' & E & Hl & Ho); try done.
    { intros a w' Ha. apply (run_complain 1 (str "grep: cannot open ")); [text_ok|done]. }
    { intros fd a s w' Ha Hs _ Hw'. destruct Hs as (? & ? & ? & Hf). rewrite Hf. by apply grep_run. }
    exists cs, w'. split; [|done]. unfold main. by destruct args.
  - intros s Hs. destruct (grep_run fuel pattern 0 s w) as (cs & s' & Ho & E); [by apply Hok0|done|].
    exists cs, (left_at 0 s' cs w). split; [|done]. cbn [main length Nat.leb]. unfold main.
    cbn [length Nat.leb arg]. by rewrite (run_bind_returns _ _ _ _ _ E).
Qed.

Definition world3 : world :=
  World {[ str "f" := Stream (line "abc" ++ line "b" ++ str "b") [1%nat; 3%nat] false ]} ∅ {[1; 2]}
    (λ _ _, Reply (-1) []) [].
Lemma grep_correct_witness :
  ∃ cs w',
    run (main 20 [str "grep"; str "^b*$"; str "f"; str "g"]) world3 = (Exits 1, w') ∧
    w_log w' = w_log world3 ++ cs ∧
    output 1 cs = line "b" ++ line "grep: cannot open g".
Proof.
  assert (∀ a s, w_files world3 !! a = Some s → searchable 20 s) as Hok.
  { intros a s H. unfold world3, w_files in H. apply lookup_singleton_Some in H as [_ <-].
    split; [apply (bool_decide_unpack _); vm_compute; exact I|].
    split; [vm_compute; reflexivity|]. split; [cbn; lia|reflexivity]. }
  assert (∀ s, w_fds world3 !! 0 = Some s → searchable 20 s) as Hok0 by done.
  destruct (proj1 (grep_correct 20 (str "grep") (str "^b*$") [str "f"; str "g"] world3
    ltac:(apply (bool_decide_unpack _); vm_compute; exact I) ltac:(eexists; vm_compute; reflexivity)
    Hok Hok0) ltac:(done)) as (cs & w' & E & Hl & Ho).
  exists cs, w'. split; [|split; [exact Hl|]].
  - rewrite E. vm_compute. reflexivity.
  - rewrite (Ho 1). vm_compute. reflexivity.
Defined.
