(* ===== verification/Mkfs.v ===== *)
(** * mkfs/mkfs.c

    The program that builds the first file system, on the host.  The image is its blocks:
    the host's [lseek], [read] and [write] of the image succeed inside it, and a read of a
    block past its end gets fewer bytes than asked for.  A [struct dinode] in memory is the
    part of [inode] that is on the disk; [xint] and [xshort], which give a number the bytes
    it has on the disk, are [le_bytes], and [ldl] where the program reads a number back.
    What the program prints is left out. *)
From Stdlib Require Import ZArith Lia.
From stdpp Require Import base list gmap numbers strings.
From S2P Require Import Prelude Machine KString Bytes State DiskIo Virtio Cache Log Fs.
Local Open Scope Z_scope.
Local Open Scope kernel_scope.

(** ** Definitions *)

Definition NINODES : Z := 200.
Definition nbitmap : Z := FSSIZE / BPB + 1.
Definition ninodeblocks : Z := NINODES / IPB + 1.
Definition nlog : Z := LOGBLOCKS + 1.
Definition nmeta : Z := 2 + nlog + ninodeblocks + nbitmap.
Definition nblocks : Z := FSSIZE - nmeta.
Definition sb : superblock :=
  mkSb FSMAGIC FSSIZE nblocks NINODES nlog 2 (2 + nlog) (2 + nlog + ninodeblocks).

(** The variables of the program. *)
Record mk := Mk { img : gmap Z (list Z); freeinode : Z; freeblock : Z }.
Definition set_img (i : gmap Z (list Z)) (s : mk) : mk := Mk i (freeinode s) (freeblock s).

Definition xshort (x : Z) : list Z := le_bytes 2 x.
Definition xint (x : Z) : list Z := le_bytes 4 x.
Definition die {A} (msg : string) : M mk A := panic msg.
Definition assert (b : bool) : M mk unit := whenM (negb b) (panic "assert").

Definition wsect (sec : Z) (buf : list Z) : M mk unit :=
  modify (λ s, set_img (<[sec := buf]> (img s)) s).
Definition rsect (sec : Z) : M mk (list Z) :=
  d ← gets (λ s, img s !! sec);
  match d with Some d => ret d | None => die "read" end.

Definition winode (inum : Z) (ip : inode) : M mk unit :=
  let bn := IBLOCK inum sb in
  buf ← rsect bn;
  wsect bn (put_dinode ip buf (di_off inum)).
Definition rinode (inum : Z) : M mk inode :=
  buf ← rsect (IBLOCK inum sb);
  ret (get_dinode buf (di_off inum) inode0).

Definition ialloc (type : Z) : M mk Z :=
  inum ← gets freeinode;
  modify (λ s, Mk (img s) (u32 (freeinode s + 1)) (freeblock s)) ;;
  winode inum (set_i_nlink 1 (set_i_type type inode0)) ;;
  ret inum.

(** [freeblock++] *)
Definition next_block : M mk Z :=
  b ← gets freeblock;
  modify (λ s, Mk (img s) (freeinode s) (u32 (freeblock s + 1))) ;;
  ret b.

Definition set_bit (buf : list Z) (i : Z) : list Z :=
  let k := Z.to_nat (i / 8) in
  <[k := u8 (Z.lor (nth k buf 0) (Z.shiftl 1 (i mod 8)))]> buf.
Definition balloc (used : Z) : M mk unit :=
  assert (used <? BPB) ;;
  wsect (sb_bmapstart sb) (foldl set_bit (replicate 1024 0) (upto used)).

(** The block of [din] for block [fbn] of the file, with [din] after it. *)
Definition iappend_map (din : inode) (fbn : Z) : M mk (inode * Z) :=
  if fbn <? NDIRECT then
    if nth (Z.to_nat fbn) (i_addrs din) 0 =? 0 then
      b ← next_block;
      ret (set_i_addrs (<[Z.to_nat fbn := b]> (i_addrs din)) din, b)
    else ret (din, nth (Z.to_nat fbn) (i_addrs din) 0)
  else
    din ← (if nth (Z.to_nat NDIRECT) (i_addrs din) 0 =? 0 then
             b ← next_block; ret (set_i_addrs (<[Z.to_nat NDIRECT := b]> (i_addrs din)) din)
           else ret din);
    let ind := nth (Z.to_nat NDIRECT) (i_addrs din) 0 in
    let off := Z.to_nat (4 * (fbn - NDIRECT)) in
    indirect ← rsect ind;
    if ldl 4 indirect off =? 0 then
      b ← next_block;
      wsect ind (splice indirect off (xint b)) ;;
      ret (din, b)
    else ret (din, ldl 4 indirect off).

(** The loop of [iappend] on the [n] bytes left at [p]; a round takes at least one. *)
Fixpoint iappend_loop (fuel : nat) (din : inode) (off : Z) (p : list Z) : M mk (inode * Z) :=
  match fuel with
  | O => nofuel
  | S f =>
      if (length p =? 0)%nat then ret (din, off)
      else
        let fbn := off / BSIZE in
        assert (fbn <? MAXFILE) ;;
        '(din, x) ← iappend_map din fbn;
        let n1 := Z.to_nat (Z.min (Z.of_nat (length p)) ((fbn + 1) * BSIZE - off)) in
        buf ← rsect x;
        wsect x (splice buf (Z.to_nat (off - fbn * BSIZE)) (take n1 p)) ;;
        iappend_loop f din (u32 (off + Z.of_nat n1)) (drop n1 p)
  end.
Definition iappend (inum : Z) (p : list Z) : M mk unit :=
  din ← rinode inum;
  '(din, off) ← iappend_loop (S (length p)) din (i_size din) p;
  winode inum (set_i_size off din).

(** A [struct dirent]: [bzero], the inode number and [strcpy] or [strncpy] of the name. *)
Definition dirent (inum : Z) (name : list Z) : list Z :=
  xshort inum ++ take DIRSIZ name ++ replicate (DIRSIZ - length name) 0.

(** A file of the command line: its path, and the bytes that each [read] of it gives, if it
    can be opened. *)
Notation hostfile := (prod (list Z) (option (list (list Z)))) (only parsing).

Definition shortname (path : list Z) : list Z :=
  if bool_decide (take 5 path = str "user/") then drop 5 path else path.
Definition add_file (rootino : Z) (f : hostfile) : M mk unit :=
  let name := shortname f.1 in
  assert (bool_decide (47 ∉ name)) ;;
  match f.2 with
  | None => die "open"
  | Some chunks =>
      let name := if nth 0 name 0 =? 95 then drop 1 name else name in
      assert (length name <=? DIRSIZ)%nat ;;
      inum ← ialloc T_FILE;
      iappend rootino (dirent inum name) ;;
      for_each chunks (iappend inum)
  end.

(** The bytes of [sb]. *)
Definition sb_bytes (x : superblock) : list Z :=
  concat (xint <$> [sb_magic x; sb_size x; sb_nblocks x; sb_ninodes x; sb_nlog x; sb_logstart x;
                    sb_inodestart x; sb_bmapstart x]).

Definition fix_root (rootino : Z) : M mk unit :=
  din ← rinode rootino;
  winode rootino (set_i_size (u32 ((i_size din / BSIZE + 1) * BSIZE)) din).

(** The variables when [main] starts; [freeblock] is set by it.  [image] says whether the name
    of the image is given, and whether it can be opened. *)
Definition mk0 : mk := Mk ∅ 1 0.
Definition main (image : option bool) (files : list hostfile) : M mk unit :=
  match image with
  | None => panic "Usage: mkfs fs.img files..."
  | Some false => die "open"
  | Some true =>
      modify (λ s, Mk (img s) (freeinode s) nmeta) ;;
      for_each (upto FSSIZE) (λ i, wsect i (replicate 1024 0)) ;;
      wsect 1 (splice (replicate 1024 0) 0 (sb_bytes sb)) ;;
      rootino ← ialloc T_DIR;
      assert (rootino =? ROOTINO) ;;
      iappend rootino (dirent rootino (str ".")) ;;
      iappend rootino (dirent rootino (str "..")) ;;
      for_each files (add_file rootino) ;;
      fix_root rootino ;;
      b ← gets freeblock;
      balloc b
  end.
