(* ===== verification/MkfsSpec.v ===== *)
(** * The file system that mkfs builds

    A description of the files on the image, with the blocks each of them owns, is an
    invariant of mkfs; in the end it gives the view of the image that the kernel's
    theorems on files (FileWrite.v, Inode.v) start from. *)
From Stdlib Require Import ZArith Lia.
From stdpp Require Import base list gmap numbers strings.
From S2P Require Import Prelude Machine KString Bytes State DiskIo Virtio Cache Log Fs Blocks Inode FileWrite Mkfs.
Local Open Scope Z_scope.
Local Open Scope kernel_scope.

(** ** Files *)

Lemma nmeta_eq : nmeta = 47.
Proof. done. Qed.

Definition zero_block : list Z := replicate 1024 0.
(** Block [i] of the bytes [c], filled up with zeroes. *)
Definition blk_of (c : list Z) (i : nat) : list Z := resize 1024 0 (drop (1024 * i) c).
Definition enc (l : list Z) : list Z := concat (le_bytes 4 <$> l).

(** A file: its type, its bytes, the blocks of the bytes in order and the indirect block. *)
Record mfile := MFile { m_type : Z; m_bytes : list Z; m_blks : list Z; m_ind : Z }.
Definition addrs_of (f : mfile) : list Z := resize 12 0 (m_blks f) ++ [m_ind f].
Definition owned (f : mfile) : list Z :=
  m_blks f ++ if decide (12 < length (m_blks f))%nat then [m_ind f] else [].
Definition inode_of (f : mfile) : inode :=
  set_i_addrs (addrs_of f) (set_i_size (Z.of_nat (length (m_bytes f)))
    (set_i_nlink 1 (set_i_type (m_type f) inode0))).

Record mfile_ok (V : Z → list Z) (f : mfile) : Prop := {
  mf_max : (length (m_blks f) ≤ 268)%nat;
  mf_size : (length (m_bytes f) ≤ 1024 * length (m_blks f))%nat;
  mf_ind0 : (length (m_blks f) ≤ 12)%nat → m_ind f = 0;
  mf_ind : (12 < length (m_blks f))%nat → V (m_ind f) = enc (resize 256 0 (drop 12 (m_blks f)));
  mf_data : ∀ i b, m_blks f !! i = Some b → V b = blk_of (m_bytes f) i;
}.
Definition blocks_of (fs : list mfile) : list Z := fs ≫= owned.

Definition shape (s : mk) : Prop :=
  (∀ b, is_Some (img s !! b) ↔ 0 ≤ b < FSSIZE) ∧ ∀ b d, img s !! b = Some d → length d = 1024%nat.
Definition view (s : mk) : Z → list Z := block_data (img s).

(** The blocks below [freeblock] belong to one file each, those above are zero. *)
Record data_ok (fs : list mfile) (s : mk) : Prop := {
  d_shape : shape s;
  d_free : freeblock s = nmeta + Z.of_nat (length (blocks_of fs));
  d_room : freeblock s ≤ FSSIZE;
  d_nodup : NoDup (blocks_of fs);
  d_range : Forall (λ b, nmeta ≤ b < freeblock s) (blocks_of fs);
  d_zero : ∀ b, freeblock s ≤ b → view s b = zero_block;
  d_files : Forall (mfile_ok (view s)) fs;
}.

(** ** The image *)

Lemma view_some s b d : img s !! b = Some d → view s b = d.
Proof. intros E. unfold view, block_data. by rewrite E. Qed.
Lemma shape_view s b : shape s → 0 ≤ b < FSSIZE → img s !! b = Some (view s b).
Proof.
  intros [Hs _] Hb. apply Hs in Hb as [d E]. by rewrite (view_some _ _ _ E).
Qed.
Lemma shape_len s b : shape s → length (view s b) = 1024%nat.
Proof.
  intros [_ H]. unfold view, block_data. destruct (img s !! b) as [d|] eqn:E; [|done]. by eapply H.
Qed.

Lemma wp_rsect b Q s : shape s → 0 ≤ b < FSSIZE → Q (view s b) s → wp (rsect b) Q s.
Proof.
  intros Hs Hb HQ. unfold rsect. apply wp_bind, wp_gets. rewrite (shape_view s b Hs Hb). by apply wp_ret.
Qed.

(** [s'] is [s] with block [b] replaced, and the counters of [s']. *)
Definition wrote_at (b : Z) (d : list Z) (s s' : mk) : Prop := img s' = <[b := d]> (img s).
Lemma view_write b d s s' c : wrote_at b d s s' → view s' c = if decide (c = b) then d else view s c.
Proof.
  unfold wrote_at, view, block_data. intros ->. case_decide as E.
  - subst. by rewrite lookup_insert_eq.
  - by rewrite lookup_insert_ne by done.
Qed.
Lemma shape_write b d s s' :
  wrote_at b d s s' → shape s → 0 ≤ b < FSSIZE → length d = 1024%nat → shape s'.
Proof.
  unfold wrote_at. intros E [H1 H2] Hb Hd. split.
  - intros c. rewrite E. destruct (decide (c = b)) as [->|Hne].
    + rewrite lookup_insert_eq. split; [done|]. by eexists.
    + rewrite lookup_insert_ne by done. apply H1.
  - intros c x. rewrite E. intros [[<- <-]|[_ Hx]]%lookup_insert_Some; [done|by eapply H2].
Qed.

(** ** Descriptions of blocks *)

Lemma length_blk_of c i : length (blk_of c i) = 1024%nat.
Proof. apply length_resize. Qed.
Lemma lookup_blk_of c i k : (k < 1024)%nat → blk_of c i !! k = Some (nth (1024 * i + k) c 0).
Proof.
  intros Hk. unfold blk_of. rewrite nth_lookup. destruct (decide (k < length (drop (1024 * i) c))%nat) as [Hl|Hl].
  - rewrite lookup_resize by done. rewrite lookup_drop.
    rewrite length_drop in Hl. destruct (lookup_lt_is_Some_2 c (1024 * i + k)%nat) as [x ->]; [lia|done].
  - rewrite lookup_resize_new by lia. rewrite length_drop in Hl.
    by rewrite (proj2 (lookup_ge_None c (1024 * i + k))) by lia.
Qed.
Lemma blk_of_ge c i : (length c ≤ 1024 * i)%nat → blk_of c i = zero_block.
Proof. intros H. unfold blk_of. rewrite drop_ge by done. done. Qed.
Lemma blk_of_app c ch i : (1024 * S i ≤ length c)%nat → blk_of (c ++ ch) i = blk_of c i.
Proof.
  intros H. apply list_eq. intros k. destruct (decide (k < 1024)%nat) as [Hk|Hk].
  - rewrite !lookup_blk_of by done. by rewrite app_nth1 by lia.
  - by rewrite !(proj2 (lookup_ge_None _ _)) by (rewrite length_blk_of; lia).
Qed.
Lemma splice_blk c ch i o :
  length c = (1024 * i + o)%nat → (o + length ch ≤ 1024)%nat →
  splice (blk_of c i) o ch = blk_of (c ++ ch) i.
Proof.
  intros Hc Ho. apply list_eq. intros k. destruct (decide (k < 1024)%nat) as [Hk|Hk].
  - rewrite lookup_splice by (rewrite length_blk_of; lia). rewrite !lookup_blk_of by done.
    case_decide as Hd.
    + rewrite app_nth2 by lia. rewrite nth_lookup.
      replace (1024 * i + k - length c)%nat with (k - o)%nat by lia.
      destruct (lookup_lt_is_Some_2 ch (k - o)) as [x Hx]; [lia|]. by rewrite Hx.
    + f_equal. destruct (decide (k < o)%nat); [by rewrite app_nth1 by lia|].
      rewrite !nth_overflow; [done|rewrite length_app; lia|lia].
  - by rewrite !(proj2 (lookup_ge_None _ _)) by (rewrite ?length_splice, length_blk_of; lia).
Qed.

Lemma length_enc l : length (enc l) = (4 * length l)%nat.
Proof. apply length_concat_le. Qed.
Lemma enc_entry l k : (k < length l)%nat → Forall (λ a, 0 ≤ a < 2 ^ 32) l →
  ldl 4 (enc l) (4 * k) = nth k l 0.
Proof.
  intros Hk Hl. destruct (lookup_lt_is_Some_2 l k Hk) as [x Hx].
  rewrite nth_lookup, Hx. apply ldl_concat; [done|]. exact (proj1 (Forall_lookup _ _) Hl _ _ Hx).
Qed.
Lemma enc_insert l k v : (k < length l)%nat → splice (enc l) (4 * k) (le_bytes 4 v) = enc (<[k := v]> l).
Proof.
  intros Hk. unfold enc. revert k Hk. induction l as [|x l IH]; intros k Hk; [cbn in Hk; lia|].
  destruct k as [|k].
  - done.
  - cbn [fmap list_fmap concat insert list_insert]. rewrite <- IH by (cbn in Hk; lia).
    replace (4 * S k)%nat with (4 + 4 * k)%nat by lia. done.
Qed.

(** ** One file grows *)

Lemma blocks_elem fs i f b : fs !! i = Some f → b ∈ owned f → b ∈ blocks_of fs.
Proof. intros Hi Hb. apply list_elem_of_bind. exists f. split; [done|by eapply list_elem_of_lookup_2]. Qed.
Lemma blocks_disjoint fs i j f g b :
  NoDup (blocks_of fs) → fs !! i = Some f → fs !! j = Some g → b ∈ owned f → b ∈ owned g → i = j.
Proof.
  unfold blocks_of. revert i j. induction fs as [|h fs IH]; intros i j Hnd Hi Hj Hf Hg; [done|].
  rewrite bind_cons in Hnd. apply NoDup_app in Hnd as (_ & Hd & Hnd).
  destruct i as [|i], j as [|j]; cbn in Hi, Hj; [done| | |].
  - injection Hi as <-. destruct (Hd b Hf). by eapply blocks_elem.
  - injection Hj as <-. destruct (Hd b Hg). by eapply blocks_elem.
  - f_equal. by eapply IH.
Qed.
Lemma blocks_insert fs j f f' new :
  fs !! j = Some f → owned f' ≡ₚ owned f ++ new → blocks_of (<[j := f']> fs) ≡ₚ blocks_of fs ++ new.
Proof.
  intros Hj Ho. pose proof (lookup_lt_Some _ _ _ Hj). unfold blocks_of.
  rewrite <- (take_drop_middle fs j f Hj) at 2. rewrite insert_take_drop by done.
  rewrite !bind_app, !bind_cons, Ho. solve_Permutation.
Qed.
Lemma mfile_frame V V' f : mfile_ok V f → (∀ b, b ∈ owned f → V' b = V b) → mfile_ok V' f.
Proof.
  intros [H1 H2 H3 H4 H5] Hv. split; try done.
  - intros Hl. rewrite Hv; [by apply H4|]. unfold owned. rewrite decide_True by done.
    apply elem_of_app. right. by left.
  - intros i b Hb. rewrite Hv; [by apply H5|]. unfold owned. apply elem_of_app. left.
    by eapply list_elem_of_lookup_2.
Qed.

Lemma data_grow fs s j f f' new s' :
  data_ok fs s → fs !! j = Some f → owned f' ≡ₚ owned f ++ new → NoDup new →
  Forall (λ b, freeblock s ≤ b < freeblock s') new →
  freeblock s' = freeblock s + Z.of_nat (length new) → freeblock s' ≤ FSSIZE → shape s' →
  (∀ b, b ∉ owned f' → view s' b = view s b) → mfile_ok (view s') f' →
  data_ok (<[j := f']> fs) s'.
Proof.
  intros [Hsh Hfr Hroom Hnd Hrg Hz Hfs] Hj Ho Hnew Hrn Hfr' Hroom' Hsh' Hv Hf'.
  pose proof (blocks_insert fs j f f' new Hj Ho) as Hp.
  assert (NoDup (blocks_of (<[j := f']> fs))) as Hnd'.
  { rewrite Hp. apply NoDup_app. split_and!; [done| |done]. intros b Hb Hb2.
    rewrite Forall_forall in Hrg, Hrn. specialize (Hrg b Hb). specialize (Hrn b Hb2). lia. }
  split; try done.
  - rewrite Hp, length_app. lia.
  - rewrite Hp. apply Forall_app. split.
    + eapply Forall_impl; [exact Hrg|]. cbn beta. intros b ?. lia.
    + eapply Forall_impl; [exact Hrn|]. cbn beta. intros b ?. lia.
  - intros b Hb. rewrite Hv; [apply Hz; lia|]. rewrite Ho. intros [Hb'|Hb']%elem_of_app.
    + rewrite Forall_forall in Hrg. specialize (Hrg b (blocks_elem _ _ _ _ Hj Hb')). lia.
    + rewrite Forall_forall in Hrn. specialize (Hrn b Hb'). lia.
  - apply Forall_lookup. intros i g Hi. destruct (decide (i = j)) as [->|Hne].
    + rewrite list_lookup_insert_eq in Hi by (by eapply lookup_lt_Some). by injection Hi as <-.
    + pose proof Hi as Hi'. rewrite list_lookup_insert_ne in Hi' by done.
      apply (mfile_frame (view s)); [by eapply Forall_lookup_1 in Hfs|].
      intros b Hb. apply Hv. intros Hb'. apply Hne.
      eapply (blocks_disjoint (<[j := f']> fs)); try done.
      apply list_lookup_insert_eq. by eapply lookup_lt_Some.
Qed.

(** A write below the data blocks. *)
Lemma data_ok_meta fs s s' :
  data_ok fs s → freeblock s' = freeblock s → shape s' →
  (∀ b, nmeta ≤ b → view s' b = view s b) → data_ok fs s'.
Proof.
  intros [Hsh Hfr Hroom Hnd Hrg Hz Hfs] Hf Hsh' Hv. split; try (by rewrite Hf); try done.
  - intros b Hb. rewrite Hv; [apply Hz|]; lia.
  - apply Forall_lookup. intros i g Hi. apply (mfile_frame (view s)); [by eapply Forall_lookup_1 in Hfs|].
    intros b Hb. apply Hv. rewrite Forall_forall in Hrg. specialize (Hrg b (blocks_elem _ _ _ _ Hi Hb)). lia.
Qed.

(** ** The blocks of a file *)

Lemma nth_resize n (l : list Z) k : (k < n)%nat → nth k (resize n 0 l) 0 = nth k l 0.
Proof.
  intros Hk. rewrite !nth_lookup. destruct (decide (k < length l)%nat).
  - by rewrite lookup_resize.
  - rewrite lookup_resize_new by lia. by rewrite (proj2 (lookup_ge_None l k)) by lia.
Qed.
Lemma resize_snoc n (l : list Z) b :
  (length l < n)%nat → resize n 0 (l ++ [b]) = <[length l := b]> (resize n 0 l).
Proof.
  intros Hl. rewrite !resize_ge by (rewrite ?length_app; cbn; lia). rewrite length_app. cbn [length].
  replace (n - length l)%nat with (S (n - (length l + 1)))%nat by lia. cbn [replicate].
  rewrite insert_app_r_alt, Nat.sub_diag by lia. cbn. by rewrite <- app_assoc.
Qed.
Lemma addrs_direct f k : (k < 12)%nat → nth k (addrs_of f) 0 = nth k (m_blks f) 0.
Proof.
  intros Hk. unfold addrs_of. rewrite app_nth1 by (rewrite length_resize; lia). by apply nth_resize.
Qed.
Lemma addrs_ind f : nth 12 (addrs_of f) 0 = m_ind f.
Proof. unfold addrs_of. rewrite app_nth2 by (rewrite length_resize; lia). by rewrite length_resize. Qed.
Lemma length_addrs f : length (addrs_of f) = 13%nat.
Proof. unfold addrs_of. rewrite length_app, length_resize. done. Qed.

Section file.
Context fs s j f (Hd : data_ok fs s) (Hj : fs !! j = Some f).
Lemma owned_range b : b ∈ owned f → nmeta ≤ b < freeblock s.
Proof using Hd Hj. intros Hb. apply (proj1 (Forall_forall _ _) (d_range _ _ Hd)). by eapply blocks_elem. Qed.
Lemma owned_nodup : NoDup (owned f).
Proof using Hd Hj.
  pose proof (d_nodup _ _ Hd) as Hn. unfold blocks_of in Hn.
  rewrite <- (take_drop_middle fs j f Hj), bind_app, bind_cons in Hn.
  apply NoDup_app in Hn as (_ & _ & Hn). by apply NoDup_app in Hn as (Hn & _).
Qed.
Lemma blks_range : Forall (λ a, nmeta ≤ a < freeblock s) (m_blks f).
Proof using Hd Hj. apply Forall_forall. intros b Hb. apply owned_range, elem_of_app. by left. Qed.
Lemma file_desc : mfile_ok (view s) f.
Proof using Hd Hj. pose proof (d_files _ _ Hd) as H. by eapply Forall_lookup_1 in H. Qed.
Lemma ind_range : (12 < length (m_blks f))%nat → nmeta ≤ m_ind f < freeblock s ∧ m_ind f ∉ m_blks f.
Proof using Hd Hj.
  intros Hl. pose proof owned_nodup as Hn. pose proof (owned_range (m_ind f)) as Hr.
  unfold owned in *. rewrite decide_True in Hn, Hr by done. split; [apply Hr, elem_of_app; right; by left|].
  apply NoDup_app in Hn as (_ & Hn & _). intros Hb. apply (Hn _ Hb). by left.
Qed.
Lemma entries_range k :
  Forall (λ a, 0 ≤ a < 2 ^ 32) (resize 256 0 (drop k (m_blks f))).
Proof using Hd Hj.
  apply Forall_resize; [lia|]. apply Forall_drop. eapply Forall_impl; [apply blks_range|]. cbn beta.
  pose proof (d_room _ _ Hd). pose proof nmeta_eq. unfold FSSIZE in *. intros b Hb. lia.
Qed.
Lemma entry_ind k : (12 < length (m_blks f))%nat → (k < 256)%nat →
  ldl 4 (view s (m_ind f)) (4 * k) = nth (12 + k) (m_blks f) 0.
Proof using Hd Hj.
  intros Hl Hk. rewrite (mf_ind _ _ file_desc Hl), enc_entry; [|by rewrite length_resize|apply entries_range].
  rewrite nth_resize by done. rewrite !nth_lookup, lookup_drop. done.
Qed.
Lemma blk_nonzero k b : m_blks f !! k = Some b → b ≠ 0 ∧ 0 ≤ b < FSSIZE.
Proof using Hd Hj.
  intros Hb. pose proof blks_range as Hr. eapply Forall_lookup_1 in Hr; [|done].
  pose proof (d_room _ _ Hd). pose proof nmeta_eq. unfold FSSIZE in *. cbn beta in Hr. lia.
Qed.
End file.

Lemma wp_next_block Q s :
  0 ≤ freeblock s < 2 ^ 32 - 1 → Q (freeblock s) (Mk (img s) (freeinode s) (freeblock s + 1)) →
  wp next_block Q s.
Proof.
  intros Hb HQ. unfold next_block. apply wp_bind, wp_gets, wp_bind, wp_modify, wp_ret.
  by rewrite u32_small by lia.
Qed.

(** The outcome of [iappend_map]: file [j] has block [fbn], its number is the result. *)
Record mapped_to fs j f (din : inode) (fbn : nat) s (r : inode * Z) s' f' : Prop := {
  mt_data : data_ok (<[j := f']> fs) s';
  mt_bytes : m_bytes f' = m_bytes f;
  mt_type : m_type f' = m_type f;
  mt_len : length (m_blks f') = S fbn;
  mt_blk : m_blks f' !! fbn = Some r.2;
  mt_din : r.1 = set_i_addrs (addrs_of f') din;
  mt_inode : freeinode s' = freeinode s;
  mt_meta : ∀ b, b < nmeta → view s' b = view s b;
}.
Definition extend (f : mfile) (b ind : Z) : mfile := MFile (m_type f) (m_bytes f) (m_blks f ++ [b]) ind.

Section map.
Context fs s j f din (Hd : data_ok fs s) (Hj : fs !! j = Some f) (Ha : i_addrs din = addrs_of f).
Context (fbn : nat) (Hmax : (fbn < 268)%nat).

Lemma set_addrs_same : set_i_addrs (addrs_of f) din = din.
Proof using Ha. rewrite <- Ha. by destruct din. Qed.

(** The file has the block. *)
Lemma wp_map_found Q :
  length (m_blks f) = S fbn →
  (∀ r f', mapped_to fs j f din fbn s r s f' → Q r s) → wp (iappend_map din (Z.of_nat fbn)) Q s.
Proof using Hd Hj Ha Hmax.
  intros Hl HQ. destruct (lookup_lt_is_Some_2 (m_blks f) fbn) as [x Hx]; [lia|].
  destruct (blk_nonzero fs s j f Hd Hj fbn x Hx) as [Hx0 _].
  assert (nth fbn (m_blks f) 0 = x) as Hn by (rewrite nth_lookup; by rewrite Hx).
  assert (Q (din, x) s) as Hq.
  { apply (HQ _ f). split; try done; [by rewrite list_insert_id|by rewrite set_addrs_same]. }
  unfold iappend_map, NDIRECT. change (Z.to_nat 12) with 12%nat. rewrite Nat2Z.id, Ha, addrs_ind.
  destruct (Z.ltb_spec (Z.of_nat fbn) 12).
  - rewrite addrs_direct by lia. rewrite Hn, (proj2 (Z.eqb_neq _ _) Hx0). by apply wp_ret.
  - assert (12 < length (m_blks f))%nat as H12 by lia.
    destruct (ind_range fs s j f Hd Hj H12) as [Hi _]. pose proof nmeta_eq.
    pose proof (d_room _ _ Hd). rewrite (proj2 (Z.eqb_neq (m_ind f) 0)) by lia.
    apply wp_bind, wp_ret, wp_bind. rewrite Ha, addrs_ind. apply wp_rsect; [apply Hd|lia|].
    replace (Z.to_nat (4 * (Z.of_nat fbn - 12))) with (4 * (fbn - 12))%nat by lia.
    rewrite (entry_ind fs s j f Hd Hj (fbn - 12) H12) by lia.
    replace (12 + (fbn - 12))%nat with fbn by lia.
    rewrite Hn, (proj2 (Z.eqb_neq _ _) Hx0). by apply wp_ret.
Qed.

Context (Hlen : length (m_blks f) = fbn) (Hend : (length (m_bytes f) ≤ 1024 * fbn)%nat).

(** Data blocks of the file with a fresh, zero block at its end. *)
Lemma extend_data (V' : Z → list Z) b :
  freeblock s ≤ b → V' b = view s b → (∀ x, x ∈ m_blks f → V' x = view s x) →
  ∀ i x, (m_blks f ++ [b]) !! i = Some x → V' x = blk_of (m_bytes f) i.
Proof using Hd Hj Hmax Hlen Hend.
  intros Hb Hv Hold i x [Hx|[Hi Hx]]%lookup_app_Some.
  - rewrite Hold by (by eapply list_elem_of_lookup_2). by apply (mf_data _ _ (file_desc fs s j f Hd Hj)).
  - apply list_lookup_singleton_Some in Hx as [Hi0 <-]. rewrite Hv, (d_zero _ _ Hd) by done.
    by rewrite blk_of_ge by lia.
Qed.
Lemma free_not_owned x b : x ∈ owned f → freeblock s ≤ b → x ≠ b.
Proof using Hd Hj. clear Hmax Hlen Hend. intros Hx%(owned_range fs s j f Hd Hj) Hb. lia. Qed.

(** A new direct block. *)
Lemma wp_map_direct Q :
  (fbn < 12)%nat → freeblock s + 1 ≤ FSSIZE →
  (∀ r s' f', mapped_to fs j f din fbn s r s' f' → Q r s') → wp (iappend_map din (Z.of_nat fbn)) Q s.
Proof using Hd Hj Ha Hmax Hlen Hend.
  intros H12 Hroom HQ. pose proof (file_desc fs s j f Hd Hj) as [M1 M2 M3 M4 M5].
  pose proof nmeta_eq. pose proof (d_free _ _ Hd) as Hfree. unfold FSSIZE in *.
  unfold iappend_map, NDIRECT. rewrite Nat2Z.id, Ha.
  destruct (Z.ltb_spec (Z.of_nat fbn) 12); [|lia].
  rewrite addrs_direct, nth_overflow by lia. cbn [Z.eqb].
  apply wp_bind, wp_next_block; [lia|]. apply wp_ret. set (b := freeblock s) in *.
  apply (HQ _ _ (extend f b 0)). specialize (M3 ltac:(lia)). split; cbn [extend m_bytes m_type m_blks fst snd]; try done.
  - assert (owned (extend f b 0) = owned f ++ [b]) as Eo.
    { unfold owned. cbn [extend m_blks]. rewrite length_app. cbn [length].
      rewrite !decide_False by lia. by rewrite !app_nil_r. }
    apply (data_grow fs s j f _ [b]); try done; cbn [freeblock length].
    + by rewrite Eo.
    + apply NoDup_singleton.
    + apply Forall_singleton. lia.
    + split; apply Hd.
    + split; cbn [extend m_blks m_bytes m_ind]; rewrite ?length_app; cbn [length]; try lia.
      by apply extend_data.
  - rewrite length_app. cbn. lia.
  - rewrite lookup_app_r, Hlen, Nat.sub_diag by lia. done.
  - f_equal. unfold addrs_of. cbn [extend m_blks m_ind]. rewrite resize_snoc, Hlen by lia.
    rewrite insert_app_l by (rewrite length_resize; lia). by rewrite M3.
Qed.

(** The first block behind the indirect block. *)
Lemma wp_map_indirect Q :
  fbn = 12%nat → freeblock s + 2 ≤ FSSIZE →
  (∀ r s' f', mapped_to fs j f din fbn s r s' f' → Q r s') → wp (iappend_map din (Z.of_nat fbn)) Q s.
Proof using Hd Hj Ha Hmax Hlen Hend.
  intros H12 Hroom HQ. pose proof (file_desc fs s j f Hd Hj) as [M1 M2 M3 M4 M5].
  pose proof nmeta_eq. pose proof (d_free _ _ Hd) as Hfree. unfold FSSIZE in *.
  specialize (M3 ltac:(lia)). unfold iappend_map, NDIRECT. change (Z.to_nat 12) with 12%nat.
  destruct (Z.ltb_spec (Z.of_nat fbn) 12); [lia|]. rewrite Ha, addrs_ind, M3. cbn [Z.eqb].
  apply wp_bind, wp_bind, wp_next_block; [lia|]. set (d := freeblock s) in *. apply wp_ret.
  set (s1 := Mk _ _ (d + 1)). cbn [set_i_addrs i_addrs].
  assert (nth 12 (<[12%nat := d]> (addrs_of f)) 0 = d) as ->.
  { rewrite nth_lookup, list_lookup_insert_eq by (rewrite length_addrs; lia). done. }
  assert (view s1 d = zero_block) as Ez by (change (view s1 d) with (view s d); apply Hd; lia).
  apply wp_bind, wp_rsect; [split; apply Hd|unfold FSSIZE; lia|]. rewrite Ez.
  replace (Z.to_nat (4 * (Z.of_nat fbn - 12))) with 0%nat by lia.
  change (ldl 4 zero_block 0) with 0. cbn [Z.eqb].
  apply wp_bind, wp_next_block; [cbn [s1 freeblock]; lia|]. cbn [s1 freeblock img freeinode].
  apply wp_bind. unfold wsect. apply wp_modify. apply wp_ret.
  set (b := d + 1). set (s2 := set_img _ _).
  assert (wrote_at d (splice zero_block 0 (xint b)) s s2) as Hw by done.
  apply (HQ _ _ (extend f b d)). split; cbn [extend m_bytes m_type m_blks fst snd]; try done.
  - assert (owned (extend f b d) = owned f ++ [b; d]) as Eo.
    { unfold owned. cbn [extend m_blks m_ind]. rewrite length_app. cbn [length].
      rewrite decide_True, decide_False by lia. by rewrite app_nil_r, <- app_assoc. }
    apply (data_grow fs s j f _ [b; d]); try done; cbn [s2 set_img freeblock length].
    + by rewrite Eo.
    + apply NoDup_cons. split; [rewrite list_elem_of_singleton; lia|apply NoDup_singleton].
    + rewrite !Forall_cons, Forall_nil. lia.
    + lia.
    + unfold FSSIZE. lia.
    + eapply shape_write; [exact Hw|apply Hd|unfold FSSIZE; lia|by rewrite length_splice].
    + intros x Hx. rewrite (view_write _ _ _ _ _ Hw). rewrite decide_False; [done|].
      intros ->. apply Hx. rewrite Eo. apply elem_of_app. right. right. by left.
    + split; cbn [extend m_blks m_bytes m_ind]; rewrite ?length_app; cbn [length]; try lia.
      * intros _. rewrite (view_write _ _ _ _ _ Hw), decide_True by done.
        rewrite drop_app_length' by lia. change zero_block with (enc (replicate 256 0)).
        exact (enc_insert (replicate 256 0) 0 b ltac:(rewrite length_replicate; lia)).
      * apply extend_data; [lia| |].
        -- rewrite (view_write _ _ _ _ _ Hw), decide_False by lia. done.
        -- intros x Hx. rewrite (view_write _ _ _ _ _ Hw), decide_False; [done|].
           apply free_not_owned; [|lia]. apply elem_of_app. by left.
  - rewrite length_app. cbn. lia.
  - rewrite lookup_app_r, Hlen, Nat.sub_diag by lia. done.
  - unfold set_i_addrs. cbn. f_equal. unfold addrs_of. cbn [extend m_blks m_ind].
    rewrite insert_app_r_alt, length_resize by (rewrite length_resize; lia). cbn. f_equal.
    rewrite !resize_le by (rewrite ?length_app; lia). by rewrite take_app_le by lia.
  - intros x Hx. rewrite (view_write _ _ _ _ _ Hw), decide_False by lia. done.
Qed.

(** A further block behind the indirect block. *)
Lemma wp_map_entry Q :
  (12 < fbn)%nat → freeblock s + 1 ≤ FSSIZE →
  (∀ r s' f', mapped_to fs j f din fbn s r s' f' → Q r s') → wp (iappend_map din (Z.of_nat fbn)) Q s.
Proof using Hd Hj Ha Hmax Hlen Hend.
  intros H12 Hroom HQ. pose proof (file_desc fs s j f Hd Hj) as [M1 M2 M3 M4 M5].
  pose proof nmeta_eq. pose proof (d_free _ _ Hd) as Hfree. unfold FSSIZE in *.
  assert (12 < length (m_blks f))%nat as H12' by lia. specialize (M4 H12').
  destruct (ind_range fs s j f Hd Hj H12') as [Hi Hni]. set (d := m_ind f) in *.
  unfold iappend_map, NDIRECT. change (Z.to_nat 12) with 12%nat.
  destruct (Z.ltb_spec (Z.of_nat fbn) 12); [lia|]. rewrite Ha, addrs_ind. fold d.
  rewrite (proj2 (Z.eqb_neq d 0)) by lia. apply wp_bind, wp_ret, wp_bind. rewrite Ha, addrs_ind. fold d.
  apply wp_rsect; [apply Hd|unfold FSSIZE; lia|].
  replace (Z.to_nat (4 * (Z.of_nat fbn - 12))) with (4 * (fbn - 12))%nat by lia. unfold d at 1.
  rewrite (entry_ind fs s j f Hd Hj (fbn - 12) H12') by lia.
  rewrite nth_overflow by lia. cbn [Z.eqb]. apply wp_bind, wp_next_block; [lia|].
  apply wp_bind. unfold wsect. apply wp_modify, wp_ret. set (b := freeblock s) in *. set (s2 := set_img _ _).
  assert (wrote_at d (splice (view s d) (4 * (fbn - 12)) (xint b)) s s2) as Hw by done.
  apply (HQ _ _ (extend f b d)). split; cbn [extend m_bytes m_type m_blks fst snd]; try done.
  - assert (owned (extend f b d) ≡ₚ owned f ++ [b]) as Eo.
    { unfold owned. cbn [extend m_blks m_ind]. rewrite length_app. cbn [length].
      rewrite !decide_True by lia. fold d. solve_Permutation. }
    assert (d ∈ owned (extend f b d)) as Hdo.
    { unfold owned. cbn [extend m_blks m_ind]. rewrite length_app, decide_True by (cbn; lia).
      apply elem_of_app. right. by left. }
    apply (data_grow fs s j f _ [b]); try done; cbn [s2 set_img freeblock length].
    + apply NoDup_singleton.
    + apply Forall_singleton. lia.
    + eapply shape_write; [exact Hw|apply Hd|unfold FSSIZE; lia|]. rewrite length_splice. apply shape_len, Hd.
    + intros x Hx. rewrite (view_write _ _ _ _ _ Hw). rewrite decide_False; [done|]. by intros ->.
    + split; cbn [extend m_blks m_bytes m_ind]; rewrite ?length_app; cbn [length]; try lia.
      * intros _. rewrite (view_write _ _ _ _ _ Hw), decide_True, M4 by done.
        unfold xint. rewrite enc_insert by (rewrite length_resize; lia). f_equal.
        rewrite drop_app_le by lia. rewrite resize_snoc by (rewrite length_drop; lia).
        by rewrite length_drop, Hlen.
      * apply extend_data; [lia| |].
        -- rewrite (view_write _ _ _ _ _ Hw), decide_False by lia. done.
        -- intros x Hx. rewrite (view_write _ _ _ _ _ Hw), decide_False; [done|]. by intros ->.
  - rewrite length_app. cbn. lia.
  - rewrite lookup_app_r, Hlen, Nat.sub_diag by lia. done.
  - transitivity (set_i_addrs (addrs_of f) din); [by rewrite set_addrs_same|]. f_equal. unfold addrs_of.
    cbn [extend m_blks m_ind]. rewrite !resize_le by (rewrite ?length_app; lia).
    by rewrite take_app_le by lia.
  - intros x Hx. rewrite (view_write _ _ _ _ _ Hw), decide_False by lia. done.
Qed.
End map.

(** ** Sizes *)

(** The data blocks of a file of [n] bytes, and all its blocks. *)
Definition nblk (n : nat) : nat := (n + 1023) / 1024.
Definition cost (n : nat) : nat := nblk n + if decide (12 < nblk n)%nat then 1 else 0.
(** The file has exactly the blocks its bytes need. *)
Definition exact_blks (f : mfile) : Prop := length (m_blks f) = nblk (length (m_bytes f)).

Lemma length_owned f : exact_blks f → length (owned f) = cost (length (m_bytes f)).
Proof.
  intros Hx. unfold owned, cost. rewrite length_app, Hx. f_equal. by case_decide.
Qed.
Lemma nblk_mono n m : (n ≤ m)%nat → (nblk n ≤ nblk m)%nat.
Proof. intros. apply Nat.Div0.div_le_mono. lia. Qed.
Lemma cost_mono n m : (n ≤ m)%nat → (cost n ≤ cost m)%nat.
Proof. intros H%nblk_mono. unfold cost. repeat case_decide; lia. Qed.

Lemma nblk_at n : let k := (n / 1024)%nat in
  nblk n = k ∧ n = (1024 * k)%nat ∨ nblk n = S k ∧ (1024 * k < n < 1024 * S k)%nat.
Proof.
  unfold nblk. cbv zeta. pose proof (Nat.div_mod_eq n 1024). pose proof (Nat.mod_upper_bound n 1024).
  set (k := (n / 1024)%nat) in *. destruct (decide (n mod 1024 = 0)%nat) as [E|E].
  - left. split; [|lia]. symmetry. apply (Nat.div_unique _ _ _ 1023); lia.
  - right. split; [|lia]. symmetry. apply (Nat.div_unique _ _ _ (n mod 1024 - 1)); lia.
Qed.
Lemma nblk_in n k : (1024 * k < n ≤ 1024 * S k)%nat → nblk n = S k.
Proof. intros H. unfold nblk. symmetry. apply (Nat.div_unique _ _ _ (n - 1024 * k - 1)); lia. Qed.

Lemma blocks_length fs j f f' :
  fs !! j = Some f →
  (length (blocks_of (<[j := f']> fs)) + length (owned f) = length (blocks_of fs) + length (owned f'))%nat.
Proof.
  intros Hj. pose proof (lookup_lt_Some _ _ _ Hj). unfold blocks_of.
  rewrite <- (take_drop_middle fs j f Hj) at 2. rewrite insert_take_drop by done.
  rewrite !bind_app, !bind_cons, !length_app. lia.
Qed.

(** ** Appending to a file *)

Definition same_meta (s s' : mk) : Prop :=
  freeinode s' = freeinode s ∧ ∀ b, b < nmeta → view s' b = view s b.
Lemma same_meta_trans s1 s2 s3 : same_meta s1 s2 → same_meta s2 s3 → same_meta s1 s3.
Proof. intros [E1 H1] [E2 H2]. split; [congruence|]. intros b Hb. by rewrite H2, H1. Qed.

(** The bytes left fit on the image. *)
Definition room (f : mfile) (s : mk) (n : nat) : Prop :=
  freeblock s - Z.of_nat (length (owned f)) + Z.of_nat (cost n) ≤ FSSIZE.

Lemma wp_map fs s j f din Q n :
  data_ok fs s → fs !! j = Some f → i_addrs din = addrs_of f → exact_blks f →
  let off := length (m_bytes f) in
  (off < n ≤ 268 * 1024)%nat → room f s n →
  (∀ r s' f', mapped_to fs j f din (off / 1024) s r s' f' → Q r s') →
  wp (iappend_map din (Z.of_nat (off / 1024))) Q s.
Proof.
  intros Hd Hj Ha Hx off Hn Hroom HQ. set (k := (off / 1024)%nat).
  pose proof (nblk_at off) as Hat. cbv zeta in Hat. fold k in Hat.
  assert (k < 268)%nat as Hk by lia. unfold room in Hroom. rewrite length_owned in Hroom by done. fold off in Hroom.
  assert (cost (off + 1) ≤ cost n)%nat as Hc by (apply cost_mono; lia).
  assert (nblk (off + 1) = S k) as E1 by (apply nblk_in; lia).
  unfold exact_blks in Hx. fold off in Hx.
  destruct Hat as [[E0 Hoff]|[E0 Hoff]].
  - unfold cost in Hc, Hroom. rewrite E1 in Hc. rewrite E0 in Hroom, Hx.
    destruct (decide (k < 12)%nat); [|destruct (decide (k = 12)%nat)].
    + rewrite decide_False in Hroom by lia. apply (wp_map_direct fs s j f); try done; unfold off in *; lia.
    + rewrite decide_False in Hroom by lia. rewrite decide_True in Hc by lia.
      apply (wp_map_indirect fs s j f); try done; unfold off in *; lia.
    + rewrite decide_True in Hroom by lia. rewrite decide_True in Hc by lia.
      apply (wp_map_entry fs s j f); try done; unfold off in *; lia.
  - rewrite E0 in Hx. apply (wp_map_found fs s j f); try done. intros r f' Hm. by apply (HQ r s f').
Qed.

(** Bytes [ch] at the end of the file, inside its last block. *)
Lemma data_write fs s j f k x ch o s' :
  data_ok fs s → fs !! j = Some f → length (m_blks f) = S k → m_blks f !! k = Some x →
  length (m_bytes f) = (1024 * k + o)%nat → (o + length ch ≤ 1024)%nat →
  wrote_at x (splice (view s x) o ch) s s' → freeblock s' = freeblock s →
  data_ok (<[j := MFile (m_type f) (m_bytes f ++ ch) (m_blks f) (m_ind f)]> fs) s'.
Proof.
  intros Hd Hj Hl Hx Hlen Ho Hw Hfr. pose proof (file_desc fs s j f Hd Hj) as [M1 M2 M3 M4 M5].
  destruct (blk_nonzero fs s j f Hd Hj k x Hx) as [_ Hxr].
  assert (x ∈ m_blks f) as Hxb by (by eapply list_elem_of_lookup_2).
  assert (x ∈ owned f) as Hxo by (apply elem_of_app; by left).
  assert (NoDup (m_blks f)) as Hnd.
  { pose proof (owned_nodup fs s j f Hd Hj) as Hn. by apply NoDup_app in Hn as (Hn & _). }
  apply (data_grow fs s j f _ []); try done; cbn [length].
  - by rewrite app_nil_r.
  - apply NoDup_nil_2.
  - lia.
  - rewrite Hfr. apply Hd.
  - eapply shape_write; [exact Hw|apply Hd|done|]. rewrite length_splice. apply shape_len, Hd.
  - intros b Hb. rewrite (view_write _ _ _ _ _ Hw), decide_False; [done|]. by intros ->.
  - split; cbn [m_blks m_bytes m_ind]; try done.
    + rewrite length_app. lia.
    + intros H12. destruct (ind_range fs s j f Hd Hj H12) as [_ Hni].
      rewrite (view_write _ _ _ _ _ Hw), decide_False by (by intros E; rewrite E in Hni). by apply M4.
    + intros i b Hb. rewrite (view_write _ _ _ _ _ Hw). case_decide as E.
      * subst b. assert (i = k) as -> by (by eapply NoDup_lookup). rewrite (M5 k x Hx). by apply splice_blk.
      * assert (i ≠ k) by (intros ->; congruence). pose proof (lookup_lt_Some _ _ _ Hb).
        rewrite blk_of_app by lia. by apply M5.
Qed.
