(* ===== verification/MkfsImage.v ===== *)
(** * The image that mkfs leaves

    From the description of files of MkfsSpec.v to the whole image: appending, inodes,
    directories, the bitmap, and the view of the image the kernel's theorems start from. *)
From Stdlib Require Import ZArith Lia.
From stdpp Require Import base list gmap numbers strings.
From S2P Require Import Prelude Machine KString Bytes State DiskIo Virtio Cache Log Fs Blocks Inode FileWrite Mkfs MkfsSpec.
Local Open Scope Z_scope.
Local Open Scope kernel_scope.

(** ** Appending *)

Lemma wp_assert b Q s : b = true → Q tt s → wp (assert b) Q s.
Proof. intros -> HQ. by apply wp_ret. Qed.

Lemma wp_iappend_loop fuel p fs s j f din (Q : inode * Z → mk → Prop) :
  (length p < fuel)%nat → data_ok fs s → fs !! j = Some f → exact_blks f → i_addrs din = addrs_of f →
  (length (m_bytes f) + length p ≤ 268 * 1024)%nat → room f s (length (m_bytes f) + length p) →
  (∀ f' s', data_ok (<[j := f']> fs) s' → m_bytes f' = m_bytes f ++ p → m_type f' = m_type f →
     exact_blks f' → same_meta s s' →
     Q (set_i_addrs (addrs_of f') din, Z.of_nat (length (m_bytes f'))) s') →
  wp (iappend_loop fuel din (Z.of_nat (length (m_bytes f))) p) Q s.
Proof.
  revert p fs s f din. induction fuel as [|fuel IH]; intros p fs s f din Hfuel Hd Hj Hx Ha Hmax Hroom HQ; [lia|].
  cbn [iappend_loop]. destruct (Nat.eqb_spec (length p) 0) as [E|E].
  { apply nil_length_inv in E as ->. apply wp_ret.
    replace (din, _) with (set_i_addrs (addrs_of f) din, Z.of_nat (length (m_bytes f)))
      by (rewrite set_addrs_same by done; done).
    apply HQ; try done; [by rewrite list_insert_id|by rewrite app_nil_r]. }
  set (off := length (m_bytes f)) in *. set (k := (off / 1024)%nat).
  assert (Z.of_nat off / BSIZE = Z.of_nat k) as Ek by (unfold BSIZE, k; by rewrite Nat2Z.inj_div).
  pose proof (Nat.div_mod_eq off 1024) as Hdm. pose proof (Nat.mod_upper_bound off 1024 ltac:(lia)) as Hmod.
  fold k in Hdm. set (o := (off mod 1024)%nat) in *. rewrite Ek.
  apply wp_bind, wp_assert; [apply Z.ltb_lt; change MAXFILE with 268; lia|].
  apply wp_bind. apply (wp_map fs s j f din _ (off + length p)); try done; [unfold off in *; lia|].
  intros [din1 x] s1 f1 [D1 B1 T1 L1 X1 I1 F1 W1]. cbn [fst snd] in *. fold off k in L1, X1. unfold BSIZE.
  set (n1 := Z.to_nat (Z.min (Z.of_nat (length p)) ((Z.of_nat k + 1) * 1024 - Z.of_nat off))).
  assert (n1 = Nat.min (length p) (1024 - o)) as En1 by lia.
  assert ((<[j := f1]> fs) !! j = Some f1) as Hj1 by (apply list_lookup_insert_eq; by eapply lookup_lt_Some).
  destruct (blk_nonzero _ _ _ _ D1 Hj1 _ _ X1) as [_ Hxr].
  apply wp_bind, wp_rsect; [apply D1|done|]. apply wp_bind. unfold wsect. apply wp_modify.
  replace (Z.to_nat (Z.of_nat off - Z.of_nat k * 1024)) with o by lia.
  set (ch := take n1 p). assert (length ch = n1) as Hch by (unfold ch; rewrite length_take; lia).
  set (s2 := set_img _ s1). set (f2 := MFile (m_type f1) (m_bytes f1 ++ ch) (m_blks f1) (m_ind f1)).
  assert (data_ok (<[j := f2]> (<[j := f1]> fs)) s2) as D2.
  { apply (data_write _ s1 j f1 k x ch o); try done; [rewrite B1; fold off; lia|lia]. }
  rewrite list_insert_insert_eq in D2.
  assert (length (m_bytes f2) = (off + n1)%nat) as Hl2 by (cbn; rewrite length_app, B1, Hch; done).
  assert (exact_blks f2) as Hx2.
  { unfold exact_blks. rewrite Hl2. cbn [f2 m_blks]. rewrite L1. symmetry. apply nblk_in. lia. }
  replace (u32 (Z.of_nat off + Z.of_nat n1)) with (Z.of_nat (length (m_bytes f2))) by (rewrite Hl2, u32_small; lia).
  assert (length (drop n1 p) = (length p - n1)%nat) as Hld by apply length_drop.
  apply (IH (drop n1 p) (<[j := f2]> fs) s2 f2 din1); try done.
  - lia.
  - apply list_lookup_insert_eq. by eapply lookup_lt_Some.
  - by rewrite I1.
  - lia.
  - unfold room in *. rewrite Hl2, Hld. replace (off + n1 + (length p - n1))%nat with (off + length p)%nat by lia.
    pose proof (blocks_length fs j f f2 Hj). rewrite (d_free _ _ D2). rewrite (d_free _ _ Hd) in Hroom. lia.
  - intros f3 s3 D3 B3 T3 X3 M3. rewrite list_insert_insert_eq in D3. rewrite I1.
    change (set_i_addrs (addrs_of f3) (set_i_addrs (addrs_of f1) din)) with (set_i_addrs (addrs_of f3) din).
    apply HQ; try done.
    + rewrite B3. cbn [f2 m_bytes]. rewrite B1, <- app_assoc. f_equal. apply take_drop.
    + by rewrite T3.
    + eapply same_meta_trans; [|exact M3]. split; [done|]. intros b Hb.
      rewrite (view_write x (splice (view s1 x) o ch) s1 s2) by done. rewrite decide_False; [by apply W1|].
      pose proof (blks_range _ _ _ _ D1 Hj1) as Hr. eapply Forall_lookup_1 in Hr; [|done]. cbn beta in Hr. lia.
Qed.

(** ** Inodes *)

(** Inode numbers up to 208 have a place in the inode blocks. *)
Definition INODES : Z := 208.
Lemma iblock_range i : 0 ≤ i < INODES → IBLOCK i sb = i / 16 + 33 ∧ 33 ≤ IBLOCK i sb < 46.
Proof.
  unfold INODES. intros Hi. unfold IBLOCK. rewrite (u32_small i) by lia. change IPB with 16.
  change (sb_inodestart sb) with 33. assert (0 ≤ i / 16 < 13) by dlia. rewrite u32_small by lia. lia.
Qed.
Lemma di_off_range i : 0 ≤ i < INODES → di_off i = Z.to_nat (64 * (i mod 16)) ∧ (di_off i + 64 ≤ 1024)%nat.
Proof.
  unfold INODES. intros Hi. unfold di_off. rewrite u32_small by lia. change IPB with 16.
  pose proof (Z.mod_pos_bound i 16). lia.
Qed.

Definition nodes_ok (N : Z → inode) (s : mk) : Prop :=
  ∀ i, 0 ≤ i < INODES → get_dinode (view s (IBLOCK i sb)) (di_off i) inode0 = N i.

(** An inode whose fields fit their places on the disk, and that has only these. *)
Record node_fits (ip : inode) : Prop := {
  nf_dinode : dinode_ok ip;
  nf_size : 0 ≤ i_size ip < 2 ^ 32;
  nf_len : length (i_addrs ip) = 13%nat;
  nf_addrs : Forall (λ a, 0 ≤ a < 2 ^ 32) (i_addrs ip);
  nf_only : ∀ d off, get_dinode d off inode0 = get_dinode d off ip;
}.

Lemma get_put_other ip d off off' x :
  length (i_addrs ip) = 13%nat → (off + 64 ≤ length d)%nat → (off' + 64 ≤ off ∨ off + 64 ≤ off')%nat →
  get_dinode (put_dinode ip d off) off' x = get_dinode d off' x.
Proof.
  intros Hl Hd Hne. assert (length (concat (le_bytes 4 <$> i_addrs ip)) = 52%nat) by (rewrite length_concat_le; lia).
  unfold get_dinode, di_addr, di_size, di_nlink, di_minor, di_major, di_type, put_dinode.
  assert (∀ k n, (k + n ≤ 64)%nat → ldl n (put_dinode ip d off) (off' + k) = ldl n d (off' + k)) as H64.
  { intros k n Hk. unfold put_dinode. rewrite ldl_splice_ne by (rewrite ?length_stl; lia).
    repeat rewrite ldl_stl_ne by (rewrite ?length_stl; lia). done. }
  pose proof (H64 0%nat 2%nat ltac:(lia)) as E0. rewrite Nat.add_0_r in E0. unfold put_dinode in E0, H64.
  rewrite E0. rewrite !H64 by lia. f_equal. apply list_fmap_ext. intros i k Hk.
  apply lookup_seq in Hk as [-> Hk]. cbn [Nat.add].
  replace (off' + 12 + 4 * i)%nat with (off' + (12 + 4 * i))%nat by lia. apply H64. lia.
Qed.

Definition meta_only (s s' : mk) : Prop :=
  shape s' ∧ freeblock s' = freeblock s ∧ freeinode s' = freeinode s ∧
  ∀ b, ¬ 33 ≤ b < 46 → view s' b = view s b.

Lemma wp_winode N inum ip Q s :
  shape s → nodes_ok N s → 0 ≤ inum < INODES → node_fits ip →
  (∀ s', meta_only s s' → nodes_ok (λ i, if decide (i = inum) then ip else N i) s' → Q tt s') →
  wp (winode inum ip) Q s.
Proof.
  intros Hs Hn Hi [F1 F2 F3 F4 F5] HQ. destruct (iblock_range inum Hi) as [Eb Hb].
  destruct (di_off_range inum Hi) as [Eo Ho]. unfold winode.
  apply wp_bind, wp_rsect; [done|unfold FSSIZE; lia|]. unfold wsect. apply wp_modify.
  set (bn := IBLOCK inum sb) in *. set (d := put_dinode ip (view s bn) (di_off inum)). set (s' := set_img _ s).
  assert (wrote_at bn d s s') as Hw by done.
  assert (length (view s bn) = 1024%nat) as Hl by (by apply shape_len).
  apply HQ.
  - split_and!; [|done|done|].
    + eapply shape_write; [exact Hw|done|unfold FSSIZE; lia|]. unfold d. by rewrite length_put_dinode.
    + intros b Hb'. rewrite (view_write _ _ _ _ _ Hw), decide_False; [done|]. intros ->. lia.
  - intros i Hi'. rewrite (view_write _ _ _ _ _ Hw). destruct (iblock_range i Hi') as [Ei _].
    destruct (di_off_range i Hi') as [Eo' Ho']. case_decide as E; case_decide as E'.
    + subst i. rewrite F5. apply get_put_dinode; try done. lia.
    + unfold d. rewrite get_put_other; [rewrite <- E; by apply Hn|done|lia|].
      rewrite Eo, Eo'. assert (i mod 16 ≠ inum mod 16) by (intros Em; apply E'; dlia).
      pose proof (Z.mod_pos_bound i 16). pose proof (Z.mod_pos_bound inum 16). lia.
    + subst i. done.
    + by apply Hn.
Qed.
Lemma wp_rinode N inum Q s :
  shape s → nodes_ok N s → 0 ≤ inum < INODES → Q (N inum) s → wp (rinode inum) Q s.
Proof.
  intros Hs Hn Hi HQ. destruct (iblock_range inum Hi) as [_ Hb]. unfold rinode.
  apply wp_bind, wp_rsect; [done|unfold FSSIZE; lia|]. apply wp_ret. by rewrite Hn.
Qed.

(** ** Files and inodes together *)

Definition node_at (fs : list mfile) (i : Z) : inode :=
  if i =? 0 then inode0 else match fs !! Z.to_nat (i - 1) with Some f => inode_of f | None => inode0 end.
Notation entry := (prod Z (list Z)) (only parsing).
Definition entry_of (f : mfile) : entry := (m_type f, m_bytes f).

(** The inodes from 1 on are files with the types and bytes of [A]. *)
Record built (A : list entry) (fs : list mfile) (s : mk) : Prop := {
  bu_data : data_ok fs s;
  bu_exact : Forall exact_blks fs;
  bu_files : entry_of <$> fs = A;
  bu_types : Forall (λ a, 0 ≤ a.1 < 2 ^ 15) A;
  bu_nodes : nodes_ok (node_at fs) s;
  bu_inode : freeinode s = 1 + Z.of_nat (length A);
  bu_super : view s 1 = splice zero_block 0 (sb_bytes sb);
  bu_log : ∀ b, 2 ≤ b < 33 → view s b = zero_block;
}.
(** The number of blocks of the files. *)
Definition total (A : list entry) : nat := sum_list_with (λ a, cost (length a.2)) A.

Lemma built_total A fs s : built A fs s → length (blocks_of fs) = total A.
Proof.
  intros [_ Hx <- _ _ _ _ _]. unfold blocks_of, total. induction Hx as [|f fs Hf Hx IH]; [done|].
  rewrite bind_cons, length_app, IH, length_owned by done. done.
Qed.
Lemma total_insert A j a a' : A !! j = Some a →
  (total (<[j := a']> A) + cost (length a.2) = total A + cost (length a'.2))%nat.
Proof.
  intros Hj. pose proof (lookup_lt_Some _ _ _ Hj). unfold total.
  rewrite <- (take_drop_middle A j a Hj) at 2. rewrite insert_take_drop by done.
  rewrite !sum_list_with_app. cbn [sum_list_with]. lia.
Qed.

Lemma node_fits_of fs s j f :
  data_ok fs s → fs !! j = Some f → 0 ≤ m_type f < 2 ^ 15 → node_fits (inode_of f).
Proof.
  intros Hd Hj Ht. pose proof (file_desc fs s j f Hd Hj) as [M1 M2 M3 M4 M5]. pose proof nmeta_eq.
  pose proof (d_room _ _ Hd) as Hr. unfold FSSIZE in Hr.
  split; cbn [inode_of set_i_addrs set_i_size set_i_nlink set_i_type i_size i_addrs]; try done.
  - by split; cbn; lia.
  - lia.
  - apply length_addrs.
  - unfold addrs_of. apply Forall_app. split.
    + apply Forall_resize; [lia|]. eapply Forall_impl; [by eapply blks_range|]. cbn beta. intros b ?. lia.
    + apply Forall_singleton. destruct (decide (12 < length (m_blks f))%nat) as [H12|H12].
      * pose proof (ind_range fs s j f Hd Hj H12). lia.
      * rewrite M3; lia.
Qed.
Lemma built_meta A fs s s' :
  built A fs s → meta_only s s' → nodes_ok (node_at fs) s' → built A fs s'.
Proof.
  intros [D X F T N I Sp Lg] (M1 & M2 & M3 & M4) N'. split; try done.
  - eapply data_ok_meta; try done. intros b Hb. apply M4. pose proof nmeta_eq. lia.
  - by rewrite M3.
  - rewrite M4; [done|lia].
  - intros b Hb. rewrite M4 by lia. by apply Lg.
Qed.

Lemma wp_ialloc A fs s t Q :
  built A fs s → Z.of_nat (length A) + 1 < INODES → 0 ≤ t < 2 ^ 15 →
  (∀ fs' s', built (A ++ [(t, [])]) fs' s' → Q (1 + Z.of_nat (length A)) s') →
  wp (ialloc t) Q s.
Proof.
  intros B Hi Ht HQ. pose proof B as [D X F T N I Sp Lg]. unfold INODES in Hi. unfold ialloc. apply wp_bind, wp_gets.
  rewrite I. apply wp_bind, wp_modify. rewrite I, u32_small by lia. set (s1 := Mk _ _ _).
  set (f := MFile t [] [] 0). assert (length fs = length A) as Hl by (by rewrite <- F, length_fmap).
  assert (data_ok (fs ++ [f]) s1) as D1.
  { assert (blocks_of (fs ++ [f]) = blocks_of fs) as Eb.
    { unfold blocks_of. rewrite bind_app. cbn. by rewrite !app_nil_r. }
    destruct D as [D1 D2 D3 D4 D5 D6 D7]. split; rewrite ?Eb; try done.
    apply Forall_app. split; [done|]. apply Forall_singleton. split; cbn; try done; lia. }
  apply wp_bind, (wp_winode (node_at fs)); [apply D1|done|unfold INODES; lia| |].
  { apply (node_fits_of (fs ++ [f]) s1 (length fs) f); [done|by apply list_lookup_middle|done]. }
  intros s2 Hm N2. apply wp_ret. apply (HQ (fs ++ [f])). destruct Hm as (M1 & M2 & M3 & M4).
  split; try done.
  - eapply data_ok_meta; try done. intros b Hb. apply M4. pose proof nmeta_eq. lia.
  - apply Forall_app. split; [done|]. by apply Forall_singleton.
  - by rewrite fmap_app, F.
  - apply Forall_app. split; [done|]. by apply Forall_singleton.
  - intros i Hi2. rewrite N2 by done. unfold node_at. case_decide as E.
    + subst i. destruct (Z.eqb_spec (1 + Z.of_nat (length A)) 0); [lia|].
      replace (Z.to_nat _) with (length fs) by lia. by rewrite list_lookup_middle.
    + destruct (Z.eqb_spec i 0); [done|]. destruct (decide (Z.to_nat (i - 1) < length fs)%nat).
      * by rewrite lookup_app_l by done.
      * rewrite !(proj2 (lookup_ge_None _ _)); [done|rewrite length_app; cbn; lia|lia].
  - rewrite M3, length_app. cbn. lia.
  - rewrite M4 by lia. done.
  - intros b Hb. rewrite M4 by lia. by apply Lg.
Qed.

Lemma wp_iappend A fs s j t c p Q :
  built A fs s → A !! j = Some (t, c) → Z.of_nat j + 1 < INODES →
  (length c + length p ≤ 268 * 1024)%nat →
  nmeta + Z.of_nat (total (<[j := (t, c ++ p)]> A)) ≤ FSSIZE →
  (∀ fs' s', built (<[j := (t, c ++ p)]> A) fs' s' → Q tt s') →
  wp (iappend (Z.of_nat j + 1) p) Q s.
Proof.
  intros B Hj Hi Hmax Hroom HQ. pose proof B as [D X F T N I Sp Lg].
  assert (∃ f, fs !! j = Some f ∧ m_type f = t ∧ m_bytes f = c) as (f & Hf & Et & Ec).
  { rewrite <- F, list_lookup_fmap in Hj. apply fmap_Some in Hj as (f & Hf & [= E1 E2]). by exists f. }
  assert (exact_blks f) as Hx by (by eapply Forall_lookup_1 in X).
  assert (0 ≤ t < 2 ^ 15) as Ht by exact (proj1 (Forall_lookup _ _) T _ _ Hj).
  unfold iappend. apply wp_bind, (wp_rinode (node_at fs)); [apply D|done|unfold INODES in *; lia|].
  assert (node_at fs (Z.of_nat j + 1) = inode_of f) as ->.
  { unfold node_at. destruct (Z.eqb_spec (Z.of_nat j + 1) 0); [lia|].
    replace (Z.to_nat _) with j by lia. by rewrite Hf. }
  apply wp_bind. change (i_size (inode_of f)) with (Z.of_nat (length (m_bytes f))). subst c t.
  apply (wp_iappend_loop (S (length p)) p fs s j f); try done; [lia| |].
  { unfold room. rewrite length_owned by done. pose proof (built_total A fs s B) as Hb.
    pose proof (total_insert A j _ (m_type f, m_bytes f ++ p) Hj) as Hti. cbn [snd] in Hti.
    rewrite length_app in Hti. rewrite (d_free _ _ D), Hb. lia. }
  intros f' s1 D1 B1 T1 X1 (M1 & M2).
  assert ((<[j := f']> fs) !! j = Some f') as Hj' by (apply list_lookup_insert_eq; by eapply lookup_lt_Some).
  assert (∀ x d, nodes_ok x s → view d = view d → nodes_ok x s1) as Hn1.
  { intros x d Hx' _ i Hi'. destruct (iblock_range i Hi') as [_ Hb]. rewrite M2 by (pose proof nmeta_eq; lia).
    by apply Hx'. }
  apply (wp_winode (node_at fs)); [apply D1|by apply (Hn1 _ s)|unfold INODES in *; lia| |].
  { change (set_i_size _ (set_i_addrs (addrs_of f') (inode_of f)))
      with (set_i_addrs (addrs_of f') (set_i_size (Z.of_nat (length (m_bytes f')))
              (set_i_nlink 1 (set_i_type (m_type f) inode0)))).
    rewrite <- T1. apply (node_fits_of _ s1 j f' D1 Hj'). by rewrite T1. }
  intros s2 (M3 & M4 & M5 & M6) N2. apply (HQ (<[j := f']> fs)). pose proof nmeta_eq.
  split.
  - eapply data_ok_meta; [exact D1|done|done|]. intros b Hb. apply M6. lia.
  - apply Forall_insert; done.
  - rewrite list_fmap_insert, F. f_equal. unfold entry_of. by rewrite T1, B1.
  - by apply Forall_insert.
  - intros i Hi2. rewrite N2 by done. unfold node_at. case_decide as E.
    + subst i. destruct (Z.eqb_spec (Z.of_nat j + 1) 0); [lia|]. replace (Z.to_nat _) with j by lia.
      rewrite Hj'. unfold inode_of. by rewrite T1.
    + destruct (Z.eqb_spec i 0); [done|]. by rewrite list_lookup_insert_ne by lia.
  - rewrite M5, M1, length_insert. done.
  - rewrite M6, M2 by lia. done.
  - intros b Hb. rewrite M6, M2 by lia. by apply Lg.
Qed.

(** ** The files of the command line *)

Definition fname (path : list Z) : list Z :=
  let n := shortname path in if nth 0 n 0 =? 95 then drop 1 n else n.
Definition contents (f : hostfile) : list Z := concat (default [] f.2).
Record host_ok (f : hostfile) : Prop := {
  ho_slash : 47 ∉ shortname f.1;
  ho_name : (length (fname f.1) ≤ 14)%nat;
  ho_open : is_Some f.2;
  ho_size : (length (contents f) ≤ 268 * 1024)%nat;
}.
(** The inodes before and after a file of the command line. *)
Definition add (A : list entry) (f : hostfile) : list entry :=
  match A with
  | [] => []
  | (t, r) :: A' =>
      (t, r ++ dirent (1 + Z.of_nat (length A)) (fname f.1)) :: A' ++ [(T_FILE, contents f)]
  end.
Definition first_entries : list entry := [(T_DIR, dirent 1 (str ".") ++ dirent 1 (str ".."))].
Definition entries (files : list hostfile) : list entry := foldl add first_entries files.

Lemma total_cons a A : total (a :: A) = (cost (length a.2) + total A)%nat.
Proof. done. Qed.
Lemma total_app A B : total (A ++ B) = (total A + total B)%nat.
Proof. apply sum_list_with_app. Qed.
Lemma total_grow A j t c p : A !! j = Some (t, c) → (total A ≤ total (<[j := (t, c ++ p)]> A))%nat.
Proof.
  intros Hj. pose proof (total_insert A j _ (t, c ++ p) Hj) as H. cbn [snd] in H.
  assert (cost (length c) ≤ cost (length (c ++ p)))%nat by (apply cost_mono; rewrite length_app; lia). lia.
Qed.
Lemma total_add A f : (total A ≤ total (add A f))%nat.
Proof.
  destruct A as [|[t r] A]; [done|]. cbn [add]. rewrite !total_cons, total_app. cbn [snd].
  assert (cost (length r) ≤ cost (length (r ++ dirent (1 + Z.of_nat (length ((t, r) :: A))) (fname f.1))))%nat
    by (apply cost_mono; rewrite length_app; lia). lia.
Qed.
Lemma total_entries A files : (total A ≤ total (foldl add A files))%nat.
Proof.
  revert A. induction files as [|f files IH]; intros A; cbn [foldl]; [done|].
  etrans; [apply (total_add A f)|apply IH].
Qed.

Lemma length_dirent inum name : (length name ≤ 14)%nat → length (dirent inum name) = 16%nat.
Proof.
  intros H. unfold dirent, xshort, DIRSIZ. rewrite !length_app, length_le_bytes, length_take, length_replicate. lia.
Qed.

Lemma wp_appends A fs s j t c chunks Q :
  built A fs s → A !! j = Some (t, c) → Z.of_nat j + 1 < INODES →
  (length c + length (concat chunks) ≤ 268 * 1024)%nat →
  nmeta + Z.of_nat (total (<[j := (t, c ++ concat chunks)]> A)) ≤ FSSIZE →
  (∀ fs' s', built (<[j := (t, c ++ concat chunks)]> A) fs' s' → Q tt s') →
  wp (for_each chunks (iappend (Z.of_nat j + 1))) Q s.
Proof.
  revert A fs s c. induction chunks as [|p chunks IH]; intros A fs s c B Hj Hi Hmax Hroom HQ; cbn [for_each concat] in *.
  { rewrite app_nil_r in HQ. apply wp_ret. apply (HQ fs). by rewrite list_insert_id. }
  rewrite length_app in Hmax. rewrite app_assoc in Hroom, HQ.
  assert ((<[j := (t, c ++ p)]> A) !! j = Some (t, c ++ p)) as Hj'
    by (apply list_lookup_insert_eq; by eapply lookup_lt_Some).
  assert (<[j := (t, (c ++ p) ++ concat chunks)]> (<[j := (t, c ++ p)]> A) =
    <[j := (t, (c ++ p) ++ concat chunks)]> A) as Eins by apply list_insert_insert_eq.
  apply wp_bind. eapply wp_iappend; [exact B|done|done|lia| |].
  - pose proof (total_grow _ j t (c ++ p) (concat chunks) Hj') as Hg. rewrite Eins in Hg. lia.
  - intros fs' s' B'. apply (IH _ fs' s' (c ++ p) B'); try done.
    + rewrite length_app. lia.
    + by rewrite Eins.
    + intros fs2 s2 B2. rewrite Eins in B2. by apply (HQ fs2).
Qed.

Lemma wp_add_file A fs s f r Q :
  built A fs s → A !! 0%nat = Some (T_DIR, r) → host_ok f → Z.of_nat (length A) + 1 < INODES →
  (length r + 16 ≤ 268 * 1024)%nat → nmeta + Z.of_nat (total (add A f)) ≤ FSSIZE →
  (∀ fs' s', built (add A f) fs' s' → Q tt s') → wp (add_file 1 f) Q s.
Proof.
  intros B H0 [F1 F2 [chunks F3] F4] Hi Hr Hroom HQ. destruct A as [|a A]; [done|]. injection H0 as ->.
  destruct f as [path o]. cbn [fst snd] in *. subst o. cbn [add fst snd] in *.
  change (contents (path, Some chunks)) with (concat chunks) in *.
  unfold add_file. cbn [fst snd]. apply wp_bind, wp_assert; [by apply bool_decide_eq_true|].
  fold (fname path). apply wp_bind, wp_assert; [apply Nat.leb_le; exact F2|].
  set (A1 := ((T_DIR, r) :: A) ++ [(T_FILE, [])]). set (n := length ((T_DIR, r) :: A)) in *.
  set (de := dirent (1 + Z.of_nat n) (fname path)) in *.
  assert (length de = 16%nat) as Hde by (by apply length_dirent).
  set (A2 := <[0%nat := (T_DIR, r ++ de)]> A1).
  assert (A2 !! n = Some (T_FILE, [])) as Hn by (unfold A2; cbn; by apply list_lookup_middle).
  assert (<[n := (T_FILE, concat chunks)]> A2 = (T_DIR, r ++ de) :: A ++ [(T_FILE, concat chunks)]) as Efin.
  { transitivity ((T_DIR, r ++ de) :: <[length A := (T_FILE, concat chunks)]> (A ++ [(T_FILE, [])])); [done|].
    f_equal.
    rewrite insert_app_r_alt, Nat.sub_diag by lia. done. }
  apply wp_bind. eapply (wp_ialloc ((T_DIR, r) :: A)); [exact B|exact Hi|unfold T_FILE; lia|]. fold n A1.
  intros fs1 s1 B1. apply wp_bind. apply (wp_iappend A1 fs1 s1 0 T_DIR r de _ B1); [done|unfold INODES; lia|lia| |].
  { fold A2. pose proof (total_grow A2 n T_FILE [] (concat chunks) Hn) as Hg. cbn [app] in Hg.
    rewrite Efin in Hg. lia. }
  fold A2. intros fs2 s2 B2. replace (1 + Z.of_nat n) with (Z.of_nat n + 1) by lia.
  apply (wp_appends A2 fs2 s2 n T_FILE [] chunks _ B2 Hn); [lia|cbn [length]; lia| |].
  - cbn [app]. by rewrite Efin.
  - intros fs3 s3 B3. cbn [app] in B3. rewrite Efin in B3. by apply (HQ fs3).
Qed.

Lemma add_root A f r : A !! 0%nat = Some (T_DIR, r) →
  add A f !! 0%nat = Some (T_DIR, r ++ dirent (1 + Z.of_nat (length A)) (fname f.1)) ∧ length (add A f) = S (length A).
Proof.
  destruct A as [|a A]; [done|]. intros [= ->]. cbn [add]. split; [done|]. cbn [length]. rewrite length_app. cbn. lia.
Qed.
Lemma wp_add_files A fs s files r Q :
  built A fs s → A !! 0%nat = Some (T_DIR, r) → Forall host_ok files →
  Z.of_nat (length A + length files) < INODES → (length r + 16 * length files ≤ 268 * 1024)%nat →
  nmeta + Z.of_nat (total (foldl add A files)) ≤ FSSIZE →
  (∀ fs' s', built (foldl add A files) fs' s' → Q tt s') → wp (for_each files (add_file 1)) Q s.
Proof.
  intros B H0 Hok. revert A fs s r B H0. induction Hok as [|f files Hf Hok IH]; intros A fs s r B H0 Hi Hr Hroom HQ; cbn [for_each foldl length] in *.
  { apply wp_ret. by apply (HQ fs). }
  destruct (add_root A f r H0) as [E1 E2]. apply wp_bind.
  apply (wp_add_file A fs s f r); try done; [lia|lia| |].
  - pose proof (total_entries (add A f) files). lia.
  - intros fs' s' B'. eapply IH; [exact B'|exact E1| | |done|done].
    + rewrite E2. lia.
    + rewrite length_app, length_dirent by apply Hf. lia.
Qed.
