(* ===== verification/MkfsCorrect.v ===== *)
(** * mkfs builds a file system the kernel can use

    The start of [main], the directory, the bitmap, and the theorem. *)
From Stdlib Require Import ZArith Lia.
From stdpp Require Import base list gmap numbers strings.
From S2P Require Import Prelude Machine KString Bytes State DiskIo Virtio Cache Log Fs Blocks Inode FileWrite Mkfs MkfsSpec MkfsImage.
Local Open Scope Z_scope.
Local Open Scope kernel_scope.

(** ** The start *)

Lemma zero_sectors l s :
  for_each l (λ i, wsect i zero_block) s =
  Ret tt (set_img (foldl (λ m i, <[i := zero_block]> m) (img s) l) s).
Proof.
  revert s. induction l as [|i l IH]; intros s; [by destruct s|]. cbn [for_each foldl]. unfold bind.
  cbn [wsect modify res_bind]. by rewrite IH.
Qed.
Lemma zero_lookup l (m : gmap Z (list Z)) b :
  foldl (λ m i, <[i := zero_block]> m) m l !! b = if decide (b ∈ l) then Some zero_block else m !! b.
Proof.
  revert m. induction l as [|i l IH]; intros m; cbn [foldl]; [done|]. rewrite IH.
  destruct (decide (b = i)) as [->|Hne].
  - rewrite lookup_insert_eq. rewrite (decide_True (P := i ∈ i :: l)) by (by left). by case_decide.
  - rewrite lookup_insert_ne by done. repeat case_decide; try done; set_solver.
Qed.
Lemma ldl_zero_block n off : ldl n zero_block off = 0.
Proof. apply ldl_zero. Qed.
Lemma get_zero off : get_dinode zero_block off inode0 = inode0.
Proof.
  unfold get_dinode, di_type, di_major, di_minor, di_nlink, di_size. rewrite !ldl_zero_block.
  assert (di_addr zero_block off <$> seq 0 13 = replicate 13 0) as ->; [|done].
  unfold di_addr. cbn [seq fmap list_fmap]. by rewrite !ldl_zero_block.
Qed.

Lemma wp_start (m : M mk unit) Q :
  (∀ s, built [] [] s → wp m Q s) →
  wp (modify (λ s, Mk (img s) (freeinode s) nmeta) ;;
      for_each (upto FSSIZE) (λ i, wsect i (replicate 1024 0)) ;;
      wsect 1 (splice (replicate 1024 0) 0 (sb_bytes sb)) ;; m) Q mk0.
Proof.
  intros Hm. apply wp_bind, wp_modify, wp_bind. eapply wp_eq; [apply zero_sectors|].
  apply wp_bind. unfold wsect. apply wp_modify. apply Hm. clear Hm. cbn [mk0 img freeinode set_img].
  set (z := foldl _ _ _). set (s := set_img _ _).
  assert (∀ b, z !! b = if decide (0 ≤ b < FSSIZE) then Some zero_block else None) as Hz.
  { intros b. unfold z. rewrite zero_lookup. rewrite lookup_empty. apply decide_ext.
    unfold upto. rewrite list_elem_of_fmap. split.
    - intros (n & -> & Hn%elem_of_seq). unfold FSSIZE in *. lia.
    - intros Hb. exists (Z.to_nat b). rewrite elem_of_seq. unfold FSSIZE in *. lia. }
  assert (∀ b, view s b = if decide (b = 1) then splice zero_block 0 (sb_bytes sb) else zero_block) as Hv.
  { intros b. unfold view, block_data. cbn [s set_img img]. case_decide as E.
    - subst. by rewrite lookup_insert_eq.
    - rewrite lookup_insert_ne, Hz by done. by case_decide. }
  assert (shape s) as Hs.
  { split; cbn [s set_img img].
    - intros b. destruct (decide (b = 1)) as [->|Hne].
      + rewrite lookup_insert_eq. split; [unfold FSSIZE; lia|by eexists].
      + rewrite lookup_insert_ne, Hz by done. case_decide; split; [done|by eexists|by intros []|done].
    - intros b d. destruct (decide (b = 1)) as [->|Hne].
      + rewrite lookup_insert_eq. intros [= <-]. by rewrite length_splice.
      + rewrite lookup_insert_ne, Hz by done. case_decide; [|done]. by intros [= <-]. }
  assert (freeblock s = nmeta) as Hfb by reflexivity. assert (freeinode s = 1) as Hfi by reflexivity.
  clearbody s. clear Hz z. pose proof nmeta_eq. split.
  - split; [exact Hs|cbn; lia|unfold FSSIZE; lia|constructor|constructor| |constructor].
    intros b Hb. rewrite Hv, decide_False by lia. reflexivity.
  - constructor.
  - reflexivity.
  - constructor.
  - intros i Hi. rewrite Hv. destruct (iblock_range i Hi) as [_ Hb]. rewrite decide_False by lia.
    rewrite get_zero. unfold node_at. by destruct (i =? 0).
  - rewrite Hfi. reflexivity.
  - rewrite Hv. by rewrite decide_True.
  - intros b Hb. rewrite Hv. by rewrite decide_False by lia.
Qed.

(** ** The directory *)

Definition root_bytes (files : list hostfile) : list Z :=
  dirent 1 (str ".") ++ dirent 1 (str "..") ++
  concat (imap (λ i f, dirent (2 + Z.of_nat i) (fname f.1)) files).
Lemma entries_eq files :
  entries files = (T_DIR, root_bytes files) :: ((λ f, (T_FILE, contents f)) <$> files).
Proof.
  unfold entries, root_bytes. induction files as [|f files IH] using rev_ind; [done|].
  rewrite foldl_app, IH. cbn [foldl add]. rewrite fmap_app, imap_app, concat_app. cbn [length fmap list_fmap imap concat].
  rewrite length_fmap, !app_nil_r, Nat.add_0_r, <- !app_assoc.
  replace (1 + Z.of_nat (S (length files))) with (2 + Z.of_nat (length files)) by lia. done.
Qed.

(** ** The bitmap *)

Definition bit (buf : list Z) (b : Z) : bool := Z.testbit (nth (Z.to_nat (b / 8)) buf 0) (b mod 8).
Lemma set_bit_bit buf i b :
  0 ≤ i → 0 ≤ b → (Z.to_nat (i / 8) < length buf)%nat → bit (set_bit buf i) b = (b =? i) || bit buf b.
Proof.
  intros Hi Hb Hl. unfold bit, set_bit. pose proof (Z.mod_pos_bound b 8 ltac:(lia)). pose proof (Z.mod_pos_bound i 8 ltac:(lia)).
  assert (0 ≤ b / 8) by (apply Z.div_pos; lia). assert (0 ≤ i / 8) by (apply Z.div_pos; lia).
  destruct (decide (Z.to_nat (b / 8) = Z.to_nat (i / 8))) as [E|E].
  - rewrite E, !nth_lookup, list_lookup_insert_eq by done. cbn [default].
    set (v := default 0 (buf !! _)). unfold u8, id. rewrite Z.mod_pow2_bits_low by lia.
    rewrite Z.lor_spec, Z.shiftl_spec, orb_comm by lia. f_equal.
    destruct (Z.eqb_spec b i) as [->|Hne].
    + by rewrite Z.sub_diag.
    + change 1 with (2 ^ 0). rewrite Z.pow2_bits_eqb by lia. apply Z.eqb_neq. intros E0. apply Hne. dlia.
  - rewrite !nth_lookup, list_lookup_insert_ne by congruence.
    destruct (Z.eqb_spec b i) as [->|Hne]; [done|]. done.
Qed.
Lemma length_set_bit buf i : length (set_bit buf i) = length buf.
Proof. unfold set_bit. apply length_insert. Qed.
Lemma bits_upto n b :
  0 ≤ b → (Z.of_nat n ≤ 8192) →
  length (foldl set_bit zero_block (Z.of_nat <$> seq 0 n)) = 1024%nat ∧
  bit (foldl set_bit zero_block (Z.of_nat <$> seq 0 n)) b = (b <? Z.of_nat n).
Proof.
  intros Hb. induction n as [|n IH]; intros Hn.
  - split; [done|]. cbn [seq fmap list_fmap foldl]. unfold bit, zero_block. rewrite (proj2 (Z.ltb_ge b _)) by lia.
    rewrite nth_lookup. destruct (replicate 1024 0 !! _) as [x|] eqn:E.
    + apply lookup_replicate in E as [-> _]. apply Z.testbit_0_l.
    + apply Z.testbit_0_l.
  - destruct (IH ltac:(lia)) as [Hl Hbit]. rewrite seq_S, fmap_app, foldl_app. cbn [Nat.add fmap list_fmap foldl].
    split; [by rewrite length_set_bit|]. rewrite set_bit_bit, Hbit; [|lia|done|rewrite Hl; dlia].
    destruct (Z.eqb_spec b (Z.of_nat n)) as [->|Hne]; cbn [orb].
    + symmetry. apply Z.ltb_lt. lia.
    + destruct (Z.ltb_spec b (Z.of_nat n)); symmetry; [apply Z.ltb_lt|apply Z.ltb_ge]; lia.
Qed.

Lemma wp_balloc n Q s :
  shape s → 0 ≤ n ≤ FSSIZE →
  (∀ s', shape s' → freeblock s' = freeblock s → freeinode s' = freeinode s →
     (∀ b, b ≠ 46 → view s' b = view s b) →
     (∀ b, 0 ≤ b < FSSIZE → used sb (view s') b = (b <? n)) → Q tt s') →
  wp (Mkfs.balloc n) Q s.
Proof.
  unfold FSSIZE. intros Hs Hn HQ. unfold Mkfs.balloc. apply wp_bind, wp_assert; [apply Z.ltb_lt; unfold BPB, BSIZE; lia|].
  unfold wsect. apply wp_modify. change (sb_bmapstart sb) with 46. set (d := foldl _ _ _). set (s' := set_img _ s).
  assert (wrote_at 46 d s s') as Hw by done.
  assert (∀ b, 0 ≤ b → length d = 1024%nat ∧ bit d b = (b <? n)) as Hd.
  { intros b Hb. pose proof (bits_upto (Z.to_nat n) b Hb ltac:(lia)) as Hx.
    rewrite Z2Nat.id in Hx by lia. exact Hx. }
  apply HQ; try done.
  - eapply shape_write; [exact Hw|done|unfold FSSIZE; lia|apply (Hd 0); lia].
  - intros b Hb. by rewrite (view_write _ _ _ _ _ Hw), decide_False.
  - intros b Hb. unfold FSSIZE in Hb. unfold used, bit_byte. unfold BBLOCK. change BPB with 8192. change (sb_bmapstart sb) with 46.
    rewrite (u32_small b), (Z.div_small b 8192), u32_small, (Z.mod_small b 8192) by lia. rewrite (view_write _ _ _ _ _ Hw), decide_True by done.
    apply Hd. lia.
Qed.

(** ** The view of a file *)

Section file_view.
Context fs s j f ip (Hd : data_ok fs s) (Hj : fs !! j = Some f) (Ha : i_addrs ip = addrs_of f).
Let V := view s.

Lemma ind_of : indirect ip = m_ind f.
Proof using Ha. clear - Ha. unfold indirect. rewrite Ha. apply addrs_ind. Qed.
Lemma ind_nonzero : m_ind f ≠ 0 ↔ (12 < length (m_blks f))%nat.
Proof using Hd Hj.
  clear Ha V. pose proof (file_desc fs s j f Hd Hj) as [M1 M2 M3 M4 M5]. split.
  - intros Hi. destruct (decide (12 < length (m_blks f))%nat); [done|]. destruct Hi. apply M3. lia.
  - intros H12. pose proof (ind_range fs s j f Hd Hj H12). pose proof nmeta_eq. lia.
Qed.
Lemma own_of k : 0 ≤ k < 268 → own V ip k = nth (Z.to_nat k) (m_blks f) 0.
Proof using Hd Hj Ha.
  intros Hk. unfold own, NDIRECT. rewrite ind_of, Ha. destruct (Z.ltb_spec k 12); [by apply addrs_direct; lia|].
  change MAXFILE with 268. destruct (Z.eqb_spec k 268); [lia|]. pose proof ind_nonzero as Hi.
  destruct (Z.eqb_spec (m_ind f) 0) as [E|E].
  - rewrite nth_overflow; [done|]. destruct (decide (12 < length (m_blks f))%nat); [by destruct Hi; tauto|lia].
  - apply Hi in E. replace (Z.to_nat (4 * (k - 12))) with (4 * (Z.to_nat k - 12))%nat by lia.
    unfold V. rewrite (entry_ind fs s j f Hd Hj) by lia. f_equal. lia.
Qed.
Lemma own_max : own V ip MAXFILE = m_ind f.
Proof using Ha. rewrite <- ind_of. done. Qed.

Lemma content_of o : 0 ≤ o < 274432 → content V ip o = nth (Z.to_nat o) (m_bytes f) 0.
Proof using Hd Hj Ha.
  intros Ho. pose proof (file_desc fs s j f Hd Hj) as [M1 M2 M3 M4 M5].
  unfold content, BSIZE. assert (0 ≤ o / 1024 < 268) as Hk by dlia. rewrite own_of by done.
  set (k := Z.to_nat (o / 1024)). pose proof (Z.mod_pos_bound o 1024 ltac:(lia)) as Hm.
  assert (Z.to_nat o = (1024 * k + Z.to_nat (o mod 1024))%nat) as Eo by (unfold k; dlia).
  rewrite nth_lookup. destruct (m_blks f !! k) as [b|] eqn:Eb; cbn [default].
  - destruct (blk_nonzero fs s j f Hd Hj k b Eb) as [Hb _]. unfold id. rewrite (proj2 (Z.eqb_neq _ _) Hb).
    unfold V. rewrite (M5 k b Eb), nth_lookup, lookup_blk_of by lia. by rewrite <- Eo.
  - cbn [Z.eqb]. apply lookup_ge_None in Eb. rewrite nth_overflow; [done|]. lia.
Qed.

Lemma own_range k : 0 ≤ k ≤ MAXFILE → own V ip k ≠ 0 → own V ip k ∈ owned f.
Proof using Hd Hj Ha.
  change MAXFILE with 268. intros Hk Hn. destruct (decide (k = 268)) as [->|Hne].
  - change 268 with MAXFILE in Hn |- *. rewrite own_max in *. apply ind_nonzero in Hn. unfold owned.
    rewrite decide_True by done. apply elem_of_app. right. by left.
  - rewrite own_of in * by lia. apply elem_of_app. left. rewrite nth_lookup in *.
    destruct (m_blks f !! Z.to_nat k) as [b|] eqn:E; [|done]. by eapply list_elem_of_lookup_2.
Qed.
Lemma own_inj a b : 0 ≤ a ≤ MAXFILE → 0 ≤ b ≤ MAXFILE → own V ip a ≠ 0 → own V ip a = own V ip b → a = b.
Proof using Hd Hj Ha.
  change MAXFILE with 268. intros Hka Hkb Hn E. pose proof (owned_nodup fs s j f Hd Hj) as Hnd.
  assert (∀ k, 0 ≤ k ≤ 268 → own V ip k ≠ 0 → ∃ i, owned f !! i = Some (own V ip k) ∧
    (k < 268 → i = Z.to_nat k) ∧ (k = 268 → i = length (m_blks f)) ∧ (k < 268 → (i < length (m_blks f))%nat)) as Hi.
  { intros k Hk Hz. destruct (decide (k = 268)) as [->|Hne].
    - change 268 with MAXFILE in Hz |- *. rewrite own_max in *. apply ind_nonzero in Hz.
      exists (length (m_blks f)). unfold owned. rewrite decide_True by done. rewrite list_lookup_middle by done.
      split_and!; try done; intros; change MAXFILE with 268 in *; lia.
    - rewrite own_of in * by lia. rewrite nth_lookup in *.
      destruct (m_blks f !! Z.to_nat k) as [x|] eqn:Ex; [|done]. exists (Z.to_nat k). apply lookup_lt_Some in Ex as Hlt.
      unfold owned. rewrite lookup_app_l by done. split_and!; try done; lia. }
  destruct (Hi a Hka Hn) as (i1 & L1 & P1 & P2 & P3). rewrite E in Hn.
  destruct (Hi b Hkb Hn) as (i2 & L2 & R1 & R2 & R3). rewrite E in L1.
  assert (i1 = i2) by (by eapply NoDup_lookup). subst i2.
  destruct (decide (a = 268)), (decide (b = 268)); lia.
Qed.
End file_view.

(** ** The image *)

(** An inode of the image, as the kernel reads it. *)
Definition dinode (V : Z → list Z) (inum : Z) : inode :=
  set_i_dev 1 (get_dinode (V (IBLOCK inum sb)) (di_off inum) inode0).

(** The blocks a list of files needs: for the directory, and for each file. *)
Definition needed (files : list hostfile) : nat :=
  cost (16 * (2 + length files)) + sum_list_with (λ f, cost (length (contents f))) files.

(** A file with its bytes, in blocks of its own. *)
Record holds_file (V : Z → list Z) (ip : inode) (type : Z) (bytes : list Z) : Prop := {
  hf_type : i_type ip = type;
  hf_nlink : i_nlink ip = 1;
  hf_content : ∀ o, 0 ≤ o < MAXFILE * BSIZE → content V ip o = nth (Z.to_nat o) bytes 0;
}.

(** The image: superblock, empty log, bitmap, files, directory, and the free inodes. *)
Record fs_image (files : list hostfile) (V : Z → list Z) (free : Z) : Prop := {
  im_super : sb_of (V 1) = sb;
  im_log : ldl 4 (V (sb_logstart sb)) 0 = 0;
  im_free : free = nmeta + Z.of_nat (needed files) ∧ free ≤ FSSIZE;
  im_bitmap : ∀ b, 0 ≤ b < FSSIZE → used sb V b = (b <? free);
  im_file : ∀ i f, files !! i = Some f → let ip := dinode V (2 + Z.of_nat i) in
    holds_file V ip T_FILE (contents f) ∧ i_size ip = Z.of_nat (length (contents f)) ∧ file_ok sb nmeta V ip;
  im_root : let ip := dinode V ROOTINO in
    holds_file V ip T_DIR (root_bytes files) ∧
    i_size ip = (16 * (2 + Z.of_nat (length files)) / BSIZE + 1) * BSIZE ∧
    ((length files + 2) mod 64 ≠ 0 → file_ok sb nmeta V ip)%nat;
  im_entry : ∀ i f, files !! i = Some f →
    fbytes V (dinode V ROOTINO) (16 * (2 + Z.of_nat i)) 16 = dirent (2 + Z.of_nat i) (fname f.1);
  im_apart : ∀ p q a b, 0 < p < 2 + Z.of_nat (length files) → 0 < q < 2 + Z.of_nat (length files) →
    0 ≤ a ≤ MAXFILE → 0 ≤ b ≤ MAXFILE → own V (dinode V p) a ≠ 0 →
    own V (dinode V p) a = own V (dinode V q) b → p = q;
  im_unused : ∀ inum, 2 + Z.of_nat (length files) ≤ inum < NINODES → i_type (dinode V inum) = 0;
}.

Lemma length_root files : Forall host_ok files → length (root_bytes files) = (16 * (2 + length files))%nat.
Proof.
  intros Hok. unfold root_bytes. rewrite !length_app, !length_dirent by (cbn; lia).
  rewrite length_concat. rewrite (sum_list_fmap_same 16).
  - rewrite length_imap. lia.
  - apply Forall_lookup. intros i l (f & Hf & ->)%list_lookup_imap_Some. apply length_dirent.
    exact (ho_name _ (proj1 (Forall_lookup _ _) Hok _ _ Hf)).
Qed.
Lemma total_needed files : Forall host_ok files → total (entries files) = needed files.
Proof.
  intros Hok. rewrite entries_eq, total_cons. cbn [snd]. rewrite length_root by done. unfold needed. f_equal.
  unfold total. clear. induction files as [|f files IH]; [done|]. rewrite fmap_cons.
  cbn [sum_list_with snd]. by rewrite IH.
Qed.

Lemma file_ok_of fs s j f ip :
  data_ok fs s → fs !! j = Some f → i_addrs ip = addrs_of f → i_dev ip = 1 → 0 ≤ i_size ip ≤ 274432 →
  (∀ k, 0 ≤ k → k * BSIZE < i_size ip → (Z.to_nat k < length (m_blks f))%nat) →
  (∀ b, 0 ≤ b < FSSIZE → used sb (view s) b = (b <? freeblock s)) →
  file_ok sb nmeta (view s) ip.
Proof.
  intros Hd Hj Ha Hdev Hsz Hal Hu. pose proof (d_room _ _ Hd) as Hroom. pose proof nmeta_eq. split; try done.
  - rewrite Ha. apply length_addrs.
  - intros k Hk Hn. pose proof (own_range fs s j f ip Hd Hj Ha k Hk Hn) as Ho.
    apply (owned_range fs s j f Hd Hj) in Ho. change (sb_size sb) with FSSIZE. split; [lia|].
    rewrite Hu by lia. apply Z.ltb_lt. lia.
  - intros a b Ha' Hb' Hn E. by eapply (own_inj fs s j f ip).
  - intros k Hk Hlt. specialize (Hal k Hk Hlt). unfold BSIZE in Hlt. rewrite (own_of fs s j f ip) by (done || lia).
    destruct (lookup_lt_is_Some_2 (m_blks f) (Z.to_nat k) Hal) as [b Hb]. rewrite nth_lookup, Hb.
    by apply (blk_nonzero fs s j f Hd Hj (Z.to_nat k) b).
Qed.

(** The inodes after the size of the root directory has been fixed. *)
Definition root_size (n : nat) : Z := (Z.of_nat n / BSIZE + 1) * BSIZE.
Definition final_node (fs : list mfile) (i : Z) : inode :=
  if decide (i = ROOTINO) then set_i_size (root_size (length (m_bytes (default (MFile 0 [] [] 0) (fs !! 0%nat)))))
                                 (node_at fs i)
  else node_at fs i.

Lemma wp_fix_root A fs s r Q :
  built A fs s → A !! 0%nat = Some (T_DIR, r) → (length r ≤ 268 * 1023)%nat →
  (∀ s', meta_only s s' → nodes_ok (final_node fs) s' → Q tt s') → wp (fix_root 1) Q s.
Proof.
  intros B H0 Hr HQ. pose proof B as [D X F T N I Sp Lg].
  assert (∃ f, fs !! 0%nat = Some f ∧ m_type f = T_DIR ∧ m_bytes f = r) as (f & Hf & Et & Ec).
  { rewrite <- F, list_lookup_fmap in H0. apply fmap_Some in H0 as (f & Hf & [= E1 E2]). by exists f. }
  assert (node_at fs 1 = inode_of f) as En
    by (unfold node_at; change (Z.to_nat (1 - 1)) with 0%nat; by rewrite Hf).
  unfold fix_root. apply wp_bind, (wp_rinode (node_at fs)); [apply D|done|unfold INODES; lia|]. rewrite En.
  change (i_size (inode_of f)) with (Z.of_nat (length (m_bytes f))). rewrite Ec.
  assert (u32 ((Z.of_nat (length r) / BSIZE + 1) * BSIZE) = root_size (length r)) as ->.
  { unfold root_size, BSIZE. apply u32_small. dlia. }
  destruct (node_fits_of fs s 0 f D Hf) as [F1 F2 F3 F4 F5]; [by rewrite Et|].
  apply (wp_winode (node_at fs)); [apply D|done|unfold INODES; lia| |].
  { split; try done; [by destruct F1|]. cbn [set_i_size i_size]. unfold root_size, BSIZE. dlia. }
  intros s' Hm Hn. apply HQ; [done|]. intros i Hi. rewrite Hn by done. unfold final_node, ROOTINO.
  case_decide as E; [|done]. subst i. rewrite Hf, En. cbn [default]. unfold id. by rewrite Ec.
Qed.

(** What [main] has built before the bitmap is written. *)
Lemma wp_main files Q :
  Forall host_ok files → (length files ≤ 198)%nat → nmeta + Z.of_nat (needed files) ≤ FSSIZE →
  (∀ fs s s', built (entries files) fs s → meta_only s s' → nodes_ok (final_node fs) s' →
     wp (Mkfs.balloc (freeblock s')) Q s') →
  wp (main (Some true) files) Q mk0.
Proof.
  intros Hok Hn Hroom HQ. rewrite <- total_needed in Hroom by done. unfold main. apply wp_start. intros s0 B0.
  pose proof (total_entries first_entries files) as Ht. fold (entries files) in Ht.
  apply wp_bind, (wp_ialloc [] [] s0); [exact B0|unfold INODES; cbn; lia|unfold T_DIR; lia|]. intros fs1 s1 B1.
  cbn [length Z.of_nat Z.add]. apply wp_bind, wp_assert; [done|]. cbn [app] in B1.
  apply wp_bind. apply (wp_iappend _ fs1 s1 0 T_DIR [] _ _ B1); [done|unfold INODES; lia|rewrite !length_dirent by (cbn; lia); cbn [length]; lia| |].
  { etrans; [|exact Hroom]. apply Zplus_le_compat_l, inj_le. etrans; [|exact Ht].
    apply Nat.leb_le. vm_compute. reflexivity. }
  intros fs2 s2 B2. apply wp_bind. apply (wp_iappend _ fs2 s2 0 T_DIR (dirent 1 (str ".")) _ _ B2); [done|unfold INODES; lia|rewrite !length_dirent by (cbn; lia); cbn [length]; lia| |].
  { etrans; [|exact Hroom]. apply Zplus_le_compat_l, inj_le. exact Ht. }
  intros fs3 s3 B3. change (built first_entries fs3 s3) in B3. apply wp_bind.
  apply (wp_add_files first_entries fs3 s3 files (dirent 1 (str ".") ++ dirent 1 (str ".."))); try done.
  { unfold INODES. cbn [first_entries length]. lia. } { rewrite length_app, !length_dirent by (cbn; lia). lia. }
  intros fs4 s4 B4. apply wp_bind. eapply (wp_fix_root _ fs4 s4); [exact B4|by rewrite entries_eq| |].
  { rewrite length_root by done. lia. }
  intros s5 M5 N5. apply wp_bind, wp_gets. by eapply (HQ fs4 s4).
Qed.

Section image.
Context (files : list hostfile) (fs : list mfile) (s : mk) (Hok : Forall host_ok files) (Hn : (length files ≤ 198)%nat).
Context (Hd : data_ok fs s) (Hx : Forall exact_blks fs) (Hfs : entry_of <$> fs = entries files).
Context (Hnodes : nodes_ok (final_node fs) s).
Context (Hused : ∀ b, 0 ≤ b < FSSIZE → used sb (view s) b = (b <? freeblock s)).
Let V := view s.

Lemma file_at k t c : entries files !! k = Some (t, c) → ∃ f, fs !! k = Some f ∧ m_type f = t ∧ m_bytes f = c ∧ exact_blks f.
Proof using Hx Hfs.
  rewrite <- Hfs, list_lookup_fmap. intros (f & Hf & [= E1 E2])%fmap_Some. exists f.
  split_and!; try done. exact (proj1 (Forall_lookup _ _) Hx _ _ Hf).
Qed.
Lemma length_fs : length fs = S (length files).
Proof using Hfs. clear - Hfs. apply (f_equal length) in Hfs. rewrite length_fmap, entries_eq in Hfs. cbn in Hfs. by rewrite length_fmap in Hfs. Qed.
Lemma dinode_at inum f :
  0 < inum < INODES → fs !! Z.to_nat (inum - 1) = Some f →
  dinode V inum = set_i_dev 1 (if decide (inum = ROOTINO) then set_i_size (root_size (length (m_bytes f))) (inode_of f)
                               else inode_of f).
Proof using Hn Hnodes.
  intros Hi Hf. unfold dinode, V. rewrite Hnodes by lia. f_equal. unfold final_node, node_at.
  destruct (Z.eqb_spec inum 0); [lia|]. rewrite Hf. case_decide as E; [|done].
  subst inum. change (Z.to_nat (ROOTINO - 1)) with 0%nat in Hf. by rewrite Hf.
Qed.

Lemma holds_of j f ip :
  fs !! j = Some f → i_addrs ip = addrs_of f → i_type ip = m_type f → i_nlink ip = 1 →
  holds_file V ip (m_type f) (m_bytes f).
Proof using Hd.
  intros Hj Ha Ht Hl. split; [done|done|]. intros o Ho. change (MAXFILE * BSIZE) with 274432 in Ho.
  by apply (content_of fs s j f ip).
Qed.

Lemma image_file i f : files !! i = Some f → let ip := dinode V (2 + Z.of_nat i) in
  holds_file V ip T_FILE (contents f) ∧ i_size ip = Z.of_nat (length (contents f)) ∧ file_ok sb nmeta V ip.
Proof using Hok Hn Hd Hx Hfs Hnodes Hused.
  intros Hf. pose proof (lookup_lt_Some _ _ _ Hf) as Hi.
  destruct (file_at (S i) T_FILE (contents f)) as (g & Hg & Et & Ec & Hgx).
  { rewrite entries_eq. transitivity (((λ f, (T_FILE, contents f)) <$> files) !! i); [done|].
    by rewrite list_lookup_fmap, Hf. }
  cbv zeta. rewrite (dinode_at _ g); [|unfold INODES; lia|by replace (Z.to_nat _) with (S i) by lia].
  rewrite decide_False by (unfold ROOTINO; lia). rewrite <- Et, <- Ec.
  split_and!; [by apply (holds_of (S i))|done|].
  apply (file_ok_of fs s (S i) g); try done.
  - change (i_size _) with (Z.of_nat (length (m_bytes g))). rewrite Ec.
    pose proof (ho_size _ (proj1 (Forall_lookup _ _) Hok _ _ Hf)). lia.
  - intros k Hk Hlt. change (i_size _) with (Z.of_nat (length (m_bytes g))) in Hlt. unfold BSIZE in Hlt.
    rewrite Hgx. pose proof (nblk_at (length (m_bytes g))) as Hat. cbv zeta in Hat. lia.
Qed.

Lemma image_root : let ip := dinode V ROOTINO in
  holds_file V ip T_DIR (root_bytes files) ∧
  i_size ip = (16 * (2 + Z.of_nat (length files)) / BSIZE + 1) * BSIZE ∧
  ((length files + 2) mod 64 ≠ 0 → file_ok sb nmeta V ip)%nat.
Proof using Hok Hn Hd Hx Hfs Hnodes Hused.
  destruct (file_at 0 T_DIR (root_bytes files)) as (g & Hg & Et & Ec & Hgx); [by rewrite entries_eq|].
  pose proof (length_root files Hok) as Hlen.
  cbv zeta. rewrite (dinode_at _ g); [|unfold INODES, ROOTINO; lia|done].
  rewrite decide_True by done. rewrite <- Et, <- Ec.
  assert (root_size (length (m_bytes g)) = (16 * (2 + Z.of_nat (length files)) / BSIZE + 1) * BSIZE) as Hsz.
  { unfold root_size. rewrite Ec, Hlen. do 4 f_equal. lia. }
  split_and!; [by apply (holds_of 0)|exact Hsz|]. intros Hmod.
  apply (file_ok_of fs s 0 g); try done; cbn [set_i_dev set_i_size i_size]; rewrite Hsz; unfold BSIZE.
  - dlia.
  - intros k Hk Hlt. rewrite Hgx, Ec, Hlen. pose proof (nblk_at (16 * (2 + length files))) as Hat. cbv zeta in Hat.
    set (q := (16 * (2 + length files) / 1024)%nat) in *.
    assert (16 * (2 + Z.of_nat (length files)) / 1024 = Z.of_nat q) as Eq.
    { unfold q. rewrite Nat2Z.inj_div. f_equal. lia. }
    rewrite Eq in Hlt. destruct Hat as [[_ Hbad]|[-> _]]; [|lia]. destruct Hmod.
    assert (length files + 2 = 64 * q)%nat as -> by lia. rewrite Nat.mul_comm. apply Nat.Div0.mod_mul.
Qed.

Lemma image_entry i f : files !! i = Some f →
  fbytes V (dinode V ROOTINO) (16 * (2 + Z.of_nat i)) 16 = dirent (2 + Z.of_nat i) (fname f.1).
Proof using Hok Hn Hd Hx Hfs Hnodes Hused.
  intros Hf. pose proof (lookup_lt_Some _ _ _ Hf) as Hi. pose proof (length_root files Hok) as Hlen.
  destruct image_root as ([_ _ Hc] & _ & _). set (ip := dinode V ROOTINO) in *.
  destruct (file_at 0 T_DIR (root_bytes files)) as (g & Hg & Et & Ec & Hgx); [by rewrite entries_eq|].
  assert (i_addrs ip = addrs_of g) as Ha.
  { unfold ip. by rewrite (dinode_at _ g), decide_True by (unfold INODES, ROOTINO; done || lia). }
  assert (∀ o, 0 ≤ o < 16 * (2 + Z.of_nat (length files)) → fbyte V ip o = nth (Z.to_nat o) (root_bytes files) 0) as Hb.
  { intros o Ho. rewrite <- Hc by (change (MAXFILE * BSIZE) with 274432; lia). unfold content, fbyte, faddr, BSIZE.
    assert (0 ≤ o / 1024 < 12) as Hk by dlia. unfold NDIRECT. rewrite (proj2 (Z.ltb_lt _ _)) by lia.
    rewrite (own_of fs s 0 g ip) by (done || lia). rewrite Ha, addrs_direct by lia.
    assert (Z.to_nat (o / 1024) < length (m_blks g))%nat as Hlt.
    { rewrite Hgx, Ec, Hlen. pose proof (nblk_at (16 * (2 + length files))) as Hat. cbv zeta in Hat.
      assert (Z.to_nat (o / 1024) = Z.to_nat o / 1024)%nat as -> by (rewrite Z2Nat.inj_div by lia; done).
      pose proof (Nat.div_mod_eq (Z.to_nat o) 1024). lia. }
    destruct (lookup_lt_is_Some_2 _ _ Hlt) as [b Eb]. destruct (blk_nonzero fs s 0 g Hd Hg _ b Eb) as [Hb0 _].
    assert (nth (Z.to_nat (o / 1024)) (m_blks g) 0 = b) as -> by (by rewrite nth_lookup, Eb).
    by rewrite (proj2 (Z.eqb_neq _ _) Hb0). }
  assert (slice (root_bytes files) (16 * (2 + i)) 16 = dirent (2 + Z.of_nat i) (fname f.1)) as <-.
  { change (root_bytes files) with (concat (dirent 1 (str ".") :: dirent 1 (str "..") ::
      imap (λ i f, dirent (2 + Z.of_nat i) (fname f.1)) files)).
    apply slice_concat.
    2:{ transitivity (imap (λ i f, dirent (2 + Z.of_nat i) (fname f.1)) files !! i); [done|].
        by rewrite list_lookup_imap, Hf. }
    repeat constructor; try (by apply length_dirent; cbn; lia).
    apply Forall_lookup. intros k l (h & Hh & ->)%list_lookup_imap_Some. apply length_dirent.
    exact (ho_name _ (proj1 (Forall_lookup _ _) Hok _ _ Hh)). }
  apply list_eq. intros k. rewrite lookup_slice. unfold fbytes. rewrite list_lookup_fmap.
  case_decide as Hk; [|by rewrite lookup_seq_ge by lia]. rewrite lookup_seq_lt by done. cbn [fmap option_fmap option_map].
  rewrite Hb by lia. rewrite nth_lookup. replace (Z.to_nat _) with (16 * (2 + i) + k)%nat by lia.
  destruct (lookup_lt_is_Some_2 (root_bytes files) (16 * (2 + i) + k)) as [x ->]; [lia|done].
Qed.

Lemma image_apart p q a b :
  0 < p < 2 + Z.of_nat (length files) → 0 < q < 2 + Z.of_nat (length files) →
  0 ≤ a ≤ MAXFILE → 0 ≤ b ≤ MAXFILE → own V (dinode V p) a ≠ 0 →
  own V (dinode V p) a = own V (dinode V q) b → p = q.
Proof using Hn Hd Hfs Hnodes.
  intros Hp Hq Ha Hb Hnz E. pose proof length_fs as Hl.
  assert (∀ r, 0 < r < 2 + Z.of_nat (length files) → ∃ f, fs !! Z.to_nat (r - 1) = Some f ∧ i_addrs (dinode V r) = addrs_of f) as Hr.
  { intros r Hr. destruct (lookup_lt_is_Some_2 fs (Z.to_nat (r - 1))) as [f Hf]; [lia|]. exists f. split; [done|].
    rewrite (dinode_at _ f) by (unfold INODES; done || lia). by case_decide. }
  destruct (Hr p Hp) as (f & Hf & Haf). destruct (Hr q Hq) as (g & Hg & Hag).
  pose proof (own_range fs s _ f _ Hd Hf Haf a Ha Hnz) as Ho1. fold V in Ho1. rewrite E in Hnz, Ho1.
  pose proof (own_range fs s _ g _ Hd Hg Hag b Hb Hnz) as Ho2.
  pose proof (blocks_disjoint fs _ _ f g _ (d_nodup _ _ Hd) Hf Hg Ho1 Ho2). lia.
Qed.
End image.

(** C13: for files that can be opened, have names of at most 14 bytes and fit on the image,
    mkfs succeeds and leaves a file system for the kernel: the superblock, an empty log, a
    bitmap that marks exactly the blocks in use, an inode for each file with its bytes in
    blocks of its own (in the sense of the kernel's theorems on reading and writing), a
    root directory with an entry for each of them, and free inodes. *)
Theorem mkfs_correct files :
  Forall host_ok files → (length files ≤ 198)%nat → nmeta + Z.of_nat (needed files) ≤ FSSIZE →
  ∃ s, main (Some true) files mk0 = Ret tt s ∧ fs_image files (view s) (freeblock s).
Proof.
  intros Hok Hn Hroom. pose proof nmeta_eq as Hm.
  destruct (proj1 (wp_run (main (Some true) files) (λ _ s, fs_image files (view s) (freeblock s)) mk0))
    as ([] & s & E & H); [|exists s; exact (conj E H)].
  apply wp_main; [exact Hok|exact Hn|exact Hroom|]. intros fs s s' B (M1 & M2 & M3 & M4) Hnodes.
  pose proof B as [D X F T N I Sp Lg]. pose proof (built_total _ _ _ B) as Htot. rewrite total_needed in Htot by done.
  assert (freeblock s = nmeta + Z.of_nat (needed files)) as Hfree by (rewrite (d_free _ _ D); lia).
  apply wp_balloc; [done|lia|]. intros s2 S2 F2 I2 V2 U2.
  assert (data_ok fs s2) as D2.
  { eapply (data_ok_meta fs s); [done|congruence|done|]. intros b Hb. rewrite V2, M4 by lia. done. }
  assert (nodes_ok (final_node fs) s2) as N2.
  { intros i Hi. destruct (iblock_range i Hi) as [_ Hb]. rewrite V2 by lia. by apply Hnodes. }
  rewrite <- F2 in U2. split.
  - rewrite V2, M4, Sp by lia. vm_compute. reflexivity.
  - rewrite V2, M4, Lg by (change (sb_logstart sb) with 2; lia). apply ldl_zero_block.
  - rewrite F2, M2. lia.
  - done.
  - intros i f Hf. by eapply image_file.
  - by eapply image_root.
  - intros i f Hf. by eapply image_entry.
  - intros p q a b. by eapply image_apart.
  - intros inum Hi. unfold dinode. rewrite N2 by (unfold INODES, NINODES in *; lia).
    unfold final_node, ROOTINO. rewrite decide_False by lia. unfold node_at.
    destruct (Z.eqb_spec inum 0); [done|].
    rewrite (proj2 (lookup_ge_None fs _)); [done|]. rewrite (length_fs files fs F). lia.
Qed.

Definition two_files : list hostfile :=
  [(str "user/_cat", Some [replicate 1024 7; replicate 1024 8]); (str "README", Some (replicate 13 (replicate 1000 9)))].
Lemma mkfs_correct_witness :
  ∃ s, main (Some true) two_files mk0 = Ret tt s ∧ fs_image two_files (view s) (freeblock s).
Proof.
  apply (mkfs_correct two_files).
  - assert (∀ f, 47 ∉ shortname f.1 → (length (fname f.1) <=? 14)%nat = true → is_Some f.2 →
      (length (contents f) <=? 268 * 1024)%nat = true → host_ok f) as H.
    { intros f H1 H2%Nat.leb_le H3 H4%Nat.leb_le. by split. }
    unfold two_files. rewrite !Forall_cons, Forall_nil.
    split_and!; try exact I; (apply H; [apply (bool_decide_unpack _); vm_compute; exact I|
      vm_compute; reflexivity|by eexists|vm_compute; reflexivity]).
  - cbn. lia.
  - apply Z.leb_le. vm_compute. reflexivity.
Defined.

(** The size given to the root directory is rounded up by a whole block when its entries
    fill its blocks: with 62 files, the kernel finds a size of two blocks and one block. *)
Definition empty_files : list hostfile := (λ i, (str "f" ++ [97 + Z.of_nat i], Some [])) <$> seq 0 62.
Example mkfs_root_hole :
  match main (Some true) empty_files mk0 with
  | Ret _ s =>
      let ip := dinode (view s) ROOTINO in (i_size ip, own (view s) ip 0, own (view s) ip 1) = (2048, 47, 0)
  | _ => False
  end.
Proof. vm_compute. reflexivity. Qed.
