(* ===== verification/System.v ===== *)
(** * User programs on the kernel

    The machine as a whole, with one hart: the kernel of the other files, the processes it
    runs with their user programs (the trees of User.v), the disk, the UART and the timer.
    A system call of a program goes the way it goes on the machine: its arguments are
    stored in the memory of the process and in its trapframe, [usertrap] runs until it
    returns or switches to another process, and the result comes from the trapframe and
    the memory of the process.  [turn] is one step of the machine, [go] a run. *)
From Stdlib Require Import ZArith Lia.
From stdpp Require Import base list gmap numbers strings.
From S2P Require Import Prelude Machine KString Bytes State Kalloc Sched Vm Hart Asm Console Virtio Proc Syscall Trap Kernel User.
Local Open Scope Z_scope.

(** ** Memory of a process *)

(** What user mode sees of memory: the translation of Hart.v with all physical memory open. *)
Definition user_csrs (c : Hart.csr) : Z :=
  match c with Pmpcfg0 => 0xf | Pmpaddr0 => 0x3fffffffffffff | _ => 0 end.
Definition user_pa (m : mem) (pagetable : Z) (acc : access) (va : Z) : option Z :=
  translate_with (Hart User 0 (λ _, 0) user_csrs [] m) (MAKE_SATP pagetable) acc va.

Definition mem_bytes (m : mem) (pa n : Z) : list Z :=
  (λ i, ld8 m (pa + Z.of_nat i)) <$> seq 0 (Z.to_nat n).
Fixpoint mem_store (m : mem) (pa : Z) (bs : list Z) : mem :=
  match bs with [] => m | b :: bs' => mem_store (st8 m pa b) (pa + 1) bs' end.

(** Page by page; [inl] is the address that faults. *)
Fixpoint user_load (pages : nat) (m : mem) (pt va n : Z) : Z + list Z :=
  match pages with
  | O => inr []
  | S pages' =>
      if n <=? 0 then inr [] else
      match user_pa m pt Load va with
      | None => inl va
      | Some pa =>
          let k := Z.min n (PGSIZE - va mod PGSIZE) in
          match user_load pages' m pt (va + k) (n - k) with
          | inl a => inl a
          | inr l => inr (mem_bytes m pa k ++ l)
          end
      end
  end.
Fixpoint user_store (pages : nat) (m : mem) (pt va : Z) (bs : list Z) : Z + mem :=
  match pages with
  | O => inr m
  | S pages' =>
      match bs with
      | [] => inr m
      | _ =>
          match user_pa m pt Store va with
          | None => inl va
          | Some pa =>
              let k := Z.to_nat (PGSIZE - va mod PGSIZE) in
              user_store pages' (mem_store m pa (take k bs)) pt (va + Z.of_nat k) (drop k bs)
          end
      end
  end.
Definition pages_of (n : Z) : nat := Z.to_nat (n / PGSIZE + 2).
Definition load_at (m : mem) (pt va n : Z) : Z + list Z := user_load (pages_of n) m pt va n.
Definition store_at (m : mem) (pt va : Z) (bs : list Z) : Z + mem :=
  user_store (pages_of (Z.of_nat (length bs))) m pt va bs.

(** ** System calls *)

(** The program keeps what it passes by address, and what the kernel stores for it, in the
    data segment of its image, which starts at [DATA]. *)
Definition DATA : Z := PGSIZE.

(** Strings one after the other from [a] on: their addresses and their bytes. *)
Fixpoint strings (a : Z) (ss : list (list Z)) : list Z * list Z :=
  match ss with
  | [] => ([], [])
  | s :: ss' =>
      let r := strings (a + Z.of_nat (length s) + 1) ss' in (a :: r.1, s ++ 0 :: r.2)
  end.

(** The number, the argument registers, and the bytes at [DATA]. *)
Definition marshal (c : call) : Z * list Z * list Z :=
  let path1 num p l := (sysnum num, DATA :: l, p ++ [0]) in
  match c with
  | SFork => (sysnum SYS_fork, [], [])
  | SWait => (sysnum SYS_wait, [DATA], [])
  | SPipe => (sysnum SYS_pipe, [DATA], [])
  | SGetpid => (sysnum SYS_getpid, [], [])
  | SUptime => (sysnum SYS_uptime, [], [])
  | SGetprocinfo => (sysnum SYS_getprocinfo, [DATA], [])
  | SWrite fd bs => (sysnum SYS_write, [fd; DATA; Z.of_nat (length bs)], bs)
  | SRead fd n => (sysnum SYS_read, [fd; DATA; n], [])
  | SClose fd => (sysnum SYS_close, [fd], [])
  | SKill pid => (sysnum SYS_kill, [pid], [])
  | SExec path argv =>
      let n := 8 * (Z.of_nat (length argv) + 1) in
      let '(ps, bs) := strings (DATA + n) (path :: argv) in
      (sysnum SYS_exec, [DATA + n; DATA], concat (le_bytes 8 <$> (tail ps ++ [0])) ++ bs)
  | SOpen path omode => path1 SYS_open path [omode]
  | SMknod path major minor => path1 SYS_mknod path [major; minor]
  | SUnlink path => path1 SYS_unlink path []
  | SFstat fd => (sysnum SYS_fstat, [fd; DATA], [])
  | SLink old new =>
      let '(ps, bs) := strings DATA [old; new] in (sysnum SYS_link, ps, bs)
  | SMkdir path => path1 SYS_mkdir path []
  | SChdir path => path1 SYS_chdir path []
  | SDup fd => (sysnum SYS_dup, [fd], [])
  | SSbrk n how => (sysnum SYS_sbrk, [n; how], [])
  | SPause n => (sysnum SYS_pause, [n], [])
  | SSleep n => (sysnum SYS_sleep, [n], [])
  | SRaw num args => (num, args, [])
  | SPeek _ _ | SPoke _ _ | SSpin => (0, [], [])
  end.

(** How many bytes the kernel has stored at [DATA] when the call returned [v]. *)
Definition stored (c : call) (v : Z) : Z :=
  match c with
  | SWait => if v <? 0 then 0 else 4
  | SPipe => if v <? 0 then 0 else 8
  | SGetprocinfo => 28 * v
  | SRead _ _ => v
  | SFstat _ => if v <? 0 then 0 else 24
  | _ => 0
  end.
(** The value a call returns: an [int], or a pointer as a signed number. *)
Definition value_of (c : call) (a0 : Z) : Z :=
  match c with SSbrk _ _ => if a0 <? 2 ^ 63 then a0 else a0 - 2 ^ 64 | _ => i32 a0 end.

(** ** The machine *)

(** What a process goes on with when it is back in user mode: the program at its entry, the
    reply of the call it made, or what it was doing when it was interrupted. *)
Inductive back :=
  | Enter
  | Answer (c : call) (k : reply → U Z)
  | Again (u : U Z).

(** The kernel thread of a process that is not running, or [forkret] if it has not run. *)
Record task := Task { t_thread : option (kstate → res kstate Z); t_back : back }.

(** What the hart runs: the scheduler loop, the process it has switched to, or that process
    in user mode.  [k] is the rest of the scheduler's iteration. *)
Inductive running :=
  | InScheduler
  | Switched (k : kstate → res kstate unit)
  | InUser (k : kstate → res kstate unit) (u : U Z).

(** [m_typed] is the characters that will be typed at the console. *)
Record machine := Mach {
  m_kernel : kstate;
  m_mode : running;
  m_tasks : gmap nat task;
  m_typed : list Z }.

(** How a run ends. *)
Inductive ending :=
  | Panics (msg : string) (m : machine)
  | Undefined (msg : string) (m : machine)
  | Unknown (why : string) (m : machine)
  | Going (m : machine).

Section system.
Context {L : Layout} {F : Fuel} {J : Stack}.
(** The programs, by the first word of their text. *)
Variable program : Z → option (list (list Z) → U Z).

Definition with_csrs (scause stval : Z) (spp : bool) (s : kstate) : kstate :=
  set_k_csr (set_r_scause scause (set_r_stval stval
    (set_r_sstatus (setbit_to (r_sstatus (k_csr s)) 8 spp) (k_csr s)))) s.

(** The strings of [argv]. *)
Fixpoint user_string (fuel : nat) (m : mem) (pt va : Z) : list Z :=
  match fuel with
  | O => []
  | S f =>
      match user_pa m pt Load va with
      | None => []
      | Some pa => if ld8 m pa =? 0 then [] else ld8 m pa :: user_string f m pt (va + 1)
      end
  end.
Definition user_argv (m : mem) (pt argc argv : Z) : list (list Z) :=
  (λ i, match load_at m pt (argv + 8 * Z.of_nat i) 8 with
        | inr p => user_string (Z.to_nat PGSIZE) m pt (le_val p)
        | inl _ => []
        end) <$> seq 0 (Z.to_nat argc).

(** [start] of ulib.c: [exit(main(argc, argv))]. *)
Definition enter (p : proc) (s : kstate) : option (U Z) :=
  let m := k_mem s in
  let tf := p_trapframe p in
  match load_at m (p_pagetable p) (ld64 m (tf + tf_epc)) 4 with
  | inl _ => None
  | inr w =>
      match program (le_val w) with
      | None => None
      | Some main =>
          Some (main (user_argv m (p_pagetable p) (ld64 m (tf + tf_a 0)) (ld64 m (tf + tf_a 1))))
      end
  end.

Definition answer (c : call) (p : proc) (s : kstate) : reply :=
  let m := k_mem s in
  let v := value_of c (ld64 m (p_trapframe p + tf_a 0)) in
  Reply v (match load_at m (p_pagetable p) DATA (stored c v) with inr l => l | inl _ => [] end).

(** The program of a process that returns to user mode. *)
Definition resume_user (b : back) (p : proc) (s : kstate) : option (U Z) :=
  match b with
  | Enter => enter p s
  | Again u => Some u
  | Answer c k =>
      let r := answer c p s in
      match c with
      | SExec _ _ => if rv r <? 0 then Some (k r) else enter p s
      | _ => Some (k r)
      end
  end.

(** A new child waits for its first run, with the same program as its parent. *)
Definition newborn (b : back) (p : proc) (s : kstate) (ts : gmap nat task) : gmap nat task :=
  match b with
  | Answer SFork k =>
      let pid := rv (answer SFork p s) in
      if 0 <? pid then
        match find_index (λ q, (p_pid q =? pid) && negb (bool_decide (p_state q = UNUSED))) (k_procs s) with
        | Some j => <[j := Task None b]> ts
        | None => ts
        end
      else ts
  | _ => ts
  end.

(** Kernel code of process [i] returned or switched; [k] is the rest of the scheduler's
    iteration. *)
Definition settle (i : nat) (b : back) (k : kstate → res kstate unit) (r : res kstate Z)
    (m : machine) : ending :=
  match r with
  | Ret _ s =>
      match k_procs s !! i with
      | None => Unknown "proc" m
      | Some p =>
          match resume_user b p s with
          | None => Unknown "program" (Mach s (m_mode m) (m_tasks m) (m_typed m))
          | Some u => Going (Mach s (InUser k u) (newborn b p s (m_tasks m)) (m_typed m))
          end
      end
  | Swtch s t =>
      match k s with
      | Ret _ s' => Going (Mach s' InScheduler (<[i := Task (Some t) b]> (m_tasks m)) (m_typed m))
      | Panic e s' => Panics e (Mach s' (m_mode m) (m_tasks m) (m_typed m))
      | _ => Unknown "scheduler" m
      end
  | Panic e s => Panics e (Mach s (m_mode m) (m_tasks m) (m_typed m))
  | Undef e s => Undefined e (Mach s (m_mode m) (m_tasks m) (m_typed m))
  | NoFuel => Unknown "fuel" m
  end.

(** A trap from user mode. *)
Definition trap_user (i : nat) (scause stval : Z) (b : back) (k : kstate → res kstate unit)
    (s : kstate) (m : machine) : ending :=
  settle i b k (usertrap (with_csrs scause stval false (set_k_intr false s))) m.

(** [a0] to [a6] from the list, [a7] the number. *)
Definition set_regs (tf num : Z) (args : list Z) (m : mem) : mem :=
  foldr (λ x m, st64 m (tf + tf_a (Z.of_nat x.1)) (u64 x.2))
    (st64 m (tf + tf_a 7) (u64 num)) (imap pair args).

Definition ecall (i : nat) (p : proc) (num : Z) (args : list Z) (b : back)
    (k : kstate → res kstate unit) (s : kstate) (m : machine) : ending :=
  trap_user i 8 0 b k (set_k_mem (set_regs (p_trapframe p) num args (k_mem s)) s) m.

Definition TIMER : Z := 0x8000000000000005.
Definition EXTERNAL : Z := 0x8000000000000009.

(** Process [i] takes a step in user mode. *)
Definition user_turn (i : nat) (p : proc) (u : U Z) (k : kstate → res kstate unit) (m : machine) : ending :=
  let s := m_kernel m in
  let pt := p_pagetable p in
  match u with
  | Done v | Quit v => ecall i p SYS_exit [v] (Again u) k s m
  | Call (SPeek a n) f =>
      match load_at (k_mem s) pt a n with
      | inl va => trap_user i 13 va (Again u) k s m
      | inr l => Going (Mach s (InUser k (f (Reply 0 l))) (m_tasks m) (m_typed m))
      end
  | Call (SPoke a bs) f =>
      match store_at (k_mem s) pt a bs with
      | inl va => trap_user i 15 va (Again u) k s m
      | inr mm => Going (Mach (set_k_mem mm s) (InUser k (f (Reply 0 []))) (m_tasks m) (m_typed m))
      end
  | Call SSpin f => trap_user i TIMER 0 (Again (f (Reply 0 []))) k s m
  | Call c f =>
      let '(num, args, bs) := marshal c in
      match store_at (k_mem s) pt DATA bs with
      | inl va => trap_user i 15 va (Again u) k s m
      | inr mm => ecall i p num args (Answer c f) k (set_k_mem mm s) m
      end
  | Bad why => Unknown why m
  | OutOfFuel => Unknown "program fuel" m
  end.

(** An interrupt while the hart waits in the scheduler. *)
Definition interrupt (scause : Z) (s : kstate) (typed : list Z) (m : machine) : ending :=
  match kerneltrap (with_csrs scause 0 true (set_k_intr false s)) with
  | Ret _ s' => Going (Mach s' InScheduler (m_tasks m) typed)
  | Panic e s' => Panics e m
  | Undef e s' => Undefined e m
  | _ => Unknown "kerneltrap" m
  end.
(** The disk serves a request, else the UART has sent a character, or has received one,
    else time passes. *)
Definition idle (s : kstate) (m : machine) : ending :=
  let v := k_vd s in
  if negb (v_seen v =? v_avail_idx v) then
    interrupt EXTERNAL (let s := device_serve s in set_k_irqs (k_irqs s ++ [VIRTIO0_IRQ]) s) (m_typed m) m
  else if negb (u_tx_idle (k_uart s)) then
    interrupt EXTERNAL (set_k_uart (set_u_tx_idle true (k_uart s))
      (set_k_irqs (k_irqs s ++ [UART0_IRQ]) s)) (m_typed m) m
  else match m_typed m with
  | c :: l =>
      interrupt EXTERNAL (set_k_uart (set_u_rx (u_rx (k_uart s) ++ [c]) (k_uart s))
        (set_k_irqs (k_irqs s ++ [UART0_IRQ]) s)) l m
  | [] => interrupt TIMER s [] m
  end.

Definition turn (m : machine) : ending :=
  let s := m_kernel m in
  match m_mode m with
  | InScheduler =>
      match scheduler_iter s with
      | Ret _ s' => idle s' m
      | Swtch s' k => Going (Mach s' (Switched k) (m_tasks m) (m_typed m))
      | Panic e s' => Panics e m
      | Undef e s' => Undefined e m
      | NoFuel => Unknown "scheduler" m
      end
  | Switched k =>
      match cur s with
      | None => Unknown "no process" m
      | Some i =>
          match m_tasks m !! i with
          | None => Unknown "no task" m
          | Some (Task (Some t) b) => settle i b k (t s) m
          | Some (Task None b) => settle i b k (forkret s) m
          end
      end
  | InUser k u =>
      match cur s with
      | None => Unknown "no process" m
      | Some i =>
          match k_procs s !! i with
          | None => Unknown "proc" m
          | Some p => user_turn i p u k m
          end
      end
  end.

Fixpoint go (turns : nat) (m : machine) : ending :=
  match turns with
  | O => Going m
  | S n => match turn m with Going m' => go n m' | e => e end
  end.

(** The machine after [main]: the first process enters [forkret] with no program. *)
Definition booted (s : kstate) (typed : list Z) : machine :=
  Mach s InScheduler {[ 0%nat := Task None Enter ]} typed.
End system.
