(* ===== verification/Usertests.v ===== *)
(** * user/usertests.c

    The test suite of the system calls: each test is a program of system calls, and the
    driver runs each in a process of its own and looks at its exit status.  Local arrays are
    values of the program.  Tests that hand wild pointers to the kernel, or touch memory
    they should not have, use the nodes [SRaw], [SPeek] and [SPoke]; [locals] is the address
    of the arrays such a test passes, and [sp] the stack pointer of [stacktest].  Loops that
    end only when the kernel says so have [fuel]. *)
From Stdlib Require Import ZArith Lia.
From stdpp Require Import base list gmap numbers strings.
From S2P Require Import Prelude Machine Bytes State Printk Asm User Ulib Uprintf Tools.
Local Open Scope Z_scope.

(** ** Control flow *)

Fixpoint ufold {A B} (l : list A) (b : B) (f : B → A → U B) : U B :=
  match l with [] => mret b | x :: l' => b' ← f b x; ufold l' b' f end.
(** A loop over [l] that the body leaves by returning [true]. *)
Fixpoint uuntil {A} (l : list A) (f : A → U bool) : U bool :=
  match l with [] => mret false | x :: l' => stop ← f x; if (stop : bool) then mret true else uuntil l' f end.
(** A loop that the body leaves by returning [inr]. *)
Fixpoint uloop {A B} (fuel : nat) (a : A) (f : A → U (A + B)) : U B :=
  match fuel with
  | O => OutOfFuel
  | S n => r ← f a; match r with inl a' => uloop n a' f | inr b => mret b end
  end.
(** [for (;;) ;] *)
Fixpoint spin {A} (fuel : nat) : U A :=
  match fuel with O => OutOfFuel | S n => sysv SSpin ;; spin n end.

Definition upto (n : Z) : list Z := Z.of_nat <$> seq 0 (Z.to_nat n).

(** ** Calls *)

Definition fail {A} (fmt : list Z) (args : list karg) : U A := printf fmt args ;; uexit 1.
Definition KS (s : list Z) : karg := KStr (Some s).

Definition O_RDONLY : Z := 0x000.
Definition O_WRONLY : Z := 0x001.
Definition O_RDWR : Z := 0x002.
Definition O_CREATE : Z := 0x200.
Definition O_TRUNC : Z := 0x400.
Infix "∥" := Z.lor (at level 35).

Definition open (path : list Z) (omode : Z) : U Z := sysv (SOpen path omode).
Definition close (fd : Z) : U Z := sysv (SClose fd).
Definition unlink (path : list Z) : U Z := sysv (SUnlink path).
Definition mkdir (path : list Z) : U Z := sysv (SMkdir path).
Definition chdir (path : list Z) : U Z := sysv (SChdir path).
Definition link (old new : list Z) : U Z := sysv (SLink old new).
Definition fork : U Z := sysv SFork.
Definition kill (pid : Z) : U Z := sysv (SKill pid).
Definition pause (n : Z) : U Z := sysv (SPause n).
Definition exec (path : list Z) (argv : list (list Z)) : U Z := sysv (SExec path argv).
(** [write(fd, buf, n)] of an array. *)
Definition write (fd : Z) (buf : list Z) (n : nat) : U Z :=
  if decide (n ≤ length buf)%nat then sysv (SWrite fd (take n buf)) else Bad "write".
(** [read(fd, buf, n)] into an array: the result and the array. *)
Definition read (fd : Z) (buf : list Z) (n : Z) : U (Z * list Z) :=
  if decide (n ≤ Z.of_nat (length buf)) then
    r ← sys (SRead fd n); b ← ufill buf r; mret (rv r, b)
  else Bad "read".
(** [wait(&x)]: the result and [x], which starts as [x0]. *)
Definition wait (x0 : Z) : U (Z * Z) :=
  r ← sys SWait; mret (rv r, match rbuf r with [] => x0 | l => i32 (le_val l) end).
(** [pipe(fds)]: the result, [fds[0]] and [fds[1]]. *)
Definition pipe : U (Z * Z * Z) :=
  r ← sys SPipe; mret (rv r, i32 (ldl 4 (rbuf r) 0), i32 (ldl 4 (rbuf r) 4)).
Definition raw (n : sysno) (args : list Z) : U Z := sysv (SRaw (sysnum n) args).
Definition peek (a n : Z) : U (list Z) := r ← sys (SPeek a n); mret (rbuf r).
Definition poke (a : Z) (bs : list Z) : U unit := sysv (SPoke a bs) ;; mret tt.
(** The string at an address, as [printf] reads it. *)
Fixpoint peekstr (fuel : nat) (a : Z) : U (list Z) :=
  match fuel with
  | O => OutOfFuel
  | S n =>
      l ← peek a 1;
      if le_val l =? 0 then mret [] else l' ← peekstr n (u64 (a + 1)); mret (l ++ l')
  end.
Definition SBRK_ERROR : Z := -1.

Definition MAXFILE : Z := 268.
Definition BSIZE : Z := 1024.
Definition BUFSZ : Z := (MAXOPBLOCKS + 2) * BSIZE.
(** [char buf[BUFSZ]], zero at the start of every test. *)
Definition buf0 : list Z := replicate (Z.to_nat BUFSZ) 0.

Section usertests.
Variable fuel : nat.
Variables locals sp : Z.
(** The allocator of umalloc.c, which is the subject of Umalloc.v. *)
Variable malloc : Z → U Z.
Variable free : Z → U unit.

(** ** Tests that run fairly quickly *)

Definition copyin (s : list Z) : U unit :=
  ueach [0x80000000; 0x3fffffe000; 0x3ffffff000; 0x4000000000; 0xffffffffffffffff] (λ addr,
    fd ← open (str "copyin1") (O_CREATE ∥ O_WRONLY);
    uwhen (fd <? 0) (fail (line "open(copyin1) failed") []) ;;
    n ← raw SYS_write [fd; addr; 8192];
    uwhen (n >=? 0) (fail (line "write(fd, %p, 8192) returned %d, not -1") [KInt addr; KInt n]) ;;
    close fd ;;
    unlink (str "copyin1") ;;
    n ← raw SYS_write [1; addr; 8192];
    uwhen (n >? 0) (fail (line "write(1, %p, 8192) returned %d, not -1 or 0") [KInt addr; KInt n]) ;;
    '(r, fds0, fds1) ← pipe;
    uwhen (r <? 0) (fail (line "pipe() failed") []) ;;
    n ← raw SYS_write [fds1; addr; 8192];
    uwhen (n >? 0) (fail (line "write(pipe, %p, 8192) returned %d, not -1 or 0") [KInt addr; KInt n]) ;;
    close fds0 ;;
    close fds1 ;; mret tt).

Definition copyout (s : list Z) : U unit :=
  ueach [0; 0x80000000; 0x3fffffe000; 0x3ffffff000; 0x4000000000; 0xffffffffffffffff] (λ addr,
    fd ← open (str "README") 0;
    uwhen (fd <? 0) (fail (line "open(README) failed") []) ;;
    n ← raw SYS_read [fd; addr; 8192];
    uwhen (n >? 0) (fail (line "read(fd, %p, 8192) returned %d, not -1 or 0") [KInt addr; KInt n]) ;;
    close fd ;;
    '(r, fds0, fds1) ← pipe;
    uwhen (r <? 0) (fail (line "pipe() failed") []) ;;
    n ← write fds1 (str "x") 1;
    uwhen (negb (n =? 1)) (fail (line "pipe write failed") []) ;;
    n ← raw SYS_read [fds0; addr; 8192];
    uwhen (n >? 0) (fail (line "read(pipe, %p, 8192) returned %d, not -1 or 0") [KInt addr; KInt n]) ;;
    close fds0 ;;
    close fds1 ;; mret tt).

Definition copyinstr1 (s : list Z) : U unit :=
  ueach [0x80000000; 0x3fffffe000; 0x3ffffff000; 0x4000000000; 0xffffffffffffffff] (λ addr,
    fd ← raw SYS_open [addr; O_CREATE ∥ O_WRONLY];
    uwhen (fd >=? 0) (fail (line "open(%p) returned %d, not -1") [KInt addr; KInt fd])).

Definition copyinstr2 (s : list Z) : U unit :=
  let b := replicate (Z.to_nat MAXPATH) 120 in
  ret ← unlink b;
  uwhen (negb (ret =? -1)) (fail (line "unlink(%s) returned %d, not -1") [KS b; KInt ret]) ;;
  fd ← open b (O_CREATE ∥ O_WRONLY);
  uwhen (negb (fd =? -1)) (fail (line "open(%s) returned %d, not -1") [KS b; KInt fd]) ;;
  ret ← link b b;
  uwhen (negb (ret =? -1)) (fail (line "link(%s, %s) returned %d, not -1") [KS b; KS b; KInt ret]) ;;
  ret ← exec b [str "xx"];
  uwhen (negb (ret =? -1)) (fail (line "exec(%s) returned %d, not -1") [KS b; KInt fd]) ;;
  pid ← fork;
  uwhen (pid <? 0) (fail (line "fork failed") []) ;;
  uwhen (pid =? 0)
    (let big := replicate (Z.to_nat PGSIZE) 120 in
     ret ← exec (str "echo") [big; big; big];
     uwhen (negb (ret =? -1)) (fail (line "exec(echo, BIG) returned %d, not -1") [KInt fd]) ;;
     uexit 747) ;;
  '(_, st) ← wait 0;
  uwhen (negb (st =? 747)) (fail (line "exec(echo, BIG) succeeded, should have failed") []).

Definition copyinstr3 (s : list Z) : U unit :=
  sbrk 8192 ;;
  top ← sbrk 0;
  let top := u64 top in
  uwhen (negb (top mod PGSIZE =? 0)) (sbrk (PGSIZE - top mod PGSIZE) ;; mret tt) ;;
  top ← sbrk 0;
  let top := u64 top in
  uwhen (negb (top mod PGSIZE =? 0)) (fail (line "oops") []) ;;
  let b := u64 (top - 1) in
  poke b [120] ;;
  ret ← raw SYS_unlink [b];
  uwhen (negb (ret =? -1))
    (b ← peekstr fuel b; fail (line "unlink(%s) returned %d, not -1") [KS b; KInt ret]) ;;
  fd ← raw SYS_open [b; O_CREATE ∥ O_WRONLY];
  uwhen (negb (fd =? -1))
    (b ← peekstr fuel b; fail (line "open(%s) returned %d, not -1") [KS b; KInt fd]) ;;
  ret ← raw SYS_link [b; b];
  uwhen (negb (ret =? -1))
    (b ← peekstr fuel b; fail (line "link(%s, %s) returned %d, not -1") [KS b; KS b; KInt ret]) ;;
  poke locals (le_bytes 8 (locals + 16) ++ le_bytes 8 0 ++ str "xx" ++ [0]) ;;
  ret ← raw SYS_exec [b; locals];
  uwhen (negb (ret =? -1))
    (b ← peekstr fuel b; fail (line "exec(%s) returned %d, not -1") [KS b; KInt fd]).

Definition rwsbrk (s : list Z) : U unit :=
  a ← sbrk 8192;
  uwhen (a =? SBRK_ERROR) (fail (line "sbrk(rwsbrk) failed") []) ;;
  r ← sbrk (-8192);
  uwhen (r =? SBRK_ERROR) (fail (line "sbrk(rwsbrk) shrink failed") []) ;;
  fd ← open (str "rwsbrk") (O_CREATE ∥ O_WRONLY);
  uwhen (fd <? 0) (fail (line "open(rwsbrk) failed") []) ;;
  n ← raw SYS_write [fd; u64 (a + PGSIZE); 1024];
  uwhen (n >=? 0) (fail (line "write(fd, %p, 1024) returned %d, not -1") [KInt (a + PGSIZE); KInt n]) ;;
  close fd ;;
  unlink (str "rwsbrk") ;;
  fd ← open (str "README") O_RDONLY;
  uwhen (fd <? 0) (fail (line "open(README) failed") []) ;;
  n ← raw SYS_read [fd; u64 (a + PGSIZE); 10];
  uwhen (n >=? 0) (fail (line "read(fd, %p, 10) returned %d, not -1") [KInt (a + PGSIZE); KInt n]) ;;
  close fd ;;
  uexit 0.

Definition truncate1 (s : list Z) : U unit :=
  let buf := replicate 32 0 in
  unlink (str "truncfile") ;;
  fd1 ← open (str "truncfile") (O_CREATE ∥ O_WRONLY ∥ O_TRUNC);
  write fd1 (str "abcd") 4 ;;
  close fd1 ;;
  fd2 ← open (str "truncfile") O_RDONLY;
  '(n, buf) ← read fd2 buf 32;
  uwhen (negb (n =? 4)) (fail (line "%s: read %d bytes, wanted 4") [KS s; KInt n]) ;;
  fd1 ← open (str "truncfile") (O_WRONLY ∥ O_TRUNC);
  fd3 ← open (str "truncfile") O_RDONLY;
  '(n, buf) ← read fd3 buf 32;
  uwhen (negb (n =? 0))
    (printf (line "aaa fd3=%d") [KInt fd3] ;; fail (line "%s: read %d bytes, wanted 0") [KS s; KInt n]) ;;
  '(n, buf) ← read fd2 buf 32;
  uwhen (negb (n =? 0))
    (printf (line "bbb fd2=%d") [KInt fd2] ;; fail (line "%s: read %d bytes, wanted 0") [KS s; KInt n]) ;;
  write fd1 (str "abcdef") 6 ;;
  '(n, buf) ← read fd3 buf 32;
  uwhen (negb (n =? 6)) (fail (line "%s: read %d bytes, wanted 6") [KS s; KInt n]) ;;
  '(n, buf) ← read fd2 buf 32;
  uwhen (negb (n =? 2)) (fail (line "%s: read %d bytes, wanted 2") [KS s; KInt n]) ;;
  unlink (str "truncfile") ;;
  close fd1 ;;
  close fd2 ;;
  close fd3 ;; mret tt.

Definition truncate2 (s : list Z) : U unit :=
  unlink (str "truncfile") ;;
  fd1 ← open (str "truncfile") (O_CREATE ∥ O_TRUNC ∥ O_WRONLY);
  write fd1 (str "abcd") 4 ;;
  fd2 ← open (str "truncfile") (O_TRUNC ∥ O_WRONLY);
  n ← write fd1 (str "x") 1;
  uwhen (negb (n =? -1)) (fail (line "%s: write returned %d, expected -1") [KS s; KInt n]) ;;
  unlink (str "truncfile") ;;
  close fd1 ;;
  close fd2 ;; mret tt.

Definition truncate3 (s : list Z) : U unit :=
  fd ← open (str "truncfile") (O_CREATE ∥ O_TRUNC ∥ O_WRONLY);
  close fd ;;
  pid ← fork;
  uwhen (pid <? 0) (fail (line "%s: fork failed") [KS s]) ;;
  uwhen (pid =? 0)
    (ueach (upto 100) (λ _,
       fd ← open (str "truncfile") O_WRONLY;
       uwhen (fd <? 0) (fail (line "%s: open failed") [KS s]) ;;
       n ← write fd (str "1234567890") 10;
       uwhen (negb (n =? 10)) (fail (line "%s: write got %d, expected 10") [KS s; KInt n]) ;;
       close fd ;;
       fd ← open (str "truncfile") O_RDONLY;
       read fd (replicate 32 0) 32 ;;
       close fd ;; mret tt) ;;
     uexit 0) ;;
  ueach (upto 150) (λ _,
    fd ← open (str "truncfile") (O_CREATE ∥ O_WRONLY ∥ O_TRUNC);
    uwhen (fd <? 0) (fail (line "%s: open failed") [KS s]) ;;
    n ← write fd (str "xxx") 3;
    uwhen (negb (n =? 3)) (fail (line "%s: write got %d, expected 3") [KS s; KInt n]) ;;
    close fd ;; mret tt) ;;
  '(_, xstatus) ← wait 0;
  unlink (str "truncfile") ;;
  uexit xstatus.

Definition iputtest (s : list Z) : U unit :=
  r ← mkdir (str "iputdir");
  uwhen (r <? 0) (fail (line "%s: mkdir failed") [KS s]) ;;
  r ← chdir (str "iputdir");
  uwhen (r <? 0) (fail (line "%s: chdir iputdir failed") [KS s]) ;;
  r ← unlink (str "../iputdir");
  uwhen (r <? 0) (fail (line "%s: unlink ../iputdir failed") [KS s]) ;;
  r ← chdir (str "/");
  uwhen (r <? 0) (fail (line "%s: chdir / failed") [KS s]).

Definition exitiputtest (s : list Z) : U unit :=
  pid ← fork;
  uwhen (pid <? 0) (fail (line "%s: fork failed") [KS s]) ;;
  uwhen (pid =? 0)
    (r ← mkdir (str "iputdir");
     uwhen (r <? 0) (fail (line "%s: mkdir failed") [KS s]) ;;
     r ← chdir (str "iputdir");
     uwhen (r <? 0) (fail (line "%s: child chdir failed") [KS s]) ;;
     r ← unlink (str "../iputdir");
     uwhen (r <? 0) (fail (line "%s: unlink ../iputdir failed") [KS s]) ;;
     uexit 0) ;;
  '(_, xstatus) ← wait 0;
  uexit xstatus.

Definition openiputtest (s : list Z) : U unit :=
  r ← mkdir (str "oidir");
  uwhen (r <? 0) (fail (line "%s: mkdir oidir failed") [KS s]) ;;
  pid ← fork;
  uwhen (pid <? 0) (fail (line "%s: fork failed") [KS s]) ;;
  uwhen (pid =? 0)
    (fd ← open (str "oidir") O_RDWR;
     uwhen (fd >=? 0) (fail (line "%s: open directory for write succeeded") [KS s]) ;;
     uexit 0) ;;
  pause 1 ;;
  r ← unlink (str "oidir");
  uwhen (negb (r =? 0)) (fail (line "%s: unlink failed") [KS s]) ;;
  '(_, xstatus) ← wait 0;
  uexit xstatus.

Definition opentest (s : list Z) : U unit :=
  fd ← open (str "echo") 0;
  uwhen (fd <? 0) (fail (line "%s: open echo failed!") [KS s]) ;;
  close fd ;;
  fd ← open (str "doesnotexist") 0;
  uwhen (fd >=? 0) (fail (line "%s: open doesnotexist succeeded!") [KS s]).

Definition writetest (s : list Z) : U unit :=
  let N := 100 in
  let SZ := 10 in
  fd ← open (str "small") (O_CREATE ∥ O_RDWR);
  uwhen (fd <? 0) (fail (line "%s: error: creat small failed!") [KS s]) ;;
  ueach (upto N) (λ i,
    n ← write fd (str "aaaaaaaaaa") (Z.to_nat SZ);
    uwhen (negb (n =? SZ)) (fail (line "%s: error: write aa %d new file failed") [KS s; KInt i]) ;;
    n ← write fd (str "bbbbbbbbbb") (Z.to_nat SZ);
    uwhen (negb (n =? SZ)) (fail (line "%s: error: write bb %d new file failed") [KS s; KInt i])) ;;
  close fd ;;
  fd ← open (str "small") O_RDONLY;
  uwhen (fd <? 0) (fail (line "%s: error: open small failed!") [KS s]) ;;
  '(i, _) ← read fd buf0 (N * SZ * 2);
  uwhen (negb (i =? N * SZ * 2)) (fail (line "%s: read failed") [KS s]) ;;
  close fd ;;
  r ← unlink (str "small");
  uwhen (r <? 0) (fail (line "%s: unlink small failed") [KS s]).

Definition writebig (s : list Z) : U unit :=
  fd ← open (str "big") (O_CREATE ∥ O_RDWR);
  uwhen (fd <? 0) (fail (line "%s: error: creat big failed!") [KS s]) ;;
  ueach (upto MAXFILE) (λ i,
    n ← write fd (stl 4 buf0 0 i) (Z.to_nat BSIZE);
    uwhen (negb (n =? BSIZE)) (fail (line "%s: error: write big file failed i=%d") [KS s; KInt i])) ;;
  close fd ;;
  fd ← open (str "big") O_RDONLY;
  uwhen (fd <? 0) (fail (line "%s: error: open big failed!") [KS s]) ;;
  uloop fuel (0, stl 4 buf0 0 (MAXFILE - 1)) (λ '(n, buf),
    '(i, buf) ← read fd buf BSIZE;
    if i =? 0 then
      uwhen (negb (n =? MAXFILE)) (fail (str "%s: read only %d blocks from big") [KS s; KInt n]) ;;
      mret (inr tt)
    else
      uwhen (negb (i =? BSIZE)) (fail (line "%s: read failed %d") [KS s; KInt i]) ;;
      let v := i32 (ldl 4 buf 0) in
      uwhen (negb (v =? n))
        (fail (line "%s: read content of block %d is %d") [KS s; KInt n; KInt v]) ;;
      mret (inl (n + 1, buf))) ;;
  close fd ;;
  r ← unlink (str "big");
  uwhen (r <? 0) (fail (line "%s: unlink big failed") [KS s]).

Definition createtest (s : list Z) : U unit :=
  let name i := [97; u8 (48 + i)] in
  ueach (upto 52) (λ i, fd ← open (name i) (O_CREATE ∥ O_RDWR); close fd ;; mret tt) ;;
  ueach (upto 52) (λ i, unlink (name i) ;; mret tt).

Definition dirtest (s : list Z) : U unit :=
  r ← mkdir (str "dir0");
  uwhen (r <? 0) (fail (line "%s: mkdir failed") [KS s]) ;;
  r ← chdir (str "dir0");
  uwhen (r <? 0) (fail (line "%s: chdir dir0 failed") [KS s]) ;;
  r ← chdir (str "..");
  uwhen (r <? 0) (fail (line "%s: chdir .. failed") [KS s]) ;;
  r ← unlink (str "dir0");
  uwhen (r <? 0) (fail (line "%s: unlink dir0 failed") [KS s]).

Definition exectest (s : list Z) : U unit :=
  unlink (str "echo-ok") ;;
  pid ← fork;
  uwhen (pid <? 0) (fail (line "%s: fork failed") [KS s]) ;;
  uwhen (pid =? 0)
    (errfd ← sysv (SDup 1);
     uwhen (errfd <? 0) (fail (line "%s: dup failed") [KS s]) ;;
     close 1 ;;
     fd ← open (str "echo-ok") (O_CREATE ∥ O_WRONLY);
     uwhen (fd <? 0) (fprintf errfd (line "%s: create failed") [KS s] ;; uexit 1) ;;
     uwhen (negb (fd =? 1)) (fprintf errfd (line "%s: wrong fd") [KS s] ;; uexit 1) ;;
     r ← exec (str "echo") [str "echo"; str "OK"];
     uwhen (r <? 0) (fprintf errfd (line "%s: exec echo failed") [KS s] ;; uexit 1)) ;;
  '(r, xstatus) ← wait 0;
  uwhen (negb (r =? pid)) (printf (line "%s: wait failed!") [KS s]) ;;
  uwhen (negb (xstatus =? 0)) (fail (line "%s: nonzero wait status %d") [KS s; KInt xstatus]) ;;
  fd ← open (str "echo-ok") O_RDONLY;
  uwhen (fd <? 0) (fail (line "%s: open failed") [KS s]) ;;
  '(n, buf) ← read fd (replicate 3 0) 2;
  uwhen (negb (n =? 2)) (fail (line "%s: read failed") [KS s]) ;;
  unlink (str "echo-ok") ;;
  if (nth 0 buf 0 =? 79) && (nth 1 buf 0 =? 75) then uexit 0
  else fail (line "%s: wrong output") [KS s].

(** The bytes [seq], [seq + 1], ... that [pipe1] writes. *)
Definition count_up (seq : Z) (n : nat) : list Z := (λ i, u8 (seq + Z.of_nat i)) <$> List.seq 0 n.

Definition pipe1 (s : list Z) : U unit :=
  let N := 5 in
  let SZ := 1033 in
  '(r, fds0, fds1) ← pipe;
  uwhen (negb (r =? 0)) (fail (line "%s: pipe() failed") [KS s]) ;;
  pid ← fork;
  if pid =? 0 then
    close fds0 ;;
    ueach (upto N) (λ n,
      r ← write fds1 (count_up (n * SZ) (Z.to_nat SZ) ++ drop (Z.to_nat SZ) buf0) (Z.to_nat SZ);
      uwhen (negb (r =? SZ)) (fail (line "%s: pipe1 oops 1") [KS s])) ;;
    uexit 0
  else if pid >? 0 then
    close fds1 ;;
    total ← uloop fuel (0, 1, 0, buf0) (λ '(total, cc, seq, buf),
      '(n, buf) ← read fds0 buf cc;
      if n >? 0 then
        if decide (take (Z.to_nat n) buf = count_up seq (Z.to_nat n)) then
          let cc := if BUFSZ <? cc * 2 then BUFSZ else cc * 2 in
          mret (inl (total + n, cc, seq + n, buf))
        else printf (line "%s: pipe1 oops 2") [KS s] ;; mret (inr None)
      else mret (inr (Some total)));
    match total with
    | None => mret tt
    | Some total =>
        uwhen (negb (total =? N * SZ)) (fail (line "%s: pipe1 oops 3 total %d") [KS s; KInt total]) ;;
        close fds0 ;;
        '(_, xstatus) ← wait 0;
        uexit xstatus
    end
  else fail (line "%s: fork() failed") [KS s].

Definition killstatus (s : list Z) : U unit :=
  ueach (upto 100) (λ _,
    pid1 ← fork;
    uwhen (pid1 <? 0) (fail (line "%s: fork failed") [KS s]) ;;
    uwhen (pid1 =? 0) (uloop fuel tt (λ _, sysv SGetpid ;; mret (inl tt))) ;;
    pause 1 ;;
    kill pid1 ;;
    '(_, xst) ← wait 0;
    uwhen (negb (xst =? -1)) (fail (line "%s: status should be -1") [KS s])) ;;
  uexit 0.

Definition preempt (s : list Z) : U unit :=
  pid1 ← fork;
  uwhen (pid1 <? 0) (fail (str "%s: fork failed") [KS s]) ;;
  uwhen (pid1 =? 0) (spin fuel) ;;
  pid2 ← fork;
  uwhen (pid2 <? 0) (fail (line "%s: fork failed") [KS s]) ;;
  uwhen (pid2 =? 0) (spin fuel) ;;
  '(_, pfds0, pfds1) ← pipe;
  pid3 ← fork;
  uwhen (pid3 <? 0) (fail (line "%s: fork failed") [KS s]) ;;
  uwhen (pid3 =? 0)
    (close pfds0 ;;
     n ← write pfds1 (str "x") 1;
     uwhen (negb (n =? 1)) (printf (str "%s: preempt write error") [KS s]) ;;
     close pfds1 ;;
     spin fuel) ;;
  close pfds1 ;;
  '(n, _) ← read pfds0 buf0 BUFSZ;
  if negb (n =? 1) then printf (str "%s: preempt read error") [KS s]
  else
    close pfds0 ;;
    printf (str "kill... ") [] ;;
    kill pid1 ;;
    kill pid2 ;;
    kill pid3 ;;
    printf (str "wait... ") [] ;;
    wait 0 ;;
    wait 0 ;;
    wait 0 ;; mret tt.

Definition exitwait (s : list Z) : U unit :=
  ueach (upto 100) (λ i,
    pid ← fork;
    uwhen (pid <? 0) (fail (line "%s: fork failed") [KS s]) ;;
    if negb (pid =? 0) then
      '(r, xstate) ← wait 0;
      uwhen (negb (r =? pid)) (fail (line "%s: wait wrong pid") [KS s]) ;;
      uwhen (negb (i =? xstate)) (fail (line "%s: wait wrong exit status") [KS s])
    else uexit i).

Definition reparent (s : list Z) : U unit :=
  master_pid ← sysv SGetpid;
  ueach (upto 200) (λ _,
    pid ← fork;
    uwhen (pid <? 0) (fail (line "%s: fork failed") [KS s]) ;;
    if negb (pid =? 0) then
      '(r, _) ← wait 0;
      uwhen (negb (r =? pid)) (fail (line "%s: wait wrong pid") [KS s])
    else
      pid2 ← fork;
      uwhen (pid2 <? 0) (kill master_pid ;; uexit 1) ;;
      uexit 0) ;;
  uexit 0.

Definition twochildren (s : list Z) : U unit :=
  ueach (upto 1000) (λ _,
    pid1 ← fork;
    uwhen (pid1 <? 0) (fail (line "%s: fork failed") [KS s]) ;;
    if pid1 =? 0 then uexit 0
    else
      pid2 ← fork;
      uwhen (pid2 <? 0) (fail (line "%s: fork failed") [KS s]) ;;
      if pid2 =? 0 then uexit 0 else wait 0 ;; wait 0 ;; mret tt).

Definition forkfork (s : list Z) : U unit :=
  ueach (upto 2) (λ _,
    pid ← fork;
    uwhen (pid <? 0) (fail (str "%s: fork failed") [KS s]) ;;
    uwhen (pid =? 0)
      (ueach (upto 200) (λ _,
         pid1 ← fork;
         uwhen (pid1 <? 0) (uexit 1) ;;
         uwhen (pid1 =? 0) (uexit 0) ;;
         wait 0 ;; mret tt) ;;
       uexit 0)) ;;
  ueach (upto 2) (λ _,
    '(_, xstatus) ← wait 0;
    uwhen (negb (xstatus =? 0)) (fail (str "%s: fork in child failed") [KS s])).

Definition forkforkfork (s : list Z) : U unit :=
  unlink (str "stopforking") ;;
  pid ← fork;
  uwhen (pid <? 0) (fail (str "%s: fork failed") [KS s]) ;;
  uwhen (pid =? 0)
    (uloop fuel tt (λ _,
       fd ← open (str "stopforking") 0;
       uwhen (fd >=? 0) (uexit 0) ;;
       r ← fork;
       uwhen (r <? 0) (fd ← open (str "stopforking") (O_CREATE ∥ O_RDWR); close fd ;; mret tt) ;;
       mret (inl tt))) ;;
  pause 20 ;;
  fd ← open (str "stopforking") (O_CREATE ∥ O_RDWR);
  close fd ;;
  wait 0 ;;
  pause 10 ;; mret tt.

Definition reparent2 (s : list Z) : U unit :=
  ueach (upto 800) (λ _,
    pid1 ← fork;
    uwhen (pid1 <? 0) (fail (line "fork failed") []) ;;
    uwhen (pid1 =? 0) (fork ;; fork ;; uexit 0) ;;
    wait 0 ;; mret tt) ;;
  uexit 0.

Definition mem (s : list Z) : U unit :=
  pid ← fork;
  if pid =? 0 then
    m1 ← uloop fuel 0 (λ m1,
      m2 ← malloc 10001;
      if m2 =? 0 then mret (inr m1) else poke m2 (le_bytes 8 m1) ;; mret (inl m2));
    uloop fuel m1 (λ m1,
      if m1 =? 0 then mret (inr tt) else
      m2 ← peek m1 8;
      free m1 ;;
      mret (inl (le_val m2))) ;;
    m1 ← malloc (1024 * 20);
    uwhen (m1 =? 0) (fail (line "%s: couldn't allocate mem?!!") [KS s]) ;;
    free m1 ;;
    uexit 0
  else
    '(_, xstatus) ← wait 0;
    uwhen (xstatus =? -1) (uexit 0) ;;
    uexit xstatus.

Definition sharedfd (s : list Z) : U unit :=
  let N := 1000 in
  let SZ := 10%nat in
  unlink (str "sharedfd") ;;
  fd ← open (str "sharedfd") (O_CREATE ∥ O_RDWR);
  uwhen (fd <? 0) (fail (str "%s: cannot open sharedfd for writing") [KS s]) ;;
  pid ← fork;
  let buf := replicate SZ (if pid =? 0 then 99 else 112) in
  ueach (upto N) (λ _,
    n ← write fd buf SZ;
    uwhen (negb (n =? Z.of_nat SZ)) (fail (line "%s: write sharedfd failed") [KS s])) ;;
  (if pid =? 0 then uexit 0
   else '(_, xstatus) ← wait 0; uwhen (negb (xstatus =? 0)) (uexit xstatus)) ;;
  close fd ;;
  fd ← open (str "sharedfd") 0;
  uwhen (fd <? 0) (fail (line "%s: cannot open sharedfd for reading") [KS s]) ;;
  let count c (buf : list Z) := Z.of_nat (length (filter (λ b, b = c) buf)) in
  '(nc, np) ← uloop fuel (0, 0, buf) (λ '(nc, np, buf),
    '(n, buf) ← read fd buf (Z.of_nat SZ);
    if n >? 0 then mret (inl (nc + count 99 buf, np + count 112 buf, buf)) else mret (inr (nc, np)));
  close fd ;;
  unlink (str "sharedfd") ;;
  if (nc =? N * Z.of_nat SZ) && (np =? N * Z.of_nat SZ) then uexit 0
  else fail (line "%s: nc/np test fails") [KS s].

Definition fourfiles (s : list Z) : U unit :=
  let N := 12 in
  let NCHILD := 4 in
  let SZ := 500%nat in
  let fname i := [102; u8 (48 + i)] in
  ueach (upto NCHILD) (λ pi,
    unlink (fname pi) ;;
    pid ← fork;
    uwhen (pid <? 0) (fail (line "%s: fork failed") [KS s]) ;;
    uwhen (pid =? 0)
      (fd ← open (fname pi) (O_CREATE ∥ O_RDWR);
       uwhen (fd <? 0) (fail (line "%s: create failed") [KS s]) ;;
       ueach (upto N) (λ _,
         n ← write fd (replicate SZ (u8 (48 + pi)) ++ drop SZ buf0) SZ;
         uwhen (negb (n =? Z.of_nat SZ)) (fail (line "write failed %d") [KInt n])) ;;
       uexit 0)) ;;
  ueach (upto NCHILD) (λ _,
    '(_, xstatus) ← wait 0; uwhen (negb (xstatus =? 0)) (uexit xstatus)) ;;
  ueach (upto NCHILD) (λ i,
    fd ← open (fname i) 0;
    total ← uloop fuel (0, buf0) (λ '(total, buf),
      '(n, buf) ← read fd buf BUFSZ;
      if n >? 0 then
        uwhen (negb (bool_decide (take (Z.to_nat n) buf = replicate (Z.to_nat n) (u8 (48 + i)))))
          (fail (line "%s: wrong char") [KS s]) ;;
        mret (inl (total + n, buf))
      else mret (inr total));
    close fd ;;
    uwhen (negb (total =? N * Z.of_nat SZ)) (fail (line "wrong length %d") [KInt total]) ;;
    unlink (fname i) ;; mret tt).

Definition createdelete (s : list Z) : U unit :=
  let N := 20 in
  let NCHILD := 4 in
  let name pi i := [u8 (112 + pi); u8 (48 + i)] in
  ueach (upto NCHILD) (λ pi,
    pid ← fork;
    uwhen (pid <? 0) (fail (line "%s: fork failed") [KS s]) ;;
    uwhen (pid =? 0)
      (ueach (upto N) (λ i,
         fd ← open (name pi i) (O_CREATE ∥ O_RDWR);
         uwhen (fd <? 0) (fail (line "%s: create failed") [KS s]) ;;
         close fd ;;
         uwhen ((i >? 0) && (i mod 2 =? 0))
           (r ← unlink (name pi (i / 2));
            uwhen (r <? 0) (fail (line "%s: unlink failed") [KS s]))) ;;
       uexit 0)) ;;
  ueach (upto NCHILD) (λ _, '(_, xstatus) ← wait 0; uwhen (negb (xstatus =? 0)) (uexit 1)) ;;
  ueach (upto N) (λ i, ueach (upto NCHILD) (λ pi,
    fd ← open (name pi i) 0;
    (if ((i =? 0) || (i >=? N / 2)) && (fd <? 0) then
       fail (line "%s: oops createdelete %s didn't exist") [KS s; KS (name pi i)]
     else if ((i >=? 1) && (i <? N / 2)) && (fd >=? 0) then
       fail (line "%s: oops createdelete %s did exist") [KS s; KS (name pi i)]
     else mret tt) ;;
    uwhen (fd >=? 0) (close fd ;; mret tt))) ;;
  ueach (upto N) (λ i, ueach (upto NCHILD) (λ pi, unlink (name pi i) ;; mret tt)).

Definition unlinkread (s : list Z) : U unit :=
  let SZ := 5 in
  fd ← open (str "unlinkread") (O_CREATE ∥ O_RDWR);
  uwhen (fd <? 0) (fail (line "%s: create unlinkread failed") [KS s]) ;;
  write fd (str "hello") (Z.to_nat SZ) ;;
  close fd ;;
  fd ← open (str "unlinkread") O_RDWR;
  uwhen (fd <? 0) (fail (line "%s: open unlinkread failed") [KS s]) ;;
  r ← unlink (str "unlinkread");
  uwhen (negb (r =? 0)) (fail (line "%s: unlink unlinkread failed") [KS s]) ;;
  fd1 ← open (str "unlinkread") (O_CREATE ∥ O_RDWR);
  write fd1 (str "yyy") 3 ;;
  close fd1 ;;
  '(n, buf) ← read fd buf0 BUFSZ;
  uwhen (negb (n =? SZ)) (fail (str "%s: unlinkread read failed") [KS s]) ;;
  uwhen (negb (nth 0 buf 0 =? 104)) (fail (line "%s: unlinkread wrong data") [KS s]) ;;
  n ← write fd buf 10;
  uwhen (negb (n =? 10)) (fail (line "%s: unlinkread write failed") [KS s]) ;;
  close fd ;;
  unlink (str "unlinkread") ;; mret tt.

Definition linktest (s : list Z) : U unit :=
  let SZ := 5 in
  unlink (str "lf1") ;;
  unlink (str "lf2") ;;
  fd ← open (str "lf1") (O_CREATE ∥ O_RDWR);
  uwhen (fd <? 0) (fail (line "%s: create lf1 failed") [KS s]) ;;
  n ← write fd (str "hello") (Z.to_nat SZ);
  uwhen (negb (n =? SZ)) (fail (line "%s: write lf1 failed") [KS s]) ;;
  close fd ;;
  r ← link (str "lf1") (str "lf2");
  uwhen (r <? 0) (fail (line "%s: link lf1 lf2 failed") [KS s]) ;;
  unlink (str "lf1") ;;
  fd ← open (str "lf1") 0;
  uwhen (fd >=? 0) (fail (line "%s: unlinked lf1 but it is still there!") [KS s]) ;;
  fd ← open (str "lf2") 0;
  uwhen (fd <? 0) (fail (line "%s: open lf2 failed") [KS s]) ;;
  '(n, _) ← read fd buf0 BUFSZ;
  uwhen (negb (n =? SZ)) (fail (line "%s: read lf2 failed") [KS s]) ;;
  close fd ;;
  r ← link (str "lf2") (str "lf2");
  uwhen (r >=? 0) (fail (line "%s: link lf2 lf2 succeeded! oops") [KS s]) ;;
  unlink (str "lf2") ;;
  r ← link (str "lf2") (str "lf1");
  uwhen (r >=? 0) (fail (line "%s: link non-existent succeeded! oops") [KS s]) ;;
  r ← link (str ".") (str "lf1");
  uwhen (r >=? 0) (fail (line "%s: link . lf1 succeeded! oops") [KS s]).

Definition concreate (s : list Z) : U unit :=
  let N := 40 in
  let file i := [67; u8 (48 + i)] in
  ueach (upto N) (λ i,
    unlink (file i) ;;
    pid ← fork;
    (if negb (pid =? 0) && (i mod 3 =? 1) then link (str "C0") (file i) ;; mret tt
     else if (pid =? 0) && (i mod 5 =? 1) then link (str "C0") (file i) ;; mret tt
     else
       fd ← open (file i) (O_CREATE ∥ O_RDWR);
       uwhen (fd <? 0) (fail (line "concreate create %s failed") [KS (file i)]) ;;
       close fd ;; mret tt) ;;
    if pid =? 0 then uexit 0
    else '(_, xstatus) ← wait 0; uwhen (negb (xstatus =? 0)) (uexit 1)) ;;
  fd ← open (str ".") 0;
  '(_, n) ← uloop fuel (replicate (Z.to_nat N) 0, 0, replicate 16 0) (λ '(fa, n, de),
    '(r, de) ← read fd de 16;
    if r >? 0 then
      let name := cstring (drop 2 de) in
      if ldl 2 de 0 =? 0 then mret (inl (fa, n, de)) else
      if (nth 2 de 0 =? 67) && (nth 4 de 0 =? 0) then
        let i := nth 3 de 0 - 48 in
        uwhen ((i <? 0) || (i >=? N)) (fail (line "%s: concreate weird file %s") [KS s; KS name]) ;;
        uwhen (negb (nth (Z.to_nat i) fa 0 =? 0))
          (fail (line "%s: concreate duplicate file %s") [KS s; KS name]) ;;
        mret (inl (<[Z.to_nat i := 1]> fa, n + 1, de))
      else mret (inl (fa, n, de))
    else mret (inr (fa, n)));
  close fd ;;
  uwhen (negb (n =? N)) (fail (line "%s: concreate not enough files in directory listing") [KS s]) ;;
  ueach (upto N) (λ i,
    pid ← fork;
    uwhen (pid <? 0) (fail (line "%s: fork failed") [KS s]) ;;
    (if ((i mod 3 =? 0) && (pid =? 0)) || ((i mod 3 =? 1) && negb (pid =? 0)) then
       ueach (upto 6) (λ _, fd ← open (file i) 0; close fd ;; mret tt)
     else ueach (upto 6) (λ _, unlink (file i) ;; mret tt)) ;;
    if pid =? 0 then uexit 0 else wait 0 ;; mret tt).

Definition linkunlink (s : list Z) : U unit :=
  unlink (str "x") ;;
  pid ← fork;
  uwhen (pid <? 0) (fail (line "%s: fork failed") [KS s]) ;;
  ufold (upto 100) (if pid =? 0 then 97 else 1) (λ x _,
    let x := u32 (x * 1103515245 + 12345) in
    (if x mod 3 =? 0 then fd ← open (str "x") (O_RDWR ∥ O_CREATE); close fd
     else if x mod 3 =? 1 then link (str "cat") (str "x")
     else unlink (str "x")) ;;
    mret x) ;;
  if negb (pid =? 0) then wait 0 ;; mret tt else uexit 0.

Definition subdir (s : list Z) : U unit :=
  unlink (str "ff") ;;
  r ← mkdir (str "dd");
  uwhen (negb (r =? 0)) (fail (line "%s: mkdir dd failed") [KS s]) ;;
  fd ← open (str "dd/ff") (O_CREATE ∥ O_RDWR);
  uwhen (fd <? 0) (fail (line "%s: create dd/ff failed") [KS s]) ;;
  write fd (str "ff") 2 ;;
  close fd ;;
  r ← unlink (str "dd");
  uwhen (r >=? 0) (fail (line "%s: unlink dd (non-empty dir) succeeded!") [KS s]) ;;
  r ← mkdir (str "/dd/dd");
  uwhen (negb (r =? 0)) (fail (line "%s: subdir mkdir dd/dd failed") [KS s]) ;;
  fd ← open (str "dd/dd/ff") (O_CREATE ∥ O_RDWR);
  uwhen (fd <? 0) (fail (line "%s: create dd/dd/ff failed") [KS s]) ;;
  write fd (str "FF") 2 ;;
  close fd ;;
  fd ← open (str "dd/dd/../ff") 0;
  uwhen (fd <? 0) (fail (line "%s: open dd/dd/../ff failed") [KS s]) ;;
  '(cc, buf) ← read fd buf0 BUFSZ;
  uwhen (negb (cc =? 2) || negb (nth 0 buf 0 =? 102)) (fail (line "%s: dd/dd/../ff wrong content") [KS s]) ;;
  close fd ;;
  r ← link (str "dd/dd/ff") (str "dd/dd/ffff");
  uwhen (negb (r =? 0)) (fail (line "%s: link dd/dd/ff dd/dd/ffff failed") [KS s]) ;;
  r ← unlink (str "dd/dd/ff");
  uwhen (negb (r =? 0)) (fail (line "%s: unlink dd/dd/ff failed") [KS s]) ;;
  r ← open (str "dd/dd/ff") O_RDONLY;
  uwhen (r >=? 0) (fail (line "%s: open (unlinked) dd/dd/ff succeeded") [KS s]) ;;
  r ← chdir (str "dd");
  uwhen (negb (r =? 0)) (fail (line "%s: chdir dd failed") [KS s]) ;;
  r ← chdir (str "dd/../../dd");
  uwhen (negb (r =? 0)) (fail (line "%s: chdir dd/../../dd failed") [KS s]) ;;
  r ← chdir (str "dd/../../../dd");
  uwhen (negb (r =? 0)) (fail (line "%s: chdir dd/../../../dd failed") [KS s]) ;;
  r ← chdir (str "./..");
  uwhen (negb (r =? 0)) (fail (line "%s: chdir ./.. failed") [KS s]) ;;
  fd ← open (str "dd/dd/ffff") 0;
  uwhen (fd <? 0) (fail (line "%s: open dd/dd/ffff failed") [KS s]) ;;
  '(n, _) ← read fd buf BUFSZ;
  uwhen (negb (n =? 2)) (fail (line "%s: read dd/dd/ffff wrong len") [KS s]) ;;
  close fd ;;
  r ← open (str "dd/dd/ff") O_RDONLY;
  uwhen (r >=? 0) (fail (line "%s: open (unlinked) dd/dd/ff succeeded!") [KS s]) ;;
  r ← open (str "dd/ff/ff") (O_CREATE ∥ O_RDWR);
  uwhen (r >=? 0) (fail (line "%s: create dd/ff/ff succeeded!") [KS s]) ;;
  r ← open (str "dd/xx/ff") (O_CREATE ∥ O_RDWR);
  uwhen (r >=? 0) (fail (line "%s: create dd/xx/ff succeeded!") [KS s]) ;;
  r ← open (str "dd") O_CREATE;
  uwhen (r >=? 0) (fail (line "%s: create dd succeeded!") [KS s]) ;;
  r ← open (str "dd") O_RDWR;
  uwhen (r >=? 0) (fail (line "%s: open dd rdwr succeeded!") [KS s]) ;;
  r ← open (str "dd") O_WRONLY;
  uwhen (r >=? 0) (fail (line "%s: open dd wronly succeeded!") [KS s]) ;;
  r ← link (str "dd/ff/ff") (str "dd/dd/xx");
  uwhen (r =? 0) (fail (line "%s: link dd/ff/ff dd/dd/xx succeeded!") [KS s]) ;;
  r ← link (str "dd/xx/ff") (str "dd/dd/xx");
  uwhen (r =? 0) (fail (line "%s: link dd/xx/ff dd/dd/xx succeeded!") [KS s]) ;;
  r ← link (str "dd/ff") (str "dd/dd/ffff");
  uwhen (r =? 0) (fail (line "%s: link dd/ff dd/dd/ffff succeeded!") [KS s]) ;;
  r ← mkdir (str "dd/ff/ff");
  uwhen (r =? 0) (fail (line "%s: mkdir dd/ff/ff succeeded!") [KS s]) ;;
  r ← mkdir (str "dd/xx/ff");
  uwhen (r =? 0) (fail (line "%s: mkdir dd/xx/ff succeeded!") [KS s]) ;;
  r ← mkdir (str "dd/dd/ffff");
  uwhen (r =? 0) (fail (line "%s: mkdir dd/dd/ffff succeeded!") [KS s]) ;;
  r ← unlink (str "dd/xx/ff");
  uwhen (r =? 0) (fail (line "%s: unlink dd/xx/ff succeeded!") [KS s]) ;;
  r ← unlink (str "dd/ff/ff");
  uwhen (r =? 0) (fail (line "%s: unlink dd/ff/ff succeeded!") [KS s]) ;;
  r ← chdir (str "dd/ff");
  uwhen (r =? 0) (fail (line "%s: chdir dd/ff succeeded!") [KS s]) ;;
  r ← chdir (str "dd/xx");
  uwhen (r =? 0) (fail (line "%s: chdir dd/xx succeeded!") [KS s]) ;;
  r ← unlink (str "dd/dd/ffff");
  uwhen (negb (r =? 0)) (fail (line "%s: unlink dd/dd/ff failed") [KS s]) ;;
  r ← unlink (str "dd/ff");
  uwhen (negb (r =? 0)) (fail (line "%s: unlink dd/ff failed") [KS s]) ;;
  r ← unlink (str "dd");
  uwhen (r =? 0) (fail (line "%s: unlink non-empty dd succeeded!") [KS s]) ;;
  r ← unlink (str "dd/dd");
  uwhen (r <? 0) (fail (line "%s: unlink dd/dd failed") [KS s]) ;;
  r ← unlink (str "dd");
  uwhen (r <? 0) (fail (line "%s: unlink dd failed") [KS s]).

Definition bigwrite (s : list Z) : U unit :=
  unlink (str "bigwrite") ;;
  uloop fuel 499 (λ sz,
    if negb (sz <? (MAXOPBLOCKS + 2) * BSIZE) then mret (inr tt) else
    fd ← open (str "bigwrite") (O_CREATE ∥ O_RDWR);
    uwhen (fd <? 0) (fail (line "%s: cannot create bigwrite") [KS s]) ;;
    ueach (upto 2) (λ _,
      cc ← write fd buf0 (Z.to_nat sz);
      uwhen (negb (cc =? sz)) (fail (line "%s: write(%d) ret %d") [KS s; KInt sz; KInt cc])) ;;
    close fd ;;
    unlink (str "bigwrite") ;;
    mret (inl (sz + 471))).

Definition bigfile (s : list Z) : U unit :=
  let N := 20 in
  let SZ := 600 in
  unlink (str "bigfile.dat") ;;
  fd ← open (str "bigfile.dat") (O_CREATE ∥ O_RDWR);
  uwhen (fd <? 0) (fail (str "%s: cannot create bigfile") [KS s]) ;;
  ueach (upto N) (λ i,
    n ← write fd (replicate (Z.to_nat SZ) (u8 i) ++ drop (Z.to_nat SZ) buf0) (Z.to_nat SZ);
    uwhen (negb (n =? SZ)) (fail (line "%s: write bigfile failed") [KS s])) ;;
  close fd ;;
  fd ← open (str "bigfile.dat") 0;
  uwhen (fd <? 0) (fail (line "%s: cannot open bigfile") [KS s]) ;;
  total ← uloop fuel (0, 0, buf0) (λ '(i, total, buf),
    '(cc, buf) ← read fd buf (SZ / 2);
    uwhen (cc <? 0) (fail (line "%s: read bigfile failed") [KS s]) ;;
    if cc =? 0 then mret (inr total) else
    uwhen (negb (cc =? SZ / 2)) (fail (line "%s: short read bigfile") [KS s]) ;;
    uwhen (negb (nth 0 buf 0 =? i / 2) || negb (nth (Z.to_nat (SZ / 2 - 1)) buf 0 =? i / 2))
      (fail (line "%s: read bigfile wrong data") [KS s]) ;;
    mret (inl (i + 1, total + cc, buf)));
  close fd ;;
  uwhen (negb (total =? N * SZ)) (fail (line "%s: read bigfile wrong total") [KS s]) ;;
  unlink (str "bigfile.dat") ;; mret tt.

Definition fourteen (s : list Z) : U unit :=
  r ← mkdir (str "12345678901234");
  uwhen (negb (r =? 0)) (fail (line "%s: mkdir 12345678901234 failed") [KS s]) ;;
  r ← mkdir (str "12345678901234/123456789012345");
  uwhen (negb (r =? 0)) (fail (line "%s: mkdir 12345678901234/123456789012345 failed") [KS s]) ;;
  fd ← open (str "123456789012345/123456789012345/123456789012345") O_CREATE;
  uwhen (fd <? 0)
    (fail (line "%s: create 123456789012345/123456789012345/123456789012345 failed") [KS s]) ;;
  close fd ;;
  fd ← open (str "12345678901234/12345678901234/12345678901234") 0;
  uwhen (fd <? 0)
    (fail (line "%s: open 12345678901234/12345678901234/12345678901234 failed") [KS s]) ;;
  close fd ;;
  r ← mkdir (str "12345678901234/12345678901234");
  uwhen (r =? 0) (fail (line "%s: mkdir 12345678901234/12345678901234 succeeded!") [KS s]) ;;
  r ← mkdir (str "123456789012345/12345678901234");
  uwhen (r =? 0) (fail (line "%s: mkdir 12345678901234/123456789012345 succeeded!") [KS s]) ;;
  unlink (str "123456789012345/12345678901234") ;;
  unlink (str "12345678901234/12345678901234") ;;
  unlink (str "12345678901234/12345678901234/12345678901234") ;;
  unlink (str "123456789012345/123456789012345/123456789012345") ;;
  unlink (str "12345678901234/123456789012345") ;;
  unlink (str "12345678901234") ;; mret tt.

Definition rmdot (s : list Z) : U unit :=
  r ← mkdir (str "dots");
  uwhen (negb (r =? 0)) (fail (line "%s: mkdir dots failed") [KS s]) ;;
  r ← chdir (str "dots");
  uwhen (negb (r =? 0)) (fail (line "%s: chdir dots failed") [KS s]) ;;
  r ← unlink (str ".");
  uwhen (r =? 0) (fail (line "%s: rm . worked!") [KS s]) ;;
  r ← unlink (str "..");
  uwhen (r =? 0) (fail (line "%s: rm .. worked!") [KS s]) ;;
  r ← chdir (str "/");
  uwhen (negb (r =? 0)) (fail (line "%s: chdir / failed") [KS s]) ;;
  r ← unlink (str "dots/.");
  uwhen (r =? 0) (fail (line "%s: unlink dots/. worked!") [KS s]) ;;
  r ← unlink (str "dots/..");
  uwhen (r =? 0) (fail (line "%s: unlink dots/.. worked!") [KS s]) ;;
  r ← unlink (str "dots");
  uwhen (negb (r =? 0)) (fail (line "%s: unlink dots failed!") [KS s]).

Definition dirfile (s : list Z) : U unit :=
  fd ← open (str "dirfile") O_CREATE;
  uwhen (fd <? 0) (fail (line "%s: create dirfile failed") [KS s]) ;;
  close fd ;;
  r ← chdir (str "dirfile");
  uwhen (r =? 0) (fail (line "%s: chdir dirfile succeeded!") [KS s]) ;;
  fd ← open (str "dirfile/xx") 0;
  uwhen (fd >=? 0) (fail (line "%s: create dirfile/xx succeeded!") [KS s]) ;;
  fd ← open (str "dirfile/xx") O_CREATE;
  uwhen (fd >=? 0) (fail (line "%s: create dirfile/xx succeeded!") [KS s]) ;;
  r ← mkdir (str "dirfile/xx");
  uwhen (r =? 0) (fail (line "%s: mkdir dirfile/xx succeeded!") [KS s]) ;;
  r ← unlink (str "dirfile/xx");
  uwhen (r =? 0) (fail (line "%s: unlink dirfile/xx succeeded!") [KS s]) ;;
  r ← link (str "README") (str "dirfile/xx");
  uwhen (r =? 0) (fail (line "%s: link to dirfile/xx succeeded!") [KS s]) ;;
  r ← unlink (str "dirfile");
  uwhen (negb (r =? 0)) (fail (line "%s: unlink dirfile failed!") [KS s]) ;;
  fd ← open (str ".") O_RDWR;
  uwhen (fd >=? 0) (fail (line "%s: open . for writing succeeded!") [KS s]) ;;
  fd ← open (str ".") 0;
  n ← write fd (str "x") 1;
  uwhen (n >? 0) (fail (line "%s: write . succeeded!") [KS s]) ;;
  close fd ;; mret tt.

Definition iref (s : list Z) : U unit :=
  let n := Z.of_nat NINODE + 1 in
  ueach (upto n) (λ _,
    r ← mkdir (str "irefd");
    uwhen (negb (r =? 0)) (fail (line "%s: mkdir irefd failed") [KS s]) ;;
    r ← chdir (str "irefd");
    uwhen (negb (r =? 0)) (fail (line "%s: chdir irefd failed") [KS s]) ;;
    mkdir [] ;;
    link (str "README") [] ;;
    fd ← open [] O_CREATE;
    uwhen (fd >=? 0) (close fd ;; mret tt) ;;
    fd ← open (str "xx") O_CREATE;
    uwhen (fd >=? 0) (close fd ;; mret tt) ;;
    unlink (str "xx") ;; mret tt) ;;
  ueach (upto n) (λ _, chdir (str "..") ;; unlink (str "irefd") ;; mret tt) ;;
  chdir (str "/") ;; mret tt.

Definition forktest (s : list Z) : U unit :=
  let N := 1000 in
  n ← uloop (S (Z.to_nat N)) 0 (λ n,
    if negb (n <? N) then mret (inr n) else
    pid ← fork;
    if pid <? 0 then mret (inr n) else
    uwhen (pid =? 0) (uexit 0) ;; mret (inl (n + 1)));
  uwhen (n =? 0) (fail (line "%s: no fork at all!") [KS s]) ;;
  uwhen (n =? N) (fail (line "%s: fork claimed to work 1000 times!") [KS s]) ;;
  ueach (upto n) (λ _,
    '(r, _) ← wait 0;
    uwhen (r <? 0) (fail (line "%s: wait stopped early") [KS s])) ;;
  '(r, _) ← wait 0;
  uwhen (negb (r =? -1)) (fail (line "%s: wait got too many") [KS s]).

Definition sbrkbasic (s : list Z) : U unit :=
  let TOOMUCH := 1024 * 1024 * 1024 in
  pid ← fork;
  uwhen (pid <? 0) (fail (line "fork failed in sbrkbasic") []) ;;
  uwhen (pid =? 0)
    (a ← sbrk TOOMUCH;
     uwhen (a =? SBRK_ERROR) (uexit 0) ;;
     ueach (upto (TOOMUCH / PGSIZE)) (λ i, poke (a + i * PGSIZE) [99]) ;;
     uexit 1) ;;
  '(_, xstatus) ← wait 0;
  uwhen (xstatus =? 1) (fail (line "%s: too much memory allocated!") [KS s]) ;;
  a ← sbrk 0;
  a ← ufold (upto 5000) a (λ a i,
    b ← sbrk 1;
    uwhen (negb (b =? a)) (fail (line "%s: sbrk test failed %d %p %p") [KS s; KInt i; KInt a; KInt b]) ;;
    poke b [1] ;;
    mret (b + 1));
  pid ← fork;
  uwhen (pid <? 0) (fail (line "%s: sbrk test fork failed") [KS s]) ;;
  sbrk 1 ;;
  c ← sbrk 1;
  uwhen (negb (c =? a + 1)) (fail (line "%s: sbrk test failed post-fork") [KS s]) ;;
  uwhen (pid =? 0) (uexit 0) ;;
  '(_, xstatus) ← wait 0;
  uexit xstatus.

Definition sbrkmuch (s : list Z) : U unit :=
  let BIG := 100 * 1024 * 1024 in
  oldbrk ← sbrk 0;
  a ← sbrk 0;
  let amt := BIG - a in
  p ← sbrk (i32 amt);
  uwhen (negb (p =? a))
    (fail (line "%s: sbrk test failed to grow big address space; enough phys mem?") [KS s]) ;;
  let lastaddr := BIG - 1 in
  poke lastaddr [99] ;;
  a ← sbrk 0;
  c ← sbrk (- PGSIZE);
  uwhen (c =? SBRK_ERROR) (fail (line "%s: sbrk could not deallocate") [KS s]) ;;
  c ← sbrk 0;
  uwhen (negb (c =? a - PGSIZE))
    (fail (line "%s: sbrk deallocation produced wrong address, a %p c %p") [KS s; KInt a; KInt c]) ;;
  a ← sbrk 0;
  c ← sbrk PGSIZE;
  bad ← (if negb (c =? a) then mret true else t ← sbrk 0; mret (negb (t =? a + PGSIZE)));
  uwhen bad (fail (line "%s: sbrk re-allocation failed, a %p c %p") [KS s; KInt a; KInt c]) ;;
  b ← peek lastaddr 1;
  uwhen (le_val b =? 99) (fail (line "%s: sbrk de-allocation didn't really deallocate") [KS s]) ;;
  a ← sbrk 0;
  t ← sbrk 0;
  c ← sbrk (i32 (- (t - oldbrk)));
  uwhen (negb (c =? a)) (fail (line "%s: sbrk downsize failed, a %p c %p") [KS s; KInt a; KInt c]).

Definition kernmem (s : list Z) : U unit :=
  ueach ((λ i, KERNBASE + i * 50000) <$> upto 40) (λ a,
    pid ← fork;
    uwhen (pid <? 0) (fail (line "%s: fork failed") [KS s]) ;;
    uwhen (pid =? 0)
      (v ← peek a 1;
       fail (line "%s: oops could read %p = %x") [KS s; KInt a; KInt (le_val v)]) ;;
    '(_, xstatus) ← wait 0;
    uwhen (negb (xstatus =? -1)) (uexit 1)).

Definition MAXVAplus (s : list Z) : U unit :=
  uloop 64 MAXVA (λ a,
    if a =? 0 then mret (inr tt) else
    pid ← fork;
    uwhen (pid <? 0) (fail (line "%s: fork failed") [KS s]) ;;
    uwhen (pid =? 0) (poke a [99] ;; fail (line "%s: oops wrote %p") [KS s; KInt a]) ;;
    '(_, xstatus) ← wait 0;
    uwhen (negb (xstatus =? -1)) (uexit 1) ;;
    mret (inl (u64 (Z.shiftl a 1)))).

Definition sbrkfail (s : list Z) : U unit :=
  let BIG := 100 * 1024 * 1024 in
  '(r, fds0, fds1) ← pipe;
  uwhen (negb (r =? 0)) (fail (line "%s: pipe() failed") [KS s]) ;;
  '(failed, pids, _) ← ufold (upto 10) (false, [], [0]) (λ '(failed, pids, scratch) _,
    pid ← fork;
    uwhen (pid =? 0)
      (t ← sbrk 0;
       a ← sbrk (i32 (BIG - t));
       (if a =? SBRK_ERROR then write fds1 (str "0") 1 else write fds1 (str "1") 1) ;;
       sit_around fuel) ;;
    if negb (pid =? -1) then
      '(_, scratch) ← read fds0 scratch 1;
      mret (failed || (nth 0 scratch 0 =? 48), pids ++ [pid], scratch)
    else mret (failed, pids ++ [pid], scratch));
  uwhen (negb failed) (printf (line "%s: no allocation failed; allocate more?") [KS s]) ;;
  c ← sbrk PGSIZE;
  ueach pids (λ pid, uwhen (negb (pid =? -1)) (kill pid ;; wait 0 ;; mret tt)) ;;
  uwhen (c =? SBRK_ERROR) (fail (line "%s: failed sbrk leaked memory") [KS s]) ;;
  pid ← fork;
  uwhen (pid <? 0) (fail (line "%s: fork failed") [KS s]) ;;
  uwhen (pid =? 0)
    (a ← sbrk (10 * BIG);
     uwhen (a =? SBRK_ERROR) (uexit 0) ;;
     fail (line "%s: allocate a lot of memory succeeded %d") [KS s; KInt (10 * BIG)]) ;;
  '(_, xstatus) ← wait 0;
  uwhen (negb (xstatus =? 0)) (uexit 1).

Definition sbrkarg (s : list Z) : U unit :=
  a ← sbrk PGSIZE;
  fd ← open (str "sbrk") (O_CREATE ∥ O_WRONLY);
  unlink (str "sbrk") ;;
  uwhen (fd <? 0) (fail (line "%s: open sbrk failed") [KS s]) ;;
  n ← raw SYS_write [fd; a; PGSIZE];
  uwhen (n <? 0) (fail (line "%s: write sbrk failed") [KS s]) ;;
  close fd ;;
  a ← sbrk PGSIZE;
  r ← raw SYS_pipe [a];
  uwhen (negb (r =? 0)) (fail (line "%s: pipe() failed") [KS s]).

Definition validatetest (s : list Z) : U unit :=
  let hi := 1100 * 1024 in
  poke locals (str "nosuchfile" ++ [0]) ;;
  ueach ((λ i, i * PGSIZE) <$> upto (hi / PGSIZE + 1)) (λ p,
    r ← raw SYS_link [locals; p];
    uwhen (negb (r =? -1)) (fail (line "%s: link should not succeed") [KS s])).

Definition uninit : list Z := replicate 10000 0.
Definition bsstest (s : list Z) : U unit :=
  ueach uninit (λ b, uwhen (negb (b =? 0)) (fail (line "%s: bss test failed") [KS s])).

Definition bigargtest (s : list Z) : U unit :=
  unlink (str "bigarg-ok") ;;
  pid ← fork;
  (if pid =? 0 then
     exec (str "echo") (replicate (MAXARG - 1) (replicate 399 32)) ;;
     fd ← open (str "bigarg-ok") O_CREATE;
     close fd ;;
     uexit 0
   else uwhen (pid <? 0) (fail (line "%s: bigargtest: fork failed") [KS s])) ;;
  '(_, xstatus) ← wait 0;
  uwhen (negb (xstatus =? 0)) (uexit xstatus) ;;
  fd ← open (str "bigarg-ok") 0;
  uwhen (fd <? 0) (fail (line "%s: bigarg test failed!") [KS s]) ;;
  close fd ;; mret tt.

(** [name] of [fsfull]: [f] and four digits. *)
Definition fsfull_name (n : Z) : list Z :=
  [102; u8 (48 + n / 1000); u8 (48 + n mod 1000 / 100); u8 (48 + n mod 100 / 10); u8 (48 + n mod 10)].
Definition fsfull : U unit :=
  printf (line "fsfull test") [] ;;
  nfiles ← uloop fuel 0 (λ nfiles,
    let name := fsfull_name nfiles in
    printf (line "writing %s") [KS name] ;;
    fd ← open name (O_CREATE ∥ O_RDWR);
    if fd <? 0 then printf (line "open %s failed") [KS name] ;; mret (inr nfiles) else
    total ← uloop fuel 0 (λ total,
      cc ← write fd buf0 (Z.to_nat BSIZE);
      if cc <? BSIZE then mret (inr total) else mret (inl (total + cc)));
    printf (line "wrote %d bytes") [KInt total] ;;
    close fd ;;
    if total =? 0 then mret (inr nfiles) else mret (inl (nfiles + 1)));
  ueach (reverse (upto (nfiles + 1))) (λ n, unlink (fsfull_name n) ;; mret tt) ;;
  printf (line "fsfull test finished") [].

Definition argptest (s : list Z) : U unit :=
  fd ← open (str "init") O_RDONLY;
  uwhen (fd <? 0) (fail (line "%s: open failed") [KS s]) ;;
  top ← sbrk 0;
  raw SYS_read [fd; u64 (top - 1); -1] ;;
  close fd ;; mret tt.

Definition stacktest (s : list Z) : U unit :=
  pid ← fork;
  (if pid =? 0 then
     let sp := sp - USERSTACK * PGSIZE in
     v ← peek sp 1;
     fail (line "%s: stacktest: read below stack %d") [KS s; KInt (le_val v)]
   else uwhen (pid <? 0) (fail (line "%s: fork failed") [KS s])) ;;
  '(_, xstatus) ← wait 0;
  if xstatus =? -1 then uexit 0 else uexit xstatus.

Definition nowrite (s : list Z) : U unit :=
  ueach [0; 0x80000000; 0x3fffffe000; 0x3ffffff000; 0x4000000000; 0xffffffffffffffff] (λ addr,
    pid ← fork;
    (if pid =? 0 then
       poke addr (le_bytes 4 10) ;;
       printf (line "%s: write to %p did not fail!") [KS s; KInt addr] ;;
       uexit 0
     else uwhen (pid <? 0) (fail (line "%s: fork failed") [KS s])) ;;
    '(_, xstatus) ← wait 0;
    uwhen (xstatus =? 0) (uexit 1)) ;;
  uexit 0.

Definition big : Z := 0xeaeb0b5b00002f5e.
Definition pgbug (s : list Z) : U unit :=
  poke locals (le_bytes 8 0) ;;
  raw SYS_exec [big; locals] ;;
  raw SYS_pipe [big] ;;
  uexit 0.

Definition sbrkbugs (s : list Z) : U unit :=
  pid ← fork;
  uwhen (pid <? 0) (fail (line "fork failed") []) ;;
  uwhen (pid =? 0) (sz ← sbrk 0; sbrk (- i32 sz) ;; uexit 0) ;;
  wait 0 ;;
  pid ← fork;
  uwhen (pid <? 0) (fail (line "fork failed") []) ;;
  uwhen (pid =? 0) (sz ← sbrk 0; sbrk (- (i32 sz - 3500)) ;; uexit 0) ;;
  wait 0 ;;
  pid ← fork;
  uwhen (pid <? 0) (fail (line "fork failed") []) ;;
  uwhen (pid =? 0)
    (t ← sbrk 0;
     sbrk (i32 (10 * PGSIZE + 2048 - t)) ;;
     sbrk (-10) ;;
     uexit 0) ;;
  wait 0 ;;
  uexit 0.

Definition sbrklast (s : list Z) : U unit :=
  top ← sbrk 0;
  uwhen (negb (top mod PGSIZE =? 0)) (sbrk (PGSIZE - top mod PGSIZE) ;; mret tt) ;;
  sbrk PGSIZE ;;
  sbrk 10 ;;
  sbrk (-20) ;;
  top ← sbrk 0;
  let p := top - 64 in
  poke p [120; 0] ;;
  fd ← raw SYS_open [p; O_RDWR ∥ O_CREATE];
  raw SYS_write [fd; p; 1] ;;
  close fd ;;
  fd ← raw SYS_open [p; O_RDWR];
  poke p [0] ;;
  raw SYS_read [fd; p; 1] ;;
  b ← peek p 1;
  uwhen (negb (le_val b =? 120)) (uexit 1).

Definition sbrk8000 (s : list Z) : U unit :=
  sbrk (i32 0x80000004) ;;
  top ← sbrk 0;
  b ← peek (top - 1) 1;
  poke (top - 1) [u8 (le_val b + 1)].

Definition badarg (s : list Z) : U unit :=
  poke locals (le_bytes 8 0xffffffff ++ le_bytes 8 0 ++ str "echo" ++ [0]) ;;
  ueach (upto 50000) (λ _, raw SYS_exec [locals + 16; locals] ;; mret tt) ;;
  uexit 0.

Definition REGION_SZ : Z := 1024 * 1024 * 1024.

Definition lazy_alloc (s : list Z) : U unit :=
  prev_end ← sbrklazy REGION_SZ;
  uwhen (prev_end =? SBRK_ERROR) (fail (line "sbrklazy() failed") []) ;;
  let touched := (λ k, prev_end + PGSIZE + k * (64 * PGSIZE)) <$> upto (REGION_SZ / (64 * PGSIZE)) in
  ueach touched (λ i, poke i (le_bytes 8 i)) ;;
  ueach touched (λ i,
    v ← peek i 8;
    uwhen (negb (le_val v =? i)) (fail (line "failed to read value from memory") [])) ;;
  uexit 0.

Definition lazy_unmap (s : list Z) : U unit :=
  prev_end ← sbrklazy REGION_SZ;
  uwhen (prev_end =? SBRK_ERROR) (fail (line "sbrklazy() failed") []) ;;
  let touched := (λ k, prev_end + PGSIZE + k * (PGSIZE * PGSIZE)) <$> upto (REGION_SZ / (PGSIZE * PGSIZE)) in
  ueach touched (λ i, poke i (le_bytes 8 i)) ;;
  ueach touched (λ i,
    pid ← fork;
    if pid <? 0 then fail (line "error forking") []
    else if pid =? 0 then
      sbrklazy (-1 * REGION_SZ) ;;
      poke i (le_bytes 8 i) ;;
      uexit 0
    else
      '(_, status) ← wait 0;
      uwhen (status =? 0) (fail (line "memory not unmapped") [])) ;;
  uexit 0.

Definition lazy_copy (s : list Z) : U unit :=
  p ← sbrk 0;
  sbrklazy (4 * PGSIZE) ;;
  raw SYS_open [p + 8192; 0] ;;
  xx ← sbrk 0;
  ret ← sbrk (i32 (- (xx + 1)));
  uwhen (negb (ret =? xx)) (fail (line "sbrk(sbrk(0)+1) returned %p, not old sz") [KInt ret]) ;;
  ueach [0x3fffffc000; 0x3fffffd000; 0x3fffffe000; 0x3ffffff000; 0x4000000000; 0x8000000000] (λ bad,
    fd ← open (str "README") 0;
    uwhen (fd <? 0) (fail (line "cannot open README") []) ;;
    n ← raw SYS_read [fd; bad; 512];
    uwhen (n >=? 0) (fail (line "read succeeded") []) ;;
    close fd ;;
    fd ← open (str "junk") (O_CREATE ∥ O_RDWR ∥ O_TRUNC);
    uwhen (fd <? 0) (fail (line "cannot open junk") []) ;;
    n ← raw SYS_write [fd; bad; 512];
    uwhen (n >=? 0) (fail (line "write succeeded") []) ;;
    close fd ;; mret tt) ;;
  uexit 0.

(** [p < 0] of a pointer is never true. *)
Definition lazy_sbrk (s : list Z) : U unit :=
  p ← sbrk 0;
  p ← uloop fuel p (λ p,
    if negb (u64 p <? MAXVA - Z.shiftl 1 30) then mret (inr p) else
    sbrklazy (Z.shiftl 1 30) ;;
    p ← sbrklazy 0;
    mret (inl p));
  let n := i32 (TRAPFRAME - PGSIZE - p) in
  p1 ← sbrklazy n;
  uwhen (negb (p1 =? p))
    (fail (line "sbrklazy(%d) returned %p, not expected %p") [KInt n; KInt p1; KInt p]) ;;
  p ← sbrk PGSIZE;
  uwhen (negb (u64 p =? TRAPFRAME - PGSIZE))
    (fail (line "sbrk(%d) returned %p, not expected TRAPFRAME-PGSIZE") [KInt PGSIZE; KInt p]) ;;
  poke p [1] ;;
  v ← peek (p + 1) 1;
  uwhen (negb (le_val v =? 0)) (fail (line "sbrk() returned non-zero-filled memory") []) ;;
  p ← sbrk 1;
  uwhen (negb (p =? -1)) (fail (line "sbrk(1) returned %p, expected error") [KInt p]) ;;
  p ← sbrklazy 1;
  uwhen (negb (p =? -1)) (fail (line "sbrklazy(1) returned %p, expected error") [KInt p]) ;;
  uexit 0.

Definition test : Type := (list Z → U unit) * list Z.
Definition quicktests : list test :=
  [ (copyin, str "copyin"); (copyout, str "copyout"); (copyinstr1, str "copyinstr1");
    (copyinstr2, str "copyinstr2"); (copyinstr3, str "copyinstr3"); (rwsbrk, str "rwsbrk");
    (truncate1, str "truncate1"); (truncate2, str "truncate2"); (truncate3, str "truncate3");
    (openiputtest, str "openiput"); (exitiputtest, str "exitiput"); (iputtest, str "iput");
    (opentest, str "opentest"); (writetest, str "writetest"); (writebig, str "writebig");
    (createtest, str "createtest"); (dirtest, str "dirtest"); (exectest, str "exectest");
    (pipe1, str "pipe1"); (killstatus, str "killstatus"); (preempt, str "preempt");
    (exitwait, str "exitwait"); (reparent, str "reparent"); (twochildren, str "twochildren");
    (forkfork, str "forkfork"); (forkforkfork, str "forkforkfork"); (reparent2, str "reparent2");
    (mem, str "mem"); (sharedfd, str "sharedfd"); (fourfiles, str "fourfiles");
    (createdelete, str "createdelete"); (unlinkread, str "unlinkread"); (linktest, str "linktest");
    (concreate, str "concreate"); (linkunlink, str "linkunlink"); (subdir, str "subdir");
    (bigwrite, str "bigwrite"); (bigfile, str "bigfile"); (fourteen, str "fourteen");
    (rmdot, str "rmdot"); (dirfile, str "dirfile"); (iref, str "iref");
    (forktest, str "forktest"); (sbrkbasic, str "sbrkbasic"); (sbrkmuch, str "sbrkmuch");
    (kernmem, str "kernmem"); (MAXVAplus, str "MAXVAplus"); (sbrkfail, str "sbrkfail");
    (sbrkarg, str "sbrkarg"); (validatetest, str "validatetest"); (bsstest, str "bsstest");
    (bigargtest, str "bigargtest"); (argptest, str "argptest"); (stacktest, str "stacktest");
    (nowrite, str "nowrite"); (pgbug, str "pgbug"); (sbrkbugs, str "sbrkbugs");
    (sbrklast, str "sbrklast"); (sbrk8000, str "sbrk8000"); (badarg, str "badarg");
    (lazy_alloc, str "lazy_alloc"); (lazy_unmap, str "lazy_unmap"); (lazy_copy, str "lazy_copy");
    (lazy_sbrk, str "lazy_sbrk") ].

(** ** Tests that take a fair bit of time *)

Definition bigdir (s : list Z) : U unit :=
  let N := 500 in
  let name i := [120; u8 (48 + i / 64); u8 (48 + i mod 64)] in
  unlink (str "bd") ;;
  fd ← open (str "bd") O_CREATE;
  uwhen (fd <? 0) (fail (line "%s: bigdir create failed") [KS s]) ;;
  close fd ;;
  ueach (upto N) (λ i,
    r ← link (str "bd") (name i);
    uwhen (negb (r =? 0))
      (fail (line "%s: bigdir i=%d link(bd, %s) failed") [KS s; KInt i; KS (name i)])) ;;
  unlink (str "bd") ;;
  ueach (upto N) (λ i,
    r ← unlink (name i);
    uwhen (negb (r =? 0)) (fail (str "%s: bigdir unlink failed") [KS s])).

Definition manywrites (s : list Z) : U unit :=
  let nchildren := 4 in
  let howmany := 30 in
  ueach (upto nchildren) (λ ci,
    pid ← fork;
    uwhen (pid <? 0) (fail (line "fork failed") []) ;;
    uwhen (pid =? 0)
      (let name := [98; u8 (97 + ci)] in
       unlink name ;;
       ueach (upto howmany) (λ _,
         ueach (upto (ci + 1)) (λ _,
           fd ← open name (O_CREATE ∥ O_RDWR);
           uwhen (fd <? 0) (fail (line "%s: cannot create %s") [KS s; KS name]) ;;
           cc ← write fd buf0 (Z.to_nat BUFSZ);
           uwhen (negb (cc =? BUFSZ)) (fail (line "%s: write(%d) ret %d") [KS s; KInt BUFSZ; KInt cc]) ;;
           close fd ;; mret tt) ;;
         unlink name ;; mret tt) ;;
       unlink name ;;
       uexit 0)) ;;
  ueach (upto nchildren) (λ _, '(_, st) ← wait 0; uwhen (negb (st =? 0)) (uexit st)) ;;
  uexit 0.

Definition badwrite (s : list Z) : U unit :=
  let assumed_free := 600 in
  unlink (str "junk") ;;
  ueach (upto assumed_free) (λ _,
    fd ← open (str "junk") (O_CREATE ∥ O_WRONLY);
    uwhen (fd <? 0) (fail (line "open junk failed") []) ;;
    raw SYS_write [fd; 0xffffffffff; 1] ;;
    close fd ;;
    unlink (str "junk") ;; mret tt) ;;
  fd ← open (str "junk") (O_CREATE ∥ O_WRONLY);
  uwhen (fd <? 0) (fail (line "open junk failed") []) ;;
  n ← write fd (str "x") 1;
  uwhen (negb (n =? 1)) (fail (line "write failed") []) ;;
  close fd ;;
  unlink (str "junk") ;;
  uexit 0.

Definition execout (s : list Z) : U unit :=
  ueach (upto 15) (λ avail,
    pid ← fork;
    if pid <? 0 then fail (line "fork failed") []
    else if pid =? 0 then
      uloop fuel tt (λ _,
        a ← sbrk PGSIZE;
        if a =? SBRK_ERROR then mret (inr tt) else poke (a + PGSIZE - 1) [1] ;; mret (inl tt)) ;;
      ueach (upto avail) (λ _, sbrk (- PGSIZE) ;; mret tt) ;;
      close 1 ;;
      exec (str "echo") [str "echo"; str "x"] ;;
      uexit 0
    else wait 0 ;; mret tt) ;;
  uexit 0.

(** The names that [diskfull] and [outofinodes] make. *)
Definition big_name (i : Z) : list Z := str "big" ++ [u8 (48 + i)].
Definition zz_name (i : Z) : list Z := str "zz" ++ [u8 (48 + i / 32); u8 (48 + i mod 32)].

(** The contents of the uninitialised [buf] that [diskfull] writes do not matter to it; they
    are taken to be zero. *)
Definition diskfull (s : list Z) : U unit :=
  unlink (str "diskfulldir") ;;
  uuntil (upto (127 - 48)) (λ fi,
    let name := big_name fi in
    unlink name ;;
    fd ← open name (O_CREATE ∥ O_RDWR ∥ O_TRUNC);
    if fd <? 0 then printf (line "%s: could not create file %s") [KS s; KS name] ;; mret true else
    done ← uuntil (upto MAXFILE) (λ _,
      n ← write fd (replicate (Z.to_nat BSIZE) 0) (Z.to_nat BSIZE);
      if negb (n =? BSIZE) then close fd ;; mret true else mret false);
    close fd ;;
    mret done) ;;
  let nzz := 128 in
  uuntil (upto nzz) (λ i,
    let name := zz_name i in
    unlink name ;;
    fd ← open name (O_CREATE ∥ O_RDWR ∥ O_TRUNC);
    if fd <? 0 then mret true else close fd ;; mret false) ;;
  r ← mkdir (str "diskfulldir");
  uwhen (r =? 0) (printf (line "%s: mkdir(diskfulldir) unexpectedly succeeded!") [KS s]) ;;
  unlink (str "diskfulldir") ;;
  ueach (upto nzz) (λ i, unlink (zz_name i) ;; mret tt) ;;
  ueach (upto (127 - 48)) (λ i, unlink (big_name i) ;; mret tt).

Definition outofinodes (s : list Z) : U unit :=
  let nzz := 32 * 32 in
  uuntil (upto nzz) (λ i,
    let name := zz_name i in
    unlink name ;;
    fd ← open name (O_CREATE ∥ O_RDWR ∥ O_TRUNC);
    if fd <? 0 then mret true else close fd ;; mret false) ;;
  ueach (upto nzz) (λ i, unlink (zz_name i) ;; mret tt).

Definition slowtests : list test :=
  [ (bigdir, str "bigdir"); (manywrites, str "manywrites"); (badwrite, str "badwrite");
    (execout, str "execout"); (diskfull, str "diskfull"); (outofinodes, str "outofinodes") ].

(** ** Driver *)

Definition run (f : list Z → U unit) (s : list Z) : U bool :=
  printf (str "test %s: ") [KS s] ;;
  pid ← fork;
  uwhen (pid <? 0) (fail (line "runtest: fork error") []) ;;
  if pid =? 0 then f s ;; uexit 0
  else
    '(_, xstatus) ← wait 0;
    (if negb (xstatus =? 0) then printf (line "FAILED") [] else printf (line "OK") []) ;;
    mret (xstatus =? 0).

Fixpoint runtests (tests : list test) (justone : option (list Z)) (continuous ntests : Z) : U Z :=
  match tests with
  | [] => mret ntests
  | (f, s) :: tests' =>
      if match justone with None => true | Some j => strcmp s j =? 0 end then
        ok ← run f s;
        if negb ok && negb (continuous =? 2) then
          printf (line "SOME TESTS FAILED") [] ;; mret (-1)
        else runtests tests' justone continuous (ntests + 1)
      else runtests tests' justone continuous ntests
  end.

Definition countfree : U Z :=
  sz0 ← sbrk 0;
  n ← uloop fuel 0 (λ n,
    a ← sbrk PGSIZE;
    if a =? SBRK_ERROR then mret (inr n) else mret (inl (n + 1)));
  t ← sbrk 0;
  sbrk (i32 (- (t - sz0))) ;;
  mret n.

(** One iteration of the loop of [drivetests]: [inr] is [return]. *)
Definition drive_once (quick continuous : Z) (justone : option (list Z)) : U (unit + Z) :=
  printf (line "usertests starting") [] ;;
  free0 ← countfree;
  n ← runtests quicktests justone continuous 0;
  if (n <? 0) && negb (continuous =? 2) then mret (inr 1) else
  let ntests := if n <? 0 then 0 else n in
  o ← (if quick =? 0 then
         uwhen (match justone with None => true | _ => false end)
           (printf (line "usertests slow tests starting") []) ;;
         n ← runtests slowtests justone continuous 0;
         if (n <? 0) && negb (continuous =? 2) then mret None
         else mret (Some (if n <? 0 then ntests else ntests + n))
       else mret (Some ntests));
  match o with
  | None => mret (inr 1)
  | Some ntests =>
      free1 ← countfree;
      lost ← (if free1 <? free0 then
                printf (line "FAILED -- lost some free pages %d (out of %d)") [KInt free1; KInt free0] ;;
                mret (negb (continuous =? 2))
              else mret false);
      if (lost : bool) then mret (inr 1) else
      if match justone with Some _ => ntests =? 0 | None => false end then
        printf (line "NO TESTS EXECUTED") [] ;; mret (inr 1)
      else mret (if continuous =? 0 then inr 0 else inl tt)
  end.
Definition drivetests (quick continuous : Z) (justone : option (list Z)) : U Z :=
  uloop fuel tt (λ _, drive_once quick continuous justone).

Definition main (argv : list (list Z)) : U Z :=
  let argc := length argv in
  let two s := (argc =? 2)%nat && (strcmp (arg argv 1) s =? 0) in
  let go quick continuous justone :=
    r ← drivetests quick continuous justone;
    uwhen (negb (r =? 0)) (uexit 1) ;;
    printf (line "ALL TESTS PASSED") [] ;;
    uexit 0 in
  if two (str "-q") then go 1 0 None
  else if two (str "-c") then go 0 1 None
  else if two (str "-C") then go 0 2 None
  else if (argc =? 2)%nat && negb (nth 0 (arg argv 1) 0 =? 45) then go 0 0 (Some (arg argv 1))
  else if (1 <? argc)%nat then fail (line "Usage: usertests [-c] [-C] [-q] [testname]") []
  else go 0 0 None.
End usertests.
